(* ===== verification/_CoqProject ===== *)
-Q . S2P
Prelude.v
FrameManager.v
FrameConcurrency.v
SpanManager.v
VirtualCache.v
Bfc.v
BfcLayout.v
BfcHeap.v
BfcSafety.v
BfcSpec.v
StringUtil.v
FormatEnforcer.v
PrefixCoordinator.v
PrefixCache.v
PrefixCacheProofs.v
ResultQueue.v
ModelState.v
Scheduler.v
SchedulerEnds.v
SchedulerFrame.v
SchedulerProofs.v
SchedulerSteps.v
SchedulerSpec.v
SchedulerDecode.v
SchedulerTheorems.v
RequestCheck.v
EngineState.v
Engine.v
EngineFrame.v
EngineProofs.v
EngineSync.v
EngineRun.v
EngineRelease.v
EngineCalls.v
EngineEnds.v
EngineTheorems.v
MemoryReuse.v
ReuseProofs.v
ReuseBinding.v
ReuseRun.v
ReuseTwin.v
ReuseTheorems.v
WeightSplit.v
WeightProofs.v
WeightLoad.v
WeightBatch.v
WeightTheorems.v
Sparse.v
SparseProofs.v
SparseRuns.v
SparseTheorems.v
WeightFile.v
FileProofs.v
FileEnds.v
FileTheorems.v
SparseFile.v
WeightManager.v
WeightManagerProofs.v
WeightManagerTheorems.v
Lora.v
LoraProofs.v
LoraTheorems.v
