(* ===== verification/Prelude.v ===== *)
(** * The runtime core of DashInfer

    DashInfer is an inference engine for large language models.  A client asks
    the engine ([AsEngine]) to generate; one worker per device runs the model
    step by step; the key/value cache of the attention layers lives in fixed-size
    device frames that requests share through a prefix cache; tokens come back
    through a queue per request.  This development models the parts of that
    runtime that decide who owns which memory, which request goes on, and what
    reaches the client.  The numerical kernels are not modelled.

    ** Layers, bottom up

    - [Prelude]: status codes, exceptions, the state-and-exception monad [M] in
      which stateful code is written, its weakest precondition [wp], machine
      integers and shared lemmas.
    - [FrameManager] (runtime/cache/frame_manager.h, .cpp): frames of device memory,
      [DefaultCacheFrameManager] and [ConcurrentCacheFrameManager], both
      instances of the class [FrameManager] with the laws of [FrameManagerSpec].
      The device allocator and the lock-free queue are classes with laws.
    - [FrameConcurrency] (same file): the concurrent manager with its atomic
      accesses interleaved between any number of threads.
    - [SpanManager] (runtime/cache/span_manager.h, .cpp): spans, shared mutable objects
      that hold one frame each, over any frame manager.
    - [VirtualCache] (runtime/cache/span_cache_config.cpp, virtual_cache.h, .cpp): the
      configuration and the per-layer arrays of spans of one request, over any
      span manager.
    - [PrefixCache], [PrefixCacheProofs] (runtime/cache/prefix_cache_manager files):
      the hash table of finished spans, reference counts, LRU eviction, swapping
      to host memory, and the reservation of frames before a prefill
      (core/model/model_context.cpp).
    - [PrefixCoordinator] (prefix_cache_manager.h): the barrier of its workers.
    - [Bfc], [BfcLayout], [BfcHeap], [BfcSafety], [BfcSpec]
      (device/bfc_allocator.h, .cpp): the best-fit-with-coalescing allocator, the
      layout of its regions as chains of linked chunks, the heap invariant, its
      preservation, and the abstract allocator it refines.
    - [ResultQueue] (common/result_queue.cpp, interface/allspark.h,
      common/as_engine.cpp): tokens from the engine loop to the client.
    - [StringUtil] (utility/string_util.cpp) and [FormatEnforcer]
      (utility/format_enforcer.cpp): string helpers, UTF-8 and the byte-level
      vocabulary.
    - [ModelState], [Scheduler] (core/model/model_request.cpp,
      model_request_context.cpp, model_context.cpp, model_decoder.cpp,
      model_generation.cpp, model_memory.cpp, common/generate_context.h,
      common/request.h, core/operator/generate_opt/update_id/update_id_op.cpp):
      the tables of [AsModel] and the code that queues, admits, prefills, decodes
      and ends requests; device, caches and operators are the class [ModelDevice].
      On a CUDA device the caches of a step are built by the tasks of a thread
      pool, which run one after another in an order the device chooses.
    - [SchedulerEnds] (each operation ends when the device does),
      [SchedulerFrame] (what operators and preparation leave alone),
      [SchedulerProofs] (invariant of the tables, the single operations),
      [SchedulerSteps] and [SchedulerSpec] (operations and their answers as
      labelled moves of an abstract scheduler), [SchedulerDecode] (decoding ends),
      [SchedulerTheorems] (admission, chunked prefill, stopping; a demonstration
      device).
    - [RequestCheck] (common/as_engine.cpp, [InputParamsVerify]): the check of a
      request, its floating point parameters as [SpecFloat].
    - [EngineState], [Engine] (common/as_engine.cpp, as_engine_request.cpp,
      as_engine_model_lifecycle.cpp, engine_control_message.h, engine_runtime.h):
      the engine over a list of workers, each a scheduler state: the handles,
      queues and promises shared with clients, the control messages, every step
      of the loop thread, and the calls of the API.  [engine_step] interleaves
      the loop, the callers and the clients of the queues.  The message queue has
      several producers and keeps no order between them, so any message may be the
      next, and what [size_approx] tells is arbitrary.  A client's handle is good
      while a table or a message owns it; using it later is undefined.
    - [EngineFrame] (what running the model leaves alone), [EngineProofs] (the
      invariant of the engine), [EngineSync] (queues and promises over time;
      calls that wait), [EngineRun] (running contexts and decoding under memory
      pressure), [EngineRelease] (releasing a request), [EngineCalls] (calls are
      served), [EngineEnds] (the steps of the loop end), [EngineTheorems]
      (reachable states; a demonstration engine).
    - [MemoryReuse] (common/memory_reuser.cpp, block_allocator.h, block_impl.h,
      core/tensor/data.cpp, tensor.cpp, shape.cpp): the buffers of tensors, the
      blocks tensors share, the pool of blocks of a device context, and the
      binding of the tensors of the graphs to blocks.  [ReuseProofs] (buffers and
      the pool), [ReuseBinding] (the binding).
    - [ReuseRun] (core/model/model_decoder.cpp, core/operator/operator.cpp): the
      loops that reshape and run the operators of a graph; what an operator
      computes is a parameter.  [ReuseTwin] runs the same operators on tensors
      with and without shared blocks side by side; [ReuseTheorems] has the
      theorems and a demonstration allocator.
    - [WeightSplit] (runtime/weight/weight_splitter.cpp, weight_loader.cpp,
      core/tensor/tensor_utils.cpp): which part of a weight each rank of a
      tensor-parallel model keeps, one definition per class and method, and the
      copies of vectors and matrices in host memory.  [WeightProofs] (matrices as
      lists of rows, loops of copies), [WeightLoad] (specification of the parts;
      runs of the loader), [WeightBatch] (batches of matrices), [WeightTheorems].
    - [Sparse] (utility/sparse_util.cpp): sizes and conversions of sparse weights,
      CSC and ELL, on floats and halves given by their bits.  [SparseProofs] (the
      entries of a matrix, loops that fill arrays), [SparseRuns] (what the
      conversions leave), [SparseTheorems].
    - [WeightFile] (utility/allsparkz_util.cpp, runtime/weight/weight_saver.cpp,
      weight_loader.cpp, weight_manager.cpp): the format of weight files, its two
      writers, the parser of a description and the loop that reads a file for one
      rank.  [FileProofs] (text of numbers and searches; what the parser and one
      round read), [FileEnds] (the loop ends), [FileTheorems], [SparseFile] (sparse
      weights through a file).
    - [WeightManager] (runtime/weight/weight_manager.h, weight_manager.cpp): the
      tables of the weights in use, their copies in host memory and the swap
      states; loading, access, swapping and freeing, with the critical sections of
      the workers' calls interleaved by [manager_step].  [WeightManagerProofs] (copies,
      the invariant of the tables), [WeightManagerTheorems] (theorems, schedules
      that are executed).
    - [Lora] (runtime/weight/weight_manager_lora.h, weight_manager_lora.cpp,
      core/model/model_lora.cpp, utility/file_util.h): the adapters of a model in the
      slots of a weight manager of their own, loaded and unloaded by name.
      [LoraProofs] (the invariant of slots and names), [LoraTheorems].

    ** How code becomes definitions

    A class is a record of its fields, a method a function of the same name in
    [M S] (state in, result or exception out, state out); loops over containers
    are structural, other loops carry fuel.  Objects that the code shares by
    pointer (spans, prefix nodes, chunks) live in a [gmap] heap and are named by
    ids.  Integers are [Z] with the wrap-around written out where the C++ type
    wraps; reading out of bounds, dereferencing null and signed overflow are
    [Err UB], an infinite loop is [Err Hang].  Interleaving code is a step
    relation whose steps are the atomic accesses or critical sections.

    ** What the theorems show

    - Frames and spans: no frame is handed out twice or lost, by either manager
      and under every interleaving ([default_frames_accounted],
      [concurrent_frames_accounted], [concurrent_frames_exclusive]); growing by
      chunks reaches its target ([default_GrowUntil_reaches]); a batch claim of
      spans is all or nothing ([default_ClaimSpan_all_or_none] and its twin).
    - Virtual cache: accepted configurations, exact span sizes, initialisation,
      and that growing a sequence claims exactly the missing spans or restores
      the old length ([updateSeqLength_grows]).
    - Prefix cache: an invariant [wf] of table, reference counts, spans and
      evictor without the host tier; reserving frames before a prefill returns when
      frames are free, evicts only what nobody uses and leaves references untouched
      ([GenerateContinueContext_reserve_correct]); eviction
      frees what it promises and never touches a referenced node; the barrier
      never lets a worker overtake.
    - Results: each interleaving delivers a prefix of what was appended, in order
      and without a gap; the last Get is complete; a Get returns; successive
      fetches partition the output.
    - Strings and tokens: round trips (token serialization, hexadecimal, split
      and join, UTF-8, byte-level BPE), integer parsing, trimming.
    - Allocator: [Alloc] returns memory that no block in use overlaps, [Free]
      gives back exactly its block, the chunk chosen is the smallest and lowest
      that fits, every history of calls with sizes that do not wrap is one of an
      abstract allocator, in which the block of chunk 0 is never given back
      ([bfc_refines]), and regions are released only when free.
    - Scheduling: in every sequence of operations, failed ones included, each
      operation with its answer is a move of an abstract scheduler with a queue, a
      bounded set of active requests and the ended ones ([scheduler_refines]); no
      registered request is lost or in two places ([registered_accounted]);
      admission, decoding steps and stopping do what they promise; prefilling by
      chunks advances and, when no two requests that wait or run have the same id,
      decoding ends within the maximal length ([decode_terminates]).
    - Engine: the tables stay consistent under every interleaving
      ([engine_invariant]); every queue of every reachable state keeps its order
      ([engine_queue_fifo]); a sync returns only when its requests are done
      ([sync_waits]); a release removes its request everywhere
      ([release_correct]); a stop or a release is answered when the loop has read
      one message more than are queued, in any order ([call_served]); when
      the cache is full one generating request gives way ([victim_correct]) and
      no step of the loop runs for ever ([engine_loops_end]); an accepted request is within its
      limits ([InputParamsVerify_accepts]).
    - Activation memory: tensors share a block only when never in use together,
      with the least number of blocks ([binding_correct]); the pool hands out the
      smallest block that fits ([AllocBlock_correct]); sharing changes no value
      that an operator reads ([reuse_transparent]).
    - Weights: a weight that divides evenly is cut exactly as its mode says, any
      other is refused ([LoadFromMemory_correct], [LoadFromMemory_batch_correct]);
      the ranks together hold the weight ([ranks_rebuild_weight]).  From a file
      that was written each rank loads exactly its parts ([file_loads_parts]),
      saved tensors of the types and shapes the format holds are loaded as they were
      ([saved_tensors_load]), and reading
      any bytes ends ([load_ends]).
    - Sparse weights: the conversions stay within arrays of the computed sizes and
      stand for the matrix without its entries near zero ([csc_correct],
      [ell_correct]), also through a file ([csc_file_loads]).
    - Weights in use: under every interleaving a worker gets the weights of its
      file or an exception ([swap_keeps_weights]), a call that passed its check
      succeeds ([calls_complete]), and swapping out and in restores the weights of
      a rank and touches no other ([swap_out_in_restores]).
    - Adapters: loading by name does what it should on every branch
      ([load_lora_correct]), unloading gives back name, slot and memory
      ([load_unload_restores]), operators get the weights of the adapter's file in
      the type of inference ([adapter_weights]), and slots, names and memory are
      accounted for ([loras_accounted], [has_bias_correct]).
    - Findings: theorems of kind error, and two of kind liveness or termination,
      prove on concrete runs where the code does not do what it means to.

    ** Fuel and bounds

    Fuel is bounded by a measure of the input and each property that needs it
    proves it sufficient: the number of frames still missing for [GrowUntil], the
    length of the text for the string loops, the number of evictable nodes for
    eviction, held elements plus program points for Get, the number of chunks of
    a heap for the allocator's walks, the pending requests and one more for
    starting contexts, the registered requests and one more for decoding, the bytes
    of a file and one more for reading it.  An exhausted fuel is [Err Hang],
    which the laws exclude ([safe_exn]).

    ** Not modelled

    Kernels and what operators compute, products with sparse weights, copies and
    conversions of tensors, mapped reading and hash checks of weight files,
    model graphs, the service layer, Python, third-party libraries, assertions,
    which a release build leaves out; of the modelled files: logging, timing statistics, the sleeping and
    spinning of the queue's client, the liveness checks of devices, the warm-up run,
    multi-media inputs, tasks of the thread pool that run at the same time, the
    synchronisation between processes of CPU builds, several models in one engine,
    enqueueing that runs out of memory while other threads use the frame queue,
    result queues that are freed under their client by a release.
    MurmurHash, the lock-free queue, the device allocator, the sub-allocator and the
    operators are parameters.

    ** Order of work

    The cache stack, results, strings and tokens, the allocator, scheduling, the
    engine, activation memory, weights, their files and manager, adapters; next
    the configuration and statistics of the engine. *)
From Stdlib Require Import ZArith Lia.
From stdpp Require Import base list gmap strings fin_maps.
#[global] Open Scope Z_scope.

(** * Status codes and exceptions *)

(** [AsStatus] of interface/allspark_check.h, with the source's constructors. *)
Inductive AsStatus :=
  | ALLSPARK_SUCCESS | ALLSPARK_UNKNOWN_ERROR | ALLSPARK_PARAM_ERROR
  | ALLSPARK_IO_ERROR | ALLSPARK_MEMORY_ERROR | ALLSPARK_RUNTIME_ERROR
  | ALLSPARK_EXCEED_LIMIT_ERROR | ALLSPARK_INVALID_CALL_ERROR
  | ALLSPARK_EMPTY_REQUEST | ALLSPARK_ILLEGAL_REQUEST_ID
  | ALLSPARK_CACHE_MEMORY_OUT | ALLSPARK_REQUEST_DENIED
  | ALLSPARK_CHUNK_PREFILL | ALLSPARK_DEPRECATED
  | ALLSPARK_LORA_NUM_EXCEED_LIMIT_ERROR | ALLSPARK_LORA_RANK_EXCEED_LIMIT_ERROR
  | ALLSPARK_LORA_NOT_FOUND | ALLSPARK_LORA_ALREADY_LOADED
  | ALLSPARK_LORA_IN_USE | ALLSPARK_STREAMING.

#[export] Instance AsStatus_eq_dec : EqDecision AsStatus.
Proof. solve_decision. Defined.

(** What leaves a function other than by a return: an exception of the
    program, one of the standard library's, a bare [std::exception], a failed
    LOG(FATAL)/AS_ENFORCE check, behaviour the C++ standard leaves undefined,
    or a loop that never ends. *)
Inductive exn :=
  | AsException (s : AsStatus)
  | OutOfRange
  | InvalidArgument
  | LengthError
  | RuntimeError
  | StdException
  | CheckFailed
  | UB
  | Hang.

#[export] Instance exn_eq_dec : EqDecision exn.
Proof. solve_decision. Defined.

(** An error the code reports itself: none of undefined behaviour, an unchecked
    index or key, or a loop without end. *)
Definition safe_exn (e : exn) : Prop := e <> UB /\ e <> OutOfRange /\ e <> Hang.

Inductive res (A : Type) :=
  | Ok (a : A)
  | Err (e : exn).
Arguments Ok {A} a.
Arguments Err {A} e.

#[export] Instance res_eq_dec {A} `{EqDecision A} : EqDecision (res A).
Proof. solve_decision. Defined.

(** [AsEngine::GenerateRequestStatus] of interface/allspark.h. *)
Inductive GenerateRequestStatus :=
  | Init | ContextFinished | Generating | GenerateFinished | GenerateInterrupted
  | InternalError.

#[export] Instance GenerateRequestStatus_eq_dec : EqDecision GenerateRequestStatus.
Proof. solve_decision. Defined.

(** * The state-and-exception monad

    An exception keeps the state reached so far, as a C++ throw does. *)
Definition M (S A : Type) : Type := S -> res A * S.

#[export] Instance M_ret {S} : MRet (M S) := fun A a s => (Ok a, s).
#[export] Instance M_bind {S} : MBind (M S) := fun A B f m s =>
  match m s with
  | (Ok a, s') => f a s'
  | (Err e, s') => (Err e, s')
  end.

Definition throw {S A} (e : exn) : M S A := fun s => (Err e, s).
Definition gets {S A} (f : S -> A) : M S A := fun s => (Ok (f s), s).
Definition modify {S} (f : S -> S) : M S unit := fun s => (Ok tt, f s).
Definition AS_THROW {S A} (s : AsStatus) : M S A := throw (AsException s).
Definition when {S} (b : bool) (m : M S unit) : M S unit :=
  if b then m else mret tt.

(** A component's operation run on the part of a larger state. *)
Definition zoom {S T A} (get : S -> T) (put : T -> S -> S) (m : M T A) : M S A :=
  fun s => let '(r, t) := m (get s) in (r, put t s).

(** [try { m } catch (std::exception&) { h }]; a fatal check, undefined
    behaviour and a loop without end are no exceptions and are not caught. *)
Definition try_catch {S A} (m : M S A) (h : M S A) : M S A := fun s =>
  match m s with
  | (Err CheckFailed, s') => (Err CheckFailed, s')
  | (Err UB, s') => (Err UB, s')
  | (Err Hang, s') => (Err Hang, s')
  | (Err _, s') => h s'
  | r => r
  end.

(** * Loops

    [iter_pos p f s] runs [f] at most [p] times and stops when it answers
    [inr]; the binary counter keeps a 2^64 bound executable. *)
Fixpoint iter_pos {S A} (p : positive) (f : S -> S + A) (s : S) : S + A :=
  match p with
  | xH => f s
  | xO q => match iter_pos q f s with inl s' => iter_pos q f s' | r => r end
  | xI q =>
      match f s with
      | inl s' =>
          match iter_pos q f s' with inl s'' => iter_pos q f s'' | r => r end
      | r => r
      end
  end.

Fixpoint iter_nat {S A} (n : nat) (f : S -> S + A) (s : S) : S + A :=
  match n with
  | O => inl s
  | S m => match f s with inl s' => iter_nat m f s' | r => r end
  end.

Definition iter_Z {S A} (z : Z) (f : S -> S + A) (s : S) : S + A :=
  match z with Zpos p => iter_pos p f s | _ => inl s end.

(** [loop n body]: at most [n] runs of [body]; [Some a] leaves the loop
    (a break or a return), [None] goes on; the result is [None] when the
    loop ran to its bound. *)
Definition loop {S A} (n : Z) (body : M S (option A)) : M S (option A) := fun s =>
  let step s :=
    match body s with
    | (Ok None, s') => inl s'
    | (Ok (Some a), s') => inr (Ok (Some a), s')
    | (Err e, s') => inr (Err e, s')
    end in
  match iter_Z n step s with inl s' => (Ok None, s') | inr r => r end.

(** [for (i = 0; i < n; ++i) body(i)] over the elements of a list. *)
Fixpoint for_each {S A} (l : list A) (body : A -> M S unit) : M S unit :=
  match l with
  | [] => mret tt
  | x :: l' => body x ;; for_each l' body
  end.

(** * Machine integers *)
Definition u8 (z : Z) : Z := z mod 2 ^ 8.
Definition u32 (z : Z) : Z := z mod 2 ^ 32.
Definition u64 (z : Z) : Z := z mod 2 ^ 64.
Definition i32 (z : Z) : Z := (z + 2 ^ 31) mod 2 ^ 32 - 2 ^ 31.
Definition i64 (z : Z) : Z := (z + 2 ^ 63) mod 2 ^ 64 - 2 ^ 63.
Definition INT64_MAX : Z := 2 ^ 63 - 1.
Definition SIZE_MAX : Z := 2 ^ 64 - 1.

(** * Weakest preconditions

    [wp m Q E s]: from state [s], [m] returns with [Q] or throws with [E]. *)
Definition wp {S A} (m : M S A) (Q : A -> S -> Prop) (E : exn -> S -> Prop)
    (s : S) : Prop :=
  match m s with
  | (Ok a, s') => Q a s'
  | (Err e, s') => E e s'
  end.

Create HintDb wpdb.

Lemma wp_ret {S A} (a : A) (Q : A -> S -> Prop) E s :
  Q a s -> wp (mret a) Q E s.
Proof. done. Qed.

Lemma wp_bind {S A B} (m : M S A) (f : A -> M S B) (Q : B -> S -> Prop) E s :
  wp m (fun a s' => wp (f a) Q E s') E s -> wp (mbind f m) Q E s.
Proof.
  unfold wp, mbind, M_bind. by destruct (m s) as [[a|e] s'].
Qed.

Lemma wp_mono {S A} (m : M S A) (Q Q' : A -> S -> Prop) (E E' : exn -> S -> Prop) s :
  wp m Q E s -> (forall a s', Q a s' -> Q' a s') ->
  (forall e s', E e s' -> E' e s') -> wp m Q' E' s.
Proof. unfold wp. destruct (m s) as [[a|e] s']; eauto. Qed.

Lemma wp_gets {S A} (f : S -> A) (Q : A -> S -> Prop) E s :
  Q (f s) s -> wp (gets f) Q E s.
Proof. done. Qed.

Lemma wp_modify {S} (f : S -> S) (Q : unit -> S -> Prop) E s :
  Q tt (f s) -> wp (modify f) Q E s.
Proof. done. Qed.

Lemma wp_throw {S A} e (Q : A -> S -> Prop) (E : exn -> S -> Prop) s :
  E e s -> wp (throw e) Q E s.
Proof. done. Qed.

Lemma wp_zoom {S T A} (get : S -> T) (put : T -> S -> S) (m : M T A) Q E s :
  wp m (fun a t => Q a (put t s)) (fun e t => E e (put t s)) (get s) ->
  wp (zoom get put m) Q E s.
Proof. unfold wp, zoom. by destruct (m (get s)) as [[a|e] t]. Qed.

Lemma wp_run {S A} (m : M S A) (Q : A -> S -> Prop) E s :
  wp m Q E s <-> (forall a s', m s = (Ok a, s') -> Q a s') /\
                 (forall e s', m s = (Err e, s') -> E e s').
Proof.
  unfold wp. destruct (m s) as [[a|e] s'].
  all: split; [intros H; split; intros; by simplify_eq | intros [H1 H2]; eauto].
Qed.

Lemma wp_same_run {S A} (m m' : M S A) (Q : A -> S -> Prop) E s :
  m s = m' s -> wp m' Q E s -> wp m Q E s.
Proof. unfold wp. by intros ->. Qed.

(** Runs of known outcome. *)
Lemma bind_ok {S B C} (m : M S B) (f : B -> M S C) (s s1 : S) b : m s = (Ok b, s1) -> (m ≫= f) s = f b s1.
Proof. intros H. unfold mbind, M_bind. by rewrite H. Qed.
Lemma for_each_run {S A} (l : list A) (body : A -> M S unit) (st : nat -> S) :
  (forall i a, l !! i = Some a -> body a (st i) = (Ok tt, st (Datatypes.S i))) ->
  for_each l body (st 0%nat) = (Ok tt, st (length l)).
Proof.
  revert st. induction l as [|a l IH]; intros st H; [done|]. simpl. unfold mbind, M_bind.
  rewrite (H 0%nat a eq_refl). apply (IH (fun i => st (Datatypes.S i))). intros i b Hi. by apply (H (Datatypes.S i)).
Qed.

(** The handler may start from wherever the body threw. *)
Lemma wp_try_catch {S A} (m h : M S A) (Q : A -> S -> Prop) E s :
  wp m Q (fun e s' => E e s' /\ wp h Q E s') s -> wp (try_catch m h) Q E s.
Proof.
  unfold wp at 1 3. unfold try_catch. destruct (m s) as [[a|e] s']; [done|].
  intros [He Hh]. by destruct e.
Qed.

#[export] Hint Resolve wp_ret wp_gets wp_modify wp_throw : wpdb.

(** One step of symbolic execution of a monadic body. *)
Ltac wp_step :=
  lazymatch goal with
  | |- wp (mbind _ _) _ _ _ => apply wp_bind
  | |- wp (mret _) _ _ _ => apply wp_ret
  | |- wp (gets _) _ _ _ => apply wp_gets
  | |- wp (modify _) _ _ _ => apply wp_modify
  | |- wp (throw _) _ _ _ => apply wp_throw
  | |- wp (AS_THROW _) _ _ _ => apply wp_throw
  | |- wp (zoom _ _ _) _ _ _ => apply wp_zoom
  | |- wp (when true _) _ _ _ => unfold when
  | |- wp (when false _) _ _ _ => unfold when; apply wp_ret
  | |- wp (when ?b _) _ _ _ => unfold when; destruct b eqn:?
  | |- wp (if ?b then _ else _) _ _ _ => destruct b eqn:?
  | |- wp (match ?x with _ => _ end) _ _ _ => destruct x eqn:?
  end.
Ltac wp_steps := repeat (wp_step; simpl).

(** ** Loop rules *)

Lemma iter_pos_nat {S A} (f : S -> S + A) p s :
  iter_pos p f s = iter_nat (Pos.to_nat p) f s.
Proof.
  assert (iter_nat_add : forall n m s,
    iter_nat (n + m) f s =
    match iter_nat n f s with inl s' => iter_nat m f s' | r => r end).
  { induction n as [|n IH]; intros m s0; [done|]. simpl.
    destruct (f s0); [apply IH|done]. }
  revert s. induction p as [p IH|p IH|]; intros s; cbn [iter_pos].
  - rewrite Pos2Nat.inj_xI. replace (Datatypes.S (2 * Pos.to_nat p))%nat
      with (1 + (Pos.to_nat p + Pos.to_nat p))%nat by lia.
    simpl. destruct (f s) as [s'|]; [|done].
    rewrite iter_nat_add, IH. destruct (iter_nat _ f s'); [apply IH|done].
  - rewrite Pos2Nat.inj_xO. replace (2 * Pos.to_nat p)%nat
      with (Pos.to_nat p + Pos.to_nat p)%nat by lia.
    rewrite iter_nat_add, IH. destruct (iter_nat _ f s); [apply IH|done].
  - rewrite Pos2Nat.inj_1. simpl. by destruct (f s).
Qed.

(** The binary-fuelled loop is the loop that counts in unary. *)
Lemma iter_Z_nat {S A} (f : S -> S + A) z s :
  iter_Z z f s = iter_nat (Z.to_nat z) f s.
Proof. destruct z; [done|apply iter_pos_nat|done]. Qed.

(** Invariant rule: [I k] holds after [k] completed rounds. *)
Lemma wp_loop {S A} (I : Z -> S -> Prop) n (body : M S (option A))
    (Q : option A -> S -> Prop) E s :
  I 0 s ->
  (forall k s, 0 <= k < n -> I k s ->
    wp body (fun r s' => match r with
                         | None => I (k + 1) s'
                         | Some a => Q (Some a) s'
                         end) E s) ->
  (forall s, I (Z.max 0 n) s -> Q None s) ->
  wp (loop n body) Q E s.
Proof.
  intros H0 Hstep Hend. unfold wp, loop. rewrite iter_Z_nat.
  set (f := fun s => _).
  assert (Hgen : forall m k s, k + Z.of_nat m = Z.max 0 n -> 0 <= k -> I k s ->
    match iter_nat m f s with
    | inl s' => I (Z.max 0 n) s'
    | inr (Ok a, s') => Q a s'
    | inr (Err e, s') => E e s'
    end).
  { induction m as [|m IH]; intros k s0 Hk Hk0 HI.
    - simpl. by replace (Z.max 0 n) with k by lia.
    - simpl. unfold f at 1. specialize (Hstep k s0 ltac:(lia) HI).
      unfold wp in Hstep. destruct (body s0) as [[[a|]|e] s1]; [done| |done].
      apply (IH (k + 1)); [lia|lia|done]. }
  specialize (Hgen (Z.to_nat n) 0 s ltac:(lia) ltac:(lia) H0).
  destruct (iter_nat _ f s) as [s'|[[a|e] s']]; auto.
Qed.

(** Rule for the range-for over a list. *)
Lemma wp_for_each {S A} (I : list A -> S -> Prop) l (body : A -> M S unit) E s :
  I [] s ->
  (forall pre x rest s, l = pre ++ x :: rest -> I pre s ->
     wp (body x) (fun _ s' => I (pre ++ [x]) s') E s) ->
  wp (for_each l body) (fun _ s' => I l s') E s.
Proof.
  intros H0 Hstep.
  assert (Hgen : forall rest pre s, l = pre ++ rest -> I pre s ->
    wp (for_each rest body) (fun _ s' => I l s') E s).
  { induction rest as [|x rest IH]; intros pre0 s0 Hl HI; simpl.
    - apply wp_ret. by rewrite Hl, app_nil_r.
    - apply wp_bind. eapply wp_mono; [by apply (Hstep pre0 x rest)| |done].
      intros u s1 H1. apply (IH (pre0 ++ [x])); [|done].
      by rewrite <- app_assoc. }
  by apply (Hgen l []).
Qed.

(** ** Preserved predicates

    [pres I m]: [m] keeps [I] whether it returns or throws. *)
Definition pres {S A} (I : S -> Prop) (m : M S A) : Prop :=
  forall s, I s -> wp m (fun _ s' => I s') (fun _ s' => I s') s.

Section pres.
Context {S : Type} (I : S -> Prop).

Lemma pres_ret {A} (a : A) : pres I (mret a).
Proof. by intros s. Qed.
Lemma pres_throw {A} e : pres I (throw (A := A) e).
Proof. by intros s. Qed.
Lemma pres_gets {A} (f : S -> A) : pres I (gets f).
Proof. by intros s. Qed.
Lemma pres_modify f : (forall s, I s -> I (f s)) -> pres I (modify f).
Proof. intros Hf s. apply Hf. Qed.
Lemma pres_bind {A B} (m : M S A) (f : A -> M S B) :
  pres I m -> (forall a, pres I (f a)) -> pres I (mbind f m).
Proof.
  intros Hm Hf s Hs. apply wp_bind. eapply wp_mono; [by apply Hm| |done].
  intros a s' Hs'. by apply Hf.
Qed.
Lemma pres_when b m : pres I m -> pres I (when b m).
Proof. intros H. destruct b; [done|apply pres_ret]. Qed.
Lemma pres_if {A} (b : bool) (m n : M S A) :
  (b = true -> pres I m) -> (b = false -> pres I n) -> pres I (if b then m else n).
Proof. destruct b; auto. Qed.
Lemma pres_for_each {A} (l : list A) (body : A -> M S unit) :
  (forall a, pres I (body a)) -> pres I (for_each l body).
Proof.
  intros H. induction l; simpl; [apply pres_ret|]. apply pres_bind; auto.
Qed.
Lemma pres_try_catch {A} (m h : M S A) : pres I m -> pres I h -> pres I (try_catch m h).
Proof.
  intros Hm Hh s Hs. specialize (Hm s Hs). unfold wp in *. unfold try_catch.
  destruct (m s) as [[a|e] s']; [done|].
  destruct e; try done; by apply Hh.
Qed.
Lemma pres_zoom {T A} (get : S -> T) (put : T -> S -> S) (m : M T A) :
  (forall s t, I s -> I (put t s)) -> pres I (zoom get put m).
Proof.
  intros H s Hs. unfold wp, zoom. destruct (m (get s)) as [[a|e] x]; auto.
Qed.
End pres.

Create HintDb pres.

(** Decomposes a body into its primitive steps and calls, which the hints of
    [pres] close. *)
Ltac pres_step :=
  lazymatch goal with
  | |- pres _ (mbind _ _) => apply pres_bind; [|intros ?]
  | |- pres _ (when _ _) => apply pres_when
  | |- pres _ (mret _) => apply pres_ret
  | |- pres _ (throw _) => apply pres_throw
  | |- pres _ (gets _) => apply pres_gets
  | |- pres _ (AS_THROW _) => apply pres_throw
  | |- pres _ (for_each _ _) => apply pres_for_each; intros ?
  | |- pres _ (try_catch _ _) => apply pres_try_catch
  | |- pres _ (if ?b then _ else _) => destruct b eqn:?
  | |- pres _ (match ?x with _ => _ end) => destruct x eqn:?
  | |- pres _ _ => progress cbv zeta
  end.
Ltac pres_tac := repeat (pres_step || solve [eauto with pres]).

(** ** Computations that end

    [ends m]: [m] returns or throws from every state; nothing in it runs for
    ever. *)
Definition ends {S A} (m : M S A) : Prop :=
  forall s, wp m (fun _ _ => True) (fun e _ => e <> Hang) s.

Section ends.
Context {S : Type}.

Lemma ends_ret {A} (a : A) : ends (S := S) (mret a).
Proof. by intros s. Qed.
Lemma ends_throw {A} e : e <> Hang -> ends (S := S) (throw (A := A) e).
Proof. by intros H s. Qed.
Lemma ends_gets {A} (f : S -> A) : ends (gets f).
Proof. by intros s. Qed.
Lemma ends_modify (f : S -> S) : ends (modify f).
Proof. by intros s. Qed.
Lemma ends_bind {A B} (m : M S A) (f : A -> M S B) :
  ends m -> (forall a, ends (f a)) -> ends (mbind f m).
Proof.
  intros Hm Hf s. apply wp_bind. eapply wp_mono; [apply Hm| |done]. intros a s' _. apply Hf.
Qed.
Lemma ends_when b (m : M S unit) : ends m -> ends (when b m).
Proof. intros H. destruct b; [done|apply ends_ret]. Qed.
Lemma ends_for_each {A} (l : list A) (body : A -> M S unit) :
  (forall a, ends (body a)) -> ends (for_each l body).
Proof. intros H. induction l; simpl; [apply ends_ret|by apply ends_bind]. Qed.
Lemma ends_try_catch {A} (m h : M S A) : ends m -> ends h -> ends (try_catch m h).
Proof.
  intros Hm Hh s. specialize (Hm s). unfold wp in Hm |- *. unfold try_catch.
  destruct (m s) as [[a|e] s']; [done|]. destruct e; try done; apply Hh.
Qed.
Lemma ends_zoom {T A} (get : S -> T) (put : T -> S -> S) (m : M T A) : ends m -> ends (zoom get put m).
Proof.
  intros Hm s. specialize (Hm (get s)). unfold wp, zoom in *. by destruct (m (get s)) as [[a|e] x].
Qed.
Lemma ends_run {A} (m : M S A) s r s' : ends m -> m s = (r, s') -> r <> Err Hang.
Proof. intros Hm Hr. specialize (Hm s). unfold wp in Hm. rewrite Hr in Hm. destruct r; congruence. Qed.
End ends.

Create HintDb ends.
Ltac ends_step :=
  lazymatch goal with
  | |- ends (mbind _ _) => apply ends_bind; [|intros ?]
  | |- ends (when _ _) => apply ends_when
  | |- ends (mret _) => apply ends_ret
  | |- ends (throw _) => apply ends_throw; discriminate
  | |- ends (AS_THROW _) => apply ends_throw; discriminate
  | |- ends (gets _) => apply ends_gets
  | |- ends (modify _) => apply ends_modify
  | |- ends (for_each _ _) => apply ends_for_each; intros ?
  | |- ends (try_catch _ _) => apply ends_try_catch
  | |- ends (if ?b then _ else _) => destruct b eqn:?
  | |- ends (match ?x with _ => _ end) => destruct x eqn:?
  | |- ends _ => progress cbv zeta
  end.
Ltac ends_tac := repeat (ends_step || solve [eauto with ends]).

(** ** Integers *)
Lemma u64_small z : 0 <= z < 2 ^ 64 -> u64 z = z.
Proof. intros. unfold u64. by apply Z.mod_small. Qed.

Lemma u64_range z : 0 <= u64 z < 2 ^ 64.
Proof. unfold u64. apply Z.mod_pos_bound. lia. Qed.

Lemma i64_small z : - 2 ^ 63 <= z < 2 ^ 63 -> i64 z = z.
Proof. intros. unfold i64. rewrite Z.mod_small; lia. Qed.

Lemma i32_small z : - 2 ^ 31 <= z < 2 ^ 31 -> i32 z = z.
Proof. intros. unfold i32. rewrite Z.mod_small; lia. Qed.

(** ** Lists *)
Lemma omap_id_Some {A} (l : list A) : omap id (Some <$> l) = l.
Proof. induction l; simpl; by f_equal. Qed.

Lemma list_filter_ext_in {A} (P Q : A -> bool) (l : list A) :
  (forall x, x ∈ l -> P x = Q x) ->
  filter (fun x => P x) l = filter (fun x => Q x) l.
Proof.
  induction l as [|x l IH]; intros Heq; [done|].
  rewrite !filter_cons, (IH ltac:(intros; apply Heq; by right)).
  specialize (Heq x ltac:(left)).
  destruct (decide (P x)), (decide (Q x)); congruence.
Qed.

(** ** Bits *)

(** Or-ing a small number into the bits a shift has cleared adds it. *)
Lemma lor_shiftl_add k v c :
  0 <= k -> 0 <= c < 2 ^ k -> Z.lor (Z.shiftl v k) c = v * 2 ^ k + c.
Proof.
  intros Hk Hc. assert (Hland : Z.land (Z.shiftl v k) c = 0).
  { apply Z.bits_inj'. intros i Hi. rewrite Z.land_spec, Z.bits_0.
    destruct (decide (i < k)); [rewrite Z.shiftl_spec_low; [done|lia]|].
    rewrite <- (Z.mod_small c (2 ^ k)) by lia.
    by rewrite Z.mod_pow2_bits_high, andb_false_r by lia. }
  rewrite <- Z.lxor_lor, <- Z.add_nocarry_lxor by done.
  by rewrite Z.shiftl_mul_pow2 by lia.
Qed.

(** A boolean property of a range is decided by running it. *)
Lemma forall_range (f : Z -> bool) n :
  forallb f (seqZ 0 n) = true -> forall x, 0 <= x < n -> f x = true.
Proof.
  intros H x Hx. rewrite forallb_forall in H. apply H.
  apply list_elem_of_In, elem_of_seqZ. lia.
Qed.
