(* ===== verification/FrameManager.v ===== *)
(** Cache frames and the two cache frame managers
    (src/csrc/runtime/cache/frame_manager.h and frame_manager.cpp): the frame
    value, the interface [FrameManager] with its laws, and the two managers as
    instances of it.  The device allocator and the lock-free queue are
    third-party code and enter as classes with their documented laws. *)
From stdpp Require Import base list gmap strings fin_maps pretty.
From S2P Require Import Prelude.

(** [DeviceType] of proto/allspark.proto. *)
Inductive DeviceType :=
  | DEVICETYPE_UNDEFINED | CPU | CUDA | COMPILE_TIME_MAX_DEVICE_TYPES | CPU_PINNED.

#[export] Instance DeviceType_eq_dec : EqDecision DeviceType.
Proof. solve_decision. Defined.

(** * The device memory behind a frame *)

(** The allocator a [DenseData] draws from ([Allocator::Alloc] and
    [Allocator::Free] for the device): [None] when it reports an error. *)
Class DeviceAllocator (D : Type) := {
  dev_alloc : D -> Z -> string -> option (Z * D);
  dev_free : D -> Z -> D;
}.

(** Its documented behaviour: a successful allocation is a block that was
    not live, at a user-space address. *)
Class DeviceAllocatorLaws (D : Type) `{DeviceAllocator D} := {
  dev_live : D -> gset Z;
  dev_alloc_fresh d n name p d' :
    dev_alloc d n name = Some (p, d') ->
    (p ∉ dev_live d) /\ dev_live d' = {[p]} ∪ dev_live d /\ 0 < p < 2 ^ 47;
  dev_free_live d p : dev_live (dev_free d p) = dev_live d ∖ {[p]};
}.

(** * Frames *)

(** A [CacheFrameImpl]: the raw pointer, the byte size and the device of its
    [DenseData].  A frame's identity is its data pointer. *)
Record CacheFrame := mkFrame {
  Data : Z;
  Size : Z;
  GetDeviceType : DeviceType;
}.

#[export] Instance CacheFrame_eq_dec : EqDecision CacheFrame.
Proof. solve_decision. Defined.

(** [CacheFrame::Create]: a [DenseData] of [frame_size] bytes; no
    allocation is made for size 0, and a failed one throws. *)
Definition CacheFrame_Create {D} `{DeviceAllocator D} (d : D)
    (device_type : DeviceType) (frame_size : Z) (tag : string)
    : option (CacheFrame * D) :=
  if frame_size =? 0 then Some (mkFrame 0 0 device_type, d)
  else match dev_alloc d frame_size tag with
       | Some (p, d') => Some (mkFrame p frame_size device_type, d')
       | None => None
       end.

(** The destructor: [DenseData::~DenseData] frees a non-null pointer. *)
Definition CacheFrame_destroy {D} `{DeviceAllocator D} (d : D) (f : CacheFrame) : D :=
  if Data f =? 0 then d else dev_free d (Data f).

(** A [std::vector<CacheFrame::Ptr>]; a null pointer is [None]. *)
Abbreviation frame_vec := (list (option CacheFrame)).

(** * The interface of a frame manager *)

Class FrameManager (F : Type) := {
  fm_Inited : F -> bool;
  fm_GetFrameSize : F -> Z;
  fm_CountFreeFrame : F -> Z;
  fm_CountOccupiedFrame : F -> Z;
  fm_CountFrame : F -> Z;
  fm_Init : Z -> M F unit;
  fm_GrowUntil : Z -> M F bool;
  fm_GrowBy : Z -> M F bool;
  fm_AllocFrame : M F (option CacheFrame);
  fm_AllocFrames : frame_vec -> Z -> M F (frame_vec * Z);
  fm_FreeFrame : option CacheFrame -> M F unit;
  fm_FreeFrames : frame_vec -> Z -> M F frame_vec;
}.

(** A frame that is given back cannot be queued: there is no memory for it. *)
Definition not_taken_back (e : exn) : Prop := e = AsException ALLSPARK_RUNTIME_ERROR.
Lemma not_taken_back_safe e : not_taken_back e -> safe_exn e.
Proof. by intros ->. Qed.

(** What a client may rely on.  [fm_inv st out] says that [st] is well formed
    and [out] lists the frames handed out and not yet returned; [fm_free]
    lists the frames the manager holds. *)
Class FrameManagerLaws (F : Type) `{FrameManager F} := {
  fm_free : F -> list CacheFrame;
  fm_inv : F -> list CacheFrame -> Prop;

  (** The order in which a client lists its frames is immaterial. *)
  fm_inv_perm st out out' : fm_inv st out -> Permutation out out' -> fm_inv st out';
  (** No frame is held twice, neither by the manager nor by clients. *)
  fm_inv_nodup st out : fm_inv st out -> NoDup (Data <$> fm_free st ++ out);
  fm_inv_size st out f :
    fm_inv st out -> f ∈ fm_free st ++ out -> Size f = fm_GetFrameSize st;
  (** The counters tell the truth. *)
  fm_counts st out :
    fm_inv st out ->
    fm_CountFreeFrame st = Z.of_nat (length (fm_free st)) /\
    fm_CountOccupiedFrame st = Z.of_nat (length out) /\
    fm_CountFrame st = fm_CountFreeFrame st + fm_CountOccupiedFrame st;

  fm_Init_spec st n :
    fm_inv st [] ->
    wp (fm_Init n)
       (fun _ st' => fm_inv st' [] /\ fm_Inited st' = true /\
          (fm_Inited st = true -> st' = st) /\
          (fm_Inited st = false -> 0 < n /\ fm_GetFrameSize st' = n))
       (fun e st' => e = AsException ALLSPARK_PARAM_ERROR /\ st' = st /\
          fm_Inited st = false /\ n <= 0) st;
  fm_AllocFrame_spec st out :
    fm_inv st out -> fm_Inited st = true ->
    wp fm_AllocFrame
       (fun r st' => fm_Inited st' = true /\
          fm_GetFrameSize st' = fm_GetFrameSize st /\
          match r with
          | Some f => fm_inv st' (f :: out)
          | None => fm_inv st' out /\ fm_free st' = []
          end)
       (fun _ _ => False) st;
  fm_AllocFrames_spec st out vec n :
    fm_inv st out -> fm_Inited st = true -> 0 <= n <= Z.of_nat (length vec) ->
    wp (fm_AllocFrames vec n)
       (fun '(vec', k) st' => fm_Inited st' = true /\
          fm_GetFrameSize st' = fm_GetFrameSize st /\
          exists fs, take (Z.to_nat k) vec' = Some <$> fs /\
            length vec' = length vec /\
            k = Z.of_nat (length fs) /\ 0 <= k <= n /\ fm_inv st' (fs ++ out))
       (fun e _ => safe_exn e) st;
  fm_FreeFrame_spec st out f :
    fm_inv st (f :: out) -> fm_Inited st = true ->
    wp (fm_FreeFrame (Some f))
       (fun _ st' => fm_Inited st' = true /\
          fm_GetFrameSize st' = fm_GetFrameSize st /\ fm_inv st' out /\
          Permutation (fm_free st') (f :: fm_free st))
       (fun e _ => not_taken_back e) st;
  fm_FreeFrames_spec st out vec fs n :
    fm_inv st (fs ++ out) -> fm_Inited st = true ->
    take (Z.to_nat n) vec = Some <$> fs -> n = Z.of_nat (length fs) ->
    wp (fm_FreeFrames vec n)
       (fun vec' st' => fm_Inited st' = true /\
          fm_GetFrameSize st' = fm_GetFrameSize st /\
          length vec' = length vec /\ fm_inv st' out)
       (fun e _ => safe_exn e) st;
}.

(** ** Pairwise distinct live frames: the part of the invariant both
    managers share *)
Section frames_ok.
Context {D : Type} `{DeviceAllocatorLaws D}.

Definition frames_ok (d : D) (sz : Z) (l : list CacheFrame) : Prop :=
  NoDup (Data <$> l) /\
  Forall (fun f => Data f ∈ dev_live d /\ 0 < Data f < 2 ^ 47 /\ Size f = sz) l.

Lemma frames_ok_perm d sz l l' :
  frames_ok d sz l -> Permutation l l' -> frames_ok d sz l'.
Proof. intros [H1 H2] Hp. split; by rewrite <- Hp. Qed.

#[export] Instance frames_ok_proper d sz : Proper (Permutation ==> iff) (frames_ok d sz).
Proof. intros l l' Hp. split; intros; by eapply frames_ok_perm. Qed.

Lemma frames_ok_app_l d sz l l' : frames_ok d sz (l ++ l') -> frames_ok d sz l.
Proof.
  intros [H1 H2]. rewrite fmap_app, NoDup_app in H1. rewrite Forall_app in H2.
  split; tauto.
Qed.

Lemma frames_ok_fresh d sz l dt name f d' :
  0 < sz -> CacheFrame_Create d dt sz name = Some (f, d') ->
  frames_ok d sz l -> frames_ok d' sz (f :: l).
Proof.
  intros Hsz Hc [Hnd Hall]. unfold CacheFrame_Create in Hc.
  destruct (sz =? 0) eqn:E; [lia|].
  destruct (dev_alloc d sz name) as [[p d'']|] eqn:Ha; simplify_eq/=.
  destruct (dev_alloc_fresh _ _ _ _ _ Ha) as (Hf & Hl & Hp).
  split.
  - simpl. apply NoDup_cons. split; [|done].
    intros Hin. apply list_elem_of_fmap in Hin as (g & -> & Hg).
    rewrite Forall_forall in Hall. by destruct (Hall g Hg).
  - apply Forall_cons. simpl. split; [rewrite Hl; split; [apply elem_of_union; left; by apply elem_of_singleton|done]|].
    eapply Forall_impl; [apply Hall|]. intros g (?&?&?). rewrite Hl.
    split; [|done]. apply elem_of_union. by right.
Qed.

Lemma frames_ok_destroy d sz f l :
  frames_ok d sz (f :: l) -> frames_ok (CacheFrame_destroy d f) sz l.
Proof.
  intros [Hnd Hall]. simpl in Hnd. apply NoDup_cons in Hnd as [Hnot Hnd].
  apply Forall_cons in Hall as [(_ & Hf & _) Hall]. split; [done|].
  unfold CacheFrame_destroy. destruct (Data f =? 0) eqn:E; [lia|].
  apply Forall_forall. intros g Hg. rewrite Forall_forall in Hall.
  destruct (Hall g Hg) as (Hl & ?). rewrite dev_free_live. split; [|done].
  apply elem_of_difference. split; [done|]. intros Heq%elem_of_singleton.
  apply Hnot. rewrite <- Heq. by apply list_elem_of_fmap_2.
Qed.

(** Frames sit at distinct user-space addresses, so their number is far
    below the range of the counters. *)
Lemma frames_ok_length d sz l :
  frames_ok d sz l -> Z.of_nat (length l) < 2 ^ 47.
Proof.
  intros [Hnd Hall].
  assert (Hsub : Data <$> l ⊆+ seqZ 1 (2 ^ 47 - 1)).
  { apply NoDup_submseteq; [done|]. intros p Hp.
    apply list_elem_of_fmap in Hp as (f & -> & Hf).
    rewrite Forall_forall in Hall. destruct (Hall f Hf) as (_ & ? & _).
    apply elem_of_seqZ. lia. }
  apply submseteq_length in Hsub. rewrite length_seqZ, length_fmap in Hsub.
  apply Nat2Z.inj_le in Hsub. rewrite Z2Nat.id in Hsub; lia.
Qed.

Lemma frames_ok_data_inj d sz l f g :
  frames_ok d sz l -> f ∈ l -> g ∈ l -> Data f = Data g -> f = g.
Proof.
  intros [Hnd _] Hf Hg Hd.
  apply list_elem_of_lookup in Hf as [i Hi]. apply list_elem_of_lookup in Hg as [j Hj].
  assert (i = j) as ->; [|congruence].
  eapply NoDup_lookup; [apply Hnd| |]; rewrite list_lookup_fmap.
  - by rewrite Hi.
  - rewrite Hj. simpl. congruence.
Qed.
End frames_ok.

(** * [DefaultCacheFrameManager] *)
Module DefaultCacheFrameManager.
Section manager.
Context {D : Type} `{HD : DeviceAllocator D}.

(** The members of the class, with the device it allocates from. *)
Record t := mk {
  device : D;
  device_type_ : DeviceType;
  initialized_ : bool;
  occupied_frames_ : gmap Z CacheFrame;
  free_frames_ : list CacheFrame;
  frame_size_ : Z;
  init_frames_ : Z;
  grow_frames_ : Z;
}.

Definition new (d : D) (dt : DeviceType) (init_frames grow_frames : Z) : t :=
  mk d dt false ∅ [] 0 init_frames grow_frames.

Definition set_queues (d : D) (occ : gmap Z CacheFrame) (free : list CacheFrame)
    (s : t) : t :=
  mk d (device_type_ s) (initialized_ s) occ free (frame_size_ s)
     (init_frames_ s) (grow_frames_ s).
Definition set_inited (frame_size : Z) (s : t) : t :=
  mk (device s) (device_type_ s) true (occupied_frames_ s) (free_frames_ s)
     frame_size (init_frames_ s) (grow_frames_ s).

Definition CountFreeFrame (s : t) : Z := Z.of_nat (length (free_frames_ s)).
Definition CountOccupiedFrame (s : t) : Z := Z.of_nat (size (occupied_frames_ s)).
Definition CountFrame (s : t) : Z :=
  u64 (CountFreeFrame s + CountOccupiedFrame s).

(** The exception of a failed allocation is caught. *)
Definition createFrame : M t bool := fun s =>
  match CacheFrame_Create (device s) (device_type_ s) (frame_size_ s)
          ("frame_" +:+ pretty (CountFrame s)) with
  | Some (frame, d') =>
      (Ok true, set_queues d' (occupied_frames_ s) (free_frames_ s ++ [frame]) s)
  | None => (Ok false, s)
  end.

(** [for (i = 0; i < n; ++i) if (!createFrame()) break/return;] *)
Definition createFrames (n : Z) : M t (option unit) :=
  loop n (b ← createFrame; mret (if b : bool then None else Some tt)).

Definition Init (frame_size : Z) : M t unit :=
  inited ← gets initialized_;
  if inited : bool then mret tt
  else if frame_size <=? 0 then AS_THROW ALLSPARK_PARAM_ERROR
  else
    modify (set_inited frame_size);;
    init ← gets init_frames_;
    createFrames init;;
    mret tt.

(** [if (num_frames == 0) num_frames = std::numeric_limits<size_t>::max()] *)
Definition grow_target (num_frames : Z) : Z :=
  if num_frames =? 0 then SIZE_MAX else num_frames.

(** Every round creates a frame, so [num_frames - CountFrame] rounds and one
    more reach the exit; [grow_terminates] proves the bound enough. *)
Definition GrowUntil (num_frames : Z) : M t bool :=
  let num_frames := grow_target num_frames in
  cur ← gets CountFrame;
  r ← loop (Z.max 0 (num_frames - cur) + 1)
    (n ← gets CountFrame;
     if n <? num_frames then
       b ← createFrame; mret (if b : bool then None else Some false)
     else mret (Some true));
  match r with Some b => mret b | None => throw UB end.

Definition GrowBy (num_frames : Z) : M t bool :=
  r ← createFrames num_frames;
  mret (match r with Some _ => false | None => true end).

(** [free_frames_.front(); pop(); occupied_frames_[frame->Data()] = frame] *)
Definition take_front : M t (option CacheFrame) := fun s =>
  match free_frames_ s with
  | [] => (Ok None, s)
  | frame :: rest =>
      (Ok (Some frame),
       set_queues (device s) (<[Data frame := frame]> (occupied_frames_ s)) rest s)
  end.

Definition AllocFrame : M t (option CacheFrame) :=
  n ← gets CountFreeFrame;
  grow ← gets grow_frames_;
  when (n =? 0) (createFrames grow;; mret tt);;
  take_front.

(** [out_vec[i] = std::move(frame); ++i]; a null frame ends the loop, and
    a store past the end of the vector is undefined. *)
Definition store_frame (frame : option CacheFrame)
    : M (t * (frame_vec * Z)) (option unit) :=
  fun '(s, (vec, i)) =>
    match frame with
    | None => (Ok (Some tt), (s, (vec, i)))
    | Some f =>
        if i <? Z.of_nat (length vec)
        then (Ok None, (s, (<[Z.to_nat i := Some f]> vec, i + 1)))
        else (Err UB, (s, (vec, i)))
    end.

(** The index reached is the number of frames allocated. *)
Definition AllocFrames (out_vec : frame_vec) (count : Z) : M t (frame_vec * Z) :=
  fun s0 =>
    match loop count (frame ← zoom fst (fun s st => (s, snd st)) AllocFrame;
                      store_frame frame) (s0, (out_vec, 0)) with
    | (Ok _, (s, (vec, i))) => (Ok (vec, i), s)
    | (Err e, (s, _)) => (Err e, s)
    end.

Definition FreeFrame (frame : option CacheFrame) : M t unit :=
  match frame with
  | None => mret tt
  | Some f => fun s =>
      match occupied_frames_ s !! Data f with
      | None => (Ok tt, s)
      | Some _ =>
          (Ok tt, set_queues (device s) (delete (Data f) (occupied_frames_ s))
                    (free_frames_ s ++ [f]) s)
      end
  end.

Definition FreeFrames (vec : frame_vec) (count : Z) : M t frame_vec :=
  for_each (take (Z.to_nat count) vec) FreeFrame;;
  if count <=? Z.of_nat (length vec) then mret vec else throw UB.

#[global] Instance manager : FrameManager t := {|
  fm_Inited := initialized_;
  fm_GetFrameSize := frame_size_;
  fm_CountFreeFrame := CountFreeFrame;
  fm_CountOccupiedFrame := CountOccupiedFrame;
  fm_CountFrame := CountFrame;
  fm_Init := Init;
  fm_GrowUntil := GrowUntil;
  fm_GrowBy := GrowBy;
  fm_AllocFrame := AllocFrame;
  fm_AllocFrames := AllocFrames;
  fm_FreeFrame := FreeFrame;
  fm_FreeFrames := FreeFrames;
|}.
End manager.

(** ** The manager implements the interface *)
Section laws.
Context {D : Type} `{HDL : DeviceAllocatorLaws D}.
Implicit Types (s : t (D := D)) (out : list CacheFrame).

(** The occupied map is exactly the frames handed out, keyed by pointer. *)
Definition inv s out : Prop :=
  frames_ok (device s) (frame_size_ s) (free_frames_ s ++ out) /\
  Permutation (map_to_list (occupied_frames_ s)).*2 out /\
  map_Forall (fun p f => Data f = p) (occupied_frames_ s) /\
  (if initialized_ s then 0 < frame_size_ s else free_frames_ s = [] /\ out = []).

Lemma inv_counts s out :
  inv s out ->
  CountOccupiedFrame s = Z.of_nat (length out) /\
  CountFrame s = CountFreeFrame s + CountOccupiedFrame s /\
  CountFrame s < 2 ^ 47.
Proof.
  intros (Hok & Hp & _). apply frames_ok_length in Hok. rewrite length_app in Hok.
  assert (CountOccupiedFrame s = Z.of_nat (length out)) as Hc.
  { unfold CountOccupiedFrame. rewrite <- Hp, length_fmap, length_map_to_list. done. }
  unfold CountFrame, CountFreeFrame. rewrite Hc, u64_small; lia.
Qed.

Lemma inv_occupied s out f :
  inv s out -> f ∈ out -> occupied_frames_ s !! Data f = Some f.
Proof.
  intros (_ & Hp & Hk & _) Hf. rewrite <- Hp in Hf.
  apply list_elem_of_fmap in Hf as ([q g] & -> & Hin).
  apply elem_of_map_to_list in Hin. simpl. by rewrite (Hk q g Hin).
Qed.

Lemma default_createFrame_spec s out :
  inv s out -> initialized_ s = true ->
  wp createFrame (fun b s' => inv s' out /\ initialized_ s' = true /\
      frame_size_ s' = frame_size_ s /\ 
      CountFrame s' = CountFrame s + (if b : bool then 1 else 0) /\
      (b = false -> s' = s /\ CacheFrame_Create (device s) (device_type_ s)
          (frame_size_ s) ("frame_" +:+ pretty (CountFrame s)) = None))
    (fun _ _ => False) s.
Proof.
  intros HI Hin. pose proof (inv_counts _ _ HI) as (Hco & Hcf & Hb).
  unfold wp, createFrame. destruct (CacheFrame_Create _ _ _ _) as [[f d']|] eqn:Hc.
  - destruct HI as (Hok & Hp & Hk & Hi). rewrite Hin in Hi.
    assert (inv (set_queues d' (occupied_frames_ s) (free_frames_ s ++ [f]) s) out) as HI'.
    { split; [|split; [done|split; [done|]]]; simpl; [|by rewrite Hin].
      eapply frames_ok_perm; [eapply frames_ok_fresh; done|].
      rewrite <- app_assoc. simpl. apply Permutation_middle. }
    pose proof (inv_counts _ _ HI') as (Hco' & Hcf' & _).
    split; [done|]. split_and!; simpl; auto; [|done].
    rewrite Hcf', Hcf, Hco, Hco'. unfold CountFreeFrame. simpl.
    rewrite length_app. simpl. lia.
  - split; [done|]. split_and!; simpl; auto; lia.
Qed.

(** [createFrames] keeps everything handed out and only adds free frames. *)
Lemma default_createFrames_spec s out n :
  inv s out -> initialized_ s = true ->
  wp (createFrames n) (fun r s' => inv s' out /\ initialized_ s' = true /\
      frame_size_ s' = frame_size_ s /\
      (r = None -> CountFrame s' = CountFrame s + Z.max 0 n) /\
      CountFrame s <= CountFrame s')
    (fun _ _ => False) s.
Proof.
  intros HI Hin. unfold createFrames.
  apply (wp_loop (fun k s' => inv s' out /\ initialized_ s' = true /\
    frame_size_ s' = frame_size_ s /\ CountFrame s' = CountFrame s + k)).
  - split_and!; auto; try apply HI; lia.
  - intros k s1 Hk (HI1 & Hin1 & Hsz1 & Hc1). wp_step.
    eapply wp_mono; [by apply default_createFrame_spec| |done].
    intros b s2 (HI2 & Hin2 & Hsz2 & Hc2 & _). wp_step. destruct b.
    + split_and!; auto; try apply HI2; [congruence|lia].
    + split_and!; auto; try apply HI2; [congruence|done|lia].
  - intros s1 (HI1 & Hin1 & Hsz1 & Hc1). split_and!; auto; try apply HI1. lia.
Qed.

Lemma take_front_spec s out :
  inv s out -> initialized_ s = true ->
  wp take_front (fun r s' => initialized_ s' = true /\ frame_size_ s' = frame_size_ s /\
      match r with
      | Some f => inv s' (f :: out)
      | None => inv s' out /\ free_frames_ s' = []
      end) (fun _ _ => False) s.
Proof.
  intros HI Hin. unfold wp, take_front.
  destruct (free_frames_ s) as [|f rest] eqn:Hf; [done|].
  split; [done|]. split; [done|]. destruct HI as (Hok & Hp & Hk & Hi).
  rewrite Hf in Hok.
  assert (occupied_frames_ s !! Data f = None) as Hnone.
  { destruct (_ !! Data f) as [g|] eqn:Hg; [|done]. exfalso.
    pose proof (Hk _ _ Hg) as Hd.
    apply elem_of_map_to_list in Hg.
    assert (g ∈ out) as Hgo.
    { rewrite <- Hp. apply list_elem_of_fmap. by exists (Data f, g). }
    destruct Hok as [Hnd _]. simpl in Hnd. apply NoDup_cons in Hnd as [Hnot _].
    apply Hnot. rewrite <- Hd. apply list_elem_of_fmap_2. set_solver. }
  split; [|split; [|split]]; simpl.
  - eapply frames_ok_perm; [exact Hok|]. simpl. apply Permutation_middle.
  - rewrite map_to_list_insert by done. simpl. by rewrite Hp.
  - apply map_Forall_insert_2; done.
  - by rewrite Hin in *.
Qed.

Lemma default_AllocFrame_spec s out :
  inv s out -> initialized_ s = true ->
  wp AllocFrame (fun r s' => initialized_ s' = true /\ frame_size_ s' = frame_size_ s /\
      match r with
      | Some f => inv s' (f :: out)
      | None => inv s' out /\ free_frames_ s' = []
      end) (fun _ _ => False) s.
Proof.
  intros HI Hin. unfold AllocFrame. do 2 (wp_step; wp_step).
  apply wp_bind, (wp_mono _ (fun _ s' => inv s' out /\ initialized_ s' = true /\
    frame_size_ s' = frame_size_ s) _ (fun _ _ => False)); [|simpl|done].
  - wp_step; [|by apply wp_ret]. wp_step.
    eapply wp_mono; [by apply default_createFrames_spec| |done].
    intros r s1 (?&?&?&_). by apply wp_ret.
  - intros _ s1 (HI1 & Hin1 & Hsz). rewrite <- Hsz. by apply take_front_spec.
Qed.

Lemma default_AllocFrames_spec s out vec n :
  inv s out -> initialized_ s = true -> 0 <= n <= Z.of_nat (length vec) ->
  wp (AllocFrames vec n) (fun '(vec', k) s' => initialized_ s' = true /\
      frame_size_ s' = frame_size_ s /\
      exists fs, take (Z.to_nat k) vec' = Some <$> fs /\ length vec' = length vec /\
        k = Z.of_nat (length fs) /\ 0 <= k <= n /\ inv s' (fs ++ out))
    (fun _ _ => False) s.
Proof.
  intros HI Hin Hn.
  set (J := fun k (st : t * (frame_vec * Z)) => let '(s', (vec', i)) := st in
    i = k /\ initialized_ s' = true /\ frame_size_ s' = frame_size_ s /\
    exists fs, take (Z.to_nat k) vec' = Some <$> fs /\ length vec' = length vec /\
      k = Z.of_nat (length fs) /\ 0 <= k <= n /\ inv s' (fs ++ out)).
  set (body := (frame ← zoom fst (fun s st => (s, snd st)) AllocFrame;
                store_frame frame) : M (t * (frame_vec * Z)) (option unit)).
  assert (Hl : wp (loop n body) (fun _ st => exists k, J k st) (fun _ _ => False)
            (s, (vec, 0))).
  { apply (wp_loop J).
    - split_and!; auto. exists []. rewrite take_0. split_and!; simpl; auto; lia.
    - intros k [s1 [v1 i1]] Hk (-> & Hin1 & Hsz1 & fs & Ht & Hlen & Hkf & Hkn & HI1).
      unfold body; wp_steps. eapply wp_mono; [by apply default_AllocFrame_spec| |done].
      intros [f|] s2; simpl.
      + intros (Hin2 & Hsz2 & HI2). unfold wp, store_frame.
        destruct (k <? Z.of_nat (length v1)) eqn:E; [|lia].
        assert (Z.to_nat k < length v1)%nat as Hlt by lia.
        split_and!; auto; [congruence|]. exists (fs ++ [f]).
        rewrite fmap_app. simpl.
        replace (Z.to_nat (k + 1)) with (S (Z.to_nat k)) by lia.
        rewrite (take_S_r _ _ (Some f)) by (by apply list_lookup_insert_eq).
        rewrite take_insert_ge, Ht, length_insert, length_app by lia. simpl.
        split_and!; auto; try lia.
        destruct HI2 as (Hok & Hp & Hrest).
        assert (Permutation (f :: fs ++ out) ((fs ++ [f]) ++ out)) as Hpm.
        { rewrite <- app_assoc. apply Permutation_middle. }
        split; [by eapply frames_ok_perm; [|apply Permutation_app; [done|]]|].
        split; [by rewrite Hp|]. rewrite Hin2 in *. apply Hrest.
      + intros (Hin2 & Hsz2 & HI2 & Hf2). exists k.
        split_and!; auto; [congruence|]. exists fs. split_and!; auto; lia.
    - intros [s1 [v1 i1]] HJ. eauto. }
  unfold wp, AllocFrames in *. fold body.
  destruct (loop n body (s, (vec, 0))) as [[r|e] [s1 [v1 i1]]]; [|done].
  destruct Hl as (k & -> & ? & ? & ?). eauto.
Qed.

Lemma default_FreeFrame_spec s out f :
  inv s (f :: out) -> initialized_ s = true ->
  wp (FreeFrame (Some f)) (fun _ s' => initialized_ s' = true /\
      frame_size_ s' = frame_size_ s /\ inv s' out /\
      free_frames_ s' = free_frames_ s ++ [f])
    (fun _ _ => False) s.
Proof.
  intros HI Hin. unfold wp, FreeFrame.
  rewrite (inv_occupied _ _ f HI) by set_solver.
  destruct HI as (Hok & Hp & Hk & Hi). rewrite Hin in Hi.
  assert (occupied_frames_ s !! Data f = Some f) as Hf.
  { by eapply inv_occupied; [split; [done|split; [done|split; [done|by rewrite Hin]]]|left]. }
  split; [done|]. split; [done|]. split; [|done].
  split; [|split; [|split]]; simpl.
  - eapply frames_ok_perm; [exact Hok|]. rewrite <- app_assoc. done.
  - rewrite <- (map_to_list_delete _ _ _ Hf) in Hp. simpl in Hp.
    by apply Permutation_cons_inv in Hp.
  - by apply map_Forall_delete.
  - by rewrite Hin.
Qed.

(** A frame the manager did not hand out, or got back already, is ignored. *)
Lemma FreeFrame_unknown s out f :
  inv s out -> (f ∉ out) -> (forall g, g ∈ out -> Data g <> Data f) ->
  FreeFrame (Some f) s = (Ok tt, s).
Proof.
  intros (_ & Hp & Hk & _) _ Hd. unfold FreeFrame.
  destruct (_ !! Data f) as [g|] eqn:Hg; [|done]. exfalso.
  apply (Hd g); [|by apply (Hk _ _ Hg)].
  rewrite <- Hp. apply list_elem_of_fmap. exists (Data f, g).
  by rewrite elem_of_map_to_list.
Qed.

Lemma default_FreeFrames_spec s out vec fs n :
  inv s (fs ++ out) -> initialized_ s = true ->
  take (Z.to_nat n) vec = Some <$> fs -> n = Z.of_nat (length fs) ->
  wp (FreeFrames vec n) (fun vec' s' => initialized_ s' = true /\
      frame_size_ s' = frame_size_ s /\ length vec' = length vec /\ inv s' out)
    (fun _ _ => False) s.
Proof.
  intros HI Hin Ht Hn. unfold FreeFrames. rewrite Ht.
  assert (length fs <= length vec)%nat as Hlen.
  { rewrite <- (length_fmap Some fs), <- Ht, length_take. lia. }
  apply wp_bind.
  assert (Hgen : forall l s, inv s (l ++ out) -> initialized_ s = true ->
    wp (for_each (Some <$> l) FreeFrame) (fun _ s' => initialized_ s' = true /\
      frame_size_ s' = frame_size_ s /\ inv s' out) (fun _ _ => False) s).
  { clear. induction l as [|f l IH]; intros s HI Hin; simpl.
    - apply wp_ret. auto.
    - apply wp_bind. eapply wp_mono; [by apply default_FreeFrame_spec| |done].
      intros _ s1 (Hin1 & Hsz & HI1 & _). rewrite <- Hsz. by apply IH. }
  eapply wp_mono; [by apply Hgen| |done]. intros _ s1 (?&?&?).
  destruct (n <=? _) eqn:E; [|lia]. by apply wp_ret.
Qed.

Lemma default_Init_spec s n :
  inv s [] ->
  wp (Init n)
     (fun _ s' => inv s' [] /\ initialized_ s' = true /\
        (initialized_ s = true -> s' = s) /\
        (initialized_ s = false -> 0 < n /\ frame_size_ s' = n))
     (fun e s' => e = AsException ALLSPARK_PARAM_ERROR /\ s' = s /\
        initialized_ s = false /\ n <= 0) s.
Proof.
  intros HI. unfold Init. wp_step. wp_step. wp_step; [by wp_step|].
  wp_step; [wp_step; split_and!; auto; lia|]. wp_step. wp_step. wp_step. wp_step.
  apply wp_bind. eapply wp_mono; [apply (default_createFrames_spec _ [])| |done].
  - destruct HI as (Hok & Hp & Hk & Hi). rewrite Heqb in Hi. destruct Hi as [Hf _].
    split; [|split; [done|split; [done|simpl; lia]]]. simpl. rewrite Hf. by split; constructor.
  - done.
  - intros r s1 (HI1 & Hin1 & Hsz & _). apply wp_ret. simpl in Hsz.
    split_and!; auto; try apply HI1; [done|lia].
Qed.

#[global] Instance manager_laws : FrameManagerLaws (t (D := D)).
Proof.
  refine {| fm_free := free_frames_; fm_inv := inv |}.
  - intros s out out' (Hok & Hp & Hk & Hi) Hperm.
    split; [by eapply frames_ok_perm; [|apply Permutation_app]|].
    split; [by rewrite Hp|]. split; [done|].
    destruct (initialized_ s); [done|]. destruct Hi as [-> ->].
    split; [done|]. by apply Permutation_nil.
  - intros s out (Hok & _). apply Hok.
  - intros s out f (Hok & _) Hf. destruct Hok as [_ Hall].
    rewrite Forall_forall in Hall. by apply Hall.
  - intros s out HI. destruct (inv_counts _ _ HI) as (? & ? & _). done.
  - apply default_Init_spec.
  - apply default_AllocFrame_spec.
  - intros. eapply wp_mono; [by apply default_AllocFrames_spec|done|done].
  - intros. eapply wp_mono; [by eapply default_FreeFrame_spec| |done].
    intros _ s' (? & ? & ? & Hf). split_and!; auto. simpl. rewrite Hf.
    symmetry. apply Permutation_cons_append.
  - intros. eapply wp_mono; [by eapply default_FreeFrames_spec|done|done].
Defined.

(** ** Growing *)
Lemma grow_spec s out num :
  inv s out -> initialized_ s = true -> 0 <= num ->
  wp (GrowUntil num) (fun b s' => inv s' out /\
      CountFrame s <= CountFrame s' /\
      (if b : bool then grow_target num <= CountFrame s'
       else CountFrame s' < grow_target num /\
         CacheFrame_Create (device s') (device_type_ s') (frame_size_ s')
           ("frame_" +:+ pretty (CountFrame s')) = None))
    (fun _ _ => False) s.
Proof.
  intros HI Hin Hnum. unfold GrowUntil. set (target := grow_target num).
  wp_step. wp_step.
  apply wp_bind.
  set (Q := fun (r : option bool) s' => exists b, r = Some b /\ inv s' out /\
    CountFrame s <= CountFrame s' /\
    (if b : bool then target <= CountFrame s'
     else CountFrame s' < target /\
       CacheFrame_Create (device s') (device_type_ s') (frame_size_ s')
         ("frame_" +:+ pretty (CountFrame s')) = None)).
  apply (wp_mono _ Q _ (fun _ _ => False)); [|by intros r s' (b & -> & ?); apply wp_ret|done].
  apply (wp_loop (fun k s' => inv s' out /\ initialized_ s' = true /\
    CountFrame s' = CountFrame s + k /\ (k = 0 \/ CountFrame s + k <= target))).
  - split_and!; auto; lia.
  - intros k s1 Hk (HI1 & Hin1 & Hc1 & Hle). wp_step. wp_step. wp_step.
    + wp_step. eapply wp_mono; [by apply default_createFrame_spec| |done].
      intros b s2 (HI2 & Hin2 & _ & Hc2 & Hf). wp_step. destruct b.
      * split_and!; auto; lia.
      * exists false. destruct (Hf eq_refl) as [-> Hnone]. split_and!; auto; lia.
    + wp_step. exists true. split_and!; auto; lia.
  - intros s1 (HI1 & Hin1 & Hc1 & Hle). exfalso. lia.
Qed.
End laws.
Arguments t : clear implicits.
End DefaultCacheFrameManager.

(** * The lock-free queue of utility/concurrentqueue.h (vendored moodycamel) *)

(** Enqueueing fails only when memory runs out; a bulk dequeue moves out at
    most the number asked for. *)
Class ConcurrentQueue (Q : Type) := {
  cq_enqueue : option CacheFrame -> Q -> option Q;
  cq_enqueue_bulk : frame_vec -> Q -> option Q;
  cq_try_dequeue : Q -> option (option CacheFrame * Q);
  cq_try_dequeue_bulk : Z -> Q -> frame_vec * Q;
}.

(** The queue's contents are a bag: no order is promised across producers.
    Without a concurrent call a failed dequeue means an empty queue. *)
Class ConcurrentQueueLaws (Q : Type) `{ConcurrentQueue Q} := {
  cq_elements : Q -> frame_vec;
  cq_enqueue_elements x q q' :
    cq_enqueue x q = Some q' -> Permutation (cq_elements q') (x :: cq_elements q);
  cq_enqueue_bulk_elements l q q' :
    cq_enqueue_bulk l q = Some q' -> Permutation (cq_elements q') (l ++ cq_elements q);
  cq_try_dequeue_some x q q' :
    cq_try_dequeue q = Some (x, q') -> Permutation (cq_elements q) (x :: cq_elements q');
  cq_try_dequeue_none q : cq_try_dequeue q = None -> cq_elements q = [];
  cq_try_dequeue_bulk_elements n q l q' :
    cq_try_dequeue_bulk n q = (l, q') ->
    Permutation (cq_elements q) (l ++ cq_elements q') /\ Z.of_nat (length l) <= Z.max 0 n;
}.

(** * [ConcurrentCacheFrameManager]

    One thread's view; the interleavings of several threads are in
    FrameConcurrency. *)
Module ConcurrentCacheFrameManager.
Section manager.
Context {D Q : Type} `{HD : DeviceAllocator D} `{HQ : ConcurrentQueue Q}.

Record t := mk {
  device : D;
  device_type_ : DeviceType;
  initialized_ : bool;
  free_frames_ : Q;
  free_frame_count_ : Z;
  total_frame_count_ : Z;
  frame_size_ : Z;
  init_frames_ : Z;
}.

Definition new (d : D) (dt : DeviceType) (q : Q) (init_frames : Z) : t :=
  mk d dt false q 0 0 0 init_frames.

Definition set_queue (q : Q) (count : Z) (s : t) : t :=
  mk (device s) (device_type_ s) (initialized_ s) q (i64 count)
     (total_frame_count_ s) (frame_size_ s) (init_frames_ s).
Definition set_inited (frame_size : Z) (s : t) : t :=
  mk (device s) (device_type_ s) true (free_frames_ s) (free_frame_count_ s)
     (total_frame_count_ s) frame_size (init_frames_ s).
Definition set_device (d : D) (s : t) : t :=
  mk d (device_type_ s) (initialized_ s) (free_frames_ s) (free_frame_count_ s)
     (total_frame_count_ s) (frame_size_ s) (init_frames_ s).
Definition set_total (n : Z) (s : t) : t :=
  mk (device s) (device_type_ s) (initialized_ s) (free_frames_ s)
     (free_frame_count_ s) n (frame_size_ s) (init_frames_ s).

(** The counters are int64 and are returned as size_t. *)
Definition CountFreeFrame (s : t) : Z := u64 (free_frame_count_ s).
Definition CountFrame (s : t) : Z := u64 (total_frame_count_ s).
Definition CountOccupiedFrame (s : t) : Z := u64 (CountFrame s - CountFreeFrame s).

(** [total_frame_count_++] is a plain int64: overflow is undefined. *)
Definition createFrame : M t bool := fun s =>
  match CacheFrame_Create (device s) (device_type_ s) (frame_size_ s) "frame" with
  | None => (Ok false, s)
  | Some (frame, d') =>
      match cq_enqueue (Some frame) (free_frames_ s) with
      | None => (Ok false, set_device (CacheFrame_destroy d' frame) s)
      | Some q' =>
          let n := total_frame_count_ s in
          if n =? INT64_MAX then (Err UB, s)
          else (Ok true, set_device d' (set_total (n + 1)
                           (set_queue q' (free_frame_count_ s + 1) s)))
      end
  end.

Definition createFrames (n : Z) : M t (option unit) :=
  loop n (b ← createFrame; mret (if b : bool then None else Some tt)).

Definition Init (frame_size : Z) : M t unit :=
  inited ← gets initialized_;
  if inited : bool then mret tt
  else if frame_size <=? 0 then AS_THROW ALLSPARK_PARAM_ERROR
  else
    modify (set_inited frame_size);;
    init ← gets init_frames_;
    createFrames init;;
    mret tt.

(** [current_num] starts at the frame count and goes up by one a round. *)
Definition GrowUntil (num_frames : Z) : M t bool :=
  let num_frames := if num_frames =? 0 then INT64_MAX else num_frames in
  current_num ← gets CountFrame;
  r ← createFrames (num_frames - current_num);
  mret (match r with Some _ => false | None => true end).

Definition GrowBy (num_frames : Z) : M t bool :=
  r ← createFrames num_frames;
  mret (match r with Some _ => false | None => true end).

Definition AllocFrame : M t (option CacheFrame) := fun s =>
  match cq_try_dequeue (free_frames_ s) with
  | None => (Ok None, s)
  | Some (ret, q') => (Ok ret, set_queue q' (free_frame_count_ s - 1) s)
  end.

(** All or none: a short bulk dequeue is moved back into the queue, which
    leaves null pointers in the vector. *)
Definition AllocFrames (out_vec : frame_vec) (count : Z) : M t (frame_vec * Z) :=
  fun s =>
    let '(got, q') := cq_try_dequeue_bulk count (free_frames_ s) in
    let finished := Z.of_nat (length got) in
    if Z.of_nat (length out_vec) <? finished then (Err UB, s)
    else if negb (finished =? count) then
      match cq_enqueue_bulk got q' with
      | None => (Err (AsException ALLSPARK_RUNTIME_ERROR),
                 set_queue q' (free_frame_count_ s) s)
      | Some q'' => (Ok (replicate (length got) None ++ drop (length got) out_vec, 0),
                     set_queue q'' (free_frame_count_ s) s)
      end
    else (Ok (got ++ drop (length got) out_vec, count),
          set_queue q' (free_frame_count_ s - finished) s).

Definition FreeFrame (frame : option CacheFrame) : M t unit :=
  match frame with
  | None => mret tt
  | Some f => fun s =>
      match cq_enqueue (Some f) (free_frames_ s) with
      | None => (Err (AsException ALLSPARK_RUNTIME_ERROR), s)
      | Some q' => (Ok tt, set_queue q' (free_frame_count_ s + 1) s)
      end
  end.

(** The frames are moved out of the vector. *)
Definition FreeFrames (vec : frame_vec) (count : Z) : M t frame_vec := fun s =>
  if count =? 0 then (Ok vec, s)
  else if Z.of_nat (length vec) <? count then (Err UB, s)
  else
    let moved := take (Z.to_nat count) vec in
    match cq_enqueue_bulk moved (free_frames_ s) with
    | None => (Err (AsException ALLSPARK_RUNTIME_ERROR), s)
    | Some q' => (Ok (replicate (length moved) None ++ drop (Z.to_nat count) vec),
                  set_queue q' (free_frame_count_ s + count) s)
    end.

#[global] Instance manager : FrameManager t := {|
  fm_Inited := initialized_;
  fm_GetFrameSize := frame_size_;
  fm_CountFreeFrame := CountFreeFrame;
  fm_CountOccupiedFrame := CountOccupiedFrame;
  fm_CountFrame := CountFrame;
  fm_Init := Init;
  fm_GrowUntil := GrowUntil;
  fm_GrowBy := GrowBy;
  fm_AllocFrame := AllocFrame;
  fm_AllocFrames := AllocFrames;
  fm_FreeFrame := FreeFrame;
  fm_FreeFrames := FreeFrames;
|}.
End manager.

Section laws.
Context {D Q : Type} `{HDL : DeviceAllocatorLaws D} `{HQL : ConcurrentQueueLaws Q}.
Implicit Types (s : t (D := D) (Q := Q)) (out : list CacheFrame).

Definition frees (q : Q) : list CacheFrame := omap id (cq_elements q).

Definition inv s out : Prop :=
  Permutation (cq_elements (free_frames_ s)) (Some <$> frees (free_frames_ s)) /\
  frames_ok (device s) (frame_size_ s) (frees (free_frames_ s) ++ out) /\
  free_frame_count_ s = Z.of_nat (length (frees (free_frames_ s))) /\
  total_frame_count_ s = free_frame_count_ s + Z.of_nat (length out) /\
  (if initialized_ s then 0 < frame_size_ s
   else frees (free_frames_ s) = [] /\ out = []).

Lemma frees_perm q l :
  Permutation (cq_elements q) (Some <$> l) -> Permutation (frees q) l.
Proof.
  intros Hp. unfold frees. rewrite Hp. by rewrite omap_id_Some.
Qed.

Lemma inv_small s out :
  inv s out ->
  0 <= free_frame_count_ s /\ free_frame_count_ s <= total_frame_count_ s /\
  total_frame_count_ s < 2 ^ 47.
Proof.
  intros (_ & Hok & Hc & Ht & _). apply frames_ok_length in Hok.
  rewrite length_app in Hok. lia.
Qed.

(** Changing the queue to one that holds [free], with the counter in step. *)
Lemma inv_set_queue s out out' q' free :
  inv s out -> initialized_ s = true ->
  Permutation (cq_elements q') (Some <$> free) ->
  Permutation (free ++ out') (frees (free_frames_ s) ++ out) ->
  inv (set_queue q' (Z.of_nat (length free)) s) out'.
Proof.
  intros HI Hin Hq Hp. pose proof (inv_small _ _ HI) as Hb.
  destruct HI as (Hs & Hok & Hc & Ht & Hi).
  pose proof (frees_perm _ _ Hq) as Hf.
  pose proof (Permutation_length Hp) as Hlen. rewrite !length_app in Hlen.
  unfold inv. simpl. rewrite i64_small by lia.
  split_and!.
  - by rewrite Hf.
  - eapply frames_ok_perm; [exact Hok|]. by rewrite Hf, Hp.
  - by rewrite Hf.
  - lia.
  - by rewrite Hin in *.
Qed.

Lemma concurrent_createFrame_spec s out :
  inv s out -> initialized_ s = true ->
  wp createFrame (fun b s' => inv s' out /\ initialized_ s' = true /\
      frame_size_ s' = frame_size_ s /\
      total_frame_count_ s' = total_frame_count_ s + (if b : bool then 1 else 0))
    (fun _ _ => False) s.
Proof.
  intros HI Hin. pose proof (inv_small _ _ HI) as Hb.
  unfold wp, createFrame. destruct (CacheFrame_Create _ _ _ _) as [[f d']|] eqn:Hc;
    [|split_and!; auto; lia].
  destruct HI as (Hs & Hok & Hcnt & Ht & Hi). rewrite Hin in Hi.
  pose proof (frames_ok_fresh _ _ _ _ _ _ _ Hi Hc Hok) as Hok'.
  destruct (cq_enqueue _ _) as [q'|] eqn:Hq.
  - destruct (_ =? INT64_MAX) eqn:E; [unfold INT64_MAX in E; lia|].
    apply cq_enqueue_elements in Hq.
    assert (Permutation (cq_elements q') (Some <$> f :: frees (free_frames_ s))) as Hq'
      by (by rewrite Hq, Hs).
    pose proof (frees_perm _ _ Hq') as Hf.
    split; [|split_and!; auto]. unfold inv. simpl. rewrite i64_small by lia.
    rewrite Hin. split_and!; auto.
    + by rewrite Hf.
    + by rewrite Hf.
    + rewrite Hf. simpl. lia.
    + lia.
  - split; [|split_and!; auto; simpl; lia]. unfold inv. simpl. rewrite Hin.
    split_and!; auto. by apply frames_ok_destroy.
Qed.

Lemma concurrent_createFrames_spec s out n :
  inv s out -> initialized_ s = true ->
  wp (createFrames n) (fun r s' => inv s' out /\ initialized_ s' = true /\
      frame_size_ s' = frame_size_ s /\
      (r = None -> total_frame_count_ s' = total_frame_count_ s + Z.max 0 n))
    (fun _ _ => False) s.
Proof.
  intros HI Hin. unfold createFrames.
  apply (wp_loop (fun k s' => inv s' out /\ initialized_ s' = true /\
    frame_size_ s' = frame_size_ s /\
    total_frame_count_ s' = total_frame_count_ s + k)).
  - split_and!; auto; lia.
  - intros k s1 Hk (HI1 & Hin1 & Hsz1 & Hc1). wp_step.
    eapply wp_mono; [by apply concurrent_createFrame_spec| |done].
    intros b s2 (HI2 & Hin2 & Hsz2 & Hc2). wp_step.
    destruct b; split_and!; auto; try congruence; lia.
  - intros s1 (HI1 & Hin1 & Hsz1 & Hc1). split_and!; auto.
Qed.

Lemma concurrent_Init_spec s n :
  inv s [] ->
  wp (Init n)
     (fun _ s' => inv s' [] /\ initialized_ s' = true /\
        (initialized_ s = true -> s' = s) /\
        (initialized_ s = false -> 0 < n /\ frame_size_ s' = n))
     (fun e s' => e = AsException ALLSPARK_PARAM_ERROR /\ s' = s /\
        initialized_ s = false /\ n <= 0) s.
Proof.
  intros HI. unfold Init. wp_step. wp_step. wp_step; [by wp_step|].
  wp_step; [wp_step; split_and!; auto; lia|]. wp_step. wp_step. wp_step. wp_step.
  apply wp_bind. eapply wp_mono; [apply (concurrent_createFrames_spec _ [])| |done].
  - destruct HI as (Hs & Hok & Hcnt & Ht & Hi). rewrite Heqb in Hi.
    destruct Hi as [Hf _]. unfold inv. simpl.
    split_and!; auto; [|lia]. rewrite Hf. by split; constructor.
  - done.
  - intros r s1 (HI1 & Hin1 & Hsz & _). apply wp_ret. simpl in Hsz.
    split_and!; auto; [by intros; simplify_eq|lia].
Qed.

Lemma concurrent_AllocFrame_spec s out :
  inv s out -> initialized_ s = true ->
  wp AllocFrame (fun r s' => initialized_ s' = true /\ frame_size_ s' = frame_size_ s /\
      match r with
      | Some f => inv s' (f :: out)
      | None => inv s' out /\ frees (free_frames_ s') = []
      end) (fun _ _ => False) s.
Proof.
  intros HI Hin. unfold wp, AllocFrame.
  destruct (cq_try_dequeue _) as [[x q']|] eqn:Hq.
  - apply cq_try_dequeue_some in Hq. split; [done|]. split; [done|].
    pose proof HI as (Hs & _ & Hc & _).
    rewrite Hs in Hq.
    assert (x ∈ (Some <$> frees (free_frames_ s))) as Hx by (rewrite Hq; left).
    apply list_elem_of_fmap in Hx as (f & -> & Hf).
    apply elem_of_Permutation in Hf as [rest Hrest].
    rewrite Hrest in Hq. simpl in Hq. apply Permutation_cons_inv in Hq.
    rewrite Hc, Hrest. simpl.
    replace (Z.of_nat (S (length rest)) - 1) with (Z.of_nat (length rest)) by lia.
    apply (inv_set_queue s out); [done|done|by rewrite Hq|]. rewrite Hrest. simpl.
    symmetry. apply Permutation_middle.
  - apply cq_try_dequeue_none in Hq. split_and!; auto.
    unfold frees. by rewrite Hq.
Qed.

Lemma Permutation_fmap_app_inv {A} (l : list A) (l1 l2 : list (option A)) :
  Permutation (Some <$> l) (l1 ++ l2) ->
  exists k1 k2, l1 = Some <$> k1 /\ l2 = Some <$> k2 /\ Permutation l (k1 ++ k2).
Proof.
  intros Hp. exists (omap id l1), (omap id l2).
  assert (Hall : Forall is_Some (l1 ++ l2)).
  { rewrite <- Hp. apply Forall_fmap, Forall_true. intros x. by exists x. }
  apply Forall_app in Hall as [H1 H2].
  assert (Haux : forall k : list (option A), Forall is_Some k -> k = Some <$> omap id k).
  { induction 1 as [|? ? [y ->] ? IH]; simpl; [done|]. by f_equal. }
  split; [by apply Haux|]. split; [by apply Haux|].
  rewrite <- omap_app, <- Hp. by rewrite omap_id_Some.
Qed.

Lemma concurrent_AllocFrames_spec s out vec n :
  inv s out -> initialized_ s = true -> 0 <= n <= Z.of_nat (length vec) ->
  wp (AllocFrames vec n) (fun '(vec', k) s' => initialized_ s' = true /\
      frame_size_ s' = frame_size_ s /\ (k = 0 \/ k = n) /\
      exists fs, take (Z.to_nat k) vec' = Some <$> fs /\ length vec' = length vec /\
        k = Z.of_nat (length fs) /\ 0 <= k <= n /\ inv s' (fs ++ out))
    (fun e _ => safe_exn e) s.
Proof.
  intros HI Hin Hn. unfold wp, AllocFrames.
  destruct (cq_try_dequeue_bulk _ _) as [got q'] eqn:Hq.
  apply cq_try_dequeue_bulk_elements in Hq as [Hp Hlen].
  destruct (_ <? _) eqn:E; [lia|]. clear E.
  pose proof HI as (Hs & _ & Hc & _). rewrite Hs in Hp.
  apply Permutation_fmap_app_inv in Hp as (fs & rest & -> & Hq' & Hp).
  rewrite length_fmap in *.
  destruct (Z.of_nat (length fs) =? n) eqn:E; simpl.
  - split_and!; auto. exists fs. rewrite length_app, length_drop, length_fmap.
    split_and!; try lia.
    + apply take_app_length'. rewrite length_fmap. lia.
    + replace (free_frame_count_ s - _) with (Z.of_nat (length rest))
        by (apply Permutation_length in Hp; rewrite length_app in Hp; lia).
      eapply inv_set_queue; [done|done|by rewrite Hq'|].
      rewrite Hp, app_assoc. by rewrite (Permutation_app_comm fs rest).
  - destruct (cq_enqueue_bulk _ q') as [q''|] eqn:Hb; [|done].
    apply cq_enqueue_bulk_elements in Hb.
    split_and!; auto. exists []. rewrite length_app, length_replicate, length_drop.
    split_and!; simpl; auto; try lia.
    rewrite Hc. eapply inv_set_queue; [done|done| |done].
    by rewrite Hb, Hq', <- fmap_app, Hp.
Qed.

Lemma concurrent_FreeFrame_spec s out f :
  inv s (f :: out) -> initialized_ s = true ->
  wp (FreeFrame (Some f)) (fun _ s' => initialized_ s' = true /\
      frame_size_ s' = frame_size_ s /\ inv s' out /\
      Permutation (frees (free_frames_ s')) (f :: frees (free_frames_ s)))
    (fun e _ => not_taken_back e) s.
Proof.
  intros HI Hin. unfold wp, FreeFrame.
  destruct (cq_enqueue _ _) as [q'|] eqn:Hq; [|done].
  apply cq_enqueue_elements in Hq. pose proof HI as (Hs & _ & Hc & _).
  assert (Permutation (cq_elements q') (Some <$> f :: frees (free_frames_ s))) as Hq'
    by (by rewrite Hq, Hs).
  split_and!; auto; [|by apply frees_perm].
  rewrite Hc. replace (_ + 1) with (Z.of_nat (length (f :: frees (free_frames_ s))))
    by (simpl; lia).
  eapply inv_set_queue; [done|done|done|]. simpl. apply Permutation_middle.
Qed.

Lemma concurrent_FreeFrames_spec s out vec fs n :
  inv s (fs ++ out) -> initialized_ s = true ->
  take (Z.to_nat n) vec = Some <$> fs -> n = Z.of_nat (length fs) ->
  wp (FreeFrames vec n) (fun vec' s' => initialized_ s' = true /\
      frame_size_ s' = frame_size_ s /\ length vec' = length vec /\ inv s' out)
    (fun e _ => safe_exn e) s.
Proof.
  intros HI Hin Ht Hn. unfold wp, FreeFrames.
  assert (length fs <= length vec)%nat as Hlen.
  { rewrite <- (length_fmap Some fs), <- Ht, length_take. lia. }
  destruct (n =? 0) eqn:E0.
  { split_and!; auto. destruct fs; [done|simpl in Hn; lia]. }
  destruct (_ <? n) eqn:E; [lia|]. rewrite Ht.
  destruct (cq_enqueue_bulk _ _) as [q'|] eqn:Hq; [|done].
  apply cq_enqueue_bulk_elements in Hq. pose proof HI as (Hs & _ & Hc & _).
  rewrite Hs, <- fmap_app in Hq.
  split_and!; auto.
  - rewrite length_app, length_replicate, length_fmap, length_drop. lia.
  - rewrite Hc, Hn. replace (Z.of_nat (length (frees (free_frames_ s))) + _)
      with (Z.of_nat (length (fs ++ frees (free_frames_ s))))
      by (rewrite length_app; lia).
    eapply inv_set_queue; [done|done|done|].
    rewrite app_assoc. by rewrite (Permutation_app_comm fs).
Qed.

#[global] Instance manager_laws : FrameManagerLaws (t (D := D) (Q := Q)).
Proof.
  refine {| fm_free s := frees (free_frames_ s); fm_inv := inv |}.
  - intros s out out' (Hs & Hok & Hc & Ht & Hi) Hp. unfold inv.
    split_and!; auto; [by rewrite <- Hp|by rewrite <- Hp|].
    destruct (initialized_ s); [done|].
    destruct Hi as [? ->]. split; [done|]. by apply Permutation_nil.
  - intros s out (_ & Hok & _). apply Hok.
  - intros s out f (_ & [_ Hall] & _) Hf. rewrite Forall_forall in Hall.
    by apply Hall.
  - intros s out HI. pose proof (inv_small _ _ HI). destruct HI as (_ & _ & Hc & Ht & _).
    simpl. unfold CountFreeFrame, CountOccupiedFrame, CountFrame, CountFreeFrame.
    rewrite !u64_small; rewrite ?u64_small; lia.
  - apply concurrent_Init_spec.
  - apply concurrent_AllocFrame_spec.
  - intros. eapply wp_mono; [by apply concurrent_AllocFrames_spec| |done].
    intros [v k] s' (? & ? & _ & ?). auto.
  - intros. by apply concurrent_FreeFrame_spec.
  - intros. by eapply concurrent_FreeFrames_spec.
Defined.
End laws.
End ConcurrentCacheFrameManager.

(** * Clients of a frame manager *)

(** A client that allocates and frees; it frees what it holds, by position,
    and keeps the frames it got. *)
Inductive client_op := CAlloc | CAllocMany (n : nat) | CFree (k : nat).

Section client.
Context {F : Type} `{HF : FrameManager F}.

Definition client_step (op : client_op) (held : list CacheFrame)
    : M F (list CacheFrame) :=
  match op with
  | CAlloc =>
      r ← fm_AllocFrame;
      mret (match r with Some f => f :: held | None => held end)
  | CAllocMany n =>
      '(vec, k) ← fm_AllocFrames (replicate n None) (Z.of_nat n);
      mret (omap id (take (Z.to_nat k) vec) ++ held)
  | CFree k =>
      match held !! k with
      | None => mret held
      | Some f => fm_FreeFrame (Some f);; mret (delete k held)
      end
  end.

Fixpoint client_run (ops : list client_op) (held : list CacheFrame)
    : M F (list CacheFrame) :=
  match ops with
  | [] => mret held
  | op :: ops' => held' ← client_step op held; client_run ops' held'
  end.

Context `{!FrameManagerLaws F}.

Lemma client_run_inv ops held st :
  fm_inv st held -> fm_Inited st = true ->
  wp (client_run ops held)
     (fun held' st' => fm_inv st' held' /\ fm_Inited st' = true /\
        fm_GetFrameSize st' = fm_GetFrameSize st)
     (fun e _ => safe_exn e) st.
Proof.
  revert held st. induction ops as [|op ops IH]; intros held st HI Hin; simpl.
  { by apply wp_ret. }
  apply wp_bind, (wp_mono _ (fun held' st' => fm_inv st' held' /\
    fm_Inited st' = true /\ fm_GetFrameSize st' = fm_GetFrameSize st) _
    (fun e _ => safe_exn e)); [|by intros h s (?&?&<-); apply IH|done].
  destruct op as [|n|k]; simpl.
  - apply wp_bind. eapply wp_mono; [by apply fm_AllocFrame_spec| |done].
    intros [f|] s (? & ? & H); apply wp_ret; [done|by destruct H].
  - apply wp_bind. eapply wp_mono.
    + apply (fm_AllocFrames_spec _ held _ (Z.of_nat n)); auto.
      rewrite length_replicate. lia.
    + intros [vec k] s (Hin' & Hsz & fs & Ht & _ & _ & _ & HI'). apply wp_ret.
      rewrite Ht. by rewrite omap_id_Some.
    + done.
  - destruct (held !! k) as [f|] eqn:Hk; [|by apply wp_ret].
    apply wp_bind. eapply wp_mono; [eapply fm_FreeFrame_spec|..]; [|done| |intros; by apply not_taken_back_safe].
    + eapply fm_inv_perm; [exact HI|]. by apply delete_Permutation.
    + intros _ s (? & ? & ? & _). by apply wp_ret.
Qed.
End client.

(** * A concrete device and queue, on which the theorems are run *)

(** A device with room for [slots] blocks, which hands out the address after
    the highest live one. *)
Module BumpDevice.
Record t := mk { live : gset Z; slots : nat }.

Definition next (d : t) : Z := 1 + foldr Z.max 0 (elements (live d)).

#[global] Instance device : DeviceAllocator t := {|
  dev_alloc d n name :=
    if (size (live d) <? slots d)%nat && (next d <? 2 ^ 47)
    then Some (next d, mk ({[next d]} ∪ live d) (slots d)) else None;
  dev_free d p := mk (live d ∖ {[p]}) (slots d);
|}.

Lemma foldr_max_ge (l : list Z) : 0 <= foldr Z.max 0 l /\ forall x, x ∈ l -> x <= foldr Z.max 0 l.
Proof.
  induction l as [|y l [IH0 IH]]; simpl; [split; [done|by intros x Hx%elem_of_nil]|].
  split; [lia|]. intros x [->|Hx]%elem_of_cons; [lia|]. specialize (IH x Hx). lia.
Qed.

#[global] Instance device_laws : DeviceAllocatorLaws t.
Proof.
  refine {| dev_live := live |}; [|done].
  intros d n name p d' H. simpl in H.
  destruct ((_ <? _)%nat && _) eqn:E; simplify_eq/=.
  apply andb_prop in E as [_ E]. apply Z.ltb_lt in E.
  destruct (foldr_max_ge (elements (live d))) as [H0 Hmax].
  split; [|split; [done|unfold next in *; lia]].
  intros Hin%elem_of_elements. apply Hmax in Hin. unfold next in Hin. lia.
Defined.
End BumpDevice.

(** A single-producer queue of bounded capacity is first-in first-out. *)
Module FifoQueue.
Record t := mk { items : frame_vec; capacity : nat }.

#[global] Instance queue : ConcurrentQueue t := {|
  cq_enqueue x q :=
    if (length (items q) <? capacity q)%nat
    then Some (mk (items q ++ [x]) (capacity q)) else None;
  cq_enqueue_bulk l q :=
    if (length (items q) + length l <=? capacity q)%nat
    then Some (mk (items q ++ l) (capacity q)) else None;
  cq_try_dequeue q :=
    match items q with [] => None | x :: r => Some (x, mk r (capacity q)) end;
  cq_try_dequeue_bulk n q :=
    (take (Z.to_nat n) (items q), mk (drop (Z.to_nat n) (items q)) (capacity q));
|}.

#[global] Instance queue_laws : ConcurrentQueueLaws t.
Proof.
  refine {| cq_elements := items |}; simpl.
  - intros x q q' H. case_match; simplify_eq/=. symmetry. apply Permutation_cons_append.
  - intros l q q' H. case_match; simplify_eq/=. apply Permutation_app_comm.
  - intros x [its cap] q'. by destruct its; intros; simplify_eq/=.
  - intros [its cap]. by destruct its.
  - intros n q l q' ?; simplify_eq/=. rewrite take_drop, length_take. split; [done|lia].
Defined.
End FifoQueue.

(** * Properties *)
Section properties.
Context {D : Type} `{HDL : DeviceAllocatorLaws D}.

Lemma default_new_inv (d : D) dt init grow :
  fm_inv (DefaultCacheFrameManager.new d dt init grow) [].
Proof.
  split; [split; constructor|]. split; [|split; [|done]]; simpl.
  - by rewrite map_to_list_empty.
  - apply map_Forall_empty.
Qed.

Lemma concurrent_new_inv {Q} `{HQL : ConcurrentQueueLaws Q} (d : D) dt (q : Q) init :
  cq_elements q = [] ->
  fm_inv (ConcurrentCacheFrameManager.new d dt q init) [].
Proof.
  intros Hq. unfold fm_inv; simpl. unfold ConcurrentCacheFrameManager.inv,
    ConcurrentCacheFrameManager.frees. simpl. rewrite Hq. simpl.
  split_and!; auto. split; constructor.
Qed.
End properties.

(** What a client sees of a well-formed manager that holds frames of [sz]
    bytes, in terms of the interface's own counters. *)
Definition frames_accounted {F} `{FrameManagerLaws F} (st : F) (sz : Z)
    (held : list CacheFrame) : Prop :=
  NoDup (Data <$> fm_free st ++ held) /\
  Forall (fun f => Size f = sz) (fm_free st ++ held) /\
  fm_CountFreeFrame st = Z.of_nat (length (fm_free st)) /\
  fm_CountOccupiedFrame st = Z.of_nat (length held) /\
  fm_CountFrame st = fm_CountFreeFrame st + fm_CountOccupiedFrame st.

Lemma fm_inv_accounted {F} `{FrameManagerLaws F} (st : F) held :
  fm_inv st held -> frames_accounted st (fm_GetFrameSize st) held.
Proof.
  intros HI. destruct (fm_counts _ _ HI) as (? & ? & ?).
  split_and!; auto; [by eapply fm_inv_nodup|].
  apply Forall_forall. intros f Hf. by eapply fm_inv_size.
Qed.

Lemma init_client_spec {F} `{FrameManagerLaws F} (st : F) sz ops :
  fm_inv st [] -> fm_Inited st = false -> 0 < sz ->
  wp (fm_Init sz;; client_run ops [])
     (fun held st' => frames_accounted st' sz held) (fun e _ => safe_exn e) st.
Proof.
  intros HI Hin Hsz. apply wp_bind.
  eapply wp_mono; [by apply fm_Init_spec| |].
  - intros u s (HI' & Hin' & _ & Hs). destruct (Hs Hin) as [_ <-].
    eapply wp_mono; [by apply client_run_inv| |done].
    intros held s' (HI'' & _ & <-). by apply fm_inv_accounted.
  - intros e s (-> & _). done.
Qed.

(** [DefaultCacheFrameManager]: after [Init] with a positive size, whatever
    a client allocates (one frame or many) and frees, no two frames, free or
    handed out, share memory, every frame has the size of [Init], and the three
    counters are the numbers of free, occupied and all frames.  No run reaches
    undefined behaviour. *)
Theorem default_frames_accounted {D} `{DeviceAllocatorLaws D} (d : D) dt init grow sz ops :
  0 < sz ->
  wp (DefaultCacheFrameManager.Init sz;; client_run ops [])
     (fun held st => frames_accounted st sz held) (fun e _ => safe_exn e)
     (DefaultCacheFrameManager.new d dt init grow).
Proof.
  intros Hsz. exact (init_client_spec (DefaultCacheFrameManager.new d dt init grow)
    sz ops (default_new_inv d dt init grow) eq_refl Hsz).
Qed.

Lemma default_frames_accounted_witness :
  0 < 64 /\
  wp (DefaultCacheFrameManager.Init 64;; client_run [CAlloc; CAllocMany 2; CFree 1; CAlloc] [])
     (fun held st => frames_accounted st 64 held) (fun e _ => safe_exn e)
     (DefaultCacheFrameManager.new (BumpDevice.mk ∅ 4) CUDA 2 1).
Proof. split; [lia|]. apply default_frames_accounted. lia. Defined.

(** [ConcurrentCacheFrameManager], run by one thread: the same accounting,
    over any queue that keeps its documented contract.  An exception can only
    be the runtime error of a failed enqueue. *)
Theorem concurrent_frames_accounted {D Q} `{DeviceAllocatorLaws D}
    `{ConcurrentQueueLaws Q} (d : D) (q : Q) dt init sz ops :
  cq_elements q = [] -> 0 < sz ->
  wp (ConcurrentCacheFrameManager.Init sz;; client_run ops [])
     (fun held st => frames_accounted st sz held) (fun e _ => safe_exn e)
     (ConcurrentCacheFrameManager.new d dt q init).
Proof.
  intros Hq Hsz. exact (init_client_spec (ConcurrentCacheFrameManager.new d dt q init)
    sz ops (concurrent_new_inv d dt q init Hq) eq_refl Hsz).
Qed.

Lemma concurrent_frames_accounted_witness :
  cq_elements (FifoQueue.mk [] 8) = [] /\ 0 < 64 /\
  wp (ConcurrentCacheFrameManager.Init 64;; client_run [CAlloc; CAllocMany 2; CFree 1; CAlloc] [])
     (fun held st => frames_accounted st 64 held) (fun e _ => safe_exn e)
     (ConcurrentCacheFrameManager.new (BumpDevice.mk ∅ 4) CUDA (FifoQueue.mk [] 8) 3).
Proof.
  split; [done|]. split; [lia|]. apply concurrent_frames_accounted; [done|lia].
Defined.

(** [DefaultCacheFrameManager::GrowUntil] always returns (the bound on its
    rounds is never what stops it), keeps every frame, and answers [true]
    exactly when the requested number of frames ([grow_target]: 2^64-1 for 0) is reached;
    [false] means that the device refused one more frame. *)
Theorem default_GrowUntil_reaches {D} `{DeviceAllocatorLaws D}
    (s : DefaultCacheFrameManager.t D) out num :
  fm_inv s out -> fm_Inited s = true -> 0 <= num ->
  wp (DefaultCacheFrameManager.GrowUntil num)
     (fun b s' => fm_inv s' out /\
        DefaultCacheFrameManager.CountFrame s <= DefaultCacheFrameManager.CountFrame s' /\
        (if b : bool
         then DefaultCacheFrameManager.grow_target num <= DefaultCacheFrameManager.CountFrame s'
         else DefaultCacheFrameManager.CountFrame s' < DefaultCacheFrameManager.grow_target num /\
           CacheFrame_Create (DefaultCacheFrameManager.device s')
             (DefaultCacheFrameManager.device_type_ s')
             (DefaultCacheFrameManager.frame_size_ s')
             ("frame_" +:+ pretty (DefaultCacheFrameManager.CountFrame s')) = None))
     (fun _ _ => False) s.
Proof. apply DefaultCacheFrameManager.grow_spec. Qed.

Definition growing_manager : DefaultCacheFrameManager.t BumpDevice.t :=
  DefaultCacheFrameManager.set_inited 64
    (DefaultCacheFrameManager.new (BumpDevice.mk ∅ 4) CUDA 2 1).

Lemma growing_manager_inv : fm_inv growing_manager [].
Proof.
  split; [split; constructor|]. split; [|split; [apply map_Forall_empty|done]].
  simpl. by rewrite map_to_list_empty.
Qed.

Lemma default_GrowUntil_reaches_witness :
  (0 <= 3) /\ wp (DefaultCacheFrameManager.GrowUntil 3)
     (fun b s' => b = true) (fun _ _ => False) growing_manager /\
  wp (DefaultCacheFrameManager.GrowUntil 0)
     (fun b s' => b = false /\ fm_inv s' []) (fun _ _ => False) growing_manager.
Proof.
  split; [lia|]. split; [by vm_compute|].
  refine (wp_mono _ _ _ _ _ _ (default_GrowUntil_reaches growing_manager [] 0
    growing_manager_inv eq_refl (Z.le_refl 0)) _ (fun _ _ H => H)).
  intros b s' (HI & _ & Hb). split; [|done]. destruct b; [|done]. exfalso.
  destruct (DefaultCacheFrameManager.inv_counts _ _ HI) as (_ & _ & ?).
  unfold DefaultCacheFrameManager.grow_target, SIZE_MAX in Hb. simpl in Hb. lia.
Defined.
