(* ===== verification/FrameConcurrency.v ===== *)
(** [ConcurrentCacheFrameManager] under interleaving: threads that allocate and
    free frames through the lock-free queue and the separate atomic counter
    (src/csrc/runtime/cache/frame_manager.cpp), one step per atomic access.
    The queue is a bag, and a dequeue may fail while another thread's enqueue
    is in flight, as its documentation says. *)
From stdpp Require Import base list gmap strings fin_maps.
From S2P Require Import Prelude FrameManager.

(** What a thread has still to do in the call it is in. *)
Inductive pending :=
  | Idle
  | PendingSub (k : nat)               (* dequeued [k] frames, fetch_sub to come *)
  | PendingAdd (k : nat)               (* enqueued [k] frames, fetch_add to come *)
  | PendingBack (fs : list CacheFrame) (* short bulk dequeue, to be moved back *)
  .

Record thread := mkThread { held : list CacheFrame; pend : pending }.

Record config := mkConfig {
  queue : list CacheFrame;
  free_frame_count : Z;
  threads : list thread;
}.

(** One atomic access of thread [i].  [AllocFrame] is the bulk call with
    [n = 1]: a short dequeue of nothing returns null at once.  Enqueueing always
    succeeds here; when it runs out of memory the code throws (and the frames of
    the call are lost), which FrameManager models for a single thread. *)
Inductive step : config -> config -> Prop :=
  | step_dequeue q q' c ts i h fs n :
      (* try_dequeue / try_dequeue_bulk: [fs] is what came out *)
      ts !! i = Some (mkThread h Idle) ->
      Permutation q (fs ++ q') -> length fs = n -> (0 < n)%nat ->
      step (mkConfig q c ts) (mkConfig q' c (<[i := mkThread (fs ++ h) (PendingSub n)]> ts))
  | step_dequeue_short q q' c ts i h fs n :
      (* fewer than asked for: none is kept *)
      ts !! i = Some (mkThread h Idle) ->
      Permutation q (fs ++ q') -> (length fs < n)%nat ->
      step (mkConfig q c ts) (mkConfig q' c (<[i := mkThread h (PendingBack fs)]> ts))
  | step_enqueue_back q q' c ts i h fs :
      ts !! i = Some (mkThread h (PendingBack fs)) ->
      Permutation q' (fs ++ q) ->
      step (mkConfig q c ts) (mkConfig q' c (<[i := mkThread h Idle]> ts))
  | step_fetch_sub q c ts i h k :
      ts !! i = Some (mkThread h (PendingSub k)) ->
      step (mkConfig q c ts)
           (mkConfig q (c - Z.of_nat k) (<[i := mkThread h Idle]> ts))
  | step_enqueue q q' c ts i h fs h' :
      (* FreeFrame of frames the thread holds *)
      ts !! i = Some (mkThread h Idle) ->
      Permutation h (fs ++ h') -> Permutation q' (fs ++ q) ->
      step (mkConfig q c ts)
           (mkConfig q' c (<[i := mkThread h' (PendingAdd (length fs))]> ts))
  | step_fetch_add q c ts i h k :
      ts !! i = Some (mkThread h (PendingAdd k)) ->
      step (mkConfig q c ts)
           (mkConfig q (c + Z.of_nat k) (<[i := mkThread h Idle]> ts)).

(** After [Init]: the frames are queued, counted, and every thread is idle. *)
Definition initial (frames : list CacheFrame) (n : nat) : config :=
  mkConfig frames (Z.of_nat (length frames)) (replicate n (mkThread [] Idle)).

(** [CountFreeFrame] as a thread reads it. *)
Definition CountFreeFrame (c : config) : Z := u64 (free_frame_count c).

(** ** The invariant *)
Definition thread_frames (t : thread) : list CacheFrame :=
  match pend t with PendingBack fs => fs ++ held t | _ => held t end.

(** What the counter lags behind the queue, by one thread. *)
Definition lag (t : thread) : Z :=
  match pend t with
  | Idle => 0
  | PendingSub k => Z.of_nat k
  | PendingAdd k => - Z.of_nat k
  | PendingBack fs => Z.of_nat (length fs)
  end.

Definition sum_Z (l : list Z) : Z := foldr Z.add 0 l.

Definition cinv (frames : list CacheFrame) (c : config) : Prop :=
  Permutation (queue c ++ (threads c ≫= thread_frames)) frames /\
  free_frame_count c = Z.of_nat (length (queue c)) + sum_Z (lag <$> threads c).

#[export] Instance sum_Z_proper : Proper (Permutation ==> eq) sum_Z.
Proof. intros l l'. induction 1; simpl in *; lia. Qed.

(** Replacing one thread: all sums over the threads change by that thread. *)
Lemma thread_update (ts : list thread) i t t' :
  ts !! i = Some t ->
  exists rest, Permutation ts (t :: rest) /\ Permutation (<[i := t']> ts) (t' :: rest).
Proof.
  intros Hi. exists (delete i ts). split; [by apply delete_Permutation|].
  assert (<[i := t']> ts !! i = Some t') as Hi'.
  { apply list_lookup_insert_eq. by eapply lookup_lt_Some. }
  rewrite (delete_Permutation _ _ _ Hi'). f_equiv.
  rewrite !delete_take_drop, take_insert_ge, drop_insert_lt by lia. done.
Qed.

Lemma cinv_update frames q c ts q' c' i t t' :
  cinv frames (mkConfig q c ts) -> ts !! i = Some t ->
  Permutation (q' ++ thread_frames t') (q ++ thread_frames t) ->
  c' - Z.of_nat (length q') - lag t' = c - Z.of_nat (length q) - lag t ->
  cinv frames (mkConfig q' c' (<[i := t']> ts)).
Proof.
  intros [Hp Hc] Hi Hf Hl. destruct (thread_update ts i t t' Hi) as (rest & H1 & H2).
  unfold cinv in *. simpl in *. rewrite H1 in Hp, Hc. rewrite H2. simpl in *. split.
  - rewrite <- Hp, !app_assoc. by rewrite Hf.
  - lia.
Qed.

Lemma step_cinv frames c c' : cinv frames c -> step c c' -> cinv frames c'.
Proof.
  intros HI Hs. destruct Hs as
    [q q' c ts i h fs n Hi Hq Hn Hpos|q q' c ts i h fs n Hi Hq Hn|q q' c ts i h fs Hi Hq
    |q c ts i h k Hi|q q' c ts i h fs h' Hi Hh Hq|q c ts i h k Hi];
    (eapply cinv_update; [exact HI|exact Hi| |]); unfold thread_frames, lag; simpl; auto; try lia;
    try (apply Permutation_length in Hq as Hl; rewrite length_app in Hl; lia).
  - rewrite Hq, !app_assoc. by rewrite (Permutation_app_comm fs q').
  - rewrite Hq, !app_assoc. by rewrite (Permutation_app_comm fs q').
  - rewrite Hq, !app_assoc. by rewrite (Permutation_app_comm fs q).
  - rewrite Hq, Hh, !app_assoc. by rewrite (Permutation_app_comm fs q).
Qed.

Lemma initial_cinv frames n : cinv frames (initial frames n).
Proof.
  unfold cinv, initial. simpl. split.
  - replace (_ ≫= _) with (@nil CacheFrame); [by rewrite app_nil_r|].
    induction n; simpl; auto.
  - replace (sum_Z _) with 0; [lia|]. induction n; simpl; auto.
Qed.

Lemma reachable_cinv frames n c : rtc step (initial frames n) c -> cinv frames c.
Proof.
  intros Hr. pose proof (initial_cinv frames n) as HI. revert HI.
  induction Hr as [|c1 c2 c3 Hs _ IH]; [done|]. intros HI. apply IH. by eapply step_cinv.
Qed.

(** * Properties *)

(** C30. However the calls of any number of threads interleave, a frame is in
    at most one place: the queue, the hands of one thread, or a short batch on
    its way back.  No frame is lost either, and when every thread is between
    calls the counter is exactly the length of the queue. *)
Theorem concurrent_frames_exclusive frames n c :
  NoDup (Data <$> frames) -> rtc step (initial frames n) c ->
  NoDup (Data <$> queue c ++ (threads c ≫= thread_frames)) /\
  Permutation (queue c ++ (threads c ≫= thread_frames)) frames /\
  (Forall (fun t => pend t = Idle) (threads c) ->
     free_frame_count c = Z.of_nat (length (queue c))).
Proof.
  intros Hnd Hr. destruct (reachable_cinv _ _ _ Hr) as [Hp Hc].
  split; [by rewrite Hp|]. split; [done|]. intros Hidle. rewrite Hc.
  enough (sum_Z (lag <$> threads c) = 0) by lia.
  clear -Hidle. induction Hidle as [|t ts Ht _ IH]; [done|].
  rewrite fmap_cons. simpl. rewrite IH. unfold lag. by rewrite Ht.
Qed.

Definition frame0 : CacheFrame := mkFrame 4096 64 CUDA.

(** Thread 0 takes the only frame and puts it back; before it counts the
    frame, thread 1 takes it and counts itself. *)
Lemma overtaking_trace :
  rtc step (initial [frame0] 2)
    (mkConfig [] (-1) [mkThread [] (PendingAdd 1); mkThread [frame0] Idle]).
Proof.
  eapply rtc_l; [by apply (step_dequeue _ [] _ _ 0%nat [] [frame0] 1%nat); [| |done|lia]|].
  eapply rtc_l; [by apply (step_fetch_sub _ _ _ 0%nat [frame0] 1%nat)|].
  eapply rtc_l; [by apply (step_enqueue _ [frame0] _ _ 0%nat [frame0] [frame0] [])|].
  eapply rtc_l; [by apply (step_dequeue _ [] _ _ 1%nat [] [frame0] 1%nat); [| |done|lia]|].
  apply rtc_once. exact (step_fetch_sub [] 0
    [mkThread [] (PendingAdd 1); mkThread [frame0] (PendingSub 1)] 1%nat [frame0] 1%nat eq_refl).
Qed.

Lemma concurrent_frames_exclusive_witness :
  NoDup (Data <$> [frame0]) /\
  Permutation ([] ++ ([mkThread [] (PendingAdd 1); mkThread [frame0] Idle] ≫= thread_frames))
    [frame0].
Proof.
  assert (NoDup (Data <$> [frame0])) as Hnd by apply NoDup_singleton.
  split; [done|].
  exact (proj1 (proj2 (concurrent_frames_exclusive [frame0] 2 _ Hnd overtaking_trace))).
Defined.

(** The enqueue of [FreeFrame] becomes visible before its [fetch_add], so
    another thread can take and count the frame first: with one frame and two
    threads the int64 counter reaches -1 and [CountFreeFrame] reports 2^64-1
    free frames. *)
Theorem CountFreeFrame_can_wrap :
  exists c, rtc step (initial [frame0] 2) c /\ CountFreeFrame c = 2 ^ 64 - 1.
Proof. eexists. split; [apply overtaking_trace|reflexivity]. Qed.
