(* ===== verification/SpanManager.v ===== *)
(** Cache spans and the two span managers
    (src/csrc/runtime/cache/span_manager.h and span_manager.cpp).  Spans are
    shared, mutable objects (the prefix cache marks them with an extra
    reference), so they live in a heap and are named by an id.  Both managers
    are written against the [FrameManager] interface and are instances of the
    interface [SpanManager] that the virtual cache uses. *)
From stdpp Require Import base list gmap strings fin_maps.
From S2P Require Import Prelude FrameManager.

(** [CacheSpanImpl]: a frame pointer, a tag and the extra-reference mark. *)
Record CacheSpan := mkSpan {
  Frame : option CacheFrame;
  Tag : string;
  has_extra_ref_ : bool;
}.

(** A [CacheSpan::Ptr]: an object of the heap or null. *)
Abbreviation span_ptr := (option Z).

(** * The interface *)
Class SpanManager (S : Type) := {
  sm_Inited : S -> bool;
  sm_Init : Z -> M S unit;
  sm_GetSpan : string -> bool -> M S span_ptr;
  sm_ClaimSpan : list span_ptr -> string -> Z -> M S (list span_ptr * Z);
  sm_ReleaseSpanTag : string -> M S unit;
  sm_ReleaseSpan : span_ptr -> M S unit;
  sm_ReleaseSpans : list span_ptr -> Z -> M S unit;
  sm_span : S -> Z -> option CacheSpan;
  (** [RefCacheSpan] (true) and [UnrefCacheSpan] (false) on a span. *)
  sm_SetExtraRef : bool -> span_ptr -> M S unit;
  sm_GetSpanSize : S -> Z;
  (** The counters of the frame manager behind it. *)
  sm_CountFrame : S -> Z;
  sm_CountFreeFrame : S -> Z;
}.

(** [span->Data()] through null pointers is undefined: [None]. *)
Definition span_Data {S} `{SpanManager S} (st : S) (p : span_ptr) : option Z :=
  id ← p; sp ← sm_span st id; f ← Frame sp; Some (Data f).
Arguments span_Data : simpl never.

(** [span->HasExtraRef()] *)
Definition HasExtraRef {S} `{SpanManager S} (st : S) (id : Z) : bool :=
  match sm_span st id with Some sp => has_extra_ref_ sp | None => false end.

(** [sm_inv st live]: the spans of [live] are distinct objects on distinct
    frames, and they hold all frames that are handed out. *)
Class SpanManagerLaws (S : Type) `{SpanManager S} := {
  sm_inv : S -> list Z -> Prop;
  sm_inv_perm st live live' : sm_inv st live -> Permutation live live' -> sm_inv st live';
  sm_inv_nodup st live : sm_inv st live -> NoDup live;
  sm_inv_data st live :
    sm_inv st live -> exists ptrs, span_Data st <$> (Some <$> live) = Some <$> ptrs /\ NoDup ptrs;
  sm_ClaimSpan_spec st live vec tag n :
    sm_inv st live -> 0 <= n <= Z.of_nat (length vec) ->
    wp (sm_ClaimSpan vec tag n)
       (fun '(vec', k) st' =>
          (forall id, id ∈ live -> sm_span st' id = sm_span st id) /\
          ((k = 0 /\ sm_inv st' live) \/
           (k = n /\ exists ids, take (Z.to_nat n) vec' = Some <$> ids /\
              Z.of_nat (length ids) = n /\ (length vec' <= length vec)%nat /\
              Forall (fun id => exists sp, sm_span st' id = Some sp /\
                                  has_extra_ref_ sp = false) ids /\
              sm_inv st' (ids ++ live))))
       (fun e _ => safe_exn e) st;
  (** Spans with an extra reference stay live. *)
  sm_ReleaseSpans_spec st live ids :
    sm_inv st (ids ++ live) ->
    wp (sm_ReleaseSpans (Some <$> ids) (Z.of_nat (length ids)))
       (fun _ st' => (forall id, sm_span st' id = sm_span st id) /\
          sm_inv st' (filter (fun id => HasExtraRef st id) ids ++ live))
       (fun e _ => safe_exn e) st;
  sm_ReleaseSpan_spec st live id :
    sm_inv st (id :: live) -> HasExtraRef st id = false ->
    wp (sm_ReleaseSpan (Some id))
       (fun _ st' => (forall j, sm_span st' j = sm_span st j) /\ sm_inv st' live /\
          sm_CountFreeFrame st' = sm_CountFreeFrame st + 1)
       (fun e _ => not_taken_back e) st;
  sm_SetExtraRef_spec st live id b :
    sm_inv st live -> id ∈ live ->
    wp (sm_SetExtraRef b (Some id))
       (fun _ st' => sm_inv st' live /\ HasExtraRef st' id = b /\
          sm_CountFreeFrame st' = sm_CountFreeFrame st /\
          (forall j, span_Data st' (Some j) = span_Data st (Some j)) /\
          (forall j, j <> id -> sm_span st' j = sm_span st j))
       (fun _ _ => False) st;
}.

(** * The state shared by both managers *)
Module CacheSpanManager.
Record t (F : Type) := mk {
  frame_manager_ : F;
  span_size_ : Z;
  initialized_ : bool;
  spans_ : gmap string Z;
  heap : gmap Z CacheSpan;
  next_id : Z;
}.
Arguments mk {F}.
Arguments frame_manager_ {F}.
Arguments span_size_ {F}.
Arguments initialized_ {F}.
Arguments spans_ {F}.
Arguments heap {F}.
Arguments next_id {F}.

Section ops.
Context {F : Type} `{HF : FrameManager F}.
Implicit Types (s : t F).

Definition new (fm : F) : t F := mk fm 0 false ∅ ∅ 1.

Definition set_fm (fm : F) s : t F :=
  mk fm (span_size_ s) (initialized_ s) (spans_ s) (heap s) (next_id s).
Definition set_spans (m : gmap string Z) s : t F :=
  mk (frame_manager_ s) (span_size_ s) (initialized_ s) m (heap s) (next_id s).
Definition set_inited (size : Z) s : t F :=
  mk (frame_manager_ s) size true (spans_ s) (heap s) (next_id s).

(** A call of the frame manager. *)
Definition on_frames {A} (m : M F A) : M (t F) A := zoom frame_manager_ set_fm m.

(** [CacheSpan::Create] *)
Definition Create (frame : option CacheFrame) (tag : string) : M (t F) Z := fun s =>
  (Ok (next_id s),
   mk (frame_manager_ s) (span_size_ s) (initialized_ s) (spans_ s)
      (<[next_id s := mkSpan frame tag false]> (heap s)) (next_id s + 1)).

(** Reading a member through a span pointer. *)
Definition deref (p : span_ptr) : M (t F) CacheSpan := fun s =>
  match p ≫= fun id => heap s !! id with
  | Some sp => (Ok sp, s)
  | None => (Err UB, s)
  end.

(** [RefCacheSpan] and [UnrefCacheSpan] *)
Definition set_extra_ref (b : bool) (p : span_ptr) : M (t F) unit :=
  sp ← deref p;
  match p with
  | Some id => modify (fun s =>
      mk (frame_manager_ s) (span_size_ s) (initialized_ s) (spans_ s)
         (<[id := mkSpan (Frame sp) (Tag sp) b]> (heap s)) (next_id s))
  | None => throw UB
  end.
Definition RefCacheSpan := set_extra_ref true.
Definition UnrefCacheSpan := set_extra_ref false.

(** [Init] is the same in both managers. *)
Definition Init (span_size : Z) : M (t F) unit :=
  inited ← gets initialized_;
  if inited : bool then mret tt
  else if span_size <=? 0 then AS_THROW ALLSPARK_PARAM_ERROR
  else
    fm_inited ← gets (fun s => fm_Inited (frame_manager_ s));
    when (negb fm_inited) (on_frames (fm_Init span_size));;
    frame_size ← gets (fun s => fm_GetFrameSize (frame_manager_ s));
    if negb (span_size =? frame_size) then AS_THROW ALLSPARK_PARAM_ERROR
    else modify (set_inited span_size).

(** [ReleaseSpan(span_vec, count)] is the same loop in both managers. *)
Definition ReleaseSpans (release : span_ptr -> M (t F) unit)
    (span_vec : list span_ptr) (count : Z) : M (t F) unit :=
  for_each (take (Z.to_nat count) span_vec) release;;
  if count <=? Z.of_nat (length span_vec) then mret tt else throw UB.
End ops.
End CacheSpanManager.
Import CacheSpanManager.

(** * [DefaultCacheSpanManager] *)
Module DefaultCacheSpanManager.
Section ops.
Context {F : Type} `{HF : FrameManager F}.

Definition GetSpan (tag : string) (do_alloc : bool) : M (t F) span_ptr :=
  found ← gets (fun s => if do_alloc then None else spans_ s !! tag);
  match found with
  | Some sp => mret (Some sp)
  | None =>
      frame ← on_frames fm_AllocFrame;
      match frame with
      | None => mret None
      | Some f =>
          span ← Create (Some f) tag;
          modify (fun s => set_spans (<[tag := span]> (spans_ s)) s);;
          mret (Some span)
      end
  end.

(** The claiming loop: the spans made so far, and whether all were made. *)
Fixpoint claim (tag : string) (count : nat) : M (t F) (list span_ptr * bool) :=
  match count with
  | O => mret ([], true)
  | Datatypes.S n =>
      span ← GetSpan tag true;
      match span with
      | None => mret ([], false)
      | Some _ => '(rest, full) ← claim tag n; mret (span :: rest, full)
      end
  end.

Definition ClaimSpan (out_vec : list span_ptr) (tag : string) (count : Z)
    : M (t F) (list span_ptr * Z) :=
  '(new_spans, full) ← claim tag (Z.to_nat count);
  if full : bool then mret (new_spans, count)
  else
    for_each new_spans (fun span =>
      sp ← deref span; on_frames (fm_FreeFrame (Frame sp)));;
    mret (out_vec, 0).

Definition ReleaseSpanTag (tag : string) : M (t F) unit :=
  found ← gets (fun s => spans_ s !! tag);
  match found with
  | None => mret tt
  | Some id =>
      sp ← deref (Some id);
      if has_extra_ref_ sp then mret tt
      else
        modify (fun s => set_spans (delete tag (spans_ s)) s);;
        on_frames (fm_FreeFrame (Frame sp))
  end.

Definition ReleaseSpan (span : span_ptr) : M (t F) unit :=
  sp ← deref span;
  if has_extra_ref_ sp then mret tt
  else
    modify (fun s => set_spans (delete (Tag sp) (spans_ s)) s);;
    on_frames (fm_FreeFrame (Frame sp)).

Definition ReleaseSpans := ReleaseSpans ReleaseSpan.
End ops.
End DefaultCacheSpanManager.

(** * [ConcurrentCacheSpanManager] *)
Module ConcurrentCacheSpanManager.
Section ops.
Context {F : Type} `{HF : FrameManager F}.

Definition GetSpan (tag : string) (do_alloc : bool) : M (t F) span_ptr :=
  frame ← on_frames fm_AllocFrame;
  match frame with
  | None => mret None
  | Some f => span ← Create (Some f) tag; mret (Some span)
  end.

(** The body of [Init] is the default manager's. *)
Definition Init (span_size : Z) : M (t F) unit := Init span_size.

(** [std::transform(new_frames, out_vec.begin(), CacheSpan::Create)] *)
Fixpoint create_all (frames : frame_vec) : M (t F) (list span_ptr) :=
  match frames with
  | [] => mret []
  | f :: rest =>
      span ← Create f ""; spans ← create_all rest; mret (Some span :: spans)
  end.

(** All or none; a transform past the end of [out_vec] is undefined. *)
Definition ClaimSpan (out_vec : list span_ptr) (tag : string) (count : Z)
    : M (t F) (list span_ptr * Z) :=
  '(new_frames, claimed) ←
    on_frames (fm_AllocFrames (replicate (Z.to_nat count) None) count);
  if claimed <? count then
    when (0 <? claimed) (on_frames (fm_FreeFrames new_frames claimed);; mret tt);;
    mret (out_vec, 0)
  else if Z.of_nat (length out_vec) <? count then throw UB
  else
    spans ← create_all new_frames;
    mret (spans ++ drop (length spans) out_vec, count).

Definition ReleaseSpanTag (tag : string) : M (t F) unit :=
  AS_THROW ALLSPARK_UNKNOWN_ERROR.

Definition ReleaseSpan (span : span_ptr) : M (t F) unit :=
  sp ← deref span;
  if has_extra_ref_ sp then mret tt
  else on_frames (fm_FreeFrame (Frame sp)).

Definition ReleaseSpans := ReleaseSpans ReleaseSpan.
End ops.
End ConcurrentCacheSpanManager.

(** * The invariant and the steps both managers share *)
Section inv.
Context {F : Type} `{HFL : FrameManagerLaws F}.
Implicit Types (s : t F) (live : list Z).

Definition frame_of s (id : Z) : option CacheFrame := heap s !! id ≫= Frame.

(** The frames handed out are those of the live spans, one each. *)
Definition inv s live : Prop :=
  NoDup live /\
  fm_Inited (frame_manager_ s) = true /\
  (exists frames, frame_of s <$> live = Some <$> frames /\
     fm_inv (frame_manager_ s) frames) /\
  map_Forall (fun id _ => id < next_id s) (heap s).

Lemma inv_perm s live live' : inv s live -> Permutation live live' -> inv s live'.
Proof.
  intros (Hnd & Hin & (frames & Hf & HI) & Hlt) Hp.
  split_and!; auto; [by rewrite <- Hp|].
  pose proof (fmap_Permutation (frame_of s) _ _ Hp) as Hp'. rewrite Hf in Hp'.
  destruct (Permutation_map_inv Some frames (symmetry Hp')) as (frames' & Hf' & Hp'').
  exists frames'. split; [done|]. by eapply fm_inv_perm.
Qed.

Lemma inv_lookup s live id :
  inv s live -> id ∈ live -> exists sp f, heap s !! id = Some sp /\ Frame sp = Some f.
Proof.
  intros (_ & _ & (frames & Hf & _) & _) Hid.
  assert (frame_of s id ∈ frame_of s <$> live) as H1 by by apply list_elem_of_fmap_2.
  rewrite Hf in H1. apply list_elem_of_fmap in H1 as (f & Hfr & _).
  unfold frame_of in Hfr. destruct (heap s !! id) as [sp|]; [|done]. eauto.
Qed.

Lemma inv_fresh s live : inv s live -> heap s !! next_id s = None /\ (next_id s ∉ live).
Proof.
  intros HI. assert (heap s !! next_id s = None) as Hn.
  { destruct HI as (_ & _ & _ & Hlt). destruct (_ !! next_id s) as [x|] eqn:E; [|done].
    apply Hlt in E. lia. }
  split; [done|]. intros Hin. destruct (inv_lookup _ _ _ HI Hin) as (? & ? & ? & _).
  congruence.
Qed.

(** A span made on a frame just handed out. *)
Lemma inv_create s live tag f fm frames :
  inv s live -> frame_of s <$> live = Some <$> frames ->
  fm_inv fm (f :: frames) -> fm_Inited fm = true ->
  wp (Create (Some f) tag)
     (fun id s' => inv s' (id :: live) /\ heap s' !! id = Some (mkSpan (Some f) tag false) /\
        id = next_id s /\ heap s ⊆ heap s' /\ spans_ s' = spans_ s /\
        frame_manager_ s' = fm)
     (fun _ _ => False) (set_fm fm s).
Proof.
  intros HI Hf Hfm Hin. destruct (inv_fresh _ _ HI) as [Hnone Hnot].
  destruct HI as (Hnd & _ & _ & Hlt). unfold wp, Create. simpl.
  assert (heap s ⊆ <[next_id s:=mkSpan (Some f) tag false]> (heap s)) as Hsub
    by by apply insert_subseteq.
  split; [|split_and!; auto; apply lookup_insert_eq].
  split_and!; simpl.
  - by apply NoDup_cons.
  - done.
  - exists (f :: frames). split; [|done]. simpl.
    unfold frame_of at 1. simpl. rewrite lookup_insert_eq. simpl. f_equal.
    etrans; [|exact Hf]. apply list_fmap_ext. intros i id Hid.
    apply list_elem_of_lookup_2 in Hid.
    unfold frame_of. simpl. rewrite lookup_insert_ne; [done|]. by intros <-.
  - apply map_Forall_insert_2; [lia|]. eapply map_Forall_impl; [exact Hlt|].
    intros i x Hi. simpl in *. lia.
Qed.

(** A span whose frame was given back leaves the live list. *)
Lemma inv_release s id live fm frames :
  inv s (id :: live) -> frame_of s <$> live = Some <$> frames ->
  fm_inv fm frames -> fm_Inited fm = true -> inv (set_fm fm s) live.
Proof.
  intros (Hnd & _ & _ & Hlt) Hf Hfm Hin. apply NoDup_cons in Hnd as [_ Hnd].
  split_and!; auto. by exists frames.
Qed.

Lemma inv_frames s id live :
  inv s (id :: live) ->
  exists sp f frames, heap s !! id = Some sp /\ Frame sp = Some f /\
    frame_of s <$> live = Some <$> frames /\ fm_inv (frame_manager_ s) (f :: frames).
Proof.
  intros HI. destruct (inv_lookup _ _ id HI ltac:(left)) as (sp & f & Hsp & Hfr).
  destruct HI as (_ & _ & (frames & Hf & HI) & _).
  simpl in Hf. unfold frame_of in Hf at 1. rewrite Hsp in Hf. simpl in Hf.
  rewrite Hfr in Hf. destruct frames as [|f' frames]; simplify_eq/=. eauto 10.
Qed.

(** One frame went back to the frame manager. *)
Definition one_more_free s s' : Prop :=
  fm_CountFreeFrame (frame_manager_ s') = fm_CountFreeFrame (frame_manager_ s) + 1.

(** [frame_manager_->FreeFrame(span->Frame())] for a live span. *)
Lemma free_frame_spec s id live sp :
  inv s (id :: live) -> heap s !! id = Some sp ->
  wp (on_frames (fm_FreeFrame (Frame sp)))
     (fun _ s' => inv s' live /\ heap s' = heap s /\ spans_ s' = spans_ s /\
        one_more_free s s')
     (fun e _ => not_taken_back e) s.
Proof.
  intros HI Hsp. destruct (inv_frames _ _ _ HI) as (sp' & f & frames & Hsp' & Hfr & Hf & Hfm).
  simplify_eq. rewrite Hfr. apply wp_zoom.
  eapply wp_mono; [eapply fm_FreeFrame_spec; [exact Hfm|apply HI]| |done].
  intros _ fm (Hin & _ & HI' & Hp). split; [by eapply inv_release|].
  split_and!; eauto. unfold one_more_free. simpl.
  destruct (fm_counts _ _ Hfm) as (-> & _). destruct (fm_counts _ _ HI') as (-> & _).
  rewrite Hp. simpl. lia.
Qed.

Lemma inv_set_spans s live m : inv s live -> inv (set_spans m s) live.
Proof. done. Qed.

Lemma deref_live s live id :
  inv s live -> id ∈ live ->
  exists sp, heap s !! id = Some sp /\ deref (Some id) s = (Ok sp, s).
Proof.
  intros HI Hid. destruct (inv_lookup _ _ _ HI Hid) as (sp & f & Hsp & _).
  exists sp. split; [done|]. unfold deref. simpl. by rewrite Hsp.
Qed.

(** ** [DefaultCacheSpanManager] *)
Lemma default_GetSpan_alloc_spec s live tag :
  inv s live ->
  wp (DefaultCacheSpanManager.GetSpan tag true)
     (fun r s' => heap s ⊆ heap s' /\
        match r with
        | Some id => inv s' (id :: live) /\ (id ∉ dom (heap s)) /\
            (exists f, heap s' !! id = Some (mkSpan (Some f) tag false)) /\
            spans_ s' = <[tag := id]> (spans_ s)
        | None => inv s' live /\ fm_free (frame_manager_ s') = [] /\ spans_ s' = spans_ s
        end)
     (fun _ _ => False) s.
Proof.
  intros HI. destruct HI as (Hnd & Hin & (frames & Hf & Hfm) & Hlt) eqn:E; clear E.
  unfold DefaultCacheSpanManager.GetSpan. wp_step. wp_step. wp_step. apply wp_zoom.
  eapply wp_mono; [by apply fm_AllocFrame_spec| |done].
  intros [f|] fm (Hin' & _ & Hfm').
  - wp_step. eapply wp_mono; [by eapply inv_create| |done].
    intros id s' (HI' & Hid & -> & Hsub & Hsp & _). wp_step. wp_step. wp_step.
    split; [done|]. split_and!; eauto.
    + rewrite not_elem_of_dom. by apply (inv_fresh s live).
    + simpl. by rewrite Hsp.
  - wp_step. split; [done|]. destruct Hfm' as [Hfm' Hnil].
    split; [|done]. split_and!; eauto.
Qed.

(** New spans on heap objects that did not exist before. *)
Definition fresh_spans s s' (ids : list Z) : Prop :=
  heap s ⊆ heap s' /\
  Forall (fun id => (id ∉ dom (heap s)) /\ exists sp f, heap s' !! id = Some sp /\
            has_extra_ref_ sp = false /\ Frame sp = Some f) ids.

Lemma fresh_spans_trans s1 s2 s3 ids1 ids2 :
  fresh_spans s1 s2 ids1 -> fresh_spans s2 s3 ids2 -> fresh_spans s1 s3 (ids1 ++ ids2).
Proof.
  intros [Hs1 H1] [Hs2 H2]. split; [by etrans|]. apply Forall_app. split.
  - eapply Forall_impl; [exact H1|]. intros id (Hn & sp & f & Hsp & ?).
    split; [done|]. exists sp, f. split; [by eapply lookup_weaken|done].
  - eapply Forall_impl; [exact H2|]. intros id (Hn & ?). split; [|done].
    intros Hd. apply Hn. apply subseteq_dom in Hs1. by apply Hs1.
Qed.

Lemma default_claim_spec s live tag n :
  inv s live ->
  wp (DefaultCacheSpanManager.claim tag n)
     (fun '(l, full) s' => exists ids, l = Some <$> ids /\ fresh_spans s s' ids /\
        inv s' (ids ++ live) /\ (full = true -> length ids = n))
     (fun _ _ => False) s.
Proof.
  revert s live. induction n as [|n IH]; intros s live HI; simpl.
  { apply wp_ret. exists []. split_and!; auto. by split. }
  wp_step. eapply wp_mono; [by apply default_GetSpan_alloc_spec| |done].
  intros [id|] s1 (Hsub & H1).
  - destruct H1 as (HI1 & Hfr & (f & Hid) & _). wp_step.
    eapply wp_mono; [by apply IH| |done].
    intros [l full] s2 (ids & -> & Hfs & HI2 & Hlen). apply wp_ret.
    exists (id :: ids). split_and!; auto.
    + apply (fresh_spans_trans s s1 s2 [id]); [|done].
      split; [done|]. apply Forall_singleton. eauto 10.
    + eapply inv_perm; [exact HI2|]. symmetry. simpl. apply Permutation_middle.
    + intros Hfull. simpl. rewrite Hlen; auto.
  - destruct H1 as (HI1 & _). apply wp_ret. exists [].
    split_and!; auto; [by split|done].
Qed.

(** Giving back the frames of [ids], in order. *)
Lemma free_all_spec s live ids :
  inv s (ids ++ live) ->
  wp (for_each (Some <$> ids) (fun span =>
        sp ← deref span; on_frames (fm_FreeFrame (Frame sp))))
     (fun _ s' => inv s' live /\ heap s' = heap s /\ spans_ s' = spans_ s)
     (fun e _ => safe_exn e) s.
Proof.
  revert s. induction ids as [|id ids IH]; intros s HI; simpl; [by apply wp_ret|].
  destruct (deref_live _ _ id HI ltac:(left)) as (sp & Hsp & Hd).
  apply wp_bind, wp_bind. unfold wp at 1. rewrite Hd.
  eapply wp_mono; [by apply (free_frame_spec s id)| |intros; by apply not_taken_back_safe].
  intros _ s1 (HI1 & Hh & Hs & _). rewrite <- Hh, <- Hs. by apply IH.
Qed.

Lemma default_ClaimSpan_spec s live vec tag n :
  inv s live -> 0 <= n ->
  wp (DefaultCacheSpanManager.ClaimSpan vec tag n)
     (fun '(vec', k) s' => heap s ⊆ heap s' /\
        ((k = 0 /\ vec' = vec /\ inv s' live) \/
         (k = n /\ exists ids, vec' = Some <$> ids /\ Z.of_nat (length ids) = n /\
            fresh_spans s s' ids /\ inv s' (ids ++ live))))
     (fun e _ => safe_exn e) s.
Proof.
  intros HI Hn. unfold DefaultCacheSpanManager.ClaimSpan. wp_step.
  eapply wp_mono; [by apply default_claim_spec| |done].
  intros [l full] s1 (ids & -> & Hfs & HI1 & Hlen). destruct full.
  - wp_step. split; [apply Hfs|]. right. split; [done|]. exists ids.
    split_and!; auto. rewrite Hlen by done. lia.
  - wp_step. eapply wp_mono; [by apply free_all_spec| |done].
    intros _ s2 (HI2 & Hh & _). apply wp_ret. rewrite Hh. split; [apply Hfs|]. by left.
Qed.

(** Releasing a live span, for either manager: [pre] is what is done besides
    freeing the frame. *)
Lemma release_spec s live id (pre : CacheSpan -> t F -> t F) :
  (forall sp s live, inv s live -> inv (pre sp s) live /\ heap (pre sp s) = heap s /\
     frame_manager_ (pre sp s) = frame_manager_ s) ->
  inv s (id :: live) ->
  wp (sp ← deref (Some id);
      if has_extra_ref_ sp then mret tt
      else modify (pre sp);; on_frames (fm_FreeFrame (Frame sp)))
     (fun _ s' => heap s' = heap s /\
        match heap s !! id with
        | Some sp => if has_extra_ref_ sp then s' = s else inv s' live /\ one_more_free s s'
        | None => False
        end)
     (fun e _ => not_taken_back e) s.
Proof.
  intros Hpre HI. destruct (deref_live _ _ id HI ltac:(left)) as (sp & Hsp & Hd).
  apply wp_bind. unfold wp at 1. rewrite Hd, Hsp. destruct (has_extra_ref_ sp) eqn:Hx.
  - by apply wp_ret.
  - wp_step. wp_step. destruct (Hpre sp s _ HI) as (HI' & Hh & Hfm).
    eapply wp_mono; [eapply free_frame_spec; [exact HI'|by rewrite Hh]| |done].
    intros _ s1 (HI1 & Hh1 & _ & H1). unfold one_more_free in *. by rewrite Hh1, Hh, <- Hfm.
Qed.

Lemma default_ReleaseSpan_spec s live id :
  inv s (id :: live) ->
  wp (DefaultCacheSpanManager.ReleaseSpan (Some id))
     (fun _ s' => heap s' = heap s /\
        match heap s !! id with
        | Some sp => if has_extra_ref_ sp then s' = s else inv s' live /\ one_more_free s s'
        | None => False
        end)
     (fun e _ => not_taken_back e) s.
Proof.
  apply (release_spec s live id (fun sp s => set_spans (delete (Tag sp) (spans_ s)) s)).
  intros. split; [by apply inv_set_spans|done].
Qed.

(** ** [ConcurrentCacheSpanManager] *)
Lemma concurrent_ReleaseSpan_spec s live id :
  inv s (id :: live) ->
  wp (ConcurrentCacheSpanManager.ReleaseSpan (Some id))
     (fun _ s' => heap s' = heap s /\
        match heap s !! id with
        | Some sp => if has_extra_ref_ sp then s' = s else inv s' live /\ one_more_free s s'
        | None => False
        end)
     (fun e _ => not_taken_back e) s.
Proof. by apply (release_spec s live id (fun _ s => s)). Qed.

(** Spans made in order on frames handed out together. *)
Lemma create_all_spec s live fs frames :
  NoDup live -> frame_of s <$> live = Some <$> frames ->
  map_Forall (fun id _ => id < next_id s) (heap s) ->
  fm_Inited (frame_manager_ s) = true ->
  fm_inv (frame_manager_ s) (fs ++ frames) ->
  wp (ConcurrentCacheSpanManager.create_all (Some <$> fs))
     (fun l s' => exists ids, l = Some <$> ids /\ length ids = length fs /\
        fresh_spans s s' ids /\ inv s' (ids ++ live))
     (fun _ _ => False) s.
Proof.
  revert s live frames. induction fs as [|f fs IH];
    intros s live frames Hnd Hf Hlt Hin Hfm; simpl.
  { apply wp_ret. exists []. split_and!; auto; [by split|]. split_and!; eauto. }
  wp_step. unfold wp at 1, Create.
  assert (Hnone : heap s !! next_id s = None).
  { destruct (_ !! next_id s) as [x|] eqn:E; [|done]. apply Hlt in E. lia. }
  assert (Hnot : next_id s ∉ live).
  { intros Hid. assert (frame_of s (next_id s) ∈ frame_of s <$> live) as H1
      by by apply list_elem_of_fmap_2.
    rewrite Hf in H1. apply list_elem_of_fmap in H1 as (g & Hg & _).
    unfold frame_of in Hg. by rewrite Hnone in Hg. }
  set (s1 := mk _ _ _ _ _ _).
  assert (Hsub : heap s ⊆ heap s1) by by apply insert_subseteq.
  wp_step. eapply wp_mono; [apply (IH s1 (next_id s :: live) (f :: frames))| |done].
  - by apply NoDup_cons.
  - simpl. unfold frame_of at 1. simpl. rewrite lookup_insert_eq. simpl. f_equal.
    etrans; [|exact Hf]. apply list_fmap_ext. intros i id Hid.
    apply list_elem_of_lookup_2 in Hid.
    unfold frame_of. simpl. rewrite lookup_insert_ne; [done|]. by intros <-.
  - apply map_Forall_insert_2; simpl; [lia|]. eapply map_Forall_impl; [exact Hlt|].
    intros i x Hi. simpl in *. lia.
  - done.
  - eapply fm_inv_perm; [exact Hfm|]. simpl. apply Permutation_middle.
  - intros l s2 (ids & -> & Hlen & Hfs & HI2). wp_step.
    exists (next_id s :: ids). split_and!; auto; [simpl; lia| |].
    + apply (fresh_spans_trans s s1 s2 [next_id s]); [|done]. split; [done|].
      apply Forall_singleton. rewrite not_elem_of_dom. split; [done|].
      exists (mkSpan (Some f) "" false), f. split; [apply lookup_insert_eq|done].
    + eapply inv_perm; [exact HI2|]. symmetry. simpl. apply Permutation_middle.
Qed.

Lemma concurrent_ClaimSpan_spec s live vec tag n :
  inv s live -> 0 <= n <= Z.of_nat (length vec) ->
  wp (ConcurrentCacheSpanManager.ClaimSpan vec tag n)
     (fun '(vec', k) s' => heap s ⊆ heap s' /\
        ((k = 0 /\ vec' = vec /\ inv s' live) \/
         (k = n /\ exists ids, vec' = (Some <$> ids) ++ drop (Z.to_nat n) vec /\
            Z.of_nat (length ids) = n /\
            fresh_spans s s' ids /\ inv s' (ids ++ live))))
     (fun e _ => safe_exn e) s.
Proof.
  intros HI Hn. pose proof HI as (Hnd & Hin & (frames & Hf & Hfm) & Hlt).
  unfold ConcurrentCacheSpanManager.ClaimSpan. wp_step. apply wp_zoom.
  eapply wp_mono; [apply (fm_AllocFrames_spec _ frames); auto|..]; [|simpl|done].
  { rewrite length_replicate. lia. }
  intros [nf claimed] fm (Hin1 & _ & fs & Ht & Hlen & Hc & Hcn & Hfm1).
  rewrite length_replicate in Hlen. destruct (claimed <? n) eqn:E1.
  - wp_step. eapply (wp_mono _ (fun _ s' => inv s' live /\ heap s' = heap s) _
      (fun e _ => safe_exn e)); [|intros u s2 [HI2 Hh]; wp_step; rewrite Hh; split; [done|by left]|done].
    wp_step; [|wp_step; split; [|done]].
    + wp_step. apply wp_zoom. eapply wp_mono; [by eapply fm_FreeFrames_spec| |done].
      intros vec' fm2 (Hin2 & _ & _ & Hfm2). wp_step. split; [|done]. split_and!; eauto.
    + destruct fs; [|simpl in Hc; lia]. split_and!; eauto.
  - destruct (Z.of_nat (length vec) <? n) eqn:E2; [lia|]. wp_step.
    assert (nf = Some <$> fs) as ->.
    { rewrite <- Ht. symmetry. apply take_ge. lia. }
    eapply wp_mono; [by eapply create_all_spec| |done].
    intros l s2 (ids & -> & Hl & Hfs & HI2). wp_step. split; [apply Hfs|]. right.
    split; [done|]. exists ids. rewrite length_fmap.
    replace (Z.to_nat n) with (length ids) by lia. split_and!; auto. lia.
Qed.

Definition extra_ref s (id : Z) : bool :=
  match heap s !! id with Some sp => has_extra_ref_ sp | None => false end.

(** The releasing loop, for either manager's [ReleaseSpan]. *)
Lemma ReleaseSpans_spec (release : span_ptr -> M (t F) unit) s live ids :
  (forall s live id, inv s (id :: live) ->
     wp (release (Some id)) (fun _ s' => heap s' = heap s /\
        match heap s !! id with
        | Some sp => if has_extra_ref_ sp then s' = s else inv s' live /\ one_more_free s s'
        | None => False
        end) (fun e _ => not_taken_back e) s) ->
  inv s (ids ++ live) ->
  wp (ReleaseSpans release (Some <$> ids) (Z.of_nat (length ids)))
     (fun _ s' => heap s' = heap s /\ inv s' (filter (fun id => extra_ref s id) ids ++ live))
     (fun e _ => safe_exn e) s.
Proof.
  intros Hrel HI. unfold ReleaseSpans. rewrite Nat2Z.id, take_ge by (rewrite length_fmap; lia).
  apply wp_bind.
  assert (Hgen : forall ids s live, inv s (ids ++ live) ->
    wp (for_each (Some <$> ids) release)
       (fun _ s' => heap s' = heap s /\ inv s' (filter (fun id => extra_ref s id) ids ++ live))
       (fun e _ => safe_exn e) s).
  { clear s live ids HI. induction ids as [|id ids IH]; intros s live HI; simpl.
    { by apply wp_ret. }
    apply wp_bind. eapply wp_mono; [by apply Hrel| |intros; by apply not_taken_back_safe].
    intros u s1 [Hh H1].
    assert (Hx : forall i, extra_ref s1 i = extra_ref s i) by (intros i; unfold extra_ref; by rewrite Hh).
    assert (Hflt : filter (fun i => extra_ref s1 i) ids = filter (fun i => extra_ref s i) ids).
    { apply list_filter_iff. intros i. by rewrite Hx. }
    rewrite filter_cons. destruct (heap s !! id) as [sp|] eqn:Hsp; [|done].
    assert (Hxe : extra_ref s id = has_extra_ref_ sp) by (unfold extra_ref; by rewrite Hsp).
    destruct (has_extra_ref_ sp).
    - subst s1. rewrite decide_True by (by rewrite Hxe).
      eapply wp_mono; [apply (IH s (id :: live))| |done].
      + eapply inv_perm; [exact HI|]. simpl. apply Permutation_middle.
      + intros u' s2 [Hh2 HI2]. split; [done|]. eapply inv_perm; [exact HI2|].
        simpl. symmetry. apply Permutation_middle.
    - rewrite decide_False by (rewrite Hxe; auto). destruct H1 as [H1 _].
      eapply wp_mono; [by apply IH| |done].
      intros u' s2 [Hh2 HI2]. rewrite Hh2, Hh. split; [done|]. by rewrite <- Hflt. }
  eapply wp_mono; [by apply Hgen| |done].
  intros u s1 H1. rewrite length_fmap.
  destruct (Z.of_nat (length ids) <=? Z.of_nat (length ids)) eqn:E; [|lia]. by apply wp_ret.
Qed.

(** ** Both managers implement the interface *)
Lemma inv_data s live :
  inv s live ->
  exists ptrs, (fun p => id ← p; sp ← heap s !! id; f ← Frame sp; Some (Data f))
                 <$> (Some <$> live) = Some <$> ptrs /\ NoDup ptrs.
Proof.
  intros (_ & _ & (frames & Hf & HI) & _). exists (Data <$> frames). split.
  - rewrite <- !list_fmap_compose.
    transitivity (fmap Data <$> (frame_of s <$> live)).
    + rewrite <- list_fmap_compose. apply list_fmap_ext. intros i id _. simpl.
      unfold frame_of. destruct (heap s !! id) as [sp|]; [|done]. simpl.
      by destruct (Frame sp).
    + rewrite Hf, <- !list_fmap_compose. done.
  - apply fm_inv_nodup in HI. rewrite fmap_app, NoDup_app in HI. apply HI.
Qed.

Lemma live_spans_kept s s' live :
  inv s live -> heap s ⊆ heap s' -> forall id, id ∈ live -> heap s' !! id = heap s !! id.
Proof.
  intros HI Hsub id Hid. destruct (inv_lookup _ _ _ HI Hid) as (sp & f & Hsp & _).
  rewrite Hsp. by eapply lookup_weaken.
Qed.

Definition default_manager : SpanManager (t F) := {|
  sm_Inited := initialized_;
  sm_Init := Init;
  sm_GetSpan := DefaultCacheSpanManager.GetSpan;
  sm_ClaimSpan := DefaultCacheSpanManager.ClaimSpan;
  sm_ReleaseSpanTag := DefaultCacheSpanManager.ReleaseSpanTag;
  sm_ReleaseSpan := DefaultCacheSpanManager.ReleaseSpan;
  sm_ReleaseSpans := DefaultCacheSpanManager.ReleaseSpans;
  sm_span s id := heap s !! id;
  sm_SetExtraRef := set_extra_ref;
  sm_GetSpanSize := span_size_;
  sm_CountFrame s := fm_CountFrame (frame_manager_ s);
  sm_CountFreeFrame s := fm_CountFreeFrame (frame_manager_ s);
|}.

Definition concurrent_manager : SpanManager (t F) := {|
  sm_Inited := initialized_;
  sm_Init := ConcurrentCacheSpanManager.Init;
  sm_GetSpan := ConcurrentCacheSpanManager.GetSpan;
  sm_ClaimSpan := ConcurrentCacheSpanManager.ClaimSpan;
  sm_ReleaseSpanTag := ConcurrentCacheSpanManager.ReleaseSpanTag;
  sm_ReleaseSpan := ConcurrentCacheSpanManager.ReleaseSpan;
  sm_ReleaseSpans := ConcurrentCacheSpanManager.ReleaseSpans;
  sm_span s id := heap s !! id;
  sm_SetExtraRef := set_extra_ref;
  sm_GetSpanSize := span_size_;
  sm_CountFrame s := fm_CountFrame (frame_manager_ s);
  sm_CountFreeFrame s := fm_CountFreeFrame (frame_manager_ s);
|}.

(** A release by either manager, in the form the interface states it. *)
Lemma release_law (release : span_ptr -> M (t F) unit) s live id :
  (forall s live id, inv s (id :: live) ->
     wp (release (Some id)) (fun _ s' => heap s' = heap s /\
        match heap s !! id with
        | Some sp => if has_extra_ref_ sp then s' = s else inv s' live /\ one_more_free s s'
        | None => False
        end) (fun e _ => not_taken_back e) s) ->
  inv s (id :: live) -> extra_ref s id = false ->
  wp (release (Some id))
     (fun _ s' => (forall j, heap s' !! j = heap s !! j) /\ inv s' live /\ one_more_free s s')
     (fun e _ => not_taken_back e) s.
Proof.
  intros Hrel HI Hx. eapply wp_mono; [by apply Hrel| |done].
  intros _ s' [Hh Hr]. split; [by rewrite Hh|]. unfold extra_ref in Hx.
  destruct (heap s !! id) as [sp|]; [by rewrite Hx in Hr|done].
Qed.

(** Marking a live span changes nothing but its mark. *)
Lemma set_extra_ref_law s live id b :
  inv s live -> id ∈ live ->
  wp (set_extra_ref b (Some id))
     (fun _ s' => inv s' live /\ extra_ref s' id = b /\
        fm_CountFreeFrame (frame_manager_ s') = fm_CountFreeFrame (frame_manager_ s) /\
        (forall j, (sp ← heap s' !! j; f ← Frame sp; Some (Data f)) =
                   (sp ← heap s !! j; f ← Frame sp; Some (Data f))) /\
        (forall j, j <> id -> heap s' !! j = heap s !! j)) (fun _ _ => False) s.
Proof.
  intros HI Hid. destruct (deref_live _ _ _ HI Hid) as (sp & Hsp & Hd).
  apply wp_bind. unfold wp at 1. rewrite Hd. apply wp_modify.
  assert (Hfr : forall j, frame_of (mk (frame_manager_ s) (span_size_ s) (initialized_ s)
    (spans_ s) (<[id:=mkSpan (Frame sp) (Tag sp) b]> (heap s)) (next_id s)) j = frame_of s j).
  { intros j. unfold frame_of. simpl. destruct (decide (j = id)) as [->|Hne].
    - by rewrite lookup_insert_eq, Hsp.
    - by rewrite lookup_insert_ne. }
  split_and!.
  - destruct HI as (Hnd & Hin & (frames & Hf & HI) & Hlt). split_and!; [done|done| |].
    + exists frames. split; [|done]. etrans; [|exact Hf].
      apply list_fmap_ext. intros i j _. apply Hfr.
    + simpl. apply map_Forall_insert_2; [|done]. by apply (Hlt id sp).
  - unfold extra_ref. simpl. by rewrite lookup_insert_eq.
  - done.
  - intros j. specialize (Hfr j). unfold frame_of in Hfr. simpl in *.
    destruct (decide (j = id)) as [->|Hne].
    + by rewrite lookup_insert_eq, Hsp.
    + by rewrite lookup_insert_ne.
  - intros j Hj. simpl. by rewrite lookup_insert_ne.
Qed.

Definition default_manager_laws : @SpanManagerLaws (t F) default_manager.
Proof.
  refine (Build_SpanManagerLaws (t F) default_manager inv inv_perm _ _ _ _ _ _).
  - intros s live HI. apply HI.
  - apply inv_data.
  - intros s live vec tag n HI Hn.
    eapply wp_mono; [by apply default_ClaimSpan_spec; [|lia]| |done].
    intros [vec' k] s' (Hsub & Hr). split; [by eapply live_spans_kept|].
    destruct Hr as [(-> & _ & ?)|(-> & ids & -> & Hl & [_ Hfs] & HI')]; [by left|right].
    split; [done|]. exists ids. split_and!; auto.
    + apply take_ge. rewrite length_fmap. lia.
    + rewrite length_fmap. lia.
    + eapply Forall_impl; [exact Hfs|]. intros id (_ & sp & f & ? & ? & _). eauto.
  - intros s live ids HI.
    eapply wp_mono; [by apply ReleaseSpans_spec; [apply default_ReleaseSpan_spec|]| |done].
    intros u s' [Hh Hr]. split; [|done]. intros i. simpl. by rewrite Hh.
  - intros s live id. apply release_law. apply default_ReleaseSpan_spec.
  - apply set_extra_ref_law.
Defined.

Definition concurrent_manager_laws : @SpanManagerLaws (t F) concurrent_manager.
Proof.
  refine (Build_SpanManagerLaws (t F) concurrent_manager inv inv_perm _ _ _ _ _ _).
  - intros s live HI. apply HI.
  - apply inv_data.
  - intros s live vec tag n HI Hn.
    eapply wp_mono; [by apply concurrent_ClaimSpan_spec| |done].
    intros [vec' k] s' (Hsub & Hr). split; [by eapply live_spans_kept|].
    destruct Hr as [(-> & _ & ?)|(-> & ids & -> & Hl & [_ Hfs] & HI')]; [by left|right].
    split; [done|]. exists ids. split_and!; auto.
    + apply take_app_length'. rewrite length_fmap. lia.
    + rewrite length_app, length_fmap, length_drop. lia.
    + eapply Forall_impl; [exact Hfs|]. intros id (_ & sp & f & ? & ? & _). eauto.
  - intros s live ids HI.
    eapply wp_mono; [by apply ReleaseSpans_spec; [apply concurrent_ReleaseSpan_spec|]| |done].
    intros u s' [Hh Hr]. split; [|done]. intros i. simpl. by rewrite Hh.
  - intros s live id. apply release_law. apply concurrent_ReleaseSpan_spec.
  - apply set_extra_ref_law.
Defined.

(** [Init] leaves a manager whose spans have the frame size asked for. *)
Lemma Init_spec s n :
  fm_inv (frame_manager_ s) [] ->
  wp (Init n)
     (fun _ s' => (initialized_ s = true -> s' = s) /\
        (initialized_ s = false ->
           fm_inv (frame_manager_ s') [] /\ fm_Inited (frame_manager_ s') = true /\
           initialized_ s' = true /\ span_size_ s' = n /\
           fm_GetFrameSize (frame_manager_ s') = n /\ 0 < n /\ heap s' = heap s))
     (fun e s' => e = AsException ALLSPARK_PARAM_ERROR /\ initialized_ s' = false) s.
Proof.
  intros HI. unfold Init. wp_step. wp_step. wp_step; [by wp_step|].
  wp_step; [by wp_step|]. wp_step. wp_step. wp_step.
  eapply (wp_mono _ (fun _ s' => initialized_ s' = false /\ heap s' = heap s /\
    fm_inv (frame_manager_ s') [] /\ fm_Inited (frame_manager_ s') = true) _
    (fun e s' => e = AsException ALLSPARK_PARAM_ERROR /\ initialized_ s' = false)); [|simpl|done].
  - wp_step.
    + apply wp_zoom. eapply wp_mono; [by apply fm_Init_spec|simpl|simpl; intuition].
      intros u fm (HI' & Hin' & _). done.
    + wp_step. split_and!; auto. by apply negb_false_iff.
  - intros u s1 (Hi & Hh & HI1 & Hin1). wp_step. wp_step. wp_step; [by wp_step|].
    wp_step. split; [congruence|]. intros _.
    apply negb_false_iff, Z.eqb_eq in Heqb1. split_and!; simpl; auto; lia.
Qed.
End inv.

(** * Properties *)

(** [DefaultCacheSpanManager::ClaimSpan] is all or none for its caller: it
    returns [n] fresh spans on pairwise distinct frames that no live span
    uses, or 0 with the vector untouched, every frame of the attempt given
    back and the live spans still the only holders of frames. *)
Theorem default_ClaimSpan_all_or_none {F} `{FrameManagerLaws F} (s : t F) live vec tag n :
  inv s live -> 0 <= n ->
  wp (DefaultCacheSpanManager.ClaimSpan vec tag n)
     (fun '(vec', k) s' => heap s ⊆ heap s' /\
        ((k = 0 /\ vec' = vec /\ inv s' live) \/
         (k = n /\ exists ids, vec' = Some <$> ids /\ Z.of_nat (length ids) = n /\
            fresh_spans s s' ids /\ inv s' (ids ++ live))))
     (fun e _ => safe_exn e) s.
Proof. apply default_ClaimSpan_spec. Qed.

(** [ConcurrentCacheSpanManager::ClaimSpan] is all or none as well: on
    success the first [n] entries of the vector are fresh spans on distinct
    frames; on failure it returns 0, the vector is untouched and no frame is
    kept, whether the frame manager hands out part of a batch or nothing. *)
Theorem concurrent_ClaimSpan_all_or_none {F} `{FrameManagerLaws F} (s : t F) live vec tag n :
  inv s live -> 0 <= n <= Z.of_nat (length vec) ->
  wp (ConcurrentCacheSpanManager.ClaimSpan vec tag n)
     (fun '(vec', k) s' => heap s ⊆ heap s' /\
        ((k = 0 /\ vec' = vec /\ inv s' live) \/
         (k = n /\ exists ids, vec' = (Some <$> ids) ++ drop (Z.to_nat n) vec /\
            Z.of_nat (length ids) = n /\
            fresh_spans s s' ids /\ inv s' (ids ++ live))))
     (fun e _ => safe_exn e) s.
Proof. apply concurrent_ClaimSpan_spec. Qed.

(** A manager with room for [slots] frames of 64 bytes, for the witnesses. *)
Definition spans_on (slots : nat) : t (DefaultCacheFrameManager.t BumpDevice.t) :=
  new (DefaultCacheFrameManager.set_inited 64
         (DefaultCacheFrameManager.new (BumpDevice.mk ∅ slots) CUDA 0 1)).

Lemma spans_on_inv slots : inv (spans_on slots) [].
Proof.
  split; [constructor|]. split; [done|]. split; [|apply map_Forall_empty].
  exists []. split; [done|]. split; [split; constructor|].
  split; [|split; [apply map_Forall_empty|done]]. simpl. by rewrite map_to_list_empty.
Qed.

Lemma default_ClaimSpan_all_or_none_witness :
  wp (DefaultCacheSpanManager.ClaimSpan [] "a" 2)
     (fun '(vec', k) s' => k = 0 \/ k = 2) (fun e _ => safe_exn e) (spans_on 3).
Proof.
  refine (wp_mono _ _ _ _ _ _ (default_ClaimSpan_all_or_none (spans_on 3) [] [] "a" 2
    (spans_on_inv 3) ltac:(lia)) _ (fun _ _ H => H)).
  intros [v k] s' (_ & [(? & _)|(? & _)]); auto.
Defined.

Lemma concurrent_ClaimSpan_all_or_none_witness :
  wp (ConcurrentCacheSpanManager.ClaimSpan [None; None] "a" 2)
     (fun '(vec', k) s' => k = 0 \/ k = 2) (fun e _ => safe_exn e) (spans_on 3).
Proof.
  refine (wp_mono _ _ _ _ _ _ (concurrent_ClaimSpan_all_or_none (spans_on 3) [] [None; None]
    "a" 2 (spans_on_inv 3) ltac:(simpl; lia)) _ (fun _ _ H => H)).
  intros [v k] s' (_ & [(? & _)|(? & _)]); auto.
Defined.

(** The rollback of [DefaultCacheSpanManager::ClaimSpan] leaves the tag in
    [spans_]: with room for one frame, a claim of two spans under tag "a"
    fails and frees its frame, yet [GetSpan("a", false)] then answers with a
    span on that free frame, and [GetSpan("b", true)] hands the same frame to
    a second span. *)
Theorem default_ClaimSpan_leaves_stale_tag :
  exists a b p s',
    ('(_, k) ← DefaultCacheSpanManager.ClaimSpan [] "a" 2;
     ga ← DefaultCacheSpanManager.GetSpan "a" false;
     gb ← DefaultCacheSpanManager.GetSpan "b" true;
     mret (k, ga, gb)) (spans_on 1) = (Ok (0, Some a, Some b), s') /\
    a <> b /\ frame_of s' a = frame_of s' b /\
    @span_Data _ default_manager s' (Some a) = Some p /\
    @span_Data _ default_manager s' (Some b) = Some p.
Proof. do 4 eexists. split; [vm_compute; reflexivity|]. by vm_compute. Qed.
