(* ===== verification/VirtualCache.v ===== *)
(** The span cache configuration and the virtual KV cache of one request
    (src/csrc/runtime/cache/span_cache_config.cpp, virtual_cache.h and
    virtual_cache.cpp): one [CacheArray] per layer maps sequence positions to
    spans and publishes their data pointers in a table (the TLB) of fixed
    capacity.  Written against the [SpanManager] interface. *)
From stdpp Require Import base list gmap strings fin_maps pretty.
From S2P Require Import Prelude FrameManager SpanManager.

(** * Configuration *)

(** [AsCacheMode] *)
Inductive AsCacheMode := AsCacheDefault | AsCacheQuantI8 | AsCacheQuantU4.

#[export] Instance AsCacheMode_eq_dec : EqDecision AsCacheMode.
Proof. solve_decision. Defined.

Record SpanCacheConfig := mkConfig {
  mode : AsCacheMode;
  span_size : Z;
  span_num_init : Z;
  span_num_grow : Z;
}.

(** The constructor's checks; 0 disables the span cache and skips the rest. *)
Definition SpanCacheConfig_new (mode_ : AsCacheMode) (span_size_ span_num_init_
    span_num_grow_ : Z) : res SpanCacheConfig :=
  let c := mkConfig mode_ span_size_ span_num_init_ span_num_grow_ in
  if span_size_ =? 0 then Ok c
  else if negb ((span_size_ =? 16) || (span_size_ =? 32) || (span_size_ =? 64)
                || (span_size_ =? 128)) then Err (AsException ALLSPARK_PARAM_ERROR)
  else if span_num_init_ <? 0 then Err (AsException ALLSPARK_PARAM_ERROR)
  else if span_num_grow_ <? 0 then Err (AsException ALLSPARK_PARAM_ERROR)
  else Ok c.

(** [SpanCacheConfig::Create]: a null pointer for a configuration refused. *)
Definition SpanCacheConfig_Create (mode_ : AsCacheMode) (span_size_ span_num_init_
    span_num_grow_ : Z) : option SpanCacheConfig :=
  match SpanCacheConfig_new mode_ span_size_ span_num_init_ span_num_grow_ with
  | Ok c => Some c
  | Err _ => None
  end.

(** ** Span sizes *)

(** [DataType] of proto/allspark.proto. *)
Inductive DataType :=
  | DATATYPE_UNDEFINED | FLOAT32 | FLOAT16 | INT8 | INT16 | INT32 | INT64
  | STRING | BOOL | BFLOAT16 | UINT8 | FLOAT8E4M3 | FLOAT8E5M2 | POINTER.

(** [SizeofType] of common/common.h. *)
Definition SizeofType (t : DataType) : Z :=
  match t with
  | POINTER => 8
  | INT64 => 8
  | FLOAT32 | INT32 => 4
  | FLOAT16 | BFLOAT16 | INT16 => 2
  | INT8 | UINT8 => 1
  | DATATYPE_UNDEFINED => 0
  | _ => 1
  end.

(** The product of two ints; overflow is undefined. *)
Definition int_mul (a b : Z) : res Z :=
  if decide (- 2 ^ 31 <= a * b < 2 ^ 31) then Ok (a * b) else Err UB.

Definition res_bind {A B} (r : res A) (f : A -> res B) : res B :=
  match r with Ok a => f a | Err e => Err e end.

(** [CacheUtils::GetSpanSizeInBytes]: int products widened to size_t by the
    factor [SizeofType]; quantised modes add a zero point and a scale. *)
Definition GetSpanSizeInBytes (cfg : SpanCacheConfig) (data_type : DataType)
    (num_heads per_head_size : Z) : res Z :=
  let elements := res_bind (int_mul (span_size cfg) num_heads)
                    (fun x => int_mul x per_head_size) in
  let extra := res_bind (int_mul 2 (span_size cfg))
                 (fun x => res_bind (int_mul x num_heads)
                    (fun y => Ok (u64 (u64 y * SizeofType FLOAT32)))) in
  match mode cfg with
  | AsCacheDefault =>
      res_bind elements (fun n => Ok (u64 (u64 n * SizeofType data_type)))
  | AsCacheQuantI8 =>
      res_bind elements (fun n => res_bind extra (fun x =>
        Ok (u64 (u64 (u64 n * SizeofType INT8) + x))))
  | AsCacheQuantU4 =>
      res_bind elements (fun n => res_bind extra (fun x =>
        Ok (u64 (u64 (u64 n * SizeofType UINT8) / 2 + x))))
  end.

(** The attention kernel's [span::QuantMode]. *)
Inductive QuantMode := NONE | I8 | U4.

Definition toQuantMode (m : AsCacheMode) : QuantMode :=
  match m with
  | AsCacheDefault => NONE
  | AsCacheQuantI8 => I8
  | AsCacheQuantU4 => U4
  end.

(** * [CacheArray]: the spans of one layer *)
Definition uint_div_up (x y : Z) : Z := u64 (x + y - 1) / y.
Definition is_power_of_2 (x : Z) : bool := Z.land x (x - 1) =? 0.

(** [tlb_shape_] is the shape given to the table's tensor and [tlb_] its
    buffer; an entry not yet written is [None]. *)
Record CacheArray := mkArray {
  tag_ : string;
  cache_config_ : SpanCacheConfig;
  layer_id_ : Z;
  cache_ : list span_ptr;
  tlb_shape_ : Z;
  tlb_ : list (option Z);
  seq_length_ : Z;
}.

Definition CacheArray_new (tag : string) (cfg : SpanCacheConfig) (layer_id
    max_num_spans : Z) : CacheArray :=
  mkArray (tag +:+ "_" +:+ pretty layer_id) cfg layer_id [] max_num_spans
    (replicate (Z.to_nat max_num_spans) None) 0.

Definition GetSpanNum (a : CacheArray) : Z := Z.of_nat (length (cache_ a)).

Module CacheArrayOps.
Section ops.
Context {S : Type} `{HS : SpanManager S}.

(** An operation works on the array and on the shared span manager. *)
Abbreviation A := (M (S * CacheArray)).

Definition on_spans {X} (m : M S X) : A X := zoom fst (fun s st => (s, snd st)) m.
Definition set_seq (n : Z) (a : CacheArray) : CacheArray :=
  mkArray (tag_ a) (cache_config_ a) (layer_id_ a) (cache_ a) (tlb_shape_ a) (tlb_ a) n.
Definition SetSeqLength (len : Z) : A unit := modify (fun st => (fst st, set_seq len (snd st))).

(** [newSpan(out_vec, start_index, count)] *)
Definition newSpan (out_vec : list span_ptr) (start_index count : Z)
    : A (list span_ptr * Z) :=
  tag ← gets (fun st => tag_ (snd st));
  on_spans (sm_ClaimSpan out_vec (tag +:+ "_" +:+ "span") count).

Definition destroySpan (span_vec : list span_ptr) (count : Z) : A unit :=
  if count =? 0 then mret tt else on_spans (sm_ReleaseSpans span_vec count).

(** [it->Data()] of every new span; through a null pointer it is undefined. *)
Definition span_pointers (spans : list span_ptr) : A (list Z) := fun st =>
  match mapM (span_Data (fst st)) spans with
  | Some ptrs => (Ok ptrs, st)
  | None => (Err UB, st)
  end.

(** [TensorUtils::DeepCopyFromStdVector] *)
Definition write_tlb (offset : Z) (ptrs : list Z) : A unit := fun '(s, a) =>
  let off := Z.to_nat offset in
  if (off + length ptrs <=? length (tlb_ a))%nat
  then (Ok tt, (s, mkArray (tag_ a) (cache_config_ a) (layer_id_ a) (cache_ a)
          (tlb_shape_ a) (list_inserts off (Some <$> ptrs) (tlb_ a)) (seq_length_ a)))
  else (Err UB, (s, a)).

Definition append_spans (spans : list span_ptr) : A unit := modify (fun '(s, a) =>
  (s, mkArray (tag_ a) (cache_config_ a) (layer_id_ a) (cache_ a ++ spans)
        (tlb_shape_ a) (tlb_ a) (seq_length_ a))).

Definition updateSeqLength (new_seq_length : Z) : A bool :=
  a ← gets snd;
  if new_seq_length =? seq_length_ a then mret true
  else if new_seq_length <? seq_length_ a then AS_THROW ALLSPARK_RUNTIME_ERROR
  else
    let current_spans := GetSpanNum a in
    let size := u64 (span_size (cache_config_ a)) in
    if size =? 0 then throw UB else
    let need_spans := uint_div_up new_seq_length size in
    if u64 (tlb_shape_ a) <? need_spans then AS_THROW ALLSPARK_EXCEED_LIMIT_ERROR
    else if current_spans <? need_spans then
      let count := need_spans - current_spans in
      '(new_spans, num_new_spans) ←
        newSpan (replicate (Z.to_nat count) None) current_spans count;
      if num_new_spans =? count then
        new_ptrs ← span_pointers new_spans;
        write_tlb current_spans new_ptrs;;
        append_spans new_spans;;
        SetSeqLength new_seq_length;;
        mret true
      else
        destroySpan new_spans num_new_spans;;
        mret false
    else
      SetSeqLength new_seq_length;;
      mret true.

(** The int argument becomes a size_t. *)
Definition InitContext (context_length : Z) : A bool := updateSeqLength (u64 context_length).

Definition GetCachePtrVec (increment : Z) : A (list (option Z)) :=
  if increment <? 0 then AS_THROW ALLSPARK_PARAM_ERROR
  else
    (if 0 <? increment then
       seq ← gets (fun st => seq_length_ (snd st));
       ok ← updateSeqLength (u64 (seq + increment));
       if ok : bool then mret tt else AS_THROW ALLSPARK_CACHE_MEMORY_OUT
     else mret tt);;
    gets (fun st => tlb_ (snd st)).

Definition GetCacheSpan (index : Z) : A span_ptr := fun st =>
  if (index <? 0) || (GetSpanNum (snd st) <=? index)
  then (Err (AsException ALLSPARK_PARAM_ERROR), st)
  else match cache_ (snd st) !! Z.to_nat index with
       | Some p => (Ok p, st)
       | None => (Err UB, st)
       end.

(** An exception that leaves a destructor ends the process. *)
Definition destroy : A unit :=
  a ← gets snd;
  try_catch (destroySpan (cache_ a) (GetSpanNum a)) (throw CheckFailed).
End ops.
End CacheArrayOps.
Import CacheArrayOps.

(** * [SpannedVirtualCache]: all layers of one request *)
Module SpannedVirtualCache.
Record t := mk {
  tag_ : string;
  cache_config_ : SpanCacheConfig;
  layer_num_ : Z;
  layer_cache_ : list (option CacheArray);
}.

Definition new (cfg : SpanCacheConfig) (tag : string) (layer_num : Z) : t :=
  mk tag cfg layer_num (replicate (Z.to_nat layer_num) None).

Section ops.
Context {S : Type} `{HS : SpanManager S}.

Abbreviation V := (M (S * t)).

Definition set_layer (i : nat) (l : option CacheArray) (v : t) : t :=
  mk (tag_ v) (cache_config_ v) (layer_num_ v) (<[i := l]> (layer_cache_ v)).

(** A call on a layer's array that is not (yet) in [layer_cache_]. *)
Definition on_array {X} (m : M (S * CacheArray) X) (a : CacheArray)
    : V (X * CacheArray) := fun '(s, v) =>
  match m (s, a) with
  | (Ok x, (s', a')) => (Ok (x, a'), (s', v))
  | (Err e, (s', a')) => (Err e, (s', v))
  end.

(** A call through [layer_cache_[i]]: past the end of the vector or through a
    null pointer it is undefined. *)
Definition on_layer {X} (i : Z) (m : M (S * CacheArray) X) : V X := fun '(s, v) =>
  match if 0 <=? i then layer_cache_ v !! Z.to_nat i else None with
  | Some (Some a) =>
      let '(r, (s', a')) := m (s, a) in (r, (s', set_layer (Z.to_nat i) (Some a') v))
  | _ => (Err UB, (s, v))
  end.

(** [layer_cache_[layer_id] = std::move(layer)] destroys the previous array. *)
Definition store_layer (i : Z) (layer : CacheArray) : V unit := fun '(s, v) =>
  match if 0 <=? i then layer_cache_ v !! Z.to_nat i else None with
  | Some old =>
      let v' := set_layer (Z.to_nat i) (Some layer) v in
      match old with
      | None => (Ok tt, (s, v'))
      | Some a => let '(r, (s', _)) := destroy (s, a) in (r, (s', v'))
      end
  | None => (Err UB, (s, v))
  end.

(** The array under construction is destroyed when [InitContext] fails or
    throws; it then holds no span. *)
Definition InitLayer (layer_id num_heads per_head_size context_len max_num_spans : Z)
    : V AsStatus :=
  if (num_heads <=? 0) || (per_head_size <=? 0) then mret ALLSPARK_PARAM_ERROR
  else
    inited ← gets (fun st => sm_Inited (fst st));
    if negb inited then mret ALLSPARK_RUNTIME_ERROR
    else
      v ← gets snd;
      let layer := CacheArray_new (tag_ v) (cache_config_ v) layer_id max_num_spans in
      '(ok, layer') ← on_array (InitContext context_len) layer;
      if ok : bool then
        store_layer layer_id layer';;
        mret ALLSPARK_SUCCESS
      else
        on_array destroy layer';;
        mret ALLSPARK_MEMORY_ERROR.

Definition GetCache (layer_id increment : Z) : V (list (option Z)) :=
  v ← gets snd;
  if (layer_id <? 0) || (layer_num_ v <=? layer_id) then AS_THROW ALLSPARK_PARAM_ERROR
  else on_layer layer_id (GetCachePtrVec increment).

Definition GetSeqLength (layer_id : Z) : V Z :=
  v ← gets snd;
  if (layer_id <? 0) || (layer_num_ v <=? layer_id) then AS_THROW ALLSPARK_RUNTIME_ERROR
  else on_layer layer_id (gets (fun st => seq_length_ (snd st))).

Definition GetLayerNum : V Z := gets (fun st => layer_num_ (snd st)).

(** One layer of [FillCache]: append the span, set the length, and write the
    table entry through the raw pointer, without a bounds check. *)
Definition fill_layer (current_span_num : Z) (p : span_ptr) : M (S * CacheArray) unit :=
  append_spans [p];;
  cfg ← gets (fun st => VirtualCache.cache_config_ (snd st));
  SetSeqLength (u64 ((current_span_num + 1) * span_size cfg));;
  ptrs ← span_pointers [p];
  write_tlb current_span_num ptrs.

Definition FillCache (cache : list span_ptr) : V unit :=
  n ← on_layer 0 (gets (fun st => GetSpanNum (snd st)));
  v ← gets snd;
  for_each (seqZ 0 (layer_num_ v)) (fun layer_idx =>
    match cache !! Z.to_nat layer_idx with
    | Some p => on_layer layer_idx (fill_layer n p)
    | None => throw UB
    end).
End ops.
End SpannedVirtualCache.

(** * Correctness of the arrays *)
Definition ceil_div (x y : Z) : Z := (x + y - 1) / y.

(** The array holds the spans [ids], enough for its sequence length and no
    more, and the table lists their data pointers in order. *)
Definition array_ok {S} `{SpanManager S} (st : S) (a : CacheArray) (ids : list Z) : Prop :=
  cache_ a = Some <$> ids /\
  0 <= tlb_shape_ a < 2 ^ 63 /\
  length (tlb_ a) = Z.to_nat (tlb_shape_ a) /\
  0 < span_size (cache_config_ a) < 2 ^ 31 /\
  0 <= seq_length_ a <= 2 ^ 64 - span_size (cache_config_ a) /\
  Z.of_nat (length ids) = ceil_div (seq_length_ a) (span_size (cache_config_ a)) /\
  (forall i id, ids !! i = Some id ->
     exists p, tlb_ a !! i = Some (Some p) /\ span_Data st (Some id) = Some p).

Lemma uint_div_up_exact x y :
  0 <= x -> 0 < y -> x <= 2 ^ 64 - y -> uint_div_up x y = ceil_div x y.
Proof. intros. unfold uint_div_up, ceil_div. rewrite u64_small; [done|lia]. Qed.

Lemma ceil_div_mono x x' y : 0 < y -> x <= x' -> ceil_div x y <= ceil_div x' y.
Proof. intros. unfold ceil_div. apply Z.div_le_mono; lia. Qed.

Lemma ceil_div_nonneg x y : 0 < y -> 0 <= x -> 0 <= ceil_div x y.
Proof. intros. unfold ceil_div. apply Z.div_pos; lia. Qed.

Section array.
Context {S : Type} `{HSL : SpanManagerLaws S}.
Implicit Types (s : S) (a : CacheArray).

Lemma span_Data_kept s s' id :
  sm_span s' id = sm_span s id -> span_Data s' (Some id) = span_Data s (Some id).
Proof. intros H'. unfold span_Data. simpl. by rewrite H'. Qed.

Lemma array_ok_kept s s' a ids :
  array_ok s a ids -> (forall id, id ∈ ids -> sm_span s' id = sm_span s id) ->
  array_ok s' a ids.
Proof.
  intros (Hc & Ht & Hl & Hsz & Hs & Hn & Hp) Hk. split_and!; auto; try lia.
  intros i id Hi. destruct (Hp i id Hi) as (p & ? & ?). exists p. split; [done|].
  rewrite (span_Data_kept s); [done|]. apply Hk. by eapply list_elem_of_lookup_2.
Qed.

Lemma span_pointers_live s live ids a :
  sm_inv s live -> ids ⊆ live ->
  exists ptrs, span_pointers (Some <$> ids) (s, a) = (Ok ptrs, (s, a)) /\
    Forall2 (fun id p => span_Data s (Some id) = Some p) ids ptrs.
Proof.
  intros HI Hsub. destruct (sm_inv_data _ _ HI) as (dat & Hd & _).
  assert (Hall : Forall (fun id => is_Some (span_Data s (Some id))) ids).
  { apply Forall_forall. intros id Hid.
    assert (span_Data s (Some id) ∈ Some <$> dat) as Hin.
    { rewrite <- Hd, <- list_fmap_compose. apply (list_elem_of_fmap_2 (span_Data s ∘ Some)).
      by apply Hsub. }
    apply list_elem_of_fmap in Hin as (p & -> & _). by exists p. }
  clear Hsub Hd. unfold span_pointers. simpl.
  assert (exists ptrs, Forall2 (fun id p => span_Data s (Some id) = Some p) ids ptrs)
    as [ptrs Hf].
  { induction Hall as [|id ids [p Hp] _ (ptrs & Hf)]; [by exists []|].
    exists (p :: ptrs). by constructor. }
  exists ptrs. rewrite (mapM_Some_2 _ _ ptrs); [done|]. by apply Forall2_fmap_l.
Qed.

(** Growing the array to [n] tokens. *)
Lemma updateSeqLength_spec s a ids rest n :
  array_ok s a ids -> sm_inv s (ids ++ rest) ->
  0 <= n <= 2 ^ 64 - span_size (cache_config_ a) ->
  wp (updateSeqLength n)
     (fun b '(s', a') =>
        (forall id, id ∈ ids ++ rest -> sm_span s' id = sm_span s id) /\
        seq_length_ a <= n /\
        if b : bool then
          seq_length_ a' = n /\ exists new, array_ok s' a' (ids ++ new) /\
            sm_inv s' (new ++ ids ++ rest) /\
            Forall (fun id => HasExtraRef s' id = false) new
        else a' = a /\ sm_inv s' (ids ++ rest))
     (fun e '(s', a') => a' = a /\ safe_exn e /\
        (n < seq_length_ a -> e = AsException ALLSPARK_RUNTIME_ERROR /\ s' = s) /\
        (seq_length_ a < n -> tlb_shape_ a < ceil_div n (span_size (cache_config_ a)) ->
           e = AsException ALLSPARK_EXCEED_LIMIT_ERROR /\ s' = s))
     (s, a).
Proof.
  intros Hok HI Hn. pose proof Hok as (Hc & Ht & Hl & Hsz & Hs & Hnum & Hp).
  unfold updateSeqLength. wp_step. wp_step. simpl.
  destruct (n =? seq_length_ a) eqn:E0.
  { wp_step. apply Z.eqb_eq in E0. split; [done|]. split; [lia|]. split; [done|].
    exists []. rewrite app_nil_r. auto. }
  destruct (n <? seq_length_ a) eqn:E1.
  { wp_step. split_and!; try done; lia. }
  rewrite (u64_small (span_size _)) by lia.
  destruct (span_size (cache_config_ a) =? 0) eqn:Ez; [lia|].
  rewrite uint_div_up_exact by lia. rewrite (u64_small (tlb_shape_ a)) by lia.
  set (need := ceil_div n (span_size (cache_config_ a))) in *.
  pose proof (ceil_div_mono (seq_length_ a) n (span_size (cache_config_ a))
    ltac:(lia) ltac:(lia)) as Hmono.
  destruct (tlb_shape_ a <? need) eqn:E2.
  { wp_step. split_and!; try done; lia. }
  assert (GetSpanNum a = Z.of_nat (length ids)) as Hg.
  { unfold GetSpanNum. by rewrite Hc, length_fmap. }
  rewrite Hg. destruct (Z.of_nat (length ids) <? need) eqn:E3.
  - set (count := need - Z.of_nat (length ids)).
    wp_step. unfold newSpan. wp_step. wp_step. unfold on_spans. apply wp_zoom.
    eapply wp_mono; [apply (sm_ClaimSpan_spec s (ids ++ rest)); [done|]|..]; simpl.
    { rewrite length_replicate. lia. }
    2:{ intros e s' He. split; [done|]. split; [done|]. split; lia. }
    intros [vec' k] s1 (Hk & [(-> & HI1)|(-> & new & Htake & Hlen & Hle & Hx & HI1)]).
    + destruct (0 =? count) eqn:E4; [lia|].
      wp_step. unfold destroySpan. simpl. wp_step. wp_step.
      split; [done|]. split; [lia|]. done.
    + rewrite Z.eqb_refl. rewrite length_replicate in Hle.
      rewrite take_ge in Htake by done. subst vec'.
      destruct (span_pointers_live s1 (new ++ ids ++ rest) new a HI1) as (ptrs & Hptr & Hf).
      { intros x Hx'. apply elem_of_app. by left. }
      wp_step. unfold wp at 1. rewrite Hptr.
      pose proof (Forall2_length _ _ _ Hf) as Hlp.
      wp_step. unfold wp at 1, write_tlb.
      destruct (_ + _ <=? _)%nat eqn:E5; [|apply Nat.leb_gt in E5; lia].
      unfold append_spans, SetSeqLength. wp_steps.
      split; [done|]. split; [lia|]. split; [done|]. exists new.
      split; [|split; [done|]].
      * rewrite Nat2Z.id. split_and!; simpl; auto; try lia.
        -- by rewrite Hc, fmap_app.
        -- by rewrite length_inserts.
        -- rewrite length_app, Nat2Z.inj_add. lia.
        -- intros i id Hi. apply lookup_app_Some in Hi as [Hi|[Hge Hi]].
           ++ destruct (Hp i id Hi) as (p & Hti & Hd). exists p.
              apply lookup_lt_Some in Hi as Hlt.
              rewrite list_lookup_inserts_lt by done. split; [done|].
              rewrite (span_Data_kept s); [done|]. apply Hk.
              apply elem_of_app. left. by eapply list_elem_of_lookup_2.
           ++ destruct (Forall2_lookup_l _ _ _ _ _ Hf Hi) as (p & Hpi & Hd).
              exists p. split; [|done]. apply lookup_lt_Some in Hpi as Hlt.
              apply Nat.leb_le in E5. rewrite Nat2Z.id in E5.
              rewrite list_lookup_inserts by (rewrite ?length_fmap; lia).
              by rewrite list_lookup_fmap, Hpi.
      * eapply Forall_impl; [exact Hx|]. intros id (sp & Hsp & Hr).
        unfold HasExtraRef. by rewrite Hsp.
  - unfold SetSeqLength. wp_steps. split; [done|]. split; [lia|]. split; [done|].
    exists []. rewrite app_nil_r. split_and!; auto.
    assert (Z.of_nat (length ids) = need) as Hneed by lia.
    split_and!; simpl; auto; lia.
Qed.

Lemma CacheArray_new_ok s tag cfg layer_id max_num_spans :
  0 < span_size cfg < 2 ^ 31 -> 0 <= max_num_spans < 2 ^ 63 ->
  array_ok s (CacheArray_new tag cfg layer_id max_num_spans) [].
Proof.
  intros Hsz Hm. split_and!; simpl; auto; try lia.
  - apply length_replicate.
  - unfold ceil_div. by rewrite Z.div_small by lia.
  - intros i id Hi. done.
Qed.

(** The destructor gives back the spans nothing else refers to. *)
Lemma destroy_spec s a ids rest :
  cache_ a = Some <$> ids -> sm_inv s (ids ++ rest) ->
  wp destroy
     (fun _ '(s', a') => (forall id, sm_span s' id = sm_span s id) /\
        sm_inv s' (filter (fun id => HasExtraRef s id) ids ++ rest))
     (fun e _ => safe_exn e) (s, a).
Proof.
  intros Hc HI. unfold destroy. wp_step. wp_step. simpl.
  unfold GetSpanNum. rewrite Hc, length_fmap.
  assert (Hd : wp (destroySpan (Some <$> ids) (Z.of_nat (length ids)))
     (fun _ '(s', a') => (forall id, sm_span s' id = sm_span s id) /\
        sm_inv s' (filter (fun id => HasExtraRef s id) ids ++ rest))
     (fun e _ => safe_exn e) (s, a)).
  { unfold destroySpan. destruct (_ =? 0) eqn:E.
    - wp_step. split; [done|]. destruct ids; [done|simpl in E; lia].
    - unfold on_spans. apply wp_zoom.
      eapply wp_mono; [by apply sm_ReleaseSpans_spec| |done].
      intros u s' H1. done. }
  unfold wp, try_catch in *. destruct (destroySpan _ _ _) as [[u|e] [s' a']]; [done|].
  destruct e; done.
Qed.

Lemma on_array_spec {X} (m : M (S * CacheArray) X) s v a Q E :
  wp m (fun x '(s', a') => Q (x, a') (s', v)) (fun e '(s', a') => E e (s', v)) (s, a) ->
  wp (SpannedVirtualCache.on_array m a) Q E (s, v).
Proof.
  unfold wp, SpannedVirtualCache.on_array. by destruct (m (s, a)) as [[x|e] [s' a']].
Qed.

Lemma store_layer_spec s v i old old_ids rest layer :
  0 <= i -> SpannedVirtualCache.layer_cache_ v !! Z.to_nat i = Some old ->
  match old with Some b => cache_ b = Some <$> old_ids | None => old_ids = [] end ->
  sm_inv s (old_ids ++ rest) ->
  wp (SpannedVirtualCache.store_layer i layer)
     (fun _ '(s', v') => v' = SpannedVirtualCache.set_layer (Z.to_nat i) (Some layer) v /\
        (forall id, sm_span s' id = sm_span s id) /\
        sm_inv s' (filter (fun id => HasExtraRef s id) old_ids ++ rest))
     (fun e _ => safe_exn e) (s, v).
Proof.
  intros Hi Hl Hold HI. unfold wp, SpannedVirtualCache.store_layer.
  destruct (0 <=? i) eqn:E; [|lia]. rewrite Hl. destruct old as [b|].
  - pose proof (destroy_spec s b old_ids rest Hold HI) as Hd. unfold wp in Hd.
    destruct (destroy (s, b)) as [[u|e] [s' b']]; [|done]. by destruct Hd.
  - subst old_ids. done.
Qed.

Lemma InitLayer_spec s v layer_id num_heads per_head_size context_len max_num_spans
    old old_ids rest :
  let cfg := SpannedVirtualCache.cache_config_ v in
  0 < span_size cfg <= 128 -> 0 <= max_num_spans < 2 ^ 31 -> 0 <= context_len < 2 ^ 31 ->
  0 <= layer_id -> SpannedVirtualCache.layer_cache_ v !! Z.to_nat layer_id = Some old ->
  match old with Some b => cache_ b = Some <$> old_ids | None => old_ids = [] end ->
  sm_inv s (old_ids ++ rest) ->
  wp (SpannedVirtualCache.InitLayer layer_id num_heads per_head_size context_len max_num_spans)
     (fun r '(s', v') =>
        match r with
        | ALLSPARK_PARAM_ERROR =>
            (num_heads <= 0 \/ per_head_size <= 0) /\ s' = s /\ v' = v
        | ALLSPARK_RUNTIME_ERROR => sm_Inited s = false /\ s' = s /\ v' = v
        | ALLSPARK_MEMORY_ERROR => v' = v /\ sm_inv s' (old_ids ++ rest)
        | ALLSPARK_SUCCESS =>
            0 < num_heads /\ 0 < per_head_size /\ exists a ids,
              v' = SpannedVirtualCache.set_layer (Z.to_nat layer_id) (Some a) v /\
              array_ok s' a ids /\ seq_length_ a = context_len /\
              sm_inv s' (filter (fun id => HasExtraRef s id) old_ids ++ ids ++ rest)
        | _ => False
        end)
     (fun e _ => safe_exn e) (s, v).
Proof.
  intros cfg Hsz Hm Hctx Hi Hl Hold HI. unfold SpannedVirtualCache.InitLayer.
  destruct ((num_heads <=? 0) || (per_head_size <=? 0)) eqn:Ep.
  { wp_step. apply orb_true_iff in Ep. split; [lia|done]. }
  apply orb_false_iff in Ep. wp_step. wp_step. simpl.
  destruct (sm_Inited s) eqn:Es; simpl; [|by wp_step]. wp_step. wp_step. simpl.
  wp_step. apply on_array_spec. unfold InitContext. rewrite u64_small by lia.
  eapply wp_mono; [apply (updateSeqLength_spec _ _ [] (old_ids ++ rest))|..].
  - apply CacheArray_new_ok; fold cfg; lia.
  - done.
  - simpl. fold cfg. lia.
  - intros b [s1 a1] (Hk & _ & H1). simpl in Hk. destruct b.
    + destruct H1 as (Hseq & new & Hok & HI1 & Hx). wp_step.
      eapply wp_mono; [apply (store_layer_spec s1 v layer_id old old_ids (new ++ rest)); auto| |done].
      { eapply sm_inv_perm; [exact HI1|]. simpl. apply Permutation_app_swap_app. }
      intros u [s2 v2] (-> & Hk2 & HI2). wp_step. split; [lia|]. split; [lia|].
      exists a1, new. split_and!; auto.
      * by eapply array_ok_kept.
      * assert (filter (fun id => HasExtraRef s1 id) old_ids
              = filter (fun id => HasExtraRef s id) old_ids) as <-; [|done].
        apply list_filter_ext_in. intros id Hid. unfold HasExtraRef.
        by rewrite (Hk id) by (apply elem_of_app; by left).
    + destruct H1 as [-> HI1]. wp_step. apply on_array_spec.
      eapply wp_mono; [apply (destroy_spec s1 _ [] (old_ids ++ rest)); done| |].
      * intros u [s2 a2] (_ & HI2). wp_step. done.
      * by intros e [s2 a2] He.
  - intros e [s1 a1] (_ & He & _). done.
Qed.
End array.

(** * Properties *)

(** C31. [CacheArray::updateSeqLength] grows a layer to [n] tokens.  [true]:
    the array has exactly ceil(n / span_size) spans, the table lists their data
    pointers at their positions, the old entries are unchanged, and the spans
    are fresh ones of the manager.  [false]: the array is unchanged and no span
    is kept.  A shorter length throws RUNTIME_ERROR and a table overflow
    EXCEED_LIMIT_ERROR, both before anything is touched. *)
Theorem updateSeqLength_grows {S} `{SpanManagerLaws S} (s : S) a ids rest n :
  array_ok s a ids -> sm_inv s (ids ++ rest) ->
  0 <= n <= 2 ^ 64 - span_size (cache_config_ a) ->
  wp (updateSeqLength n)
     (fun b '(s', a') =>
        (forall id, id ∈ ids ++ rest -> sm_span s' id = sm_span s id) /\
        seq_length_ a <= n /\
        if b : bool then
          seq_length_ a' = n /\ exists new, array_ok s' a' (ids ++ new) /\
            sm_inv s' (new ++ ids ++ rest) /\
            Forall (fun id => HasExtraRef s' id = false) new
        else a' = a /\ sm_inv s' (ids ++ rest))
     (fun e '(s', a') => a' = a /\ safe_exn e /\
        (n < seq_length_ a -> e = AsException ALLSPARK_RUNTIME_ERROR /\ s' = s) /\
        (seq_length_ a < n -> tlb_shape_ a < ceil_div n (span_size (cache_config_ a)) ->
           e = AsException ALLSPARK_EXCEED_LIMIT_ERROR /\ s' = s))
     (s, a).
Proof. apply updateSeqLength_spec. Qed.

(** [SpannedVirtualCache::InitLayer] on a layer of the cache: each status
    it returns means what it says.  SUCCESS stores a well-formed array of
    [context_len] tokens and releases the spans of the array it replaces,
    except those with an extra reference; MEMORY_ERROR leaves every layer and
    the live spans as they were; no span leaks on any path. *)
Theorem InitLayer_correct {S} `{SpanManagerLaws S} (s : S) v layer_id num_heads
    per_head_size context_len max_num_spans old old_ids rest :
  let cfg := SpannedVirtualCache.cache_config_ v in
  0 < span_size cfg <= 128 -> 0 <= max_num_spans < 2 ^ 31 -> 0 <= context_len < 2 ^ 31 ->
  0 <= layer_id -> SpannedVirtualCache.layer_cache_ v !! Z.to_nat layer_id = Some old ->
  match old with Some b => cache_ b = Some <$> old_ids | None => old_ids = [] end ->
  sm_inv s (old_ids ++ rest) ->
  wp (SpannedVirtualCache.InitLayer layer_id num_heads per_head_size context_len max_num_spans)
     (fun r '(s', v') =>
        match r with
        | ALLSPARK_PARAM_ERROR =>
            (num_heads <= 0 \/ per_head_size <= 0) /\ s' = s /\ v' = v
        | ALLSPARK_RUNTIME_ERROR => sm_Inited s = false /\ s' = s /\ v' = v
        | ALLSPARK_MEMORY_ERROR => v' = v /\ sm_inv s' (old_ids ++ rest)
        | ALLSPARK_SUCCESS =>
            0 < num_heads /\ 0 < per_head_size /\ exists a ids,
              v' = SpannedVirtualCache.set_layer (Z.to_nat layer_id) (Some a) v /\
              array_ok s' a ids /\ seq_length_ a = context_len /\
              sm_inv s' (filter (fun id => HasExtraRef s id) old_ids ++ ids ++ rest)
        | _ => False
        end)
     (fun e _ => safe_exn e) (s, v).
Proof. apply InitLayer_spec. Qed.

(** ** A concrete cache for the witnesses *)
Section witness.
Definition wstate := CacheSpanManager.t (DefaultCacheFrameManager.t BumpDevice.t).
#[local] Instance wmanager : SpanManager wstate := concurrent_manager.
#[local] Instance wlaws : SpanManagerLaws wstate := concurrent_manager_laws.
Definition wconfig : SpanCacheConfig := mkConfig AsCacheDefault 16 0 1.
Definition warray : CacheArray := CacheArray_new "r" wconfig 0 8.
Definition wspans : wstate := CacheSpanManager.set_inited 64 (spans_on 4).
Definition wcache : SpannedVirtualCache.t := SpannedVirtualCache.new wconfig "r" 2.

Lemma updateSeqLength_grows_witness :
  wp (updateSeqLength 40) (fun b '(_, a') => b = true -> seq_length_ a' = 40)
     (fun e _ => safe_exn e) (spans_on 4, warray).
Proof.
  refine (wp_mono _ _ _ _ _ _ (updateSeqLength_grows (spans_on 4 : wstate) warray [] [] 40
    (CacheArray_new_ok _ _ _ _ _ _ _) (spans_on_inv 4) _) _ _); try (simpl; lia).
  - intros [|] [s' a'] (_ & _ & Hr); [|done]. intros _. apply Hr.
  - intros e [s' a'] (_ & He & _). done.
Defined.

Lemma InitLayer_correct_witness :
  wp (SpannedVirtualCache.InitLayer 1 8 128 40 8)
     (fun r _ => r = ALLSPARK_SUCCESS \/ r = ALLSPARK_MEMORY_ERROR)
     (fun e _ => safe_exn e) (wspans, wcache).
Proof.
  refine (wp_mono _ _ _ _ _ _ (InitLayer_correct wspans wcache 1 8 128 40 8 None [] []
    _ _ _ _ eq_refl eq_refl (spans_on_inv 4)) _ (fun _ _ H => H)); try (simpl; lia).
  intros r [s' v'] Hr. destruct r; try done; auto.
  - exfalso. destruct Hr as [Hr _]. lia.
  - exfalso. by destruct Hr as [Hr _].
Defined.

(** [virtual_cache.h] promises ALLSPARK_PARAM_ERROR for any invalid
    parameter of [InitLayer].  A layer id equal to the number of layers is
    instead stored past the end of [layer_cache_] (undefined behaviour), and a
    context length of -1 is accepted: SUCCESS with a sequence length of 2^64-1
    and no span at all. *)
Theorem InitLayer_unchecked_params :
  (exists s', SpannedVirtualCache.InitLayer 2 8 128 16 8 (wspans, wcache)
                = (Err UB, (s', wcache))) /\
  (exists s' v' a, SpannedVirtualCache.InitLayer 1 8 128 (-1) 8 (wspans, wcache)
                = (Ok ALLSPARK_SUCCESS, (s', v')) /\
     SpannedVirtualCache.layer_cache_ v' !! 1%nat = Some (Some a) /\
     cache_ a = [] /\ seq_length_ a = 2 ^ 64 - 1).
Proof.
  split; [eexists; vm_compute; reflexivity|].
  do 3 eexists. split; [vm_compute; reflexivity|]. by vm_compute.
Qed.
End witness.

(** [SpanCacheConfig::Create] answers a configuration exactly when the span
    size is 0 (cache disabled) or one of 16, 32, 64, 128 with non-negative span
    counts, and it then holds the arguments. *)
Theorem SpanCacheConfig_Create_accepts m size ini grow c :
  SpanCacheConfig_Create m size ini grow = Some c <->
  c = mkConfig m size ini grow /\
  (size = 0 \/ (size ∈ [16; 32; 64; 128] /\ 0 <= ini /\ 0 <= grow)).
Proof.
  unfold SpanCacheConfig_Create, SpanCacheConfig_new.
  rewrite !elem_of_cons, elem_of_nil.
  destruct (size =? 0) eqn:E0; [split; [intros ?; simplify_eq; split; [done|lia]|by intros [-> _]]|].
  destruct (negb _) eqn:E1; [split; [done|]|].
  { intros [_ Hs]. rewrite negb_true_iff, !orb_false_iff in E1. lia. }
  rewrite negb_false_iff, !orb_true_iff in E1.
  destruct (ini <? 0) eqn:E2; [split; [done|lia]|].
  destruct (grow <? 0) eqn:E3; [split; [done|lia]|].
  split; [intros ?; simplify_eq; split; [done|lia]|by intros [-> _]].
Qed.

(** [CacheUtils::GetSpanSizeInBytes] for an accepted span size and a shape
    of at most 2^20 elements per token: no int or size_t overflow happens and
    the result is the exact size.  8-bit quantisation needs one byte per element, 4-bit half
    a byte (the halving is exact because span sizes are even), and both add
    eight bytes per token and head for zero point and scale. *)
Theorem GetSpanSizeInBytes_exact cfg t num_heads per_head_size :
  span_size cfg ∈ [16; 32; 64; 128] ->
  0 < num_heads -> 0 < per_head_size -> num_heads * per_head_size <= 2 ^ 20 ->
  let tokens := span_size cfg in
  GetSpanSizeInBytes cfg t num_heads per_head_size = Ok
    match mode cfg with
    | AsCacheDefault => tokens * (num_heads * per_head_size) * SizeofType t
    | AsCacheQuantI8 => tokens * (num_heads * per_head_size) + tokens * num_heads * 8
    | AsCacheQuantU4 => tokens / 2 * (num_heads * per_head_size) + tokens * num_heads * 8
    end.
Proof.
  intros Hs Hh Hp Hb tokens.
  assert (Hty : 0 <= SizeofType t <= 8) by (destruct t; simpl; lia).
  assert (Hhb : num_heads <= 2 ^ 20) by nia.
  rewrite !elem_of_cons, elem_of_nil in Hs.
  assert (Ht : 16 <= tokens <= 128 /\ tokens = 2 * (tokens / 2)).
  { unfold tokens. destruct Hs as [->|[->|[->|[->|[]]]]]; (split; [lia|reflexivity]). }
  clear Hs. destruct Ht as [Ht Heven].
  assert (Hx1 : 0 < tokens * num_heads <= 2 ^ 27) by nia.
  assert (Hx2 : 0 < tokens * num_heads * per_head_size <= 2 ^ 27) by nia.
  unfold GetSpanSizeInBytes, int_mul. fold tokens.
  rewrite !(decide_True (P := - 2 ^ 31 <= tokens * num_heads < 2 ^ 31)) by lia. simpl.
  rewrite !decide_True by lia. simpl. rewrite ?decide_True by lia. simpl.
  rewrite Z.mul_assoc.
  set (n := tokens * num_heads * per_head_size) in *.
  assert (Hx : u64 (u64 (2 * tokens * num_heads) * 4) = tokens * num_heads * 8).
  { rewrite (u64_small (2 * tokens * num_heads)) by nia. rewrite u64_small by nia. lia. }
  destruct (mode cfg); simpl; f_equal.
  - rewrite (u64_small n) by lia. apply u64_small. nia.
  - rewrite Hx, Z.mul_1_r, (u64_small n), (u64_small n), u64_small; lia.
  - rewrite Hx, Z.mul_1_r, (u64_small n), (u64_small n) by lia.
    assert (tokens / 2 * (num_heads * per_head_size) = n / 2) as ->.
    { unfold n. rewrite Heven at 2. rewrite <- !Z.mul_assoc, (Z.mul_comm 2), Z.div_mul; lia. }
    pose proof (Z.div_le_upper_bound n 2 n ltac:(lia) ltac:(lia)).
    pose proof (Z.div_pos n 2 ltac:(lia) ltac:(lia)). apply u64_small. lia.
Qed.

Lemma GetSpanSizeInBytes_exact_witness :
  GetSpanSizeInBytes (mkConfig AsCacheQuantU4 32 0 0) FLOAT16 8 128
    = Ok (16 * (8 * 128) + 32 * 8 * 8).
Proof.
  refine (GetSpanSizeInBytes_exact (mkConfig AsCacheQuantU4 32 0 0) FLOAT16 8 128 _ _ _ _);
    simpl; [set_solver|lia|lia|lia].
Defined.
