(* ===== verification/Bfc.v ===== *)
(** The best-fit-with-coalescing device allocator
    (src/csrc/device/bfc_allocator.h and bfc_allocator.cpp, class
    [BFCAllocatorImpl]): chunks named by handles into the vector [chunks_] and
    linked in address order, regions that map addresses to handles, 21 bins of
    free chunks sorted by size and address, and a free list of unused handles.
    The underlying sub-allocator is a parameter. *)
From stdpp Require Import base list gmap strings fin_maps.
From S2P Require Import Prelude.

(** [SubAllocator]: [allocate] answers the address and the bytes received. *)
Class SubAllocator (D : Type) := {
  sub_allocate : D -> Z -> Z -> option (Z * Z * D);
  sub_free : D -> Z -> Z -> D;
  SupportsCoalescing : bool;
}.

(** A [ChunkHandle]; [None] is [kInvalidChunkHandle] (SIZE_MAX). *)
Abbreviation handle := (option nat).

Record Chunk := mkChunk {
  size : Z;
  requested_size : Z;
  allocation_id : Z;
  ptr : Z;
  prev : handle;
  next : handle;
  bin_num : option Z;  (* [None] is [kInvalidBinNum] *)
  freed_at_count : Z;
}.

Definition default_chunk : Chunk := mkChunk 0 0 (-1) 0 None None None 0.
Definition in_use (c : Chunk) : bool := negb (allocation_id c =? -1).

Definition set_size z (c : Chunk) := mkChunk z (requested_size c) (allocation_id c) (ptr c)
  (prev c) (next c) (bin_num c) (freed_at_count c).
Definition set_requested_size z (c : Chunk) := mkChunk (size c) z (allocation_id c) (ptr c)
  (prev c) (next c) (bin_num c) (freed_at_count c).
Definition set_allocation_id z (c : Chunk) := mkChunk (size c) (requested_size c) z (ptr c)
  (prev c) (next c) (bin_num c) (freed_at_count c).
Definition set_ptr z (c : Chunk) := mkChunk (size c) (requested_size c) (allocation_id c) z
  (prev c) (next c) (bin_num c) (freed_at_count c).
Definition set_prev h (c : Chunk) := mkChunk (size c) (requested_size c) (allocation_id c)
  (ptr c) h (next c) (bin_num c) (freed_at_count c).
Definition set_next h (c : Chunk) := mkChunk (size c) (requested_size c) (allocation_id c)
  (ptr c) (prev c) h (bin_num c) (freed_at_count c).
Definition set_bin_num b (c : Chunk) := mkChunk (size c) (requested_size c) (allocation_id c)
  (ptr c) (prev c) (next c) b (freed_at_count c).
Definition set_freed_at_count z (c : Chunk) := mkChunk (size c) (requested_size c)
  (allocation_id c) (ptr c) (prev c) (next c) (bin_num c) z.

Definition kMinAllocationBits : Z := 8.
Definition kMinAllocationSize : Z := Z.shiftl 1 kMinAllocationBits.
Definition kNumBins : Z := 21.

(** * Regions *)
Module AllocationRegion.
Record t := mk {
  ptr_ : Z;
  memory_size_ : Z;
  end_ptr_ : Z;
  handles_ : list handle;
}.

Definition n_handles (memory_size : Z) : nat :=
  Z.to_nat (u64 (memory_size + kMinAllocationSize - 1) / kMinAllocationSize).

Definition new (p memory_size : Z) : t :=
  mk p memory_size (p + memory_size) (replicate (n_handles memory_size) None).

(** [handles_.resize(n_handles, kInvalidChunkHandle)] *)
Definition extend (sz : Z) (r : t) : t :=
  let m := u64 (memory_size_ r + sz) in
  let n := n_handles m in
  mk (ptr_ r) m (end_ptr_ r + sz)
    (take n (handles_ r) ++ replicate (n - length (handles_ r)) None).

Definition IndexFor (r : t) (p : Z) : nat :=
  Z.to_nat (Z.shiftr (u64 (p - ptr_ r)) kMinAllocationBits).

(** Indexing past the end of [handles_] is undefined: [None]. *)
Definition get_handle (r : t) (p : Z) : option handle := handles_ r !! IndexFor r p.
Definition set_handle (p : Z) (h : handle) (r : t) : option t :=
  if (IndexFor r p <? length (handles_ r))%nat
  then Some (mk (ptr_ r) (memory_size_ r) (end_ptr_ r) (<[IndexFor r p := h]> (handles_ r)))
  else None.
End AllocationRegion.
Import AllocationRegion (ptr_, memory_size_, end_ptr_, handles_).

(** [RegionManager]: regions sorted by end address; [std::upper_bound] answers
    the first region that ends after [p]. *)
Module RegionManager.
Definition upper_bound (regions : list AllocationRegion.t) (p : Z) : nat :=
  match list_find (fun r => p < end_ptr_ r) regions with
  | Some (i, _) => i
  | None => length regions
  end.

Definition insert_at (i : nat) (r : AllocationRegion.t) (regions : list AllocationRegion.t)
    : list AllocationRegion.t := take i regions ++ r :: drop i regions.

Definition AddAllocationRegion (p memory_size : Z) (regions : list AllocationRegion.t)
    : list AllocationRegion.t :=
  insert_at (upper_bound regions p) (AllocationRegion.new p memory_size) regions.

(** The second component is the position of the region extended, if any. *)
Definition AddOrExtendAllocationRegion (p memory_size : Z) (regions : list AllocationRegion.t)
    : list AllocationRegion.t * option nat :=
  let entry := upper_bound regions p in
  match entry with
  | O => (AddAllocationRegion p memory_size regions, None)
  | S i =>
      match regions !! i with
      | Some preceding =>
          if end_ptr_ preceding =? p
          then (<[i := AllocationRegion.extend memory_size preceding]> regions, Some i)
          else (AddAllocationRegion p memory_size regions, None)
      | None => (AddAllocationRegion p memory_size regions, None)
      end
  end.

Definition RegionFor (regions : list AllocationRegion.t) (p : Z) : option nat :=
  let entry := upper_bound regions p in
  if (entry <? length regions)%nat then Some entry else None.

(** Outside every region the answer is handle 0, not the invalid handle. *)
Definition get_handle (regions : list AllocationRegion.t) (p : Z) : option handle :=
  match RegionFor regions p with
  | Some i => r ← regions !! i; AllocationRegion.get_handle r p
  | None => Some (Some 0%nat)
  end.

Definition set_handle (p : Z) (h : handle) (regions : list AllocationRegion.t)
    : option (list AllocationRegion.t) :=
  i ← RegionFor regions p;
  r ← regions !! i;
  r' ← AllocationRegion.set_handle p h r;
  Some (<[i := r']> regions).
End RegionManager.

(** * The allocator *)
Record AllocatorStats := mkStats {
  num_allocs : Z;
  bytes_in_use : Z;
  peak_bytes_in_use : Z;
  largest_alloc_size : Z;
  bytes_limit : Z;
}.

(** [fragmentation_bytes] is [fragmentation_fraction * memory_limit_] when the
    fraction is positive; it is the only use of that double. *)
Record Options := mkOptions {
  allow_growth : bool;
  garbage_collection : bool;
  fragmentation_bytes : option Z;
}.

Module BFCAllocatorImpl.
Record t (D : Type) := mk {
  memory_limit_ : Z;
  opts_ : Options;
  curr_region_allocation_bytes_ : Z;
  total_region_allocated_bytes_ : Z;
  sub_allocator_ : D;
  regions_ : list AllocationRegion.t;
  bins_ : list (list nat);
  chunks_ : list Chunk;
  free_chunks_list_ : handle;
  next_allocation_id_ : Z;
  stats_ : AllocatorStats;
}.
Arguments mk {D}.
Arguments memory_limit_ {D}.
Arguments opts_ {D}.
Arguments curr_region_allocation_bytes_ {D}.
Arguments total_region_allocated_bytes_ {D}.
Arguments sub_allocator_ {D}.
Arguments regions_ {D}.
Arguments bins_ {D}.
Arguments chunks_ {D}.
Arguments free_chunks_list_ {D}.
Arguments next_allocation_id_ {D}.
Arguments stats_ {D}.

Definition RoundedBytes (bytes : Z) : Z :=
  u64 (kMinAllocationSize * (u64 (bytes + kMinAllocationSize - 1) / kMinAllocationSize)).

Definition BinNumToSize (index : Z) : Z := u64 (Z.shiftl 256 index).

(** [63 ^ clz(n)] is the position of the highest set bit. *)
Definition Log2FloorNonZero (n : Z) : Z := Z.log2 n.
Fixpoint log2_slow (fuel : nat) (n r : Z) : Z :=
  match fuel with
  | O => r - 1
  | S k => if 0 <? n then log2_slow k (Z.shiftr n 1) (r + 1) else r - 1
  end.
Definition Log2FloorNonZeroSlow (n : Z) : Z := log2_slow 64 n 0.

Definition BinNumForSize (bytes : Z) : Z :=
  let v := Z.shiftr (Z.max bytes 256) kMinAllocationBits in
  Z.min (kNumBins - 1) (Log2FloorNonZero v).

(** The constructor: 21 empty bins, each checked against the size classes. *)
Definition check_bin (b : Z) : bool :=
  let bin_size := BinNumToSize b in
  (BinNumForSize bin_size =? b) && (BinNumForSize (bin_size + 255) =? b) &&
  (BinNumForSize (bin_size * 2 - 1) =? b) &&
  (negb (b + 1 <? kNumBins) || negb (BinNumForSize (bin_size * 2) =? b)).

Definition new {D} (d : D) (total_memory : Z) (opts : Options) : res (t D) :=
  let curr := if allow_growth opts
              then RoundedBytes (Z.min total_memory (Z.shiftl 2 20))
              else RoundedBytes total_memory in
  if forallb check_bin (seqZ 0 kNumBins)
  then Ok (mk total_memory opts curr 0 d [] (replicate (Z.to_nat kNumBins) []) [] None 1
             (mkStats 0 0 0 0 (i64 total_memory)))
  else Err CheckFailed.

Section ops.
Context {D : Type} `{HD : SubAllocator D}.
Abbreviation A := (M (t D)).

(** ** State access *)
Definition set_curr (z : Z) (s : t D) : t D := mk (memory_limit_ s) (opts_ s) z
  (total_region_allocated_bytes_ s) (sub_allocator_ s) (regions_ s) (bins_ s) (chunks_ s)
  (free_chunks_list_ s) (next_allocation_id_ s) (stats_ s).
Definition set_total (z : Z) (s : t D) : t D := mk (memory_limit_ s) (opts_ s)
  (curr_region_allocation_bytes_ s) z (sub_allocator_ s) (regions_ s) (bins_ s) (chunks_ s)
  (free_chunks_list_ s) (next_allocation_id_ s) (stats_ s).
Definition set_sub (d : D) (s : t D) : t D := mk (memory_limit_ s) (opts_ s)
  (curr_region_allocation_bytes_ s) (total_region_allocated_bytes_ s) d (regions_ s) (bins_ s)
  (chunks_ s) (free_chunks_list_ s) (next_allocation_id_ s) (stats_ s).
Definition set_regions (r : list AllocationRegion.t) (s : t D) : t D := mk (memory_limit_ s)
  (opts_ s) (curr_region_allocation_bytes_ s) (total_region_allocated_bytes_ s)
  (sub_allocator_ s) r (bins_ s) (chunks_ s) (free_chunks_list_ s) (next_allocation_id_ s)
  (stats_ s).
Definition set_bins (b : list (list nat)) (s : t D) : t D := mk (memory_limit_ s) (opts_ s)
  (curr_region_allocation_bytes_ s) (total_region_allocated_bytes_ s) (sub_allocator_ s)
  (regions_ s) b (chunks_ s) (free_chunks_list_ s) (next_allocation_id_ s) (stats_ s).
Definition set_chunks (cs : list Chunk) (s : t D) : t D := mk (memory_limit_ s) (opts_ s)
  (curr_region_allocation_bytes_ s) (total_region_allocated_bytes_ s) (sub_allocator_ s)
  (regions_ s) (bins_ s) cs (free_chunks_list_ s) (next_allocation_id_ s) (stats_ s).
Definition set_free_list (h : handle) (s : t D) : t D := mk (memory_limit_ s) (opts_ s)
  (curr_region_allocation_bytes_ s) (total_region_allocated_bytes_ s) (sub_allocator_ s)
  (regions_ s) (bins_ s) (chunks_ s) h (next_allocation_id_ s) (stats_ s).
Definition set_next_id (z : Z) (s : t D) : t D := mk (memory_limit_ s) (opts_ s)
  (curr_region_allocation_bytes_ s) (total_region_allocated_bytes_ s) (sub_allocator_ s)
  (regions_ s) (bins_ s) (chunks_ s) (free_chunks_list_ s) z (stats_ s).
Definition set_stats (st : AllocatorStats) (s : t D) : t D := mk (memory_limit_ s) (opts_ s)
  (curr_region_allocation_bytes_ s) (total_region_allocated_bytes_ s) (sub_allocator_ s)
  (regions_ s) (bins_ s) (chunks_ s) (free_chunks_list_ s) (next_allocation_id_ s) st.

(** [chunks_[h]]; an index past the end is undefined. *)
Definition ChunkFromHandle (h : nat) : A Chunk := fun s =>
  match chunks_ s !! h with Some c => (Ok c, s) | None => (Err UB, s) end.
Definition upd_chunk (h : nat) (f : Chunk -> Chunk) : A unit := fun s =>
  match chunks_ s !! h with
  | Some c => (Ok tt, set_chunks (<[h := f c]> (chunks_ s)) s)
  | None => (Err UB, s)
  end.

Definition AS_ENFORCE (b : bool) : A unit := if b then mret tt else throw CheckFailed.

Definition get_handle (p : Z) : A handle := fun s =>
  match RegionManager.get_handle (regions_ s) p with
  | Some h => (Ok h, s)
  | None => (Err UB, s)
  end.
Definition set_handle (p : Z) (h : handle) : A unit := fun s =>
  match RegionManager.set_handle p h (regions_ s) with
  | Some rs => (Ok tt, set_regions rs s)
  | None => (Err UB, s)
  end.

(** ** Handles *)
Definition AllocateChunk : A nat :=
  fl ← gets free_chunks_list_;
  match fl with
  | Some h =>
      c ← ChunkFromHandle h;
      modify (set_free_list (next c));;
      mret h
  | None =>
      h ← gets (fun s => length (chunks_ s));
      modify (fun s => set_chunks (chunks_ s ++ [default_chunk]) s);;
      mret h
  end.

Definition DeallocateChunk (h : nat) : A unit :=
  fl ← gets free_chunks_list_;
  upd_chunk h (fun c => set_next fl (set_bin_num None (set_allocation_id (-1) c)));;
  modify (set_free_list (Some h)).

Definition DeleteChunk (h : nat) : A unit :=
  c ← ChunkFromHandle h;
  set_handle (ptr c) None;;
  DeallocateChunk h.

(** ** Bins: [std::set] ordered by size, then address *)
Definition chunk_less (cs : list Chunk) (ha hb : nat) : bool :=
  match cs !! ha, cs !! hb with
  | Some a, Some b =>
      if negb (size a =? size b) then size a <? size b else ptr a <? ptr b
  | _, _ => false
  end.

(** [insert]: an equivalent element keeps the new one out. *)
Fixpoint bin_insert (cs : list Chunk) (h : nat) (l : list nat) : list nat :=
  match l with
  | [] => [h]
  | x :: l' =>
      if chunk_less cs h x then h :: l
      else if chunk_less cs x h then x :: bin_insert cs h l'
      else l
  end.

(** [erase(key)]: the element equivalent to the key, if there is one. *)
Definition chunk_equiv (cs : list Chunk) (h x : nat) : bool :=
  negb (chunk_less cs h x) && negb (chunk_less cs x h).
Definition bin_erase (cs : list Chunk) (h : nat) (l : list nat) : list nat :=
  filter (fun x => negb (chunk_equiv cs h x)) l.

Definition BinFromIndex (b : Z) : A (list nat) := fun s =>
  match bins_ s !! Z.to_nat b with Some l => (Ok l, s) | None => (Err UB, s) end.
Definition set_bin (b : Z) (l : list nat) : A unit :=
  modify (fun s => set_bins (<[Z.to_nat b := l]> (bins_ s)) s).

Definition InsertFreeChunkIntoBin (h : nat) : A unit :=
  c ← ChunkFromHandle h;
  AS_ENFORCE (negb (in_use c) && bool_decide (bin_num c = None));;
  let b := BinNumForSize (size c) in
  new_bin ← BinFromIndex b;
  upd_chunk h (set_bin_num (Some b));;
  cs ← gets chunks_;
  set_bin b (bin_insert cs h new_bin).

(** Erasing the element an iterator of bin [b] points at. *)
Definition RemoveFreeChunkIterFromBin (b : Z) (h : nat) : A unit :=
  c ← ChunkFromHandle h;
  AS_ENFORCE (negb (in_use c) && bool_decide (bin_num c <> None));;
  l ← BinFromIndex b;
  set_bin b (filter (fun x => x <> h) l);;
  upd_chunk h (set_bin_num None).

Definition RemoveFreeChunkFromBin (h : nat) : A unit :=
  c ← ChunkFromHandle h;
  AS_ENFORCE (negb (in_use c) && bool_decide (bin_num c <> None));;
  match bin_num c with
  | None => throw CheckFailed
  | Some b =>
      l ← BinFromIndex b;
      cs ← gets chunks_;
      let l' := bin_erase cs h l in
      set_bin b l';;
      AS_ENFORCE (length l' <? length l)%nat;;
      upd_chunk h (set_bin_num None)
  end.

(** ** Splitting and merging *)
Definition SplitChunk (h : nat) (num_bytes : Z) : A unit :=
  h_new_chunk ← AllocateChunk;
  c ← ChunkFromHandle h;
  AS_ENFORCE (negb (in_use c) && bool_decide (bin_num c = None));;
  upd_chunk h_new_chunk (set_ptr (ptr c + num_bytes));;
  set_handle (ptr c + num_bytes) (Some h_new_chunk);;
  upd_chunk h_new_chunk (set_size (u64 (size c - num_bytes)));;
  upd_chunk h (set_size num_bytes);;
  upd_chunk h_new_chunk (fun n => set_freed_at_count (freed_at_count c) (set_allocation_id (-1) n));;
  let h_neighbor := next c in
  upd_chunk h_new_chunk (fun n => set_next h_neighbor (set_prev (Some h) n));;
  upd_chunk h (set_next (Some h_new_chunk));;
  match h_neighbor with
  | Some hn => upd_chunk hn (set_prev (Some h_new_chunk))
  | None => mret tt
  end;;
  InsertFreeChunkIntoBin h_new_chunk.

Definition Merge (h1 h2 : nat) : A unit :=
  c1 ← ChunkFromHandle h1;
  c2 ← ChunkFromHandle h2;
  AS_ENFORCE (negb (in_use c1) && negb (in_use c2));;
  let h3 := next c2 in
  upd_chunk h1 (set_next h3);;
  AS_ENFORCE (bool_decide (prev c2 = Some h1));;
  match h3 with
  | Some h => upd_chunk h (set_prev (Some h1))
  | None => mret tt
  end;;
  upd_chunk h1 (fun c => set_size (u64 (size c + size c2)) c);;
  upd_chunk h1 (set_freed_at_count (Z.max (freed_at_count c1) (freed_at_count c2)));;
  DeleteChunk h2.

Definition MarkFree (h : nat) : A unit :=
  c ← ChunkFromHandle h;
  AS_ENFORCE (in_use c && bool_decide (bin_num c = None));;
  upd_chunk h (set_allocation_id (-1));;
  modify (fun s => set_stats (mkStats (num_allocs (stats_ s)) (bytes_in_use (stats_ s) - size c)
    (peak_bytes_in_use (stats_ s)) (largest_alloc_size (stats_ s)) (bytes_limit (stats_ s))) s).

(** Whether the neighbour [hn] may be merged: free, and freed for good. *)
Definition mergeable (hn : handle) (ignore_freed_at : bool) : A bool :=
  match hn with
  | None => mret false
  | Some x =>
      n ← ChunkFromHandle x;
      mret (negb (in_use n) && ((freed_at_count n =? 0) || ignore_freed_at))
  end.

Definition TryToCoalesce (h : nat) (ignore_freed_at : bool) : A nat :=
  c ← ChunkFromHandle h;
  if negb ignore_freed_at && (0 <? freed_at_count c) then mret h
  else
    b ← mergeable (next c) ignore_freed_at;
    match b, next c with
    | true, Some n => RemoveFreeChunkFromBin n;; Merge h n
    | _, _ => mret tt
    end;;
    c' ← ChunkFromHandle h;
    b' ← mergeable (prev c') ignore_freed_at;
    match b', prev c' with
    | true, Some p => RemoveFreeChunkFromBin p;; Merge p h;; mret p
    | _, _ => mret h
    end.

(** ** Growing *)

(** [while (rounded_bytes > curr) curr *= 2;]: 64 doublings exhaust a size_t,
    after which the value 0 repeats forever. *)
Definition grow_curr (rounded_bytes curr : Z) : option (Z * bool) :=
  match iter_nat 65 (fun '(c, inc) =>
          if c <? rounded_bytes then inl (u64 (c * 2), true) else inr (c, inc)) (curr, false) with
  | inr r => Some r
  | inl _ => None
  end.

(** The last chunk of a region that was extended, from its first one. *)
Fixpoint last_chunk (fuel : nat) (prev : nat) : A nat :=
  match fuel with
  | O => throw Hang
  | S k =>
      c ← ChunkFromHandle prev;
      match next c with Some n => last_chunk k n | None => mret prev end
  end.

Definition add_region (mem_addr bytes_received : Z) : A (option nat) := fun s =>
  if SupportsCoalescing then
    let '(rs, ext) := RegionManager.AddOrExtendAllocationRegion mem_addr bytes_received (regions_ s) in
    (Ok ext, set_regions rs s)
  else (Ok None, set_regions
          (RegionManager.AddAllocationRegion mem_addr bytes_received (regions_ s)) s).

(** [prev->next = h; c->prev = prev] for the last chunk of region [i]. *)
Definition link_to_region (i h : nat) : A unit :=
  r ← gets (fun s => regions_ s !! i);
  match r ≫= fun r => AllocationRegion.get_handle r (ptr_ r) with
  | Some (Some first) =>
      fuel ← gets (fun s => S (length (chunks_ s)));
      prev ← last_chunk fuel first;
      upd_chunk h (set_prev (Some prev));;
      upd_chunk prev (set_next (Some h))
  | _ => throw UB
  end.

Definition Extend (alignment rounded_bytes : Z) : A bool :=
  s ← gets id;
  let available := u64 (memory_limit_ s - total_region_allocated_bytes_ s) in
  let available_bytes := available / kMinAllocationSize * kMinAllocationSize in
  if available_bytes <? rounded_bytes then mret false
  else
    match grow_curr rounded_bytes (curr_region_allocation_bytes_ s) with
    | None => throw Hang
    | Some (curr, increased_allocation) =>
        modify (set_curr curr);;
        match sub_allocate (sub_allocator_ s) alignment (Z.min curr available_bytes) with
        | None => mret false
        | Some (mem_addr, bytes_received, d') =>
            modify (set_sub d');;
            when (negb increased_allocation) (modify (set_curr (u64 (curr * 2))));;
            modify (fun s => set_total (u64 (total_region_allocated_bytes_ s + bytes_received)) s);;
            maybe_extended_region ← add_region mem_addr bytes_received;
            h ← AllocateChunk;
            upd_chunk h (fun c => mkChunk bytes_received (requested_size c) (-1) mem_addr
                                    None None (bin_num c) 0);;
            set_handle mem_addr (Some h);;
            match maybe_extended_region with
            | Some i => link_to_region i h
            | None => mret tt
            end;;
            h' ← TryToCoalesce h false;
            InsertFreeChunkIntoBin h';;
            mret true
        end
    end.

(** ** Allocation *)

(** The search of [FindChunkPtr]: from bin [b] on, each bin in order, the
    first chunk that is large enough. *)
Fixpoint scan_bin (rounded_bytes : Z) (l : list nat) : A (option nat) :=
  match l with
  | [] => mret None
  | h :: l' =>
      c ← ChunkFromHandle h;
      if rounded_bytes <=? size c then mret (Some h) else scan_bin rounded_bytes l'
  end.
Fixpoint scan_bins (rounded_bytes b : Z) (bins : list (list nat)) : A (option (Z * nat)) :=
  match bins with
  | [] => mret None
  | l :: bins' =>
      r ← scan_bin rounded_bytes l;
      match r with
      | Some h => mret (Some (b, h))
      | None => scan_bins rounded_bytes (b + 1) bins'
      end
  end.

Definition max_internal_fragmentation_bytes (o : Options) : Z :=
  match fragmentation_bytes o with Some z => z | None => Z.shiftl 128 20 end.

Definition note_allocation (sz : Z) : A unit := modify (fun s =>
  let st := stats_ s in
  let used := bytes_in_use st + sz in
  set_stats (mkStats (num_allocs st + 1) used (Z.max (peak_bytes_in_use st) used)
               (Z.max (largest_alloc_size st) sz) (bytes_limit st)) s).

Definition FindChunkPtr (bin_num rounded_bytes num_bytes : Z) : A (option Z) :=
  bins ← gets bins_;
  found ← scan_bins rounded_bytes bin_num (drop (Z.to_nat bin_num) bins);
  match found with
  | None => mret None
  | Some (b, h) =>
      RemoveFreeChunkIterFromBin b h;;
      chunk ← ChunkFromHandle h;
      opts ← gets opts_;
      when ((u64 (rounded_bytes * 2) <=? size chunk)
            || (u64 (max_internal_fragmentation_bytes opts)
                  <=? u64 (i64 (size chunk) - rounded_bytes)))
        (SplitChunk h rounded_bytes);;
      id ← gets next_allocation_id_;
      upd_chunk h (fun c => set_allocation_id id (set_requested_size num_bytes c));;
      modify (set_next_id (id + 1));;
      chunk' ← ChunkFromHandle h;
      note_allocation (size chunk');;
      mret (Some (ptr chunk'))
  end.

(** ** Releasing regions *)

(** Whether any chunk from [h] on is in use. *)
Fixpoint any_use (fuel : nat) (h : handle) : A bool :=
  match h with
  | None => mret false
  | Some x =>
      match fuel with
      | O => throw Hang
      | S k => c ← ChunkFromHandle x; if in_use c then mret true else any_use k (next c)
      end
  end.

(** Unregister and delete the chunks from [h] on. *)
Fixpoint delete_chunks (fuel : nat) (h : handle) : A unit :=
  match h with
  | None => mret tt
  | Some x =>
      match fuel with
      | O => throw Hang
      | S k =>
          c ← ChunkFromHandle x;
          when (bool_decide (bin_num c <> None)) (RemoveFreeChunkFromBin x);;
          DeleteChunk x;;
          delete_chunks k (next c)
      end
  end.

(** The loop over the region vector: [i] is the iterator's position and [n]
    the regions still to visit. *)
Fixpoint DeallocateRegions_from (n i : nat) (region_ptrs : list Z) : A unit :=
  match n with
  | O => mret tt
  | S n' =>
      r ← gets (fun s => regions_ s !! i);
      match r with
      | None => throw UB
      | Some it =>
          if bool_decide (ptr_ it ∈ region_ptrs) then
            h ← get_handle (ptr_ it);
            fuel ← gets (fun s => length (chunks_ s));
            delete_chunks fuel h;;
            modify (fun s => set_sub (sub_free (sub_allocator_ s) (ptr_ it) (memory_size_ it)) s);;
            modify (fun s => set_total
              (u64 (total_region_allocated_bytes_ s - memory_size_ it)) s);;
            modify (fun s => set_regions (delete i (regions_ s)) s);;
            DeallocateRegions_from n' i region_ptrs
          else DeallocateRegions_from n' (S i) region_ptrs
      end
  end.
Definition DeallocateRegions (region_ptrs : list Z) : A unit :=
  n ← gets (fun s => length (regions_ s));
  DeallocateRegions_from n 0 region_ptrs.

Definition DeallocateAllRegions : A bool :=
  ptrs ← gets (fun s => ptr_ <$> regions_ s);
  DeallocateRegions ptrs;;
  mret true.

(** The regions without a chunk in use, and their total size. *)
Fixpoint find_free_regions (rs : list AllocationRegion.t) (ptrs : list Z) (total : Z)
    : A (list Z * Z) :=
  match rs with
  | [] => mret (ptrs, total)
  | region :: rs' =>
      h ← get_handle (ptr_ region);
      fuel ← gets (fun s => length (chunks_ s));
      used ← any_use fuel h;
      if used : bool then find_free_regions rs' ptrs total
      else find_free_regions rs' (ptr_ region :: ptrs) (u64 (total + memory_size_ region))
  end.

Definition DeallocateFreeRegions (rounded_bytes : Z) : A bool :=
  opts ← gets opts_;
  if negb (garbage_collection opts) then mret false
  else
    rs ← gets regions_;
    '(free_region_ptrs, total_free_bytes) ← find_free_regions rs [] 0;
    if total_free_bytes =? 0 then mret false
    else
      s ← gets id;
      let available_bytes :=
        u64 (memory_limit_ s - total_region_allocated_bytes_ s + total_free_bytes) in
      if available_bytes <? rounded_bytes then mret false
      else
        DeallocateRegions free_region_ptrs;;
        mret true.

(** ** The entry points; a null pointer is [None] *)
Definition AllocateRawInternal (alignment num_bytes : Z) : A (option Z) :=
  if num_bytes =? 0 then mret None
  else
    let rounded_bytes := RoundedBytes num_bytes in
    let bin_num := BinNumForSize rounded_bytes in
    p ← FindChunkPtr bin_num rounded_bytes num_bytes;
    match p with
    | Some p => mret (Some p)
    | None =>
        extended ← Extend alignment rounded_bytes;
        p ← (if extended : bool then FindChunkPtr bin_num rounded_bytes num_bytes
             else mret None);
        match p with
        | Some p => mret (Some p)
        | None =>
            freed ← DeallocateFreeRegions rounded_bytes;
            if freed : bool then
              extended ← Extend alignment rounded_bytes;
              if extended : bool then FindChunkPtr bin_num rounded_bytes num_bytes
              else mret None
            else mret None
        end
    end.
Definition AllocateRaw (alignment num_bytes : Z) : A (option Z) :=
  AllocateRawInternal alignment num_bytes.

Definition DeallocateRawInternal (p : option Z) : A unit :=
  match p with
  | None => mret tt
  | Some p =>
      h ← get_handle p;
      if bool_decide (h = Some 0%nat) then mret tt
      else
        match h with
        | None => throw CheckFailed
        | Some h =>
            MarkFree h;;
            h' ← TryToCoalesce h false;
            InsertFreeChunkIntoBin h'
        end
  end.
Definition DeallocateRaw (p : option Z) : A unit := DeallocateRawInternal p.

(** ** Queries *)
Definition chunk_of (p : Z) : A Chunk :=
  h ← get_handle p;
  match h with None => throw CheckFailed | Some h => ChunkFromHandle h end.
Definition RequestedSize (p : option Z) : A Z :=
  match p with
  | None => throw CheckFailed
  | Some p => c ← chunk_of p; mret (requested_size c)
  end.
Definition AllocatedSize (p : Z) : A Z := c ← chunk_of p; mret (size c).
Definition AllocationId (p : Z) : A Z := c ← chunk_of p; mret (allocation_id c).

(** The last chunk of the highest bin that is not empty. *)
Fixpoint largest_in (bins : list (list nat)) : A Z :=
  match bins with
  | [] => mret 0
  | l :: bins' =>
      match last l with
      | Some h => c ← ChunkFromHandle h; mret (size c)
      | None => largest_in bins'
      end
  end.
Definition LargestFreeChunk : A Z := bins ← gets bins_; largest_in (reverse bins).

Definition GetStats : A AllocatorStats := gets stats_.
Definition ClearStats : A bool :=
  modify (fun s => set_stats (mkStats 0 (bytes_in_use (stats_ s)) (bytes_in_use (stats_ s)) 0
                                (bytes_limit (stats_ s))) s);;
  mret true.

(** ** [BFCAllocator] *)

(** [Alloc]: the int64 size becomes a size_t; [*ptr] is written on success. *)
Definition Alloc (nbytes : Z) : A (AsStatus * option Z) :=
  pp ← AllocateRaw 0 (u64 nbytes);
  match pp with
  | None => mret (ALLSPARK_MEMORY_ERROR, None)
  | Some p => mret (ALLSPARK_SUCCESS, Some p)
  end.
Definition Free (p : option Z) : A AsStatus :=
  DeallocateRaw p;;
  mret ALLSPARK_SUCCESS.
Definition RealFree : A unit := DeallocateFreeRegions 0;; mret tt.
Definition FreeAll : A unit := DeallocateAllRegions;; mret tt.
End ops.
End BFCAllocatorImpl.
Import BFCAllocatorImpl.

(** A sub-allocator with [room] bytes left: a block goes a page behind the last
    one, below 2^60. *)
Module PageSubAllocator.
Record t := mk { blocks : list (Z * Z); room : Z }.

Definition next_address (d : t) : Z :=
  foldr (fun b z => Z.max (b.1 + b.2) z) 1044480 (blocks d) + 4096.

#[global] Instance sub : SubAllocator t := {|
  sub_allocate d alignment num_bytes :=
    if (num_bytes <=? room d) && (next_address d + num_bytes <? 2 ^ 60)
    then Some (next_address d, num_bytes,
               mk ((next_address d, num_bytes) :: blocks d) (room d - num_bytes))
    else None;
  sub_free d p num_bytes :=
    mk (match list_find (fun b => b = (p, num_bytes)) (blocks d) with
        | Some (i, _) => delete i (blocks d)
        | None => blocks d
        end) (room d + num_bytes);
  SupportsCoalescing := false;
|}.
End PageSubAllocator.

Definition demo_options : Options := mkOptions true true None.
Definition demo : t PageSubAllocator.t :=
  match new (PageSubAllocator.mk [] 16384) 16384 demo_options with
  | Ok s => s
  | Err _ => mk 0 demo_options 0 0 (PageSubAllocator.mk [] 0) [] [] [] None 0 (mkStats 0 0 0 0 0)
  end.

(** * Size classes *)
Lemma RoundedBytes_small n :
  0 <= n <= 2 ^ 64 - 256 ->
  RoundedBytes n = 256 * ((n + 255) / 256).
Proof.
  intros Hn. unfold RoundedBytes.
  change kMinAllocationSize with 256. replace (n + 256 - 1) with (n + 255) by lia.
  rewrite (u64_small (n + 255)) by lia.
  pose proof (Z.mul_div_le (n + 255) 256 ltac:(lia)).
  pose proof (Z.div_pos (n + 255) 256 ltac:(lia) ltac:(lia)).
  apply u64_small. lia.
Qed.

Lemma Log2_shift n : 256 <= n -> Z.log2 (Z.shiftr n 8) = Z.log2 n - 8.
Proof.
  intros Hn. rewrite Z.log2_shiftr by lia.
  assert (8 <= Z.log2 n); [|lia]. change 8 with (Z.log2 256). by apply Z.log2_le_mono.
Qed.

(** [RoundedBytes]: for every size up to 2^64-256 the result is the least
    multiple of 256 that is not smaller, with no wrap-around; for the sizes
    above it wraps to 0. *)
Theorem RoundedBytes_least_multiple n :
  0 <= n < 2 ^ 64 ->
  if n <=? 2 ^ 64 - 256
  then n <= RoundedBytes n < n + 256 /\ (256 | RoundedBytes n)
  else RoundedBytes n = 0.
Proof.
  intros Hn. destruct (n <=? 2 ^ 64 - 256) eqn:E.
  - apply Z.leb_le in E. rewrite RoundedBytes_small by lia.
    pose proof (Z.mul_div_le (n + 255) 256 ltac:(lia)).
    pose proof (Z.mul_succ_div_gt (n + 255) 256 ltac:(lia)).
    split; [lia|]. apply Z.divide_factor_l.
  - apply Z.leb_gt in E. unfold RoundedBytes. change kMinAllocationSize with 256.
    assert (u64 (n + 256 - 1) = n + 255 - 2 ^ 64) as ->.
    { unfold u64. symmetry. apply Z.mod_unique with 1; lia. }
    by rewrite Z.div_small by lia.
Qed.

Lemma RoundedBytes_least_multiple_witness :
  (1000 <= RoundedBytes 1000 < 1256 /\ (256 | RoundedBytes 1000)) /\
  RoundedBytes (2 ^ 64 - 1) = 0.
Proof.
  split.
  - exact (RoundedBytes_least_multiple 1000 ltac:(lia)).
  - exact (RoundedBytes_least_multiple (2 ^ 64 - 1) ltac:(lia)).
Defined.

(** [BinNumForSize] is the size class of a chunk: bin [b] holds the sizes
    from [BinNumToSize b] up to twice that, the last bin everything above, sizes
    below 256 go to bin 0, and the class never decreases with the size, so a
    search from the class of a request on meets every chunk that can serve it.
    Every bin passes the checks the constructor makes. *)
Theorem BinNumForSize_class n :
  0 <= n < 2 ^ 64 ->
  let b := BinNumForSize n in
  0 <= b < kNumBins /\
  (256 <= n -> BinNumToSize b <= n) /\
  (b < kNumBins - 1 -> n < 2 * BinNumToSize b) /\
  (forall m, n <= m -> b <= BinNumForSize m) /\
  forallb check_bin (seqZ 0 kNumBins) = true.
Proof.
  intros Hn b. unfold b, BinNumForSize, Log2FloorNonZero, kNumBins.
  change kMinAllocationBits with 8.
  set (v := Z.max n 256). assert (Hv : 256 <= v < 2 ^ 64) by lia.
  rewrite (Log2_shift v) by lia.
  assert (8 <= Z.log2 v) as Hl by (change 8 with (Z.log2 256); apply Z.log2_le_mono; lia).
  pose proof (Z.log2_spec v ltac:(lia)) as [Hlo Hhi].
  assert (Hsz : forall k, 0 <= k <= 20 -> BinNumToSize k = 2 ^ (k + 8)).
  { intros k Hk. unfold BinNumToSize. rewrite Z.shiftl_mul_pow2 by lia.
    change 256 with (2 ^ 8). rewrite <- Z.pow_add_r by lia.
    rewrite (Z.add_comm 8). apply u64_small. split; [lia|].
    apply Z.pow_lt_mono_r; lia. }
  split; [lia|]. split; [|split; [|split; [|reflexivity]]].
  - intros Hn2. rewrite Hsz by lia. replace v with n in * by lia.
    etrans; [|exact Hlo]. apply Z.pow_le_mono_r; lia.
  - intros Hb. rewrite Hsz by lia. rewrite Z.min_r by lia.
    replace (Z.log2 v - 8 + 8) with (Z.log2 v) by lia.
    rewrite Z.pow_succ_r in Hhi by lia. lia.
  - intros m Hm. rewrite Log2_shift by lia.
    pose proof (Z.log2_le_mono v (Z.max m 256) ltac:(lia)). lia.
Qed.

Lemma BinNumForSize_class_witness :
  BinNumToSize (BinNumForSize 5120) <= 5120 < 2 * BinNumToSize (BinNumForSize 5120).
Proof.
  destruct (BinNumForSize_class 5120 ltac:(lia)) as (_ & H1 & H2 & _).
  split; [apply H1; lia|apply H2; by vm_compute].
Defined.

(** * Defects *)

(** Handle 0 is the first chunk ever made, but [DeallocateRawInternal] takes
    it for "not found": whatever pointer resolves to handle 0 is not freed and
    nothing changes.  On a fresh allocator the first allocation is such a
    pointer; after it is freed its 1024 bytes still count as in use. *)
Theorem first_chunk_never_freed :
  (forall (D : Type) (HD : SubAllocator D) (s : t D) p,
     RegionManager.get_handle (regions_ s) p = Some (Some 0%nat) ->
     Free (Some p) s = (Ok ALLSPARK_SUCCESS, s)) /\
  (exists s p, ('(_, p) ← Alloc 1000; Free p;; mret p) demo = (Ok (Some p), s) /\
     RegionManager.get_handle (regions_ s) p = Some (Some 0%nat) /\
     bytes_in_use (stats_ s) = 1024 /\
     in_use <$> chunks_ s !! 0%nat = Some true).
Proof.
  split.
  - intros D HD s p Hp. unfold Free, DeallocateRaw, DeallocateRawInternal, get_handle.
    unfold mbind, M_bind. rewrite Hp. reflexivity.
  - do 2 eexists. split; [vm_compute; reflexivity|]. by vm_compute.
Qed.

(** A negative size is not refused: [Alloc (-1)] becomes a request of
    2^64-1 bytes, which rounds to 0; the allocator splits a chunk into a
    zero-byte one and the rest at the same address, and reports success.
    Freeing that pointer then fails the fatal check of [MarkFree]. *)
Theorem Alloc_negative_succeeds :
  exists p s1 s2,
    (Alloc 1000;; Alloc (-1)) demo = (Ok (ALLSPARK_SUCCESS, Some p), s1) /\
    size <$> chunks_ s1 !! 1%nat = Some 0 /\
    Free (Some p) s1 = (Err CheckFailed, s2).
Proof.
  do 3 eexists. split; [vm_compute; reflexivity|].
  split; [reflexivity|]. vm_compute. reflexivity.
Qed.
