(* ===== verification/BfcLayout.v ===== *)
(** The layout of the BFC allocator's heap: each region is tiled by a chain of
    linked chunks, its handle table names exactly their addresses, the unused
    handles form a list, and the bins hold sorted sets of free chunks.  The
    predicates of the invariant and how they change when a chunk is split,
    merged, binned, added or deleted. *)
From stdpp Require Import base list gmap strings fin_maps sorting.
From S2P Require Import Prelude Bfc.
Import BFCAllocatorImpl.
Import AllocationRegion (ptr_, memory_size_, end_ptr_, handles_).

(** * Chains of chunks *)

(** The fields that place a chunk. *)
Definition geo (c : Chunk) : Z * Z * handle * handle := (ptr c, size c, prev c, next c).

Lemma geo_ptr (a b : option Chunk) : geo <$> a = geo <$> b -> ptr <$> a = ptr <$> b.
Proof. destruct a, b; simpl; try done. by intros [= -> _ _ _]. Qed.

Lemma geo_next (a b : option Chunk) : geo <$> a = geo <$> b -> next <$> a = next <$> b.
Proof. destruct a, b; simpl; try done. by intros [= _ _ _ ->]. Qed.

Lemma geo_Some_ptr (a : option Chunk) p s u v :
  geo <$> a = Some (p, s, u, v) -> ptr <$> a = Some p.
Proof. destruct a; simpl; try done. by intros [= -> _ _ _]. Qed.

Definition hd (l : list nat) (nx : handle) : handle :=
  match l with [] => nx | x :: _ => Some x end.
Fixpoint lst (pv : handle) (l : list nat) : handle :=
  match l with [] => pv | x :: l' => lst (Some x) l' end.

(** The chunks [l] tile [p .. e) in order; [pv] and [nx] are the chunks
    before and after. *)
Fixpoint seg (cs : list Chunk) (pv : handle) (p : Z) (l : list nat) (e : Z) (nx : handle)
    : Prop :=
  match l with
  | [] => p = e
  | x :: l' =>
      exists c, cs !! x = Some c /\ ptr c = p /\ prev c = pv /\ next c = hd l' nx /\
        0 < size c /\ (256 | size c) /\ seg cs (Some x) (p + size c) l' e nx
  end.

Lemma seg_app cs pv p l1 l2 e nx :
  seg cs pv p (l1 ++ l2) e nx <->
  exists m, seg cs pv p l1 m (hd l2 nx) /\ seg cs (lst pv l1) m l2 e nx.
Proof.
  revert pv p. induction l1 as [|x l1 IH]; intros pv p; simpl.
  - split; [intros H; by exists p|]. by intros (m & -> & H).
  - assert (hd (l1 ++ l2) nx = hd l1 (hd l2 nx)) as -> by by destruct l1.
    setoid_rewrite IH. naive_solver.
Qed.

Lemma seg_frame cs cs' pv p l e nx :
  (forall x, x ∈ l -> geo <$> cs' !! x = geo <$> cs !! x) ->
  seg cs pv p l e nx -> seg cs' pv p l e nx.
Proof.
  revert pv p. induction l as [|x l IH]; intros pv p Hf; simpl; [done|].
  intros (c & Hc & Hp & Hpv & Hn & H0 & Hd & Hs).
  pose proof (Hf x ltac:(by left)) as Hx. rewrite Hc in Hx. simpl in Hx.
  destruct (cs' !! x) as [c'|] eqn:E; [|done]. simpl in Hx.
  injection Hx as E1 E2 E3 E4.
  exists c'. rewrite E1, E2, E3, E4. repeat (split; [done|]).
  apply IH; [|done]. intros y Hy. apply Hf. by right.
Qed.

(** Only the first chunk's predecessor changes. *)
Lemma seg_prev cs cs' pv pv' p l e nx :
  (forall x, x ∈ tail l -> geo <$> cs' !! x = geo <$> cs !! x) ->
  (forall x c, head l = Some x -> cs !! x = Some c ->
     geo <$> cs' !! x = Some (ptr c, size c, pv', next c)) ->
  seg cs pv p l e nx -> seg cs' pv' p l e nx.
Proof.
  destruct l as [|x l]; simpl; [done|].
  intros Ht Hh (c & Hc & Hp & Hpv & Hn & H0 & Hd & Hs).
  pose proof (Hh x c eq_refl Hc) as Hx.
  destruct (cs' !! x) as [c'|] eqn:E; [|done]. simpl in Hx.
  injection Hx as E1 E2 E3 E4.
  exists c'. rewrite E1, E2, E3, E4. repeat (split; [done|]).
  by eapply seg_frame.
Qed.

Lemma seg_le cs pv p l e nx : seg cs pv p l e nx -> p <= e.
Proof.
  revert pv p. induction l as [|x l IH]; intros pv p; simpl; [lia|].
  intros (c & _ & _ & _ & _ & H0 & _ & Hs). apply IH in Hs. lia.
Qed.

Lemma seg_elem cs pv p l e nx x :
  seg cs pv p l e nx -> x ∈ l ->
  exists c, cs !! x = Some c /\ p <= ptr c /\ ptr c + size c <= e /\
    0 < size c /\ (256 | size c) /\ (256 | ptr c - p).
Proof.
  revert pv p. induction l as [|y l IH]; intros pv p Hs Hx; [by apply elem_of_nil in Hx|].
  simpl in Hs. destruct Hs as (c & Hc & Hp & _ & _ & H0 & Hd & Hs).
  apply elem_of_cons in Hx as [->|Hx].
  - exists c. apply seg_le in Hs. repeat split; try lia; try done.
    rewrite Hp, Z.sub_diag. apply Z.divide_0_r.
  - destruct (IH _ _ Hs Hx) as (c' & Hc' & Hle & He & Hpos & Hd' & Hd2).
    exists c'. repeat split; try lia; try done.
    replace (ptr c' - p) with (ptr c' - (p + size c) + size c) by lia.
    by apply Z.divide_add_r.
Qed.

(** The links out of a chunk stay inside the chain. *)
Lemma seg_next cs p l e x c n :
  seg cs None p l e None -> x ∈ l -> cs !! x = Some c -> next c = Some n ->
  exists l1 l2, l = l1 ++ x :: n :: l2.
Proof.
  intros Hs Hx Hc Hn. apply list_elem_of_split in Hx as (l1 & l2 & ->).
  apply seg_app in Hs as (m & _ & Hs). simpl in Hs.
  destruct Hs as (c' & Hc' & _ & _ & Hn' & _). simplify_eq.
  rewrite Hn in Hn'. destruct l2 as [|y l2]; simpl in Hn'; simplify_eq. eauto.
Qed.

Lemma lst_snoc pv l x : lst pv (l ++ [x]) = Some x.
Proof. revert pv. induction l as [|y l IH]; intros pv; simpl; [done|apply IH]. Qed.

Lemma seg_prev_link cs p l e x c n :
  seg cs None p l e None -> x ∈ l -> cs !! x = Some c -> prev c = Some n ->
  exists l1 l2, l = l1 ++ n :: x :: l2.
Proof.
  intros Hs Hx Hc Hn. apply list_elem_of_split in Hx as (l1 & l2 & ->).
  apply seg_app in Hs as (m & _ & Hs). simpl in Hs.
  destruct Hs as (c' & Hc' & _ & Hp & _). simplify_eq. rewrite Hn in Hp.
  destruct l1 as [|y l1 _] using rev_ind; simpl in Hp; [done|].
  rewrite lst_snoc in Hp. simplify_eq. exists l1, l2. by rewrite <- app_assoc.
Qed.

(** Two blocks without a common byte. *)
Definition apart (a b : Z * Z) : Prop := a.1 + a.2 <= b.1 \/ b.1 + b.2 <= a.1.

Lemma seg_apart cs pv p l e nx x y c d :
  seg cs pv p l e nx -> x ∈ l -> y ∈ l -> x <> y ->
  cs !! x = Some c -> cs !! y = Some d -> apart (ptr c, size c) (ptr d, size d).
Proof.
  revert pv p. induction l as [|z l IH]; intros pv p Hs Hx Hy Hxy Hc Hd.
  { by apply elem_of_nil in Hx. }
  simpl in Hs. destruct Hs as (z' & Hz & Hp & _ & _ & H0 & _ & Hs).
  apply elem_of_cons in Hx as [->|Hx]; apply elem_of_cons in Hy as [->|Hy].
  - done.
  - destruct (seg_elem _ _ _ _ _ _ _ Hs Hy) as (d' & ? & ? & _). simplify_eq.
    left. simpl. lia.
  - destruct (seg_elem _ _ _ _ _ _ _ Hs Hx) as (d' & ? & ? & _). simplify_eq.
    right. simpl. lia.
  - by eapply IH.
Qed.

Lemma seg_ptr_inj cs pv p l e nx x y c d :
  seg cs pv p l e nx -> x ∈ l -> y ∈ l ->
  cs !! x = Some c -> cs !! y = Some d -> ptr c = ptr d -> x = y.
Proof.
  intros Hs Hx Hy Hc Hd He. destruct (decide (x = y)) as [|Hne]; [done|].
  pose proof (seg_apart _ _ _ _ _ _ _ _ _ _ Hs Hx Hy Hne Hc Hd) as [H|H]; simpl in H.
  - destruct (seg_elem _ _ _ _ _ _ _ Hs Hx) as (? & ? & ? & ? & ? & _). simplify_eq. lia.
  - destruct (seg_elem _ _ _ _ _ _ _ Hs Hy) as (? & ? & ? & ? & ? & _). simplify_eq. lia.
Qed.

(** ** Splitting and merging *)
Lemma seg_split cs cs' pv p l1 h l2 e nx c n k :
  NoDup (l1 ++ h :: l2) -> n ∉ l1 ++ h :: l2 ->
  cs !! h = Some c -> 0 < k < size c -> (256 | k) ->
  geo <$> cs' !! h = Some (ptr c, k, prev c, Some n) ->
  geo <$> cs' !! n = Some (ptr c + k, size c - k, Some h, next c) ->
  (forall x, x ∈ l1 ++ tail l2 -> geo <$> cs' !! x = geo <$> cs !! x) ->
  (forall x d, head l2 = Some x -> cs !! x = Some d ->
     geo <$> cs' !! x = Some (ptr d, size d, Some n, next d)) ->
  seg cs pv p (l1 ++ h :: l2) e nx -> seg cs' pv p (l1 ++ h :: n :: l2) e nx.
Proof.
  intros Hnd Hn Hc Hk Hdk Hh' Hn' Hf Hf2 Hs.
  apply seg_app in Hs as (m & Hs1 & Hs2). apply seg_app. exists m. split.
  { eapply seg_frame; [|exact Hs1]. intros x Hx. apply Hf. set_solver. }
  simpl in Hs2 |- *.
  destruct Hs2 as (c' & Hc' & Hp & Hpv & Hnx & Hpos & Hd & Hs2). simplify_eq.
  destruct (cs' !! h) as [ch|] eqn:Eh; [|done]. injection Hh' as E1 E2 E3 E4.
  exists ch. rewrite E1, E2, E3, E4. repeat (split; [done || lia|]).
  destruct (cs' !! n) as [cn|] eqn:En; [|done]. injection Hn' as F1 F2 F3 F4.
  exists cn. rewrite F1, F2, F3, F4. repeat (split; [done || lia|]).
  split; [by apply Z.divide_sub_r|].
  replace (ptr c + k + (size c - k)) with (ptr c + size c) by lia.
  eapply seg_prev; [..|exact Hs2]; [|done].
  intros x Hx. apply Hf. set_solver.
Qed.

Lemma seg_merge cs cs' pv p l1 h n l2 e nx c d :
  cs !! h = Some c -> cs !! n = Some d ->
  geo <$> cs' !! h = Some (ptr c, size c + size d, prev c, next d) ->
  (forall x, x ∈ l1 ++ tail l2 -> geo <$> cs' !! x = geo <$> cs !! x) ->
  (forall x a, head l2 = Some x -> cs !! x = Some a ->
     geo <$> cs' !! x = Some (ptr a, size a, Some h, next a)) ->
  seg cs pv p (l1 ++ h :: n :: l2) e nx -> seg cs' pv p (l1 ++ h :: l2) e nx.
Proof.
  intros Hc Hd Hh' Hf Hf2 Hs.
  apply seg_app in Hs as (m & Hs1 & Hs2). apply seg_app. exists m. split.
  { eapply seg_frame; [|exact Hs1]. intros x Hx. apply Hf. set_solver. }
  simpl in Hs2 |- *.
  destruct Hs2 as (c' & Hc' & Hp & Hpv & Hnx & Hpos & Hdv & d' & Hd' & Hp2 & Hpv2 & Hnx2 &
    Hpos2 & Hdv2 & Hs2). simplify_eq.
  destruct (cs' !! h) as [ch|] eqn:Eh; [|done]. injection Hh' as E1 E2 E3 E4.
  exists ch. rewrite E1, E2, E3, E4. repeat (split; [done || lia|]).
  split; [by apply Z.divide_add_r|].
  rewrite Z.add_assoc. eapply seg_prev; [..|exact Hs2]; [|done].
  intros x Hx. apply Hf. set_solver.
Qed.

(** * Handle tables *)
Abbreviation region := AllocationRegion.t.

Record region_ok (cs : list Chunk) (r : region) (l : list nat) : Prop := mkRegionOk {
  ro_ptr : 0 < ptr_ r;
  ro_size : 0 < memory_size_ r;
  ro_mult : (256 | memory_size_ r);
  ro_end : end_ptr_ r = ptr_ r + memory_size_ r;
  ro_max : end_ptr_ r < 2 ^ 64;
  ro_len : length (handles_ r) = Z.to_nat (memory_size_ r / 256);
  ro_seg : seg cs None (ptr_ r) l (end_ptr_ r) None;
  ro_tab : forall i h, handles_ r !! i = Some (Some h) <->
    h ∈ l /\ exists c, cs !! h = Some c /\ ptr c = ptr_ r + 256 * Z.of_nat i;
}.

Lemma IndexFor_eq r p :
  0 <= p - ptr_ r < 2 ^ 64 -> AllocationRegion.IndexFor r p = Z.to_nat ((p - ptr_ r) / 256).
Proof.
  intros Hp. unfold AllocationRegion.IndexFor. rewrite u64_small by lia.
  by rewrite Z.shiftr_div_pow2 by (unfold kMinAllocationBits; lia).
Qed.

Lemma region_index cs r l x c :
  region_ok cs r l -> x ∈ l -> cs !! x = Some c ->
  ptr c = ptr_ r + 256 * Z.of_nat (AllocationRegion.IndexFor r (ptr c)) /\
  (AllocationRegion.IndexFor r (ptr c) < length (handles_ r))%nat /\
  ptr_ r <= ptr c < end_ptr_ r.
Proof.
  intros Hr Hx Hc. destruct Hr as [Hp Hs Hm He Hmax Hl Hseg _].
  destruct (seg_elem _ _ _ _ _ _ _ Hseg Hx) as (c' & ? & Hle & Hee & Hpos & Hd & Hd2).
  simplify_eq. destruct Hm as [km Hm]. destruct Hd2 as [k2 Hk2]. destruct Hd as [k1 Hk1].
  rewrite IndexFor_eq by lia. rewrite Hk2, Z.div_mul by lia.
  rewrite Hl, Hm, Z.div_mul by lia. rewrite Z2Nat.id by lia. lia.
Qed.

Lemma region_get_handle cs r l x c :
  region_ok cs r l -> x ∈ l -> cs !! x = Some c ->
  AllocationRegion.get_handle r (ptr c) = Some (Some x).
Proof.
  intros Hr Hx Hc. destruct (region_index _ _ _ _ _ Hr Hx Hc) as (Hi & _ & _).
  unfold AllocationRegion.get_handle. apply (ro_tab _ _ _ Hr). split; [done|]. by exists c.
Qed.

Lemma set_handle_eq cs r l x c h :
  region_ok cs r l -> x ∈ l -> cs !! x = Some c ->
  forall p, ptr c <= p < ptr c + size c -> (256 | p - ptr c) ->
  exists i, p = ptr_ r + 256 * Z.of_nat i /\ (i < length (handles_ r))%nat /\
    AllocationRegion.set_handle p h r =
    Some (AllocationRegion.mk (ptr_ r) (memory_size_ r) (end_ptr_ r) (<[i := h]> (handles_ r))).
Proof.
  intros Hr Hx Hc p Hp Hdp.
  destruct (seg_elem _ _ _ _ _ _ _ (ro_seg _ _ _ Hr) Hx)
    as (c' & ? & Hle & Hee & Hpos & Hd & Hd2). simplify_eq.
  destruct Hr as [Hp0 Hs Hm He Hmax Hl Hseg _].
  exists (AllocationRegion.IndexFor r p).
  assert (p = ptr_ r + 256 * Z.of_nat (AllocationRegion.IndexFor r p) /\
          (AllocationRegion.IndexFor r p < length (handles_ r))%nat) as [Hi Hlt].
  { destruct Hm as [km Hm]. destruct Hd2 as [k2 Hk2]. destruct Hdp as [k3 Hk3].
    destruct Hd as [k4 Hk4].
    rewrite IndexFor_eq by lia. replace (p - ptr_ r) with ((k2 + k3) * 256) by lia.
    rewrite Z.div_mul by lia. rewrite Hl, Hm, Z.div_mul by lia.
    rewrite Z2Nat.id by lia. lia. }
  split; [done|]. split; [done|]. unfold AllocationRegion.set_handle.
  by apply Nat.ltb_lt in Hlt as ->.
Qed.

Lemma region_ok_frame cs cs' r l :
  (forall x, x ∈ l -> geo <$> cs' !! x = geo <$> cs !! x) ->
  region_ok cs r l -> region_ok cs' r l.
Proof.
  intros Hf [? ? ? ? ? ? Hs Ht]. split; try done.
  - by eapply seg_frame.
  - intros i h. rewrite Ht. split; intros (Hh & c & Hc & Hp); split; try done;
      pose proof (Hf h Hh) as E; rewrite Hc in E; simpl in E.
    + destruct (cs' !! h) as [c'|]; [|done]. injection E as E _ _ _. exists c'. by rewrite E.
    + destruct (cs !! h) as [c'|]; [|done]. injection E as E _ _ _. exists c'. by rewrite <- E.
Qed.

(** A new name for the address of entry [i], which had none. *)
Lemma region_ok_add cs cs' r l l' n d i :
  region_ok cs r l -> (i < length (handles_ r))%nat ->
  (forall x, x ∈ l' <-> x = n \/ x ∈ l) -> n ∉ l ->
  (forall x, x ∈ l -> ptr <$> cs' !! x = ptr <$> cs !! x) ->
  cs' !! n = Some d -> ptr d = ptr_ r + 256 * Z.of_nat i ->
  seg cs' None (ptr_ r) l' (end_ptr_ r) None ->
  region_ok cs' (AllocationRegion.mk (ptr_ r) (memory_size_ r) (end_ptr_ r)
                   (<[i := Some n]> (handles_ r))) l'.
Proof.
  intros [? ? ? ? ? Hl _ Ht] Hi Hm Hn Hf Hd Hp Hs. split; simpl; try done.
  { by rewrite length_insert. }
  intros j h. destruct (decide (i = j)) as [<-|Hne].
  - rewrite list_lookup_insert_eq by done. split.
    + intros [= <-]. split; [apply Hm; by left|]. by exists d.
    + intros (Hh & c & Hc & Hpc). do 2 f_equal.
      eapply (seg_ptr_inj _ _ _ _ _ _ n h d c Hs); try done; [apply Hm; by left|congruence].
  - rewrite list_lookup_insert_ne by done. rewrite Ht.
    split; intros (Hh & c & Hc & Hpc).
    + split; [apply Hm; by right|]. pose proof (Hf h Hh) as E. rewrite Hc in E.
      destruct (cs' !! h) as [c'|]; [|done]. exists c'. split; [done|].
      injection E as E. by rewrite E.
    + apply Hm in Hh as [->|Hh].
      * exfalso. simplify_eq. lia.
      * split; [done|]. pose proof (Hf h Hh) as E. rewrite Hc in E.
        destruct (cs !! h) as [c'|]; [|done]. exists c'. split; [done|].
        injection E as E. by rewrite <- E.
Qed.

(** The name [n] disappears. *)
Lemma region_ok_remove cs cs' r l l' n d i :
  region_ok cs r l -> (i < length (handles_ r))%nat ->
  (forall x, x ∈ l <-> x = n \/ x ∈ l') -> n ∉ l' ->
  (forall x, x ∈ l' -> ptr <$> cs' !! x = ptr <$> cs !! x) ->
  cs !! n = Some d -> ptr d = ptr_ r + 256 * Z.of_nat i ->
  seg cs' None (ptr_ r) l' (end_ptr_ r) None ->
  region_ok cs' (AllocationRegion.mk (ptr_ r) (memory_size_ r) (end_ptr_ r)
                   (<[i := None]> (handles_ r))) l'.
Proof.
  intros [? ? ? ? ? Hl Hs0 Ht] Hi Hm Hn Hf Hd Hp Hs. split; simpl; try done.
  { by rewrite length_insert. }
  intros j h. destruct (decide (i = j)) as [<-|Hne].
  - rewrite list_lookup_insert_eq by done. split; [done|].
    intros (Hh & c & Hc & Hpc). exfalso. apply Hn.
    pose proof (Hf h Hh) as E. rewrite Hc in E.
    destruct (cs !! h) as [c'|] eqn:Ec; [|done]. injection E as E.
    assert (n = h) as ->; [|done].
    eapply (seg_ptr_inj _ _ _ _ _ _ n h d c' Hs0); try done; [apply Hm; by left|apply Hm; by right|].
    congruence.
  - rewrite list_lookup_insert_ne by done. rewrite Ht.
    split; intros (Hh & c & Hc & Hpc).
    + apply Hm in Hh as [->|Hh]; [exfalso; simplify_eq; lia|].
      split; [done|]. pose proof (Hf h Hh) as E. rewrite Hc in E.
      destruct (cs' !! h) as [c'|]; [|done]. exists c'. split; [done|].
      injection E as E. by rewrite E.
    + split; [apply Hm; by right|]. pose proof (Hf h Hh) as E. rewrite Hc in E.
      destruct (cs !! h) as [c'|]; [|done]. exists c'. split; [done|].
      injection E as E. by rewrite <- E.
Qed.

(** * The whole space *)

(** The list of unused handles, linked through [next]. *)
Fixpoint chain (cs : list Chunk) (fl : handle) (u : list nat) : Prop :=
  match u with
  | [] => fl = None
  | x :: u' => fl = Some x /\ exists c, cs !! x = Some c /\ chain cs (next c) u'
  end.

Lemma chain_frame cs cs' fl u :
  (forall x, x ∈ u -> next <$> cs' !! x = next <$> cs !! x) ->
  chain cs fl u -> chain cs' fl u.
Proof.
  revert fl. induction u as [|x u IH]; intros fl Hf; simpl; [done|].
  intros (-> & c & Hc & Hu). split; [done|].
  pose proof (Hf x ltac:(by left)) as E. rewrite Hc in E. simpl in E.
  destruct (cs' !! x) as [c'|]; [|done]. injection E as E. exists c'. split; [done|].
  rewrite E. apply IH; [|done]. intros y Hy. apply Hf. by right.
Qed.

Definition unused_ok (cs : list Chunk) (u : list nat) : Prop :=
  forall h, h ∈ u -> exists c, cs !! h = Some c /\ allocation_id c = -1 /\ bin_num c = None.

Definition before (r r' : region) : Prop := end_ptr_ r <= ptr_ r'.

(** [lay] lists the chunks of each region and [u] the unused handles. *)
Record space (cs : list Chunk) (fl : handle) (regions : list region) (lay : list (list nat))
    (u : list nat) : Prop := mkSpace {
  sp_regions : Forall2 (region_ok cs) regions lay;
  sp_sorted : StronglySorted before regions;
  sp_perm : concat lay ++ u ≡ₚ seq 0 (length cs);
  sp_free : chain cs fl u;
  sp_unused : unused_ok cs u;
}.

Lemma concat_lookup {A} (lay : list (list A)) i l :
  lay !! i = Some l ->
  concat lay ≡ₚ l ++ concat (delete i lay) /\
  forall l', concat (<[i := l']> lay) ≡ₚ l' ++ concat (delete i lay).
Proof.
  intros Hi. split.
  - revert i Hi. induction lay as [|m lay IH]; intros [|i] Hi; simplify_eq/=; [done|].
    rewrite (IH _ Hi). by rewrite !app_assoc, (Permutation_app_comm m l).
  - intros l'. revert i Hi. induction lay as [|m lay IH]; intros [|i] Hi; simplify_eq/=; [done|].
    rewrite (IH _ Hi). by rewrite !app_assoc, (Permutation_app_comm m l').
Qed.

Lemma elem_of_concat {A} (lay : list (list A)) x :
  x ∈ concat lay <-> exists i l, lay !! i = Some l /\ x ∈ l.
Proof.
  rewrite list_elem_of_In, in_concat. setoid_rewrite <- list_elem_of_In.
  split.
  - intros (l & Hl & Hx). apply list_elem_of_lookup in Hl as [i Hi]. eauto.
  - intros (i & l & Hi & Hx). exists l. split; [by eapply list_elem_of_lookup_2|done].
Qed.

Lemma sorted_before rs i j r r' :
  StronglySorted before rs -> (i < j)%nat -> rs !! i = Some r -> rs !! j = Some r' ->
  end_ptr_ r <= ptr_ r'.
Proof.
  intros H. revert i j. induction H as [|a l Hs IH Hf]; intros i j Hij Hi Hj; [done|].
  destruct j as [|j]; [lia|]. simpl in Hj. destruct i as [|i]; simplify_eq/=.
  - rewrite Forall_lookup in Hf. by apply (Hf j).
  - eapply (IH i j); [lia|done..].
Qed.

Lemma sorted_ranges rs :
  StronglySorted before rs <->
  StronglySorted (fun a b => a.2 <= b.1) ((fun r => (ptr_ r, end_ptr_ r)) <$> rs).
Proof.
  induction rs as [|a rs IH]; simpl; [split; constructor|].
  split; intros H; apply StronglySorted_inv in H as [Hs Hf]; constructor.
  - by apply IH.
  - by apply Forall_fmap.
  - by apply IH.
  - apply (Forall_fmap (fun r => (ptr_ r, end_ptr_ r))) in Hf.
    eapply Forall_impl; [exact Hf|]. done.
Qed.

(** The region of an address inside it is found by its position. *)
Lemma RegionFor_sorted rs i r p :
  StronglySorted before rs -> rs !! i = Some r -> ptr_ r <= p < end_ptr_ r ->
  RegionManager.RegionFor rs p = Some i.
Proof.
  intros Hs Hi Hp. unfold RegionManager.RegionFor.
  assert (RegionManager.upper_bound rs p = i) as ->.
  { unfold RegionManager.upper_bound.
    assert (list_find (fun r => p < end_ptr_ r) rs = Some (i, r)) as ->; [|done].
    apply list_find_Some. split; [done|]. split; [lia|].
    intros j r' Hj Hlt. pose proof (sorted_before _ _ _ _ _ Hs Hlt Hj Hi). lia. }
  apply lookup_lt_Some in Hi. by apply Nat.ltb_lt in Hi as ->.
Qed.

Lemma upper_bound_split rs p :
  StronglySorted before rs -> Forall (fun r => ptr_ r < end_ptr_ r) rs ->
  Forall (fun r => end_ptr_ r <= p) (take (RegionManager.upper_bound rs p) rs) /\
  Forall (fun r => p < end_ptr_ r) (drop (RegionManager.upper_bound rs p) rs).
Proof.
  intros Hs Hr. unfold RegionManager.upper_bound.
  destruct (list_find (fun r => p < end_ptr_ r) rs) as [[i r]|] eqn:E.
  - apply list_find_Some in E as (Hi & Hp & Hb). split; apply Forall_lookup; intros j r' Hj.
    + apply lookup_take_Some in Hj as [Hj Hlt]. specialize (Hb _ _ Hj Hlt). lia.
    + rewrite lookup_drop in Hj. destruct j as [|j].
      { rewrite Nat.add_0_r in Hj. by simplify_eq. }
      pose proof (sorted_before rs i (i + S j) r r' Hs ltac:(lia) Hi Hj).
      rewrite Forall_lookup in Hr. specialize (Hr _ _ Hj). simpl in Hr. lia.
  - apply list_find_None in E. rewrite take_ge, drop_ge by done. split; [|done].
    eapply Forall_impl; [exact E|]. simpl. lia.
Qed.

Section space.
Context {cs : list Chunk} {fl : handle} {rs : list region} {lay : list (list nat)} {u : list nat}.
Context (Hsp : space cs fl rs lay u).

Lemma sp_nodup : NoDup (concat lay ++ u).
Proof using Hsp. rewrite (sp_perm _ _ _ _ _ Hsp). apply NoDup_seq. Qed.

Lemma sp_not_unused x : x ∈ concat lay -> x ∉ u.
Proof using Hsp. intros Hx Hu. pose proof sp_nodup as H. apply NoDup_app in H. set_solver. Qed.

Lemma sp_bound x : x ∈ concat lay \/ x ∈ u <-> (x < length cs)%nat.
Proof using Hsp.
  rewrite <- elem_of_app, (sp_perm _ _ _ _ _ Hsp), elem_of_seq. lia.
Qed.

Lemma sp_region i l : lay !! i = Some l -> exists r, rs !! i = Some r /\ region_ok cs r l.
Proof using Hsp.
  intros Hi. destruct (Forall2_lookup_r _ _ _ _ _ (sp_regions _ _ _ _ _ Hsp) Hi) as (r & ? & ?).
  eauto.
Qed.

Lemma sp_live x : x ∈ concat lay ->
  exists i r l c, rs !! i = Some r /\ lay !! i = Some l /\ region_ok cs r l /\ x ∈ l /\
    cs !! x = Some c.
Proof using Hsp.
  intros Hx. apply elem_of_concat in Hx as (i & l & Hi & Hx).
  destruct (sp_region _ _ Hi) as (r & Hr & Hok).
  destruct (seg_elem _ _ _ _ _ _ _ (ro_seg _ _ _ Hok) Hx) as (c & Hc & _). eauto 10.
Qed.

Lemma sp_list_nodup i l : lay !! i = Some l -> NoDup l.
Proof using Hsp.
  intros Hi. pose proof sp_nodup as H. rewrite (proj1 (concat_lookup _ _ _ Hi)) in H.
  rewrite <- app_assoc in H. by apply NoDup_app in H as [? _].
Qed.

(** Regions do not overlap. *)
Lemma sp_before i j r r' :
  (i < j)%nat -> rs !! i = Some r -> rs !! j = Some r' -> end_ptr_ r <= ptr_ r'.
Proof using Hsp. eapply sorted_before, sp_sorted, Hsp. Qed.

Lemma sp_apart x y c d :
  x ∈ concat lay -> y ∈ concat lay -> x <> y -> cs !! x = Some c -> cs !! y = Some d ->
  apart (ptr c, size c) (ptr d, size d).
Proof using Hsp.
  intros Hx Hy Hne Hc Hd.
  destruct (sp_live _ Hx) as (i & r & l & c' & Hi & Hli & Hok & Hxl & ?). simplify_eq.
  destruct (sp_live _ Hy) as (j & r' & l' & d' & Hj & Hlj & Hok' & Hyl & ?). simplify_eq.
  destruct (decide (i = j)) as [<-|Hij].
  { simplify_eq. by eapply (seg_apart _ _ _ _ _ _ x y); [apply (ro_seg _ _ _ Hok)|..]. }
  destruct (seg_elem _ _ _ _ _ _ _ (ro_seg _ _ _ Hok) Hxl) as (? & ? & ? & ? & ? & _).
  destruct (seg_elem _ _ _ _ _ _ _ (ro_seg _ _ _ Hok') Hyl) as (? & ? & ? & ? & ? & _).
  simplify_eq. destruct (decide (i < j)%nat) as [Hlt|Hge].
  - pose proof (sp_before _ _ _ _ Hlt Hi Hj). left. simpl. lia.
  - pose proof (sp_before j i _ _ ltac:(lia) Hj Hi). right. simpl. lia.
Qed.

Lemma sp_ptr_inj x y c d :
  x ∈ concat lay -> y ∈ concat lay -> cs !! x = Some c -> cs !! y = Some d ->
  ptr c = ptr d -> x = y.
Proof using Hsp.
  intros Hx Hy Hc Hd He. destruct (decide (x = y)) as [|Hne]; [done|].
  destruct (sp_live _ Hx) as (i & r & l & c' & Hi & Hli & Hok & Hxl & ?). simplify_eq.
  destruct (sp_live _ Hy) as (j & r' & l' & d' & Hj & Hlj & Hok' & Hyl & ?). simplify_eq.
  destruct (seg_elem _ _ _ _ _ _ _ (ro_seg _ _ _ Hok) Hxl) as (? & ? & ? & ? & ? & _).
  destruct (seg_elem _ _ _ _ _ _ _ (ro_seg _ _ _ Hok') Hyl) as (? & ? & ? & ? & ? & _).
  simplify_eq. destruct (sp_apart _ _ _ _ Hx Hy Hne Hc Hd) as [Ha|Ha]; simpl in Ha; lia.
Qed.

Lemma RegionFor_in i r p :
  rs !! i = Some r -> ptr_ r <= p < end_ptr_ r -> RegionManager.RegionFor rs p = Some i.
Proof using Hsp. eapply RegionFor_sorted, sp_sorted, Hsp. Qed.

Lemma sp_nonempty : Forall (fun r => ptr_ r < end_ptr_ r) rs.
Proof using Hsp.
  apply Forall_lookup. intros i r Hi.
  destruct (Forall2_lookup_l _ _ _ _ _ (sp_regions _ _ _ _ _ Hsp) Hi) as (l & _ & Hok).
  destruct Hok. lia.
Qed.

(** Links lead to live neighbours that link back. *)
Lemma sp_next x c y :
  x ∈ concat lay -> cs !! x = Some c -> next c = Some y ->
  exists i r l1 l2 d, rs !! i = Some r /\ lay !! i = Some (l1 ++ x :: y :: l2) /\
    region_ok cs r (l1 ++ x :: y :: l2) /\ cs !! y = Some d /\ prev d = Some x /\
    y ∈ concat lay /\ y <> x.
Proof using Hsp.
  intros Hx Hc Hy. destruct (sp_live _ Hx) as (i & r & l & c' & Hi & Hli & Hok & Hxl & ?).
  simplify_eq. destruct (seg_next _ _ _ _ _ _ _ (ro_seg _ _ _ Hok) Hxl Hc Hy) as (l1 & l2 & ->).
  destruct (proj1 (seg_app _ _ _ _ _ _ _) (ro_seg _ _ _ Hok)) as (m & _ & Hs).
  simpl in Hs. destruct Hs as (? & ? & _ & _ & _ & _ & _ & d & Hd & _ & Hp & _).
  exists i, r, l1, l2, d. repeat (split; [done|]). split.
  - apply elem_of_concat. exists i, (l1 ++ x :: y :: l2). split; [done|]. set_solver.
  - pose proof (sp_list_nodup _ _ Hli) as Hnd. apply NoDup_app in Hnd as (_ & _ & Hnd).
    apply NoDup_cons in Hnd as [Hnd _]. set_solver.
Qed.

Lemma sp_next_ptr x c y d :
  x ∈ concat lay -> cs !! x = Some c -> next c = Some y -> cs !! y = Some d -> ptr c < ptr d.
Proof using Hsp.
  intros Hx Hc Hy Hd. destruct (sp_next _ _ _ Hx Hc Hy)
    as (i & r & l1 & l2 & d' & _ & _ & Hok & _).
  destruct (proj1 (seg_app _ _ _ _ _ _ _) (ro_seg _ _ _ Hok)) as (m & _ & Hs).
  simpl in Hs. destruct Hs as (? & ? & ? & _ & _ & ? & _ & ? & ? & ? & _). simplify_eq. lia.
Qed.

Lemma sp_prev x c y :
  x ∈ concat lay -> cs !! x = Some c -> prev c = Some y ->
  exists d, y ∈ concat lay /\ cs !! y = Some d /\ next d = Some x.
Proof using Hsp.
  intros Hx Hc Hy. destruct (sp_live _ Hx) as (i & r & l & c' & Hi & Hli & Hok & Hxl & ?).
  simplify_eq. destruct (seg_prev_link _ _ _ _ _ _ _ (ro_seg _ _ _ Hok) Hxl Hc Hy) as (l1 & l2 & ->).
  destruct (proj1 (seg_app _ _ _ _ _ _ _) (ro_seg _ _ _ Hok)) as (m & _ & Hs).
  simpl in Hs. destruct Hs as (d & Hd & _ & _ & Hn & _). exists d. split; [|done].
  apply elem_of_concat. exists i, (l1 ++ y :: x :: l2). split; [done|]. set_solver.
Qed.

Lemma sp_get_handle x c :
  x ∈ concat lay -> cs !! x = Some c -> RegionManager.get_handle rs (ptr c) = Some (Some x).
Proof using Hsp.
  intros Hx Hc. destruct (sp_live _ Hx) as (i & r & l & c' & Hi & Hli & Hok & Hxl & ?).
  simplify_eq. unfold RegionManager.get_handle.
  destruct (region_index _ _ _ _ _ Hok Hxl Hc) as (_ & _ & Hp).
  rewrite (RegionFor_in _ _ _ Hi Hp). cbn. rewrite Hi. cbn. by eapply region_get_handle.
Qed.

Lemma sp_set_handle i r l x c p h :
  rs !! i = Some r -> lay !! i = Some l -> x ∈ l -> cs !! x = Some c ->
  ptr c <= p < ptr c + size c -> (256 | p - ptr c) ->
  exists j, p = ptr_ r + 256 * Z.of_nat j /\ (j < length (handles_ r))%nat /\
    RegionManager.set_handle p h rs =
    Some (<[i := AllocationRegion.mk (ptr_ r) (memory_size_ r) (end_ptr_ r)
                   (<[j := h]> (handles_ r))]> rs).
Proof using Hsp.
  intros Hi Hli Hx Hc Hp Hd. destruct (sp_region _ _ Hli) as (r' & ? & Hok). simplify_eq.
  destruct (set_handle_eq _ _ _ _ _ h Hok Hx Hc p Hp Hd) as (j & Hj & Hlt & Hset).
  exists j. split; [done|]. split; [done|]. unfold RegionManager.set_handle.
  rewrite (RegionFor_in i r); [|done|].
  2: { destruct (seg_elem _ _ _ _ _ _ _ (ro_seg _ _ _ Hok) Hx) as (? & ? & ? & ? & _).
       simplify_eq. lia. }
  cbn. rewrite Hi. cbn. rewrite Hset. done.
Qed.

(** One region and its list change. *)
Lemma space_update cs' fl' u' i r r' l l' :
  rs !! i = Some r -> lay !! i = Some l ->
  region_ok cs' r' l' -> ptr_ r' = ptr_ r -> end_ptr_ r' = end_ptr_ r ->
  (forall x, x ∉ l -> x ∈ concat lay -> geo <$> cs' !! x = geo <$> cs !! x) ->
  (forall rest, l ++ rest ++ u ≡ₚ seq 0 (length cs) -> l' ++ rest ++ u' ≡ₚ seq 0 (length cs')) ->
  chain cs' fl' u' -> unused_ok cs' u' ->
  space cs' fl' (<[i := r']> rs) (<[i := l']> lay) u'.
Proof using Hsp.
  intros Hi Hli Hok Hp He Hf Hperm Hch Hun.
  destruct Hsp as [Hr Hs Hpm _ _]. destruct (concat_lookup _ _ _ Hli) as [Hc1 Hc2].
  split; try done.
  - apply Forall2_same_length_lookup_2.
    { rewrite !length_insert. by eapply Forall2_length. }
    intros j a m Ha Hm. destruct (decide (j = i)) as [->|Hne].
    + rewrite list_lookup_insert_eq in Ha by (by eapply lookup_lt_Some).
      rewrite list_lookup_insert_eq in Hm by (by eapply lookup_lt_Some). by simplify_eq.
    + rewrite list_lookup_insert_ne in Ha by done. rewrite list_lookup_insert_ne in Hm by done.
      apply region_ok_frame with cs; [|by eapply (Forall2_lookup_lr (region_ok cs))].
      intros x Hx. apply Hf; [|apply elem_of_concat; eauto]. intros Hxl.
      assert (x ∈ concat (delete i lay)) as Hxd.
      { apply elem_of_concat. destruct (decide (j < i)%nat).
        - exists j, m. by rewrite list_lookup_delete_lt.
        - exists (pred j), m. rewrite list_lookup_delete_ge by lia.
          by replace (S (pred j)) with j by lia. }
      pose proof sp_nodup as Hnd. rewrite Hc1, <- app_assoc in Hnd.
      apply NoDup_app in Hnd as (_ & Hnd & _). apply (Hnd _ Hxl). set_solver.
  - rewrite sorted_ranges in Hs |- *. rewrite list_fmap_insert, list_insert_id; [done|].
    rewrite list_lookup_fmap, Hi. simpl. congruence.
  - rewrite Hc2, <- app_assoc. apply Hperm. by rewrite <- Hpm, Hc1, <- app_assoc.
Qed.

(** Nothing that places a chunk changes. *)
Lemma space_frame cs' fl' :
  (forall x, geo <$> cs' !! x = geo <$> cs !! x) -> fl' = fl -> unused_ok cs' u ->
  space cs' fl' rs lay u.
Proof using Hsp.
  intros Hf -> Hun. destruct Hsp as [Hr Hs Hpm Hch _].
  assert (length cs' = length cs) as Hl.
  { apply Nat.le_antisymm; apply Nat.nlt_ge; intros Hlt.
    - destruct (lookup_lt_is_Some_2 cs' (length cs) Hlt) as [c Hc]. pose proof (Hf (length cs)) as E.
      by rewrite Hc, (lookup_ge_None_2 cs) in E by lia.
    - destruct (lookup_lt_is_Some_2 cs (length cs') Hlt) as [c Hc]. pose proof (Hf (length cs')) as E.
      by rewrite Hc, (lookup_ge_None_2 cs') in E by lia. }
  split; try done; [|by rewrite Hl|].
  - eapply Forall2_impl; [exact Hr|]. intros r l. apply region_ok_frame. auto.
  - eapply chain_frame; [|done]. intros x _. by apply geo_next.
Qed.
End space.

(** ** Splitting, merging, adding and removing *)

Definition with_handle (r : region) (j : nat) (h : handle) : region :=
  AllocationRegion.mk (ptr_ r) (memory_size_ r) (end_ptr_ r) (<[j := h]> (handles_ r)).

(** [h] gives its bytes from [k] on to the unused handle [n]. *)
Lemma space_split cs cs' rs lay n u i r l1 h l2 c dn k j :
  space cs (Some n) rs lay (n :: u) ->
  rs !! i = Some r -> lay !! i = Some (l1 ++ h :: l2) ->
  cs !! h = Some c -> cs !! n = Some dn -> 0 < k < size c -> (256 | k) ->
  ptr c + k = ptr_ r + 256 * Z.of_nat j -> (j < length (handles_ r))%nat ->
  length cs' = length cs ->
  geo <$> cs' !! h = Some (ptr c, k, prev c, Some n) ->
  geo <$> cs' !! n = Some (ptr c + k, size c - k, Some h, next c) ->
  (forall x d, next c = Some x -> cs !! x = Some d ->
     geo <$> cs' !! x = Some (ptr d, size d, Some n, next d)) ->
  (forall x, x <> h -> x <> n -> next c <> Some x -> geo <$> cs' !! x = geo <$> cs !! x) ->
  (forall x, x ∈ u -> cs' !! x = cs !! x) ->
  space cs' (next dn) (<[i := with_handle r j (Some n)]> rs)
    (<[i := l1 ++ h :: n :: l2]> lay) u.
Proof.
  intros Hsp Hi Hli Hc Hdn Hk Hdk Hj Hjl Hlen Hh Hn Hm Hf Hu.
  pose proof (sp_list_nodup Hsp _ _ Hli) as Hnd.
  destruct (sp_region Hsp _ _ Hli) as (r' & ? & Hok). simplify_eq.
  assert (Hnl : forall x, x ∈ l1 ++ h :: l2 -> x <> n).
  { intros x Hx ->. apply (sp_not_unused Hsp n); [apply elem_of_concat; eauto|by left]. }
  assert (n ∉ l1 ++ h :: l2) as Hnn by (intros Hx; by apply (Hnl n)).
  assert (Hnx : next c = hd l2 None).
  { destruct (proj1 (seg_app _ _ _ _ _ _ _) (ro_seg _ _ _ Hok)) as (m & _ & Hs).
    simpl in Hs. destruct Hs as (c' & ? & _ & _ & ? & _). by simplify_eq. }
  rewrite Hnx in Hf, Hm.
  assert (Hf' : forall x, x ∈ l1 ++ tail l2 -> geo <$> cs' !! x = geo <$> cs !! x).
  { intros x Hx. apply NoDup_app in Hnd as (Hnd1 & Hnd2 & Hnd3). apply NoDup_cons in Hnd3 as [Hnd3 Hnd4].
    apply elem_of_app in Hx as [Hx|Hx].
    - apply Hf; [|apply Hnl; set_solver|].
      + intros ->. apply (Hnd2 _ Hx). by left.
      + destruct l2 as [|y l2]; simpl; [done|]. intros [= ->]. apply (Hnd2 _ Hx). set_solver.
    - destruct l2 as [|y l2]; simpl in *; [by apply elem_of_nil in Hx|].
      apply NoDup_cons in Hnd4 as [Hnd4 _].
      apply Hf; [|apply Hnl; set_solver|]; [intros ->; set_solver|].
      intros [= ->]. done. }
  assert (Hseg : seg cs' None (ptr_ r) (l1 ++ h :: n :: l2) (end_ptr_ r) None).
  { eapply (seg_split cs cs'); try done. by apply (ro_seg _ _ _ Hok). }
  assert (Hp : forall x, x ∈ l1 ++ h :: l2 -> ptr <$> cs' !! x = ptr <$> cs !! x).
  { intros x Hx. destruct (decide (x = h)) as [->|Hxh].
    { rewrite Hc. by eapply geo_Some_ptr. }
    destruct (decide (hd l2 None = Some x)) as [Hx2|Hx2].
    - destruct (seg_elem _ _ _ _ _ _ _ (ro_seg _ _ _ Hok) Hx) as (d & Hd & _).
      rewrite Hd. by eapply geo_Some_ptr, Hm.
    - by apply geo_ptr, Hf; [|apply Hnl|]. }
  destruct (cs' !! n) as [d|] eqn:Ed; [|done]. injection Hn as Hpd _ _ _.
  eapply (space_update Hsp); try done.
  - eapply (region_ok_add cs cs' _ (l1 ++ h :: l2)); try done; [|congruence]. set_solver.
  - intros x Hx Hxc. apply Hf.
    + intros ->. set_solver.
    + intros ->. by apply (sp_not_unused Hsp n Hxc); left.
    + destruct l2; simpl; [done|]. intros [= ->]. set_solver.
  - intros rest Hr. rewrite Hlen, <- Hr. rewrite <- !app_assoc. simpl. solve_Permutation.
  - pose proof (sp_free _ _ _ _ _ Hsp) as Hch. simpl in Hch.
    destruct Hch as (_ & d' & ? & Hch). simplify_eq.
    eapply chain_frame; [|exact Hch]. intros x Hx. by rewrite Hu.
  - intros x Hx. rewrite Hu by done. apply (sp_unused _ _ _ _ _ Hsp). by right.
Qed.

(** [h] takes over the bytes of its successor [n], whose handle is released. *)
Lemma space_merge cs cs' fl rs lay u i r l1 h n l2 c d dn j :
  space cs fl rs lay u ->
  rs !! i = Some r -> lay !! i = Some (l1 ++ h :: n :: l2) ->
  cs !! h = Some c -> cs !! n = Some d ->
  ptr d = ptr_ r + 256 * Z.of_nat j -> (j < length (handles_ r))%nat ->
  length cs' = length cs ->
  geo <$> cs' !! h = Some (ptr c, size c + size d, prev c, next d) ->
  cs' !! n = Some dn -> next dn = fl -> allocation_id dn = -1 -> bin_num dn = None ->
  (forall x a, next d = Some x -> cs !! x = Some a ->
     geo <$> cs' !! x = Some (ptr a, size a, Some h, next a)) ->
  (forall x, x <> h -> x <> n -> next d <> Some x -> geo <$> cs' !! x = geo <$> cs !! x) ->
  (forall x, x ∈ u -> cs' !! x = cs !! x) ->
  space cs' (Some n) (<[i := with_handle r j None]> rs) (<[i := l1 ++ h :: l2]> lay) (n :: u).
Proof.
  intros Hsp Hi Hli Hc Hd Hj Hjl Hlen Hh Hn Hnn Hna Hnb Hm Hf Hu.
  pose proof (sp_list_nodup Hsp _ _ Hli) as Hnd.
  destruct (sp_region Hsp _ _ Hli) as (r' & ? & Hok). simplify_eq.
  assert (Hnx : next d = hd l2 None).
  { destruct (proj1 (seg_app _ _ _ _ _ _ _) (ro_seg _ _ _ Hok)) as (m & _ & Hs).
    simpl in Hs. destruct Hs as (? & ? & _ & _ & ? & _ & _ & d' & ? & _ & _ & ? & _).
    by simplify_eq. }
  rewrite Hnx in Hf, Hm, Hh.
  apply NoDup_app in Hnd as (Hnd1 & Hnd2 & Hnd3).
  apply NoDup_cons in Hnd3 as [Hnd3 Hnd4]. apply NoDup_cons in Hnd4 as [Hnd4 Hnd5].
  assert (Hf' : forall x, x ∈ l1 ++ tail l2 -> geo <$> cs' !! x = geo <$> cs !! x).
  { intros x Hx. apply elem_of_app in Hx as [Hx|Hx].
    - apply Hf; [intros ->; set_solver|intros ->; set_solver|].
      destruct l2 as [|y l2]; simpl; [done|]. intros [= ->]. set_solver.
    - destruct l2 as [|y l2]; simpl in *; [by apply elem_of_nil in Hx|].
      apply NoDup_cons in Hnd5 as [Hnd5 _].
      apply Hf; [intros ->; set_solver|intros ->; set_solver|]. intros [= ->]. done. }
  assert (Hseg : seg cs' None (ptr_ r) (l1 ++ h :: l2) (end_ptr_ r) None).
  { eapply (seg_merge cs cs'); try done; [by rewrite Hnx|]. by apply (ro_seg _ _ _ Hok). }
  assert (Hp : forall x, x ∈ l1 ++ h :: l2 -> ptr <$> cs' !! x = ptr <$> cs !! x).
  { intros x Hx. destruct (decide (x = h)) as [->|Hxh].
    { rewrite Hc. by eapply geo_Some_ptr. }
    destruct (decide (hd l2 None = Some x)) as [Hx2|Hx2].
    - destruct (seg_elem _ _ _ _ _ _ _ (ro_seg _ _ _ Hok)
        (ltac:(set_solver) : x ∈ l1 ++ h :: n :: l2)) as (a & Ha & _).
      rewrite Ha. by eapply geo_Some_ptr, Hm.
    - apply geo_ptr, Hf; [done|intros ->; set_solver|done]. }
  eapply (space_update Hsp); try done.
  - eapply (region_ok_remove cs cs' _ (l1 ++ h :: n :: l2)); try done; set_solver.
  - intros x Hx Hxc. apply Hf; [intros ->; set_solver|intros ->; set_solver|].
    destruct l2; simpl; [done|]. intros [= ->]. set_solver.
  - intros rest Hr. rewrite Hlen, <- Hr. rewrite <- !app_assoc. simpl. solve_Permutation.
  - simpl. split; [done|]. exists dn. split; [done|].
    eapply chain_frame; [|by apply (sp_free _ _ _ _ _ Hsp)]. intros x Hx. by rewrite Hu.
  - intros x Hx. apply elem_of_cons in Hx as [->|Hx]; [by exists dn|].
    rewrite Hu by done. by apply (sp_unused _ _ _ _ _ Hsp).
Qed.

(** A new region, one chunk long. *)
Lemma space_add cs cs' rs lay n u dn p m :
  space cs (Some n) rs lay (n :: u) -> cs !! n = Some dn ->
  0 < p -> 0 < m -> (256 | m) -> p + m < 2 ^ 64 ->
  Forall (fun r => apart (p, m) (ptr_ r, memory_size_ r)) rs ->
  length cs' = length cs -> geo <$> cs' !! n = Some (p, m, None, None) ->
  (forall x, x <> n -> cs' !! x = cs !! x) ->
  exists rs' lay',
    RegionManager.set_handle p (Some n) (RegionManager.AddAllocationRegion p m rs)  = Some rs' /\
    space cs' (next dn) rs' lay' u /\ concat lay' ≡ₚ n :: concat lay /\
    ((fun r => (ptr_ r, memory_size_ r)) <$> rs') ≡ₚ
      (p, m) :: ((fun r => (ptr_ r, memory_size_ r)) <$> rs).
Proof.
  intros Hsp Hdn Hp Hm Hdm Hmax Hap Hlen Hn Hf.
  set (pos := RegionManager.upper_bound rs p).
  set (new := AllocationRegion.new p m). set (r' := with_handle new 0 (Some n)).
  destruct (upper_bound_split rs p (sp_sorted _ _ _ _ _ Hsp) (sp_nonempty Hsp)) as [Hlo Hhi].
  fold pos in Hlo, Hhi. pose proof (sp_regions _ _ _ _ _ Hsp) as Hrs.
  assert (Hlp : (pos <= length rs)%nat).
  { unfold pos, RegionManager.upper_bound. case_match; [|done]. case_match; subst.
    match goal with H : list_find _ _ = _ |- _ => apply list_find_Some in H as (Hi & _) end.
    apply lookup_lt_Some in Hi. lia. }
  pose proof (Forall2_length _ _ _ Hrs) as Hll.
  assert (Hgeo : forall r, r ∈ rs -> end_ptr_ r = ptr_ r + memory_size_ r).
  { intros r Hr. apply list_elem_of_lookup in Hr as [i Hi].
    by destruct (Forall2_lookup_l _ _ _ _ _ Hrs Hi) as (l & _ & []). }
  assert (Hsort : forall q, ptr_ q = p -> end_ptr_ q = p + m ->
            StronglySorted before (take pos rs ++ q :: drop pos rs)).
  { intros q Hq1 Hq2. pose proof (sp_sorted _ _ _ _ _ Hsp) as Hs.
    rewrite <- (take_drop pos rs) in Hs. apply StronglySorted_app in Hs as (H1 & H2 & H3).
    rewrite Forall_forall in Hlo, Hhi, Hap.
    assert (Forall (before q) (drop pos rs)) as Hq.
    { apply Forall_forall. intros x Hx. assert (x ∈ rs) as Hxr.
      { rewrite <- (take_drop pos rs). set_solver. }
      specialize (Hhi _ Hx). specialize (Hgeo _ Hxr).
      destruct (Hap _ Hxr); simpl in *; unfold before; lia. }
    apply StronglySorted_app_2; [|done|by constructor].
    intros x y Hx Hy. apply elem_of_cons in Hy as [->|Hy]; [|by apply H1].
    specialize (Hlo _ Hx). simpl in Hlo. unfold before. lia. }
  exists (take pos rs ++ r' :: drop pos rs), (take pos lay ++ [n] :: drop pos lay).
  assert (Hlen0 : (0 < length (replicate (AllocationRegion.n_handles m) (None : handle)))%nat /\
                  AllocationRegion.n_handles m = Z.to_nat (m / 256)).
  { rewrite length_replicate. unfold AllocationRegion.n_handles.
    change kMinAllocationSize with 256. destruct Hdm as [k ->].
    rewrite u64_small by lia. rewrite Z.div_mul by lia.
    replace (k * 256 + 256 - 1) with (255 + k * 256) by lia.
    rewrite Z.div_add by lia. change (255 / 256) with 0. lia. }
  destruct Hlen0 as [Hlen0 Hnh].
  split; [|split; [|split]].
  - unfold RegionManager.set_handle, RegionManager.AddAllocationRegion, RegionManager.insert_at.
    fold pos new.
    assert ((take pos rs ++ new :: drop pos rs) !! pos = Some new) as Hpos.
    { rewrite lookup_app_r by (rewrite length_take; lia). rewrite length_take.
      by replace (pos - pos `min` length rs)%nat with 0%nat by lia. }
    rewrite (RegionFor_sorted _ pos new);
      [|by apply Hsort|done|simpl; lia].
    cbn. rewrite Hpos. cbn. unfold AllocationRegion.set_handle.
    assert (AllocationRegion.IndexFor new p = 0%nat) as ->.
    { rewrite IndexFor_eq by (simpl; lia). simpl. by rewrite Z.sub_diag. }
    cbn [handles_ new AllocationRegion.new]. apply Nat.ltb_lt in Hlen0 as ->. cbn.
    rewrite insert_app_r_alt by (rewrite length_take; lia). rewrite length_take.
    by replace (pos - pos `min` length rs)%nat with 0%nat by lia.
  - split.
    + assert (forall r l, (r, l) ∈ zip rs lay -> region_ok cs r l -> region_ok cs' r l) as Hfr.
      { intros r l Hin. apply region_ok_frame. intros x Hx. rewrite Hf; [done|]. intros ->.
        apply (sp_not_unused Hsp n); [|by left]. apply elem_of_concat.
        apply elem_of_zip_r, list_elem_of_lookup in Hin as [i Hi]. eauto. }
      assert (Forall2 (region_ok cs') rs lay) as Hrs'.
      { apply Forall2_same_length_lookup_2; [done|]. intros i a b Ha Hb. apply Hfr.
        - apply list_elem_of_lookup. exists i. by rewrite lookup_zip_with, Ha; simpl; rewrite Hb.
        - by eapply (Forall2_lookup_lr (region_ok cs)). }
      apply Forall2_app; [by apply Forall2_take|]. constructor; [|by apply Forall2_drop].
      destruct (cs' !! n) as [d|] eqn:Ed; [|done]. injection Hn as E1 E2 E3 E4.
      split; simpl; try done; [by rewrite length_insert, length_replicate| |].
      * exists d. rewrite E1, E2, E3, E4. done.
      * intros i h. destruct i as [|i].
        { rewrite list_lookup_insert_eq by done. split.
          - intros [= <-]. split; [by left|]. exists d. split; [done|lia].
          - intros (Hh & _). by apply list_elem_of_singleton in Hh as ->. }
        { rewrite list_lookup_insert_ne by done. split.
          - intros H. apply lookup_replicate in H as [H _]. done.
          - intros (Hh & c & Hc & Hpc). apply list_elem_of_singleton in Hh as ->.
            simplify_eq. lia. }
    + by apply Hsort.
    + rewrite Hlen, <- (sp_perm _ _ _ _ _ Hsp), concat_app. simpl.
      rewrite <- (take_drop pos lay) at 3. rewrite concat_app. solve_Permutation.
    + pose proof (sp_free _ _ _ _ _ Hsp) as Hch. simpl in Hch.
      destruct Hch as (_ & d & ? & Hch). simplify_eq.
      pose proof (sp_nodup Hsp) as Hnd. apply NoDup_app in Hnd as (_ & _ & Hnd).
      apply NoDup_cons in Hnd as [Hnd _].
      eapply chain_frame; [|exact Hch]. intros x Hx. rewrite Hf; [done|]. by intros ->.
    + intros x Hx. pose proof (sp_nodup Hsp) as Hnd. apply NoDup_app in Hnd as (_ & _ & Hnd).
      apply NoDup_cons in Hnd as [Hnd _].
      rewrite Hf by (by intros ->). apply (sp_unused _ _ _ _ _ Hsp). by right.
  - rewrite concat_app. simpl. rewrite <- (take_drop pos lay) at 3. rewrite concat_app.
    solve_Permutation.
  - rewrite fmap_app, fmap_cons. rewrite <- (take_drop pos rs) at 3. rewrite fmap_app. simpl.
    solve_Permutation.
Qed.

(** ** Deleting a region, chunk by chunk *)

Definition shape (r : region) : Prop :=
  0 < ptr_ r /\ (256 | memory_size_ r) /\ end_ptr_ r = ptr_ r + memory_size_ r /\
  end_ptr_ r < 2 ^ 64 /\ length (handles_ r) = Z.to_nat (memory_size_ r / 256).

(** Region [i] has only its last chunks [l] left; [lay] lists the others. *)
Record gone (cs : list Chunk) (fl : handle) (rs : list region) (lay : list (list nat))
    (u : list nat) (i : nat) (r : region) (l : list nat) : Prop := mkGone {
  gn_region : rs !! i = Some r;
  gn_shape : shape r;
  gn_sorted : StronglySorted before rs;
  gn_rest : Forall2 (region_ok cs) (delete i rs) lay;
  gn_seg : exists pv p, seg cs pv p l (end_ptr_ r) None /\ ptr_ r <= p /\ (256 | p - ptr_ r);
  gn_perm : concat lay ++ l ++ u ≡ₚ seq 0 (length cs);
  gn_free : chain cs fl u;
  gn_unused : unused_ok cs u;
}.

Lemma delete_insert_same {A} (l : list A) i x : delete i (<[i := x]> l) = delete i l.
Proof.
  revert i. induction l as [|y l IH]; intros [|i]; simpl; [done..|]. f_equal. apply IH.
Qed.

Lemma gone_start cs fl rs lay u i r l :
  space cs fl rs lay u -> rs !! i = Some r -> lay !! i = Some l ->
  gone cs fl rs (delete i lay) u i r l.
Proof.
  intros [Hr Hs Hp Hc Hu] Hi Hli. pose proof (Forall2_lookup_lr _ _ _ _ _ _ Hr Hi Hli) as Hok.
  split; try done.
  - destruct Hok. done.
  - by apply Forall2_delete.
  - exists None, (ptr_ r). split; [by apply (ro_seg _ _ _ Hok)|]. split; [done|].
    rewrite Z.sub_diag. apply Z.divide_0_r.
  - rewrite <- Hp, (proj1 (concat_lookup _ _ _ Hli)). solve_Permutation.
Qed.

Lemma sorted_sublist rs rs' : rs' `sublist_of` rs -> StronglySorted before rs -> StronglySorted before rs'.
Proof.
  induction 1 as [|a l l' H IH|a l l' H IH]; intros Hs; [done|..].
  - apply StronglySorted_inv in Hs as [Hs Hf]. constructor; [by apply IH|].
    rewrite Forall_forall in Hf |- *. intros x Hx. apply Hf. by eapply elem_of_sublist.
  - apply StronglySorted_inv in Hs as [Hs _]. by apply IH.
Qed.

Lemma gone_end cs fl rs lay u i r :
  gone cs fl rs lay u i r [] -> space cs fl (delete i rs) lay u.
Proof.
  intros [Hi Hsh Hs Hr _ Hp Hf Hu]. split; try done.
  eapply sorted_sublist; [apply sublist_delete|done].
Qed.

Lemma gone_step cs cs' fl rs lay u i r x l c dx :
  gone cs fl rs lay u i r (x :: l) -> cs !! x = Some c -> length cs' = length cs ->
  cs' !! x = Some dx -> next dx = fl -> allocation_id dx = -1 -> bin_num dx = None ->
  (forall y, y <> x -> cs' !! y = cs !! y) ->
  exists r' rs',
    RegionManager.set_handle (ptr c) None rs = Some rs' /\
    gone cs' (Some x) rs' lay (x :: u) i r' l /\
    ptr_ r' = ptr_ r /\ memory_size_ r' = memory_size_ r /\ delete i rs' = delete i rs /\
    ((fun r => (ptr_ r, memory_size_ r)) <$> rs') = (fun r => (ptr_ r, memory_size_ r)) <$> rs.
Proof.
  intros [Hi Hsh Hs Hr (pv & p & Hseg & Hp & Hdp) Hperm Hf Hu] Hc Hlen Hdx Hnx Ha Hb Hsame.
  simpl in Hseg. destruct Hseg as (c' & Hc' & Hpc & _ & _ & Hpos & Hd & Hseg).
  assert (c' = c) as -> by congruence. subst p fl.
  pose proof (seg_le _ _ _ _ _ _ Hseg) as Hle.
  assert (NoDup (concat lay ++ (x :: l) ++ u)) as Hnd by (rewrite Hperm; apply NoDup_seq).
  assert (Hx : forall y, y ∈ concat lay \/ y ∈ l \/ y ∈ u -> y <> x).
  { intros y Hy ->. apply NoDup_app in Hnd as (_ & Hnd1 & Hnd2).
    apply NoDup_cons in Hnd2 as [Hnd2 _]. specialize (Hnd1 x). set_solver. }
  destruct Hsh as (Hp0 & Hm & He & Hmax & Hl).
  assert (AllocationRegion.IndexFor r (ptr c) < length (handles_ r))%nat as Hidx.
  { rewrite IndexFor_eq by lia. destruct Hm as [km Hm]. destruct Hdp as [k2 Hk2].
    destruct Hd as [k4 Hk4].
    rewrite Hk2, Z.div_mul by lia. rewrite Hl, Hm, Z.div_mul by lia. lia. }
  set (r' := with_handle r (AllocationRegion.IndexFor r (ptr c)) None).
  exists r', (<[i := r']> rs).
  assert (Hil : (i < length rs)%nat) by by eapply lookup_lt_Some.
  split.
  { unfold RegionManager.set_handle. rewrite (RegionFor_sorted _ i r) by (done || lia).
    cbn. rewrite Hi. cbn. unfold AllocationRegion.set_handle.
    by apply Nat.ltb_lt in Hidx as ->. }
  assert (Hmap : ((fun r => (ptr_ r, end_ptr_ r)) <$> <[i := r']> rs) =
                 ((fun r => (ptr_ r, end_ptr_ r)) <$> rs)).
  { rewrite list_fmap_insert. apply list_insert_id. by rewrite list_lookup_fmap, Hi. }
  assert (Hdel : delete i (<[i := r']> rs) = delete i rs).
  { apply delete_insert_same. }
  split; [|split; [done|split; [done|split; [done|]]]].
  - split.
    + by apply list_lookup_insert_eq.
    + repeat split; try done. simpl. by rewrite length_insert.
    + rewrite sorted_ranges in Hs |- *. by rewrite Hmap.
    + rewrite Hdel. apply Forall2_same_length_lookup_2; [by eapply Forall2_length|].
      intros j a b Hja Hjb. apply region_ok_frame with cs.
      * intros y Hy. rewrite Hsame; [done|]. apply Hx. left. apply elem_of_concat. eauto.
      * by eapply (Forall2_lookup_lr (region_ok cs)).
    + exists (Some x), (ptr c + size c). split; [|split; [simpl; lia|]].
      * eapply seg_frame; [|exact Hseg]. intros y Hy. rewrite Hsame; [done|]. set_solver.
      * simpl. replace (ptr c + size c - ptr_ r) with (ptr c - ptr_ r + size c) by lia.
        by apply Z.divide_add_r.
    + rewrite Hlen, <- Hperm. solve_Permutation.
    + simpl. split; [done|]. exists dx. split; [done|].
      eapply chain_frame; [|done]. intros y Hy. rewrite Hsame; [done|]. set_solver.
    + intros y Hy. apply elem_of_cons in Hy as [->|Hy]; [by exists dx|].
      rewrite Hsame by set_solver. by apply Hu.
  - rewrite list_fmap_insert. apply list_insert_id. by rewrite list_lookup_fmap, Hi.
Qed.

(** * Bins *)

(** What the bins know of a chunk. *)
Definition binned_as (c : Chunk) : option (Z * Z * Z * bool) :=
  b ← bin_num c; Some (b, size c, ptr c, in_use c).

Abbreviation less cs := (fun x y => chunk_less cs x y = true).

Record bins_ok (cs : list Chunk) (bins : list (list nat)) : Prop := mkBinsOk {
  bo_len : length bins = 21%nat;
  bo_sorted : forall b l, bins !! b = Some l -> StronglySorted (less cs) l;
  bo_mem : forall h b, (exists l, bins !! b = Some l /\ h ∈ l) <->
    exists c, cs !! h = Some c /\ bin_num c = Some (Z.of_nat b);
  bo_chunk : forall h c z, cs !! h = Some c -> bin_num c = Some z ->
    in_use c = false /\ z = BinNumForSize (size c);
}.

Lemma BinNumForSize_range n : 0 <= BinNumForSize n < 21.
Proof.
  unfold BinNumForSize, kNumBins, Log2FloorNonZero.
  pose proof (Z.log2_nonneg (Z.shiftr (Z.max n 256) kMinAllocationBits)). lia.
Qed.

Lemma chunk_less_eq cs x y c d :
  cs !! x = Some c -> cs !! y = Some d ->
  chunk_less cs x y = true <-> size c < size d \/ size c = size d /\ ptr c < ptr d.
Proof.
  intros Hc Hd. unfold chunk_less. rewrite Hc, Hd.
  destruct (size c =? size d) eqn:E; simpl.
  - apply Z.eqb_eq in E. rewrite Z.ltb_lt. lia.
  - apply Z.eqb_neq in E. rewrite Z.ltb_lt. lia.
Qed.

Lemma chunk_less_dom cs x y :
  chunk_less cs x y = true -> exists c d, cs !! x = Some c /\ cs !! y = Some d.
Proof. unfold chunk_less. destruct (cs !! x), (cs !! y); try done. eauto. Qed.

Lemma chunk_less_trans cs x y z :
  chunk_less cs x y = true -> chunk_less cs y z = true -> chunk_less cs x z = true.
Proof.
  intros H1 H2. destruct (chunk_less_dom _ _ _ H1) as (c & d & Hc & Hd).
  destruct (chunk_less_dom _ _ _ H2) as (? & e & ? & He). simplify_eq.
  rewrite (chunk_less_eq _ _ _ _ _ Hc Hd) in H1. rewrite (chunk_less_eq _ _ _ _ _ Hd He) in H2.
  rewrite (chunk_less_eq _ _ _ _ _ Hc He). lia.
Qed.

Lemma chunk_less_irrefl cs x : chunk_less cs x x = false.
Proof.
  apply not_true_is_false. intros H. destruct (chunk_less_dom _ _ _ H) as (c & _ & Hc & _).
  rewrite (chunk_less_eq _ _ _ _ _ Hc Hc) in H. lia.
Qed.

Lemma binned_as_Some (o o' : option Chunk) c z :
  o' ≫= binned_as = o ≫= binned_as -> o = Some c -> bin_num c = Some z ->
  exists c', o' = Some c' /\ bin_num c' = Some z /\ size c' = size c /\ ptr c' = ptr c /\
    in_use c' = in_use c.
Proof.
  intros E -> Hb. unfold binned_as in E. cbn in E. rewrite Hb in E. cbn in E.
  destruct o' as [c'|]; [|done]. cbn in E. destruct (bin_num c') as [z'|] eqn:Eb; [|done].
  cbn in E. injection E as E1 E2 E3 E4. exists c'. split; [done|]. by rewrite Eb, E1.
Qed.

Lemma sorted_less_frame cs cs' l :
  (forall x, x ∈ l -> (fun c => (size c, ptr c)) <$> cs' !! x = (fun c => (size c, ptr c)) <$> cs !! x) ->
  StronglySorted (less cs) l -> StronglySorted (less cs') l.
Proof.
  intros Hf Hs. induction Hs as [|x l Hs IH Hx]; constructor.
  - apply IH. intros y Hy. apply Hf. by right.
  - rewrite Forall_forall in Hx |- *. intros y Hy. specialize (Hx _ Hy).
    destruct (chunk_less_dom _ _ _ Hx) as (c & d & Hc & Hd).
    pose proof (Hf x ltac:(by left)) as Ex. pose proof (Hf y ltac:(by right)) as Ey.
    rewrite Hc in Ex. rewrite Hd in Ey.
    destruct (cs' !! x) as [c'|] eqn:Ec; [|done]. destruct (cs' !! y) as [d'|] eqn:Ed; [|done].
    injection Ex as E1 E2. injection Ey as E3 E4.
    rewrite (chunk_less_eq _ _ _ _ _ Hc Hd) in Hx. rewrite (chunk_less_eq _ _ _ _ _ Ec Ed). lia.
Qed.

Lemma bins_frame cs cs' bins :
  (forall h, (cs' !! h ≫= binned_as) = (cs !! h ≫= binned_as)) ->
  bins_ok cs bins -> bins_ok cs' bins.
Proof.
  intros Hf [Hl Hs Hm Hc].
  assert (Hiff : forall h b, (exists c, cs' !! h = Some c /\ bin_num c = Some b) <->
                             (exists c, cs !! h = Some c /\ bin_num c = Some b)).
  { intros h b. split; intros (c & E & Hb).
    - destruct (binned_as_Some _ _ _ _ (eq_sym (Hf h)) E Hb) as (c' & ? & ? & _). eauto.
    - destruct (binned_as_Some _ _ _ _ (Hf h) E Hb) as (c' & ? & ? & _). eauto. }
  split; [done|..].
  - intros b l Hb. eapply sorted_less_frame; [|by eapply Hs]. intros x Hx.
    destruct (proj1 (Hm x b) (ex_intro _ l (conj Hb Hx))) as (c & Ec & Hbn).
    destruct (binned_as_Some _ _ _ _ (Hf x) Ec Hbn) as (c' & Ec' & _ & E1 & E2 & _).
    rewrite Ec, Ec'. simpl. by rewrite E1, E2.
  - intros h b. rewrite Hiff. apply Hm.
  - intros h c z E Hb.
    destruct (binned_as_Some _ _ _ _ (eq_sym (Hf h)) E Hb) as (c' & E' & Hb' & E1 & E2 & E3).
    rewrite <- E1, <- E3. by eapply Hc.
Qed.

Lemma elem_of_bin_insert cs h l x :
  (forall y, y ∈ l -> chunk_less cs h y = true \/ chunk_less cs y h = true) ->
  x ∈ bin_insert cs h l <-> x = h \/ x ∈ l.
Proof.
  induction l as [|y l IH]; intros Ht; simpl; [set_solver|].
  destruct (chunk_less cs h y) eqn:E1; [set_solver|].
  destruct (chunk_less cs y h) eqn:E2.
  - rewrite !elem_of_cons, IH; [naive_solver|]. intros z Hz. apply Ht. by right.
  - destruct (Ht y ltac:(by left)); congruence.
Qed.

Lemma bin_insert_sorted cs h l :
  (forall y, y ∈ l -> chunk_less cs h y = true \/ chunk_less cs y h = true) ->
  StronglySorted (less cs) l -> StronglySorted (less cs) (bin_insert cs h l).
Proof.
  intros Ht Hs. induction Hs as [|y l Hs IH Hy]; simpl; [by repeat constructor|].
  destruct (chunk_less cs h y) eqn:E1.
  - constructor; [by constructor|]. constructor; [done|].
    eapply Forall_impl; [exact Hy|]. intros z Hz. by eapply chunk_less_trans.
  - destruct (chunk_less cs y h) eqn:E2; [|by constructor].
    constructor; [apply IH; intros z Hz; apply Ht; by right|].
    apply Forall_forall. intros z Hz.
    apply elem_of_bin_insert in Hz as [->|Hz]; [done|by rewrite Forall_forall in Hy; apply Hy|].
    intros w Hw. apply Ht. by right.
Qed.

(** In a sorted bin the key of an element finds just that element. *)
Lemma sorted_less_total cs l x y :
  StronglySorted (less cs) l -> x ∈ l -> y ∈ l -> x <> y ->
  chunk_less cs x y = true \/ chunk_less cs y x = true.
Proof.
  induction 1 as [|z l Hs IH Hz]; intros Hx Hy Hne; [by apply elem_of_nil in Hx|].
  rewrite Forall_forall in Hz.
  apply elem_of_cons in Hx as [->|Hx]; apply elem_of_cons in Hy as [->|Hy]; auto; done.
Qed.

Lemma bin_erase_sorted cs h l :
  StronglySorted (less cs) l -> h ∈ l -> bin_erase cs h l = filter (fun x => x <> h) l.
Proof.
  intros Hs Hh. unfold bin_erase.
  assert (Hall : forall x, x ∈ l -> x <> h -> chunk_equiv cs h x = false).
  { intros x Hx Hne. unfold chunk_equiv.
    destruct (sorted_less_total _ _ h x Hs Hh Hx (not_eq_sym Hne)) as [-> | ->]; [done|].
    by rewrite andb_false_r. }
  clear Hs Hh. induction l as [|x l IH]; [done|]. rewrite !filter_cons.
  rewrite IH by (intros y Hy; apply Hall; by right).
  destruct (decide (x <> h)) as [Hne|Heq].
  - rewrite Hall by (done || by left). by rewrite decide_True.
  - apply dec_stable in Heq as ->. unfold chunk_equiv. by rewrite chunk_less_irrefl.
Qed.

Lemma filter_shorter (h : nat) l : h ∈ l -> (length (filter (fun x => x <> h) l) < length l)%nat.
Proof. intros Hh. apply length_filter_lt with h; [done|naive_solver]. Qed.

Lemma sorted_filter {A} (R : relation A) P `{!forall x, Decision (P x)} (l : list A) :
  StronglySorted R l -> StronglySorted R (filter P l).
Proof.
  induction 1 as [|x l Hs IH Hx]; [constructor|]. rewrite filter_cons.
  case_decide; [|done]. constructor; [done|]. rewrite Forall_forall in Hx |- *.
  intros y Hy. apply list_elem_of_filter in Hy as [_ Hy]. auto.
Qed.

Section bins.
Context {cs : list Chunk} {bins : list (list nat)} (Hb : bins_ok cs bins).

Lemma bins_lookup b : 0 <= b < 21 -> exists l, bins !! Z.to_nat b = Some l.
Proof using Hb. intros H. apply lookup_lt_is_Some_2. rewrite (bo_len _ _ Hb). lia. Qed.

Lemma bins_in_bin h c z :
  cs !! h = Some c -> bin_num c = Some z ->
  exists l, bins !! Z.to_nat z = Some l /\ h ∈ l /\ 0 <= z < 21.
Proof using Hb.
  intros Hc Hz. destruct (bo_chunk _ _ Hb _ _ _ Hc Hz) as [_ E].
  pose proof (BinNumForSize_range (size c)). rewrite <- E in *.
  destruct (proj2 (bo_mem _ _ Hb h (Z.to_nat z))) as (l & Hl & Hh); [|by exists l].
  exists c. split; [done|]. by rewrite Z2Nat.id by lia.
Qed.

(** A free chunk enters the bin of its size. *)
Lemma bins_insert h c :
  cs !! h = Some c -> bin_num c = None -> in_use c = false ->
  (forall x d z, cs !! x = Some d -> bin_num d = Some z -> ptr d <> ptr c) ->
  let b := BinNumForSize (size c) in
  let cs' := <[h := set_bin_num (Some b) c]> cs in
  exists l, bins !! Z.to_nat b = Some l /\
    bins_ok cs' (<[Z.to_nat b := bin_insert cs' h l]> bins).
Proof using Hb.
  intros Hc Hn Hu Hptr b cs'. pose proof (BinNumForSize_range (size c)) as Hr. fold b in Hr.
  destruct (bins_lookup b Hr) as [l Hl]. exists l. split; [done|].
  assert (Hcs : cs' !! h = Some (set_bin_num (Some b) c)).
  { apply list_lookup_insert_eq. by eapply lookup_lt_Some. }
  assert (Hne : forall x, x <> h -> cs' !! x = cs !! x).
  { intros x Hx. by apply list_lookup_insert_ne. }
  assert (Hmem : forall x k m, bins !! k = Some m -> x ∈ m -> x <> h).
  { intros x k m Hk Hx ->.
    destruct (proj1 (bo_mem _ _ Hb h k) (ex_intro _ m (conj Hk Hx))) as (? & ? & ?). congruence. }
  assert (Hfr : forall k m, bins !! k = Some m -> StronglySorted (less cs') m).
  { intros k m Hk. eapply sorted_less_frame; [|by eapply (bo_sorted _ _ Hb)].
    intros x Hx. rewrite Hne; [done|]. by eapply Hmem. }
  assert (Htot : forall y, y ∈ l -> chunk_less cs' h y = true \/ chunk_less cs' y h = true).
  { intros y Hy.
    destruct (proj1 (bo_mem _ _ Hb y _) (ex_intro _ l (conj Hl Hy))) as (d & Hd & Hbd).
    pose proof (Hptr _ _ _ Hd Hbd). rewrite <- (Hne y) in Hd by (by eapply Hmem).
    rewrite (chunk_less_eq _ _ _ _ _ Hcs Hd), (chunk_less_eq _ _ _ _ _ Hd Hcs). simpl. lia. }
  assert (Hlt : (Z.to_nat b < length bins)%nat) by by eapply lookup_lt_Some.
  split.
  - rewrite length_insert. by apply (bo_len _ _ Hb).
  - intros k m Hk. destruct (decide (k = Z.to_nat b)) as [->|Hkb].
    + rewrite list_lookup_insert_eq in Hk by done. simplify_eq. by apply bin_insert_sorted; [|eauto].
    + rewrite list_lookup_insert_ne in Hk by done. by eapply Hfr.
  - intros x k. destruct (decide (k = Z.to_nat b)) as [->|Hkb].
    + rewrite list_lookup_insert_eq by done. rewrite Z2Nat.id by lia. split.
      * intros (m & [= <-] & Hx). apply elem_of_bin_insert in Hx as [->|Hx]; [| |done].
        { by exists (set_bin_num (Some b) c). }
        rewrite Hne by (by eapply Hmem).
        destruct (proj1 (bo_mem _ _ Hb x _) (ex_intro _ l (conj Hl Hx))) as (d & Hd & Hbd).
        exists d. split; [done|]. by rewrite Z2Nat.id in Hbd by lia.
      * intros (d & Hd & Hbd). exists (bin_insert cs' h l). split; [done|].
        apply elem_of_bin_insert; [done|]. destruct (decide (x = h)) as [|Hxh]; [by left|right].
        rewrite Hne in Hd by done.
        destruct (bins_in_bin _ _ _ Hd Hbd) as (m & Hm & Hx & _). by simplify_eq.
    + rewrite list_lookup_insert_ne by done. rewrite (bo_mem _ _ Hb x k).
      destruct (decide (x = h)) as [->|Hxh]; [|by rewrite Hne]. rewrite Hcs. split.
      * intros (d & Hd & Hbd). congruence.
      * intros (d & [= <-] & [= Hbd]). exfalso. apply Hkb. lia.
  - intros x d z Hd Hz. destruct (decide (x = h)) as [->|Hxh].
    + rewrite Hcs in Hd. injection Hd as <-. simpl in Hz. injection Hz as <-. done.
    + rewrite Hne in Hd by done. by eapply (bo_chunk _ _ Hb).
Qed.

(** A chunk leaves its bin. *)
Lemma bins_remove h c z :
  cs !! h = Some c -> bin_num c = Some z ->
  exists l, bins !! Z.to_nat z = Some l /\ h ∈ l /\
    bin_erase cs h l = filter (fun x => x <> h) l /\
    bins_ok (<[h := set_bin_num None c]> cs)
      (<[Z.to_nat z := filter (fun x => x <> h) l]> bins).
Proof using Hb.
  intros Hc Hz. destruct (bins_in_bin _ _ _ Hc Hz) as (l & Hl & Hh & Hr).
  exists l. split; [done|]. split; [done|].
  pose proof (bo_sorted _ _ Hb _ _ Hl) as Hs. split; [by apply bin_erase_sorted|].
  set (cs' := <[h := set_bin_num None c]> cs).
  assert (Hcs : cs' !! h = Some (set_bin_num None c)).
  { apply list_lookup_insert_eq. by eapply lookup_lt_Some. }
  assert (Hne : forall x, x <> h -> cs' !! x = cs !! x).
  { intros x Hx. by apply list_lookup_insert_ne. }
  assert (Hfr : forall m, StronglySorted (less cs) m -> StronglySorted (less cs') m).
  { intros m. apply sorted_less_frame. intros x Hx.
    destruct (decide (x = h)) as [->|]; [by rewrite Hcs, Hc|by rewrite Hne]. }
  assert (Hlt : (Z.to_nat z < length bins)%nat) by by eapply lookup_lt_Some.
  split.
  - rewrite length_insert. by apply (bo_len _ _ Hb).
  - intros k m Hk. destruct (decide (k = Z.to_nat z)) as [->|Hkb].
    + rewrite list_lookup_insert_eq in Hk by done. simplify_eq. by apply Hfr, sorted_filter.
    + rewrite list_lookup_insert_ne in Hk by done. by eapply Hfr, (bo_sorted _ _ Hb).
  - intros x k. destruct (decide (x = h)) as [->|Hxh].
    + rewrite Hcs. split; [|by intros (d & [= <-] & ?)]. intros (m & Hk & Hx). exfalso.
      destruct (decide (k = Z.to_nat z)) as [->|Hkb].
      * rewrite list_lookup_insert_eq in Hk by done. simplify_eq.
        by apply list_elem_of_filter in Hx as [? _].
      * rewrite list_lookup_insert_ne in Hk by done.
        destruct (proj1 (bo_mem _ _ Hb h k) (ex_intro _ m (conj Hk Hx))) as (d & ? & ?).
        simplify_eq. apply Hkb. lia.
    + rewrite Hne by done. rewrite <- (bo_mem _ _ Hb x k).
      destruct (decide (k = Z.to_nat z)) as [->|Hkb].
      * rewrite list_lookup_insert_eq by done. split.
        { intros (m & [= <-] & Hx). apply list_elem_of_filter in Hx as [_ Hx]. eauto. }
        { intros (m & Hm & Hx). simplify_eq. eexists. split; [done|].
          by apply list_elem_of_filter. }
      * by rewrite list_lookup_insert_ne.
  - intros x d y Hd Hy. destruct (decide (x = h)) as [->|Hxh].
    + rewrite Hcs in Hd. injection Hd as <-. done.
    + rewrite Hne in Hd by done. by eapply (bo_chunk _ _ Hb).
Qed.
End bins.
