(* ===== verification/BfcHeap.v ===== *)
(** The BFC allocator keeps its heap: the invariant [inv] of regions, chunks,
    handles and bins, and its preservation by every operation that changes the
    heap; blocks in use never overlap, an allocation takes the best fitting
    free chunk, a free gives back exactly its block. *)
From stdpp Require Import base list gmap strings fin_maps sorting.
From S2P Require Import Prelude Bfc BfcLayout.
Import BFCAllocatorImpl.
Import AllocationRegion (ptr_, memory_size_, end_ptr_, handles_).

(** What a sub-allocator promises, as the three of bfc_allocator.cpp do: the
    size asked for, at an address that overlaps no block still out, and no
    coalescing of regions. *)
Class SubAllocatorLaws (D : Type) `{SubAllocator D} := {
  sub_blocks : D -> list (Z * Z);
  sub_allocate_fresh d a n p m d' :
    0 < n -> sub_allocate d a n = Some (p, m, d') ->
    m = n /\ 0 < p /\ p + m < 2 ^ 64 /\ Forall (apart (p, m)) (sub_blocks d) /\
    sub_blocks d' ≡ₚ (p, m) :: sub_blocks d;
  sub_free_blocks d p m :
    (p, m) ∈ sub_blocks d -> (p, m) :: sub_blocks (sub_free d p m) ≡ₚ sub_blocks d;
  sub_no_coalescing : SupportsCoalescing (D := D) = false;
}.

Lemma page_next_above l b :
  b ∈ l -> b.1 + b.2 <= foldr (fun b z => Z.max (b.1 + b.2) z) 1044480 l.
Proof.
  induction l as [|x l IH]; [by intros ?%elem_of_nil|]. simpl.
  intros [->|Hb]%elem_of_cons; [lia|]. specialize (IH Hb). lia.
Qed.

Lemma page_next_base l : 1044480 <= foldr (fun b z => Z.max (b.1 + b.2) z) 1044480 l.
Proof. induction l as [|x l IH]; simpl; lia. Qed.

#[export] Instance page_laws : SubAllocatorLaws PageSubAllocator.t.
Proof.
  refine {| sub_blocks := PageSubAllocator.blocks |}.
  - intros d a n p m d' Hn. simpl. destruct (_ && _) eqn:E; [|done].
    apply andb_true_iff in E as [_ E]. apply Z.ltb_lt in E. intros [= <- <- <-].
    pose proof (page_next_base (PageSubAllocator.blocks d)).
    split; [done|]. unfold PageSubAllocator.next_address in *. split; [lia|]. split; [lia|].
    split; [|done]. apply Forall_forall. intros b Hb. right. simpl.
    pose proof (page_next_above _ _ Hb). lia.
  - intros d p m Hin. simpl.
    destruct (list_find (fun b => b = (p, m)) (PageSubAllocator.blocks d)) as [[i b]|] eqn:E.
    + apply list_find_Some in E as (Hi & -> & _). symmetry. by apply delete_Permutation.
    + apply list_find_None in E. rewrite Forall_forall in E. by destruct (E _ Hin).
  - done.
Defined.

(** [m] returns, with [Q]. *)
Abbreviation ok Q s m := (wp m Q (fun _ _ => False) s).

(** Lookups in updated chunk lists. *)
Ltac look :=
  simpl; repeat first
    [ rewrite list_lookup_insert_eq by (rewrite ?length_insert; eapply lookup_lt_Some; eassumption)
    | rewrite list_lookup_insert_ne by congruence ].

(** * The invariant *)
Section heap.
Context {D : Type} `{HD : SubAllocator D} `{HL : !SubAllocatorLaws D}.

Definition range (r : region) : Z * Z := (ptr_ r, memory_size_ r).
Definition region_bytes (rs : list region) : Z := foldr (fun r z => memory_size_ r + z) 0 rs.

(** [lay] lists the chunks of each region, [u] the unused handles. *)
Record heap (lay : list (list nat)) (u : list nat) (s : t D) : Prop := mkHeap {
  hp_space : space (chunks_ s) (free_chunks_list_ s) (regions_ s) lay u;
  hp_bins : bins_ok (chunks_ s) (bins_ s);
  hp_freed : forall h c, chunks_ s !! h = Some c -> freed_at_count c = 0;
  hp_id : 1 <= next_allocation_id_ s;
  hp_opts : 0 < max_internal_fragmentation_bytes (opts_ s) < 2 ^ 64;
  hp_total : total_region_allocated_bytes_ s = region_bytes (regions_ s);
  hp_limit : region_bytes (regions_ s) <= memory_limit_ s < 2 ^ 64;
  hp_curr : 0 <= curr_region_allocation_bytes_ s < 2 ^ 64 /\
            (256 | curr_region_allocation_bytes_ s);
  hp_sub : range <$> regions_ s ≡ₚ sub_blocks (sub_allocator_ s);
}.

(** Free chunks are in a bin, and none of them follows another; the chunks
    [X] are on their way and exempt. *)
Record settled (lay : list (list nat)) (X : list nat) (s : t D) : Prop := mkSettled {
  st_binned : forall h c, h ∈ concat lay -> chunks_ s !! h = Some c -> in_use c = false ->
    h ∉ X -> bin_num c <> None;
  st_coalesced : forall h c n d, h ∈ concat lay -> chunks_ s !! h = Some c ->
    next c = Some n -> chunks_ s !! n = Some d -> h ∉ X -> n ∉ X ->
    in_use c = true \/ in_use d = true;
}.

Definition inv (s : t D) : Prop := exists lay u, heap lay u s /\ settled lay [] s.

(** The blocks handed out. *)
Definition block (c : Chunk) : option (Z * Z) :=
  if in_use c then Some (ptr c, size c) else None.
Definition used (s : t D) : list (Z * Z) := omap block (chunks_ s).

Lemma omap_pointwise {A B} (f : A -> option B) (l k : list A) :
  (forall i, l !! i ≫= f = k !! i ≫= f) -> omap f l = omap f k.
Proof.
  revert k. induction l as [|x l IH]; intros k Hf.
  - induction k as [|y k IH]; [done|]. pose proof (Hf 0%nat) as E. cbn in E |- *.
    rewrite <- E. apply IH. intros i. by specialize (Hf (S i)).
  - destruct k as [|y k]; pose proof (Hf 0%nat) as E; cbn in E |- *; rewrite E.
    + apply (IH []). intros i. by specialize (Hf (S i)).
    + assert (omap f l = omap f k) as IH' by (apply IH; intros i; by specialize (Hf (S i))).
      destruct (f y); [f_equal|]; exact IH'.
Qed.

Lemma used_same (s s' : t D) :
  (forall h, chunks_ s' !! h ≫= block = chunks_ s !! h ≫= block) -> used s' = used s.
Proof. apply omap_pointwise. Qed.

Lemma omap_insert_None {A B} (f : A -> option B) (l : list A) i x y b :
  l !! i = Some x -> f x = None -> f y = Some b -> omap f (<[i := y]> l) ≡ₚ b :: omap f l.
Proof.
  intros Hi Hx Hy. rewrite insert_take_drop by (by eapply lookup_lt_Some).
  rewrite <- (take_drop_middle l i x Hi) at 3. rewrite !omap_app. simpl. rewrite Hx, Hy.
  by rewrite Permutation_middle.
Qed.

Lemma omap_insert_Some {A B} (f : A -> option B) (l : list A) i x y b :
  l !! i = Some x -> f x = Some b -> f y = None -> omap f l ≡ₚ b :: omap f (<[i := y]> l).
Proof.
  intros Hi Hx Hy. rewrite insert_take_drop by (by eapply lookup_lt_Some).
  rewrite <- (take_drop_middle l i x Hi) at 1. rewrite !omap_app. simpl. rewrite Hx, Hy.
  by rewrite Permutation_middle.
Qed.

Lemma in_use_id c : in_use c = false <-> allocation_id c = -1.
Proof. unfold in_use. rewrite negb_false_iff. apply Z.eqb_eq. Qed.

(** Blocks in use never overlap, and lie inside a region. *)
Lemma used_live lay u s b :
  heap lay u s -> b ∈ used s ->
  exists h c, h ∈ concat lay /\ chunks_ s !! h = Some c /\ in_use c = true /\
    b = (ptr c, size c).
Proof.
  intros Hh Hb. unfold used in Hb. apply list_elem_of_omap in Hb as (c & Hc & Hbl).
  apply list_elem_of_lookup in Hc as [h Hc]. unfold block in Hbl.
  destruct (in_use c) eqn:E; [|done]. injection Hbl as <-.
  exists h, c. split; [|done]. destruct (sp_bound (hp_space _ _ _ Hh) h) as [_ [H|H]]; [|done|].
  - by eapply lookup_lt_Some.
  - exfalso. destruct (sp_unused _ _ _ _ _ (hp_space _ _ _ Hh) _ H) as (c' & ? & Ha & _).
    simplify_eq. apply in_use_id in Ha. congruence.
Qed.

Lemma omap_pairs {A B} (f : A -> option B) (R : B -> B -> Prop) (l : list A) :
  (forall i j x y a b, (i < j)%nat -> l !! i = Some x -> l !! j = Some y ->
     f x = Some a -> f y = Some b -> R a b) ->
  ForallOrdPairs R (omap f l).
Proof.
  induction l as [|x l IH]; intros H; [constructor|].
  assert (ForallOrdPairs R (omap f l)) as Hl.
  { apply IH. intros i j y z a b Hij Hi Hj. apply (H (S i) (S j)); [lia|done..]. }
  cbn. destruct (f x) as [a|] eqn:E; [|done]. constructor; [|done].
  apply List.Forall_forall. intros b Hb. apply list_elem_of_In in Hb.
  apply list_elem_of_omap in Hb as (y & Hy & Hb). apply list_elem_of_lookup in Hy as [j Hj].
  by apply (H 0%nat (S j) x y a b); [lia|..].
Qed.

Lemma heap_disjoint lay u s : heap lay u s -> ForallOrdPairs apart (used s).
Proof.
  intros Hh. apply omap_pairs. intros i j x y a b Hij Hi Hj Ha Hb.
  assert (Hin : forall h c d, chunks_ s !! h = Some c -> block c = Some d ->
            h ∈ concat lay /\ d = (ptr c, size c)).
  { intros h c d Hc Hd. unfold block in Hd. destruct (in_use c) eqn:E; [|done].
    injection Hd as <-. split; [|done].
    destruct (sp_bound (hp_space _ _ _ Hh) h) as [_ [H|H]]; [by eapply lookup_lt_Some|done|].
    destruct (sp_unused _ _ _ _ _ (hp_space _ _ _ Hh) _ H) as (c' & ? & Hid & _). simplify_eq.
    apply in_use_id in Hid. congruence. }
  destruct (Hin _ _ _ Hi Ha) as [Hi' ->]. destruct (Hin _ _ _ Hj Hb) as [Hj' ->].
  eapply (sp_apart (hp_space _ _ _ Hh) i j); try done. lia.
Qed.

Lemma used_in_heap lay u s b :
  heap lay u s -> b ∈ used s ->
  exists r, r ∈ regions_ s /\ ptr_ r <= b.1 /\ b.1 + b.2 <= end_ptr_ r /\ 0 < b.2.
Proof.
  intros Hh Hb. destruct (used_live _ _ _ _ Hh Hb) as (h & c & Hin & Hc & _ & ->).
  destruct (sp_live (hp_space _ _ _ Hh) _ Hin) as (i & r & l & c' & Hi & _ & Hok & Hl & ?).
  destruct (seg_elem _ _ _ _ _ _ _ (ro_seg _ _ _ Hok) Hl) as (d & ? & ? & ? & ? & _).
  simplify_eq. exists r. split; [by eapply list_elem_of_lookup_2|]. done.
Qed.

(** * Steps *)
Lemma wp_ChunkFromHandle h c (Q : Chunk -> t D -> Prop) s :
  chunks_ s !! h = Some c -> Q c s -> ok Q s (ChunkFromHandle h).
Proof. intros Hc HQ. unfold wp, ChunkFromHandle. by rewrite Hc. Qed.

Lemma wp_upd_chunk h c f (Q : unit -> t D -> Prop) s :
  chunks_ s !! h = Some c -> Q tt (set_chunks (<[h := f c]> (chunks_ s)) s) ->
  ok Q s (upd_chunk h f).
Proof. intros Hc HQ. unfold wp, upd_chunk. by rewrite Hc. Qed.

Lemma wp_set_handle p h rs (Q : unit -> t D -> Prop) s :
  RegionManager.set_handle p h (regions_ s) = Some rs -> Q tt (set_regions rs s) ->
  ok Q s (set_handle p h).
Proof. intros Hc HQ. unfold wp, set_handle. by rewrite Hc. Qed.

Lemma wp_get_handle p h (Q : handle -> t D -> Prop) s :
  RegionManager.get_handle (regions_ s) p = Some h -> Q h s -> ok Q s (get_handle p).
Proof. intros Hc HQ. unfold wp, get_handle. by rewrite Hc. Qed.

Lemma wp_BinFromIndex b l (Q : list nat -> t D -> Prop) s :
  bins_ s !! Z.to_nat b = Some l -> Q l s -> ok Q s (BinFromIndex b).
Proof. intros Hc HQ. unfold wp, BinFromIndex. by rewrite Hc. Qed.

Lemma wp_enforce b (Q : unit -> t D -> Prop) s :
  b = true -> Q tt s -> ok Q s (AS_ENFORCE b).
Proof. by intros -> HQ. Qed.

(** ** Bins *)

(** The state after chunk [h] became [c] and the bins [bs]. *)
Definition rebinned (s : t D) (h : nat) (c : Chunk) (bs : list (list nat)) : t D :=
  set_bins bs (set_chunks (<[h := c]> (chunks_ s)) s).

Lemma heap_rebinned lay u s h c b bs :
  heap lay u s -> h ∈ concat lay -> chunks_ s !! h = Some c ->
  bins_ok (<[h := set_bin_num b c]> (chunks_ s)) bs ->
  heap lay u (rebinned s h (set_bin_num b c) bs).
Proof.
  intros Hh Hin Hc Hb. destruct Hh as [Hsp _ Hf Hid Ho Ht Hl Hcu Hs]. split; try done; simpl.
  - eapply (space_frame Hsp); [|done|].
    + intros x. destruct (decide (x = h)) as [->|Hne].
      * rewrite list_lookup_insert_eq by (by eapply lookup_lt_Some). by rewrite Hc.
      * by rewrite list_lookup_insert_ne.
    + intros x Hx. rewrite list_lookup_insert_ne; [by apply (sp_unused _ _ _ _ _ Hsp)|].
      intros ->. by apply (sp_not_unused Hsp x).
  - intros x d Hd. apply list_lookup_insert_Some in Hd as [(-> & <- & _)|[_ Hd]].
    + simpl. by eapply Hf.
    + by eapply Hf.
Qed.

Lemma used_rebinned s h c b bs :
  chunks_ s !! h = Some c -> used (rebinned s h (set_bin_num b c) bs) = used s.
Proof.
  intros Hc. apply used_same. intros x. simpl. destruct (decide (x = h)) as [->|Hne].
  - rewrite list_lookup_insert_eq by (by eapply lookup_lt_Some). by rewrite Hc.
  - by rewrite list_lookup_insert_ne.
Qed.

Lemma bin_ptr_other lay u s h c :
  heap lay u s -> h ∈ concat lay -> chunks_ s !! h = Some c -> bin_num c = None ->
  forall x d z, chunks_ s !! x = Some d -> bin_num d = Some z -> ptr d <> ptr c.
Proof.
  intros Hh Hin Hc Hb x d z Hd Hz He.
  assert (x ∈ concat lay) as Hx.
  { destruct (sp_bound (hp_space _ _ _ Hh) x) as [_ [H|H]]; [by eapply lookup_lt_Some|done|].
    destruct (sp_unused _ _ _ _ _ (hp_space _ _ _ Hh) _ H) as (c' & ? & _ & ?). congruence. }
  assert (x = h) as ->; [|congruence]. by eapply (sp_ptr_inj (hp_space _ _ _ Hh)).
Qed.

Lemma InsertFreeChunkIntoBin_ok lay u s h c :
  heap lay u s -> h ∈ concat lay -> chunks_ s !! h = Some c ->
  in_use c = false -> bin_num c = None ->
  ok (fun _ s' => exists bs, heap lay u s' /\
        s' = rebinned s h (set_bin_num (Some (BinNumForSize (size c))) c) bs)
     s (InsertFreeChunkIntoBin h).
Proof.
  intros Hh Hin Hc Hu Hb. unfold InsertFreeChunkIntoBin.
  wp_step. eapply wp_ChunkFromHandle; [done|].
  wp_step. apply wp_enforce; [by rewrite Hu, Hb|].
  destruct (bins_insert (hp_bins _ _ _ Hh) h c Hc Hb Hu) as (l & Hl & Hok).
  { by eapply bin_ptr_other. }
  wp_step. eapply wp_BinFromIndex; [done|].
  wp_step. eapply wp_upd_chunk; [done|].
  do 2 wp_step. apply wp_modify. eexists. split; [|done]. by apply heap_rebinned.
Qed.

Lemma RemoveFreeChunkFromBin_bins s h c z :
  bins_ok (chunks_ s) (bins_ s) -> chunks_ s !! h = Some c -> bin_num c = Some z ->
  ok (fun _ s' => exists bs, s' = rebinned s h (set_bin_num None c) bs /\
        bins_ok (<[h := set_bin_num None c]> (chunks_ s)) bs)
     s (RemoveFreeChunkFromBin h).
Proof.
  intros Hb Hc Hz. unfold RemoveFreeChunkFromBin.
  destruct (bo_chunk _ _ Hb _ _ _ Hc Hz) as [Hu _].
  destruct (bins_remove Hb h c z Hc Hz) as (l & Hl & Hm & He & Hok).
  wp_step. eapply wp_ChunkFromHandle; [done|].
  wp_step. apply wp_enforce; [by rewrite Hu, Hz|]. rewrite Hz.
  wp_step. eapply wp_BinFromIndex; [done|]. do 2 wp_step. rewrite He.
  wp_step. apply wp_modify. wp_step.
  apply wp_enforce; [by apply Nat.ltb_lt, filter_shorter|].
  eapply wp_upd_chunk; [done|].
  exists (<[Z.to_nat z := filter (fun x => x <> h) l]> (bins_ s)). done.
Qed.

Lemma RemoveFreeChunkFromBin_ok lay u s h c z :
  heap lay u s -> h ∈ concat lay -> chunks_ s !! h = Some c -> bin_num c = Some z ->
  ok (fun _ s' => exists bs, heap lay u s' /\ s' = rebinned s h (set_bin_num None c) bs)
     s (RemoveFreeChunkFromBin h).
Proof.
  intros Hh Hin Hc Hz.
  eapply wp_mono; [eapply RemoveFreeChunkFromBin_bins; [by apply (hp_bins _ _ _ Hh)|done..]| |done].
  intros _ s' (bs & -> & Hb). exists bs. split; [|done]. by apply heap_rebinned.
Qed.

Lemma RemoveFreeChunkIterFromBin_ok lay u s h c z :
  heap lay u s -> h ∈ concat lay -> chunks_ s !! h = Some c -> bin_num c = Some z ->
  ok (fun _ s' => exists bs, heap lay u s' /\ s' = rebinned s h (set_bin_num None c) bs)
     s (RemoveFreeChunkIterFromBin z h).
Proof.
  intros Hh Hin Hc Hz. unfold RemoveFreeChunkIterFromBin.
  destruct (bo_chunk _ _ (hp_bins _ _ _ Hh) _ _ _ Hc Hz) as [Hu _].
  destruct (bins_remove (hp_bins _ _ _ Hh) h c z Hc Hz) as (l & Hl & Hm & He & Hok).
  wp_step. eapply wp_ChunkFromHandle; [done|].
  wp_step. apply wp_enforce; [by rewrite Hu, Hz|].
  wp_step. eapply wp_BinFromIndex; [done|].
  wp_step. apply wp_modify. eapply wp_upd_chunk; [done|].
  exists (<[Z.to_nat z := filter (fun x => x <> h) l]> (bins_ s)).
  split; [|done]. by apply (heap_rebinned lay u s h c None).
Qed.

(** ** Handles, splitting and merging *)

(** The fields no chunk operation touches. *)
Definition same_env (s s' : t D) : Prop :=
  memory_limit_ s' = memory_limit_ s /\ opts_ s' = opts_ s /\
  curr_region_allocation_bytes_ s' = curr_region_allocation_bytes_ s /\
  total_region_allocated_bytes_ s' = total_region_allocated_bytes_ s /\
  sub_allocator_ s' = sub_allocator_ s /\ next_allocation_id_ s' = next_allocation_id_ s /\
  range <$> regions_ s' = range <$> regions_ s.

#[export] Instance same_env_preorder : PreOrder same_env.
Proof.
  split; [by repeat split|]. intros a b c Hab Hbc. unfold same_env in *.
  intuition congruence.
Qed.

Lemma region_bytes_range rs rs' : range <$> rs' = range <$> rs -> region_bytes rs' = region_bytes rs.
Proof.
  revert rs'. induction rs as [|r rs IH]; intros [|r' rs']; simpl; try done.
  intros [= _ E H]. by rewrite E, (IH _ H).
Qed.

Lemma heap_env lay u lay' u' s s' :
  heap lay u s -> same_env s s' ->
  space (chunks_ s') (free_chunks_list_ s') (regions_ s') lay' u' ->
  bins_ok (chunks_ s') (bins_ s') ->
  (forall h c, chunks_ s' !! h = Some c -> freed_at_count c = 0) -> heap lay' u' s'.
Proof.
  intros [_ _ _ Hid Ho Ht Hl Hc Hs] (E1 & E2 & E3 & E4 & E5 & E6 & E7) Hsp Hb Hf.
  pose proof (region_bytes_range _ _ E7) as E8.
  split; [done|done|done|by rewrite E6|by rewrite E2|by rewrite E4, E8|by rewrite E1, E8|by rewrite E3|].
  by rewrite E5, E7.
Qed.

(** The state after [AllocateChunk] took [n], with the old value [dn], from
    the unused handles; the rest of them are [u']. *)
Record popped (lay : list (list nat)) (s : t D) (n : nat) (dn : Chunk) (u' : list nat)
    (s' : t D) : Prop := mkPopped {
  pp_space : space (chunks_ s') (Some n) (regions_ s') lay (n :: u');
  pp_dn : chunks_ s' !! n = Some dn;
  pp_free : free_chunks_list_ s' = next dn;
  pp_regions : regions_ s' = regions_ s;
  pp_env : same_env s s';
  pp_bins : bins_ok (chunks_ s') (bins_ s');
  pp_freed : forall h c, chunks_ s' !! h = Some c -> freed_at_count c = 0;
  pp_new : bin_num dn = None /\ in_use dn = false;
  pp_old : forall x, x <> n -> chunks_ s' !! x = chunks_ s !! x;
  pp_used : used s' = used s;
}.

Lemma lookup_snoc_ne {A} (l : list A) x y : y <> length l -> (l ++ [x]) !! y = l !! y.
Proof.
  intros Hy. destruct (decide (y < length l)%nat).
  - by apply lookup_app_l.
  - rewrite lookup_app_r, (lookup_ge_None_2 l) by lia.
    apply lookup_ge_None_2. simpl. lia.
Qed.

Lemma lookup_snoc_eq {A} (l : list A) x : (l ++ [x]) !! length l = Some x.
Proof. rewrite lookup_app_r, Nat.sub_diag by lia. done. Qed.

Lemma AllocateChunk_ok lay u s :
  heap lay u s -> ok (fun n s' => exists dn u', popped lay s n dn u' s') s AllocateChunk.
Proof.
  intros Hh. pose proof (hp_space _ _ _ Hh) as Hsp. unfold AllocateChunk. do 2 wp_step.
  pose proof (sp_free _ _ _ _ _ Hsp) as Hch.
  destruct u as [|n u'].
  - rewrite Hch. do 5 wp_step. simpl.
    set (n := length (chunks_ s)). exists default_chunk, [].
    assert (Hn : (chunks_ s ++ [default_chunk]) !! n = Some default_chunk) by apply lookup_snoc_eq.
    assert (Ho : forall x, x <> n -> (chunks_ s ++ [default_chunk]) !! x = chunks_ s !! x)
      by (intros x Hx; by apply lookup_snoc_ne).
    assert (Hlt : forall x, x ∈ concat lay -> x <> n).
    { intros x Hx ->. apply (or_introl (B := n ∈ [])) in Hx. apply (sp_bound Hsp) in Hx. lia. }
    destruct Hsp as [Hr Hs Hp _ _]. split; simpl; try done.
    + split; [|done|..].
      * apply Forall2_same_length_lookup_2; [by eapply Forall2_length|].
        intros i a b Ha Hb. apply region_ok_frame with (chunks_ s).
        { intros x Hx. rewrite Ho; [done|]. apply Hlt, elem_of_concat. eauto. }
        by eapply (Forall2_lookup_lr (region_ok (chunks_ s))).
      * rewrite length_app. simpl. rewrite Nat.add_1_r, seq_S, <- Hp. simpl.
        by rewrite app_nil_r.
      * simpl. split; [done|]. by exists default_chunk.
      * intros x Hx. apply list_elem_of_singleton in Hx as ->. by exists default_chunk.
    + eapply bins_frame; [|by apply (hp_bins _ _ _ Hh)]. intros x.
      destruct (decide (x = n)) as [->|Hx]; [|by rewrite Ho].
      rewrite Hn. unfold n. by rewrite (lookup_ge_None_2 (chunks_ s)) by lia.
    + intros x c Hc. destruct (decide (x = n)) as [->|Hx].
      * rewrite Hn in Hc. by simplify_eq.
      * rewrite Ho in Hc by done. by eapply (hp_freed _ _ _ Hh).
    + apply used_same. intros x. simpl. destruct (decide (x = n)) as [->|Hx]; [|by rewrite Ho].
      rewrite Hn. unfold n. by rewrite (lookup_ge_None_2 (chunks_ s)) by lia.
  - destruct Hch as (Hfl & dn & Hdn & Hch). rewrite Hfl.
    wp_step. eapply wp_ChunkFromHandle; [done|]. do 3 wp_step. exists dn, u'.
    destruct (sp_unused _ _ _ _ _ Hsp n ltac:(by left)) as (d & ? & Ha & Hb). simplify_eq.
    split; simpl; try done.
    + by rewrite <- Hfl.
    + by apply (hp_bins _ _ _ Hh).
    + by apply (hp_freed _ _ _ Hh).
    + split; [done|]. by apply in_use_id.
Qed.

(** What a chunk is apart from its link backwards. *)
Definition obs (c : Chunk) : Z * Z * handle * Z * option Z :=
  (ptr c, size c, next c, allocation_id c, bin_num c).

Lemma obs_block (a b : option Chunk) : obs <$> a = obs <$> b -> a ≫= block = b ≫= block.
Proof.
  destruct a as [c|], b as [d|]; cbn; try done. intros [= E1 E2 _ E4 _].
  unfold block, in_use. by rewrite E1, E2, E4.
Qed.

Lemma obs_binned (a b : option Chunk) :
  obs <$> a = obs <$> b -> a ≫= binned_as = b ≫= binned_as.
Proof.
  destruct a as [c|], b as [d|]; cbn; try done. intros [= E1 E2 _ E4 E5].
  unfold binned_as, in_use. by rewrite E1, E2, E4, E5.
Qed.

Lemma obs_Some (a b : option Chunk) c :
  obs <$> a = obs <$> b -> b = Some c ->
  exists d, a = Some d /\ ptr d = ptr c /\ size d = size c /\ next d = next c /\
    in_use d = in_use c /\ bin_num d = bin_num c.
Proof.
  intros E ->. destruct a as [d|]; [|done]. cbn in E. injection E as E1 E2 E3 E4 E5.
  exists d. unfold in_use. by rewrite E4.
Qed.

Lemma range_with_handle (rs : list region) i r j h :
  rs !! i = Some r -> range <$> <[i := with_handle r j h]> rs = range <$> rs.
Proof. intros Hi. rewrite list_fmap_insert. apply list_insert_id. by rewrite list_lookup_fmap, Hi. Qed.

(** The state of a split before the new chunk is binned. *)
Record split_state (h n : nat) (c dn : Chunk) (k : Z) (i : nat) (r : region) (j : nat)
    (s1 s2 : t D) : Prop := mkSplitState {
  sl_h : chunks_ s2 !! h = Some (set_next (Some n) (set_size k c));
  sl_n : chunks_ s2 !! n = Some (mkChunk (size c - k) (requested_size dn) (-1) (ptr c + k)
                                   (Some h) (next c) (bin_num dn) (freed_at_count c));
  sl_next : forall x d, next c = Some x -> chunks_ s1 !! x = Some d ->
    chunks_ s2 !! x = Some (set_prev (Some n) d);
  sl_other : forall x, x <> h -> x <> n -> next c <> Some x -> chunks_ s2 !! x = chunks_ s1 !! x;
  sl_length : length (chunks_ s2) = length (chunks_ s1);
  sl_free : free_chunks_list_ s2 = free_chunks_list_ s1;
  sl_regions : regions_ s2 = <[i := with_handle r j (Some n)]> (regions_ s1);
  sl_bins : bins_ s2 = bins_ s1;
  sl_env : same_env s1 s2;
}.

Section split.
Context {lay : list (list nat)} {u u' : list nat} {s s1 s2 : t D} {h n : nat} {c dn : Chunk}
  {k : Z} {i j : nat} {r : region} {l1 l2 : list nat}.
Context (Hh : heap lay u s) (Hpp : popped lay s n dn u' s1)
  (Hli : lay !! i = Some (l1 ++ h :: l2)) (Hi : regions_ s1 !! i = Some r)
  (Hc : chunks_ s1 !! h = Some c) (Huse : in_use c = false) (Hbin : bin_num c = None)
  (Hk : 0 < k < size c) (Hdk : (256 | k))
  (Hj : ptr c + k = ptr_ r + 256 * Z.of_nat j) (Hjl : (j < length (handles_ r))%nat)
  (Hst : split_state h n c dn k i r j s1 s2).

Lemma split_obs x : x <> h -> x <> n -> obs <$> chunks_ s2 !! x = obs <$> chunks_ s1 !! x.
Proof using All.
  intros Hxh Hxn. destruct (decide (next c = Some x)) as [Hx|Hx].
  - destruct (chunks_ s1 !! x) as [d|] eqn:Ed.
    + by rewrite (sl_next _ _ _ _ _ _ _ _ _ _ Hst x d Hx Ed).
    + apply lookup_ge_None_1 in Ed. rewrite (lookup_ge_None_2 (chunks_ s2)); [done|].
      by rewrite (sl_length _ _ _ _ _ _ _ _ _ _ Hst).
  - by rewrite (sl_other _ _ _ _ _ _ _ _ _ _ Hst).
Qed.

Lemma split_used : used s2 = used s.
Proof using All.
  rewrite <- (pp_used _ _ _ _ _ _ Hpp). apply used_same. intros x.
  destruct (decide (x = h)) as [->|Hxh].
  { rewrite (sl_h _ _ _ _ _ _ _ _ _ _ Hst), Hc. cbn. unfold block, in_use in *. cbn. by rewrite Huse. }
  destruct (decide (x = n)) as [->|Hxn].
  { rewrite (sl_n _ _ _ _ _ _ _ _ _ _ Hst), (pp_dn _ _ _ _ _ _ Hpp). cbn.
    unfold block. by rewrite (proj2 (pp_new _ _ _ _ _ _ Hpp)). }
  by apply obs_block, split_obs.
Qed.

Lemma split_bins : bins_ok (chunks_ s2) (bins_ s2).
Proof using All.
  rewrite (sl_bins _ _ _ _ _ _ _ _ _ _ Hst).
  eapply bins_frame; [|by apply (pp_bins _ _ _ _ _ _ Hpp)]. intros x.
  destruct (decide (x = h)) as [->|Hxh].
  { rewrite (sl_h _ _ _ _ _ _ _ _ _ _ Hst), Hc. cbn. unfold binned_as. cbn. by rewrite Hbin. }
  destruct (decide (x = n)) as [->|Hxn].
  { rewrite (sl_n _ _ _ _ _ _ _ _ _ _ Hst), (pp_dn _ _ _ _ _ _ Hpp). cbn.
    unfold binned_as. cbn. by rewrite (proj1 (pp_new _ _ _ _ _ _ Hpp)). }
  by apply obs_binned, split_obs.
Qed.

Lemma split_space :
  space (chunks_ s2) (free_chunks_list_ s2) (regions_ s2) (<[i := l1 ++ h :: n :: l2]> lay) u'.
Proof using All.
  rewrite (sl_regions _ _ _ _ _ _ _ _ _ _ Hst), (sl_free _ _ _ _ _ _ _ _ _ _ Hst).
  rewrite (pp_free _ _ _ _ _ _ Hpp).
  pose proof (pp_space _ _ _ _ _ _ Hpp) as Hsp.
  assert (h ∈ concat lay) as Hin by (apply elem_of_concat; eexists _, _; split; [done|set_solver]).
  pose proof (sp_nodup Hsp) as Hnd. apply NoDup_app in Hnd as (_ & Hnd1 & Hnd).
  apply NoDup_cons in Hnd as [Hnd _].
  eapply (space_split (chunks_ s1) (chunks_ s2)); try done.
  - by apply (pp_dn _ _ _ _ _ _ Hpp).
  - by apply (sl_length _ _ _ _ _ _ _ _ _ _ Hst).
  - by rewrite (sl_h _ _ _ _ _ _ _ _ _ _ Hst).
  - by rewrite (sl_n _ _ _ _ _ _ _ _ _ _ Hst).
  - intros x d Hx Hd. by rewrite (sl_next _ _ _ _ _ _ _ _ _ _ Hst x d Hx Hd).
  - intros x Hxh Hxn Hx. by rewrite (sl_other _ _ _ _ _ _ _ _ _ _ Hst).
  - intros x Hx. apply (sl_other _ _ _ _ _ _ _ _ _ _ Hst).
    + intros ->. apply (Hnd1 _ Hin). by right.
    + by intros ->.
    + intros Hn. destruct (sp_next Hsp _ _ _ Hin Hc Hn) as (? & ? & ? & ? & ? & _ & _ & _ & _ & _ & Hx' & _).
      apply (Hnd1 _ Hx'). by right.
Qed.

Lemma split_heap : heap (<[i := l1 ++ h :: n :: l2]> lay) u' s2.
Proof using All.
  eapply heap_env; [exact Hh| |exact split_space|exact split_bins|].
  - etrans; [by apply (pp_env _ _ _ _ _ _ Hpp)|by apply (sl_env _ _ _ _ _ _ _ _ _ _ Hst)].
  - intros x d Hd. pose proof (pp_freed _ _ _ _ _ _ Hpp) as Hf.
    destruct (decide (x = h)) as [->|Hxh].
    { rewrite (sl_h _ _ _ _ _ _ _ _ _ _ Hst) in Hd. injection Hd as <-. simpl. by eapply Hf. }
    destruct (decide (x = n)) as [->|Hxn].
    { rewrite (sl_n _ _ _ _ _ _ _ _ _ _ Hst) in Hd. injection Hd as <-. simpl. by eapply Hf. }
    destruct (decide (next c = Some x)) as [Hx|Hx].
    + destruct (chunks_ s1 !! x) as [d'|] eqn:Ed.
      * rewrite (sl_next _ _ _ _ _ _ _ _ _ _ Hst x d' Hx Ed) in Hd. injection Hd as <-.
        simpl. by eapply Hf.
      * apply lookup_ge_None_1 in Ed. rewrite (lookup_ge_None_2 (chunks_ s2)) in Hd; [done|].
        by rewrite (sl_length _ _ _ _ _ _ _ _ _ _ Hst).
    + rewrite (sl_other _ _ _ _ _ _ _ _ _ _ Hst) in Hd by done. by eapply Hf.
Qed.
End split.

Lemma SplitChunk_ok lay u s h c k :
  heap lay u s -> h ∈ concat lay -> chunks_ s !! h = Some c ->
  in_use c = false -> bin_num c = None -> 0 < k < size c -> (256 | k) ->
  ok (fun _ s' => exists lay' u' n cn,
        heap lay' u' s' /\ same_env s s' /\ n ∉ concat lay /\
        (forall x, x ∈ concat lay' <-> x = n \/ x ∈ concat lay) /\
        chunks_ s' !! h = Some (set_next (Some n) (set_size k c)) /\
        chunks_ s' !! n = Some cn /\ in_use cn = false /\ bin_num cn <> None /\
        next cn = next c /\
        (forall x, x ∈ concat lay -> x <> h ->
           obs <$> chunks_ s' !! x = obs <$> chunks_ s !! x) /\
        used s' = used s)
     s (SplitChunk h k).
Proof.
  intros Hh Hin Hc Huse Hbin Hk Hdk. unfold SplitChunk.
  wp_step. eapply wp_mono; [by apply (AllocateChunk_ok lay u)| |done].
  intros n s1 (dn & u' & Hpp). cbv beta.
  pose proof (pp_space _ _ _ _ _ _ Hpp) as Hsp. pose proof (pp_dn _ _ _ _ _ _ Hpp) as Hdn.
  assert (Hnl : n ∉ concat lay).
  { intros Hn. apply (sp_not_unused Hsp n Hn). by left. }
  assert (Hnh : n <> h) by (intros ->; done).
  assert (Hc1 : chunks_ s1 !! h = Some c) by (by rewrite (pp_old _ _ _ _ _ _ Hpp)).
  destruct (sp_live Hsp _ Hin) as (i & r & l & c' & Hi & Hli & Hok & Hl & Hc').
  assert (c' = c) as -> by congruence. clear Hc'.
  assert (Hsz : u64 (size c - k) = size c - k).
  { destruct (seg_elem _ _ _ _ _ _ _ (ro_seg _ _ _ Hok) Hl) as (? & ? & ? & ? & _).
    destruct Hok. simplify_eq. apply u64_small. lia. }
  apply list_elem_of_split in Hl as (l1 & l2 & ->).
  destruct (sp_set_handle Hsp i r _ h c (ptr c + k) (Some n) Hi Hli) as (j & Hj & Hjl & Hset);
    [set_solver|done|lia|by replace (ptr c + k - ptr c) with k by lia|].
  wp_step. eapply wp_ChunkFromHandle; [done|].
  wp_step. apply wp_enforce; [by rewrite Huse, Hbin|].
  wp_step. eapply wp_upd_chunk; [done|].
  wp_step. eapply wp_set_handle; [exact Hset|].
  do 5 (wp_step; eapply wp_upd_chunk; [look; first [reflexivity|eassumption]|]). rewrite Hsz.
  wp_step. eapply (wp_mono _ (fun _ s2 => split_state h n c dn k i r j s1 s2) _ (fun _ _ => False));
    [| |done].
  - destruct (next c) as [hn|] eqn:Enx.
    + destruct (sp_next Hsp _ _ _ Hin Hc1 Enx) as (i0 & r0 & l10 & l20 & d & _ & _ & _ & Hd & _ & Hhn & Hne).
      assert (hn <> n) by (intros ->; done).
      eapply wp_upd_chunk; [look; exact Hd|]. split; try done.
      * look. done.
      * look. by rewrite Enx.
      * intros x d' Hx Hd'. rewrite Enx in Hx. injection Hx as <-. look. congruence.
      * intros x Hxh Hxn Hx. rewrite Enx in Hx. by look.
      * simpl. by rewrite !length_insert.
      * repeat split; try done. simpl. by apply range_with_handle.
    + wp_step. split; try done.
      * look. done.
      * look. by rewrite Enx.
      * intros x d' Hx. by rewrite Enx in Hx.
      * intros x Hxh Hxn Hx. by look.
      * simpl. by rewrite !length_insert.
      * repeat split; try done. simpl. by apply range_with_handle.
  - intros _ s2 Hst. cbv beta.
    pose proof (split_heap Hh Hpp Hli Hi Hc1 Huse Hbin Hk Hdk Hj Hjl Hst) as Hh2.
    pose proof (split_used Hh Hpp Hli Hi Hc1 Huse Hbin Hk Hdk Hj Hjl Hst) as Hu2.
    pose proof (split_obs Hh Hpp Hli Hi Hc1 Huse Hbin Hk Hdk Hj Hjl Hst) as Ho.
    set (lay' := <[i:=l1 ++ h :: n :: l2]> lay) in *.
    assert (Hm : forall x, x ∈ concat lay' <-> x = n \/ x ∈ concat lay).
    { intros x. destruct (concat_lookup _ _ _ Hli) as [E1 E2].
      unfold lay'. rewrite E2, E1. set_solver. }
    pose proof (sl_n _ _ _ _ _ _ _ _ _ _ Hst) as Hn2.
    rewrite (proj1 (pp_new _ _ _ _ _ _ Hpp)) in Hn2.
    eapply wp_mono; [eapply (InsertFreeChunkIntoBin_ok lay' u' s2 n)| |done]; try done.
    { apply Hm. by left. }
    cbv beta. intros _ s3 (bs & Hh3 & ->).
    eexists lay', u', n, _. split; [done|].
    split.
    { etrans; [by apply (pp_env _ _ _ _ _ _ Hpp)|]. by apply (sl_env _ _ _ _ _ _ _ _ _ _ Hst). }
    split; [done|]. split; [done|]. unfold rebinned.
    pose proof (sl_h _ _ _ _ _ _ _ _ _ _ Hst) as Hh2'.
    split; [by look|]. split; [by look|]. do 3 (split; [done|]). split.
    + intros x Hx Hxh. assert (x <> n) by (intros ->; done). look.
      rewrite Ho by done. by rewrite (pp_old _ _ _ _ _ _ Hpp).
    + rewrite <- Hu2. by apply used_rebinned.
Qed.

Record merge_state (h n : nat) (c d : Chunk) (i : nat) (r : region) (j : nat)
    (s s2 : t D) : Prop := mkMergeState {
  mg_h : chunks_ s2 !! h = Some (mkChunk (size c + size d) (requested_size c) (allocation_id c)
           (ptr c) (prev c) (next d) (bin_num c) (Z.max (freed_at_count c) (freed_at_count d)));
  mg_n : chunks_ s2 !! n =
           Some (set_next (free_chunks_list_ s) (set_bin_num None (set_allocation_id (-1) d)));
  mg_next : forall x a, next d = Some x -> chunks_ s !! x = Some a ->
    chunks_ s2 !! x = Some (set_prev (Some h) a);
  mg_other : forall x, x <> h -> x <> n -> next d <> Some x -> chunks_ s2 !! x = chunks_ s !! x;
  mg_length : length (chunks_ s2) = length (chunks_ s);
  mg_free : free_chunks_list_ s2 = Some n;
  mg_regions : regions_ s2 = <[i := with_handle r j None]> (regions_ s);
  mg_bins : bins_ s2 = bins_ s;
  mg_env : same_env s s2;
}.

Section merge.
Context {lay : list (list nat)} {u : list nat} {s s2 : t D} {h n : nat} {c d : Chunk}
  {i j : nat} {r : region} {l1 l2 : list nat}.
Context (Hh : heap lay u s)
  (Hli : lay !! i = Some (l1 ++ h :: n :: l2)) (Hi : regions_ s !! i = Some r)
  (Hc : chunks_ s !! h = Some c) (Hd : chunks_ s !! n = Some d) (Hnh : n <> h)
  (Husec : in_use c = false) (Hused : in_use d = false)
  (Hbc : bin_num c = None) (Hbd : bin_num d = None)
  (Hj : ptr d = ptr_ r + 256 * Z.of_nat j) (Hjl : (j < length (handles_ r))%nat)
  (Hst : merge_state h n c d i r j s s2).

Lemma merge_obs x : x <> h -> x <> n -> obs <$> chunks_ s2 !! x = obs <$> chunks_ s !! x.
Proof using All.
  intros Hxh Hxn. destruct (decide (next d = Some x)) as [Hx|Hx].
  - destruct (chunks_ s !! x) as [a|] eqn:Ed.
    + by rewrite (mg_next _ _ _ _ _ _ _ _ _ Hst x a Hx Ed).
    + apply lookup_ge_None_1 in Ed. rewrite (lookup_ge_None_2 (chunks_ s2)); [done|].
      by rewrite (mg_length _ _ _ _ _ _ _ _ _ Hst).
  - by rewrite (mg_other _ _ _ _ _ _ _ _ _ Hst).
Qed.

Lemma merge_used : used s2 = used s.
Proof using All.
  apply used_same. intros x. destruct (decide (x = h)) as [->|Hxh].
  { rewrite (mg_h _ _ _ _ _ _ _ _ _ Hst), Hc. cbn. unfold block, in_use in *. cbn.
    by rewrite Husec. }
  destruct (decide (x = n)) as [->|Hxn].
  { rewrite (mg_n _ _ _ _ _ _ _ _ _ Hst), Hd. cbn. unfold block. by rewrite Hused. }
  by apply obs_block, merge_obs.
Qed.

Lemma merge_bins : bins_ok (chunks_ s2) (bins_ s2).
Proof using All.
  rewrite (mg_bins _ _ _ _ _ _ _ _ _ Hst).
  eapply bins_frame; [|by apply (hp_bins _ _ _ Hh)]. intros x.
  destruct (decide (x = h)) as [->|Hxh].
  { rewrite (mg_h _ _ _ _ _ _ _ _ _ Hst), Hc. cbn. unfold binned_as. cbn. by rewrite Hbc. }
  destruct (decide (x = n)) as [->|Hxn].
  { rewrite (mg_n _ _ _ _ _ _ _ _ _ Hst), Hd. cbn. unfold binned_as. cbn. by rewrite Hbd. }
  by apply obs_binned, merge_obs.
Qed.

Lemma merge_space :
  space (chunks_ s2) (free_chunks_list_ s2) (regions_ s2) (<[i := l1 ++ h :: l2]> lay) (n :: u).
Proof using All.
  rewrite (mg_regions _ _ _ _ _ _ _ _ _ Hst), (mg_free _ _ _ _ _ _ _ _ _ Hst).
  pose proof (hp_space _ _ _ Hh) as Hsp.
  assert (h ∈ concat lay) as Hin by (apply elem_of_concat; eexists _, _; split; [done|set_solver]).
  assert (n ∈ concat lay) as Hinn by (apply elem_of_concat; eexists _, _; split; [done|set_solver]).
  eapply (space_merge (chunks_ s) (chunks_ s2) _ _ _ _ _ _ _ _ _ _ c d
    (set_next (free_chunks_list_ s) (set_bin_num None (set_allocation_id (-1) d))));
    try done.
  - by apply (mg_length _ _ _ _ _ _ _ _ _ Hst).
  - by rewrite (mg_h _ _ _ _ _ _ _ _ _ Hst).
  - by apply (mg_n _ _ _ _ _ _ _ _ _ Hst).
  - intros x a Hx Ha. by rewrite (mg_next _ _ _ _ _ _ _ _ _ Hst x a Hx Ha).
  - intros x Hxh Hxn Hx. by rewrite (mg_other _ _ _ _ _ _ _ _ _ Hst).
  - intros x Hx. apply (mg_other _ _ _ _ _ _ _ _ _ Hst).
    + intros ->. by apply (sp_not_unused Hsp h).
    + intros ->. by apply (sp_not_unused Hsp n).
    + intros Hn. destruct (sp_next Hsp _ _ _ Hinn Hd Hn)
        as (? & ? & ? & ? & ? & _ & _ & _ & _ & _ & Hx' & _).
      by apply (sp_not_unused Hsp x).
Qed.

Lemma merge_heap : heap (<[i := l1 ++ h :: l2]> lay) (n :: u) s2.
Proof using All.
  eapply heap_env; [exact Hh|by apply (mg_env _ _ _ _ _ _ _ _ _ Hst)|exact merge_space|exact merge_bins|].
  intros x a Ha. pose proof (hp_freed _ _ _ Hh) as Hf.
  destruct (decide (x = h)) as [->|Hxh].
  { rewrite (mg_h _ _ _ _ _ _ _ _ _ Hst) in Ha. injection Ha as <-. simpl.
    by rewrite (Hf _ _ Hc), (Hf _ _ Hd). }
  destruct (decide (x = n)) as [->|Hxn].
  { rewrite (mg_n _ _ _ _ _ _ _ _ _ Hst) in Ha. injection Ha as <-. simpl. by eapply Hf. }
  destruct (decide (next d = Some x)) as [Hx|Hx].
  - destruct (chunks_ s !! x) as [d'|] eqn:Ed.
    + rewrite (mg_next _ _ _ _ _ _ _ _ _ Hst x d' Hx Ed) in Ha. injection Ha as <-.
      simpl. by eapply Hf.
    + apply lookup_ge_None_1 in Ed. rewrite (lookup_ge_None_2 (chunks_ s2)) in Ha; [done|].
      by rewrite (mg_length _ _ _ _ _ _ _ _ _ Hst).
  - rewrite (mg_other _ _ _ _ _ _ _ _ _ Hst) in Ha by done. by eapply Hf.
Qed.
End merge.

Lemma Merge_ok lay u s h n c d :
  heap lay u s -> h ∈ concat lay -> chunks_ s !! h = Some c -> next c = Some n ->
  chunks_ s !! n = Some d -> in_use c = false -> in_use d = false ->
  bin_num c = None -> bin_num d = None ->
  ok (fun _ s' => exists lay' u' c',
        heap lay' u' s' /\ same_env s s' /\ n ∉ concat lay' /\
        (forall x, x ∈ concat lay <-> x = n \/ x ∈ concat lay') /\
        chunks_ s' !! h = Some c' /\ in_use c' = false /\ bin_num c' = None /\
        next c' = next d /\ prev c' = prev c /\ size c' = size c + size d /\ ptr c' = ptr c /\
        (forall x, x ∈ concat lay' -> x <> h ->
           obs <$> chunks_ s' !! x = obs <$> chunks_ s !! x) /\
        used s' = used s)
     s (Merge h n).
Proof.
  intros Hh Hin Hc Hnx Hd Hu1 Hu2 Hb1 Hb2. pose proof (hp_space _ _ _ Hh) as Hsp.
  destruct (sp_next Hsp _ _ _ Hin Hc Hnx)
    as (i & r & l1 & l2 & d' & Hi & Hli & Hok & Hd' & Hpv & Hinn & Hnh).
  assert (d' = d) as -> by congruence. clear Hd'.
  destruct (seg_elem _ _ _ _ _ _ n (ro_seg _ _ _ Hok)) as (? & ? & ? & ? & ? & ? & _);
    [set_solver|]. simplify_eq.
  destruct (sp_set_handle Hsp i r _ n d (ptr d) None Hi Hli) as (j & Hj & Hjl & Hset);
    [set_solver|done|lia|rewrite Z.sub_diag; apply Z.divide_0_r|].
  assert (Hsz : u64 (size c + size d) = size c + size d /\ next d = hd l2 None).
  { destruct (proj1 (seg_app _ _ _ _ _ _ _) (ro_seg _ _ _ Hok)) as (m & Hs1 & Hs).
    simpl in Hs. destruct Hs as (? & ? & ? & _ & _ & ? & _ & ? & ? & ? & _ & ? & ? & _ & Hs).
    apply seg_le in Hs. apply seg_le in Hs1. destruct Hok. simplify_eq.
    split; [|done]. apply u64_small. lia. }
  destruct Hsz as [Hsz Hnx2].
  assert (Hnxh : next d <> Some h).
  { rewrite Hnx2. pose proof (sp_list_nodup Hsp _ _ Hli) as Hnd.
    apply NoDup_app in Hnd as (_ & _ & Hnd). apply NoDup_cons in Hnd as [Hnd _].
    destruct l2; simpl; [done|]. intros [= ->]. set_solver. }
  unfold Merge. wp_step. eapply wp_ChunkFromHandle; [done|].
  wp_step. eapply wp_ChunkFromHandle; [done|].
  wp_step. apply wp_enforce; [by rewrite Hu1, Hu2|].
  wp_step. eapply wp_upd_chunk; [done|].
  wp_step. apply wp_enforce; [by rewrite Hpv, bool_decide_true|].
  eapply (wp_mono _ (fun _ s2 => merge_state h n c d i r j s s2) _ (fun _ _ => False));
    [| |done].
  - destruct (next d) as [hn|] eqn:Enx.
    + destruct (sp_next Hsp _ _ _ Hinn Hd Enx)
        as (i0 & r0 & l10 & l20 & a & _ & _ & _ & Ha & Hpa & Hhn & Hne).
      assert (hn <> h) by congruence.
      wp_step. eapply wp_upd_chunk; [look; exact Ha|].
      wp_step. eapply wp_upd_chunk; [look; reflexivity|].
      wp_step. eapply wp_upd_chunk; [look; reflexivity|].
      unfold DeleteChunk. wp_step. eapply wp_ChunkFromHandle; [look; exact Hd|].
      wp_step. eapply wp_set_handle; [exact Hset|].
      unfold DeallocateChunk. do 2 wp_step.
      wp_step. eapply wp_upd_chunk; [look; exact Hd|]. apply wp_modify.
      split; try done.
      * look. by rewrite Hsz, Enx.
      * look. done.
      * intros x a' Hx Ha'. rewrite Enx in Hx. injection Hx as <-. look. congruence.
      * intros x Hxh Hxn Hx. rewrite Enx in Hx. by look.
      * simpl. by rewrite !length_insert.
      * repeat split; try done. simpl. by apply range_with_handle.
    + wp_step. wp_step.
      wp_step. eapply wp_upd_chunk; [look; reflexivity|].
      wp_step. eapply wp_upd_chunk; [look; reflexivity|].
      unfold DeleteChunk. wp_step. eapply wp_ChunkFromHandle; [look; exact Hd|].
      wp_step. eapply wp_set_handle; [exact Hset|].
      unfold DeallocateChunk. do 2 wp_step.
      wp_step. eapply wp_upd_chunk; [look; exact Hd|]. apply wp_modify.
      split; try done.
      * look. by rewrite Hsz, Enx.
      * look. done.
      * intros x a' Hx. by rewrite Enx in Hx.
      * intros x Hxh Hxn Hx. by look.
      * simpl. by rewrite !length_insert.
      * repeat split; try done. simpl. by apply range_with_handle.
  - intros _ s2 Hst. cbv beta.
    pose proof (merge_heap Hh Hli Hi Hc Hd Hnh Hu1 Hu2 Hb1 Hb2 Hj Hjl Hst) as Hh2.
    pose proof (merge_used Hh Hli Hi Hc Hd Hnh Hu1 Hu2 Hb1 Hb2 Hj Hjl Hst) as Hus.
    pose proof (merge_obs Hh Hli Hi Hc Hd Hnh Hu1 Hu2 Hb1 Hb2 Hj Hjl Hst) as Ho.
    set (lay' := <[i:=l1 ++ h :: l2]> lay) in *.
    assert (Hnl : n ∉ concat lay').
    { intros Hn. apply (sp_not_unused (hp_space _ _ _ Hh2) n Hn). by left. }
    eexists lay', (n :: u), _. split; [done|].
    split; [by apply (mg_env _ _ _ _ _ _ _ _ _ Hst)|]. split; [done|]. split.
    { intros x. destruct (concat_lookup _ _ _ Hli) as [E1 E2].
      unfold lay'. rewrite E2, E1. set_solver. }
    split; [by apply (mg_h _ _ _ _ _ _ _ _ _ Hst)|].
    do 6 (split; [done|]). split; [|done].
    intros x Hx Hxh. apply Ho; [done|]. by intros ->.
Qed.
End heap.
