(* ===== verification/BfcSafety.v ===== *)
(** The operations of the BFC allocator on its heap: coalescing, growing,
    finding the best fit, releasing regions, and the entry points [Alloc],
    [Free], [RealFree] and [FreeAll], each of which keeps the invariant [inv]
    and changes the blocks in use exactly as promised. *)
From stdpp Require Import base list gmap strings fin_maps sorting.
From S2P Require Import Prelude Bfc BfcLayout BfcHeap.
Import BFCAllocatorImpl.
Import AllocationRegion (ptr_, memory_size_, end_ptr_, handles_).

Section safety.
Context {D : Type} `{HD : SubAllocator D} `{HL : !SubAllocatorLaws D}.

(** * Coalescing *)

Lemma settled_obs lay lay' u' X X' (s s' : t D) :
  settled lay X s -> heap lay' u' s' ->
  (forall x, x ∈ concat lay' -> x ∈ concat lay) ->
  (forall x, x ∈ concat lay' -> x ∉ X' -> x ∉ X /\ obs <$> chunks_ s' !! x = obs <$> chunks_ s !! x) ->
  settled lay' X' s'.
Proof.
  intros [Hb Hco] Hh Hsub Ho. split.
  - intros h c Hin Hc Hu Hx. destruct (Ho h Hin Hx) as [HX E].
    destruct (obs_Some _ _ _ (eq_sym E) Hc) as (c0 & Hc0 & _ & _ & _ & E1 & E2).
    rewrite <- E2. apply (Hb h); [by apply Hsub|done|congruence|done].
  - intros h c n d Hin Hc Hn Hd Hx Hxn. destruct (Ho h Hin Hx) as [HX E].
    destruct (obs_Some _ _ _ (eq_sym E) Hc) as (c0 & Hc0 & _ & _ & En & Eu & _).
    destruct (sp_next (hp_space _ _ _ Hh) _ _ _ Hin Hc Hn)
      as (? & ? & ? & ? & d' & _ & _ & _ & _ & _ & Hinn & _).
    destruct (Ho n Hinn Hxn) as [HXn En'].
    destruct (obs_Some _ _ _ (eq_sym En') Hd) as (d0 & Hd0 & _ & _ & _ & Ed & _).
    rewrite <- Eu, <- Ed. eapply (Hco h c0 n d0); try done; [by apply Hsub|congruence].
Qed.

(** The chunks next to [h] are in use. *)
Definition next_used (s : t D) (c : Chunk) : Prop :=
  forall n d, next c = Some n -> chunks_ s !! n = Some d -> in_use d = true.
Definition prev_used (lay : list (list nat)) (s : t D) (h : nat) : Prop :=
  forall q d, q ∈ concat lay -> chunks_ s !! q = Some d -> next d = Some h -> in_use d = true.

(** The chunk [h] on its way: free, in no bin. *)
Record loose (lay : list (list nat)) (u : list nat) (s : t D) (h : nat) (c : Chunk) : Prop :=
  mkLoose {
  lo_heap : heap lay u s;
  lo_in : h ∈ concat lay;
  lo_chunk : chunks_ s !! h = Some c;
  lo_free : in_use c = false;
  lo_bin : bin_num c = None;
  lo_settled : settled lay [h] s;
}.

Lemma absorb_next lay u s h c n d :
  loose lay u s h c -> next c = Some n -> chunks_ s !! n = Some d -> in_use d = false ->
  ok (fun _ s' => exists lay' u' c', loose lay' u' s' h c' /\ same_env s s' /\
        used s' = used s /\ size c <= size c' /\ next_used s' c')
     s (RemoveFreeChunkFromBin n;; Merge h n).
Proof.
  intros [Hh Hin Hc Hu Hb Hst] Hn Hd Hud. pose proof (hp_space _ _ _ Hh) as Hsp.
  destruct (sp_next Hsp _ _ _ Hin Hc Hn) as (i0 & r0 & l10 & l20 & d' & _ & _ & _ & _ & _ & Hinn & Hne).
  assert (n ∉ [h]) as Hnx by (by rewrite list_elem_of_singleton).
  destruct (bin_num d) as [z|] eqn:Hz.
  2: { destruct (st_binned _ _ _ Hst n d Hinn Hd Hud Hnx Hz). }
  wp_step. eapply wp_mono; [by eapply (RemoveFreeChunkFromBin_ok lay u)| |done].
  cbv beta. intros _ s1 (bs & Hh1 & ->).
  set (s1 := rebinned s n (set_bin_num None d) bs) in *.
  assert (Hd1 : chunks_ s1 !! n = Some (set_bin_num None d)) by (unfold s1, rebinned; by look).
  assert (Ho1 : forall x, x <> n -> chunks_ s1 !! x = chunks_ s !! x)
    by (intros x Hx; unfold s1, rebinned; by look).
  eapply wp_mono; [eapply (Merge_ok lay u s1 h n c); try done| |done].
  { by rewrite Ho1. }
  cbv beta. intros _ s2 (lay' & u' & c' & Hh2 & He & Hnl & Hm & Hc2 & Hu2 & Hb2 & Hn2 & Hp2 &
    Hs2 & Hpt2 & Ho2 & Hus).
  assert (Ho : forall x, x ∈ concat lay' -> x <> h -> obs <$> chunks_ s2 !! x = obs <$> chunks_ s !! x).
  { intros x Hx Hxh. rewrite Ho2 by done. rewrite Ho1; [done|]. by intros ->. }
  exists lay', u', c'. split; [|split; [|split; [|split]]].
  - split; try done.
    + apply Hm in Hin as [->|Hin]; [done|done].
    + eapply settled_obs; [exact Hst|exact Hh2| |].
      * intros x Hx. apply Hm. by right.
      * intros x Hx Hxh. rewrite list_elem_of_singleton in Hxh |- *. split; [done|]. by apply Ho.
  - exact He.
  - rewrite Hus. by apply used_rebinned.
  - rewrite Hs2. simpl.
    destruct (sp_live Hsp _ Hinn) as (? & ? & ? & ? & _ & _ & Hok & Hl & _).
    destruct (seg_elem _ _ _ _ _ _ _ (ro_seg _ _ _ Hok) Hl) as (? & ? & _ & _ & ? & _).
    simplify_eq. lia.
  - intros y e Hy He2. rewrite Hn2 in Hy. simpl in Hy.
    destruct (sp_next Hsp _ _ _ Hinn Hd Hy) as (j0 & r1 & l11 & l21 & e0 & _ & _ & _ & He0 & Hpe & Hyin & Hyn).
    assert (y ∈ concat lay') as Hy'.
    { apply Hm in Hyin as [->|?]; done. }
    assert (y <> h) as Hyh.
    { intros ->. rewrite Hc in He0. injection He0 as <-.
      destruct (sp_prev Hsp _ _ _ Hin Hc Hpe) as (d0 & _ & Hd0 & _).
      assert (Hcyc : ptr c < ptr d /\ ptr d < ptr c); [|lia].
      split; [by eapply (sp_next_ptr Hsp h c n)|by eapply (sp_next_ptr Hsp n d h)]. }
    destruct (obs_Some _ _ _ (Ho y Hy' Hyh) He0) as (e1 & He1 & _ & _ & _ & Eu & _).
    assert (e1 = e) as -> by congruence. rewrite Eu.
    destruct (st_coalesced _ _ _ Hst n d y e0) as [H|H]; try done; [|congruence].
    by rewrite list_elem_of_singleton.
Qed.

Lemma absorb_prev lay u s h c p d :
  loose lay u s h c -> next_used s c ->
  prev c = Some p -> chunks_ s !! p = Some d -> in_use d = false ->
  ok (fun _ s' => exists lay' u' c', loose lay' u' s' p c' /\ same_env s s' /\
        used s' = used s /\ size c <= size c' /\ next_used s' c' /\ prev_used lay' s' p)
     s (RemoveFreeChunkFromBin p;; Merge p h).
Proof.
  intros [Hh Hin Hc Hu Hb Hst] Hnu Hp Hd Hud. pose proof (hp_space _ _ _ Hh) as Hsp.
  destruct (sp_prev Hsp _ _ _ Hin Hc Hp) as (d' & Hinp & Hd' & Hnd).
  assert (d' = d) as -> by congruence. clear Hd'.
  assert (Hlt : ptr d < ptr c) by by eapply (sp_next_ptr Hsp p d h c).
  assert (p <> h) as Hne by (intros ->; simplify_eq; lia).
  assert (p ∉ [h]) as Hpx by (by rewrite list_elem_of_singleton).
  destruct (bin_num d) as [z|] eqn:Hz.
  2: { destruct (st_binned _ _ _ Hst p d Hinp Hd Hud Hpx Hz). }
  wp_step. eapply wp_mono; [by eapply (RemoveFreeChunkFromBin_ok lay u)| |done].
  cbv beta. intros _ s1 (bs & Hh1 & ->).
  set (s1 := rebinned s p (set_bin_num None d) bs) in *.
  assert (Hd1 : chunks_ s1 !! p = Some (set_bin_num None d)) by (unfold s1, rebinned; by look).
  assert (Ho1 : forall x, x <> p -> chunks_ s1 !! x = chunks_ s !! x)
    by (intros x Hx; unfold s1, rebinned; by look).
  assert (Hc1 : chunks_ s1 !! h = Some c) by (by rewrite Ho1).
  eapply wp_mono; [eapply (Merge_ok lay u s1 p h); try done| |done].
  cbv beta. intros _ s2 (lay' & u' & c' & Hh2 & He & Hnl & Hm & Hc2 & Hu2 & Hb2 & Hn2 & Hp2 &
    Hs2 & Hpt2 & Ho2 & Hus).
  assert (Ho : forall x, x ∈ concat lay' -> x <> p -> obs <$> chunks_ s2 !! x = obs <$> chunks_ s !! x).
  { intros x Hx Hxh. rewrite Ho2 by done. by rewrite Ho1. }
  assert (Hsub : forall x, x ∈ concat lay' -> x ∈ concat lay) by (intros x Hx; apply Hm; by right).
  assert (Hinp' : p ∈ concat lay') by (apply Hm in Hinp as [->|?]; done).
  exists lay', u', c'. split; [|split; [|split; [|split; [|split]]]].
  - split; try done. eapply settled_obs; [exact Hst|exact Hh2|exact Hsub|].
    intros x Hx Hxh. rewrite list_elem_of_singleton in Hxh |- *.
    split; [by intros ->|by apply Ho].
  - exact He.
  - rewrite Hus. by apply used_rebinned.
  - rewrite Hs2. simpl.
    destruct (sp_live Hsp _ Hinp) as (? & ? & ? & ? & _ & _ & Hok & Hl & _).
    destruct (seg_elem _ _ _ _ _ _ _ (ro_seg _ _ _ Hok) Hl) as (? & ? & _ & _ & ? & _).
    simplify_eq. lia.
  - intros y e Hy He2. rewrite Hn2 in Hy.
    destruct (sp_next Hsp _ _ _ Hin Hc Hy) as (? & ? & ? & ? & e0 & _ & _ & _ & He0 & _ & Hyin & Hyh).
    assert (y ∈ concat lay') as Hy' by (apply Hm in Hyin as [->|?]; done).
    assert (y <> p) as Hyp.
    { intros ->. assert (ptr c < ptr d); [|lia]. by eapply (sp_next_ptr Hsp h c p d). }
    destruct (obs_Some _ _ _ (Ho y Hy' Hyp) He0) as (e1 & He1 & _ & _ & _ & Eu & _).
    assert (e1 = e) as -> by congruence. rewrite Eu. by eapply Hnu.
  - intros q e Hq He2 Hqn.
    assert (q <> p) as Hqp.
    { intros ->. destruct (sp_next (hp_space _ _ _ Hh2) _ _ _ Hq He2 Hqn)
        as (? & ? & ? & ? & ? & _ & _ & _ & _ & _ & _ & ?). done. }
    destruct (obs_Some _ _ _ (eq_sym (Ho q Hq Hqp)) He2) as (e1 & He1 & _ & _ & En & Eu & _).
    rewrite <- Eu. assert (q <> h) as Hqh by (by intros ->).
    destruct (st_coalesced _ _ _ Hst q e1 p d) as [H|H]; try done.
    + by apply Hsub.
    + congruence.
    + by rewrite list_elem_of_singleton.
    + congruence.
Qed.

Lemma wp_assoc {S A B C} (m1 : M S A) (m2 : A -> M S B) (k : B -> M S C) Q E (s : S) :
  wp (a ← m1; m2 a) (fun b s' => wp (k b) Q E s') E s -> wp (a ← m1; b ← m2 a; k b) Q E s.
Proof.
  unfold wp, mbind, M_bind. destruct (m1 s) as [[a|e] s1]; [|done].
  by destruct (m2 a s1) as [[b|e] s2].
Qed.

Lemma wp_mergeable lay u s x d (Q : bool -> t D -> Prop) :
  heap lay u s -> chunks_ s !! x = Some d -> Q (negb (in_use d)) s ->
  ok Q s (mergeable (Some x) false).
Proof.
  intros Hh Hd HQ. unfold mergeable. wp_step. eapply wp_ChunkFromHandle; [done|].
  apply wp_ret. by rewrite (hp_freed _ _ _ Hh _ _ Hd), andb_true_r.
Qed.

Definition coalesced (s0 : t D) (c0 : Chunk) (h : nat) (s : t D) : Prop :=
  exists lay u c, loose lay u s h c /\ same_env s0 s /\ used s = used s0 /\
    size c0 <= size c /\ next_used s c /\ prev_used lay s h.

Lemma coalesce_back lay u s h c :
  loose lay u s h c -> next_used s c ->
  ok (fun h' s' => coalesced s c h' s') s
     (c' ← ChunkFromHandle h;
      b' ← mergeable (prev c') false;
      match b', prev c' with
      | true, Some p => RemoveFreeChunkFromBin p;; Merge p h;; mret p
      | _, _ => mret h
      end).
Proof.
  intros Hlo Hnu. pose proof (lo_heap _ _ _ _ _ Hlo) as Hh. pose proof (hp_space _ _ _ Hh) as Hsp.
  pose proof (lo_chunk _ _ _ _ _ Hlo) as Hc. pose proof (lo_in _ _ _ _ _ Hlo) as Hin.
  wp_step. eapply wp_ChunkFromHandle; [done|]. destruct (prev c) as [p|] eqn:Ep.
  - destruct (sp_prev Hsp _ _ _ Hin Hc Ep) as (d & Hinp & Hd & Hnd).
    wp_step. eapply wp_mergeable; [done|exact Hd|]. destruct (in_use d) eqn:Eu; simpl.
    + apply wp_ret. exists lay, u, c. do 5 (split; [done|]).
      intros q e Hq He Hqn.
      assert (Hpq : p = q).
      { destruct (sp_next Hsp _ _ _ Hq He Hqn) as (? & ? & ? & ? & c' & _ & _ & _ & Hc' & Hp' & _).
        congruence. }
      congruence.
    + apply wp_assoc. eapply wp_mono; [by eapply (absorb_prev lay u)| |done].
      cbv beta. intros _ s' H. by apply wp_ret.
  - wp_step. apply wp_ret. simpl. apply wp_ret. exists lay, u, c. do 5 (split; [done|]).
    intros q e Hq He Hqn. exfalso.
    destruct (sp_next Hsp _ _ _ Hq He Hqn) as (? & ? & ? & ? & c' & _ & _ & _ & Hc' & Hp' & _).
    congruence.
Qed.

Lemma coalesced_trans s0 c0 s1 c1 h s :
  same_env s0 s1 -> used s1 = used s0 -> size c0 <= size c1 ->
  coalesced s1 c1 h s -> coalesced s0 c0 h s.
Proof.
  intros He Hu Hs (lay & u & c & Hlo & He' & Hu' & Hs' & Hn & Hp).
  exists lay, u, c. split; [done|]. split; [by etrans|]. split; [congruence|]. split; [lia|done].
Qed.

Lemma TryToCoalesce_ok lay u s h c :
  loose lay u s h c -> ok (fun h' s' => coalesced s c h' s') s (TryToCoalesce h false).
Proof.
  intros Hlo. pose proof (lo_heap _ _ _ _ _ Hlo) as Hh. pose proof (hp_space _ _ _ Hh) as Hsp.
  pose proof (lo_chunk _ _ _ _ _ Hlo) as Hc. pose proof (lo_in _ _ _ _ _ Hlo) as Hin.
  unfold TryToCoalesce. wp_step. eapply wp_ChunkFromHandle; [done|].
  rewrite (hp_freed _ _ _ Hh _ _ Hc). simpl. destruct (next c) as [n|] eqn:En.
  - destruct (sp_next Hsp _ _ _ Hin Hc En) as (? & ? & ? & ? & d & _ & _ & _ & Hd & _).
    wp_step. eapply wp_mergeable; [done|exact Hd|]. destruct (in_use d) eqn:Eu; simpl.
    + do 2 wp_step. eapply coalesce_back; [done|]. intros n' d' Hn' Hd'. congruence.
    + wp_step. eapply wp_mono; [by eapply (absorb_next lay u)| |done].
      cbv beta. intros _ s1 (lay1 & u1 & c1 & Hlo1 & He1 & Hu1 & Hs1 & Hn1).
      eapply wp_mono; [by eapply coalesce_back| |done]. cbv beta. intros h' s' H.
      by eapply coalesced_trans.
  - wp_step. apply wp_ret. simpl. do 2 wp_step. eapply coalesce_back; [done|].
    intros n' d' Hn'. congruence.
Qed.

(** Coalescing and binning settles the heap. *)
Lemma coalesce_insert lay u s h c :
  loose lay u s h c ->
  ok (fun _ s' => exists lay' u', heap lay' u' s' /\ settled lay' [] s' /\ same_env s s' /\
        used s' = used s /\
        exists h' c', h' ∈ concat lay' /\ chunks_ s' !! h' = Some c' /\
          bin_num c' = Some (BinNumForSize (size c')) /\ size c <= size c')
     s (h' ← TryToCoalesce h false; InsertFreeChunkIntoBin h').
Proof.
  intros Hlo. wp_step. eapply wp_mono; [by eapply TryToCoalesce_ok| |done].
  cbv beta. intros h' s1 (lay' & u' & c' & [Hh Hin Hc Hu Hb Hst] & He & Hus & Hs & Hnu & Hpu).
  eapply wp_mono; [by eapply (InsertFreeChunkIntoBin_ok lay' u')| |done].
  cbv beta. intros _ s2 (bs & Hh2 & ->).
  set (c2 := set_bin_num (Some (BinNumForSize (size c'))) c') in *.
  assert (Hc2 : chunks_ (rebinned s1 h' c2 bs) !! h' = Some c2) by (unfold rebinned; by look).
  assert (Ho : forall x, x <> h' -> chunks_ (rebinned s1 h' c2 bs) !! x = chunks_ s1 !! x)
    by (intros x Hx; unfold rebinned; by look).
  exists lay', u'. split; [done|]. split; [|split; [exact He|split]].
  - split.
    + intros x e Hx Hce Hue _. destruct (decide (x = h')) as [->|Hne]; [by simplify_eq|].
      rewrite Ho in Hce by done. eapply (st_binned _ _ _ Hst x e); try done.
      by rewrite list_elem_of_singleton.
    + intros x e n d Hx Hce Hn Hd _ _.
      destruct (decide (x = h')) as [->|Hne].
      * assert (n <> h') as Hnh.
        { destruct (sp_next (hp_space _ _ _ Hh2) _ _ _ Hx Hce Hn)
            as (? & ? & ? & ? & ? & _ & _ & _ & _ & _ & _ & ?). done. }
        rewrite Ho in Hd by done. right. assert (e = c2) as -> by congruence.
        by eapply (Hnu n d).
      * rewrite Ho in Hce by done. destruct (decide (n = h')) as [->|Hnh].
        { left. by eapply (Hpu x e). }
        rewrite Ho in Hd by done. eapply (st_coalesced _ _ _ Hst x e n d); try done.
        all: by rewrite list_elem_of_singleton.
  - rewrite <- Hus. by apply used_rebinned.
  - exists h', c2. done.
Qed.

(** * Freeing *)

Lemma in_use_unbinned lay u s h c :
  heap lay u s -> chunks_ s !! h = Some c -> in_use c = true -> bin_num c = None.
Proof.
  intros Hh Hc Hu. destruct (bin_num c) as [z|] eqn:E; [|done].
  destruct (bo_chunk _ _ (hp_bins _ _ _ Hh) _ _ _ Hc E). congruence.
Qed.

(** A chunk in no bin changes its allocation id. *)
Lemma heap_set_id lay u s s' h c c' :
  heap lay u s -> h ∈ concat lay -> chunks_ s !! h = Some c ->
  chunks_ s' = <[h := c']> (chunks_ s) -> geo c' = geo c -> bin_num c = None ->
  bin_num c' = None -> freed_at_count c' = freed_at_count c ->
  free_chunks_list_ s' = free_chunks_list_ s -> regions_ s' = regions_ s -> bins_ s' = bins_ s ->
  memory_limit_ s' = memory_limit_ s -> opts_ s' = opts_ s ->
  curr_region_allocation_bytes_ s' = curr_region_allocation_bytes_ s ->
  total_region_allocated_bytes_ s' = total_region_allocated_bytes_ s ->
  sub_allocator_ s' = sub_allocator_ s -> 1 <= next_allocation_id_ s' ->
  heap lay u s'.
Proof.
  intros [Hsp Hb Hf Hid Ho Ht Hl Hcu Hs] Hin Hc Hcs Hg Hb1 Hb2 Hfr E1 E2 E3 E4 E5 E6 E7 E8 E9.
  assert (Hlk : chunks_ s' !! h = Some c').
  { rewrite Hcs. apply list_lookup_insert_eq. by eapply lookup_lt_Some. }
  assert (Hne : forall x, x <> h -> chunks_ s' !! x = chunks_ s !! x).
  { intros x Hx. rewrite Hcs. by apply list_lookup_insert_ne. }
  split; try congruence.
  - rewrite E1, E2. eapply (space_frame Hsp); [|done|].
    + intros x. destruct (decide (x = h)) as [->|Hx]; [|by rewrite Hne].
      rewrite Hlk, Hc. simpl. by rewrite Hg.
    + intros x Hx. rewrite Hne; [by apply (sp_unused _ _ _ _ _ Hsp)|].
      intros ->. by apply (sp_not_unused Hsp h).
  - rewrite E3. eapply bins_frame; [|done]. intros x.
    destruct (decide (x = h)) as [->|Hx]; [|by rewrite Hne].
    rewrite Hlk, Hc. cbn. unfold binned_as. by rewrite Hb1, Hb2.
  - intros x d Hd. destruct (decide (x = h)) as [->|Hx].
    + rewrite Hlk in Hd. injection Hd as <-. rewrite Hfr. by eapply Hf.
    + rewrite Hne in Hd by done. by eapply Hf.
Qed.

Lemma MarkFree_ok lay u s h c :
  heap lay u s -> settled lay [] s -> h ∈ concat lay -> chunks_ s !! h = Some c ->
  in_use c = true ->
  ok (fun _ s' => exists c', loose lay u s' h c' /\ same_env s s' /\
        used s ≡ₚ (ptr c, size c) :: used s') s (MarkFree h).
Proof.
  intros Hh [Hsb Hsc] Hin Hc Hu. pose proof (in_use_unbinned _ _ _ _ _ Hh Hc Hu) as Hb.
  unfold MarkFree. wp_step. eapply wp_ChunkFromHandle; [done|].
  wp_step. apply wp_enforce; [by rewrite Hu, Hb|].
  wp_step. eapply wp_upd_chunk; [done|]. apply wp_modify.
  set (c' := set_allocation_id (-1) c). exists c'.
  set (s' := set_stats _ _). 
  assert (Hlk : chunks_ s' !! h = Some c').
  { simpl. apply list_lookup_insert_eq. by eapply lookup_lt_Some. }
  assert (Hne : forall x, x <> h -> chunks_ s' !! x = chunks_ s !! x).
  { intros x Hx. simpl. by apply list_lookup_insert_ne. }
  split; [|split].
  - split; try done.
    + eapply (heap_set_id lay u s s' h c c'); try done. simpl. by apply (hp_id _ _ _ Hh).
    + split.
      * intros x d Hx Hd Hud Hxh. rewrite list_elem_of_singleton in Hxh.
        rewrite Hne in Hd by done. eapply (Hsb x); try done. by apply not_elem_of_nil.
      * intros x d n e Hx Hd Hn He Hxh Hnh. rewrite list_elem_of_singleton in Hxh, Hnh.
        rewrite Hne in Hd, He by done. eapply (Hsc x d n e); try done; by apply not_elem_of_nil.
  - by repeat split.
  - unfold used. simpl. apply (omap_insert_Some block _ h c); [done|..]; unfold block; [by rewrite Hu|done].
Qed.

(** The result and what it guarantees, as one statement about a run. *)
Lemma ok_run {A} (m : M (t D) A) Q s :
  ok Q s m -> exists a s', m s = (Ok a, s') /\ Q a s'.
Proof. unfold wp. destruct (m s) as [[a|e] s']; [eauto|done]. Qed.

Lemma Free_ok s p n :
  inv s -> (p, n) ∈ used s ->
  RegionManager.get_handle (regions_ s) p <> Some (Some 0%nat) ->
  ok (fun r s' => r = ALLSPARK_SUCCESS /\ inv s' /\ used s ≡ₚ (p, n) :: used s' /\ same_env s s')
     s (Free (Some p)).
Proof.
  intros (lay & u & Hh & Hst) Hin Hg.
  destruct (used_live _ _ _ _ Hh Hin) as (h & c & Hl & Hc & Hu & [= -> ->]).
  pose proof (sp_get_handle (hp_space _ _ _ Hh) _ _ Hl Hc) as Hgh.
  unfold Free, DeallocateRaw, DeallocateRawInternal. wp_step. wp_step.
  eapply wp_get_handle; [exact Hgh|]. rewrite bool_decide_eq_false_2 by congruence.
  wp_step. eapply wp_mono; [by eapply MarkFree_ok| |done].
  cbv beta. intros _ s1 (c' & Hlo & He & Hus).
  eapply wp_mono; [by eapply coalesce_insert| |done].
  cbv beta. intros _ s2 (lay2 & u2 & Hh2 & Hst2 & He2 & Hus2 & _).
  apply wp_ret. split; [done|]. split; [by exists lay2, u2|]. split; [by rewrite Hus2|by etrans].
Qed.

(** * Finding the best fit *)

Lemma BinNumForSize_mono a b : a <= b -> BinNumForSize a <= BinNumForSize b.
Proof.
  intros Hab. unfold BinNumForSize, Log2FloorNonZero.
  assert (Z.log2 (Z.shiftr (Z.max a 256) kMinAllocationBits) <=
          Z.log2 (Z.shiftr (Z.max b 256) kMinAllocationBits)); [|lia].
  apply Z.log2_le_mono. unfold kMinAllocationBits. rewrite !Z.shiftr_div_pow2 by lia.
  apply Z.div_le_mono; lia.
Qed.

Definition too_small (s : t D) (rounded : Z) (x : nat) : Prop :=
  forall c, chunks_ s !! x = Some c -> size c < rounded.

Lemma scan_bin_ok s rounded l :
  (forall x, x ∈ l -> exists c, chunks_ s !! x = Some c) ->
  ok (fun r s' => s' = s /\
        match r with
        | Some h => exists l1 l2 c, l = l1 ++ h :: l2 /\ Forall (too_small s rounded) l1 /\
                      chunks_ s !! h = Some c /\ rounded <= size c
        | None => Forall (too_small s rounded) l
        end) s (scan_bin rounded l).
Proof.
  induction l as [|x l IH]; intros Hl; simpl; [by apply wp_ret|].
  destruct (Hl x ltac:(by left)) as [c Hc].
  wp_step. eapply wp_ChunkFromHandle; [done|]. destruct (rounded <=? size c) eqn:E.
  - apply Z.leb_le in E. apply wp_ret. split; [done|]. by exists [], l, c.
  - apply Z.leb_gt in E. eapply wp_mono; [apply IH; intros y Hy; apply Hl; by right| |done].
    assert (too_small s rounded x) as Hx by (intros d Hd; by simplify_eq).
    cbv beta. intros r s' [-> Hr]. split; [done|]. destruct r as [h|]; [|by constructor].
    destruct Hr as (l1 & l2 & d & -> & H1 & H2). exists (x :: l1), l2, d.
    split; [done|]. split; [by constructor|done].
Qed.

Lemma scan_bins_ok s rounded b bins :
  (forall l x, l ∈ bins -> x ∈ l -> exists c, chunks_ s !! x = Some c) ->
  ok (fun r s' => s' = s /\
        match r with
        | Some (b', h) => exists i l l1 l2 c, b' = b + Z.of_nat i /\ bins !! i = Some l /\
            l = l1 ++ h :: l2 /\ Forall (too_small s rounded) l1 /\
            Forall (Forall (too_small s rounded)) (take i bins) /\
            chunks_ s !! h = Some c /\ rounded <= size c
        | None => Forall (Forall (too_small s rounded)) bins
        end) s (scan_bins rounded b bins).
Proof.
  revert b. induction bins as [|l bins IH]; intros b Hb; simpl; [by apply wp_ret|].
  wp_step. eapply wp_mono; [apply scan_bin_ok; intros x; apply Hb; by left| |done].
  cbv beta. intros r s' [-> Hr]. destruct r as [h|].
  - apply wp_ret. split; [done|]. destruct Hr as (l1 & l2 & c & -> & H1 & H2).
    exists 0%nat, (l1 ++ h :: l2), l1, l2, c. split; [lia|]. split; [done|]. split; [done|].
    split; [done|]. by split; [constructor|].
  - eapply wp_mono; [apply IH; intros m x Hm; apply Hb; by right| |done].
    cbv beta. intros r s' [-> Hr']. split; [done|]. destruct r as [[b' h]|]; [|by constructor].
    destruct Hr' as (i & m & l1 & l2 & c & -> & H1 & H2 & H3 & H4 & H5).
    exists (S i), m, l1, l2, c. split; [lia|]. repeat (split; [done|]). split; [|done].
    simpl. by constructor.
Qed.

(** [h] is the least free chunk, by size and then address, that is large
    enough. *)
Definition best_fit (lay : list (list nat)) (s : t D) (rounded : Z) (h : nat) : Prop :=
  exists c, h ∈ concat lay /\ chunks_ s !! h = Some c /\ in_use c = false /\ rounded <= size c /\
    forall x d, x ∈ concat lay -> chunks_ s !! x = Some d -> in_use d = false ->
      rounded <= size d ->
      size c < size d \/ size c = size d /\ ptr c <= ptr d.

Lemma scan_best_fit lay u s rounded :
  heap lay u s -> settled lay [] s ->
  ok (fun r s' => s' = s /\
        match r with
        | Some (b, h) => best_fit lay s rounded h /\
            exists c, chunks_ s !! h = Some c /\ bin_num c = Some b
        | None => forall x, x ∈ concat lay ->
            forall c, chunks_ s !! x = Some c -> in_use c = false -> size c < rounded
        end)
     s (scan_bins rounded (BinNumForSize rounded)
          (drop (Z.to_nat (BinNumForSize rounded)) (bins_ s))).
Proof.
  intros Hh Hst. pose proof (hp_bins _ _ _ Hh) as Hb.
  pose proof (BinNumForSize_range rounded) as Hrg.
  set (b0 := BinNumForSize rounded) in *.
  assert (Hbin : forall x c, x ∈ concat lay -> chunks_ s !! x = Some c -> in_use c = false ->
            exists l, bin_num c = Some (BinNumForSize (size c)) /\
              bins_ s !! Z.to_nat (BinNumForSize (size c)) = Some l /\ x ∈ l).
  { intros x c Hx Hc Hu. destruct (bin_num c) as [z|] eqn:Ez.
    - destruct (bo_chunk _ _ Hb _ _ _ Hc Ez) as [_ ->].
      destruct (bins_in_bin Hb _ _ _ Hc Ez) as (l & ? & ? & _). eauto.
    - by destruct (st_binned _ _ _ Hst x c Hx Hc Hu (not_elem_of_nil x)). }
  assert (Hlive : forall k l x, bins_ s !! k = Some l -> x ∈ l ->
            exists c, chunks_ s !! x = Some c /\ bin_num c = Some (Z.of_nat k) /\
              in_use c = false /\ x ∈ concat lay).
  { intros k l x Hk Hx. destruct (proj1 (bo_mem _ _ Hb x k) (ex_intro _ l (conj Hk Hx))) as (c & Hc & Hz).
    exists c. split; [done|]. split; [done|]. split; [by eapply (bo_chunk _ _ Hb)|].
    destruct (sp_bound (hp_space _ _ _ Hh) x) as [_ [H|H]]; [by eapply lookup_lt_Some|done|].
    destruct (sp_unused _ _ _ _ _ (hp_space _ _ _ Hh) _ H) as (c' & ? & _ & ?). congruence. }
  assert (Hlow : forall x c, chunks_ s !! x = Some c -> BinNumForSize (size c) < b0 -> size c < rounded).
  { intros x c _ Hlt. destruct (Z.lt_ge_cases (size c) rounded) as [|Hge]; [done|].
    apply BinNumForSize_mono in Hge. fold b0 in Hge. lia. }
  eapply wp_mono; [apply scan_bins_ok| |done].
  { intros l x Hl Hx. apply list_elem_of_lookup in Hl as [k Hk]. rewrite lookup_drop in Hk.
    destruct (Hlive _ _ _ Hk Hx) as (c & Hc & _). eauto. }
  cbv beta. intros r s' [-> Hr]. split; [done|]. destruct r as [[b h]|].
  - destruct Hr as (i & l & l1 & l2 & c & -> & Hi & -> & Hsm1 & Hsm & Hc & Hge).
    rewrite lookup_drop in Hi.
    destruct (Hlive _ _ h Hi ltac:(set_solver)) as (c' & Hc' & Hz & Hu & Hin).
    assert (c' = c) as -> by congruence. clear Hc'.
    split; [|exists c; split; [done|]; rewrite Hz; f_equal; lia].
    exists c. do 4 (split; [done|]). intros x d Hx Hd Hud Hgd.
    destruct (Hbin _ _ Hx Hd Hud) as (m & Hzd & Hm & Hxm).
    destruct (bo_chunk _ _ Hb _ _ _ Hc Hz) as [_ Hbc].
    set (k := (Z.to_nat b0 + i)%nat) in *.
    assert (Hk0 : (Z.to_nat b0 <= Z.to_nat (BinNumForSize (size d)))%nat).
    { pose proof (BinNumForSize_range (size d)). destruct (Z.lt_ge_cases (BinNumForSize (size d)) b0); [|lia].
      assert (size d < rounded) by by eapply Hlow. lia. }
    destruct (lt_eq_lt_dec (Z.to_nat (BinNumForSize (size d))) k) as [[Hlt|Heq]|Hgt].
    + exfalso. rewrite Forall_lookup in Hsm.
      assert (take i (drop (Z.to_nat b0) (bins_ s)) !! (Z.to_nat (BinNumForSize (size d)) - Z.to_nat b0)%nat = Some m) as E.
      { rewrite lookup_take_lt by lia. rewrite lookup_drop.
        by replace (Z.to_nat b0 + (Z.to_nat (BinNumForSize (size d)) - Z.to_nat b0))%nat
          with (Z.to_nat (BinNumForSize (size d))) by lia. }
      specialize (Hsm _ _ E). rewrite Forall_forall in Hsm. specialize (Hsm _ Hxm _ Hd). lia.
    + rewrite Heq in Hm. assert (m = l1 ++ h :: l2) as -> by congruence.
      pose proof (bo_sorted _ _ Hb _ _ Hi) as Hs. apply StronglySorted_app in Hs as (_ & _ & Hs).
      apply StronglySorted_inv in Hs as [_ Hs]. rewrite Forall_forall in Hs, Hsm1.
      apply elem_of_app in Hxm as [Hxm|Hxm]; [specialize (Hsm1 _ Hxm _ Hd); lia|].
      apply elem_of_cons in Hxm as [->|Hxm]; [simplify_eq; lia|].
      specialize (Hs _ Hxm). rewrite (chunk_less_eq _ _ _ _ _ Hc Hd) in Hs. lia.
    + left. destruct (Z.lt_ge_cases (size c) (size d)) as [|Hge']; [done|].
      apply BinNumForSize_mono in Hge'. pose proof (BinNumForSize_range (size d)). lia.
  - intros x Hx c Hc Hu. destruct (Hbin _ _ Hx Hc Hu) as (m & _ & Hm & Hxm).
    destruct (Z.lt_ge_cases (BinNumForSize (size c)) b0) as [Hlt|Hge]; [by eapply Hlow|].
    rewrite Forall_lookup in Hr.
    assert (drop (Z.to_nat b0) (bins_ s) !! (Z.to_nat (BinNumForSize (size c)) - Z.to_nat b0)%nat = Some m) as E.
    { rewrite lookup_drop.
      replace (Z.to_nat b0 + (Z.to_nat (BinNumForSize (size c)) - Z.to_nat b0))%nat
        with (Z.to_nat (BinNumForSize (size c))); [done|].
      pose proof (BinNumForSize_range (size c)). lia. }
    specialize (Hr _ _ E). rewrite Forall_forall in Hr. by apply (Hr _ Hxm).
Qed.

(** ** Handing out a chunk *)

Lemma RemoveFreeChunkIterFromBin_loose lay u s h c z :
  heap lay u s -> settled lay [] s -> h ∈ concat lay -> chunks_ s !! h = Some c ->
  bin_num c = Some z ->
  ok (fun _ s' => loose lay u s' h (set_bin_num None c) /\ same_env s s' /\ used s' = used s /\
        next_used s' c)
     s (RemoveFreeChunkIterFromBin z h).
Proof.
  intros Hh [Hsb Hsc] Hin Hc Hz.
  destruct (bo_chunk _ _ (hp_bins _ _ _ Hh) _ _ _ Hc Hz) as [Hu _].
  eapply wp_mono; [by eapply (RemoveFreeChunkIterFromBin_ok lay u)| |done].
  cbv beta. intros _ s1 (bs & Hh1 & ->). set (s1 := rebinned s h (set_bin_num None c) bs) in *.
  assert (Hc1 : chunks_ s1 !! h = Some (set_bin_num None c)) by (unfold s1, rebinned; by look).
  assert (Ho1 : forall x, x <> h -> chunks_ s1 !! x = chunks_ s !! x)
    by (intros x Hx; unfold s1, rebinned; by look).
  split; [|split; [by repeat split|split; [by apply used_rebinned|]]].
  - split; try done. split.
    + intros x d Hx Hd Hud Hxh. rewrite list_elem_of_singleton in Hxh. rewrite Ho1 in Hd by done.
      eapply (Hsb x); try done. by apply not_elem_of_nil.
    + intros x d n e Hx Hd Hn He Hxh Hnh. rewrite list_elem_of_singleton in Hxh, Hnh.
      rewrite Ho1 in Hd, He by done. eapply (Hsc x d n e); try done; by apply not_elem_of_nil.
  - intros n d Hn Hd. destruct (decide (n = h)) as [->|Hne].
    { destruct (sp_next (hp_space _ _ _ Hh) _ _ _ Hin Hc Hn)
        as (? & ? & ? & ? & ? & _ & _ & _ & _ & _ & _ & ?). done. }
    rewrite Ho1 in Hd by done.
    destruct (Hsc h c n d) as [H|H]; try done; [by apply not_elem_of_nil..|congruence].
Qed.

(** The split of [FindChunkPtr]: the loose chunk keeps at least the bytes
    asked for and is the only one not settled. *)
Lemma maybe_split_ok lay u s h c rounded (b : bool) :
  loose lay u s h c -> next_used s c -> 0 < rounded -> (256 | rounded) -> rounded <= size c ->
  (b = true -> rounded < size c) ->
  ok (fun _ s' => exists lay' u' c', loose lay' u' s' h c' /\ same_env s s' /\ used s' = used s /\
        ptr c' = ptr c /\ rounded <= size c' <= size c)
     s (when b (SplitChunk h rounded)).
Proof.
  intros Hlo Hnu Hr Hd Hge Hlt. destruct b; simpl.
  2: { apply wp_ret. exists lay, u, c. repeat (split; [done|]). lia. }
  specialize (Hlt eq_refl). destruct Hlo as [Hh Hin Hc Hu Hb Hst].
  eapply wp_mono; [eapply (SplitChunk_ok lay u s h c rounded); done| |done].
  cbv beta. intros _ s2 (lay' & u' & n & cn & Hh2 & He & Hnl & Hm & Hc2 & Hcn & Hun & Hbn & Hnn &
    Ho & Hus).
  exists lay', u', (set_next (Some n) (set_size rounded c)).
  split; [|split; [done|split; [done|split; [done|simpl; lia]]]].
  assert (Hin' : h ∈ concat lay') by (apply Hm; by right).
  split; try done. split.
  - intros x d Hx Hdx Hud Hxh. rewrite list_elem_of_singleton in Hxh.
    apply Hm in Hx as [->|Hx]; [by simplify_eq|].
    destruct (obs_Some _ _ _ (eq_sym (Ho x Hx Hxh)) Hdx) as (e & He' & _ & _ & _ & E1 & E2).
    rewrite <- E2. eapply (st_binned _ _ _ Hst x e); try done; [congruence|].
    by rewrite list_elem_of_singleton.
  - intros x d y e Hx Hdx Hy Hey Hxh Hyh. rewrite list_elem_of_singleton in Hxh, Hyh.
    apply Hm in Hx as [->|Hx].
    + simplify_eq. right. rewrite Hnn in Hy.
      destruct (sp_next (hp_space _ _ _ Hh) _ _ _ Hin Hc Hy)
        as (? & ? & ? & ? & e0 & _ & _ & _ & He0 & _ & Hyin & _).
      destruct (obs_Some _ _ _ (eq_sym (Ho y Hyin Hyh)) Hey) as (e1 & He1 & _ & _ & _ & E1 & _).
      rewrite <- E1. by eapply (Hnu y e1).
    + destruct (obs_Some _ _ _ (eq_sym (Ho x Hx Hxh)) Hdx) as (d0 & Hd0 & _ & _ & En & E1 & _).
      assert (Hy0 : next d0 = Some y) by congruence.
      destruct (sp_next (hp_space _ _ _ Hh) _ _ _ Hx Hd0 Hy0)
        as (? & ? & ? & ? & e0 & _ & _ & _ & He0 & _ & Hyin & _).
      destruct (obs_Some _ _ _ (eq_sym (Ho y Hyin Hyh)) Hey) as (e1 & He1 & _ & _ & _ & E2 & _).
      rewrite <- E1, <- E2.
      eapply (st_coalesced _ _ _ Hst x d0 y e1); try done; by rewrite list_elem_of_singleton.
Qed.

(** A loose chunk that gets an allocation id is settled. *)
Lemma settle_used lay (s s' : t D) h c' :
  settled lay [h] s -> h ∈ concat lay -> chunks_ s' !! h = Some c' -> in_use c' = true ->
  (forall x, x <> h -> chunks_ s' !! x = chunks_ s !! x) -> settled lay [] s'.
Proof.
  intros [Hsb Hsc] Hin Hc Hu Ho. split.
  - intros x d Hx Hd Hud _. destruct (decide (x = h)) as [->|Hne]; [congruence|].
    rewrite Ho in Hd by done. eapply (Hsb x); try done. by rewrite list_elem_of_singleton.
  - intros x d n e Hx Hd Hn He _ _. destruct (decide (x = h)) as [->|Hne].
    { left. congruence. }
    destruct (decide (n = h)) as [->|Hnh]; [right; congruence|].
    rewrite Ho in Hd, He by done.
    eapply (Hsc x d n e); try done; by rewrite list_elem_of_singleton.
Qed.

Lemma FindChunkPtr_ok lay u s rounded num_bytes :
  heap lay u s -> settled lay [] s -> 0 < rounded < 2 ^ 63 -> (256 | rounded) ->
  ok (fun r s' =>
        match r with
        | Some p => exists h c sz, best_fit lay s rounded h /\ chunks_ s !! h = Some c /\
            p = ptr c /\ rounded <= sz <= size c /\ inv s' /\ used s' ≡ₚ (p, sz) :: used s
        | None => s' = s /\ forall x, x ∈ concat lay ->
            forall c, chunks_ s !! x = Some c -> in_use c = false -> size c < rounded
        end)
     s (FindChunkPtr (BinNumForSize rounded) rounded num_bytes).
Proof.
  intros Hh Hst Hr Hd. unfold FindChunkPtr. do 2 wp_step.
  wp_step. eapply wp_mono; [by eapply scan_best_fit| |done].
  cbv beta. intros r s0 [-> Hf]. destruct r as [[b h]|]; [|by apply wp_ret].
  destruct Hf as [Hbf (c & Hc & Hz)].
  assert (Hbf' := Hbf). destruct Hbf' as (c' & Hin & Hc' & Hu & Hge & _).
  assert (c' = c) as -> by congruence. clear Hc'.
  wp_step. eapply wp_mono; [by eapply (RemoveFreeChunkIterFromBin_loose lay u)| |done].
  cbv beta. intros _ s1 (Hlo & He1 & Hu1 & Hnu).
  wp_step. eapply wp_ChunkFromHandle; [by apply (lo_chunk _ _ _ _ _ Hlo)|].
  do 2 wp_step. simpl.
  assert (Hsz : 0 <= size c < 2 ^ 64).
  { destruct (sp_live (hp_space _ _ _ Hh) _ Hin) as (? & ? & ? & ? & _ & _ & Hok & Hl & _).
    destruct (seg_elem _ _ _ _ _ _ _ (ro_seg _ _ _ Hok) Hl) as (? & ? & ? & ? & ? & _).
    destruct Hok. simplify_eq. lia. }
  wp_step. eapply wp_mono; [eapply (maybe_split_ok lay u s1 h _ rounded); try done|
    |done]; simpl; [lia| |].
  { intros Hsp. apply orb_true_iff in Hsp as [Hsp|Hsp]; apply Z.leb_le in Hsp; simpl in Hsp |- *.
    - rewrite u64_small in Hsp by lia. lia.
    - destruct (proj1 (proj2 He1)) as [].
      pose proof (hp_opts _ _ _ (lo_heap _ _ _ _ _ Hlo)) as Ho.
      destruct (Z.eq_dec rounded (size c)) as [E|]; [|lia]. exfalso. revert Hsp.
      rewrite (u64_small (max_internal_fragmentation_bytes _)) by lia.
      rewrite E. unfold i64. rewrite Z.mod_small by lia.
      replace (size c + 2 ^ 63 - 2 ^ 63 - size c) with 0 by lia. change (u64 0) with 0. lia. }
  cbv beta. intros _ s2 (lay2 & u2 & c2 & Hlo2 & He2 & Hu2 & Hp2 & Hs2).
  do 2 wp_step. wp_step. eapply wp_upd_chunk; [by apply (lo_chunk _ _ _ _ _ Hlo2)|].
  wp_step. apply wp_modify. wp_step.
  set (c3 := set_allocation_id _ _).
  assert (Hlt : (h < length (chunks_ s2))%nat).
  { eapply lookup_lt_Some, (lo_chunk _ _ _ _ _ Hlo2). }
  eapply wp_ChunkFromHandle; [simpl; by apply list_lookup_insert_eq|].
  wp_step. unfold note_allocation. apply wp_modify. apply wp_ret.
  pose proof (hp_id _ _ _ (lo_heap _ _ _ _ _ Hlo2)) as Hid.
  assert (Hu3 : in_use c3 = true).
  { unfold in_use, c3. cbn. destruct (next_allocation_id_ s2 =? -1) eqn:E; [|done].
    apply Z.eqb_eq in E. lia. }
  exists h, c, (size c2). split; [done|]. split; [done|]. split; [done|]. split; [simpl in *; lia|].
  split.
  - exists lay2, u2. split.
    + eapply (heap_set_id lay2 u2 s2 _ h c2 c3); simpl; try done.
      * by apply (lo_heap _ _ _ _ _ Hlo2).
      * by apply (lo_in _ _ _ _ _ Hlo2).
      * by apply (lo_chunk _ _ _ _ _ Hlo2).
      * by apply (lo_bin _ _ _ _ _ Hlo2).
      * by apply (lo_bin _ _ _ _ _ Hlo2).
      * lia.
    + eapply (settle_used lay2 s2 _ h c3); simpl; try done.
      * by apply (lo_settled _ _ _ _ _ Hlo2).
      * by apply (lo_in _ _ _ _ _ Hlo2).
      * by apply list_lookup_insert_eq.
      * intros x Hx. by apply list_lookup_insert_ne.
  - rewrite <- Hu1, <- Hu2. unfold used. simpl.
    apply (omap_insert_None block _ h c2); [by apply (lo_chunk _ _ _ _ _ Hlo2)|..].
    + unfold block. by rewrite (lo_free _ _ _ _ _ Hlo2).
    + unfold block. rewrite Hu3. simpl. simpl in Hp2. by rewrite Hp2.
Qed.

(** * Growing *)

Lemma grow_curr_ok rounded curr :
  0 < curr < 2 ^ 64 -> (256 | curr) -> rounded <= 2 ^ 63 ->
  exists c inc, grow_curr rounded curr = Some (c, inc) /\ rounded <= c < 2 ^ 64 /\
    (256 | c) /\ 0 < c.
Proof.
  intros Hc Hd Hr. unfold grow_curr.
  assert (H : forall n c inc, 0 < c < 2 ^ 64 -> (256 | c) -> rounded <= c * 2 ^ Z.of_nat n ->
    exists c' inc', iter_nat (S n) (fun '(c, inc) =>
        if c <? rounded then inl (u64 (c * 2), true) else inr (c, inc)) (c, inc) =
      inr (c', inc') /\ rounded <= c' < 2 ^ 64 /\ (256 | c') /\ 0 < c').
  { induction n as [|n IH]; intros c inc Hc' Hd' Hle; cbn [iter_nat].
    - destruct (c <? rounded) eqn:E.
      + apply Z.ltb_lt in E. lia.
      + apply Z.ltb_ge in E. exists c, inc. repeat split; try done; lia.
    - destruct (c <? rounded) eqn:E.
      + apply Z.ltb_lt in E. rewrite u64_small by lia. apply IH; [lia| |].
        * by apply Z.divide_mul_l.
        * rewrite Nat2Z.inj_succ, Z.pow_succ_r in Hle by lia. lia.
      + apply Z.ltb_ge in E. exists c, inc. repeat split; try done; lia. }
  destruct (H 64%nat curr false Hc Hd) as (c & inc & E & Hp).
  { change (2 ^ Z.of_nat 64) with (2 ^ 64). lia. }
  exists c, inc. by rewrite E.
Qed.

(** The state with other growth counters, sub-allocator and regions. *)
Definition retouch (curr total : Z) (d : D) (rs : list region) (s : t D) : t D :=
  mk (memory_limit_ s) (opts_ s) curr total d rs (bins_ s) (chunks_ s) (free_chunks_list_ s)
    (next_allocation_id_ s) (stats_ s).

Lemma AllocateChunk_retouch curr total d rs (s : t D) :
  AllocateChunk (retouch curr total d rs s) =
  let '(r, s') := AllocateChunk s in (r, retouch curr total d rs s').
Proof.
  unfold AllocateChunk, mbind, M_bind, gets, modify, ChunkFromHandle. simpl.
  destruct (free_chunks_list_ s) as [h|]; [|done]. simpl.
  by destruct (chunks_ s !! h).
Qed.

Lemma wp_AllocateChunk_retouch curr total d rs s (Q : nat -> t D -> Prop) :
  ok (fun n s' => Q n (retouch curr total d rs s')) s AllocateChunk ->
  ok Q (retouch curr total d rs s) AllocateChunk.
Proof.
  unfold wp. rewrite AllocateChunk_retouch. by destruct (AllocateChunk s) as [[n|e] s'].
Qed.

Lemma add_region_plain p m (s : t D) :
  add_region p m s = (Ok None, set_regions (RegionManager.AddAllocationRegion p m (regions_ s)) s).
Proof. unfold add_region. by rewrite sub_no_coalescing. Qed.

Lemma wp_add_region p m (s : t D) (Q : option nat -> t D -> Prop) :
  Q None (set_regions (RegionManager.AddAllocationRegion p m (regions_ s)) s) ->
  ok Q s (add_region p m).
Proof. unfold wp. by rewrite add_region_plain. Qed.

Lemma region_bytes_perm (rs rs' : list region) p m :
  range <$> rs' ≡ₚ (p, m) :: (range <$> rs) -> region_bytes rs' = m + region_bytes rs.
Proof.
  set (sum := foldr (fun (b : Z * Z) z => b.2 + z) 0).
  assert (Hs : forall l k, l ≡ₚ k -> sum l = sum k).
  { induction 1; simpl; lia. }
  assert (E : forall l : list region, region_bytes l = sum (range <$> l)).
  { induction l as [|r l IH]; simpl; [done|]. by rewrite IH. }
  intros Hp. by rewrite !E, (Hs _ _ Hp).
Qed.

(** The heap once a new region of [m] bytes at [p] has its one chunk [n]. *)
Lemma extend_heap lay u s s1 n dn u' curr p m d' rs' lay' cs' :
  heap lay u s -> settled lay [] s -> popped lay s n dn u' s1 ->
  0 <= curr < 2 ^ 64 -> (256 | curr) -> 0 < m ->
  m <= memory_limit_ s - total_region_allocated_bytes_ s ->
  sub_blocks d' ≡ₚ (p, m) :: sub_blocks (sub_allocator_ s) ->
  cs' = <[n := mkChunk m (requested_size dn) (-1) p None None (bin_num dn) 0]> (chunks_ s1) ->
  space cs' (next dn) rs' lay' u' -> concat lay' ≡ₚ n :: concat lay ->
  range <$> rs' ≡ₚ (p, m) :: (range <$> regions_ s) ->
  let s' := retouch curr (u64 (total_region_allocated_bytes_ s + m)) d' rs' (set_chunks cs' s1) in
  exists c, loose lay' u' s' n c /\ size c = m /\ used s' = used s.
Proof.
  intros Hh Hst Hpp Hcu Hdc Hm Hle Hsb Hcs Hsp Hlay Hrs s'.
  set (cn := mkChunk m (requested_size dn) (-1) p None None (bin_num dn) 0) in *.
  destruct (pp_new _ _ _ _ _ _ Hpp) as [Hbn Hun].
  assert (Hlk : chunks_ s' !! n = Some cn).
  { simpl. rewrite Hcs. apply list_lookup_insert_eq. eapply lookup_lt_Some, (pp_dn _ _ _ _ _ _ Hpp). }
  assert (Hne : forall x, x <> n -> chunks_ s' !! x = chunks_ s1 !! x).
  { intros x Hx. simpl. rewrite Hcs. by apply list_lookup_insert_ne. }
  assert (Hnl : n ∉ concat lay).
  { intros Hn. apply (sp_not_unused (pp_space _ _ _ _ _ _ Hpp) n Hn). by left. }
  destruct (pp_env _ _ _ _ _ _ Hpp) as (E1 & E2 & E3 & E4 & E5 & E6 & E7).
  exists cn. split; [|split; [done|]].
  - split; try done.
    + destruct Hh as [Hsp0 Hb Hf Hid Ho Ht Hl Hc0 Hs0].
      assert (Hrb : region_bytes rs' = m + region_bytes (regions_ s)) by by eapply region_bytes_perm.
      assert (Hnn : 0 <= region_bytes (regions_ s)).
      { pose proof (sp_nonempty Hsp0) as Hne0.
        pose proof (sp_regions _ _ _ _ _ Hsp0) as Hr0. clear -Hr0.
        induction Hr0 as [|r l rs ls Hok _ IH]; simpl; [done|]. destruct Hok. lia. }
      split; simpl.
      * by rewrite (pp_free _ _ _ _ _ _ Hpp).
      * eapply bins_frame; [|by apply (pp_bins _ _ _ _ _ _ Hpp)]. intros x.
        destruct (decide (x = n)) as [->|Hx]; [|by rewrite <- (Hne x Hx)].
        change cs' with (chunks_ s'). rewrite Hlk, (pp_dn _ _ _ _ _ _ Hpp). cbn.
        unfold binned_as. simpl. by rewrite Hbn.
      * intros x c Hx. change cs' with (chunks_ s') in Hx.
        destruct (decide (x = n)) as [->|Hxn]; [by rewrite Hlk in Hx; injection Hx as <-|].
        rewrite Hne in Hx by done. by eapply (pp_freed _ _ _ _ _ _ Hpp).
      * by rewrite E6.
      * by rewrite E2.
      * rewrite Ht, Hrb, u64_small by lia. lia.
      * rewrite E1, Hrb. lia.
      * done.
      * by rewrite Hrs, Hsb, Hs0.
    + rewrite Hlay. by left.
    + destruct Hst as [Hb Hco]. split.
      * intros x c Hx Hc Hu Hxn. rewrite list_elem_of_singleton in Hxn.
        rewrite Hlay in Hx. apply elem_of_cons in Hx as [->|Hx]; [done|].
        rewrite Hne, (pp_old _ _ _ _ _ _ Hpp) in Hc by done.
        eapply (Hb x); try done. by apply not_elem_of_nil.
      * intros x c y d Hx Hc Hy Hd Hxn Hyn. rewrite list_elem_of_singleton in Hxn, Hyn.
        rewrite Hlay in Hx. apply elem_of_cons in Hx as [->|Hx]; [done|].
        rewrite Hne, (pp_old _ _ _ _ _ _ Hpp) in Hc, Hd by done.
        eapply (Hco x c y d); try done; by apply not_elem_of_nil.
  - rewrite <- (pp_used _ _ _ _ _ _ Hpp). apply used_same. intros x.
    destruct (decide (x = n)) as [->|Hx]; [|by rewrite Hne].
    rewrite Hlk, (pp_dn _ _ _ _ _ _ Hpp). cbn. unfold block. by rewrite Hun.
Qed.

Lemma Extend_ok lay u s alignment rounded :
  heap lay u s -> settled lay [] s -> 0 < rounded <= 2 ^ 63 -> (256 | rounded) ->
  0 < curr_region_allocation_bytes_ s ->
  ok (fun (b : bool) s' => used s' = used s /\
        if b then exists lay' u', heap lay' u' s' /\ settled lay' [] s' /\
               exists h c, h ∈ concat lay' /\ chunks_ s' !! h = Some c /\
                 in_use c = false /\ rounded <= size c
        else heap lay u s' /\ settled lay [] s' /\ 0 < curr_region_allocation_bytes_ s')
     s (Extend alignment rounded).
Proof.
  intros Hh Hst Hr Hd Hcu. unfold Extend. do 2 wp_step. simpl.
  pose proof (hp_limit _ _ _ Hh) as Hlim. pose proof (hp_total _ _ _ Hh) as Htot.
  pose proof (hp_curr _ _ _ Hh) as [Hc0 Hc1]. pose proof (hp_space _ _ _ Hh) as Hsp0.
  assert (Hnn : 0 <= region_bytes (regions_ s)).
  { pose proof (sp_regions _ _ _ _ _ Hsp0) as Hr0. clear -Hr0.
    induction Hr0 as [|r l rs ls Hok _ IH]; simpl; [done|]. destruct Hok. lia. }
  rewrite (u64_small (memory_limit_ s - _)) by lia.
  set (av := (memory_limit_ s - total_region_allocated_bytes_ s) / kMinAllocationSize * kMinAllocationSize).
  assert (Hav : av <= memory_limit_ s - total_region_allocated_bytes_ s /\ (256 | av)).
  { unfold av. change kMinAllocationSize with 256. split; [|by exists ((memory_limit_ s - total_region_allocated_bytes_ s) / 256)].
    pose proof (Z.mul_div_le (memory_limit_ s - total_region_allocated_bytes_ s) 256). lia. }
  destruct (av <? rounded) eqn:Eav; [by apply wp_ret|]. apply Z.ltb_ge in Eav.
  destruct (grow_curr_ok rounded (curr_region_allocation_bytes_ s)) as (curr & inc & Eg & Hg & Hgd & Hg0);
    [lia|done|lia|]. rewrite Eg. wp_step. apply wp_modify.
  destruct (sub_allocate (sub_allocator_ s) alignment (Z.min curr av)) as [[[p m] d']|] eqn:Esub.
  2: { apply wp_ret. split; [done|]. split; [|split; [|done]].
       - destruct Hh as [? ? ? ? ? ? ? ? ?]. split; try done. simpl. split; [lia|done].
       - by destruct Hst. }
  assert (Hmin : 0 < Z.min curr av) by lia.
  destruct (sub_allocate_fresh _ _ _ _ _ _ Hmin Esub) as (Em & Hp & Hmax & Hap & Hsb). subst m.
  set (m := Z.min curr av) in *.
  assert (Hdm : (256 | m)) by (unfold m; destruct (Z.min_spec curr av) as [[_ ->]|[_ ->]]; tauto).
  wp_step. apply wp_modify. wp_step.
  set (curr' := if inc then curr else u64 (curr * 2)).
  assert (Hcu' : 0 <= curr' < 2 ^ 64 /\ (256 | curr')).
  { unfold curr'. destruct inc; [split; [lia|done]|]. split; [apply u64_range|].
    unfold u64. rewrite Z.mod_eq by lia. apply Z.divide_sub_r; [by apply Z.divide_mul_l|].
    apply Z.divide_mul_l. by exists (2 ^ 56). }
  eapply (wp_mono _ (fun _ s' => s' = retouch curr' (total_region_allocated_bytes_ s) d' (regions_ s) s)
            _ (fun _ _ => False)); [|intros _ s' ->|done].
  { unfold curr'. destruct inc; simpl; [by apply wp_ret|by apply wp_modify]. }
  wp_step. apply wp_modify. wp_step. apply wp_add_region. simpl.
  wp_step. eapply (wp_AllocateChunk_retouch curr' (u64 (total_region_allocated_bytes_ s + m)) d'
    (RegionManager.AddAllocationRegion p m (regions_ s)) s).
  eapply wp_mono; [by apply (AllocateChunk_ok lay u)| |done].
  cbv beta. intros n s1 (dn & u' & Hpp). pose proof (pp_dn _ _ _ _ _ _ Hpp) as Hdn.
  wp_step. eapply wp_upd_chunk; [exact Hdn|]. cbn beta.
  set (cn := mkChunk m (requested_size dn) (-1) p None None (bin_num dn) 0).
  set (cs' := <[n := cn]> (chunks_ s1)).
  assert (Hlt : (n < length (chunks_ s1))%nat) by by eapply lookup_lt_Some.
  destruct (space_add (chunks_ s1) cs' (regions_ s1) lay n u' dn p m) as (rs' & lay' & Hset & Hsp & Hlay & Hrs).
  { by apply (pp_space _ _ _ _ _ _ Hpp). }
  { done. } { done. } { done. } { done. } { done. }
  { rewrite (pp_regions _ _ _ _ _ _ Hpp). rewrite <- (hp_sub _ _ _ Hh) in Hap.
    apply (Forall_fmap range) in Hap. exact Hap. }
  { by unfold cs'; rewrite length_insert. }
  { unfold cs'. by rewrite list_lookup_insert_eq. }
  { intros x Hx. by apply list_lookup_insert_ne. }
  rewrite (pp_regions _ _ _ _ _ _ Hpp) in Hset, Hrs.
  wp_step. eapply wp_set_handle; [exact Hset|]. wp_step. apply wp_ret.
  destruct (extend_heap lay u s s1 n dn u' curr' p m d' rs' lay' cs') as (c & Hlo & Hsz & Hus);
    try done; [apply Hcu'|apply Hcu'|lia|].
  apply wp_assoc. eapply wp_mono; [exact (coalesce_insert _ _ _ _ _ Hlo)| |done].
  cbv beta. intros _ s3 (lay3 & u3 & Hh3 & Hst3 & _ & Hus3 & h' & c' & Hin' & Hc' & Hb' & Hs').
  apply wp_ret. split; [by rewrite Hus3|]. exists lay3, u3. split; [done|]. split; [done|].
  exists h', c'. split; [done|]. split; [done|]. split; [|lia].
  by eapply (bo_chunk _ _ (hp_bins _ _ _ Hh3)).
Qed.

(** * Releasing regions *)

Record dying (lay : list (list nat)) (u : list nat) (s : t D) (i : nat) (r : region)
    (l : list nat) : Prop := mkDying {
  dy_gone : gone (chunks_ s) (free_chunks_list_ s) (regions_ s) lay u i r l;
  dy_bins : bins_ok (chunks_ s) (bins_ s);
  dy_freed : forall h c, chunks_ s !! h = Some c -> freed_at_count c = 0;
}.

(** The first chunk left of a dying region is deleted, out of its bin. *)
Lemma delete_chunk_ok lay u s s1 i r x l c c1 :
  dying lay u s i r (x :: l) -> chunks_ s !! x = Some c ->
  chunks_ s1 = <[x := c1]> (chunks_ s) -> free_chunks_list_ s1 = free_chunks_list_ s ->
  regions_ s1 = regions_ s -> same_env s s1 -> bins_ok (chunks_ s1) (bins_ s1) ->
  bin_num c1 = None -> ptr c1 = ptr c -> freed_at_count c1 = freed_at_count c ->
  ok (fun _ s' => exists r', dying lay (x :: u) s' i r' l /\ same_env s s' /\
        ptr_ r' = ptr_ r /\ memory_size_ r' = memory_size_ r /\
        delete i (regions_ s') = delete i (regions_ s) /\
        (forall y, y <> x -> chunks_ s' !! y = chunks_ s !! y))
     s1 (DeleteChunk x).
Proof.
  intros [Hg Hb Hf] Hc Hcs Efl Ers He Hb1 Hbn Hp Hfr.
  assert (Hlt : (x < length (chunks_ s))%nat) by by eapply lookup_lt_Some.
  assert (Hc1 : chunks_ s1 !! x = Some c1) by (rewrite Hcs; by apply list_lookup_insert_eq).
  assert (Hne : forall y, y <> x -> chunks_ s1 !! y = chunks_ s !! y)
    by (intros y Hy; rewrite Hcs; by apply list_lookup_insert_ne).
  set (dx := set_next (free_chunks_list_ s) (set_bin_num None (set_allocation_id (-1) c1))).
  set (cs' := <[x := dx]> (chunks_ s1)).
  assert (Hdx : cs' !! x = Some dx).
  { apply list_lookup_insert_eq. rewrite Hcs. by rewrite length_insert. }
  assert (Hne' : forall y, y <> x -> cs' !! y = chunks_ s !! y).
  { intros y Hy. unfold cs'. rewrite list_lookup_insert_ne by done. by apply Hne. }
  destruct (gone_step (chunks_ s) cs' _ _ _ _ _ _ x l c dx Hg Hc)
    as (r' & rs' & Hset & Hg' & Hp' & Hm' & Hdel & Hran); try done.
  { unfold cs'. rewrite Hcs. by rewrite !length_insert. }
  unfold DeleteChunk. wp_step. eapply wp_ChunkFromHandle; [done|].
  wp_step. eapply wp_set_handle; [by rewrite Hp, Ers|].
  unfold DeallocateChunk. wp_step. wp_step. wp_step. eapply wp_upd_chunk; [exact Hc1|].
  apply wp_modify. simpl. rewrite Efl. fold dx. fold cs'.
  exists r'. split; [|split; [|split; [done|split; [done|split; [done|done]]]]].
  - split; simpl; [done|..].
    + eapply bins_frame; [|exact Hb1]. intros y. destruct (decide (y = x)) as [->|Hy].
      * rewrite Hdx, Hc1. cbn. unfold binned_as. by rewrite Hbn.
      * by rewrite Hne', Hne.
    + intros y d Hd. destruct (decide (y = x)) as [->|Hy].
      * rewrite Hdx in Hd. injection Hd as <-. simpl. rewrite Hfr. by eapply Hf.
      * rewrite Hne' in Hd by done. by eapply Hf.
  - destruct He as (? & ? & ? & ? & ? & ? & ?). by repeat split.
Qed.

Lemma delete_chunks_ok fuel lay u s i r l :
  dying lay u s i r l -> (length l <= fuel)%nat ->
  ok (fun _ s' => exists u' r', dying lay u' s' i r' [] /\ same_env s s' /\
        ptr_ r' = ptr_ r /\ memory_size_ r' = memory_size_ r /\
        delete i (regions_ s') = delete i (regions_ s) /\
        (forall y, y ∈ concat lay -> chunks_ s' !! y = chunks_ s !! y))
     s (delete_chunks fuel (hd l None)).
Proof.
  revert fuel u s r. induction l as [|x l IH]; intros fuel u s r Hdy Hfu.
  { destruct fuel; apply wp_ret; exists u, r; (split; [done|]; split; [reflexivity|]; done). }
  destruct fuel as [|fuel]; [simpl in Hfu; lia|]. cbn [hd delete_chunks].
  destruct (gn_seg _ _ _ _ _ _ _ _ (dy_gone _ _ _ _ _ _ Hdy)) as (pv & p & Hseg & _).
  simpl in Hseg. destruct Hseg as (c & Hc & _ & _ & Hn & _).
  assert (Hxl : x ∉ concat lay).
  { intros Hx. pose proof (gn_perm _ _ _ _ _ _ _ _ (dy_gone _ _ _ _ _ _ Hdy)) as Hp.
    assert (NoDup (concat lay ++ (x :: l) ++ u)) as Hnd by (rewrite Hp; apply NoDup_seq).
    apply NoDup_app in Hnd as (_ & Hnd & _). apply (Hnd _ Hx). set_solver. }
  wp_step. eapply wp_ChunkFromHandle; [done|]. wp_step.
  eapply (wp_mono _ (fun _ s1 => exists c1, chunks_ s1 = <[x := c1]> (chunks_ s) /\
            free_chunks_list_ s1 = free_chunks_list_ s /\ regions_ s1 = regions_ s /\
            same_env s s1 /\ bins_ok (chunks_ s1) (bins_ s1) /\ bin_num c1 = None /\
            ptr c1 = ptr c /\ freed_at_count c1 = freed_at_count c) _ (fun _ _ => False));
    [| |done].
  { destruct (bin_num c) as [z|] eqn:Ez.
    - rewrite bool_decide_eq_true_2 by done. simpl.
      eapply wp_mono; [by eapply RemoveFreeChunkFromBin_bins; [apply (dy_bins _ _ _ _ _ _ Hdy)|..]| |done].
      cbv beta. intros _ s1 (bs & -> & Hb). exists (set_bin_num None c).
      do 3 (split; [done|]). split; [by repeat split|]. split; [done|]. done.
    - rewrite bool_decide_eq_false_2 by auto. apply wp_ret. exists c.
      rewrite list_insert_id by done. do 3 (split; [done|]). split; [reflexivity|].
      split; [apply (dy_bins _ _ _ _ _ _ Hdy)|done]. }
  cbv beta. intros _ s1 (c1 & E1 & E2 & E3 & He & Hb1 & Hbn & Hp & Hfr).
  wp_step. eapply wp_mono; [by eapply (delete_chunk_ok lay u s s1 i r x l c c1)| |done].
  cbv beta. intros _ s2 (r2 & Hdy2 & He2 & Hp2 & Hm2 & Hdel2 & Ho2). rewrite Hn.
  eapply wp_mono; [apply (IH fuel _ _ _ Hdy2); simpl in Hfu; lia| |done].
  cbv beta. intros _ s3 (u3 & r3 & Hdy3 & He3 & Hp3 & Hm3 & Hdel3 & Ho3).
  exists u3, r3. split; [done|]. split; [by etrans|]. split; [congruence|]. split; [congruence|].
  split; [congruence|]. intros y Hy. rewrite Ho3 by done. apply Ho2. by intros ->.
Qed.

Lemma delete_cons_split {A} (z : list A) i x :
  z !! i = Some x -> z = take i z ++ x :: drop (S i) z /\ delete i z = take i z ++ drop (S i) z.
Proof. intros Hi. split; [by rewrite take_drop_middle|by apply delete_take_drop]. Qed.

Lemma zip_delete {A B} (l : list A) (k : list B) i :
  length l = length k -> zip (delete i l) (delete i k) = delete i (zip l k).
Proof.
  revert k i. induction l as [|x l IH]; intros [|y k] [|i] Hl; simplify_eq/=; try done.
  by rewrite IH.
Qed.

(** One region goes back to the sub-allocator. *)
Lemma delete_region_ok lay u s s1 i it it1 l u1 :
  heap lay u s -> settled lay [] s -> regions_ s !! i = Some it -> lay !! i = Some l ->
  dying (delete i lay) u1 s1 i it1 [] -> same_env s s1 ->
  ptr_ it1 = ptr_ it -> memory_size_ it1 = memory_size_ it ->
  delete i (regions_ s1) = delete i (regions_ s) ->
  (forall y, y ∈ concat (delete i lay) -> chunks_ s1 !! y = chunks_ s !! y) ->
  let s' := set_regions (delete i (regions_ s1))
              (set_total (u64 (total_region_allocated_bytes_ s1 - memory_size_ it))
                 (set_sub (sub_free (sub_allocator_ s1) (ptr_ it) (memory_size_ it)) s1)) in
  heap (delete i lay) u1 s' /\ settled (delete i lay) [] s'.
Proof.
  intros Hh Hst Hi Hli [Hg Hb Hf] (E1 & E2 & E3 & E4 & E5 & E6 & E7) Hp Hm Hdel Ho s'.
  pose proof (gone_end _ _ _ _ _ _ _ Hg) as Hsp.
  assert (Hh' : heap (delete i lay) u1 s').
  { destruct Hh as [Hsp0 _ _ Hid Hop Ht Hl Hc Hs].
    assert (Hperm : range <$> regions_ s ≡ₚ range it :: (range <$> delete i (regions_ s))).
    { rewrite (delete_Permutation _ _ _ Hi) at 1. done. }
    pose proof (region_bytes_perm _ _ _ _ Hperm) as Hrb.
    assert (0 <= region_bytes (delete i (regions_ s)) /\ 0 < memory_size_ it) as [Hnn Hpos].
    { pose proof (sp_regions _ _ _ _ _ Hsp0) as Hr0. split.
      - assert (Forall (fun r => 0 < memory_size_ r) (regions_ s)) as Hall.
        { clear -Hr0. induction Hr0 as [|r m rs ls Hok _ IH]; constructor; [by destruct Hok|done]. }
        apply (Forall_delete _ _ i) in Hall. clear -Hall.
        induction Hall as [|r rs Hr _ IH]; simpl; lia.
      - by destruct (Forall2_lookup_lr _ _ _ _ _ _ Hr0 Hi Hli). }
    split; simpl; try done.
    - by rewrite E6.
    - by rewrite E2.
    - rewrite E4, Ht, Hrb, Hdel, u64_small by lia. lia.
    - rewrite E1, Hdel. lia.
    - by rewrite E3.
    - rewrite Hdel, E5. apply (Permutation_cons_inv (a := range it)). rewrite <- Hperm, Hs.
      symmetry. apply sub_free_blocks. rewrite <- Hs. apply list_elem_of_fmap. exists it.
      split; [done|]. by eapply list_elem_of_lookup_2. }
  split; [done|]. eapply settled_obs; [exact Hst|exact Hh'| |].
  - intros x Hx. rewrite (proj1 (concat_lookup _ _ _ Hli)). set_solver.
  - intros x Hx _. split; [by apply not_elem_of_nil|]. simpl. by rewrite Ho.
Qed.

(** The regions, with their chunks, that are kept. *)
Definition kept (ptrs : list Z) (z : list (region * list nat)) : list (region * list nat) :=
  filter (fun rl => ptr_ rl.1 ∉ ptrs) z.

Lemma region_first lay u s i r l :
  heap lay u s -> regions_ s !! i = Some r -> lay !! i = Some l ->
  RegionManager.get_handle (regions_ s) (ptr_ r) = Some (hd l None) /\
  (length l <= length (chunks_ s))%nat.
Proof.
  intros Hh Hi Hli. pose proof (hp_space _ _ _ Hh) as Hsp.
  destruct (sp_region Hsp _ _ Hli) as (r' & ? & Hok). simplify_eq. split.
  - pose proof (ro_seg _ _ _ Hok) as Hs. destruct l as [|x l]; simpl in Hs.
    + destruct Hok. simpl in *. lia.
    + destruct Hs as (c & Hc & <- & _). eapply (sp_get_handle Hsp); [|done].
      apply elem_of_concat. exists i, (x :: l). split; [done|by left].
  - pose proof (Permutation_length (sp_perm _ _ _ _ _ Hsp)) as H.
    rewrite length_seq, length_app in H.
    rewrite (Permutation_length (proj1 (concat_lookup _ _ _ Hli))), length_app in H. lia.
Qed.

Lemma DeallocateRegions_from_ok ptrs n : forall i lay u s,
  heap lay u s -> settled lay [] s -> (i + n)%nat = length (regions_ s) ->
  ok (fun _ s' => exists lay' u', heap lay' u' s' /\ settled lay' [] s' /\
        curr_region_allocation_bytes_ s' = curr_region_allocation_bytes_ s /\
        zip (regions_ s') lay' =
          take i (zip (regions_ s) lay) ++ kept ptrs (drop i (zip (regions_ s) lay)) /\
        (forall x, x ∈ concat lay' -> x ∈ concat lay /\ chunks_ s' !! x = chunks_ s !! x))
     s (DeallocateRegions_from n i ptrs).
Proof.
  induction n as [|n IH]; intros i lay u s Hh Hst Hlen;
    pose proof (Forall2_length _ _ _ (sp_regions _ _ _ _ _ (hp_space _ _ _ Hh))) as Hll.
  - apply wp_ret. exists lay, u. split; [done|]. split; [done|]. split; [done|]. split; [|done].
    rewrite take_ge, drop_ge by (rewrite length_zip_with; lia). unfold kept. simpl.
    by rewrite app_nil_r.
  - cbn [DeallocateRegions_from]. do 2 wp_step.
    destruct (lookup_lt_is_Some_2 (regions_ s) i ltac:(lia)) as [it Hit]. rewrite Hit.
    destruct (lookup_lt_is_Some_2 lay i ltac:(lia)) as [l Hli].
    assert (Hz : zip (regions_ s) lay !! i = Some (it, l)).
    { rewrite lookup_zip_with, Hit. simpl. by rewrite Hli. }
    destruct (delete_cons_split _ _ _ Hz) as [Hz1 Hz2].
    assert (Hdrop : drop i (zip (regions_ s) lay) = (it, l) :: drop (S i) (zip (regions_ s) lay)).
    { by apply drop_S. }
    destruct (bool_decide (ptr_ it ∈ ptrs)) eqn:Ein.
    + apply bool_decide_eq_true in Ein. destruct (region_first _ _ _ _ _ _ Hh Hit Hli) as [Hgh Hfu].
      wp_step. eapply wp_get_handle; [exact Hgh|]. do 2 wp_step. wp_step.
      eapply wp_mono; [eapply (delete_chunks_ok _ (delete i lay) u s i it l)| |done]; [|done|].
      { split; [|by apply (hp_bins _ _ _ Hh)|by apply (hp_freed _ _ _ Hh)].
        by apply gone_start; [apply (hp_space _ _ _ Hh)|..]. }
      cbv beta. intros _ s1 (u1 & it1 & Hdy & He & Hp & Hm & Hdel & Ho).
      do 3 (wp_step; apply wp_modify). simpl.
      destruct (delete_region_ok lay u s s1 i it it1 l u1) as [Hh2 Hst2]; try done.
      assert (Hlt : (i < length (regions_ s))%nat) by by eapply lookup_lt_Some.
      eapply wp_mono; [apply (IH i (delete i lay) u1 _ Hh2 Hst2)| |done].
      { simpl. rewrite Hdel, length_delete by eauto. lia. }
      cbv beta. intros _ s3 (lay3 & u3 & Hh3 & Hst3 & Hcu & Hzip & Ho3). simpl in Hcu, Hzip, Ho3.
      exists lay3, u3. split; [done|]. split; [done|]. split; [|split].
      * rewrite Hcu. by destruct He as (_ & _ & ? & _).
      * rewrite Hzip, Hdel, zip_delete by done. rewrite Hz2, Hdrop.
        rewrite take_app_le, drop_app_ge by (rewrite length_take, length_zip_with; lia).
        rewrite length_take, length_zip_with, take_take.
        replace (i `min` i)%nat with i by lia.
        replace (i - i `min` (length (regions_ s) `min` length lay))%nat with 0%nat by lia.
        rewrite drop_0. f_equal. unfold kept. rewrite filter_cons_False; [done|]. simpl. intros Hn. by apply Hn.
      * intros x Hx. destruct (Ho3 x Hx) as [Hxd Hx3]. split.
        -- rewrite (proj1 (concat_lookup _ _ _ Hli)). apply elem_of_app. by right.
        -- rewrite Hx3. by apply Ho.
    + apply bool_decide_eq_false in Ein.
      eapply wp_mono; [apply (IH (S i) lay u s Hh Hst); lia| |done].
      cbv beta. intros _ s3 (lay3 & u3 & Hh3 & Hst3 & Hcu & Hzip & Ho3).
      exists lay3, u3. split; [done|]. split; [done|]. split; [done|]. split; [|done].
      rewrite Hzip, Hdrop. unfold kept at 2. rewrite filter_cons_True by done.
      rewrite (take_S_r _ _ _ Hz), <- app_assoc. done.
Qed.

Lemma DeallocateRegions_ok ptrs lay u s :
  heap lay u s -> settled lay [] s ->
  ok (fun _ s' => exists lay' u', heap lay' u' s' /\ settled lay' [] s' /\
        curr_region_allocation_bytes_ s' = curr_region_allocation_bytes_ s /\
        zip (regions_ s') lay' = kept ptrs (zip (regions_ s) lay) /\
        (forall x, x ∈ concat lay' -> x ∈ concat lay /\ chunks_ s' !! x = chunks_ s !! x))
     s (DeallocateRegions ptrs).
Proof.
  intros Hh Hst. unfold DeallocateRegions. do 2 wp_step.
  eapply wp_mono; [by apply (DeallocateRegions_from_ok ptrs _ 0 lay u)| |done].
  cbv beta. intros _ s' H. by rewrite take_0, drop_0 in H.
Qed.

(** Which blocks are still in use depends only on the regions kept. *)
Lemma used_after_release ptrs lay u s lay' u' s' :
  heap lay u s -> heap lay' u' s' ->
  zip (regions_ s') lay' = kept ptrs (zip (regions_ s) lay) ->
  (forall x, x ∈ concat lay' -> x ∈ concat lay /\ chunks_ s' !! x = chunks_ s !! x) ->
  (forall r l x c, (r, l) ∈ zip (regions_ s) lay -> ptr_ r ∈ ptrs -> x ∈ l ->
     chunks_ s !! x = Some c -> in_use c = false) ->
  used s' = used s.
Proof.
  intros Hh Hh' Hz Ho Hfree. apply used_same. intros x.
  destruct (decide (x ∈ concat lay')) as [Hx|Hx]; [by destruct (Ho x Hx) as [_ ->]|].
  assert (forall (s0 : t D) c, chunks_ s0 !! x = Some c -> in_use c = false ->
            chunks_ s0 !! x ≫= block = None) as Hnone.
  { intros s0 c Hc Hu. rewrite Hc. cbn. unfold block. by rewrite Hu. }
  assert (chunks_ s' !! x ≫= block = None) as ->.
  { destruct (chunks_ s' !! x) as [c|] eqn:Hc; [|done].
    destruct (sp_bound (hp_space _ _ _ Hh') x) as [_ [H|H]]; [by eapply lookup_lt_Some|done|].
    destruct (sp_unused _ _ _ _ _ (hp_space _ _ _ Hh') _ H) as (c' & ? & Ha & _). simplify_eq.
    cbn. unfold block. by rewrite (proj2 (in_use_id c) Ha). }
  destruct (chunks_ s !! x) as [c|] eqn:Hc; [|done]. symmetry. cbn. unfold block.
  assert (in_use c = false) as ->; [|done].
  destruct (sp_bound (hp_space _ _ _ Hh) x) as [_ [H|H]]; [by eapply lookup_lt_Some| |].
  - destruct (sp_live (hp_space _ _ _ Hh) _ H) as (i & r & l & c' & Hi & Hli & Hok & Hl & Hc').
    assert (Hzi : (r, l) ∈ zip (regions_ s) lay).
    { apply list_elem_of_lookup. exists i. rewrite lookup_zip_with, Hi. simpl. by rewrite Hli. }
    destruct (decide (ptr_ r ∈ ptrs)) as [Hp|Hp]; [by eapply (Hfree r l x c)|]. exfalso. apply Hx.
    assert (Hk : (r, l) ∈ zip (regions_ s') lay').
    { rewrite Hz. by apply list_elem_of_filter. }
    apply elem_of_zip_r, list_elem_of_lookup in Hk as [j Hj]. apply elem_of_concat. eauto.
  - destruct (sp_unused _ _ _ _ _ (hp_space _ _ _ Hh) _ H) as (c' & ? & Ha & _). simplify_eq.
    by apply in_use_id.
Qed.

Lemma any_use_ok fuel cs pv p l e (s : t D) :
  seg cs pv p l e None -> cs = chunks_ s -> (length l <= fuel)%nat ->
  ok (fun b s' => s' = s /\ (b = false -> forall x c, x ∈ l -> chunks_ s !! x = Some c ->
        in_use c = false)) s (any_use fuel (hd l None)).
Proof.
  intros Hs ->. revert fuel pv p Hs. induction l as [|x l IH]; intros fuel pv p Hs Hf.
  { destruct fuel; apply wp_ret; split; try done; by intros _ x c ?%elem_of_nil. }
  destruct fuel as [|fuel]; [simpl in Hf; lia|]. simpl in Hs.
  destruct Hs as (c & Hc & _ & _ & Hn & _ & _ & Hs). cbn [hd any_use].
  wp_step. eapply wp_ChunkFromHandle; [done|]. destruct (in_use c) eqn:Hu; [by apply wp_ret|].
  rewrite Hn. eapply wp_mono; [eapply IH; [done|simpl in Hf; lia]| |done].
  cbv beta. intros b s' [-> Hb]. split; [done|]. intros Hbf y d Hy Hd.
  apply elem_of_cons in Hy as [->|Hy]; [congruence|]. by eapply Hb.
Qed.

Lemma find_free_regions_ok lay u s : forall rs ls ptrs total,
  heap lay u s -> length rs = length ls ->
  (forall r l, (r, l) ∈ zip rs ls -> (r, l) ∈ zip (regions_ s) lay) ->
  ok (fun res s' => s' = s /\ forall p, p ∈ res.1 -> p ∈ ptrs \/
        exists r l, (r, l) ∈ zip (regions_ s) lay /\ p = ptr_ r /\
          forall x c, x ∈ l -> chunks_ s !! x = Some c -> in_use c = false)
     s (find_free_regions rs ptrs total).
Proof.
  induction rs as [|r rs IH]; intros [|l ls] ptrs total Hh Hlen Hsub; simplify_eq/=.
  { apply wp_ret. split; [done|]. intros p Hp. by left. }
  assert (Hin : (r, l) ∈ zip (regions_ s) lay) by (apply Hsub; by left).
  apply list_elem_of_lookup in Hin as [i Hi]. apply lookup_zip_with_Some in Hi as (r' & l' & E & Hi & Hli).
  injection E as <- <-. destruct (region_first _ _ _ _ _ _ Hh Hi Hli) as [Hgh Hfu].
  destruct (sp_region (hp_space _ _ _ Hh) _ _ Hli) as (r' & ? & Hok). simplify_eq.
  wp_step. eapply wp_get_handle; [exact Hgh|]. do 2 wp_step.
  wp_step. eapply wp_mono; [eapply any_use_ok; [by apply (ro_seg _ _ _ Hok)|done|done]| |done].
  cbv beta. intros b s' [-> Hb].
  assert (Hsub' : forall r0 l0, (r0, l0) ∈ zip rs ls -> (r0, l0) ∈ zip (regions_ s) lay).
  { intros r0 l0 H0. apply Hsub. by right. }
  destruct b.
  - by apply (IH ls).
  - eapply wp_mono; [by apply (IH ls)| |done]. cbv beta. intros res s' [-> Hr].
    split; [done|]. intros p Hp. destruct (Hr p Hp) as [Hp'|Hp']; [|by right].
    apply elem_of_cons in Hp' as [->|Hp']; [|by left]. right. exists r, l.
    split; [apply Hsub; by left|]. split; [done|]. by apply Hb.
Qed.

(** Regions start at different addresses. *)
Lemma region_ptr_inj lay u s r l r' l' :
  heap lay u s -> (r, l) ∈ zip (regions_ s) lay -> (r', l') ∈ zip (regions_ s) lay ->
  ptr_ r = ptr_ r' -> l = l'.
Proof.
  intros Hh Hr Hr' Hp.
  apply list_elem_of_lookup in Hr as [i Hi]. apply lookup_zip_with_Some in Hi as (? & ? & E & Hi & Hli).
  injection E as <- <-.
  apply list_elem_of_lookup in Hr' as [j Hj]. apply lookup_zip_with_Some in Hj as (? & ? & E & Hj & Hlj).
  injection E as <- <-. destruct (decide (i = j)) as [<-|Hne]; [congruence|]. exfalso.
  pose proof (sp_nonempty (hp_space _ _ _ Hh)) as Hne0. rewrite Forall_lookup in Hne0.
  pose proof (Hne0 _ _ Hi) as Hi0. pose proof (Hne0 _ _ Hj) as Hj0. simpl in Hi0, Hj0.
  destruct (decide (i < j)%nat).
  - pose proof (sp_before (hp_space _ _ _ Hh) i j _ _ ltac:(lia) Hi Hj). lia.
  - pose proof (sp_before (hp_space _ _ _ Hh) j i _ _ ltac:(lia) Hj Hi). lia.
Qed.

Lemma DeallocateFreeRegions_ok lay u s rounded :
  heap lay u s -> settled lay [] s ->
  ok (fun _ s' => exists lay' u', heap lay' u' s' /\ settled lay' [] s' /\ used s' = used s /\
        curr_region_allocation_bytes_ s' = curr_region_allocation_bytes_ s)
     s (DeallocateFreeRegions rounded).
Proof.
  intros Hh Hst. unfold DeallocateFreeRegions. do 2 wp_step.
  destruct (garbage_collection (opts_ s)); simpl; [|apply wp_ret; by exists lay, u].
  do 2 wp_step.
  wp_step. eapply wp_mono; [apply (find_free_regions_ok lay u s _ lay); [done| |done]| |done].
  { by eapply Forall2_length, sp_regions, hp_space. }
  cbv beta. intros [ptrs total] s' [-> Hp]. simpl in Hp.
  destruct (total =? 0); [apply wp_ret; by exists lay, u|]. do 2 wp_step. simpl.
  destruct (_ <? rounded); [apply wp_ret; by exists lay, u|].
  wp_step. eapply wp_mono; [by apply (DeallocateRegions_ok ptrs lay u)| |done].
  cbv beta. intros _ s' (lay' & u' & Hh' & Hst' & Hcu & Hz & Ho). apply wp_ret.
  exists lay', u'. split; [done|]. split; [done|]. split; [|done].
  eapply (used_after_release ptrs lay u s lay' u' s'); try done.
  intros r l x c Hrl Hr Hx Hc. destruct (Hp _ Hr) as [?%elem_of_nil|(r' & l' & Hrl' & E & Hf)]; [done|].
  rewrite (region_ptr_inj _ _ _ _ _ _ _ Hh Hrl Hrl' E) in Hx. by apply (Hf x).
Qed.
End safety.
