(* ===== verification/BfcSpec.v ===== *)
(** The contract of the BFC allocator: an abstract allocator whose state is
    the blocks handed out, the correctness of [Alloc], [Free], [RealFree] and
    [FreeAll] against it, and the refinement of whole histories of calls. *)
From stdpp Require Import base list gmap strings fin_maps sorting.
From S2P Require Import Prelude Bfc BfcLayout BfcHeap BfcSafety.
Import BFCAllocatorImpl.
Import AllocationRegion (ptr_, memory_size_, end_ptr_, handles_).

(** * The abstract allocator *)

(** A call with its answer.  [first]: the block is that of chunk 0, which the
    allocator takes for "not found". *)
Inductive event :=
  | EAlloc (nbytes : Z) (r : AsStatus * option Z)
  | EFree (p : Z) (first : bool)
  | ERealFree.

Module BlockSpec.
Definition t := list (Z * Z).

(** A block is new or the request fails; a free takes exactly the block of its
    pointer away, but the block of chunk 0 stays; releasing regions is invisible. *)
Inductive step : t -> event -> t -> Prop :=
  | alloc_ok b b' n p sz :
      0 < n <= sz -> Forall (apart (p, sz)) b -> b' ≡ₚ (p, sz) :: b ->
      step b (EAlloc n (ALLSPARK_SUCCESS, Some p)) b'
  | alloc_fails b n : step b (EAlloc n (ALLSPARK_MEMORY_ERROR, None)) b
  | free b b' p n : b ≡ₚ (p, n) :: b' -> step b (EFree p false) b'
  | free_first b p n : (p, n) ∈ b -> step b (EFree p true) b
  | real_free b : step b ERealFree b.

Inductive trace : t -> list event -> t -> Prop :=
  | trace_nil b : trace b [] b
  | trace_snoc b es b' e b'' : trace b es b' -> step b' e b'' -> trace b (es ++ [e]) b''.
End BlockSpec.

Lemma apart_sym a b : apart a b -> apart b a.
Proof. unfold apart. tauto. Qed.

Lemma pairs_perm {A} (R : A -> A -> Prop) (l k : list A) :
  (forall a b, R a b -> R b a) -> l ≡ₚ k -> ForallOrdPairs R l -> ForallOrdPairs R k.
Proof.
  intros Hsym. induction 1 as [|x l k Hp IH|x y l|l k m _ IH1 _ IH2]; intros H; auto.
  - inversion H as [|? ? Hx Hl]; subst. constructor; [|auto]. by rewrite <- Hp.
  - inversion H as [|? ? Hy Hl]; subst. inversion Hl as [|? ? Hx Hl']; subst.
    inversion Hy; subst. constructor; [constructor; auto|]. by constructor.
Qed.

(** * The calls *)
Section spec.
Context {D : Type} `{HD : SubAllocator D} `{HL : !SubAllocatorLaws D}.

(** The free blocks are those in the bins. *)
Definition free_block (c : Chunk) : option (Z * Z) :=
  match bin_num c with Some _ => Some (ptr c, size c) | None => None end.
Definition free_blocks (s : t D) : list (Z * Z) := omap free_block (chunks_ s).

Lemma free_blocks_live lay u s b :
  heap lay u s -> settled lay [] s ->
  b ∈ free_blocks s <-> exists h c, h ∈ concat lay /\ chunks_ s !! h = Some c /\
    in_use c = false /\ b = (ptr c, size c).
Proof.
  intros Hh Hst. unfold free_blocks. rewrite list_elem_of_omap. split.
  - intros (c & Hc & Hb). apply list_elem_of_lookup in Hc as [h Hc]. unfold free_block in Hb.
    destruct (bin_num c) as [z|] eqn:Ez; [|done]. injection Hb as <-. exists h, c.
    split; [|split; [done|split; [|done]]].
    + destruct (sp_bound (hp_space _ _ _ Hh) h) as [_ [H|H]]; [by eapply lookup_lt_Some|done|].
      destruct (sp_unused _ _ _ _ _ (hp_space _ _ _ Hh) _ H) as (c' & ? & _ & ?). congruence.
    + by eapply (bo_chunk _ _ (hp_bins _ _ _ Hh)).
  - intros (h & c & Hin & Hc & Hu & ->). exists c. split; [by eapply list_elem_of_lookup_2|].
    unfold free_block. destruct (bin_num c) as [z|] eqn:Ez; [done|].
    by destruct (st_binned _ _ _ Hst h c Hin Hc Hu (not_elem_of_nil h)).
Qed.

(** The smallest free block that is large enough, the first of its size. *)
Definition is_best_fit (s : t D) (rounded : Z) (b : Z * Z) : Prop :=
  b ∈ free_blocks s /\ rounded <= b.2 /\
  forall b', b' ∈ free_blocks s -> rounded <= b'.2 -> b.2 < b'.2 \/ b.2 = b'.2 /\ b.1 <= b'.1.

Lemma rounded_ok n : 0 < n <= 2 ^ 63 - 256 ->
  n <= RoundedBytes n < 2 ^ 63 /\ (256 | RoundedBytes n).
Proof.
  intros Hn. rewrite RoundedBytes_small by lia.
  pose proof (Z.mul_succ_div_gt (n + 255) 256 ltac:(lia)).
  pose proof (Z.mul_div_le (n + 255) 256 ltac:(lia)). split; [|apply Z.divide_factor_l].
  split; [lia|]. assert ((n + 255) / 256 <= (2 ^ 63 - 1) / 256) by (apply Z.div_le_mono; lia).
  change ((2 ^ 63 - 1) / 256) with (2 ^ 55 - 1) in *. lia.
Qed.

Lemma find_ok s n :
  inv s -> 0 < n <= 2 ^ 63 - 256 ->
  let r := RoundedBytes n in
  ok (fun res s' => match res with
        | Some p => exists sz0 sz, is_best_fit s r (p, sz0) /\ r <= sz <= sz0 /\ inv s' /\
                      used s' ≡ₚ (p, sz) :: used s
        | None => s' = s /\ Forall (fun b => b.2 < r) (free_blocks s)
        end)
     s (FindChunkPtr (BinNumForSize r) r n).
Proof.
  intros (lay & u & Hh & Hst) Hn r. destruct (rounded_ok n Hn) as [Hr Hd]. fold r in Hr, Hd.
  eapply wp_mono; [apply (FindChunkPtr_ok lay u); [done|done|lia|done]| |done].
  cbv beta. intros [p|] s'.
  - intros (h & c & sz & (c' & Hin & Hc' & Hu & Hge & Hmin) & Hc & -> & Hsz & Hi & Hus).
    assert (c' = c) as -> by congruence. exists (size c), sz. split; [|done]. split; [|split].
    + apply (free_blocks_live lay u); [done..|]. eauto 10.
    + done.
    + intros b Hb Hrb. apply (free_blocks_live lay u) in Hb as (x & d & Hx & Hdx & Hud & ->); [|done..].
      simpl in *. by eapply Hmin.
  - intros [-> Hf]. split; [done|]. apply Forall_forall. intros b Hb.
    apply (free_blocks_live lay u) in Hb as (x & d & Hx & Hdx & Hud & ->); [|done..].
    by eapply Hf.
Qed.

Lemma grow_curr_zero rounded : 0 < rounded -> grow_curr rounded 0 = None.
Proof.
  intros Hr. unfold grow_curr.
  assert (forall n inc, exists s', iter_nat n (fun '(c, inc) =>
            if c <? rounded then inl (u64 (c * 2), true) else inr (c, inc)) (0, inc) = inl s') as H.
  { induction n as [|n IH]; intros inc; cbn [iter_nat]; [eauto|].
    apply Z.ltb_lt in Hr as ->. change (u64 (0 * 2)) with 0. apply IH. }
  destruct (H 65%nat false) as [s' E]. by rewrite E.
Qed.

(** A growth counter of 0, which doubling wraps to, makes growing hang. *)
Definition hangs (s : t D) (e : exn) : Prop := e = Hang /\ curr_region_allocation_bytes_ s = 0.

Lemma Extend_any lay u s alignment rounded :
  heap lay u s -> settled lay [] s -> 0 < rounded <= 2 ^ 63 -> (256 | rounded) ->
  wp (Extend alignment rounded)
    (fun (b : bool) s' => used s' = used s /\ inv s' /\
       if b then exists h, h ∈ free_blocks s' /\ rounded <= h.2
       else curr_region_allocation_bytes_ s' = 0 -> curr_region_allocation_bytes_ s = 0)
    (fun e _ => hangs s e) s.
Proof.
  intros Hh Hst Hr Hd. destruct (hp_curr _ _ _ Hh) as [Hc0 _].
  destruct (Z.eq_dec (curr_region_allocation_bytes_ s) 0) as [E|Hne].
  - unfold Extend. do 2 wp_step. simpl. destruct (_ <? rounded).
    + apply wp_ret. split; [done|]. split; [by exists lay, u|done].
    + rewrite E, grow_curr_zero by lia. by apply wp_throw.
  - eapply wp_mono; [apply (Extend_ok lay u); [done..|lia]| |done]. cbv beta.
    intros b s' [Hus Hb]. split; [done|]. destruct b.
    + destruct Hb as (lay' & u' & Hh' & Hst' & h & c & Hin & Hc & Hu & Hsz).
      split; [by exists lay', u'|]. exists (ptr c, size c). split; [|done].
      apply (free_blocks_live lay' u'); [done..|]. eauto 10.
    + destruct Hb as (Hh' & Hst' & Hpos). split; [by exists lay, u|lia].
Qed.

(** What [Alloc] answers, and how the blocks in use change. *)
Definition alloc_post (n : Z) (s : t D) (r : AsStatus * option Z) (s' : t D) : Prop :=
  inv s' /\
  (r = (ALLSPARK_MEMORY_ERROR, None) /\ used s' = used s /\
     (n = 0 \/ Forall (fun b => b.2 < RoundedBytes n) (free_blocks s)) \/
   exists p sz, r = (ALLSPARK_SUCCESS, Some p) /\ 0 < n <= sz /\
     Forall (apart (p, sz)) (used s) /\ used s' ≡ₚ (p, sz) :: used s).

Lemma used_fresh (s s' : BFCAllocatorImpl.t D) p sz :
  inv s' -> used s' ≡ₚ (p, sz) :: used s -> Forall (apart (p, sz)) (used s).
Proof.
  intros (lay & u & Hh & _) Hp. apply heap_disjoint in Hh.
  apply (pairs_perm apart _ _ apart_sym Hp) in Hh. by inversion Hh.
Qed.

Lemma AllocateRaw_ok s alignment n :
  inv s -> 0 < n <= 2 ^ 63 - 256 ->
  wp (AllocateRawInternal alignment n)
    (fun r s' => inv s' /\ match r with
       | Some p => exists sz, n <= sz /\ used s' ≡ₚ (p, sz) :: used s
       | None => used s' = used s /\ Forall (fun b => b.2 < RoundedBytes n) (free_blocks s)
       end)
    (fun e _ => hangs s e) s.
Proof.
  intros Hi Hn. destruct (rounded_ok n Hn) as [Hr Hd]. unfold AllocateRawInternal.
  destruct (n =? 0) eqn:E0; [apply Z.eqb_eq in E0; lia|].
  set (r := RoundedBytes n) in *.
  wp_step. eapply wp_mono; [by apply find_ok| |done]. cbv beta.
  intros [p|] s1 Hf.
  { destruct Hf as (sz0 & sz & _ & Hsz & Hi1 & Hus). apply wp_ret. split; [done|].
    exists sz. split; [lia|done]. }
  destruct Hf as [-> Hnone]. destruct Hi as (lay & u & Hh & Hst).
  wp_step. eapply wp_mono; [apply (Extend_any lay u); [done|done|lia|done]| |done].
  cbv beta. intros b s1 (Hus1 & Hi1 & Hb). wp_step.
  assert (Hsecond : forall b1 s2, inv s2 -> used s2 = used s ->
    (b1 = true -> exists h, h ∈ free_blocks s2 /\ r <= h.2) ->
    wp (if b1 : bool then FindChunkPtr (BinNumForSize r) r n else mret None)
      (fun p s' => inv s' /\ match p with
         | Some p => exists sz, n <= sz /\ used s' ≡ₚ (p, sz) :: used s
         | None => b1 = false /\ s' = s2
         end) (fun e _ => hangs s e) s2).
  { intros b1 s2 Hi2 Hus2 Hfit. destruct b1; [|by apply wp_ret].
    eapply wp_mono; [by apply find_ok| |done]. cbv beta. intros [p|] s3 Hf.
    - destruct Hf as (sz0 & sz & _ & Hsz & Hi3 & Hus3). split; [done|]. exists sz.
      split; [lia|]. by rewrite <- Hus2.
    - destruct Hf as [-> Hf]. destruct (Hfit eq_refl) as (h & Hh' & Hle).
      rewrite Forall_forall in Hf. specialize (Hf _ Hh'). simpl in Hf. fold r in Hf. lia. }
  eapply wp_mono; [apply (Hsecond b s1 Hi1 Hus1); by intros ->| |done].
  cbv beta. intros [p|] s2 [Hi2 H2]; [by apply wp_ret|]. destruct H2 as [-> ->].
  destruct Hi1 as (lay1 & u1 & Hh1 & Hst1).
  wp_step. eapply wp_mono; [by apply (DeallocateFreeRegions_ok lay1 u1)| |done].
  cbv beta. intros fr s3 (lay3 & u3 & Hh3 & Hst3 & Hus3 & Hcu3).
  assert (inv s3) as Hi3 by by exists lay3, u3.
  destruct fr; [|apply wp_ret; split; [done|]; split; [by rewrite Hus3|done]].
  wp_step. eapply wp_mono; [apply (Extend_any lay3 u3); [done|done|lia|done]| |].
  - cbv beta. intros b s4 (Hus4 & Hi4 & Hb4).
    eapply wp_mono; [apply (Hsecond b s4 Hi4); [by rewrite Hus4, Hus3|by intros ->]| |done].
    cbv beta. intros [p|] s5 [Hi5 H5]; [done|]. destruct H5 as [-> ->].
    split; [done|]. split; [by rewrite Hus4, Hus3|done].
  - cbv beta. intros e _ [-> Hz]. split; [done|]. apply Hb. congruence.
Qed.

Lemma Alloc_ok s n :
  inv s -> 0 <= n <= 2 ^ 63 - 256 ->
  wp (Alloc n) (alloc_post n s) (fun e _ => hangs s e) s.
Proof.
  intros Hi Hn. unfold Alloc, AllocateRaw. rewrite u64_small by lia.
  destruct (Z.eq_dec n 0) as [->|Hne].
  { wp_step. unfold AllocateRawInternal. simpl. apply wp_ret. apply wp_ret.
    split; [done|]. left. split; [done|]. split; [done|by left]. }
  wp_step. eapply wp_mono; [apply AllocateRaw_ok; [done|lia]| |done]. cbv beta.
  intros [p|] s' [Hi' H]; apply wp_ret; (split; [done|]).
  - right. destruct H as (sz & Hsz & Hus). exists p, sz. split; [done|]. split; [lia|].
    split; [by eapply used_fresh|done].
  - left. destruct H as [Hus Hf]. split; [done|]. split; [done|by right].
Qed.

Lemma RealFree_ok s :
  inv s -> ok (fun _ s' => inv s' /\ used s' = used s) s RealFree.
Proof.
  intros (lay & u & Hh & Hst). unfold RealFree.
  wp_step. eapply wp_mono; [by apply (DeallocateFreeRegions_ok lay u)| |done].
  cbv beta. intros b s' (lay' & u' & Hh' & Hst' & Hus & _). apply wp_ret.
  split; [by exists lay', u'|done].
Qed.

Lemma FreeAll_ok s : inv s -> ok (fun _ s' => inv s' /\ used s' = [] /\ regions_ s' = []) s FreeAll.
Proof.
  intros (lay & u & Hh & Hst). unfold FreeAll, DeallocateAllRegions.
  wp_step. wp_step. apply wp_gets.
  set (ptrs := ptr_ <$> regions_ s).
  wp_step. eapply wp_mono; [by apply (DeallocateRegions_ok ptrs lay u)| |done].
  cbv beta. intros _ s' (lay' & u' & Hh' & Hst' & _ & Hz & _). apply wp_ret. apply wp_ret.
  assert (Hnil : zip (regions_ s') lay' = []).
  { rewrite Hz. destruct (kept ptrs _) as [|[r l] k] eqn:E; [done|]. exfalso.
    assert ((r, l) ∈ kept ptrs (zip (regions_ s) lay)) as Hin by (rewrite E; by left).
    apply list_elem_of_filter in Hin as [Hn Hin]. apply Hn. apply elem_of_zip_l in Hin.
    by apply list_elem_of_fmap_2. }
  pose proof (Forall2_length _ _ _ (sp_regions _ _ _ _ _ (hp_space _ _ _ Hh'))) as Hl.
  assert (regions_ s' = []) as Hr.
  { destruct (regions_ s'), lay'; by simplify_eq/=. }
  split; [by exists lay', u'|]. split; [|done].
  destruct (used s') as [|b us] eqn:E; [done|].
  destruct (used_in_heap _ _ _ b Hh') as (r & Hin & _); [rewrite E; by left|].
  rewrite Hr in Hin. by apply elem_of_nil in Hin.
Qed.

Definition options_ok (o : Options) : Prop := 0 < max_internal_fragmentation_bytes o < 2 ^ 64.

Lemma new_ok d limit o s :
  new d limit o = Ok s -> sub_blocks d = [] -> 0 <= limit < 2 ^ 64 -> options_ok o ->
  inv s /\ used s = [].
Proof.
  unfold new. destruct (forallb check_bin (seqZ 0 kNumBins)); [|done]. intros [= <-] Hd Hl Ho.
  split; [|done]. exists [], []. split.
  - split; simpl; try done.
    + split; simpl; try done; try constructor. by intros h ?%elem_of_nil.
    + split; simpl; try done.
      * intros b l Hb. change 21%nat with (Z.to_nat kNumBins) in Hb.
        apply (lookup_replicate_1 (Z.to_nat kNumBins)) in Hb as [-> _]. constructor.
      * intros h b. split.
        -- intros (l & Hb & Hh). apply (lookup_replicate_1 (Z.to_nat kNumBins)) in Hb as [-> _].
           by apply elem_of_nil in Hh.
        -- by intros (c & Hc & _).
    + assert (forall b, 0 <= RoundedBytes b < 2 ^ 64 /\ (256 | RoundedBytes b)) as Hr.
      { intros b. unfold RoundedBytes. split; [apply u64_range|]. unfold u64 at 1.
        rewrite Z.mod_eq by lia. apply Z.divide_sub_r; [apply Z.divide_factor_l|].
        apply Z.divide_mul_l. by exists (2 ^ 56). }
      destruct (allow_growth o); apply Hr.
    + by rewrite Hd.
  - split; [by intros h c Hh|by intros h c n e Hh].
Qed.

(** * Histories of calls *)

(** The calls that return, of a client that asks for at most 2^63-256 bytes (from
    there on the rounded size wraps) and frees only blocks the allocator has handed
    out and not taken back. *)
Definition is_first (p : Z) (s : BFCAllocatorImpl.t D) : bool :=
  bool_decide (RegionManager.get_handle (regions_ s) p = Some (Some 0%nat)).

Inductive step : BFCAllocatorImpl.t D -> event -> BFCAllocatorImpl.t D -> Prop :=
  | step_alloc s n r s' :
      0 <= n <= 2 ^ 63 - 256 -> Alloc n s = (Ok r, s') -> step s (EAlloc n r) s'
  | step_free s p n r s' :
      (p, n) ∈ used s -> Free (Some p) s = (Ok r, s') -> step s (EFree p (is_first p s)) s'
  | step_real_free s r s' : RealFree s = (Ok r, s') -> step s ERealFree s'.

Inductive trace : BFCAllocatorImpl.t D -> list event -> BFCAllocatorImpl.t D -> Prop :=
  | trace_nil s : trace s [] s
  | trace_snoc s es s' e s'' : trace s es s' -> step s' e s'' -> trace s (es ++ [e]) s''.

Lemma wp_Ok {A} (m : M (BFCAllocatorImpl.t D) A) Q E s a s' :
  wp m Q E s -> m s = (Ok a, s') -> Q a s'.
Proof. unfold wp. intros H Hr. by rewrite Hr in H. Qed.

(** One call simulates one step of the abstract allocator. *)
Lemma step_simulates s e s' b :
  inv s -> used s ≡ₚ b -> step s e s' ->
  exists b', BlockSpec.step b e b' /\ inv s' /\ used s' ≡ₚ b'.
Proof.
  intros Hi Hb Hs. destruct Hs as [s n r s' Hn Hr|s p n r s' Hin Hr|s r s' Hr].
  - destruct (wp_Ok _ _ _ _ _ _ (Alloc_ok s n Hi Hn) Hr) as [Hi' [(-> & Hus & _)|Hok]].
    + exists b. split; [constructor|]. by rewrite Hus.
    + destruct Hok as (p & sz & -> & Hsz & Hap & Hus). exists ((p, sz) :: b).
      split; [|by rewrite Hus, Hb]. eapply BlockSpec.alloc_ok; [done| |done].
      by rewrite <- Hb.
  - unfold is_first. case_bool_decide as Hg.
    + rewrite (proj1 first_chunk_never_freed D HD s p Hg) in Hr. injection Hr as <- <-.
      exists b. split; [|done]. eapply BlockSpec.free_first. by rewrite <- Hb.
    + destruct (wp_Ok _ _ _ _ _ _ (Free_ok s p n Hi Hin Hg) Hr) as (_ & Hi' & Hus & _).
      exists (used s'). split; [|done]. eapply BlockSpec.free. by rewrite <- Hb, Hus.
  - destruct (wp_Ok _ _ _ _ _ _ (RealFree_ok s Hi) Hr) as [Hi' Hus].
    exists b. split; [constructor|]. by rewrite Hus.
Qed.
End spec.

(** C12. [Alloc]: from every state of the invariant and for every size up to
    2^63-256 the call returns (the growth counter not being 0), keeps the
    invariant, and either reports success with a block of at least that size
    that overlaps no block in use and is the only change to them, or reports
    ALLSPARK_MEMORY_ERROR with the blocks in use unchanged, which happens only
    for size 0 or when no free block was large enough. *)
Theorem Alloc_correct {D} `{SubAllocatorLaws D} (s : BFCAllocatorImpl.t D) n :
  inv s -> 0 <= n <= 2 ^ 63 - 256 -> 0 < curr_region_allocation_bytes_ s ->
  exists r s', Alloc n s = (Ok r, s') /\ alloc_post n s r s' /\
    ForallOrdPairs apart (used s').
Proof.
  intros Hi Hn Hc. pose proof (Alloc_ok s n Hi Hn) as Hw. unfold wp in Hw.
  destruct (Alloc n s) as [[r|e] s']; [|destruct Hw; lia].
  exists r, s'. split; [done|]. split; [done|].
  destruct Hw as [(lay & u & Hh & _) _]. by eapply heap_disjoint.
Qed.

(** C13. [Free] of a block in use, unless chunk 0 holds it, returns SUCCESS,
    keeps the invariant (neighbours coalesced, every free chunk binned), and
    takes exactly that block from the blocks in use. *)
Theorem Free_correct {D} `{SubAllocatorLaws D} (s : BFCAllocatorImpl.t D) p n :
  inv s -> (p, n) ∈ used s ->
  RegionManager.get_handle (regions_ s) p <> Some (Some 0%nat) ->
  exists s', Free (Some p) s = (Ok ALLSPARK_SUCCESS, s') /\ inv s' /\
    used s ≡ₚ (p, n) :: used s'.
Proof.
  intros Hi Hin Hg. destruct (ok_run _ _ _ (Free_ok s p n Hi Hin Hg)) as (r & s' & Hr & -> & Hi' & Hus & _).
  by exists s'.
Qed.

(** [FindChunkPtr] is a best fit: it takes the smallest free block that is
    large enough, at the lowest address among those, splits off what it does
    not need, and fails only when every free block is too small. *)
Theorem FindChunkPtr_best_fit {D} `{SubAllocatorLaws D} (s : BFCAllocatorImpl.t D) n :
  inv s -> 0 < n <= 2 ^ 63 - 256 ->
  let r := RoundedBytes n in
  exists res s', FindChunkPtr (BinNumForSize r) r n s = (Ok res, s') /\
    match res with
    | Some p => exists sz0 sz, is_best_fit s r (p, sz0) /\ r <= sz <= sz0 /\ inv s' /\
                  used s' ≡ₚ (p, sz) :: used s
    | None => s' = s /\ Forall (fun b => b.2 < r) (free_blocks s)
    end.
Proof. intros Hi Hn r. exact (ok_run _ _ _ (find_ok s n Hi Hn)). Qed.

(** C11. The allocator refines the abstract allocator of [BlockSpec]: every
    history of calls from the initial state that return, with sizes up to 2^63-256
    and frees of blocks in use, is one of the abstract allocator, whose blocks are
    then the blocks in use.  A free of the block of chunk 0, the first one a new
    allocator hands out, leaves that block in use; every other free takes exactly
    its block away. *)
Theorem bfc_refines {D} `{SubAllocatorLaws D} d limit o (s0 s : BFCAllocatorImpl.t D) es :
  new d limit o = Ok s0 -> sub_blocks d = [] -> 0 <= limit < 2 ^ 64 -> options_ok o ->
  trace s0 es s ->
  exists b, BlockSpec.trace [] es b /\ used s ≡ₚ b.
Proof.
  intros Hnew Hd Hl Ho Ht. destruct (new_ok d limit o s0 Hnew Hd Hl Ho) as [Hi0 Hu0].
  clear Hnew Hd Hl Ho.
  assert (exists b, BlockSpec.trace [] es b /\ inv s /\ used s ≡ₚ b) as (b & Hb & _ & Hu);
    [|by exists b].
  induction Ht as [s|s es s' e s'' Ht IH Hs].
  - exists []. split; [constructor|]. by rewrite Hu0.
  - destruct (IH Hi0 Hu0) as (b & Hb & Hi & Hu).
    destruct (step_simulates _ _ _ _ Hi Hu Hs) as (b' & Hstep & Hi' & Hu').
    exists b'. split; [by econstructor|done].
Qed.

(** [RealFree] and [FreeAll] return, keep the invariant, and leave the
    blocks in use alone or take them all with every region. *)
Theorem releases_correct {D} `{SubAllocatorLaws D} (s : BFCAllocatorImpl.t D) :
  inv s ->
  (exists s', RealFree s = (Ok tt, s') /\ inv s' /\ used s' = used s) /\
  (exists s', FreeAll s = (Ok tt, s') /\ inv s' /\ used s' = [] /\ regions_ s' = []).
Proof.
  intros Hi. split.
  - destruct (ok_run _ _ _ (RealFree_ok s Hi)) as ([] & s' & Hr & Hp). eauto.
  - destruct (ok_run _ _ _ (FreeAll_ok s Hi)) as ([] & s' & Hr & Hp). eauto.
Qed.

(** ** Concrete runs *)

Lemma demo_inv : inv demo /\ used demo = [].
Proof.
  apply (new_ok (PageSubAllocator.mk [] 16384) 16384 demo_options).
  - vm_compute. reflexivity.
  - reflexivity.
  - vm_compute. split; [discriminate|reflexivity].
  - vm_compute. split; reflexivity.
Qed.

(** Two blocks handed out. *)
Definition demo1 : BFCAllocatorImpl.t PageSubAllocator.t := snd (Alloc 1000 demo).
Definition demo2 : BFCAllocatorImpl.t PageSubAllocator.t := snd (Alloc 5000 demo1).

Lemma demo2_inv : inv demo2 /\ used demo2 = [(1048576, 1024); (1049600, 5120)].
Proof.
  split; [|vm_compute; reflexivity].
  assert (Hstep : forall s n r, inv s -> 0 <= n <= 2 ^ 63 - 256 -> fst (Alloc n s) = Ok r ->
            inv (snd (Alloc n s))).
  { intros s n r Hi Hn Hr. pose proof (Alloc_ok s n Hi Hn) as Hw. unfold wp in Hw.
    destruct (Alloc n s) as [[a|e] s'] eqn:E; [|done]. by destruct Hw. }
  eapply Hstep; [eapply Hstep|..]; [apply demo_inv|lia|vm_compute; reflexivity|lia|].
  vm_compute. reflexivity.
Qed.

Lemma Alloc_correct_witness :
  exists r s', Alloc 1000 demo = (Ok r, s') /\ alloc_post 1000 demo r s' /\
    ForallOrdPairs apart (used s').
Proof.
  refine (Alloc_correct demo 1000 (proj1 demo_inv) _ _); [lia|]. vm_compute. reflexivity.
Defined.

Lemma Free_correct_witness :
  exists s', Free (Some 1049600) demo2 = (Ok ALLSPARK_SUCCESS, s') /\ inv s' /\
    used demo2 ≡ₚ (1049600, 5120) :: used s'.
Proof.
  refine (Free_correct demo2 1049600 5120 (proj1 demo2_inv) _ _).
  - rewrite (proj2 demo2_inv). right. left.
  - vm_compute. discriminate.
Defined.

Lemma FindChunkPtr_best_fit_witness :
  let r := RoundedBytes 700 in
  exists res s', FindChunkPtr (BinNumForSize r) r 700 demo2 = (Ok res, s') /\
    match res with
    | Some p => exists sz0 sz, is_best_fit demo2 r (p, sz0) /\ r <= sz <= sz0 /\ inv s' /\
                  used s' ≡ₚ (p, sz) :: used demo2
    | None => s' = demo2 /\ Forall (fun b => b.2 < r) (free_blocks demo2)
    end.
Proof. refine (FindChunkPtr_best_fit demo2 700 (proj1 demo2_inv) _). lia. Defined.

Lemma demo_new : new (PageSubAllocator.mk [] 16384) 16384 demo_options = Ok demo.
Proof. vm_compute. reflexivity. Qed.

Lemma run_snd {S A} (m : M S A) s r : fst (m s) = r -> m s = (r, snd (m s)).
Proof. intros <-. by destruct (m s). Qed.

Lemma demo_trace :
  trace demo ([] ++ [EAlloc 1000 (ALLSPARK_SUCCESS, Some 1048576)] ++
              [EAlloc 5000 (ALLSPARK_SUCCESS, Some 1049600)] ++ [EFree 1048576 true] ++ [EFree 1049600 false])
    (snd (Free (Some 1049600) demo2)).
Proof.
  eapply (trace_snoc _ [_; _; _] demo2); [eapply (trace_snoc _ [_; _] demo2)|].
  - eapply (trace_snoc _ [_] demo1).
    + eapply (trace_snoc _ [] demo); [constructor|].
      unfold demo1. apply step_alloc; [lia|].
      refine (run_snd (Alloc 1000) demo _ _). vm_compute. reflexivity.
    + unfold demo2. apply step_alloc; [lia|].
      refine (run_snd (Alloc 5000) demo1 _ _). vm_compute. reflexivity.
  - apply (step_free demo2 1048576 1024 ALLSPARK_SUCCESS).
    + rewrite (proj2 demo2_inv). left.
    + vm_compute. reflexivity.
  - apply (step_free demo2 1049600 5120 ALLSPARK_SUCCESS).
    + rewrite (proj2 demo2_inv). right. left.
    + refine (run_snd (Free (Some 1049600)) demo2 _ _). vm_compute. reflexivity.
Qed.

Lemma bfc_refines_witness :
  exists b, BlockSpec.trace []
              ([] ++ [EAlloc 1000 (ALLSPARK_SUCCESS, Some 1048576)] ++
               [EAlloc 5000 (ALLSPARK_SUCCESS, Some 1049600)] ++ [EFree 1048576 true] ++
               [EFree 1049600 false]) b /\
    used (snd (Free (Some 1049600) demo2)) ≡ₚ b.
Proof.
  refine (bfc_refines _ _ _ _ _ _ demo_new _ _ _ demo_trace).
  - reflexivity.
  - vm_compute. split; [discriminate|reflexivity].
  - vm_compute. split; reflexivity.
Defined.

Lemma releases_correct_witness :
  (exists s', RealFree demo2 = (Ok tt, s') /\ inv s' /\ used s' = used demo2) /\
  (exists s', FreeAll demo2 = (Ok tt, s') /\ inv s' /\ used s' = [] /\ regions_ s' = []).
Proof. refine (releases_correct demo2 (proj1 demo2_inv)). Defined.

(** All of the memory taken and given back, [n] times over. *)
Definition cycle : M (BFCAllocatorImpl.t PageSubAllocator.t) unit :=
  '(_, p) ← Alloc 16384; Free p;; RealFree;; mret tt.
Definition cycles (n : nat) : M (BFCAllocatorImpl.t PageSubAllocator.t) unit :=
  Nat.iter n (fun m => m;; cycle) (Alloc 256;; FreeAll).

(** Growing doubles [curr_region_allocation_bytes_] without a bound: after
    49 rounds of taking and releasing the memory the counter has wrapped to
    0, and the next request that has to grow never returns. *)
Theorem growth_counter_wraps :
  fst (cycles 49 demo) = Ok tt /\ used (snd (cycles 49 demo)) = [] /\
  curr_region_allocation_bytes_ (snd (cycles 49 demo)) = 0 /\
  fst (cycles 50 demo) = Err Hang.
Proof. by vm_compute. Qed.
