(* ===== verification/StringUtil.v ===== *)
(** String helpers (src/csrc/utility/string_util.cpp).  A string is the list
    of its bytes, each a number from 0 to 255; a [const char*] is [None] (NULL)
    or the bytes before the terminating NUL.  The functions of the C and C++
    libraries that the code calls (find, strtol, strtoull, snprintf "%016lx",
    tolower) are written out as the standard defines them. *)
From stdpp Require Import base list strings.
From Stdlib Require Import Ascii.
From S2P Require Import Prelude.

Abbreviation bytes := (list Z).

(** The bytes of a literal. *)
Fixpoint lit (s : string) : bytes :=
  match s with
  | EmptyString => []
  | String c s' => Z.of_nat (nat_of_ascii c) :: lit s'
  end.

(** * The library functions used *)
Fixpoint starts_with (pat s : bytes) : bool :=
  match pat, s with
  | [], _ => true
  | p :: pat', c :: s' => (p =? c) && starts_with pat' s'
  | _ :: _, [] => false
  end.

(** [std::string::find]: [None] is npos. *)
Fixpoint find_at (s pat : bytes) : option nat :=
  if starts_with pat s then Some 0%nat
  else match s with [] => None | _ :: s' => S <$> find_at s' pat end.
Definition find (s pat : bytes) (pos : nat) : option nat :=
  if (pos <=? length s)%nat then (fun n => (pos + n)%nat) <$> find_at (drop pos s) pat else None.

Definition member (set : bytes) (c : Z) : bool := existsb (Z.eqb c) set.

(** [find_first_of], [find_first_not_of]; [None] as position is npos. *)
Definition find_first (P : Z -> bool) (s : bytes) (pos : option nat) : option nat :=
  match pos with
  | None => None
  | Some p =>
      match list_find (fun c => P c) (drop p s) with
      | Some (i, _) => Some (p + i)%nat
      | None => None
      end
  end.

(** The isspace of the C locale, which strtol and its relatives skip. *)
Definition isspace (c : Z) : bool := (c =? 32) || ((9 <=? c) && (c <=? 13)).

Definition digit_value (c : Z) : option Z :=
  if (48 <=? c) && (c <=? 57) then Some (c - 48)
  else if (97 <=? c) && (c <=? 122) then Some (c - 87)
  else if (65 <=? c) && (c <=? 90) then Some (c - 55)
  else None.
Definition is_digit (base c : Z) : bool :=
  match digit_value c with Some d => d <? base | None => false end.

(** The longest run of digits: its value, its length and what follows. *)
Fixpoint read_digits (base : Z) (s : bytes) (v : Z) (n : nat) : Z * nat * bytes :=
  match s with
  | [] => (v, n, [])
  | c :: s' =>
      match digit_value c with
      | Some d => if d <? base then read_digits base s' (v * base + d) (S n) else (v, n, s)
      | None => (v, n, s)
      end
  end.

Fixpoint drop_space (s : bytes) : bytes :=
  match s with c :: s' => if isspace c then drop_space s' else s | [] => [] end.

Definition read_sign (s : bytes) : bool * bytes :=
  match s with
  | c :: s' => if c =? 45 then (true, s') else if c =? 43 then (false, s') else (false, s)
  | [] => (false, [])
  end.

(** "0x" before a hexadecimal digit is skipped in base 16. *)
Definition skip_0x (base : Z) (s : bytes) : bytes :=
  match s with
  | z :: x :: d :: s' =>
      if (base =? 16) && (z =? 48) && ((x =? 120) || (x =? 88)) && is_digit 16 d
      then d :: s' else s
  | _ => s
  end.

(** What all of them read: sign, magnitude and the rest; without a digit
    nothing is consumed and the value is 0. *)
Definition strto (base : Z) (s : bytes) : bool * Z * bytes :=
  let '(neg, s1) := read_sign (drop_space s) in
  let '(v, n, rest) := read_digits base (skip_0x base s1) 0 0 in
  match n with O => (false, 0, s) | S _ => (neg, v, rest) end.

(** The value, whether errno is set to ERANGE, and [endPtr]. *)
Definition strtol (base : Z) (s : bytes) : Z * bool * bytes :=
  let '(neg, m, rest) := strto base s in
  let v := if neg then - m else m in
  if v <? - 2 ^ 63 then (- 2 ^ 63, true, rest)
  else if INT64_MAX <? v then (INT64_MAX, true, rest)
  else (v, false, rest).
Definition strtoul (base : Z) (s : bytes) : Z * bool * bytes :=
  let '(neg, m, rest) := strto base s in
  if SIZE_MAX <? m then (SIZE_MAX, true, rest)
  else (if neg then u64 (- m) else m, false, rest).

(** * [split] and [StringUtil::Split] *)

(** [while ((pos = s.find(delim)) != npos)]: [None] when the loop never ends,
    which is when a round leaves [s] as it is. *)
Fixpoint split_loop (fuel : nat) (out : list bytes) (s delim : bytes) : option (list bytes) :=
  match find s delim 0 with
  | None => Some (out ++ [s])
  | Some pos =>
      match fuel with
      | O => None
      | S k => split_loop k (out ++ [take pos s]) (drop (pos + length delim) s) delim
      end
  end.
Definition split (str delim : bytes) : option (list bytes) :=
  split_loop (length str) [] str delim.

Fixpoint Split_loop (fuel n old : nat) (vec : list bytes) (str sep : bytes)
    : option (list bytes) :=
  match find str sep n with
  | None => Some (vec ++ [drop old str])
  | Some n' =>
      match fuel with
      | O => None
      | S k =>
          let vec' := if (n' =? old)%nat then vec else vec ++ [take (n' - old) (drop old str)] in
          Split_loop k (n' + length sep) (n' + length sep) vec' str sep
      end
  end.
Definition Split (text sepStr : bytes) : option (list bytes) :=
  Split_loop (length text) 0 0 [] text sepStr.

(** [s.substr(lastPos, pos - lastPos)], to the end when [pos] is npos. *)
Definition substr_to (s : bytes) (lastPos : nat) (pos : option nat) : bytes :=
  match pos with Some p => take (p - lastPos) (drop lastPos s) | None => drop lastPos s end.

(** The loop runs while a token starts; with [lastPos] npos, [pos] is too. *)
Fixpoint Split2_loop (fuel : nat) (s delimiters : bytes) (tokens : list bytes)
    (lastPos pos : option nat) : option (list bytes) :=
  match lastPos with
  | None => Some tokens
  | Some l =>
      match fuel with
      | O => None
      | S k =>
          let tokens' := tokens ++ [substr_to s l pos] in
          let lastPos' := find_first (fun c => negb (member delimiters c)) s pos in
          let pos' := find_first (member delimiters) s lastPos' in
          Split2_loop k s delimiters tokens' lastPos' pos'
      end
  end.
Definition Split2 (s delimiters : bytes) : option (list bytes) :=
  let lastPos := find_first (fun c => negb (member delimiters c)) s (Some 0%nat) in
  let pos := find_first (member delimiters) s lastPos in
  Split2_loop (S (length s)) s delimiters [] lastPos pos.

(** * Trimming *)
Definition white : bytes := [32; 9; 13; 10].
Definition is_white (c : Z) : bool := member white c.

(** [find_last_not_of(" \t\r\n") + 1]: 0 when there is none (npos + 1). *)
Fixpoint after_last_not_white (s : bytes) : nat :=
  match s with
  | [] => 0
  | c :: s' =>
      match after_last_not_white s' with
      | O => if is_white c then 0 else 1
      | S n => S (S n)
      end
  end.

Definition Trim (str : bytes) : bytes :=
  let s1 := take (after_last_not_white str) str in
  match find_first (fun c => negb (is_white c)) s1 (Some 0%nat) with
  | Some i => drop i s1
  | None => []
  end.

(** [StringUtil::replicate]: the length goes through a uint32_t. *)
Definition replicate (szStr : bytes) : bytes :=
  take (Z.to_nat (u32 (Z.of_nat (length szStr)))) szStr.

(** The [char*] version: skip, copy, then cut back from the last character;
    [None] for a read past the copy. *)
Fixpoint drop_white (s : bytes) : bytes :=
  match s with c :: s' => if is_white c then drop_white s' else s | [] => [] end.
Definition cut_white (s : bytes) : bytes := reverse (drop_white (reverse s)).
Definition Trim_c (szStr : bytes) : option bytes :=
  let szTmp := drop_white szStr in
  let szTrim := replicate szTmp in
  (* szTrim[len - 1] with the untruncated length *)
  if (length szTrim <? length szTmp)%nat then None
  else Some match last szTrim with
            | Some c => if is_white c then cut_white szTrim else szTrim
            | None => szTrim
            end.

(** * Parsing numbers

    The out parameter is returned next to the answer: [StrToInt32] writes it
    also when it then answers false. *)
Definition INT32_MIN := - 2 ^ 31.
Definition INT32_MAX := 2 ^ 31 - 1.
Definition UINT32_MAX := 2 ^ 32 - 1.

Definition StrToInt32 (str : option bytes) (value : Z) : bool * Z :=
  match str with
  | None | Some [] => (false, value)
  | Some s =>
      let '(value64, erange, rest) := strtol 10 s in
      if (value64 <? INT32_MIN) || (INT32_MAX <? value64) then (false, value)
      else (negb erange && bool_decide (rest = []), i32 value64)
  end.

Definition StrToUInt32 (str : option bytes) (value : Z) : bool * Z :=
  match str with
  | None | Some [] => (false, value)
  | Some (c :: _ as s) =>
      if c =? 45 then (false, value)
      else
        let '(value64, erange, rest) := strtoul 10 s in
        if UINT32_MAX <? value64 then (false, value)
        else (negb erange && bool_decide (rest = []), u32 (i32 value64))
  end.

Definition StrToUInt64 (str : option bytes) (value : Z) : bool * Z :=
  match str with
  | None | Some [] => (false, value)
  | Some (c :: _ as s) =>
      if c =? 45 then (false, value)
      else let '(v, erange, rest) := strtoul 10 s in
           (negb erange && bool_decide (rest = []), v)
  end.

Definition StrToInt64 (str : option bytes) (value : Z) : bool * Z :=
  match str with
  | None | Some [] => (false, value)
  | Some s => let '(v, erange, rest) := strtol 10 s in
              (negb erange && bool_decide (rest = []), v)
  end.

Definition HexStrToUint64 (str : option bytes) (value : Z) : bool * Z :=
  match str with
  | None | Some [] => (false, value)
  | Some s => let '(v, erange, rest) := strtoul 16 s in
              (negb erange && bool_decide (rest = []), v)
  end.

(** The 8 and 16 bit versions narrow a 32 bit parse. *)
Definition narrow (lo hi : Z) (r : bool * Z) (value : Z) : bool * Z :=
  if fst r && (lo <=? snd r) && (snd r <=? hi) then (true, snd r) else (false, value).
Definition StrToInt8 str value := narrow (- 2 ^ 7) (2 ^ 7 - 1) (StrToInt32 str 0) value.
Definition StrToInt16 str value := narrow (- 2 ^ 15) (2 ^ 15 - 1) (StrToInt32 str 0) value.
Definition StrToUInt8 str value := narrow 0 (2 ^ 8 - 1) (StrToUInt32 str 0) value.
Definition StrToUInt16 str value := narrow 0 (2 ^ 16 - 1) (StrToUInt32 str 0) value.

Definition with_default (parse : option bytes -> Z -> bool * Z) (str : option bytes)
    (defaultValue : Z) : Z :=
  let '(ok, tmp) := parse str 0 in if ok : bool then tmp else defaultValue.
Definition StrToInt8WithDefault := with_default StrToInt8.
Definition StrToUInt8WithDefault := with_default StrToUInt8.
Definition StrToInt16WithDefault := with_default StrToInt16.
Definition StrToUInt16WithDefault := with_default StrToUInt16.
Definition StrToInt32WithDefault := with_default StrToInt32.
Definition StrToUInt32WithDefault := with_default StrToUInt32.
Definition StrToInt64WithDefault := with_default StrToInt64.
Definition StrToUInt64WithDefault := with_default StrToUInt64.

(** * Serialisation *)

(** [key[i] = value & 0xFF; value >>= 8] from the last byte to the first. *)
Fixpoint serialize (n : nat) (value : Z) : bytes :=
  match n with
  | O => []
  | S k => serialize k (Z.shiftr value 8) ++ [Z.land value 255]
  end.
Definition SerializeUInt32 (value : Z) : bytes := serialize 4 value.
Definition SerializeUInt64 (value : Z) : bytes := serialize 8 value.

(** [value <<= 8; value |= str[i]] in [w] bits; a string of another length
    fails the assertion. *)
Definition deserialize (wrap : Z -> Z) (str : bytes) : Z :=
  foldl (fun value c => Z.lor (wrap (Z.shiftl value 8)) c) 0 str.
Definition DeserializeUInt32 (str : bytes) : option Z :=
  if (length str =? 4)%nat then Some (deserialize u32 str) else None.
Definition DeserializeUInt64 (str : bytes) : option Z :=
  if (length str =? 8)%nat then Some (deserialize u64 str) else None.

(** [snprintf(hexStr, len, "%016lx", value)] with [len > 16]. *)
Definition hex_digit (d : Z) : Z := if d <? 10 then 48 + d else 87 + d.
Fixpoint hex_digits (n : nat) (value : Z) : bytes :=
  match n with
  | O => []
  | S k => hex_digits k (Z.shiftr value 4) ++ [hex_digit (Z.land value 15)]
  end.
Definition Uint64ToHexStr (value len : Z) : option bytes :=
  if 16 <? len then Some (hex_digits 16 value) else None.

(** * Comparing and changing case *)
Definition mergeString (szStr1 szStr2 : option bytes) : option bytes :=
  match szStr1, szStr2 with
  | None, None => None
  | None, Some s2 => Some (replicate s2)
  | Some s1, None => Some (replicate s1)
  | Some s1, Some s2 => Some (replicate s1 ++ replicate s2)
  end.

Definition equal (szStr1 szStr2 : bytes) : bool := bool_decide (szStr1 = szStr2).
Definition safe_equal (szStr1 szStr2 : option bytes) : bool :=
  match szStr1, szStr2 with
  | Some s1, Some s2 => bool_decide (s1 = s2)
  | _, _ => false
  end.

(** [tolower] and [toupper] of the C locale. *)
Definition tolower (c : Z) : Z := if (65 <=? c) && (c <=? 90) then c + 32 else c.
Definition toupper (c : Z) : Z := if (97 <=? c) && (c <=? 122) then c - 32 else c.
Definition ToLower (s : bytes) : bytes := tolower <$> s.
Definition ToUpper (s : bytes) : bytes := toupper <$> s.
Definition equalNoCase (szStr1 szStr2 : bytes) : bool :=
  bool_decide (ToLower szStr1 = ToLower szStr2).

Definition isascii (c : Z) : bool := c <? 128.
Definition isAscii (str : bytes) : bool := forallb isascii str.

(** * Layer names *)
Definition RemoveLayerNumber (input : bytes) : bytes :=
  match find input (lit ".layer.") 0 with
  | Some pos =>
      let start := (pos + length (lit ".layer."))%nat in
      take pos input ++
      match find input (lit ".") start with
      | Some e => drop e input
      | None => drop start input
      end
  | None => input
  end.

(** * Round trips of the serialised integers *)
Definition byte_list (l : bytes) : Prop := Forall (fun c => 0 <= c < 256) l.

(** The number a byte list denotes, most significant byte first. *)
Definition big_endian (acc : Z) (l : bytes) : Z := foldl (fun v c => v * 256 + c) acc l.

Lemma lor_shift_add v c : 0 <= c < 256 -> Z.lor (Z.shiftl v 8) c = v * 256 + c.
Proof.
  intros Hc. by rewrite lor_shiftl_add by lia.
Qed.

Lemma deserialize_big_endian w k acc l :
  byte_list l -> 0 <= acc < 2 ^ k -> 0 <= k -> k + 8 * Z.of_nat (length l) <= w ->
  foldl (fun value c => Z.lor (Z.shiftl value 8 mod 2 ^ w) c) acc l = big_endian acc l /\
  0 <= big_endian acc l < 2 ^ (k + 8 * Z.of_nat (length l)).
Proof.
  intros Hl. revert k acc. induction Hl as [|c l Hc Hl IH]; intros k acc Hacc Hk Hw.
  - simpl. split; [done|]. by rewrite Z.add_0_r.
  - simpl length in *. rewrite Nat2Z.inj_succ in *. simpl.
    assert (H256 : 2 ^ (k + 8) = 2 ^ k * 256) by (rewrite Z.pow_add_r by lia; lia).
    assert (Hb : 0 <= acc * 256 + c < 2 ^ (k + 8)) by nia.
    assert (Hle : 2 ^ (k + 8) <= 2 ^ w) by (apply Z.pow_le_mono_r; lia).
    assert (Hs : Z.shiftl acc 8 mod 2 ^ w = Z.shiftl acc 8).
    { rewrite Z.mod_small; [done|]. rewrite Z.shiftl_mul_pow2 by lia. change (2 ^ 8) with 256. nia. }
    rewrite Hs, lor_shift_add by done.
    destruct (IH (k + 8) (acc * 256 + c) Hb ltac:(lia) ltac:(lia)) as [H1 H2].
    split; [exact H1|].
    replace (k + 8 * Z.succ (Z.of_nat (length l))) with (k + 8 + 8 * Z.of_nat (length l)) by lia.
    exact H2.
Qed.

Lemma land_255 v : Z.land v 255 = v mod 256.
Proof. change 255 with (Z.ones 8). rewrite Z.land_ones by lia. done. Qed.

Lemma shiftr_8 v : Z.shiftr v 8 = v / 256.
Proof. rewrite Z.shiftr_div_pow2 by lia. done. Qed.

Lemma serialize_bytes n v : byte_list (serialize n v) /\ length (serialize n v) = n.
Proof.
  revert v. induction n as [|n IH]; intros v; simpl; [by split; [constructor|]|].
  destruct (IH (Z.shiftr v 8)) as [Hb Hl]. split.
  - apply Forall_app. split; [done|]. apply Forall_singleton. rewrite land_255.
    apply Z.mod_pos_bound. lia.
  - rewrite length_app, Hl. simpl. lia.
Qed.

Lemma big_endian_serialize n v :
  0 <= v < 256 ^ Z.of_nat n -> big_endian 0 (serialize n v) = v.
Proof.
  revert v. induction n as [|n IH]; intros v Hv.
  - simpl in *. lia.
  - rewrite Nat2Z.inj_succ, Z.pow_succ_r in Hv by lia. simpl.
    unfold big_endian. rewrite foldl_app. fold (big_endian 0 (serialize n (Z.shiftr v 8))).
    rewrite shiftr_8, IH; simpl.
    + rewrite land_255. pose proof (Z.div_mod v 256 ltac:(lia)). lia.
    + split; [apply Z.div_pos; lia|]. apply Z.div_lt_upper_bound; lia.
Qed.

Lemma serialize_big_endian l acc :
  byte_list l -> serialize (length l) (big_endian acc l) = l.
Proof.
  revert acc. induction l as [|c l IH] using rev_ind; intros acc Hb; [done|].
  apply Forall_app in Hb as [Hl Hc]. apply Forall_cons in Hc as [Hc _].
  rewrite length_app, Nat.add_comm. simpl. unfold big_endian. rewrite foldl_app. simpl.
  fold (big_endian acc l). rewrite shiftr_8, land_255. f_equal.
  - rewrite Z.div_add_l by lia. rewrite (Z.div_small c 256) by lia. rewrite Z.add_0_r. by apply IH.
  - rewrite Z.add_comm, Z_mod_plus_full. by rewrite Z.mod_small.
Qed.

Lemma foldl_ext_wrap {A B} (f g : A -> B -> A) a l :
  (forall a b, f a b = g a b) -> foldl f a l = foldl g a l.
Proof. intros Hf. revert a. induction l; intros a0; simpl; [done|]. by rewrite Hf. Qed.

Lemma deserialize_serialize wrap n v :
  (forall z, wrap z = z mod 2 ^ (8 * Z.of_nat n)) -> 0 <= v < 256 ^ Z.of_nat n ->
  deserialize wrap (serialize n v) = v.
Proof.
  intros Hw Hv. destruct (serialize_bytes n v) as [Hb Hl].
  destruct (deserialize_big_endian (8 * Z.of_nat n) 0 0 (serialize n v)) as [H1 _];
    [done|lia|lia|rewrite Hl; lia|].
  rewrite big_endian_serialize in H1 by done. etrans; [|exact H1].
  unfold deserialize. apply foldl_ext_wrap. intros a b. by rewrite Hw.
Qed.

(** * Reading numbers *)
Definition digits_value (base acc : Z) (l : bytes) : Z :=
  foldl (fun v c => v * base + default 0 (digit_value c)) acc l.

Definition all_digits (base : Z) (l : bytes) : Prop := Forall (fun c => is_digit base c = true) l.

Lemma read_digits_all base l acc n :
  all_digits base l ->
  read_digits base l acc n = (digits_value base acc l, (n + length l)%nat, []).
Proof.
  intros Hl. revert acc n. induction Hl as [|c l Hc Hl IH]; intros acc n; simpl.
  - by rewrite Nat.add_0_r.
  - unfold is_digit in Hc. destruct (digit_value c) as [d|]; [|done]. rewrite Hc, IH.
    simpl. by rewrite Nat.add_succ_r.
Qed.

Lemma digit_value_bounds c d : digit_value c = Some d -> 48 <= c /\ (c = 120 \/ c = 88 -> 16 <= d).
Proof. unfold digit_value. repeat case_match; intros ?; simplify_eq; lia. Qed.

Lemma is_digit_bounds base c : is_digit base c = true -> 48 <= c.
Proof.
  unfold is_digit. destruct (digit_value c) eqn:E; [|done].
  intros _. by apply digit_value_bounds in E as [? _].
Qed.

Lemma skip_0x_digits base l : base <= 16 -> all_digits base l -> skip_0x base l = l.
Proof.
  intros Hb Hl. destruct l as [|z [|x [|d l]]]; simpl; try done.
  apply Forall_cons in Hl as [_ [Hx _]%Forall_cons].
  destruct ((x =? 120) || (x =? 88)) eqn:E; [|by rewrite andb_false_r].
  exfalso. unfold is_digit in Hx. destruct (digit_value x) as [v|] eqn:Ev; [|done].
  apply digit_value_bounds in Ev as [_ Ev]. lia.
Qed.

(** A sign and digits are read entirely. *)
Lemma strto_digits base (neg : bool) l :
  base <= 16 -> all_digits base l -> l <> [] ->
  strto base ((if neg then [45] else []) ++ l) = (neg, digits_value base 0 l, []).
Proof.
  intros Hb Hl Hne. unfold strto. destruct l as [|c l]; [done|].
  assert (48 <= c) as Hc.
  { apply Forall_cons in Hl as [Hc _]. by eapply is_digit_bounds. }
  assert (Hsp : isspace c = false) by (unfold isspace; lia).
  assert (read_sign (drop_space ((if neg then [45] else []) ++ c :: l)) = (neg, c :: l)) as ->.
  { destruct neg; [done|]. simpl. rewrite Hsp. simpl.
    destruct (c =? 45) eqn:E1; [lia|]. by destruct (c =? 43) eqn:E2; [lia|]. }
  rewrite skip_0x_digits, read_digits_all by done. done.
Qed.

Lemma digits_value_nonneg base acc l :
  0 <= acc -> 0 < base -> all_digits base l -> 0 <= digits_value base acc l.
Proof.
  intros Ha Hb Hl. revert acc Ha. induction Hl as [|c l Hc Hl IH]; intros acc Ha; [done|].
  simpl. apply IH. unfold is_digit in Hc. destruct (digit_value c) as [d|] eqn:Ed; [|done].
  assert (0 <= d) by (unfold digit_value in Ed; repeat case_match; simplify_eq; lia).
  simpl. nia.
Qed.

Lemma hex_digit_value d : 0 <= d < 16 -> digit_value (hex_digit d) = Some d.
Proof.
  intros Hd. unfold hex_digit, digit_value. destruct (d <? 10) eqn:E.
  - destruct ((48 <=? 48 + d) && (48 + d <=? 57)) eqn:E1; [f_equal|]; lia.
  - destruct ((48 <=? 87 + d) && (87 + d <=? 57)) eqn:E1; [lia|].
    destruct ((97 <=? 87 + d) && (87 + d <=? 122)) eqn:E2; [f_equal|]; lia.
Qed.

Lemma hex_digits_value n v :
  0 <= v < 16 ^ Z.of_nat n ->
  all_digits 16 (hex_digits n v) /\ digits_value 16 0 (hex_digits n v) = v /\
  length (hex_digits n v) = n.
Proof.
  revert v. induction n as [|n IH]; intros v Hv.
  - simpl in *. split; [constructor|]. split; [simpl; lia|done].
  - rewrite Nat2Z.inj_succ, Z.pow_succ_r in Hv by lia. simpl.
    assert (Hs : Z.shiftr v 4 = v / 16) by (rewrite Z.shiftr_div_pow2 by lia; done).
    assert (Hm : Z.land v 15 = v mod 16).
    { change 15 with (Z.ones 4). rewrite Z.land_ones by lia. done. }
    pose proof (Z.mod_pos_bound v 16 ltac:(lia)) as Hb.
    destruct (IH (Z.shiftr v 4)) as (H1 & H2 & H3).
    { rewrite Hs. split; [apply Z.div_pos; lia|]. apply Z.div_lt_upper_bound; lia. }
    split; [|split].
    + apply Forall_app. split; [done|]. apply Forall_cons. split; [|constructor].
      unfold is_digit. rewrite hex_digit_value by lia. lia.
    + unfold digits_value in *. rewrite foldl_app, H2. simpl.
      rewrite hex_digit_value by lia. simpl.
      rewrite Hs, Hm. pose proof (Z.div_mod v 16 ltac:(lia)). lia.
    + rewrite length_app, H3. simpl. lia.
Qed.

(** * Properties *)

(** The serialised form of every uint32 (4 bytes, most significant first)
    and of every uint64 (8 bytes) is read back as the same number, and every
    byte string of that length is the serialisation of what it is read as. *)
Theorem serialize_roundtrip :
  (forall v, 0 <= v < 2 ^ 32 -> DeserializeUInt32 (SerializeUInt32 v) = Some v) /\
  (forall v, 0 <= v < 2 ^ 64 -> DeserializeUInt64 (SerializeUInt64 v) = Some v) /\
  (forall l v, byte_list l -> DeserializeUInt32 l = Some v -> SerializeUInt32 v = l) /\
  (forall l v, byte_list l -> DeserializeUInt64 l = Some v -> SerializeUInt64 v = l).
Proof.
  assert (Hback : forall n wrap l, (forall z, wrap z = z mod 2 ^ (8 * Z.of_nat n)) ->
    byte_list l -> length l = n -> serialize n (deserialize wrap l) = l).
  { intros n wrap l Hw Hb <-.
    destruct (deserialize_big_endian (8 * Z.of_nat (length l)) 0 0 l) as [H1 _];
      [done|lia|lia|lia|].
    assert (deserialize wrap l = big_endian 0 l) as ->.
    { rewrite <- H1. apply foldl_ext_wrap. intros. by rewrite Hw. }
    by apply serialize_big_endian. }
  unfold DeserializeUInt32, DeserializeUInt64, SerializeUInt32, SerializeUInt64.
  split; [|split; [|split]].
  - intros v Hv. rewrite (proj2 (serialize_bytes 4 v)). simpl Nat.eqb. cbv iota. f_equal.
    by apply deserialize_serialize.
  - intros v Hv. rewrite (proj2 (serialize_bytes 8 v)). simpl Nat.eqb. cbv iota. f_equal.
    by apply deserialize_serialize.
  - intros l v Hb Hd. destruct (length l =? 4)%nat eqn:E; [|done]. simplify_eq.
    apply Nat.eqb_eq in E. by apply Hback.
  - intros l v Hb Hd. destruct (length l =? 8)%nat eqn:E; [|done]. simplify_eq.
    apply Nat.eqb_eq in E. by apply Hback.
Qed.

(** [HexStrToUint64] reads back what [Uint64ToHexStr] writes, for every
    uint64 and every buffer long enough; the text always has 16 characters. *)
Theorem hex_roundtrip v len value :
  0 <= v < 2 ^ 64 -> 16 < len ->
  exists h, Uint64ToHexStr v len = Some h /\ length h = 16%nat /\
    HexStrToUint64 (Some h) value = (true, v).
Proof.
  intros Hv Hlen. unfold Uint64ToHexStr. destruct (16 <? len) eqn:E; [|lia].
  destruct (hex_digits_value 16 v) as (Hd & Hval & Hl); [lia|].
  eexists. split; [reflexivity|]. split; [done|].
  unfold HexStrToUint64. destruct (hex_digits 16 v) as [|c l] eqn:Eh; [done|].
  unfold strtoul. pose proof (strto_digits 16 false (c :: l) ltac:(lia) Hd ltac:(done)) as Hs.
  simpl app in Hs. rewrite Hs, Hval. unfold SIZE_MAX.
  destruct (2 ^ 64 - 1 <? v) eqn:E2; [lia|]. done.
Qed.

Lemma hex_roundtrip_witness :
  0 <= 3735928559 < 2 ^ 64 /\ exists h, Uint64ToHexStr 3735928559 17 = Some h /\
    length h = 16%nat /\ HexStrToUint64 (Some h) 0 = (true, 3735928559).
Proof. split; [lia|]. apply (hex_roundtrip 3735928559 17 0); lia. Defined.

(** [StrToInt32] on a decimal number with an optional minus sign: it
    answers true and the value when that fits an int32, and otherwise answers
    false and leaves the out parameter alone, however many digits there are
    (also past the range of the int64 that strtol computes). *)
Theorem StrToInt32_decimal (neg : bool) ds value :
  all_digits 10 ds -> ds <> [] ->
  let v := if neg then - digits_value 10 0 ds else digits_value 10 0 ds in
  StrToInt32 (Some ((if neg then [45] else []) ++ ds)) value =
    if bool_decide (- 2 ^ 31 <= v <= 2 ^ 31 - 1) then (true, v) else (false, value).
Proof.
  intros Hd Hne v. pose proof (strto_digits 10 neg ds ltac:(lia) Hd Hne) as Hs.
  pose proof (digits_value_nonneg 10 0 ds ltac:(lia) ltac:(lia) Hd) as Hnn.
  unfold StrToInt32, strtol, INT32_MIN, INT32_MAX, INT64_MAX.
  destruct ((if neg then [45] else []) ++ ds) as [|c l] eqn:El.
  { destruct neg; [done|]. by destruct ds. }
  rewrite Hs. fold v. clearbody v.
  destruct (v <? - 2 ^ 63) eqn:E1.
  { rewrite (bool_decide_false (- 2 ^ 31 <= v <= 2 ^ 31 - 1)) by lia. done. }
  destruct (2 ^ 63 - 1 <? v) eqn:E2.
  { rewrite (bool_decide_false (- 2 ^ 31 <= v <= 2 ^ 31 - 1)) by lia. done. }
  destruct ((v <? - 2 ^ 31) || (2 ^ 31 - 1 <? v)) eqn:E3.
  - rewrite (bool_decide_false (- 2 ^ 31 <= v <= 2 ^ 31 - 1)) by lia. done.
  - rewrite (bool_decide_true (- 2 ^ 31 <= v <= 2 ^ 31 - 1)) by lia. rewrite i32_small by lia. done.
Qed.

Lemma StrToInt32_decimal_witness :
  StrToInt32 (Some (lit "-2147483648")) 7 = (true, - 2 ^ 31) /\
  StrToInt32 (Some (lit "99999999999999999999999")) 7 = (false, 7).
Proof.
  split.
  - refine (StrToInt32_decimal true (lit "2147483648") 7 _ _); [by repeat constructor|done].
  - refine (StrToInt32_decimal false (lit "99999999999999999999999") 7 _ _);
      [by repeat constructor|done].
Defined.

(** The unsigned parsers refuse a leading '-', but strtoull skips white
    space before the sign: [StrToUInt64] accepts " -5" and answers 2^64-5. *)
Theorem StrToUInt64_accepts_negative :
  StrToUInt64 (Some (lit "-5")) 0 = (false, 0) /\
  StrToUInt64 (Some (lit " -5")) 0 = (true, 2 ^ 64 - 5).
Proof. done. Qed.

(** ** Searching and splitting *)
Lemma starts_with_spec pat s : starts_with pat s = true <-> exists r, s = pat ++ r.
Proof.
  revert s. induction pat as [|p pat IH]; intros s; simpl; [split; eauto|].
  destruct s as [|c s]; [split; [done|by intros [r ?]]|].
  rewrite andb_true_iff, IH. split.
  - intros [Hc%Z.eqb_eq [r ->]]. exists r. by subst.
  - intros [r ?]; simplify_eq/=. split; [lia|eauto].
Qed.

Lemma find_at_some s pat n :
  find_at s pat = Some n ->
  starts_with pat (drop n s) = true /\ (n <= length s)%nat /\
  forall m, (m < n)%nat -> starts_with pat (drop m s) = false.
Proof.
  revert n. induction s as [|c s IH]; intros n; cbn [find_at].
  - destruct (starts_with pat []) eqn:E; [|done]. intros ?; simplify_eq.
    split_and!; [done|simpl; lia|lia].
  - destruct (starts_with pat (c :: s)) eqn:E.
    + intros ?; simplify_eq. split_and!; [done|simpl; lia|lia].
    + intros Hn. destruct (find_at s pat) as [k|] eqn:Hk; simplify_eq/=.
      destruct (IH k eq_refl) as (H1 & H2 & H3). split_and!; [done|lia|].
      intros [|m] Hm; [done|]. apply H3. lia.
Qed.

Lemma find_at_none s pat : find_at s pat = None -> forall m, starts_with pat (drop m s) = false \/ (length s < m)%nat.
Proof.
  induction s as [|c s IH]; cbn [find_at].
  - destruct (starts_with pat []) eqn:E; [done|]. intros _ m. left. by rewrite drop_nil.
  - destruct (starts_with pat (c :: s)) eqn:E; [done|].
    destruct (find_at s pat) eqn:Hk; [done|]. intros _ [|m]; [by left|].
    destruct (IH eq_refl m); [by left|right; simpl; lia].
Qed.

Lemma find_0 s pat : find s pat 0 = find_at s pat.
Proof. unfold find. simpl. rewrite drop_0. by destruct (find_at s pat). Qed.

(** The text before the first occurrence contains none. *)
Lemma find_at_before s pat n :
  pat <> [] -> find_at s pat = Some n -> find_at (take n s) pat = None.
Proof.
  intros Hne (H1 & H2 & H3)%find_at_some.
  destruct (find_at (take n s) pat) as [m|] eqn:Hm; [|done]. exfalso.
  apply find_at_some in Hm as (H4 & H5 & _). apply starts_with_spec in H4 as [r Hr].
  assert (m < n)%nat as Hlt.
  { rewrite length_take in H5. destruct pat; [done|].
    apply (f_equal length) in Hr. rewrite length_drop, length_take in Hr. simpl in Hr. lia. }
  specialize (H3 m Hlt). apply not_true_iff_false in H3. apply H3, starts_with_spec.
  exists (r ++ drop n s). rewrite app_assoc, <- Hr.
  rewrite <- (take_drop n s) at 1. rewrite drop_app_le; [done|].
  rewrite length_take. lia.
Qed.

Fixpoint join (delim : bytes) (parts : list bytes) : bytes :=
  match parts with
  | [] => []
  | [p] => p
  | p :: ps => p ++ delim ++ join delim ps
  end.

Lemma split_loop_spec fuel out s delim :
  delim <> [] -> (length s <= fuel)%nat ->
  exists parts, split_loop fuel out s delim = Some (out ++ parts) /\
    join delim parts = s /\ parts <> [] /\ Forall (fun p => find_at p delim = None) parts.
Proof.
  intros Hne. revert out s. induction fuel as [|fuel IH]; intros out s Hlen.
  - destruct s; [|simpl in Hlen; lia]. exists [[]]. simpl.
    rewrite find_0. destruct delim; [done|]. simpl. split_and!; auto.
  - cbn [split_loop]. rewrite find_0. destruct (find_at s delim) as [pos|] eqn:Hf.
    + pose proof (find_at_some _ _ _ Hf) as (H1 & H2 & _).
      apply starts_with_spec in H1 as [r Hr].
      assert (Hd : drop (pos + length delim) s = r).
      { rewrite <- drop_drop, Hr. by rewrite drop_app_length. }
      assert (Hrl : (length r <= fuel)%nat).
      { apply (f_equal length) in Hr. rewrite length_drop, length_app in Hr.
        destruct delim; [done|]. simpl in Hr. lia. }
      destruct (IH (out ++ [take pos s]) r Hrl) as (parts & Hp & Hj & Hn & Hall).
      exists (take pos s :: parts). rewrite Hd, Hp, <- app_assoc. split_and!; [done| |done|].
      * destruct parts as [|p ps]; [done|]. cbn [join] in *. rewrite Hj, <- Hr.
        apply take_drop.
      * constructor; [by eapply find_at_before|done].
    + exists [s]. split_and!; auto.
Qed.

(** [split] with a non-empty delimiter always terminates; joining the
    pieces with the delimiter gives back the input, and no piece contains the
    delimiter. *)
Theorem split_join str delim :
  delim <> [] ->
  exists parts, split str delim = Some parts /\ join delim parts = str /\
    Forall (fun p => find p delim 0 = None) parts.
Proof.
  intros Hne. destruct (split_loop_spec (length str) [] str delim Hne ltac:(lia))
    as (parts & Hp & Hj & _ & Hall).
  exists parts. split_and!; auto. eapply Forall_impl; [exact Hall|].
  intros p Hf. cbv beta. by rewrite find_0.
Qed.

Lemma split_join_witness :
  exists parts, split (lit "a,,b") (lit ",") = Some parts /\
    join (lit ",") parts = lit "a,,b" /\ length parts = 3%nat.
Proof.
  destruct (split_join (lit "a,,b") (lit ",") ltac:(done)) as (parts & Hp & Hj & _).
  exists parts. split_and!; [done|done|].
  assert (Some parts = Some [lit "a"; []; lit "b"]) as [= ->]; [|done].
  rewrite <- Hp. reflexivity.
Defined.

Lemma split_loop_empty fuel out s : split_loop fuel out s [] = None.
Proof.
  revert out s. induction fuel as [|fuel IH]; intros out s; cbn [split_loop];
    rewrite find_0; destruct s; simpl; try done; by rewrite IH.
Qed.

Lemma Split_loop_empty fuel n vec s :
  (n <= length s)%nat -> Split_loop fuel n n vec s [] = None.
Proof.
  intros Hn.
  assert (Hf : find s [] n = Some n).
  { unfold find. destruct (n <=? length s)%nat eqn:E; [|apply Nat.leb_gt in E; lia].
    destruct (drop n s); simpl; f_equal; lia. }
  revert vec. induction fuel as [|fuel IH]; intros vec; cbn [Split_loop]; rewrite Hf; [done|].
  rewrite Nat.add_0_r, Nat.eqb_refl. apply IH.
Qed.

(** Neither [split] nor [StringUtil::Split] ever returns when the separator
    is empty, whatever the text. *)
Theorem split_empty_separator_hangs text :
  split text [] = None /\ Split text [] = None.
Proof. split; [apply split_loop_empty|]. apply Split_loop_empty. lia. Qed.

(** ** Trimming *)
Definition rtrim (s : bytes) : bytes := take (after_last_not_white s) s.

Lemma rtrim_cons c s :
  rtrim (c :: s) = match rtrim s with
                   | [] => if is_white c then [] else [c]
                   | r => c :: r
                   end.
Proof.
  unfold rtrim. simpl. destruct (after_last_not_white s) as [|n] eqn:E; simpl.
  - by destruct (is_white c).
  - destruct s as [|d s]; [done|]. done.
Qed.

Lemma drop_white_app l c :
  drop_white (l ++ [c]) = match drop_white l with
                          | [] => if is_white c then [] else [c]
                          | r => r ++ [c]
                          end.
Proof.
  induction l as [|d l IH]; simpl; [done|]. destruct (is_white d); done.
Qed.

Lemma cut_white_rtrim s : cut_white s = rtrim s.
Proof.
  induction s as [|c s IH]; [done|]. rewrite rtrim_cons, <- IH. unfold cut_white.
  rewrite reverse_cons, drop_white_app.
  destruct (drop_white (reverse s)) as [|d r] eqn:E; simpl.
  - by destruct (is_white c).
  - change (d :: r ++ [c]) with ((d :: r) ++ [c]). rewrite reverse_app. simpl.
    destruct (reverse (d :: r)) eqn:E2; [|done].
    apply (f_equal length) in E2. rewrite length_reverse in E2. done.
Qed.

Lemma Trim_drop_white s : Trim s = drop_white (rtrim s).
Proof.
  unfold Trim. fold (rtrim s). generalize (rtrim s). intros r. unfold find_first.
  rewrite drop_0. induction r as [|c r IH]; [done|].
  cbn [list_find drop_white]. destruct (is_white c) eqn:E.
  - rewrite decide_False by (simpl; tauto). simpl. rewrite <- IH.
    destruct (list_find _ r) as [[i x]|]; done.
  - rewrite decide_True by done. done.
Qed.

Lemma trim_commute s : drop_white (rtrim s) = rtrim (drop_white s).
Proof.
  induction s as [|c s IH]; [done|]. rewrite rtrim_cons. cbn [drop_white].
  destruct (is_white c) eqn:E.
  - rewrite <- IH. destruct (rtrim s) eqn:Er; simpl; [done|]. by rewrite E.
  - rewrite rtrim_cons, E. destruct (rtrim s); simpl; by rewrite E.
Qed.

Lemma rtrim_last s c : last (rtrim s) = Some c -> is_white c = false.
Proof.
  induction s as [|d s IH]; [done|]. rewrite rtrim_cons.
  destruct (rtrim s) as [|x r] eqn:E.
  - destruct (is_white d) eqn:Ed; [done|]. intros ?; by simplify_eq/=.
  - intros Hl. apply IH. by rewrite last_cons_cons in Hl.
Qed.

Lemma rtrim_split s : exists b, s = rtrim s ++ b /\ Forall (fun c => is_white c = true) b.
Proof.
  induction s as [|d s (b & Hs & Hb)]; [by exists []|]. rewrite rtrim_cons.
  destruct (rtrim s) as [|x r] eqn:E.
  - simpl in Hs. subst b. destruct (is_white d) eqn:Ed.
    + exists (d :: s). split; [done|]. by constructor.
    + by exists s.
  - exists b. split; [|done]. simpl. by rewrite Hs at 1.
Qed.

Lemma drop_white_split s : exists a, s = a ++ drop_white s /\ Forall (fun c => is_white c = true) a.
Proof.
  induction s as [|d s (a & Hs & Ha)]; [by exists []|]. simpl.
  destruct (is_white d) eqn:E; [|by exists []].
  exists (d :: a). simpl. rewrite <- Hs. split; [done|]. by constructor.
Qed.

Lemma drop_white_head s c : head (drop_white s) = Some c -> is_white c = false.
Proof.
  induction s as [|d s IH]; simpl; [done|]. destruct (is_white d) eqn:E; [done|].
  intros ?; by simplify_eq/=.
Qed.

(** [StringUtil::Trim] removes exactly the white space at both ends: what
    is removed is white, and what is left is empty or starts and ends with
    another character.  The [char*] version computes the same string, for
    texts below 4 GiB. *)
Theorem Trim_correct s :
  Z.of_nat (length s) < 2 ^ 32 ->
  Trim_c s = Some (Trim s) /\
  exists a b, s = a ++ Trim s ++ b /\
    Forall (fun c => is_white c = true) (a ++ b) /\
    (forall c, head (Trim s) = Some c \/ last (Trim s) = Some c -> is_white c = false).
Proof.
  intros Hlen. split.
  - unfold Trim_c, replicate. destruct (drop_white_split s) as (a & Hs & _).
    assert (Hl : Z.of_nat (length (drop_white s)) < 2 ^ 32).
    { apply (f_equal length) in Hs. rewrite length_app in Hs. lia. }
    unfold u32. rewrite Z.mod_small, take_ge by lia. rewrite Nat.ltb_irrefl.
    rewrite Trim_drop_white, trim_commute, cut_white_rtrim. f_equal.
    destruct (last (drop_white s)) as [c|] eqn:El; [|by apply last_None in El as ->].
    destruct (is_white c) eqn:Ec; [done|].
    destruct (rtrim_split (drop_white s)) as (b & Hb & Hw).
    destruct b as [|d b]; [by rewrite app_nil_r in Hb|]. exfalso.
    assert (last (drop_white s) = last (d :: b)) as E2.
    { rewrite Hb at 1. rewrite last_app. by destruct (last (d :: b)) eqn:?;
        [|by apply last_None in Heqo]. }
    rewrite E2 in El. apply last_Some_elem_of in El.
    rewrite Forall_forall in Hw. by rewrite Hw in Ec.
  - rewrite Trim_drop_white.
    destruct (rtrim_split s) as (b & Hs & Hb), (drop_white_split (rtrim s)) as (a & Hr & Ha).
    exists a, b. split; [|split].
    + by rewrite app_assoc, <- Hr.
    + by apply Forall_app.
    + intros c [Hc|Hc]; [by apply drop_white_head in Hc|].
      rewrite trim_commute in Hc. by apply rtrim_last in Hc.
Qed.

Lemma Trim_correct_witness :
  Z.of_nat (length (lit " a b ")) < 2 ^ 32 /\ Trim_c (lit " a b ") = Some (lit "a b").
Proof.
  split; [simpl; lia|].
  exact (proj1 (Trim_correct (lit " a b ") ltac:(simpl; lia))).
Defined.
