(* ===== verification/FormatEnforcer.v ===== *)
(** Token texts of the format enforcer (src/csrc/utility/format_enforcer.cpp):
    UTF-8 coding of code points, the byte-level BPE alphabet, and the decoding
    of vocabulary tokens into pieces with their cache. *)
From stdpp Require Import base list gmap strings fin_maps.
From S2P Require Import Prelude StringUtil.

(** * UTF-8 *)

(** Every [push_back] narrows to a char. *)
Definition unicode_cpt_to_utf8 (cp : Z) : res bytes :=
  if cp <=? 0x7f then Ok [u8 cp]
  else if (0x80 <=? cp) && (cp <=? 0x7ff) then
    Ok [Z.lor 0xc0 (Z.land (Z.shiftr cp 6) 0x1f); Z.lor 0x80 (Z.land cp 0x3f)]
  else if (0x800 <=? cp) && (cp <=? 0xffff) then
    Ok [Z.lor 0xe0 (Z.land (Z.shiftr cp 12) 0x0f);
        Z.lor 0x80 (Z.land (Z.shiftr cp 6) 0x3f); Z.lor 0x80 (Z.land cp 0x3f)]
  else if (0x10000 <=? cp) && (cp <=? 0x10ffff) then
    Ok [Z.lor 0xf0 (Z.land (Z.shiftr cp 18) 0x07);
        Z.lor 0x80 (Z.land (Z.shiftr cp 12) 0x3f);
        Z.lor 0x80 (Z.land (Z.shiftr cp 6) 0x3f); Z.lor 0x80 (Z.land cp 0x3f)]
  else Err (AsException ALLSPARK_RUNTIME_ERROR).

(** [utf8[offset + i]]; the code tests the index first. *)
Definition continuation (utf8 : bytes) (i : nat) : option Z :=
  match utf8 !! i with
  | Some c => if Z.land c 0xc0 =? 0x80 then Some (Z.land c 0x3f) else None
  | None => None
  end.

(** The code point at [offset] and the offset after it. *)
Definition unicode_cpt_from_utf8 (utf8 : bytes) (offset : nat) : res (Z * nat) :=
  match utf8 !! offset with
  | None => Err CheckFailed
  | Some c0 =>
      if Z.land c0 0x80 =? 0 then Ok (c0, (offset + 1)%nat)
      else if Z.land c0 0x40 =? 0 then Err (AsException ALLSPARK_RUNTIME_ERROR)
      else if Z.land c0 0x20 =? 0 then
        match continuation utf8 (offset + 1) with
        | Some c1 => Ok (Z.lor (Z.shiftl (Z.land c0 0x1f) 6) c1, (offset + 2)%nat)
        | None => Err (AsException ALLSPARK_RUNTIME_ERROR)
        end
      else if Z.land c0 0x10 =? 0 then
        match continuation utf8 (offset + 1), continuation utf8 (offset + 2) with
        | Some c1, Some c2 =>
            Ok (Z.lor (Z.lor (Z.shiftl (Z.land c0 0x0f) 12) (Z.shiftl c1 6)) c2,
                (offset + 3)%nat)
        | _, _ => Err (AsException ALLSPARK_RUNTIME_ERROR)
        end
      else if Z.land c0 0x08 =? 0 then
        match continuation utf8 (offset + 1), continuation utf8 (offset + 2),
              continuation utf8 (offset + 3) with
        | Some c1, Some c2, Some c3 =>
            Ok (Z.lor (Z.lor (Z.lor (Z.shiftl (Z.land c0 0x07) 18) (Z.shiftl c1 12))
                             (Z.shiftl c2 6)) c3, (offset + 4)%nat)
        | _, _, _ => Err (AsException ALLSPARK_RUNTIME_ERROR)
        end
      else Err (AsException ALLSPARK_RUNTIME_ERROR)
  end.

(** [while (offset < utf8.size())]: every round advances, so the length is
    bound enough. *)
Fixpoint cpts_loop (fuel : nat) (utf8 : bytes) (offset : nat) (result : list Z)
    : res (list Z) :=
  if (offset <? length utf8)%nat then
    match fuel with
    | O => Err Hang
    | S k =>
        match unicode_cpt_from_utf8 utf8 offset with
        | Ok (cpt, offset') => cpts_loop k utf8 offset' (result ++ [cpt])
        | Err e => Err e
        end
    end
  else Ok result.
Definition unicode_cpts_from_utf8 (utf8 : bytes) : res (list Z) :=
  cpts_loop (length utf8) utf8 0 [].

(** * The byte-level alphabet *)
Abbreviation byte_map := (gmap bytes Z).

(** [utf8_to_byte[unicode_cpt_to_utf8(cp)] = ch] *)
Definition map_set (cp ch : Z) (m : byte_map) : byte_map :=
  match unicode_cpt_to_utf8 cp with Ok s => <[s := ch]> m | Err _ => m end.

Definition map_range (first last : Z) (m : byte_map) : byte_map :=
  foldl (fun m ch => map_set ch ch m) m (seqZ first (last - first + 1)).

(** The last loop, with its counter [n]. *)
Definition map_rest (m : byte_map) (n : Z) (ch : Z) : byte_map * Z :=
  match unicode_cpt_to_utf8 ch with
  | Ok s =>
      match m !! s with
      | None => (map_set (256 + n) ch m, n + 1)
      | Some _ => (m, n)
      end
  | Err _ => (m, n)
  end.

Definition unicode_utf8_to_byte_map (utf8_to_byte : byte_map) : byte_map :=
  let m := map_range 0xAE 0xFF (map_range 0xA1 0xAC (map_range 0x21 0x7E utf8_to_byte)) in
  fst (foldl (fun '(m, n) ch => map_rest m n ch) (m, 0) (seqZ 0 256)).

(** * Token texts *)

(** U+2581, the word boundary of sentence-piece vocabularies. *)
Definition search : bytes := [0xe2; 0x96; 0x81].

Fixpoint unescape_loop (fuel : nat) (s : bytes) (last_pos : nat) (builder : bytes)
    : option bytes :=
  match find s search last_pos with
  | None => Some (builder ++ drop last_pos s)
  | Some pos =>
      match fuel with
      | O => None
      | S k => unescape_loop k s (pos + length search)
                 (builder ++ take (pos - last_pos) (drop last_pos s) ++ [32])
      end
  end.
Definition unescape_whitespace (s : bytes) : option bytes := unescape_loop (length s) s 0 [].

(** Unknown characters are spelled out, followed by the whole token. *)
Definition bpe_decode_cpt (token_text : bytes) (m : byte_map) (cpt : Z) : res bytes :=
  match unicode_cpt_to_utf8 cpt with
  | Err e => Err e
  | Ok utf8 =>
      match m !! utf8 with
      | Some b => Ok [b]
      | None => Ok (lit "[UNK_BYTE_0x" ++ (utf8 ≫= hex_digits 2) ++ token_text ++ lit "]")
      end
  end.
Fixpoint bpe_decode_cpts (token_text : bytes) (m : byte_map) (cpts : list Z)
    : res bytes :=
  match cpts with
  | [] => Ok []
  | c :: cs =>
      match bpe_decode_cpt token_text m c with
      | Err e => Err e
      | Ok b => match bpe_decode_cpts token_text m cs with
                | Err e => Err e
                | Ok r => Ok (b ++ r)
                end
      end
  end.
Definition bpe_decode_text (token_text : bytes) (m : byte_map) : res bytes :=
  match unicode_cpts_from_utf8 token_text with
  | Err e => Err e
  | Ok cpts => bpe_decode_cpts token_text m cpts
  end.

(** * Tokens *)
Inductive VocabType :=
  | VOCAB_TYPE_WPM | VOCAB_TYPE_SPM | VOCAB_TYPE_UGM | VOCAB_TYPE_BPE.

Record AsTokenizerData := mkTokenizer {
  vocab_type_ : VocabType;
  id2token_ : gmap Z bytes;
  utf8_to_byte_ : byte_map;
  eos_token_id : Z;
}.

(** [id2token_[itr.second] = itr.first] for every entry of the vocabulary. *)
Definition AsTokenizerData_new (vocab : list (bytes * Z)) (type : VocabType) (eos : Z)
    : AsTokenizerData :=
  mkTokenizer type (foldl (fun m '(token, id) => <[id := token]> m) ∅ vocab)
    (unicode_utf8_to_byte_map ∅) eos.

(** The state is the static [token2piece_cache_]. *)
Abbreviation P := (M (gmap Z bytes)).

Fixpoint skip_spaces (lstrip : nat) (token : bytes) : bytes :=
  match lstrip, token with
  | S k, c :: t => if c =? 32 then skip_spaces k t else token
  | _, _ => token
  end.

(** [_try_copy]: the answer, and the buffer of [length] bytes afterwards. *)
Definition try_copy (buf : bytes) (lstrip : Z) (token : bytes) : Z * bytes :=
  let token := skip_spaces (Z.to_nat lstrip) token in
  let size := Z.of_nat (length token) in
  if Z.of_nat (length buf) <? i32 size then (- i32 size, buf)
  else (i32 size, token ++ drop (length token) buf).

(** The text of a token that is not cached; an unknown id is a RUNTIME_ERROR. *)
Definition piece_text (token : Z) (d : AsTokenizerData) : res bytes :=
  match id2token_ d !! token with
  | None => Err (AsException ALLSPARK_RUNTIME_ERROR)
  | Some token_text =>
      match vocab_type_ d with
      | VOCAB_TYPE_BPE => bpe_decode_text token_text (utf8_to_byte_ d)
      | _ => match unescape_whitespace token_text with
             | Some r => Ok r
             | None => Err Hang
             end
      end
  end.

Definition token_to_piece (token : Z) (buf : bytes) (lstrip : Z) (d : AsTokenizerData)
    : P (Z * bytes) := fun cache =>
  match cache !! token with
  | Some result => (Ok (try_copy buf lstrip result), cache)
  | None =>
      match piece_text token d with
      | Err e => (Err e, cache)
      | Ok result => (Ok (try_copy buf lstrip result), <[token := result]> cache)
      end
  end.

(** [std::vector<char>::resize] *)
Definition resize (n : Z) (buf : bytes) : bytes :=
  take (Z.to_nat n) buf ++ List.repeat 0 (Z.to_nat n - length buf)%nat.

(** A first try with 8 bytes, a second with the size asked for. *)
Definition decode_token (token : Z) (d : AsTokenizerData) : P bytes :=
  '(n_tokens, result) ← token_to_piece token (List.repeat 0 8) 0 d;
  if n_tokens <? 0 then
    '(check, result') ← token_to_piece token (resize (- n_tokens) result) 0 d;
    if check =? - n_tokens then mret result' else throw CheckFailed
  else mret (resize n_tokens result).

(** The leading space of the first piece is removed; [piece[0]] of an empty
    string is its terminating NUL. *)
Fixpoint decode_from (first : bool) (tokens : list Z) (d : AsTokenizerData) : P bytes :=
  match tokens with
  | [] => mret []
  | t :: ts =>
      piece ← decode_token t d;
      let piece' := match piece with
                    | c :: p => if first && (c =? 32) then p else piece
                    | [] => piece
                    end in
      rest ← decode_from false ts d;
      mret (piece' ++ rest)
  end.
Definition decode_tokens (tokens : list Z) (d : AsTokenizerData) : P bytes :=
  decode_from true tokens d.

(** [get_regular_tokens]: id, text, and whether the token starts a word. *)
Fixpoint regular_tokens_from (n : nat) (i : Z) (d : AsTokenizerData)
    : P (list (Z * bytes * bool)) :=
  match n with
  | O => mret []
  | S k =>
      token_str ← decode_token i d;
      token_sequence_str ← decode_tokens [i] d;
      rest ← regular_tokens_from k (i + 1) d;
      mret ((i, token_str, (length token_sequence_str <? length token_str)%nat) :: rest)
  end.
Definition get_regular_tokens (vocab_size : nat) (d : AsTokenizerData)
    : P (list (Z * bytes * bool)) := regular_tokens_from vocab_size 0 d.

(** * Coding and decoding *)
Lemma continuation_byte x :
  0 <= x < 64 ->
  Z.land (Z.lor 0x80 x) 0xc0 = 0x80 /\ Z.land (Z.lor 0x80 x) 0x3f = x.
Proof.
  intros Hx.
  pose proof (forall_range (fun x => (Z.land (Z.lor 0x80 x) 0xc0 =? 0x80) &&
    (Z.land (Z.lor 0x80 x) 0x3f =? x)) 64 ltac:(vm_compute; reflexivity) x Hx) as H.
  cbv beta in H. lia.
Qed.

(** The lead bytes of two, three and four byte sequences. *)
Lemma lead_byte2 x :
  0 <= x < 32 -> let c := Z.lor 0xc0 x in
  Z.land c 0x80 <> 0 /\ Z.land c 0x40 <> 0 /\ Z.land c 0x20 = 0 /\ Z.land c 0x1f = x.
Proof.
  intros Hx. pose proof (forall_range (fun x => let c := Z.lor 0xc0 x in
    negb (Z.land c 0x80 =? 0) && negb (Z.land c 0x40 =? 0) && (Z.land c 0x20 =? 0) &&
    (Z.land c 0x1f =? x)) 32 ltac:(vm_compute; reflexivity) x Hx) as H.
  cbv beta zeta in *. lia.
Qed.

Lemma lead_byte3 x :
  0 <= x < 16 -> let c := Z.lor 0xe0 x in
  Z.land c 0x80 <> 0 /\ Z.land c 0x40 <> 0 /\ Z.land c 0x20 <> 0 /\ Z.land c 0x10 = 0 /\
  Z.land c 0x0f = x.
Proof.
  intros Hx. pose proof (forall_range (fun x => let c := Z.lor 0xe0 x in
    negb (Z.land c 0x80 =? 0) && negb (Z.land c 0x40 =? 0) && negb (Z.land c 0x20 =? 0) &&
    (Z.land c 0x10 =? 0) && (Z.land c 0x0f =? x)) 16 ltac:(vm_compute; reflexivity) x Hx) as H.
  cbv beta zeta in *. lia.
Qed.

Lemma lead_byte4 x :
  0 <= x < 8 -> let c := Z.lor 0xf0 x in
  Z.land c 0x80 <> 0 /\ Z.land c 0x40 <> 0 /\ Z.land c 0x20 <> 0 /\ Z.land c 0x10 <> 0 /\
  Z.land c 0x08 = 0 /\ Z.land c 0x07 = x.
Proof.
  intros Hx. pose proof (forall_range (fun x => let c := Z.lor 0xf0 x in
    negb (Z.land c 0x80 =? 0) && negb (Z.land c 0x40 =? 0) && negb (Z.land c 0x20 =? 0) &&
    negb (Z.land c 0x10 =? 0) && (Z.land c 0x08 =? 0) && (Z.land c 0x07 =? x)) 8
    ltac:(vm_compute; reflexivity) x Hx) as H.
  cbv beta zeta in *. lia.
Qed.

(** [(cp >> k) & (2^n - 1)] *)
Definition field (cp k n : Z) : Z := (cp / 2 ^ k) mod 2 ^ n.

Lemma land_field cp k n :
  0 <= k -> 0 <= n -> Z.land (Z.shiftr cp k) (Z.ones n) = field cp k n.
Proof. intros. unfold field. by rewrite Z.land_ones, Z.shiftr_div_pow2 by lia. Qed.

Lemma field_range cp k n : 0 <= n -> 0 <= field cp k n < 2 ^ n.
Proof. intros. apply Z.mod_pos_bound. lia. Qed.

Lemma lookup_after (pre s post : bytes) i c :
  s !! i = Some c -> (pre ++ s ++ post) !! (length pre + i)%nat = Some c.
Proof.
  intros Hi. rewrite lookup_app_r by lia. replace (_ + i - _)%nat with i by lia.
  by apply lookup_app_l_Some.
Qed.

Lemma continuation_after pre s post i x :
  s !! i = Some (Z.lor 0x80 x) -> 0 <= x < 64 ->
  continuation (pre ++ s ++ post) (length pre + i) = Some x.
Proof.
  intros Hi Hx. unfold continuation. rewrite (lookup_after _ _ _ _ _ Hi).
  destruct (continuation_byte x Hx) as [-> ->]. done.
Qed.

Lemma combine2 a b : 0 <= b < 64 -> Z.lor (Z.shiftl a 6) b = a * 64 + b.
Proof. intros. by rewrite lor_shiftl_add by lia. Qed.

Lemma combine3 a b c :
  0 <= b < 64 -> 0 <= c < 64 ->
  Z.lor (Z.lor (Z.shiftl a 12) (Z.shiftl b 6)) c = a * 4096 + b * 64 + c.
Proof.
  intros. change 12 with (6 + 6). rewrite <- Z.shiftl_shiftl, <- Z.shiftl_lor by lia.
  rewrite !combine2 by lia. lia.
Qed.

Lemma combine4 a b c d :
  0 <= b < 64 -> 0 <= c < 64 -> 0 <= d < 64 ->
  Z.lor (Z.lor (Z.lor (Z.shiftl a 18) (Z.shiftl b 12)) (Z.shiftl c 6)) d
  = a * 262144 + b * 4096 + c * 64 + d.
Proof.
  intros. change 18 with (12 + 6). change (Z.shiftl b 12) with (Z.shiftl b (6 + 6)).
  rewrite <- !Z.shiftl_shiftl, <- !Z.shiftl_lor by lia.
  rewrite combine3, combine2 by lia. lia.
Qed.

(** One code point, anywhere in a text. *)
Lemma cpt_roundtrip cp pre post :
  0 <= cp <= 0x10ffff ->
  exists s, unicode_cpt_to_utf8 cp = Ok s /\ s <> [] /\
    unicode_cpt_from_utf8 (pre ++ s ++ post) (length pre) = Ok (cp, (length pre + length s)%nat).
Proof.
  intros Hcp. unfold unicode_cpt_to_utf8.
  change 0x1f with (Z.ones 5). change 0x0f with (Z.ones 4). change 0x07 with (Z.ones 3).
  change 0x3f with (Z.ones 6).
  replace (Z.land cp (Z.ones 6)) with (field cp 0 6)
    by (rewrite <- land_field, Z.shiftr_0_r by lia; done).
  rewrite !land_field by lia.
  pose proof (field_range cp 0 6 ltac:(lia)) as H0.
  pose proof (field_range cp 6 5 ltac:(lia)) as H6.
  pose proof (field_range cp 6 6 ltac:(lia)) as H6'.
  pose proof (field_range cp 12 4 ltac:(lia)) as H12.
  pose proof (field_range cp 12 6 ltac:(lia)) as H12'.
  pose proof (field_range cp 18 3 ltac:(lia)) as H18.
  assert (Hat : forall c s, (pre ++ (c :: s) ++ post) !! length pre = Some c).
  { intros c s. rewrite <- (Nat.add_0_r (length pre)). by apply lookup_after. }
  destruct (cp <=? 0x7f) eqn:E1.
  { eexists. split; [done|]. split; [done|]. unfold unicode_cpt_from_utf8. rewrite Hat.
    unfold u8. rewrite Z.mod_small by lia.
    pose proof (forall_range (fun x => Z.land x 0x80 =? 0) 128 ltac:(vm_compute; reflexivity)
      cp ltac:(lia)) as H. cbv beta in H. by rewrite H. }
  destruct ((0x80 <=? cp) && (cp <=? 0x7ff)) eqn:E2.
  { eexists. split; [done|]. split; [done|]. unfold unicode_cpt_from_utf8. rewrite Hat.
    destruct (lead_byte2 (field cp 6 5) H6) as (A1 & A2 & A3 & A4).
    rewrite (proj2 (Z.eqb_neq _ _) A1), (proj2 (Z.eqb_neq _ _) A2), A3, A4.
    simpl (0 =? 0). cbv iota.
    rewrite (continuation_after _ _ _ 1 (field cp 0 6)) by done.
    rewrite combine2 by done. do 2 f_equal. unfold field. Z.to_euclidean_division_equations; lia. }
  destruct ((0x800 <=? cp) && (cp <=? 0xffff)) eqn:E3.
  { eexists. split; [done|]. split; [done|]. unfold unicode_cpt_from_utf8. rewrite Hat.
    destruct (lead_byte3 (field cp 12 4) H12) as (A1 & A2 & A3 & A4 & A5).
    rewrite (proj2 (Z.eqb_neq _ _) A1), (proj2 (Z.eqb_neq _ _) A2),
      (proj2 (Z.eqb_neq _ _) A3), A4, A5.
    simpl (0 =? 0). cbv iota.
    rewrite (continuation_after _ _ _ 1 (field cp 6 6)) by done.
    rewrite (continuation_after _ _ _ 2 (field cp 0 6)) by done.
    rewrite combine3 by done. do 2 f_equal. unfold field. Z.to_euclidean_division_equations; lia. }
  destruct ((0x10000 <=? cp) && (cp <=? 0x10ffff)) eqn:E4; [|lia].
  eexists. split; [done|]. split; [done|]. unfold unicode_cpt_from_utf8. rewrite Hat.
  destruct (lead_byte4 (field cp 18 3) H18) as (A1 & A2 & A3 & A4 & A5 & A6).
  rewrite (proj2 (Z.eqb_neq _ _) A1), (proj2 (Z.eqb_neq _ _) A2),
    (proj2 (Z.eqb_neq _ _) A3), (proj2 (Z.eqb_neq _ _) A4), A5, A6.
  simpl (0 =? 0). cbv iota.
  rewrite (continuation_after _ _ _ 1 (field cp 12 6)) by done.
  rewrite (continuation_after _ _ _ 2 (field cp 6 6)) by done.
  rewrite (continuation_after _ _ _ 3 (field cp 0 6)) by done.
  rewrite combine4 by done. do 2 f_equal. unfold field. Z.to_euclidean_division_equations; lia.
Qed.

(** The concatenated encodings of a list of code points. *)
Fixpoint encode_cpts (cps : list Z) : res bytes :=
  match cps with
  | [] => Ok []
  | c :: cs =>
      match unicode_cpt_to_utf8 c, encode_cpts cs with
      | Ok s, Ok r => Ok (s ++ r)
      | Err e, _ | _, Err e => Err e
      end
  end.

Lemma cpts_loop_encoded cps : forall fuel pre result,
  Forall (fun c => 0 <= c <= 0x10ffff) cps ->
  exists s, encode_cpts cps = Ok s /\
    ((length s <= fuel)%nat ->
     cpts_loop fuel (pre ++ s) (length pre) result = Ok (result ++ cps)).
Proof.
  induction cps as [|c cs IH]; intros fuel pre result Hall.
  { exists []. split; [done|]. intros _. rewrite !app_nil_r.
    destruct fuel; simpl; by rewrite Nat.ltb_irrefl. }
  apply Forall_cons in Hall as [Hc Hcs].
  assert (Hex : exists s, unicode_cpt_to_utf8 c = Ok s /\ s <> []).
  { destruct (cpt_roundtrip c [] [] Hc) as (s & ? & ? & _). eauto. }
  destruct Hex as (s & Hs & Hne).
  destruct (IH (pred fuel) (pre ++ s) (result ++ [c]) Hcs) as (r & Hr & Hloop).
  exists (s ++ r). simpl. rewrite Hs, Hr. split; [done|]. intros Hf.
  rewrite length_app in Hf. assert (0 < length s)%nat by (destruct s; simpl; [done|lia]).
  destruct fuel as [|fuel]; [lia|]. simpl.
  rewrite (proj2 (Nat.ltb_lt _ _)) by (rewrite !length_app; lia).
  destruct (cpt_roundtrip c pre r Hc) as (s' & Hs' & _ & Hdec).
  assert (s' = s) as -> by congruence. rewrite Hdec.
  cbn [pred] in Hloop. rewrite (assoc_L (++)), <- length_app. rewrite Hloop by lia.
  by rewrite <- app_assoc.
Qed.

Lemma unicode_cpt_from_utf8_total s offset :
  (offset < length s)%nat ->
  unicode_cpt_from_utf8 s offset = Err (AsException ALLSPARK_RUNTIME_ERROR) \/
  exists cp offset', unicode_cpt_from_utf8 s offset = Ok (cp, offset') /\
    (offset < offset' <= length s)%nat.
Proof.
  intros Ho. unfold unicode_cpt_from_utf8.
  destruct (lookup_lt_is_Some_2 s offset Ho) as [c0 Hc0]. rewrite Hc0.
  assert (Hcont : forall i x, continuation s i = Some x -> (i < length s)%nat).
  { intros i x. unfold continuation. destruct (s !! i) eqn:E; [|done].
    intros _. by apply lookup_lt_Some in E. }
  repeat case_match; try (by left); right; do 2 eexists; (split; [done|]);
    repeat match goal with H : continuation _ _ = Some _ |- _ => apply Hcont in H end; lia.
Qed.

Lemma cpts_loop_total s : forall fuel offset result,
  (offset <= length s)%nat -> (length s - offset <= fuel)%nat ->
  cpts_loop fuel s offset result = Err (AsException ALLSPARK_RUNTIME_ERROR) \/
  exists cps, cpts_loop fuel s offset result = Ok cps.
Proof.
  induction fuel as [|fuel IH]; intros offset result Ho Hf; simpl.
  - rewrite (proj2 (Nat.ltb_ge _ _)) by lia. eauto.
  - destruct (offset <? length s)%nat eqn:E; [|eauto].
    apply Nat.ltb_lt in E.
    destruct (unicode_cpt_from_utf8_total s offset E) as [->|(cp & o' & -> & Ho')]; [by left|].
    apply IH; lia.
Qed.

(** UTF-8 decoding reads back every sequence of code points (up to
    U+10FFFF) from its encoding, and on any byte string whatever it ends: with
    code points or with the status RUNTIME_ERROR, never past the end of the
    string. *)
Theorem utf8_roundtrip (cps : list Z) (s : bytes) :
  Forall (fun c => 0 <= c <= 0x10ffff) cps ->
  (exists e, encode_cpts cps = Ok e /\ unicode_cpts_from_utf8 e = Ok cps) /\
  (unicode_cpts_from_utf8 s = Err (AsException ALLSPARK_RUNTIME_ERROR) \/
   exists cps', unicode_cpts_from_utf8 s = Ok cps').
Proof.
  intros Hall. split; [|apply cpts_loop_total; lia].
  unfold unicode_cpts_from_utf8.
  destruct (encode_cpts cps) as [e|x] eqn:E.
  - destruct (cpts_loop_encoded cps (length e) [] [] Hall) as (e' & He' & H).
    assert (e' = e) as -> by congruence. exists e. split; [done|]. by apply H.
  - destruct (cpts_loop_encoded cps 0 [] [] Hall) as (e' & He' & _). congruence.
Qed.

Lemma utf8_roundtrip_witness :
  (exists e, encode_cpts [0x68; 0xe9; 0x4f60; 0x1f600] = Ok e /\
     unicode_cpts_from_utf8 e = Ok [0x68; 0xe9; 0x4f60; 0x1f600]) /\
  (unicode_cpts_from_utf8 [0xc3] = Err (AsException ALLSPARK_RUNTIME_ERROR) \/
   exists cps', unicode_cpts_from_utf8 [0xc3] = Ok cps').
Proof.
  refine (utf8_roundtrip [0x68; 0xe9; 0x4f60; 0x1f600] [0xc3] _).
  repeat (apply Forall_cons; split; [lia|]). by apply Forall_nil.
Defined.

(** * The alphabet is a bijection *)

(** A byte stands for itself when it is printable. *)
Definition printable (b : Z) : bool :=
  ((0x21 <=? b) && (b <=? 0x7e)) || ((0xa1 <=? b) && (b <=? 0xac)) ||
  ((0xae <=? b) && (b <=? 0xff)).

(** The others are numbered from 256 in their order. *)
Definition byte_cpt (b : Z) : Z :=
  if printable b then b
  else 256 + Z.of_nat (length (filter (fun c => negb (printable c)) (seqZ 0 b))).

Definition byte_letter (b : Z) : bytes :=
  match unicode_cpt_to_utf8 (byte_cpt b) with Ok s => s | Err _ => [] end.

Definition the_byte_map : byte_map := unicode_utf8_to_byte_map ∅.

Lemma byte_map_size : size the_byte_map = 256%nat.
Proof. vm_compute. reflexivity. Qed.

(** The byte's code point is encodable and its letter maps back to it. *)
Definition byte_ok (b : Z) : bool :=
  (0 <=? byte_cpt b) && (byte_cpt b <=? 0x10ffff) &&
  bool_decide (the_byte_map !! byte_letter b = Some b) &&
  bool_decide (unicode_cpt_to_utf8 (byte_cpt b) = Ok (byte_letter b)).

Lemma byte_cpt_ok b :
  0 <= b < 256 ->
  0 <= byte_cpt b <= 0x10ffff /\ the_byte_map !! byte_letter b = Some b /\
  unicode_cpt_to_utf8 (byte_cpt b) = Ok (byte_letter b).
Proof.
  intros Hb.
  pose proof (forall_range byte_ok 256 ltac:(vm_compute; reflexivity) b Hb) as H.
  unfold byte_ok in H. rewrite !andb_true_iff, !bool_decide_eq_true in H. destruct H as [[[H1 H2] Hm] Hs].
  split; [split; by apply Z.leb_le|]. split; assumption.
Qed.

Lemma encode_letters bs :
  Forall (fun b => 0 <= b < 256) bs ->
  encode_cpts (byte_cpt <$> bs) = Ok (bs ≫= byte_letter).
Proof.
  induction 1 as [|b bs Hb Hbs IH]; [done|].
  rewrite fmap_cons, bind_cons. cbn [encode_cpts].
  destruct (byte_cpt_ok b Hb) as (_ & _ & ->). by rewrite IH.
Qed.

Lemma bpe_decode_cpts_letters text bs :
  Forall (fun b => 0 <= b < 256) bs ->
  bpe_decode_cpts text the_byte_map (byte_cpt <$> bs) = Ok bs.
Proof.
  induction 1 as [|b bs Hb Hbs IH]; [done|].
  rewrite fmap_cons. cbn [bpe_decode_cpts]. unfold bpe_decode_cpt.
  destruct (byte_cpt_ok b Hb) as (_ & Hm & ->). by rewrite Hm, IH.
Qed.

(** The byte-level BPE alphabet is a bijection between the 256 byte values
    and 256 letters, and decoding the text that spells out any byte string
    with those letters gives the byte string back. *)
Theorem bpe_decode_roundtrip (bs : bytes) :
  Forall (fun b => 0 <= b < 256) bs ->
  size (unicode_utf8_to_byte_map ∅) = 256%nat /\
  (forall b, b ∈ bs -> unicode_utf8_to_byte_map ∅ !! byte_letter b = Some b) /\
  bpe_decode_text (bs ≫= byte_letter) (unicode_utf8_to_byte_map ∅) = Ok bs.
Proof.
  intros Hbs. split; [exact byte_map_size|]. split.
  { intros b Hb. rewrite Forall_forall in Hbs. by apply byte_cpt_ok, Hbs. }
  unfold bpe_decode_text, unicode_cpts_from_utf8.
  destruct (cpts_loop_encoded (byte_cpt <$> bs) (length (bs ≫= byte_letter)) [] [])
    as (e & He & Hloop).
  { apply Forall_fmap. eapply Forall_impl; [exact Hbs|].
    intros b Hb. by apply byte_cpt_ok. }
  rewrite (encode_letters bs Hbs) in He. simplify_eq. simpl in Hloop.
  rewrite Hloop by done. by apply bpe_decode_cpts_letters.
Qed.

Lemma bpe_decode_roundtrip_witness :
  size (unicode_utf8_to_byte_map ∅) = 256%nat /\
  (forall b, b ∈ [0; 32; 104; 173; 255] ->
     unicode_utf8_to_byte_map ∅ !! byte_letter b = Some b) /\
  bpe_decode_text ([0; 32; 104; 173; 255] ≫= byte_letter) (unicode_utf8_to_byte_map ∅)
  = Ok [0; 32; 104; 173; 255].
Proof.
  refine (bpe_decode_roundtrip [0; 32; 104; 173; 255] _).
  repeat (apply Forall_cons; split; [lia|]). by apply Forall_nil.
Defined.

(** * Pieces and their cache *)

(** The cache only holds what decoding would give. *)
Definition coherent (d : AsTokenizerData) (cache : gmap Z bytes) : Prop :=
  forall t r, cache !! t = Some r -> piece_text t d = Ok r.

Lemma token_to_piece_ok t d buf cache r :
  coherent d cache -> piece_text t d = Ok r ->
  wp (token_to_piece t buf 0 d)
     (fun a cache' => a = try_copy buf 0 r /\ coherent d cache' /\ cache' !! t = Some r)
     (fun _ _ => False) cache.
Proof.
  intros Hc Hr. unfold wp, token_to_piece.
  destruct (cache !! t) as [r'|] eqn:E.
  - specialize (Hc t r' E) as Hc'. assert (r' = r) as -> by congruence. done.
  - rewrite Hr. split; [done|]. split; [|by rewrite lookup_insert_eq].
    intros t' r'. rewrite lookup_insert_Some. intros [[<- <-]|[_ H]]; [done|by apply Hc].
Qed.

Lemma try_copy_fits buf r :
  Z.of_nat (length r) <= Z.of_nat (length buf) < 2 ^ 31 ->
  try_copy buf 0 r = (Z.of_nat (length r), r ++ drop (length r) buf).
Proof.
  intros H. unfold try_copy. simpl Z.to_nat. destruct r as [|c r]; simpl skip_spaces;
    cbv zeta; rewrite i32_small by lia; (destruct (_ <? _) eqn:E; [lia|done]).
Qed.

Lemma try_copy_short buf r :
  Z.of_nat (length buf) < Z.of_nat (length r) < 2 ^ 31 ->
  try_copy buf 0 r = (- Z.of_nat (length r), buf).
Proof.
  intros H. unfold try_copy. simpl Z.to_nat. destruct r as [|c r]; simpl skip_spaces;
    cbv zeta; rewrite i32_small by lia; (destruct (_ <? _) eqn:E; [done|lia]).
Qed.

Lemma resize_take n buf :
  0 <= n <= Z.of_nat (length buf) -> resize n buf = take (Z.to_nat n) buf.
Proof.
  intros. unfold resize. replace (Z.to_nat n - length buf)%nat with 0%nat by lia.
  apply app_nil_r.
Qed.

Lemma length_resize n buf : 0 <= n -> length (resize n buf) = Z.to_nat n.
Proof.
  intros. unfold resize. rewrite length_app, length_take, repeat_length. lia.
Qed.

Lemma decode_token_piece t d cache r :
  coherent d cache -> piece_text t d = Ok r -> Z.of_nat (length r) < 2 ^ 31 ->
  wp (decode_token t d) (fun a cache' => a = r /\ coherent d cache' /\ cache' !! t = Some r)
     (fun _ _ => False) cache.
Proof.
  intros Hc Hr Hlen. unfold decode_token. apply wp_bind.
  eapply wp_mono; [by apply token_to_piece_ok| |done].
  intros [n buf] c1 (Heq & Hc1 & Hl1).
  destruct (decide (length r <= 8)%nat) as [Hs|Hs].
  - rewrite try_copy_fits in Heq by (simpl length; lia). simplify_eq.
    destruct (_ <? 0) eqn:E; [lia|]. apply wp_ret. split; [|done].
    rewrite resize_take by (rewrite length_app; lia).
    rewrite Nat2Z.id. by rewrite take_app_length.
  - rewrite try_copy_short in Heq by (simpl length; lia). simplify_eq.
    destruct (_ <? 0) eqn:E; [|lia]. apply wp_bind.
    eapply wp_mono; [by apply token_to_piece_ok| |done].
    intros [check buf'] c2 (Heq' & Hc2 & Hl2). rewrite Z.opp_involutive in *.
    rewrite try_copy_fits in Heq' by (rewrite length_resize; lia). simplify_eq.
    rewrite Z.eqb_refl. apply wp_ret. split; [|done].
    rewrite drop_ge by (rewrite length_resize; lia). apply app_nil_r.
Qed.

(** decode_token returns the token's whole piece, however long (up to 2^31
    bytes), whether it was cached or not, keeps the cache coherent and leaves
    the piece in it; a token that has no piece throws the error of the decoding
    and leaves the cache alone. *)
Theorem decode_token_correct t d cache :
  coherent d cache ->
  (forall r, piece_text t d = Ok r -> Z.of_nat (length r) < 2 ^ 31) ->
  match piece_text t d with
  | Ok r => exists cache', decode_token t d cache = (Ok r, cache') /\
              coherent d cache' /\ cache' !! t = Some r
  | Err e => decode_token t d cache = (Err e, cache)
  end.
Proof.
  intros Hc Hlen. destruct (piece_text t d) as [r|e] eqn:Hr.
  - pose proof (decode_token_piece t d cache r Hc Hr (Hlen r eq_refl)) as H.
    unfold wp in H. destruct (decode_token t d cache) as [[a|e] c']; [|done].
    destruct H as (-> & ? & ?). eauto.
  - unfold decode_token, mbind, M_bind, token_to_piece.
    destruct (cache !! t) as [r|] eqn:E; [|by rewrite Hr].
    specialize (Hc t r E). congruence.
Qed.

(** Two sentence-piece tokens, one longer than the first buffer. *)
Definition demo_vocab : AsTokenizerData :=
  AsTokenizerData_new [(search ++ lit "hi", 0); (lit "longer than eight", 1)]
    VOCAB_TYPE_SPM 2.

Lemma decode_token_correct_witness :
  exists cache', decode_token 1 demo_vocab ∅ = (Ok (lit "longer than eight"), cache') /\
    coherent demo_vocab cache' /\ cache' !! 1 = Some (lit "longer than eight").
Proof.
  refine (decode_token_correct 1 demo_vocab ∅ _ _).
  - intros t r H. by rewrite lookup_empty in H.
  - intros r H. vm_compute in H. injection H as <-. vm_compute. reflexivity.
Defined.
