(* ===== verification/PrefixCoordinator.v ===== *)
(** The barrier of the prefix cache's workers ([PrefixCacheCoordinator] of
    src/csrc/runtime/cache/prefix_cache_manager.h): one mutex, a counter and a
    condition variable, as a step relation between the workers' critical
    sections. *)
From stdpp Require Import base list relations.
From S2P Require Import Prelude.

(** A worker between two barriers or asleep in [wait_cv.wait]; [arrived]
    counts its calls. *)
Record Worker := mkWorker { arrived : nat; waiting : bool }.

(** [worker_count] and the workers; [worker_num] is their number. *)
Record Coordinator := mkCoordinator {
  worker_count : Z;
  workers : list Worker;
}.

Definition worker_num (c : Coordinator) : Z := Z.of_nat (length (workers c)).

(** [waitForOtherWorkers] up to the end of the call or the first test of the
    wait's predicate: the last worker resets the counter and goes on. *)
Definition arrive (i : nat) (c : Coordinator) : option Coordinator :=
  match workers c !! i with
  | Some (mkWorker a false) =>
      let count := worker_count c + 1 in
      if count =? worker_num c
      then Some (mkCoordinator 0 (<[i := mkWorker (a + 1) false]> (workers c)))
      else Some (mkCoordinator count (<[i := mkWorker (a + 1) true]> (workers c)))
  | _ => None
  end.

(** A notified worker that has the mutex again leaves the wait only when the
    predicate [worker_count == 0] holds. *)
Definition wake (i : nat) (c : Coordinator) : option Coordinator :=
  match workers c !! i with
  | Some (mkWorker a true) =>
      if worker_count c =? 0
      then Some (mkCoordinator 0 (<[i := mkWorker a false]> (workers c))) else None
  | _ => None
  end.

Inductive step (c c' : Coordinator) : Prop :=
  | step_arrive i : arrive i c = Some c' -> step c c'
  | step_wake i : wake i c = Some c' -> step c c'.

Definition start (n : nat) : Coordinator :=
  mkCoordinator 0 (replicate n (mkWorker 0 false)).

(** The number of calls a worker has returned from. *)
Definition passed (w : Worker) : nat := (arrived w - if waiting w then 1 else 0)%nat.

(** ** The invariant: [r] rounds are complete, and [worker_count] workers have
    arrived for the next and wait. *)
Definition ahead (r : nat) (w : Worker) : bool := (arrived w =? r + 1)%nat.
Definition round_ok (r : nat) (w : Worker) : Prop :=
  arrived w = r \/ (arrived w = (r + 1)%nat /\ waiting w = true).
Definition barrier_inv (r : nat) (c : Coordinator) : Prop :=
  Forall (round_ok r) (workers c) /\
  worker_count c = Z.of_nat (length (filter (fun w => ahead r w) (workers c))) /\
  worker_count c < worker_num c.

Lemma filter_insert_count (f : Worker -> bool) l i w w' :
  l !! i = Some w ->
  Z.of_nat (length (filter (fun w => f w) (<[i := w']> l))) =
  Z.of_nat (length (filter (fun w => f w) l))
    + (if f w' then 1 else 0) - (if f w then 1 else 0).
Proof.
  revert i. induction l as [|x l IH]; intros [|i] Hi; simpl in *; try done.
  - injection Hi as ->. rewrite !filter_cons.
    repeat (destruct (decide _)); destruct (f w), (f w'); simpl in *; try done; lia.
  - rewrite !filter_cons. specialize (IH i Hi). destruct (decide (f x)); simpl; lia.
Qed.

Lemma filter_none (f : Worker -> bool) l :
  Forall (fun w => f w = false) l -> filter (fun w => f w) l = [].
Proof.
  induction 1 as [|w l Hw Hl IH]; [done|]. rewrite filter_cons, IH.
  destruct (decide (f w)) as [Hf|]; [by rewrite Hw in Hf|done].
Qed.

Lemma all_ahead r l :
  Forall (round_ok r) l -> length (filter (fun w => ahead r w) l) = length l ->
  Forall (fun w => arrived w = (r + 1)%nat) l.
Proof.
  intros Hok. induction Hok as [|w l Hw Hl IH]; intros Hlen; [constructor|].
  rewrite filter_cons in Hlen. destruct (decide (ahead r w)) as [Ha|]; simpl in Hlen.
  - constructor; [|apply IH; lia]. unfold ahead in Ha. by apply Is_true_true, Nat.eqb_eq in Ha.
  - pose proof (length_filter (fun w => ahead r w) l). lia.
Qed.

(** Nobody is ahead when the counter is 0. *)
Lemma none_ahead r l w i :
  Forall (round_ok r) l -> length (filter (fun w => ahead r w) l) = 0%nat ->
  l !! i = Some w -> arrived w = r.
Proof.
  intros Hok Hlen Hi. rewrite Forall_lookup in Hok. destruct (Hok i w Hi) as [|[Ha _]]; [done|].
  apply nil_length_inv in Hlen.
  assert (Hin : w ∈ filter (fun w => ahead r w) l).
  { apply list_elem_of_filter. split; [|by eapply list_elem_of_lookup_2].
    unfold ahead. by rewrite Ha, Nat.eqb_refl. }
  rewrite Hlen in Hin. by apply elem_of_nil in Hin.
Qed.

Lemma arrive_inv r c i c' :
  barrier_inv r c -> arrive i c = Some c' -> exists r', barrier_inv r' c'.
Proof.
  intros (Hok & Hc & Hlt). unfold arrive, worker_num in *.
  destruct (workers c !! i) as [[a [|]]|] eqn:Hi; try done.
  assert (a = r) as ->.
  { rewrite Forall_lookup in Hok. destruct (Hok i _ Hi) as [|[_ ?]]; done. }
  pose proof (filter_insert_count (ahead r) (workers c) i _ (mkWorker (r + 1) false) Hi) as Hf.
  pose proof (filter_insert_count (ahead r) (workers c) i _ (mkWorker (r + 1) true) Hi) as Ht.
  assert (Hne : ahead r (mkWorker r false) = false) by (unfold ahead; simpl; apply Nat.eqb_neq; lia).
  assert (He : forall b, ahead r (mkWorker (r + 1) b) = true)
    by (intros b; unfold ahead; simpl; apply Nat.eqb_refl).
  rewrite Hne, He in Hf, Ht. destruct (_ =? _) eqn:E; intros [= <-].
  - exists (r + 1)%nat.
    assert (Hall : Forall (fun w => arrived w = (r + 1)%nat)
      (<[i := mkWorker (r + 1) true]> (workers c))).
    { apply all_ahead; [|rewrite length_insert; lia].
      apply Forall_insert; [done|]. by right. }
    assert (Hall' : Forall (fun w => arrived w = (r + 1)%nat)
      (<[i := mkWorker (r + 1) false]> (workers c))).
    { rewrite Forall_lookup in *. intros j w Hj. destruct (decide (j = i)) as [->|Hne'].
      - rewrite list_lookup_insert_eq in Hj by (by eapply lookup_lt_Some). by simplify_eq.
      - apply (Hall j w). rewrite list_lookup_insert_ne in * by done. done. }
    split; [|split].
    + eapply Forall_impl; [exact Hall'|]. intros w Hw. by left.
    + simpl. rewrite filter_none; [done|].
      eapply Forall_impl; [exact Hall'|]. intros w Hw.
      unfold ahead. rewrite Hw. apply Nat.eqb_neq. lia.
    + unfold worker_num. simpl. rewrite length_insert. apply lookup_lt_Some in Hi. lia.
  - exists r. split; [|split].
    + apply Forall_insert; [done|]. by right.
    + simpl. lia.
    + unfold worker_num. simpl. rewrite length_insert. lia.
Qed.

Lemma wake_inv r c i c' :
  barrier_inv r c -> wake i c = Some c' -> barrier_inv r c'.
Proof.
  intros (Hok & Hc & Hlt). unfold wake, worker_num in *.
  destruct (workers c !! i) as [[a [|]]|] eqn:Hi; try done.
  destruct (worker_count c =? 0) eqn:E; [|done]. intros [= <-]. apply Z.eqb_eq in E.
  assert (Ha : arrived (mkWorker a true) = r) by (eapply none_ahead; [exact Hok|lia|exact Hi]).
  simpl in Ha. subst a.
  pose proof (filter_insert_count (ahead r) (workers c) i _ (mkWorker r false) Hi) as Hf.
  assert (Hne : forall b, ahead r (mkWorker r b) = false)
    by (intros b; unfold ahead; simpl; apply Nat.eqb_neq; lia).
  rewrite !Hne in Hf. split; [|split].
  - apply Forall_insert; [done|]. by left.
  - simpl. lia.
  - unfold worker_num. simpl. rewrite length_insert. lia.
Qed.

Lemma barrier_reachable_inv n c :
  (0 < n)%nat -> rtc step (start n) c -> exists r, barrier_inv r c.
Proof.
  intros Hn Hr. assert (H0 : exists r, barrier_inv r (start n)).
  { exists 0%nat. split; [|split].
    - apply Forall_replicate. by left.
    - simpl. rewrite filter_none; [done|]. by apply Forall_replicate.
    - unfold worker_num. simpl. rewrite length_replicate. lia. }
  induction Hr as [|c1 c2 c3 Hs Hr IH]; [done|].
  apply IH. destruct H0 as [r Hinv]. destruct Hs as [i Hi|i Hi].
  - by eapply arrive_inv.
  - exists r. by eapply wake_inv.
Qed.

(** The barrier is safe in every interleaving of any number of workers: no
    worker returns from its k-th call before every worker has made its k-th
    call, and the counter stays below the number of workers. *)
Theorem barrier_safe n c i j wi wj :
  (0 < n)%nat -> rtc step (start n) c ->
  workers c !! i = Some wi -> workers c !! j = Some wj ->
  (passed wi <= arrived wj)%nat /\ 0 <= worker_count c < worker_num c.
Proof.
  intros Hn Hr Hi Hj. destruct (barrier_reachable_inv n c Hn Hr) as (r & Hok & Hc & Hlt).
  split; [|lia]. rewrite Forall_lookup in Hok. pose proof (Hok i wi Hi) as Hwi.
  pose proof (Hok j wj Hj) as Hwj. unfold passed.
  destruct Hwi as [->|[-> ->]], Hwj as [->|[-> _]]; try lia; destruct (waiting wi); lia.
Qed.

(** Two workers: the first waits, the second completes the round. *)
Definition one_round : Coordinator := mkCoordinator 0 [mkWorker 1 true; mkWorker 1 false].

Lemma one_round_reachable : rtc step (start 2) one_round.
Proof.
  eapply rtc_l; [by apply (step_arrive _ _ 0%nat)|].
  eapply rtc_l; [by apply (step_arrive _ _ 1%nat)|]. by apply rtc_refl.
Qed.

Lemma barrier_safe_witness : (passed (mkWorker 1 false) <= 1)%nat /\ 0 <= 0 < 2.
Proof.
  apply (barrier_safe 2 one_round 1 0 (mkWorker 1 false) (mkWorker 1 true)).
  - lia.
  - exact one_round_reachable.
  - reflexivity.
  - reflexivity.
Defined.

(** The barrier can deadlock: the worker that completes a round can enter
    the next one before the sleeping workers have the mutex again; they then
    find the counter at 1, sleep on, and nobody can ever move. *)
Theorem barrier_deadlock :
  exists c, rtc step (start 2) c /\ Forall (fun w => waiting w = true) (workers c) /\
    forall c', ~ step c c'.
Proof.
  exists (mkCoordinator 1 [mkWorker 1 true; mkWorker 2 true]). split; [|split].
  - eapply rtc_r; [exact one_round_reachable|]. by apply (step_arrive _ _ 1%nat).
  - by repeat constructor.
  - intros c' [[|[|i]] Hi|[|[|i]] Hi]; done.
Qed.
