(* ===== verification/PrefixCache.v ===== *)
(** The prefix cache (src/csrc/runtime/cache/prefix_cache_manager.h, .cpp,
    _member.hpp and _private.cpp): spans of finished prefixes are kept in a
    hash table per device, referenced by the requests that use them, evicted
    in LRU order and swapped to host memory.  Nodes are shared mutable objects
    and live in a heap; the evictor's [std::set] is ordered by fields of the
    nodes that can change while they are in the set. *)
From stdpp Require Import base list gmap strings fin_maps sorting pretty.
From S2P Require Import Prelude FrameManager SpanManager VirtualCache.

(** * Hashes *)

(** [std::setw(10) << std::setfill('0')]: the low [n] decimal digits. *)
Fixpoint dec_digits (n : nat) (v : Z) : string :=
  match n with
  | O => ""
  | S k => dec_digits k (v / 10)
             +:+ String (Ascii.ascii_of_nat (Z.to_nat (48 + v mod 10))) EmptyString
  end.

Definition DEFAULT_HASH_STR : string := "not_hashed".

(** MurmurHash3_x86_32 with seed 0 of a token sequence: a third-party
    function, known only to return a uint32. *)
Class Murmur := MurmurHash3_x86_32 : list Z -> Z.

Definition hash_tokens `{Murmur} (tokens : list Z) : string :=
  dec_digits 10 (u32 (MurmurHash3_x86_32 tokens)).

(** * Nodes *)
Record PrefixNode := mkNode {
  k_cache : list span_ptr;
  v_cache : list span_ptr;
  ref_cnt : Z;
  prefix_len : Z;
  cache_num : Z;
  last_access_time : Z;
  device_type : DeviceType;
  hash : string;
  is_ready : bool;
}.

(** [operator<]: the node more likely to be evicted is smaller. *)
Definition node_lt (a b : PrefixNode) : bool :=
  if negb (last_access_time a =? last_access_time b) then
    last_access_time a <? last_access_time b
  else if negb (prefix_len a =? prefix_len b) then prefix_len b <? prefix_len a
  else String.ltb (hash a) (hash b).

Definition with_ref (n : Z) (x : PrefixNode) : PrefixNode :=
  mkNode (k_cache x) (v_cache x) n (prefix_len x) (cache_num x)
    (last_access_time x) (device_type x) (hash x) (is_ready x).
Definition with_ts (ts : Z) (x : PrefixNode) : PrefixNode :=
  mkNode (k_cache x) (v_cache x) (ref_cnt x) (prefix_len x) (cache_num x)
    ts (device_type x) (hash x) (is_ready x).
Definition ready (x : PrefixNode) : PrefixNode :=
  mkNode (k_cache x) (v_cache x) (ref_cnt x) (prefix_len x) (cache_num x)
    (last_access_time x) (device_type x) (hash x) true.

(** * The evictor

    [std::set<PrefixNodePtr, NodeComparator>] as its elements in order.  The
    set may only be searched while its elements are in order: otherwise an
    insertion or an erasure is undefined. *)
Section evictor.
Variable nodes : gmap Z PrefixNode.

Definition id_lt (a b : Z) : bool :=
  match nodes !! a, nodes !! b with
  | Some x, Some y => node_lt x y
  | _, _ => false
  end.

Fixpoint in_order (l : list Z) : bool :=
  match l with
  | [] => true
  | a :: l' => match l' with [] => true | b :: _ => id_lt a b end && in_order l'
  end.

(** Inserts before the first greater element; an equivalent element stays. *)
Fixpoint set_insert (x : Z) (l : list Z) : list Z :=
  match l with
  | [] => [x]
  | a :: l' =>
      if id_lt a x then a :: set_insert x l'
      else if id_lt x a then x :: l
      else l
  end.

(** Erases the equivalent element. *)
Fixpoint set_erase (x : Z) (l : list Z) : list Z :=
  match l with
  | [] => []
  | a :: l' =>
      if id_lt a x then a :: set_erase x l'
      else if id_lt x a then l
      else l'
  end.
End evictor.

Record CacheUnion := mkUnion {
  capacity : Z;
  evictor : list Z;
  hash_table : gmap string Z;
}.

(** * The manager *)

(** What the constructor takes from the device context: [max_span_num] is the
    first dimension of the tensor of span pointers. *)
Record Config := mkConfig {
  token_per_span_ : Z;
  layer_num_ : Z;
  time_to_live_sec_ : Z;
  max_span_num : Z;
  gpu_workspace_size : Z;
  cpu_workspace_size : Z;
}.

(** A queued copy: the node to fill and mark, the workspace block it reads,
    and the contents to write to the node's spans. *)
Record Task := mkTask {
  task_node : Z;
  task_block : Z;
  task_data : list (option Z);
}.

Section manager.
Context {S C : Type} `{HS : SpanManager S} `{HC : SpanManager C}.

(** Span contents are opaque values; memory maps a span's data pointer to
    what the span holds. *)
Record t := mk {
  config : Config;
  gpu_spans : S;
  cpu_spans : C;
  nodes : gmap Z PrefixNode;
  next_node : Z;
  gpu_union_ : CacheUnion;
  cpu_union_ : CacheUnion;
  gpu_mem : gmap Z Z;
  cpu_mem : gmap Z Z;
  available_blocks : list Z;
  tasks : list Task;
  hit_cnt_ : Z;
  miss_cnt_ : Z;
  seq_len_thre_ : Z;
}.

Abbreviation P := (M t).

Definition set_nodes (f : gmap Z PrefixNode -> gmap Z PrefixNode) (s : t) : t :=
  mk (config s) (gpu_spans s) (cpu_spans s) (f (nodes s)) (next_node s) (gpu_union_ s)
    (cpu_union_ s) (gpu_mem s) (cpu_mem s) (available_blocks s) (tasks s) (hit_cnt_ s)
    (miss_cnt_ s) (seq_len_thre_ s).
Definition set_gpu_spans (x : S) (s : t) : t :=
  mk (config s) x (cpu_spans s) (nodes s) (next_node s) (gpu_union_ s)
    (cpu_union_ s) (gpu_mem s) (cpu_mem s) (available_blocks s) (tasks s) (hit_cnt_ s)
    (miss_cnt_ s) (seq_len_thre_ s).
Definition set_cpu_spans (x : C) (s : t) : t :=
  mk (config s) (gpu_spans s) x (nodes s) (next_node s) (gpu_union_ s)
    (cpu_union_ s) (gpu_mem s) (cpu_mem s) (available_blocks s) (tasks s) (hit_cnt_ s)
    (miss_cnt_ s) (seq_len_thre_ s).
Definition set_gpu_union (u : CacheUnion) (s : t) : t :=
  mk (config s) (gpu_spans s) (cpu_spans s) (nodes s) (next_node s) u
    (cpu_union_ s) (gpu_mem s) (cpu_mem s) (available_blocks s) (tasks s) (hit_cnt_ s)
    (miss_cnt_ s) (seq_len_thre_ s).
Definition set_cpu_union (u : CacheUnion) (s : t) : t :=
  mk (config s) (gpu_spans s) (cpu_spans s) (nodes s) (next_node s) (gpu_union_ s)
    u (gpu_mem s) (cpu_mem s) (available_blocks s) (tasks s) (hit_cnt_ s)
    (miss_cnt_ s) (seq_len_thre_ s).
Definition set_mem (g c : gmap Z Z) (s : t) : t :=
  mk (config s) (gpu_spans s) (cpu_spans s) (nodes s) (next_node s) (gpu_union_ s)
    (cpu_union_ s) g c (available_blocks s) (tasks s) (hit_cnt_ s)
    (miss_cnt_ s) (seq_len_thre_ s).
Definition set_pool (blocks : list Z) (ts : list Task) (s : t) : t :=
  mk (config s) (gpu_spans s) (cpu_spans s) (nodes s) (next_node s) (gpu_union_ s)
    (cpu_union_ s) (gpu_mem s) (cpu_mem s) blocks ts (hit_cnt_ s)
    (miss_cnt_ s) (seq_len_thre_ s).
Definition set_cnt (hit miss : Z) (s : t) : t :=
  mk (config s) (gpu_spans s) (cpu_spans s) (nodes s) (next_node s) (gpu_union_ s)
    (cpu_union_ s) (gpu_mem s) (cpu_mem s) (available_blocks s) (tasks s) hit
    miss (seq_len_thre_ s).
Definition SetSeqlenThre (thre : Z) : P unit := modify (fun s =>
  mk (config s) (gpu_spans s) (cpu_spans s) (nodes s) (next_node s) (gpu_union_ s)
    (cpu_union_ s) (gpu_mem s) (cpu_mem s) (available_blocks s) (tasks s) (hit_cnt_ s)
    (miss_cnt_ s) thre).

Definition on_gpu {A} (m : M S A) : P A := zoom gpu_spans set_gpu_spans m.
Definition on_cpu {A} (m : M C A) : P A := zoom cpu_spans set_cpu_spans m.

(** [union_ptr]: the CPU's union for the CPU, the GPU's for any other. *)
Definition union_of (d : DeviceType) (s : t) : CacheUnion :=
  match d with CPU => cpu_union_ s | _ => gpu_union_ s end.
Definition set_union (d : DeviceType) (u : CacheUnion) (s : t) : t :=
  match d with CPU => set_cpu_union u s | _ => set_gpu_union u s end.
Definition table (d : DeviceType) (s : t) : gmap string Z := hash_table (union_of d s).
Definition table_size (d : DeviceType) (s : t) : Z := Z.of_nat (size (table d s)).

(** [hash_table.at(hash)] *)
Definition at_ (d : DeviceType) (h : string) : P Z := fun s =>
  match table d s !! h with
  | Some id => (Ok id, s)
  | None => (Err OutOfRange, s)
  end.
Definition node (id : Z) : P PrefixNode := fun s =>
  match nodes s !! id with
  | Some n => (Ok n, s)
  | None => (Err UB, s)
  end.
Definition set_node (id : Z) (n : PrefixNode) : P unit := modify (set_nodes <[id := n]>).

(** [vec[i]]; past the end it is undefined. *)
Definition nth_ptr (l : list span_ptr) (i : Z) : P span_ptr :=
  match l !! Z.to_nat i with Some p => mret p | None => throw UB end.

Definition evictor_op (f : gmap Z PrefixNode -> Z -> list Z -> list Z)
    (d : DeviceType) (id : Z) : P unit := fun s =>
  let u := union_of d s in
  if in_order (nodes s) (evictor u) then
    (Ok tt, set_union d (mkUnion (capacity u) (f (nodes s) id (evictor u)) (hash_table u)) s)
  else (Err UB, s).
Definition evictor_Add := evictor_op set_insert.
Definition evictor_Del := evictor_op set_erase.

Definition FindVictim (d : DeviceType) : P string :=
  ids ← gets (fun s => evictor (union_of d s));
  match ids with
  | [] => mret DEFAULT_HASH_STR
  | id :: _ => n ← node id; mret (hash n)
  end.

Fixpoint hashes (ids : list Z) : P (list string) :=
  match ids with
  | [] => mret []
  | id :: ids' => n ← node id; hs ← hashes ids'; mret (hash n :: hs)
  end.

(** A negative count is a huge one for [reserve]. *)
Definition FindMultiVictims (d : DeviceType) (k : Z) : P (list string) :=
  ids ← gets (fun s => evictor (union_of d s));
  let k := Z.min (Z.of_nat (length ids)) k in
  if k <? 0 then throw LengthError else hashes (take (Z.to_nat k) ids).

Definition GetAllCandidatesHash (d : DeviceType) : P (list string) :=
  n ← gets (fun s => Z.of_nat (length (evictor (union_of d s))));
  FindMultiVictims d n.

(** ** Nodes in the tables *)
Definition transverse_hash_table (h : string) (d : DeviceType) : P bool :=
  gets (fun s => bool_decide (is_Some (table d s !! h))).

(** A call for the K and V span of every layer of a table's node. *)
Definition each_span (h : string) (d : DeviceType) (f : span_ptr -> P unit) : P unit :=
  cached ← transverse_hash_table h d;
  if cached : bool then
    id ← at_ d h; n ← node id;
    for_each (seqZ 0 (cache_num n)) (fun i =>
      k ← nth_ptr (k_cache n) i; f k;;
      v ← nth_ptr (v_cache n) i; f v)
  else mret tt.

Definition SetExtraRef (d : DeviceType) (b : bool) (p : span_ptr) : P unit :=
  match d with
  | CPU => on_cpu (sm_SetExtraRef b p)
  | _ => on_gpu (sm_SetExtraRef b p)
  end.
Definition ReleaseSpan (d : DeviceType) (p : span_ptr) : P unit :=
  match d with
  | CPU => on_cpu (sm_ReleaseSpan p)
  | _ => on_gpu (sm_ReleaseSpan p)
  end.

Definition ref_cache_span (h : string) (d : DeviceType) : P unit :=
  each_span h d (SetExtraRef d true).
Definition unref_cache_span (h : string) (d : DeviceType) : P unit :=
  each_span h d (SetExtraRef d false).
Definition free_cache_span (h : string) (d : DeviceType) : P unit :=
  each_span h d (ReleaseSpan d).

(** [if (node->last_access_time < ts) node->last_access_time = ts] *)
Definition newer (ts : Z) (n : PrefixNode) : PrefixNode :=
  if last_access_time n <? ts then with_ts ts n else n.

Definition update_node_ts (h : string) (ts : Z) (d : DeviceType) : P unit :=
  cached ← transverse_hash_table h d;
  if cached : bool then id ← at_ d h; n ← node id; set_node id (newer ts n)
  else mret tt.

Definition ref_node (h : string) (ts : Z) (d : DeviceType) : P unit :=
  cached ← transverse_hash_table h d;
  if negb cached then mret tt
  else
    id ← at_ d h; n ← node id;
    when (ref_cnt n =? 0) (ref_cache_span h d;; evictor_Del d id);;
    set_node id (newer ts (with_ref (ref_cnt n + 1) n)).

(** The spans keep their extra reference. *)
Definition unref_node (h : string) (d : DeviceType) : P unit :=
  id ← at_ d h; n ← node id;
  set_node id (with_ref (ref_cnt n - 1) n);;
  when (ref_cnt n - 1 =? 0) (evictor_Add d id).

Definition set_table (d : DeviceType) (f : gmap string Z -> gmap string Z) : P unit :=
  modify (fun s => let u := union_of d s in
    set_union d (mkUnion (capacity u) (evictor u) (f (hash_table u))) s).

(** [emplace] keeps an entry that is there; the int capacity is compared as a
    size_t. *)
Definition insert_node (h : string) (id : Z) (d : DeviceType) : P bool :=
  room ← gets (fun s => table_size d s <? u64 (capacity (union_of d s)));
  if room : bool then
    set_table d (fun m => match m !! h with Some _ => m | None => <[h := id]> m end);;
    ref_cache_span h d;;
    n ← node id;
    when (ref_cnt n =? 0) (id' ← at_ d h; evictor_Add d id');;
    mret true
  else mret false.

Definition delete_node (h : string) (d : DeviceType) : P unit :=
  unref_cache_span h d;;
  free_cache_span h d;;
  id ← at_ d h;
  evictor_Del d id;;
  set_table d (delete h).

(** [delete_multinodes] repeats the body of [delete_node]. *)
Definition delete_multinodes (hash_vec : list string) (d : DeviceType) : P unit :=
  for_each hash_vec (fun h => delete_node h d).

Definition create_node (k v : list span_ptr) (plen ts : Z) (d : DeviceType) (h : string) : P Z :=
  if bool_decide (h = DEFAULT_HASH_STR) then AS_THROW ALLSPARK_RUNTIME_ERROR
  else if negb (length k =? length v)%nat then AS_THROW ALLSPARK_RUNTIME_ERROR
  else fun s =>
    (Ok (next_node s),
     mk (config s) (gpu_spans s) (cpu_spans s)
       (<[next_node s := mkNode k v 0 plen (Z.of_nat (length k)) ts d h false]> (nodes s))
       (next_node s + 1) (gpu_union_ s) (cpu_union_ s) (gpu_mem s) (cpu_mem s)
       (available_blocks s) (tasks s) (hit_cnt_ s) (miss_cnt_ s) (seq_len_thre_ s)).

Definition set_node_ready (id : Z) : P unit := n ← node id; set_node id (ready n).
Definition check_node_ready (id : Z) : P bool := n ← node id; mret (is_ready n).

(** [remove_if] asks about every hash once, in order; [now] is the steady
    clock's reading in nanoseconds. *)
Fixpoint filter_timeout_hash (now : Z) (hash_list : list string) : P (list string) :=
  match hash_list with
  | [] => mret []
  | h :: rest =>
      id ← at_ CUDA h; n ← node id;
      ttl ← gets (fun s => time_to_live_sec_ (config s));
      let timeout := 1000 * ttl <? Z.quot (now - last_access_time n) 1000000 in
      when timeout (delete_node h CUDA);;
      kept ← filter_timeout_hash now rest;
      mret (if timeout then kept else h :: kept)
  end.

(** ** Construction *)

(** [MemcpyWorkspace::CalcWorkspaceSize] *)
Definition CalcWorkspaceSize (max_length max_batch token_per_span frame_per_node
    frame_size : Z) : Z :=
  u64 (Z.quot (max_length + token_per_span - 1) token_per_span
       * max_batch * frame_per_node * frame_size).

(** The arithmetic of [init_cpu_union] from [cache_mem_bytes], the share of
    the host's memory that CPU_CACHE_RATIO asks for: the number of frames of
    the host's manager and the capacity of its table. *)
Definition init_cpu_union (ratio_positive : bool) (cache_mem_bytes nranks max_length
    max_batch token_per_span layer_num frame_size : Z) : res (Z * Z) :=
  let frame_per_node := u64 (2 * layer_num) in
  if negb ratio_positive then Ok (0, 0)
  else
    let ws := CalcWorkspaceSize max_length max_batch token_per_span frame_per_node frame_size in
    let all_ws := u64 (ws * nranks) in
    if cache_mem_bytes <? all_ws then Err (AsException ALLSPARK_RUNTIME_ERROR)
    else if (nranks =? 0) || (frame_size =? 0) || (frame_per_node =? 0) then Err UB
    else
      let max_frame_num := (cache_mem_bytes - all_ws) / nranks / frame_size in
      Ok (max_frame_num, i32 (max_frame_num / frame_per_node)).

(** The manager over two span managers, the GPU's capacity being all nodes
    that its frames can hold. *)
Definition PrefixCacheManager_new (c : Config) (gs : S) (cs : C) (cpu_capacity : Z)
    (blocks : list Z) : t :=
  mk c gs cs ∅ 1 (mkUnion (i32 (sm_CountFrame gs / (2 * layer_num_ c))) [] ∅)
    (mkUnion cpu_capacity [] ∅) ∅ ∅ blocks [] 0 0 0.

(** ** Memory *)

(** [span->Data()]; through a null pointer it is undefined. *)
Definition gpu_data (p : span_ptr) : P Z := fun s =>
  match span_Data (gpu_spans s) p with Some a => (Ok a, s) | None => (Err UB, s) end.
Definition cpu_data (p : span_ptr) : P Z := fun s =>
  match span_Data (cpu_spans s) p with Some a => (Ok a, s) | None => (Err UB, s) end.

(** The data pointers of a node's first [n] spans, K before V. *)
Fixpoint span_addrs (data : span_ptr -> P Z) (nd : PrefixNode) (js : list Z) : P (list Z) :=
  match js with
  | [] => mret []
  | j :: js' =>
      k ← nth_ptr (k_cache nd) j; a ← data k;
      v ← nth_ptr (v_cache nd) j; b ← data v;
      rest ← span_addrs data nd js';
      mret (a :: b :: rest)
  end.
Fixpoint all_addrs (data : span_ptr -> P Z) (num : Z) (ids : list Z) : P (list Z) :=
  match ids with
  | [] => mret []
  | id :: ids' =>
      nd ← node id; l ← span_addrs data nd (seqZ 0 num);
      rest ← all_addrs data num ids'; mret (l ++ rest)
  end.

(** Writing contents to addresses in order. *)
Fixpoint write_all (m : gmap Z Z) (dst : list Z) (data : list (option Z)) : gmap Z Z :=
  match dst, data with
  | a :: dst', Some x :: data' => write_all (<[a := x]> m) dst' data'
  | a :: dst', None :: data' => write_all (delete a m) dst' data'
  | _, _ => m
  end.

(** The staging loop: [copy_step] spans at a time through the workspace; a
    step of zero never ends. *)
Fixpoint staged (fuel : nat) (copy_step : nat) (src : list (option Z))
    : res (list (option Z)) :=
  match src with
  | [] => Ok []
  | _ =>
      match fuel with
      | O => Err Hang
      | Datatypes.S k =>
          match staged k copy_step (drop copy_step src) with
          | Ok rest => Ok (take copy_step src ++ rest)
          | Err e => Err e
          end
      end
  end.
Definition lift_res {A} (r : res A) : P A := fun s => (r, s).

(** [min(gpu_workspace_size, cpu_workspace_size) / span_size] and the step. *)
Definition copy_step (total span_size : Z) : P Z :=
  c ← gets config;
  if span_size =? 0 then throw UB
  else mret (Z.min (Z.min (gpu_workspace_size c) (cpu_workspace_size c) / span_size) total).

(** ** The thread pool and the workspace blocks *)

(** A task copies its block into the node's spans and marks the node; the
    block returns to the queue when its last holder is gone. *)
Definition run_task : P unit :=
  ts ← gets tasks;
  match ts with
  | [] => mret tt
  | tk :: rest =>
      nd ← node (task_node tk);
      dst ← span_addrs cpu_data nd (seqZ 0 (Z.of_nat (length (task_data tk)) / 2));
      modify (fun s => set_mem (gpu_mem s) (write_all (cpu_mem s) dst (task_data tk)) s);;
      set_node_ready (task_node tk);;
      modify (fun s => set_pool
        (if existsb (fun tk' => task_block tk' =? task_block tk) rest
         then available_blocks s else available_blocks s ++ [task_block tk]) rest s)
  end.

(** Waiting lets the pool work through its queue; without a queued task there
    is nothing to wait for. *)
Definition wait_until (stop : P bool) : P unit :=
  n ← gets (fun s => Z.of_nat (length (tasks s)));
  r ← loop (n + 1) (
    b ← stop;
    if b : bool then mret (Some tt)
    else ts ← gets tasks;
      match ts with [] => throw Hang | _ => run_task;; mret None end);
  match r with Some _ => mret tt | None => throw Hang end.

Definition wait_for_async_tasks : P unit :=
  wait_until (gets (fun s => bool_decide (tasks s = []))).

Definition QueryBlock : P Z :=
  wait_until (gets (fun s => negb (bool_decide (available_blocks s = []))));;
  bs ← gets available_blocks;
  match bs with
  | [] => throw Hang
  | b :: bs' => modify (fun s => set_pool bs' (tasks s) s);; mret b
  end.
Definition return_block (b : Z) : P unit :=
  modify (fun s => set_pool (available_blocks s ++ [b]) (tasks s) s).

(** ** Allocation *)
Definition alloc_cpu_node (num plen ts : Z) (h : string) : P (option Z) :=
  u ← gets cpu_union_;
  free ← gets (fun s => sm_CountFreeFrame (cpu_spans s));
  if capacity u <=? 0 then mret None
  else if free <=? 0 then mret None
  else
    full ← gets (fun s => u64 (capacity u) <=? table_size CPU s);
    victim ← (if full : bool then h ← FindVictim CPU; mret (Some h) else mret None);
    ok ← match victim with
         | None => mret true
         | Some v => if bool_decide (v = DEFAULT_HASH_STR) then mret false
                     else delete_node v CPU;; mret true
         end;
    if negb ok then mret None
    else
      '(k, n1) ← on_cpu (sm_ClaimSpan (replicate (Z.to_nat num) None) "k_cache_cpu_span" num);
      '(v, n2) ← on_cpu (sm_ClaimSpan (replicate (Z.to_nat num) None) "v_cache_cpu_span" num);
      if negb (n1 + n2 =? num * 2) then mret None
      else id ← create_node k v plen ts CPU h; mret (Some id).

(** ** Swapping to the host *)
Definition swap_nodelist_to_cpu_impl (gpu_nodes cpu_nodes : list Z) : P unit :=
  match gpu_nodes with
  | [] => mret tt
  | first :: _ =>
      nd ← node first; c ← gets config;
      let num := cache_num nd in
      let span_num := Z.of_nat (length gpu_nodes) * num * 2 in
      if max_span_num c <? span_num then AS_THROW ALLSPARK_RUNTIME_ERROR else
      src ← all_addrs gpu_data num gpu_nodes;
      block ← QueryBlock;
      size ← gets (fun s => i32 (sm_GetSpanSize (gpu_spans s)));
      if cpu_workspace_size c <? span_num * size then
        return_block block;; AS_THROW ALLSPARK_RUNTIME_ERROR else
      step ← copy_step (Z.of_nat (length src)) size;
      mem ← gets gpu_mem;
      data ← lift_res (staged (length src) (Z.to_nat step) ((fun a => mem !! a) <$> src));
      for_each cpu_nodes (fun id => n ← node id; insert_node (hash n) id CPU;; mret tt);;
      for_each (zip (seq 0 (length cpu_nodes)) cpu_nodes) (fun '(i, id) => modify (fun s =>
        set_pool (available_blocks s)
          (tasks s ++ [mkTask id block
             (take (Z.to_nat (num * 2)) (drop (i * Z.to_nat (num * 2)) data))]) s))
  end.

(** [for (start = 0; start < n; start += step)] over slices of both lists. *)
Fixpoint sliced (fuel : nat) (step : nat) (n : nat) (a b : list Z)
    (impl : list Z -> list Z -> P unit) : P unit :=
  match n with
  | O => mret tt
  | _ =>
      match fuel with
      | O => throw Hang
      | Datatypes.S k =>
          impl (take (min step n) a) (take (min step n) b);;
          sliced k step (n - step) (drop step a) (drop step b) impl
      end
  end.
Definition in_slices (a b : list Z) (impl : list Z -> list Z -> P unit) : P unit :=
  match b with
  | [] => mret tt
  | _ =>
      c ← gets config;
      if layer_num_ c * 2 =? 0 then throw UB
      else sliced (length b) (Z.to_nat (Z.quot (max_span_num c) (layer_num_ c * 2)))
             (length b) a b impl
  end.

(** Step 1 of both swaps to the host: the nodes to copy and their new copies;
    it stops at the first allocation that fails. *)
Fixpoint collect_cpu {A} (get : A -> P (Z * string)) (l : list A) : P (list Z * list Z) :=
  match l with
  | [] => mret ([], [])
  | x :: l' =>
      '(src, h) ← get x;
      nd ← node src;
      cached ← transverse_hash_table h CPU;
      if cached : bool then
        update_node_ts h (last_access_time nd) CPU;;
        collect_cpu get l'
      else
        new ← alloc_cpu_node (cache_num nd) (prefix_len nd) (last_access_time nd) h;
        match new with
        | Some id => '(a, b) ← collect_cpu get l'; mret (src :: a, id :: b)
        | None => mret ([], [])
        end
  end.
Definition swap_to_cpu_by_nodelist (src_node_list : list Z) : P unit :=
  '(a, b) ← collect_cpu (fun id => n ← node id; mret (id, hash n)) src_node_list;
  in_slices a b swap_nodelist_to_cpu_impl.
Definition swap_to_cpu_by_hashlist (hash_list : list string) : P unit :=
  '(a, b) ← collect_cpu (fun h => id ← at_ CUDA h; mret (id, h)) hash_list;
  in_slices a b swap_nodelist_to_cpu_impl.

(** ** Eviction *)
Definition evict_hashes (now : Z) (victims : list string) : P unit :=
  kept ← filter_timeout_hash now victims;
  swap_to_cpu_by_hashlist kept;;
  delete_multinodes kept CUDA.

Definition evict_unrefered_by_num (now : Z) (node_num : Z) : P unit :=
  victims ← FindMultiVictims CUDA node_num;
  evict_hashes now victims.

Definition EvictUnrefered (now : Z) (target : Z) : P unit :=
  free ← gets (fun s => sm_CountFreeFrame (gpu_spans s));
  c ← gets config;
  let frame_num := i32 (target - free) in
  if layer_num_ c * 2 =? 0 then throw UB
  else evict_unrefered_by_num now
         (Z.quot (frame_num + layer_num_ c * 2 - 1) (layer_num_ c * 2)).

Definition EvictAllUnrefered (now : Z) : P unit :=
  hash_list ← GetAllCandidatesHash CUDA;
  evict_hashes now hash_list.

(** ** Reference counting for requests *)

(** The prefix lengths at which a token sequence is cut: every full span
    that ends before the last token. *)
Fixpoint cuts (fuel : nat) (span i token_num : Z) : list Z :=
  match fuel with
  | O => []
  | Datatypes.S k =>
      if i <? token_num - 1 then (i + 1) :: cuts k span (i + span) token_num else []
  end.
Definition span_cuts (span start_idx token_num : Z) : list Z :=
  cuts (Z.to_nat token_num) span (start_idx + (span - 1)) token_num.

(** The loop of [RefOnly]: [prefix_len], [gpu_cached_len] and the nodes. *)
Fixpoint ref_loop `{Murmur} (tokens : list Z) (ts : Z) (lens : list Z) (plen glen : Z)
    (node_vec : list Z) : P (Z * Z * list Z) :=
  match lens with
  | [] => mret (plen, glen, node_vec)
  | n :: lens' =>
      c ← gets config;
      let h := hash_tokens (take (Z.to_nat n) tokens) in
      is_cached ← transverse_hash_table h CUDA;
      when is_cached (ref_node h ts CUDA);;
      is_cached_cpu ← transverse_hash_table h CPU;
      when is_cached_cpu (update_node_ts h ts CPU);;
      let glen' := if is_cached : bool then glen + token_per_span_ c else glen in
      if is_cached || is_cached_cpu then
        if is_cached : bool then
          id ← at_ CUDA h;
          ref_loop tokens ts lens' (plen + token_per_span_ c) glen' (node_vec ++ [id])
        else ref_loop tokens ts lens' (plen + token_per_span_ c) glen' node_vec
      else mret (plen, glen', node_vec)
  end.
Definition RefOnly `{Murmur} (tokens : list Z) (ts : Z) (node_vec : list Z)
    : P (Z * Z * list Z) :=
  c ← gets config;
  ref_loop tokens ts (span_cuts (token_per_span_ c) 0 (Z.of_nat (length tokens))) 0 0 node_vec.

Definition UnRef (node_vec : list Z) : P unit :=
  for_each node_vec (fun id =>
    n ← node id;
    is_cached ← transverse_hash_table (hash n) CUDA;
    when is_cached (
      id' ← at_ CUDA (hash n);
      if id =? id' then unref_node (hash n) CUDA
      else update_node_ts (hash n) (last_access_time n) CUDA);;
    is_cached_cpu ← transverse_hash_table (hash n) CPU;
    when is_cached_cpu (n' ← node id; update_node_ts (hash n) (last_access_time n') CPU)).

Definition UpdateCnt (hit_cnt miss_cnt : Z) : P unit :=
  modify (fun s => set_cnt (hit_cnt_ s + hit_cnt) (miss_cnt_ s + miss_cnt) s).

(** Arithmetic on ints; a result out of their range is undefined. *)
Definition int (z : Z) : P Z :=
  if (- 2 ^ 31 <=? z) && (z <? 2 ^ 31) then mret z else throw UB.

(** The fields of a request the reservation reads and writes. *)
Record Prompt := mkPrompt {
  input_len : Z;
  prefill_chunk_len : Z;
  request_prefix_len : Z;
  request_prefix_len_gpu : Z;
}.

(** [model_layer] is the manager's [layer_num_], [span_size] its
    [token_per_span_]; both come from the device context. *)
Definition context_frame (len gpu_cached_len max_length : Z) : P Z :=
  c ← gets config;
  input ← int (len - gpu_cached_len);
  needed ← int (input + 10);
  if token_per_span_ c =? 0 then throw UB else
  spans ← int (Z.quot (Z.min needed max_length) (token_per_span_ c));
  spans' ← int (spans + 1);
  kv ← int (spans' * 2);
  frames ← int (kv * layer_num_ c);
  mret (u64 frames).

(** The frame reservation in [AsModel::GenerateContinueContext], once
    [CreateTensorForHash] has made the request's [tokens]: the cached prefix is
    referenced while unreferenced nodes are evicted to make room for the rest and
    10 more tokens; a request that is new gets the prefix's length.  The result is
    the request, the number of frames needed and whether they are free. *)
Definition GenerateContinueContext_reserve `{Murmur} (now : Z) (tokens : list Z) (ts max_length : Z)
    (request : Prompt) : P (Prompt * Z * bool) :=
  '(prefix_len, gpu_cached_len, node_list) ← RefOnly tokens ts [];
  real_input ← int (input_len request - prefix_len);
  let new := prefill_chunk_len request =? 0 in
  when new (UpdateCnt prefix_len real_input);;
  let request' :=
    if new then mkPrompt (input_len request) prefix_len prefix_len gpu_cached_len else request in
  frames ← context_frame (input_len request) gpu_cached_len max_length;
  free ← gets (fun s => sm_CountFreeFrame (gpu_spans s));
  when (free <? frames) (EvictUnrefered now (i32 frames));;
  UnRef node_list;;
  free' ← gets (fun s => sm_CountFreeFrame (gpu_spans s));
  mret (request', frames, frames <=? free').

(** ** Insertion of a finished request's prefixes *)

(** [layer_cache[layer_idx]->GetCacheVector()[cache_idx]] for all layers. *)
Definition layer_spans (layers : list (option CacheArray)) (cache_idx : Z)
    : option (list span_ptr) :=
  mapM (fun l => a ← l; cache_ a !! Z.to_nat cache_idx) layers.

(** What the loop of [Insert] collects: the request's nodes, the nodes to
    insert later, the nodes to swap to the host, and the victims. *)
Record InsertVecs := mkVecs {
  node_vec : list Z;
  insert_vec : list Z;
  swap_vec : list Z;
  victim_hash_vec : list string;
}.

Definition insert_one (h : string) (ts new_node : Z) (v : InsertVecs) : P InsertVecs :=
  is_cached ← transverse_hash_table h CUDA;
  if is_cached : bool then
    ref_node h ts CUDA;;
    id ← at_ CUDA h;
    mret (mkVecs (node_vec v ++ [id]) (insert_vec v) (swap_vec v) (victim_hash_vec v))
  else
    let nv := node_vec v ++ [new_node] in
    room ← gets (fun s => table_size CUDA s <? u64 (capacity (gpu_union_ s)));
    if room : bool then
      insert_node h new_node CUDA;;
      ref_node h ts CUDA;;
      mret (mkVecs nv (insert_vec v) (swap_vec v) (victim_hash_vec v))
    else
      victim ← FindVictim CUDA;
      if bool_decide (victim = DEFAULT_HASH_STR) then
        mret (mkVecs nv (insert_vec v) (swap_vec v ++ [new_node]) (victim_hash_vec v))
      else
        vid ← at_ CUDA victim;
        evictor_Del CUDA vid;;
        mret (mkVecs nv (insert_vec v ++ [new_node]) (swap_vec v)
                (victim_hash_vec v ++ [victim])).

Fixpoint insert_loop `{Murmur} (tokens : list Z) (ts : Z)
    (layers_k layers_v : list (option CacheArray)) (cache_idx : Z) (lens : list Z)
    (v : InsertVecs) : P InsertVecs :=
  match lens with
  | [] => mret v
  | n :: lens' =>
      let h := hash_tokens (take (Z.to_nat n) tokens) in
      if (length layers_v <? length layers_k)%nat then throw UB else
      match layer_spans layers_k cache_idx,
            layer_spans (take (length layers_k) layers_v) cache_idx with
      | Some k, Some w =>
          new_node ← create_node k w n ts CUDA h;
          set_node_ready new_node;;
          v' ← insert_one h ts new_node v;
          insert_loop tokens ts layers_k layers_v (cache_idx + 1) lens' v'
      | _, _ => throw UB
      end
  end.

Definition Insert `{Murmur} (now : Z) (tokens : list Z) (start_idx ts : Z)
    (layer_cache_k layer_cache_v : list (option CacheArray)) (nodes_in : list Z)
    : P (list Z) :=
  c ← gets config;
  if token_per_span_ c =? 0 then throw UB else
  v ← insert_loop tokens ts layer_cache_k layer_cache_v
        (Z.quot start_idx (token_per_span_ c))
        (span_cuts (token_per_span_ c) start_idx (Z.of_nat (length tokens)))
        (mkVecs nodes_in [] [] []);
  evict_hashes now (victim_hash_vec v);;
  for_each (insert_vec v) (fun id =>
    n ← node id; insert_node (hash n) id CUDA;; ref_node (hash n) ts CUDA);;
  swap_to_cpu_by_nodelist (swap_vec v);;
  mret (node_vec v).

(** The order in which [unordered_map] lists its entries is unspecified; here
    it is the map's. *)
Definition reset_union (d : DeviceType) : P unit :=
  es ← gets (fun s => map_to_list (table d s));
  for_each es (fun '(h, _) => unref_cache_span h d;; free_cache_span h d);;
  modify (fun s => set_union d (mkUnion (capacity (union_of d s)) [] ∅) s).

Definition Reset : P unit :=
  wait_for_async_tasks;;
  reset_union CUDA;;
  reset_union CPU;;
  modify (set_cnt 0 0).

(** An int converted to a float keeps 24 bits, rounded to even. *)
Definition float_of_int (z : Z) : Z :=
  let e := Z.log2 z - 23 in
  if e <=? 0 then z
  else
    let q := z / 2 ^ e in
    let r := z mod 2 ^ e in
    let up := (2 ^ (e - 1) <? r) || ((r =? 2 ^ (e - 1)) && Z.odd q) in
    (if up then q + 1 else q) * 2 ^ e.

(** [prefix_cache_ratio_] is 1.0 and never changed. *)
Definition UpdateCapacity : P unit :=
  c ← gets config;
  if 2 * layer_num_ c =? 0 then throw UB
  else modify (fun s =>
    set_gpu_union (mkUnion
      (float_of_int (sm_CountFrame (gpu_spans s) / (2 * layer_num_ c)))
      (evictor (gpu_union_ s)) (hash_table (gpu_union_ s))) s).

(** ** Filling a request's cache

    The state gains the request's two virtual caches, which draw on the
    manager's GPU spans. *)
Abbreviation SVC := SpannedVirtualCache.t.
Abbreviation W := (M (t * (SVC * SVC))).

Definition on_mgr {A} (m : P A) : W A := zoom fst (fun s w => (s, snd w)) m.
Definition on_k {A} (m : M (S * SVC) A) : W A :=
  zoom (fun w => (gpu_spans (fst w), fst (snd w)))
       (fun sv w => (set_gpu_spans (fst sv) (fst w), (snd sv, snd (snd w)))) m.
Definition on_v {A} (m : M (S * SVC) A) : W A :=
  zoom (fun w => (gpu_spans (fst w), snd (snd w)))
       (fun sv w => (set_gpu_spans (fst sv) (fst w), (fst (snd w), snd sv))) m.

(** [GetLayerCache()[layer_idx]->GetCacheVector().back()] *)
Definition last_span (layer_idx : Z) : M (S * SVC) span_ptr := fun sv =>
  match SpannedVirtualCache.layer_cache_ (snd sv) !! Z.to_nat layer_idx with
  | Some (Some a) =>
      match last (cache_ a) with Some p => (Ok p, sv) | None => (Err UB, sv) end
  | _ => (Err UB, sv)
  end.

Fixpoint take_spans (layers : list Z) (span : Z) : W (list (span_ptr * span_ptr)) :=
  match layers with
  | [] => mret []
  | i :: layers' =>
      on_k (SpannedVirtualCache.GetCache i span);;
      on_v (SpannedVirtualCache.GetCache i span);;
      k ← on_k (last_span i);
      v ← on_v (last_span i);
      rest ← take_spans layers' span;
      mret ((k, v) :: rest)
  end.

Definition alloc_gpu_node (plen ts : Z) (h : string) : W Z :=
  c ← on_mgr (gets config);
  kv ← take_spans (seqZ 0 (layer_num_ c)) (token_per_span_ c);
  on_mgr (create_node (fst <$> kv) (snd <$> kv) plen ts CUDA h).

Definition fill_from_node (id : Z) : W unit :=
  n ← on_mgr (node id);
  on_k (SpannedVirtualCache.FillCache (k_cache n));;
  on_v (SpannedVirtualCache.FillCache (v_cache n)).

(** The nodes are matched by position with the slices of the two lists. *)
Definition swap_nodelist_to_gpu_impl (cpu_nodes gpu_nodes : list Z) : P unit :=
  match cpu_nodes with
  | [] => mret tt
  | first :: _ =>
      nd ← node first; c ← gets config;
      let num := cache_num nd in
      let span_num := Z.of_nat (length cpu_nodes) * num * 2 in
      if max_span_num c <? span_num then AS_THROW ALLSPARK_RUNTIME_ERROR else
      if (length gpu_nodes <? length cpu_nodes)%nat then throw UB else
      let gpu_nodes := take (length cpu_nodes) gpu_nodes in
      src ← all_addrs cpu_data num cpu_nodes;
      dst ← all_addrs gpu_data num gpu_nodes;
      block ← QueryBlock;
      size ← gets (fun s => i32 (sm_GetSpanSize (gpu_spans s)));
      if cpu_workspace_size c <? span_num * size then
        return_block block;; AS_THROW ALLSPARK_RUNTIME_ERROR else
      step ← copy_step (Z.of_nat (length src)) size;
      mem ← gets cpu_mem;
      data ← lift_res (staged (length src) (Z.to_nat step) ((fun a => mem !! a) <$> src));
      modify (fun s => set_mem (write_all (gpu_mem s) dst data) (cpu_mem s) s);;
      for_each gpu_nodes (fun id =>
        n ← node id; insert_node (hash n) id CUDA;; set_node_ready id);;
      return_block block
  end.

Fixpoint collect_gpu (cpu_node_list : list Z) : W (list Z) :=
  match cpu_node_list with
  | [] => mret []
  | src :: l' =>
      n ← on_mgr (node src);
      is_cached ← on_mgr (transverse_hash_table (hash n) CUDA);
      if is_cached : bool then
        on_mgr (update_node_ts (hash n) (last_access_time n) CUDA);;
        id ← on_mgr (at_ CUDA (hash n));
        fill_from_node id;;
        collect_gpu l'
      else
        id ← alloc_gpu_node (prefix_len n) (last_access_time n) (hash n);
        rest ← collect_gpu l';
        mret (id :: rest)
  end.
Definition swap_to_gpu_by_nodelist (cpu_node_list : list Z) : W (list Z) :=
  new ← collect_gpu cpu_node_list;
  on_mgr (in_slices cpu_node_list new swap_nodelist_to_gpu_impl);;
  mret new.

(** The loop of [RefFill]: the cached length, the GPU nodes referenced and
    filled so far, and the host nodes to bring back. *)
Fixpoint fill_loop `{Murmur} (tokens : list Z) (ts : Z) (lens : list Z) (plen : Z)
    (gpu_vec cpu_vec : list Z) : W (Z * list Z * list Z) :=
  match lens with
  | [] => mret (plen, gpu_vec, cpu_vec)
  | n :: lens' =>
      c ← on_mgr (gets config);
      if Z.of_nat (length tokens) <? n then throw UB else
      let h := hash_tokens (take (Z.to_nat n) tokens) in
      is_cached ← on_mgr (transverse_hash_table h CUDA);
      if is_cached : bool then
        on_mgr (ref_node h ts CUDA);;
        on_mgr (update_node_ts h ts CPU);;
        id ← on_mgr (at_ CUDA h);
        fill_from_node id;;
        fill_loop tokens ts lens' (plen + token_per_span_ c) (gpu_vec ++ [id]) cpu_vec
      else
        is_cached_cpu ← on_mgr (transverse_hash_table h CPU);
        if is_cached_cpu : bool then
          id ← on_mgr (at_ CPU h);
          on_mgr (wait_until (check_node_ready id));;
          fill_loop tokens ts lens' (plen + token_per_span_ c) gpu_vec (cpu_vec ++ [id])
        else mret (plen, gpu_vec, cpu_vec)
  end.

(** Returns the prefix length, the referenced nodes and the new tokens. *)
Definition RefFill `{Murmur} (now : Z) (tokens tokens_for_hash : list Z) (ts : Z)
    : W (Z * list Z * list Z) :=
  c ← on_mgr (gets config);
  '(plen, gpu_vec, cpu_vec) ←
    fill_loop tokens_for_hash ts
      (span_cuts (token_per_span_ c) 0 (Z.of_nat (length tokens))) 0 [] [];
  let new_tokens n := drop (Z.to_nat n) tokens in
  if bool_decide (cpu_vec = []) then mret (plen, gpu_vec, new_tokens plen)
  else
    let cpu_cached_len := Z.of_nat (length cpu_vec) * token_per_span_ c in
    thre ← on_mgr (gets seq_len_thre_);
    if cpu_cached_len <? thre then
      mret (plen - cpu_cached_len, gpu_vec, new_tokens (plen - cpu_cached_len))
    else
      exceed_num ← on_mgr (gets (fun s =>
        i32 (table_size CUDA s + Z.of_nat (length cpu_vec) - capacity (gpu_union_ s))));
      when (0 <? exceed_num) (on_mgr (evict_unrefered_by_num now exceed_num));;
      new ← swap_to_gpu_by_nodelist cpu_vec;
      for_each new (fun id =>
        n ← on_mgr (node id);
        on_mgr (ref_node (hash n) ts CUDA);;
        on_mgr (update_node_ts (hash n) ts CPU));;
      mret (plen, gpu_vec ++ new, new_tokens plen).
End manager.

(** * Sizing of the host cache *)

(** The memory of the host caches of all workers, the workspaces included,
    stays within the share of the host's memory it was sized for, and the
    table holds no more nodes than there are frames for. *)
Theorem init_cpu_union_within_budget bytes nranks max_length max_batch span layers size
    frames cap :
  0 < nranks -> 0 < size -> 0 < layers < 2 ^ 31 -> 0 <= bytes ->
  let ws := CalcWorkspaceSize max_length max_batch span (2 * layers) size in
  ws * nranks < 2 ^ 64 ->
  init_cpu_union true bytes nranks max_length max_batch span layers size = Ok (frames, cap) ->
  frames < 2 ^ 31 ->
  nranks * (frames * size + ws) <= bytes /\ 0 <= cap /\ cap * (2 * layers) <= frames.
Proof.
  intros Hn Hs Hl Hb ws Hws. unfold init_cpu_union. simpl negb. cbv iota.
  rewrite (u64_small (2 * layers)) by lia. fold ws.
  pose proof (u64_range (Z.quot (max_length + span - 1) span * max_batch * (2 * layers) * size)) as Hr.
  fold (CalcWorkspaceSize max_length max_batch span (2 * layers) size) in Hr. fold ws in Hr.
  rewrite (u64_small (ws * nranks)) by nia.
  destruct (bytes <? ws * nranks) eqn:E; [done|].
  destruct ((nranks =? 0) || (size =? 0) || (2 * layers =? 0)) eqn:E2; [done|].
  intros [= Hf Hc] Hlt. assert (0 <= frames).
  { rewrite <- Hf. apply Z.div_pos; [|lia]. apply Z.div_pos; lia. }
  assert (Hq : 0 <= frames / (2 * layers) <= frames).
  { split; [apply Z.div_pos; lia|]. apply Z.div_le_upper_bound; nia. }
  rewrite Hf in Hc. rewrite i32_small in Hc by lia. subst cap. split_and!; [|lia|].
  - assert (frames * size <= (bytes - ws * nranks) / nranks).
    { rewrite <- Hf. rewrite Z.mul_comm. apply Z.mul_div_le. lia. }
    assert (nranks * ((bytes - ws * nranks) / nranks) <= bytes - ws * nranks)
      by (apply Z.mul_div_le; lia). nia.
  - rewrite Z.mul_comm. apply Z.mul_div_le. lia.
Qed.

Lemma init_cpu_union_within_budget_witness :
  init_cpu_union true 100000000 2 2048 4 32 2 1024 = Ok (47804, 11951) /\
  2 * (47804 * 1024 + CalcWorkspaceSize 2048 4 32 4 1024) <= 100000000 /\
  0 <= 11951 /\ 11951 * 4 <= 47804.
Proof.
  split; [vm_compute; reflexivity|].
  refine (init_cpu_union_within_budget 100000000 2 2048 4 32 2 1024 47804 11951 _ _ _ _ _ _ _);
    try lia; vm_compute; reflexivity.
Defined.
