(* ===== verification/PrefixCacheProofs.v ===== *)
(** Correctness of the prefix cache: the evictor's order, the invariant of the
    GPU side, and the effect of referencing, dereferencing and evicting. *)
From stdpp Require Import base list gmap strings fin_maps sorting pretty.
From S2P Require Import Prelude FrameManager SpanManager VirtualCache PrefixCache.

(** * The order of the evictor *)
Lemma string_ltb_spec a b : String.ltb a b = true <-> String.le a b /\ a <> b.
Proof.
  unfold String.ltb, String.le, String.leb. destruct (String.compare a b) eqn:E; simpl.
  - apply String.compare_eq_iff in E. split; [done|]. by intros [_ ?].
  - split; [|done]. intros _. split; [done|]. intros ->.
    pose proof (String.compare_antisym b b) as H. by rewrite E in H.
  - split; [done|]. by intros [? _].
Qed.

Lemma string_ltb_trans a b c :
  String.ltb a b = true -> String.ltb b c = true -> String.ltb a c = true.
Proof.
  rewrite !string_ltb_spec. intros [H1 N1] [H2 N2]. split; [by etrans|].
  intros ->. apply N2. by apply (anti_symm String.le).
Qed.

Lemma string_ltb_irrefl a : String.ltb a a = false.
Proof. apply not_true_is_false. rewrite string_ltb_spec. by intros [_ ?]. Qed.

Lemma string_ltb_total a b : String.ltb a b = false -> String.ltb b a = false -> a = b.
Proof.
  intros H1 H2. destruct (decide (a = b)) as [|Hne]; [done|].
  destruct (total String.le a b) as [H|H].
  - assert (String.ltb a b = true) by by apply string_ltb_spec. congruence.
  - assert (String.ltb b a = true) by (apply string_ltb_spec; auto). congruence.
Qed.

Lemma node_lt_irrefl x : node_lt x x = false.
Proof. unfold node_lt. rewrite !Z.eqb_refl. simpl. apply string_ltb_irrefl. Qed.

Lemma node_lt_trans x y z : node_lt x y = true -> node_lt y z = true -> node_lt x z = true.
Proof.
  unfold node_lt.
  destruct (last_access_time x =? last_access_time y) eqn:E1,
    (last_access_time y =? last_access_time z) eqn:E2,
    (last_access_time x =? last_access_time z) eqn:E3; simpl; try lia.
  destruct (prefix_len x =? prefix_len y) eqn:F1, (prefix_len y =? prefix_len z) eqn:F2,
    (prefix_len x =? prefix_len z) eqn:F3; simpl; try lia.
  apply string_ltb_trans.
Qed.

(** Nodes that neither precedes have the same hash. *)
Lemma node_lt_total x y : node_lt x y = false -> node_lt y x = false -> hash x = hash y.
Proof.
  unfold node_lt.
  destruct (last_access_time x =? last_access_time y) eqn:E1,
    (last_access_time y =? last_access_time x) eqn:E2; simpl; try lia.
  destruct (prefix_len x =? prefix_len y) eqn:F1, (prefix_len y =? prefix_len x) eqn:F2;
    simpl; try lia.
  apply string_ltb_total.
Qed.

Lemma node_lt_asym x y : node_lt x y = true -> node_lt y x = false.
Proof.
  intros H. apply not_true_is_false. intros H'.
  pose proof (node_lt_trans _ _ _ H H') as Hx. by rewrite node_lt_irrefl in Hx.
Qed.

(** Sets of nodes with distinct hashes. *)
Section order.
Variable nds : gmap Z PrefixNode.

Definition hash_of (id : Z) : option string := hash <$> nds !! id.
Definition distinct (l : list Z) : Prop :=
  forall a b, a ∈ l -> b ∈ l -> is_Some (nds !! a) /\ (hash_of a = hash_of b -> a = b).

Lemma id_lt_trans a b c :
  id_lt nds a b = true -> id_lt nds b c = true -> id_lt nds a c = true.
Proof.
  unfold id_lt. destruct (nds !! a), (nds !! b), (nds !! c); try done. apply node_lt_trans.
Qed.

Lemma id_lt_irrefl a : id_lt nds a a = false.
Proof. unfold id_lt. destruct (nds !! a); [apply node_lt_irrefl|done]. Qed.

Lemma id_lt_asym a b : id_lt nds a b = true -> id_lt nds b a = false.
Proof. unfold id_lt. destruct (nds !! a), (nds !! b); try done. apply node_lt_asym. Qed.

Lemma id_lt_total l a b :
  distinct l -> a ∈ l -> b ∈ l -> id_lt nds a b = false -> id_lt nds b a = false -> a = b.
Proof.
  intros Hd Ha Hb H1 H2. destruct (Hd a b Ha Hb) as [[x Hx] Heq].
  destruct (Hd b a Hb Ha) as [[y Hy] _]. apply Heq. unfold hash_of. rewrite Hx, Hy.
  simpl. f_equal. unfold id_lt in *. rewrite Hx, Hy in *. by apply node_lt_total.
Qed.

Lemma in_order_cons a l :
  in_order nds (a :: l) = true <->
  (forall b, b ∈ l -> id_lt nds a b = true) /\ in_order nds l = true.
Proof.
  revert a. induction l as [|b l IH]; intros a.
  { split; [|done]. intros _. split; [|done]. intros b Hb. by apply elem_of_nil in Hb. }
  change (in_order nds (a :: b :: l)) with (id_lt nds a b && in_order nds (b :: l)).
  rewrite andb_true_iff. split.
  - intros [H1 H2]. split; [|done]. intros c [->|Hc]%elem_of_cons; [done|].
    apply IH in H2 as [H2 _]. eapply id_lt_trans; eauto.
  - intros [H1 H2]. split; [|done]. apply H1. by left.
Qed.

Lemma in_order_NoDup l : in_order nds l = true -> NoDup l.
Proof.
  induction l as [|a l IH]; [constructor|]. rewrite in_order_cons. intros [H1 H2].
  apply NoDup_cons. split; [|auto]. intros Ha. specialize (H1 a Ha).
  by rewrite id_lt_irrefl in H1.
Qed.

Lemma set_insert_spec x l :
  distinct (x :: l) -> in_order nds l = true -> (x ∉ l) ->
  in_order nds (set_insert nds x l) = true /\
  (forall y, y ∈ set_insert nds x l <-> y = x \/ y ∈ l).
Proof.
  induction l as [|a l IH]; intros Hd Ho Hx.
  { split; [done|]. intros y. simpl. rewrite list_elem_of_singleton, elem_of_nil. tauto. }
  assert (Hd' : distinct (x :: l)).
  { intros u v Hu Hv. apply Hd; rewrite !elem_of_cons in *; tauto. }
  apply in_order_cons in Ho as [Ha Ho]. apply not_elem_of_cons in Hx as [Hxa Hx].
  destruct (IH Hd' Ho Hx) as [IH1 IH2]. simpl. destruct (id_lt nds a x) eqn:E1.
  - split.
    + apply in_order_cons. split; [|done]. intros b [->|Hb]%IH2; [done|]. by apply Ha.
    + intros y. rewrite !elem_of_cons, IH2. tauto.
  - destruct (id_lt nds x a) eqn:E2.
    + split; [|intros y; by rewrite !elem_of_cons].
      apply in_order_cons. split; [|by apply in_order_cons].
      intros b [->|Hb]%elem_of_cons; [done|]. eapply id_lt_trans; [exact E2|]. by apply Ha.
    + exfalso. apply Hxa. symmetry. eapply (id_lt_total (x :: a :: l)); eauto;
        rewrite !elem_of_cons; auto.
Qed.

Lemma set_erase_spec x l :
  distinct (x :: l) -> in_order nds l = true ->
  in_order nds (set_erase nds x l) = true /\
  (forall y, y ∈ set_erase nds x l <-> y ∈ l /\ y <> x).
Proof.
  induction l as [|a l IH]; intros Hd Ho.
  { split; [done|]. intros y. simpl. rewrite elem_of_nil. tauto. }
  assert (Hd' : distinct (x :: l)).
  { intros u v Hu Hv. apply Hd; rewrite !elem_of_cons in *; tauto. }
  pose proof Ho as Ho0. apply in_order_cons in Ho as [Ha Ho].
  destruct (IH Hd' Ho) as [IH1 IH2]. simpl. destruct (id_lt nds a x) eqn:E1.
  - split.
    + apply in_order_cons. split; [|done]. intros b [Hb _]%IH2. by apply Ha.
    + intros y. rewrite !elem_of_cons, IH2. split; [|tauto].
      intros [->|?]; [|tauto]. split; [by left|]. intros ->. by rewrite id_lt_irrefl in E1.
  - destruct (id_lt nds x a) eqn:E2.
    + split; [done|]. intros y. split; [|tauto]. intros Hy. split; [done|]. intros ->.
      apply elem_of_cons in Hy as [->|Hy]; [by rewrite id_lt_irrefl in E2|].
      specialize (Ha _ Hy). congruence.
    + assert (a = x) as ->.
      { eapply (id_lt_total (x :: a :: l)); eauto; rewrite !elem_of_cons; auto. }
      split; [done|]. intros y. rewrite elem_of_cons. split; [|tauto].
      intros Hy. split; [by right|]. intros ->. specialize (Ha _ Hy).
      by rewrite id_lt_irrefl in Ha.
Qed.
End order.

(** * The spans of a node *)
Definition interleave (k v : list span_ptr) : list span_ptr :=
  mjoin (zip_with (fun a b => [a; b]) k v).

Definition span_ids (n : PrefixNode) : list Z :=
  omap id (interleave (k_cache n) (v_cache n)).

(** As many V as K spans, none of them null. *)
Definition node_ok (n : PrefixNode) : Prop :=
  length (v_cache n) = length (k_cache n) /\
  cache_num n = Z.of_nat (length (k_cache n)) /\
  interleave (k_cache n) (v_cache n) = Some <$> span_ids n.

Lemma interleave_lookup k : forall v i,
  length v = length k -> (i < length k)%nat ->
  k !! i = interleave k v !! (2 * i)%nat /\ v !! i = interleave k v !! (2 * i + 1)%nat.
Proof.
  induction k as [|a k IH]; intros [|b v] i Hl Hi; simpl in *; try lia.
  destruct i as [|i]; [done|]. destruct (IH v i) as [H1 H2]; [lia|lia|].
  replace (Datatypes.S i + (Datatypes.S i + 0))%nat
    with (Datatypes.S (Datatypes.S (i + (i + 0)))) by lia.
  change (interleave (a :: k) (b :: v)) with (a :: b :: interleave k v).
  exact (conj H1 H2).
Qed.

Lemma length_interleave k : forall v,
  length v = length k -> length (interleave k v) = (2 * length k)%nat.
Proof.
  induction k as [|a k IH]; intros [|b v] Hl; simpl in Hl; try lia.
  - done.
  - change (interleave (a :: k) (b :: v)) with (a :: b :: interleave k v).
    simpl. rewrite IH by lia. lia.
Qed.

Lemma node_ok_length n : node_ok n -> Z.of_nat (length (span_ids n)) = 2 * cache_num n.
Proof.
  intros (Hl & Hn & Hi). apply (f_equal length) in Hi.
  rewrite length_fmap, length_interleave in Hi by done. lia.
Qed.

Lemma node_ok_lookup n i :
  node_ok n -> (i < length (k_cache n))%nat ->
  exists a b, k_cache n !! i = Some (Some a) /\ v_cache n !! i = Some (Some b) /\
    span_ids n !! (2 * i)%nat = Some a /\ span_ids n !! (2 * i + 1)%nat = Some b.
Proof.
  intros Hok Hi. pose proof (node_ok_length n Hok) as Hlen. destruct Hok as (Hl & Hn & Hint).
  destruct (interleave_lookup (k_cache n) (v_cache n) i Hl Hi) as [-> ->].
  rewrite Hint, !list_lookup_fmap.
  destruct (lookup_lt_is_Some_2 (span_ids n) (2 * i)) as [a ->]; [lia|].
  destruct (lookup_lt_is_Some_2 (span_ids n) (2 * i + 1)) as [b ->]; [lia|]. eauto 10.
Qed.

(** * The invariant of the GPU side *)
Section proofs.
Context {S C : Type} `{HL : SpanManagerLaws S} `{HC : SpanManager C}.
Implicit Types (s : t (S := S) (C := C)) (live : list Z).

Lemma each_span_spec s h id n (f : span_ptr -> M t unit) (I : list Z -> t -> Prop) E :
  table CUDA s !! h = Some id -> nodes s !! id = Some n -> node_ok n ->
  I [] s ->
  (forall pre x rest s', span_ids n = pre ++ x :: rest -> I pre s' ->
     wp (f (Some x)) (fun _ => I (pre ++ [x])) E s') ->
  wp (each_span h CUDA f) (fun _ => I (span_ids n)) E s.
Proof.
  intros Ht Hn Hok H0 Hstep. unfold each_span, transverse_hash_table.
  wp_step. wp_step. rewrite bool_decide_true by by eexists.
  wp_step. unfold wp at 1, at_. rewrite Ht.
  wp_step. unfold wp at 1, node. rewrite Hn.
  pose proof (node_ok_length n Hok) as Hlen. pose proof Hok as (_ & Hnum & _).
  eapply wp_mono; [apply (wp_for_each (fun pre s' => I (take (2 * length pre) (span_ids n)) s'))| |done].
  - done.
  - intros pre x rest s' Heq HI.
    assert (x = Z.of_nat (length pre) /\ (length pre < length (k_cache n))%nat) as [-> Hlt].
    { assert (Hx : seqZ 0 (cache_num n) !! length pre = Some x).
      { rewrite Heq, lookup_app_r, Nat.sub_diag by lia. done. }
      apply lookup_seqZ in Hx. lia. }
    destruct (node_ok_lookup n (length pre) Hok Hlt) as (a & b & Ha & Hb & Ia & Ib).
    unfold nth_ptr. rewrite Nat2Z.id, Ha, Hb.
    assert (Ta : take (2 * length pre) (span_ids n) ++ [a] = take (2 * length pre + 1) (span_ids n)).
    { rewrite Nat.add_1_r. symmetry. by apply take_S_r. }
    assert (Tb : take (2 * length pre + 1) (span_ids n) ++ [b]
                 = take (2 * length (pre ++ [Z.of_nat (length pre)])) (span_ids n)).
    { rewrite length_app. simpl length.
      replace (2 * (length pre + 1))%nat with (Datatypes.S (2 * length pre + 1)) by lia.
      symmetry. by apply take_S_r. }
    wp_step. wp_step. wp_step.
    eapply wp_mono; [apply (Hstep (take (2 * length pre) (span_ids n)) a
      (drop (Datatypes.S (2 * length pre)) (span_ids n))); [|exact HI]| |done].
    { symmetry. by apply take_drop_middle. }
    rewrite Ta. intros _ s1 H1. wp_step. wp_step.
    eapply wp_mono; [apply (Hstep (take (2 * length pre + 1) (span_ids n)) b
      (drop (Datatypes.S (2 * length pre + 1)) (span_ids n))); [|exact H1]| |done].
    { symmetry. by apply take_drop_middle. }
    by rewrite Tb.
  - intros u s' HI. simpl in HI. rewrite take_ge in HI; [done|]. rewrite length_seqZ. lia.
Qed.

(** What most operations leave alone. *)
Definition keeps s s' : Prop :=
  config s' = config s /\ table CUDA s' = table CUDA s /\ cpu_union_ s' = cpu_union_ s /\
  capacity (gpu_union_ s') = capacity (gpu_union_ s) /\
  sm_CountFreeFrame (gpu_spans s') = sm_CountFreeFrame (gpu_spans s) /\
  (forall x, span_Data (gpu_spans s') (Some x) = span_Data (gpu_spans s) (Some x)).

Lemma keeps_refl s : keeps s s.
Proof. done. Qed.

Lemma keeps_trans s1 s2 s3 : keeps s1 s2 -> keeps s2 s3 -> keeps s1 s3.
Proof.
  intros (A1 & A2 & A3 & A4 & A5 & A6) (B1 & B2 & B3 & B4 & B5 & B6).
  split_and!; try congruence.
Qed.

(** [RefCacheSpan] or [UnrefCacheSpan] on all spans of a node. *)
Lemma mark_spec b s live h id n :
  table CUDA s !! h = Some id -> nodes s !! id = Some n -> node_ok n ->
  sm_inv (gpu_spans s) live -> (forall x, x ∈ span_ids n -> x ∈ live) ->
  wp (each_span h CUDA (SetExtraRef CUDA b))
     (fun _ s' => exists g, s' = set_gpu_spans g s /\ sm_inv g live /\ keeps s s' /\
        (forall x, x ∈ span_ids n -> HasExtraRef g x = b) /\
        (forall x, (x ∉ span_ids n) -> sm_span g x = sm_span (gpu_spans s) x))
     (fun _ _ => False) s.
Proof.
  intros Ht Hn Hok HI Hlive.
  refine (wp_mono _ _ _ _ _ _ (each_span_spec s h id n (SetExtraRef CUDA b)
    (fun pre s' => exists g, s' = set_gpu_spans g s /\ sm_inv g live /\ keeps s s' /\
        (forall x, x ∈ pre -> HasExtraRef g x = b) /\
        (forall x, (x ∉ pre) -> sm_span g x = sm_span (gpu_spans s) x)) _ Ht Hn Hok _ _)
    (fun _ _ Hx => Hx) (fun _ _ Hx => Hx)).
  - exists (gpu_spans s). split; [by destruct s|]. split; [done|]. split; [done|].
    split; [|done]. intros x Hx. by apply elem_of_nil in Hx.
  - intros pre x rest s' Heq (g & -> & Hg & Hk & Hm & Hu). simpl.
    assert (Hx : x ∈ live) by (apply Hlive; rewrite Heq, elem_of_app; right; left).
    apply wp_zoom. simpl. eapply wp_mono; [by apply sm_SetExtraRef_spec| |done].
    intros _ g' (Hg' & Hb & Hc & Hd & Ho). simpl. exists g'. split; [done|]. split; [done|].
    split; [|split].
    + apply (keeps_trans _ (set_gpu_spans g s)); [done|]. split_and!; simpl; auto.
    + intros y Hy. destruct (decide (y = x)) as [->|Hne]; [done|].
      apply elem_of_app in Hy as [Hy|Hy%list_elem_of_singleton]; [|done].
      unfold HasExtraRef. rewrite Ho by done. by apply Hm.
    + intros y [Hy1 Hy2]%not_elem_of_app. rewrite Ho; [by apply Hu|].
      intros ->. by apply Hy2, list_elem_of_singleton.
Qed.

(** [ReleaseSpan] on all spans of a node whose marks are cleared. *)
Lemma release_all_spec s live live' h id n :
  table CUDA s !! h = Some id -> nodes s !! id = Some n -> node_ok n ->
  sm_inv (gpu_spans s) live -> Permutation live (span_ids n ++ live') ->
  (forall x, x ∈ span_ids n -> HasExtraRef (gpu_spans s) x = false) ->
  wp (each_span h CUDA (ReleaseSpan CUDA))
     (fun _ s' => exists g, s' = set_gpu_spans g s /\ sm_inv g live' /\
        (forall x, sm_span g x = sm_span (gpu_spans s) x) /\
        sm_CountFreeFrame g = sm_CountFreeFrame (gpu_spans s) + Z.of_nat (length (span_ids n)))
     (fun e _ => not_taken_back e) s.
Proof.
  intros Ht Hn Hok HI Hp Hm.
  refine (wp_mono _ _ _ _ _ _ (each_span_spec s h id n (ReleaseSpan CUDA)
    (fun pre s' => exists g, s' = set_gpu_spans g s /\
        sm_inv g (drop (length pre) (span_ids n) ++ live') /\
        (forall x, sm_span g x = sm_span (gpu_spans s) x) /\
        sm_CountFreeFrame g = sm_CountFreeFrame (gpu_spans s) + Z.of_nat (length pre))
    _ Ht Hn Hok _ _) _ (fun _ _ Hx => Hx)).
  - exists (gpu_spans s). split_and!; [by destruct s| |done|simpl; lia].
    simpl. rewrite drop_0. by eapply sm_inv_perm.
  - intros pre x rest s' Heq (g & -> & Hg & Hs & Hc). simpl. apply wp_zoom. simpl.
    assert (Hd : drop (length pre) (span_ids n) = x :: rest).
    { by rewrite Heq, drop_app_length. }
    rewrite Hd in Hg. simpl in Hg.
    eapply wp_mono; [apply (sm_ReleaseSpan_spec g (rest ++ live') x Hg)| |done].
    { unfold HasExtraRef. rewrite Hs. apply Hm. rewrite Heq, elem_of_app. right. left. }
    intros _ g' (Hs' & Hg' & Hc'). simpl. exists g'. split; [done|].
    rewrite length_app. simpl length. split_and!.
    + by rewrite <- drop_drop, Hd.
    + intros y. by rewrite Hs', Hs.
    + lia.
  - intros _ s' (g & -> & Hg & Hs & Hc). exists g. split; [done|].
    by rewrite drop_all in Hg.
Qed.

(** The manager without a host cache, as it is when CPU_CACHE_RATIO is unset:
    every table entry is a node under its own hash, holding a K and a V span
    per layer, which are live, marked, and in no other node; the evictor holds
    the entries without a reference, in order. *)
Record wf s live : Prop := mk_wf {
  wf_cpu : capacity (cpu_union_ s) <= 0 /\ hash_table (cpu_union_ s) = ∅;
  wf_layers : 0 < layer_num_ (config s);
  wf_inv : sm_inv (gpu_spans s) live;
  wf_node h id : table CUDA s !! h = Some id ->
    exists n, nodes s !! id = Some n /\ hash n = h /\ 0 <= ref_cnt n /\ node_ok n /\
      cache_num n = layer_num_ (config s) /\ NoDup (span_ids n) /\
      (forall x, x ∈ span_ids n -> x ∈ live /\ HasExtraRef (gpu_spans s) x = true);
  wf_disjoint h1 h2 id1 id2 n1 n2 x :
    table CUDA s !! h1 = Some id1 -> table CUDA s !! h2 = Some id2 ->
    nodes s !! id1 = Some n1 -> nodes s !! id2 = Some n2 ->
    x ∈ span_ids n1 -> x ∈ span_ids n2 -> h1 = h2;
  wf_order : in_order (nodes s) (evictor (gpu_union_ s)) = true;
  wf_evictor id : id ∈ evictor (gpu_union_ s) <->
    exists h n, table CUDA s !! h = Some id /\ nodes s !! id = Some n /\ ref_cnt n = 0;
  wf_default : table CUDA s !! DEFAULT_HASH_STR = None;
}.

Lemma wf_table_inj s live h1 h2 id :
  wf s live -> table CUDA s !! h1 = Some id -> table CUDA s !! h2 = Some id -> h1 = h2.
Proof.
  intros Hwf H1 H2. destruct (wf_node _ _ Hwf _ _ H1) as (n & Hn & <- & _).
  destruct (wf_node _ _ Hwf _ _ H2) as (n' & Hn' & <- & _). congruence.
Qed.

Lemma wf_distinct s live l :
  wf s live -> (forall id, id ∈ l -> exists h, table CUDA s !! h = Some id) ->
  distinct (nodes s) l.
Proof.
  intros Hwf Hl a b Ha Hb. destruct (Hl a Ha) as [h1 H1], (Hl b Hb) as [h2 H2].
  destruct (wf_node _ _ Hwf _ _ H1) as (n1 & N1 & E1 & _).
  destruct (wf_node _ _ Hwf _ _ H2) as (n2 & N2 & E2 & _).
  split; [by eexists|]. unfold hash_of. rewrite N1, N2. simpl. intros ?. simplify_eq.
  congruence.
Qed.

Lemma wf_evictor_table s live id :
  wf s live -> id ∈ evictor (gpu_union_ s) -> exists h, table CUDA s !! h = Some id.
Proof. intros Hwf Hid. apply (wf_evictor _ _ Hwf) in Hid as (h & _ & ? & _). eauto. Qed.

(** A node that is not in the set may change without disturbing its order. *)
Lemma in_order_update nds id n l :
  (id ∉ l) -> in_order (<[id := n]> nds) l = in_order nds l.
Proof.
  intros Hid. induction l as [|a l IH]; [done|].
  apply not_elem_of_cons in Hid as [Ha Hid]. specialize (IH Hid).
  destruct l as [|b l]; [done|]. apply not_elem_of_cons in Hid as [Hb _].
  change (id_lt (<[id := n]> nds) a b && in_order (<[id := n]> nds) (b :: l) =
          id_lt nds a b && in_order nds (b :: l)).
  rewrite IH. unfold id_lt. by rewrite !lookup_insert_ne by congruence.
Qed.

(** The same node apart from its reference count and its time. *)
Definition same_node (n n' : PrefixNode) : Prop :=
  k_cache n' = k_cache n /\ v_cache n' = v_cache n /\ cache_num n' = cache_num n /\
  hash n' = hash n.

Lemma same_node_ids n n' : same_node n n' -> span_ids n' = span_ids n.
Proof. intros (Hk & Hv & _). unfold span_ids. by rewrite Hk, Hv. Qed.

Lemma same_node_ok n n' : same_node n n' -> node_ok n -> node_ok n'.
Proof.
  intros Hs. pose proof (same_node_ids _ _ Hs) as Hi. destruct Hs as (Hk & Hv & Hc & _).
  unfold node_ok. by rewrite Hi, Hk, Hv, Hc.
Qed.

Lemma distinct_update nds id n n' l :
  nds !! id = Some n -> hash n' = hash n -> distinct nds l -> distinct (<[id := n']> nds) l.
Proof.
  intros Hn Hh Hd a b Ha Hb. destruct (Hd a b Ha Hb) as [[x Hx] Heq].
  assert (Hho : forall i, hash_of (<[id := n']> nds) i = hash_of nds i).
  { intros i. unfold hash_of. destruct (decide (i = id)) as [->|Hne].
    - rewrite lookup_insert_eq, Hn. simpl. by f_equal.
    - by rewrite lookup_insert_ne. }
  rewrite !Hho. split; [|done]. destruct (decide (a = id)) as [->|Hne].
  - rewrite lookup_insert_eq. by eexists.
  - rewrite lookup_insert_ne by done. by eexists.
Qed.

(** A table entry's counters, the evictor and the marks change together. *)
Definition with_evictor (ev : list Z) s : t :=
  set_gpu_union (mkUnion (capacity (gpu_union_ s)) ev (hash_table (gpu_union_ s))) s.

Lemma wf_update s live h id n n' g ev :
  wf s live -> table CUDA s !! h = Some id -> nodes s !! id = Some n ->
  same_node n n' -> 0 <= ref_cnt n' ->
  sm_inv g live ->
  (forall x, HasExtraRef (gpu_spans s) x = true -> HasExtraRef g x = true) ->
  in_order (<[id := n']> (nodes s)) ev = true ->
  (forall j, j ∈ ev <-> (j <> id /\ j ∈ evictor (gpu_union_ s)) \/ (j = id /\ ref_cnt n' = 0)) ->
  wf (with_evictor ev (set_nodes <[id := n']> (set_gpu_spans g s))) live.
Proof.
  intros Hwf Ht Hn Hs Hr Hg Hm Ho He. pose proof (same_node_ids _ _ Hs) as Hids.
  split; [apply Hwf|apply Hwf|done|..].
  - intros h' id' Ht'. simpl. destruct (wf_node _ _ Hwf _ _ Ht') as (m & Hmm & Hh & H0 & Hok & Hc & Hnd & Hx).
    destruct (decide (id' = id)) as [->|Hne].
    + assert (m = n) as -> by congruence. exists n'. rewrite lookup_insert_eq, Hids.
      destruct (same_node_ok _ _ Hs Hok). pose proof Hs as (_ & _ & Hcc & Hhh).
      split_and!; auto; try congruence. { by eapply same_node_ok. }
      intros x Hxx. destruct (Hx x Hxx). auto.
    + exists m. rewrite lookup_insert_ne by done. split_and!; auto.
      intros x Hxx. destruct (Hx x Hxx). auto.
  - intros h1 h2 id1 id2 n1 n2 x T1 T2 N1 N2 X1 X2. simpl in N1, N2.
    assert (Hold : forall i m, <[id:=n']> (nodes s) !! i = Some m ->
      exists m', nodes s !! i = Some m' /\ span_ids m' = span_ids m).
    { intros i m. rewrite lookup_insert_Some. intros [[<- <-]|[_ ?]]; eauto. }
    apply Hold in N1 as (m1 & N1 & E1). apply Hold in N2 as (m2 & N2 & E2).
    rewrite <- E1 in X1. rewrite <- E2 in X2. by eapply (wf_disjoint _ _ Hwf h1 h2).
  - done.
  - intros j. simpl. rewrite He, (wf_evictor _ _ Hwf). split.
    + intros [[Hne (h' & m & T & N & R)]|[-> R]].
      * exists h', m. by rewrite lookup_insert_ne.
      * exists h, n'. by rewrite lookup_insert_eq.
    + intros (h' & m & T & N & R). apply lookup_insert_Some in N as [[<- <-]|[Hne N]].
      * by right.
      * left. split; [done|]. eauto.
  - apply Hwf.
Qed.

(** The nodes after an operation: one entry replaced. *)
Definition updates s s' (id : Z) (n' : PrefixNode) : Prop :=
  keeps s s' /\ nodes s' = <[id := n']> (nodes s).

Lemma newer_same ts n m : same_node n m -> same_node n (newer ts m).
Proof. unfold newer. by destruct (_ <? _). Qed.

Lemma ref_cnt_newer ts n : ref_cnt (newer ts n) = ref_cnt n.
Proof. unfold newer. by destruct (_ <? _). Qed.

Lemma transverse_spec s h :
  transverse_hash_table h CUDA s = (Ok (bool_decide (is_Some (table CUDA s !! h))), s).
Proof. done. Qed.

Lemma at_spec s h id : table CUDA s !! h = Some id -> at_ CUDA h s = (Ok id, s).
Proof. intros Ht. unfold at_. by rewrite Ht. Qed.

Lemma node_spec s id n : nodes s !! id = Some n -> node id s = (Ok n, s).
Proof. intros Hn. unfold node. by rewrite Hn. Qed.

(** Erasing a table entry from the evictor. *)
Lemma erase_spec s live id h :
  wf s live -> table CUDA s !! h = Some id ->
  in_order (nodes s) (set_erase (nodes s) id (evictor (gpu_union_ s))) = true /\
  (forall j, j ∈ set_erase (nodes s) id (evictor (gpu_union_ s)) <->
     j ∈ evictor (gpu_union_ s) /\ j <> id).
Proof.
  intros Hwf Ht. apply set_erase_spec; [|apply Hwf].
  eapply wf_distinct; [exact Hwf|]. intros j [->|Hj]%elem_of_cons; [eauto|].
  by eapply wf_evictor_table.
Qed.

(** [ref_node] on a cached node: one more reference, and out of the evictor. *)
Lemma ref_node_spec s live h id n ts :
  wf s live -> table CUDA s !! h = Some id -> nodes s !! id = Some n ->
  wp (ref_node h ts CUDA)
     (fun _ s' => wf s' live /\ updates s s' id (newer ts (with_ref (ref_cnt n + 1) n)))
     (fun _ _ => False) s.
Proof.
  intros Hwf Ht Hn. unfold ref_node.
  destruct (wf_node _ _ Hwf _ _ Ht) as (n0 & Hn0 & Hh & H0 & Hok & Hc & Hnd & Hx).
  assert (n0 = n) as -> by congruence.
  wp_step. unfold wp at 1. rewrite transverse_spec, bool_decide_true by by eexists.
  simpl. wp_step. unfold wp at 1. rewrite (at_spec _ _ _ Ht).
  wp_step. unfold wp at 1. rewrite (node_spec _ _ _ Hn).
  set (n' := newer ts (with_ref (ref_cnt n + 1) n)).
  assert (Hs : same_node n n') by by apply newer_same.
  assert (Hr : ref_cnt n' = ref_cnt n + 1) by by apply ref_cnt_newer.
  destruct (ref_cnt n =? 0) eqn:E.
  - wp_step. simpl. wp_step. unfold ref_cache_span.
    eapply wp_mono; [eapply (mark_spec true s live); try done; [apply Hwf|apply Hx]| |done].
    intros _ s1 (g & -> & Hg & Hk & Hm & Hu). unfold wp, evictor_Del, evictor_op. simpl.
    rewrite (wf_order _ _ Hwf). destruct (erase_spec s live id h Hwf Ht) as [Ho He].
    split; [|by split].
    eapply (wf_update s live h id n n' g); eauto; [lia| | |].
    + intros x Hxx. destruct (decide (x ∈ span_ids n)) as [Hi|Hi]; [by apply Hm|].
      unfold HasExtraRef in *. by rewrite Hu.
    + rewrite in_order_update; [done|]. rewrite He. tauto.
    + intros j. rewrite He, Hr. intuition lia.
  - assert (Hni : id ∉ evictor (gpu_union_ s)).
    { rewrite (wf_evictor _ _ Hwf). intros (h' & m & _ & Hm & Hr0). simplify_eq. lia. }
    wp_step. simpl. wp_step. unfold set_node. wp_step. split; [|by split].
    assert (Heq : set_nodes <[id := n']> s = with_evictor (evictor (gpu_union_ s))
      (set_nodes <[id := n']> (set_gpu_spans (gpu_spans s) s))).
    { destruct s as [?????[]]. done. }
    rewrite Heq. eapply (wf_update s live h id n n'); eauto; [lia|apply Hwf| |].
    + rewrite in_order_update by done. apply Hwf.
    + intros j. rewrite Hr. split; [|intros [[? ?]|[? ?]]; [done|lia]].
      intros Hj. left. split; [|done]. by intros ->.
Qed.

(** [unref_node] on a node with a reference: one less; the last one puts the
    node into the evictor. *)
Lemma unref_node_spec s live h id n :
  wf s live -> table CUDA s !! h = Some id -> nodes s !! id = Some n -> 0 < ref_cnt n ->
  wp (unref_node h CUDA)
     (fun _ s' => wf s' live /\ updates s s' id (with_ref (ref_cnt n - 1) n))
     (fun _ _ => False) s.
Proof.
  intros Hwf Ht Hn Hpos. unfold unref_node.
  wp_step. unfold wp at 1. rewrite (at_spec _ _ _ Ht).
  wp_step. unfold wp at 1. rewrite (node_spec _ _ _ Hn).
  wp_step. unfold set_node. wp_step. simpl.
  set (n' := with_ref (ref_cnt n - 1) n).
  assert (Hs : same_node n n') by done.
  assert (Hni : id ∉ evictor (gpu_union_ s)).
  { rewrite (wf_evictor _ _ Hwf). intros (h' & m & _ & Hm & Hr0). simplify_eq. lia. }
  assert (Ho : in_order (<[id := n']> (nodes s)) (evictor (gpu_union_ s)) = true).
  { rewrite in_order_update by done. apply Hwf. }
  destruct (ref_cnt n - 1 =? 0) eqn:E.
  - unfold when, wp, evictor_Add, evictor_op. simpl. rewrite Ho. split; [|by split].
    destruct (set_insert_spec (<[id := n']> (nodes s)) id (evictor (gpu_union_ s)))
      as [Ho' He]; [|done|done|].
    { eapply distinct_update; [done|done|]. eapply wf_distinct; [exact Hwf|].
      intros j [->|Hj]%elem_of_cons; [eauto|]. by eapply wf_evictor_table. }
    refine (wf_update s live h id n n' (gpu_spans s) _ Hwf Ht Hn Hs _ _ _ Ho' _);
      [simpl; lia|apply Hwf|done|].
    intros j. rewrite He. simpl. split.
    + intros [->|Hj]; [right; lia|left; split; [by intros ->|done]].
    + intros [[_ ?]|[-> _]]; auto.
  - unfold when. wp_step. split; [|by split].
    assert (Heq : set_nodes <[id := n']> s = with_evictor (evictor (gpu_union_ s))
      (set_nodes <[id := n']> (set_gpu_spans (gpu_spans s) s))).
    { destruct s as [?????[]]. done. }
    rewrite Heq.
    refine (wf_update s live h id n n' (gpu_spans s) _ Hwf Ht Hn Hs _ _ _ Ho _);
      [simpl; lia|apply Hwf|done|].
    intros j. simpl. split; [|intros [[? ?]|[? ?]]; [done|lia]].
    intros Hj. left. split; [by intros ->|done].
Qed.

(** ** Deletion *)

(** An entry that no request references. *)
Definition unreferenced s (h : string) : Prop :=
  exists id n, table CUDA s !! h = Some id /\ nodes s !! id = Some n /\ ref_cnt n = 0.

(** Exactly the entries [hs] are gone; their frames are free again, and no
    other span has moved. *)
Definition deleted s live (hs : list string) s' live' : Prop :=
  wf s' live' /\ config s' = config s /\ nodes s' = nodes s /\
  cpu_union_ s' = cpu_union_ s /\ capacity (gpu_union_ s') = capacity (gpu_union_ s) /\
  (forall h, table CUDA s' !! h = if bool_decide (h ∈ hs) then None else table CUDA s !! h) /\
  sm_CountFreeFrame (gpu_spans s') =
    sm_CountFreeFrame (gpu_spans s) + 2 * layer_num_ (config s) * Z.of_nat (length hs) /\
  (forall x, span_Data (gpu_spans s') (Some x) = span_Data (gpu_spans s) (Some x)).

Lemma deleted_nil s live : wf s live -> deleted s live [] s live.
Proof.
  intros Hwf. do 5 (split; [done|]). split; [|split; [|done]].
  - intros h. rewrite bool_decide_false; [done|apply not_elem_of_nil].
  - simpl. lia.
Qed.

Lemma deleted_app s live hs1 s1 live1 hs2 s2 live2 :
  deleted s live hs1 s1 live1 -> deleted s1 live1 hs2 s2 live2 ->
  deleted s live (hs1 ++ hs2) s2 live2.
Proof.
  intros (A1 & A2 & A3 & A4 & A5 & A6 & A7 & A8) (B1 & B2 & B3 & B4 & B5 & B6 & B7 & B8).
  split_and!; try congruence.
  - intros h. rewrite B6, A6. repeat case_bool_decide; rewrite ?elem_of_app in *; tauto.
  - rewrite B7, A7, A2, length_app. lia.
Qed.

Lemma unreferenced_after s live hs s' live' h :
  deleted s live hs s' live' -> unreferenced s h -> (h ∉ hs) -> unreferenced s' h.
Proof.
  intros (_ & _ & Hn & _ & _ & Ht & _) (id & n & T & N & R) Hh. exists id, n.
  rewrite Ht, Hn, bool_decide_false by done. done.
Qed.

Lemma sm_span_Data (g g' : S) x :
  sm_span g' x = sm_span g x -> span_Data g' (Some x) = span_Data g (Some x).
Proof. intros Heq. unfold span_Data. simpl. by rewrite Heq. Qed.

(** The state [delete_node] leaves, and that it is well formed. *)
Definition without (h : string) (g : S) (ev : list Z) s : t :=
  set_gpu_union (mkUnion (capacity (gpu_union_ s)) ev (delete h (hash_table (gpu_union_ s))))
    (set_gpu_spans g s).

Lemma table_without h g ev s : table CUDA (without h g ev s) = delete h (table CUDA s).
Proof. done. Qed.

Lemma wf_without s live live' h id n g :
  wf s live -> table CUDA s !! h = Some id -> nodes s !! id = Some n -> ref_cnt n = 0 ->
  Permutation live (span_ids n ++ live') -> sm_inv g live' ->
  (forall x, (x ∉ span_ids n) -> sm_span g x = sm_span (gpu_spans s) x) ->
  wf (without h g (set_erase (nodes s) id (evictor (gpu_union_ s))) s) live'.
Proof.
  intros Hwf Ht Hn Hr Hp Hg Hu. destruct (erase_spec s live id h Hwf Ht) as [Ho He].
  split; [apply Hwf|apply Hwf|done|..].
  - intros h' id' Ht'. rewrite table_without in Ht'. apply lookup_delete_Some in Ht' as [Hne Ht'].
    destruct (wf_node _ _ Hwf _ _ Ht') as (m & Hm & ? & ? & ? & ? & ? & Hx).
    exists m. split_and!; auto. intros x Hxm.
    assert (Hni : x ∉ span_ids n).
    { intros Hxn. apply Hne. by eapply (wf_disjoint _ _ Hwf h h'). }
    destruct (Hx x Hxm) as [Hl Hm']. split.
    + rewrite Hp in Hl. apply elem_of_app in Hl as [?|?]; done.
    + unfold HasExtraRef in *. simpl. by rewrite Hu.
  - intros h1 h2 id1 id2 n1 n2 x T1 T2. rewrite table_without in T1, T2.
    apply lookup_delete_Some in T1 as [_ T1].
    apply lookup_delete_Some in T2 as [_ T2]. by apply (wf_disjoint _ _ Hwf h1 h2 id1 id2).
  - done.
  - intros j. rewrite table_without. simpl. rewrite He, (wf_evictor _ _ Hwf). split.
    + intros [(h' & m & T & N & R) Hne]. exists h', m. split; [|done].
      apply lookup_delete_Some. split; [|done]. intros <-.
      apply Hne. congruence.
    + intros (h' & m & T & N & R). apply lookup_delete_Some in T as [Hne T]. split; [eauto|].
      intros ->. apply Hne. by eapply wf_table_inj.
  - rewrite table_without. apply lookup_delete_None. right. apply Hwf.
Qed.

Lemma delete_node_spec s live h :
  wf s live -> unreferenced s h ->
  wp (delete_node h CUDA) (fun _ s' => exists live', deleted s live [h] s' live')
     (fun e _ => not_taken_back e) s.
Proof.
  intros Hwf (id & n & Ht & Hn & Hr).
  destruct (wf_node _ _ Hwf _ _ Ht) as (n0 & Hn0 & Hh & H0 & Hok & Hc & Hnd & Hx).
  assert (n0 = n) as -> by congruence. pose proof (wf_inv _ _ Hwf) as HI.
  destruct (submseteq_Permutation (span_ids n) live) as [live' Hp].
  { apply NoDup_submseteq; [done|]. intros x Hxx. by apply Hx. }
  unfold delete_node, unref_cache_span. wp_step.
  eapply wp_mono; [eapply (mark_spec false s live); try done; apply Hx| |done].
  intros _ s1 (g & -> & Hg & Hk & Hm & Hu). wp_step. unfold free_cache_span.
  eapply wp_mono; [eapply (release_all_spec _ live live' h id n); try done| |done].
  intros _ s2 (g2 & -> & Hg2 & Hs2 & Hc2). simpl in Hs2, Hc2.
  wp_step. unfold wp at 1.
  rewrite (at_spec (set_gpu_spans g2 (set_gpu_spans g s)) h id Ht).
  wp_step. unfold wp at 1, evictor_Del, evictor_op. simpl. rewrite (wf_order _ _ Hwf).
  unfold set_table. wp_step. simpl. exists live'.
  change (deleted s live [h]
    (without h g2 (set_erase (nodes s) id (evictor (gpu_union_ s))) s) live').
  destruct Hk as (_ & _ & _ & _ & Hkc & Hkd). simpl in Hkc, Hkd.
  split_and!; try done.
  - eapply (wf_without s live live' h id n); eauto. intros x Hxx. rewrite Hs2. by apply Hu.
  - intros h'. unfold table. simpl. case_bool_decide as Hin.
    + apply list_elem_of_singleton in Hin as ->. apply lookup_delete_eq.
    + apply lookup_delete_ne. intros ->. by apply Hin, list_elem_of_singleton.
  - simpl. rewrite Hc2, Hkc, (node_ok_length n Hok), Hc. lia.
  - intros x. simpl. rewrite (sm_span_Data g g2) by apply Hs2. apply Hkd.
Qed.

Lemma delete_multinodes_spec s live hs :
  wf s live -> NoDup hs -> (forall h, h ∈ hs -> unreferenced s h) ->
  wp (delete_multinodes hs CUDA) (fun _ s' => exists live', deleted s live hs s' live')
     (fun e _ => not_taken_back e) s.
Proof.
  intros Hwf Hnd Hu. unfold delete_multinodes.
  refine (wp_mono _ _ _ _ _ _ (wp_for_each
    (fun pre s' => exists live', deleted s live pre s' live') hs _ _ s _ _)
    (fun _ _ Hx => Hx) (fun _ _ Hx => Hx)).
  - exists live. by apply deleted_nil.
  - intros pre h rest s1 Heq (live1 & H1).
    eapply wp_mono; [apply (delete_node_spec s1 live1)| |done].
    + apply H1.
    + eapply unreferenced_after; [exact H1| |].
      * apply Hu. rewrite Heq, elem_of_app. right. left.
      * intros Hin. rewrite Heq in Hnd. apply NoDup_app in Hnd as (_ & Hd & _).
        apply (Hd h Hin). left.
    + intros _ s2 (live2 & H2). exists live2. by eapply deleted_app.
Qed.

(** [filter_timeout_hash] deletes the hashes that are too old and keeps the
    others. *)
Lemma filter_timeout_hash_spec now hs : forall s live,
  wf s live -> NoDup hs -> (forall h, h ∈ hs -> unreferenced s h) ->
  wp (filter_timeout_hash now hs)
     (fun kept s' => exists old live', Permutation hs (old ++ kept) /\
        deleted s live old s' live')
     (fun e _ => not_taken_back e) s.
Proof.
  induction hs as [|h hs IH]; intros s live Hwf Hnd Hu; simpl.
  { wp_step. exists [], live. split; [done|]. by apply deleted_nil. }
  apply NoDup_cons in Hnd as [Hh Hnd].
  destruct (Hu h ltac:(left)) as (id & n & T & N & R).
  wp_step. unfold wp at 1. rewrite (at_spec _ _ _ T).
  wp_step. unfold wp at 1. rewrite (node_spec _ _ _ N).
  wp_step. wp_step. set (timeout := _ <? _).
  wp_step. destruct timeout; unfold when.
  - eapply wp_mono; [apply (delete_node_spec s live); [done|by apply Hu; left]| |done].
    intros _ s1 (live1 & H1). wp_step. eapply wp_mono; [apply (IH s1 live1)| |done].
    + apply H1.
    + done.
    + intros h' Hh'. eapply unreferenced_after; [exact H1|apply Hu; by right|].
      intros ->%list_elem_of_singleton. done.
    + intros kept s2 (old & live2 & Hp & H2). wp_step. exists (h :: old), live2.
      split; [by rewrite Hp|]. by apply (deleted_app s live [h] s1 live1).
  - wp_step. wp_step. eapply wp_mono; [apply (IH s live)| |done]; auto.
    { intros h' Hh'. apply Hu. by right. }
    intros kept s2 (old & live2 & Hp & H2). wp_step. exists old, live2.
    split; [|done]. rewrite Hp. apply Permutation_middle.
Qed.

(** Without a host cache nothing is swapped out. *)
Lemma collect_cpu_nothing {A} (get : A -> M t (Z * string)) l s :
  capacity (cpu_union_ s) <= 0 -> hash_table (cpu_union_ s) = ∅ ->
  (forall x, x ∈ l -> exists src h nd, get x s = (Ok (src, h), s) /\ nodes s !! src = Some nd) ->
  collect_cpu get l s = (Ok ([], []), s).
Proof.
  intros Hcap Htab Hget. destruct l as [|x l]; [done|].
  destruct (Hget x ltac:(left)) as (src & h & nd & Hg & Hnd).
  unfold collect_cpu, mbind, M_bind. rewrite Hg, (node_spec _ _ _ Hnd).
  unfold transverse_hash_table, gets, table. simpl. rewrite Htab, lookup_empty.
  rewrite bool_decide_false by by intros [? ?].
  unfold alloc_cpu_node, mbind, M_bind, gets.
  by rewrite (proj2 (Z.leb_le _ _) Hcap).
Qed.

Lemma swap_to_cpu_by_hashlist_nothing s live hs :
  wf s live -> (forall h, h ∈ hs -> unreferenced s h) ->
  swap_to_cpu_by_hashlist hs s = (Ok tt, s).
Proof.
  intros Hwf Hu. unfold swap_to_cpu_by_hashlist.
  unfold mbind, M_bind. rewrite (collect_cpu_nothing _ hs s); [done|apply Hwf|apply Hwf|].
  intros h Hh. destruct (Hu h Hh) as (id & n & T & N & _).
  exists id, h, n. by rewrite (at_spec _ _ _ T).
Qed.

Lemma deleted_perm s live hs hs' s' live' :
  Permutation hs hs' -> deleted s live hs s' live' -> deleted s live hs' s' live'.
Proof.
  intros Hp (A1 & A2 & A3 & A4 & A5 & A6 & A7 & A8). do 5 (split; [done|]).
  split; [|split; [|done]].
  - intros h. rewrite A6. repeat case_bool_decide; rewrite ?Hp in *; done.
  - by rewrite <- Hp.
Qed.

Lemma evict_hashes_spec now s live hs :
  wf s live -> NoDup hs -> (forall h, h ∈ hs -> unreferenced s h) ->
  wp (evict_hashes now hs) (fun _ s' => exists live', deleted s live hs s' live')
     (fun e _ => not_taken_back e) s.
Proof.
  intros Hwf Hnd Hu. unfold evict_hashes. wp_step.
  eapply wp_mono; [by apply (filter_timeout_hash_spec now hs s live)| |done].
  intros kept s1 (old & live1 & Hp & H1). rewrite Hp in Hnd.
  apply NoDup_app in Hnd as (Hno & Hd & Hnk).
  assert (Hu1 : forall h, h ∈ kept -> unreferenced s1 h).
  { intros h Hh. eapply unreferenced_after; [exact H1| |].
    - apply Hu. rewrite Hp, elem_of_app. by right.
    - intros Ho. by apply (Hd h Ho). }
  wp_step. unfold wp at 1.
  rewrite (swap_to_cpu_by_hashlist_nothing s1 live1 kept); [|apply H1|done].
  eapply wp_mono; [apply (delete_multinodes_spec s1 live1 kept); [apply H1|done|done]| |done].
  intros _ s2 (live2 & H2). exists live2. eapply deleted_perm; [symmetry; exact Hp|].
  by eapply deleted_app.
Qed.

(** The victims: the hashes of the first candidates. *)
Lemma hashes_spec s live ids :
  wf s live -> (forall id, id ∈ ids -> id ∈ evictor (gpu_union_ s)) ->
  exists hs, hashes ids s = (Ok hs, s) /\ (forall h, h ∈ hs -> unreferenced s h) /\
    Forall2 (fun id h => table CUDA s !! h = Some id) ids hs.
Proof.
  intros Hwf. induction ids as [|id ids IH]; intros Hin.
  { exists []. split; [done|]. split; [|constructor]. intros h Hh. by apply elem_of_nil in Hh. }
  destruct IH as (hs & Hhs & Hu & Hf); [intros; apply Hin; by right|].
  destruct (proj1 (wf_evictor _ _ Hwf id) (Hin id ltac:(left))) as (h & n & T & N & R).
  destruct (wf_node _ _ Hwf _ _ T) as (n0 & Hn0 & Hh & _). assert (n0 = n) as -> by congruence.
  exists (h :: hs).
  change (hashes (id :: ids) s)
    with ((n ← node id; hs ← hashes ids; mret (hash n :: hs)) s).
  unfold mbind, M_bind. rewrite (node_spec _ _ _ N), Hhs, Hh. split; [done|]. split; [|by constructor].
  intros h' [->|Hh']%elem_of_cons; [|auto]. by exists id, n.
Qed.

Lemma Forall2_table_NoDup s ids hs :
  Forall2 (fun id h => table CUDA s !! h = Some id) ids hs -> NoDup ids -> NoDup hs.
Proof.
  induction 1 as [|id h ids hs Hh Hf IH]; intros Hnd; [constructor|].
  apply NoDup_cons in Hnd as [Hni Hnd]. apply NoDup_cons. split; [|auto].
  intros Hin. apply Hni. apply list_elem_of_lookup in Hin as [i Hi].
  destruct (Forall2_lookup_r _ _ _ _ _ Hf Hi) as (id' & Hid' & T).
  assert (id' = id) as -> by congruence. by eapply list_elem_of_lookup_2.
Qed.

(** The first [k] candidates go, or all when there are fewer. *)
Lemma evict_unrefered_by_num_spec now k s live :
  wf s live -> 0 <= k ->
  wp (evict_unrefered_by_num now k)
     (fun _ s' => exists hs live', deleted s live hs s' live' /\
        Forall2 (fun id h => table CUDA s !! h = Some id)
          (take (Z.to_nat k) (evictor (gpu_union_ s))) hs)
     (fun e _ => not_taken_back e) s.
Proof.
  intros Hwf Hk. unfold evict_unrefered_by_num, FindMultiVictims.
  set (ev := evictor (gpu_union_ s)).
  destruct (hashes_spec s live (take (Z.to_nat k) ev) Hwf) as (hs & Hhs & Hu & Hf).
  { intros id Hid. apply list_elem_of_lookup in Hid as [i Hi].
    apply lookup_take_Some in Hi as [Hi _]. by eapply list_elem_of_lookup_2. }
  wp_step. wp_step. wp_step. simpl (union_of _ _). fold ev.
  destruct (Z.min (Z.of_nat (length ev)) k <? 0) eqn:E; [apply Z.ltb_lt, Z.min_lt_iff in E; exfalso; lia|].
  replace (take (Z.to_nat (Z.min (Z.of_nat (length ev)) k)) ev) with (take (Z.to_nat k) ev).
  2:{ destruct (decide (Z.of_nat (length ev) <= k)).
      - rewrite Z.min_l by lia. rewrite Nat2Z.id, firstn_all. apply take_ge. lia.
      - by rewrite Z.min_r by lia. }
  unfold wp at 1. rewrite Hhs.
  eapply wp_mono; [apply (evict_hashes_spec now s live hs Hwf); [|done]| |done].
  - eapply Forall2_table_NoDup; [exact Hf|].
    eapply sublist_NoDup; [by eapply in_order_NoDup, (wf_order _ _ Hwf)|apply sublist_take].
  - intros _ s' (live' & Hd). eauto.
Qed.

(** ** References *)
Definition occurrences (id : Z) (l : list Z) : Z := Z.of_nat (count_occ Z.eq_dec l id).

(** Every node keeps its spans and its hash, and its reference count grows by
    [d]. *)
Definition refs_moved s s' (d : Z -> Z) : Prop :=
  forall id n, nodes s !! id = Some n ->
    exists n', nodes s' !! id = Some n' /\ same_node n n' /\ ref_cnt n' = ref_cnt n + d id.

Lemma refs_moved_refl s d : (forall id, d id = 0) -> refs_moved s s d.
Proof. intros Hd id n Hn. exists n. rewrite Hd. split_and!; try done. lia. Qed.

Lemma refs_moved_trans s1 s2 s3 d e f :
  (forall id, f id = d id + e id) ->
  refs_moved s1 s2 d -> refs_moved s2 s3 e -> refs_moved s1 s3 f.
Proof.
  intros Hf H1 H2 id n Hn. destruct (H1 id n Hn) as (n' & Hn' & (A1 & A2 & A3 & A4) & Hr).
  destruct (H2 id n' Hn') as (n'' & Hn'' & (B1 & B2 & B3 & B4) & Hr').
  exists n''. rewrite Hf. split_and!; [done| |lia]. split_and!; congruence.
Qed.

Lemma updates_moved s s' id n n' d :
  nodes s !! id = Some n -> updates s s' id n' -> same_node n n' ->
  ref_cnt n' = ref_cnt n + d id -> (forall j, j <> id -> d j = 0) -> refs_moved s s' d.
Proof.
  intros Hn [_ Hu] Hs Hr Hd j m Hm. rewrite Hu. destruct (decide (j = id)) as [->|Hne].
  - exists n'. rewrite lookup_insert_eq. assert (m = n) as -> by congruence. done.
  - exists m. rewrite lookup_insert_ne, Hd by done. split_and!; try done. lia.
Qed.

Lemma occurrences_app id l1 l2 : occurrences id (l1 ++ l2) = occurrences id l1 + occurrences id l2.
Proof. unfold occurrences. rewrite count_occ_app. lia. Qed.

Lemma occurrences_one id x : occurrences id [x] = if decide (id = x) then 1 else 0.
Proof.
  unfold occurrences. simpl. destruct (Z.eq_dec x id), (decide (id = x)); subst; done.
Qed.

Context `{Murmur}.

(** The nodes of the longest run of cached prefixes. *)
Fixpoint hits (m : gmap string Z) (tokens : list Z) (lens : list Z) : list Z :=
  match lens with
  | [] => []
  | n :: lens' =>
      match m !! hash_tokens (take (Z.to_nat n) tokens) with
      | Some id => id :: hits m tokens lens'
      | None => []
      end
  end.

Lemma hits_table m tokens lens id :
  id ∈ hits m tokens lens -> exists h, m !! h = Some id.
Proof.
  induction lens as [|n lens IH]; simpl; [by intros ?%elem_of_nil|].
  destruct (m !! hash_tokens (take (Z.to_nat n) tokens)) as [i|] eqn:E.
  - intros [->|?]%elem_of_cons; eauto.
  - by intros ?%elem_of_nil.
Qed.

(** A host table without entries is never hit. *)
Lemma transverse_cpu_nothing s h :
  hash_table (cpu_union_ s) = ∅ -> transverse_hash_table h CPU s = (Ok false, s).
Proof.
  intros Hc. unfold transverse_hash_table, gets, table. simpl.
  rewrite Hc, lookup_empty. by rewrite bool_decide_false by by intros [? ?].
Qed.

Lemma ref_loop_spec tokens ts lens : forall s live plen glen nv,
  wf s live ->
  wp (ref_loop tokens ts lens plen glen nv)
     (fun '(plen', glen', nv') s' => wf s' live /\ keeps s s' /\
        let l := hits (table CUDA s) tokens lens in
        let d := token_per_span_ (config s) * Z.of_nat (length l) in
        plen' = plen + d /\ glen' = glen + d /\ nv' = nv ++ l /\
        refs_moved s s' (fun id => occurrences id l))
     (fun _ _ => False) s.
Proof.
  induction lens as [|n lens IH]; intros s live plen glen nv Hwf; simpl.
  { wp_step. split; [done|]. split; [done|]. rewrite app_nil_r.
    split_and!; try lia; [done|]. by apply refs_moved_refl. }
  set (h := hash_tokens (take (Z.to_nat n) tokens)).
  wp_step. wp_step. wp_step. unfold wp at 1. rewrite transverse_spec.
  destruct (table CUDA s !! h) as [id|] eqn:Ht.
  - rewrite bool_decide_true by by eexists. wp_step. unfold when at 1.
    destruct (wf_node _ _ Hwf _ _ Ht) as (nd & Hnd & _).
    eapply wp_mono; [by apply (ref_node_spec s live h id nd ts)| |done].
    intros _ s1 (Hwf1 & Hu1). pose proof (proj1 Hu1) as Hk.
    pose proof Hk as (Hcfg & Htab & _).
    wp_step. unfold wp at 1. rewrite transverse_cpu_nothing by apply (wf_cpu _ _ Hwf1).
    wp_step. wp_step. simpl. rewrite <- Htab in Ht.
    wp_step. unfold wp at 1. rewrite (at_spec _ _ _ Ht).
    eapply wp_mono; [by apply (IH s1 live)| |done].
    intros [[plen' glen'] nv'] s2 (Hwf2 & Hk2 & Hp & Hg & Hv & Hr).
    rewrite Htab, Hcfg in *. split; [done|]. split; [by eapply keeps_trans|].
    simpl length. split_and!; [lia|lia| |].
    + by rewrite Hv, <- app_assoc.
    + eapply refs_moved_trans; [|eapply updates_moved with (d := fun j => occurrences j [id]);
        [exact Hnd|exact Hu1| | |]|exact Hr].
      * intros j. exact (occurrences_app j [id] _).
      * by apply newer_same.
      * rewrite ref_cnt_newer. simpl. by rewrite occurrences_one, decide_True.
      * intros j Hj. by rewrite occurrences_one, decide_False.
  - rewrite bool_decide_false by by intros [? ?]. wp_step. wp_step. simpl.
    wp_step. unfold wp at 1. rewrite transverse_cpu_nothing by apply (wf_cpu _ _ Hwf).
    wp_step. wp_step. simpl. wp_step. split; [done|]. split; [done|].
    rewrite app_nil_r. split_and!; try lia; [done|]. by apply refs_moved_refl.
Qed.

(** [UnRef] of nodes that are in the table with enough references. *)
Lemma UnRef_spec s live l :
  wf s live -> (forall id, id ∈ l -> exists h, table CUDA s !! h = Some id) ->
  (forall id n, nodes s !! id = Some n -> occurrences id l <= ref_cnt n \/ (id ∉ l)) ->
  wp (UnRef l)
     (fun _ s' => wf s' live /\ keeps s s' /\ refs_moved s s' (fun id => - occurrences id l))
     (fun _ _ => False) s.
Proof.
  intros Hwf Hl Hr. unfold UnRef.
  refine (wp_mono _ _ _ _ _ _ (wp_for_each
    (fun pre s' => wf s' live /\ keeps s s' /\ refs_moved s s' (fun id => - occurrences id pre))
    l _ _ s _ _) (fun _ _ Hx => Hx) (fun _ _ Hx => Hx)).
  { split; [done|]. split; [done|]. by apply refs_moved_refl. }
  intros pre id rest s1 Heq (Hwf1 & Hk1 & Hm1).
  assert (Hin : id ∈ l) by (rewrite Heq, elem_of_app; right; left).
  destruct (Hl id Hin) as [h Ht]. destruct (wf_node _ _ Hwf _ _ Ht) as (n & Hn & Hh & _).
  destruct (Hm1 id n Hn) as (n1 & Hn1 & Hs1 & Hc1).
  assert (Ht1 : table CUDA s1 !! hash n1 = Some id).
  { destruct Hk1 as (_ & -> & _). destruct Hs1 as (_ & _ & _ & ->). by rewrite Hh. }
  assert (Hpos : 0 < ref_cnt n1).
  { destruct (Hr id n Hn) as [Hge|]; [|done].
    rewrite Heq, occurrences_app in Hge. change (id :: rest) with ([id] ++ rest) in Hge.
    rewrite occurrences_app, occurrences_one, decide_True in Hge by done.
    unfold occurrences in *. lia. }
  wp_step. unfold wp at 1. rewrite (node_spec _ _ _ Hn1).
  wp_step. unfold wp at 1. rewrite transverse_spec, bool_decide_true by by eexists.
  wp_step. unfold when at 1. wp_step. unfold wp at 1. rewrite (at_spec _ _ _ Ht1), Z.eqb_refl.
  eapply wp_mono; [by apply (unref_node_spec s1 live (hash n1) id n1)| |done].
  intros _ s2 (Hwf2 & Hu2). wp_step. unfold wp at 1.
  rewrite transverse_cpu_nothing by apply (wf_cpu _ _ Hwf2). wp_step.
  split; [done|]. split; [eapply keeps_trans; [exact Hk1|apply Hu2]|].
  eapply refs_moved_trans; [|exact Hm1|
    eapply updates_moved with (d := fun j => - occurrences j [id]); [exact Hn1|exact Hu2|done| |]].
  - intros j. rewrite occurrences_app. lia.
  - rewrite occurrences_one, decide_True by done. simpl. lia.
  - intros j Hj. by rewrite occurrences_one, decide_False.
Qed.

(** ** Eviction for a number of frames *)

(** What an eviction towards [target] free frames does: it deletes the entries
    [hs] of the first candidates, never a referenced one, until the frames are
    there or no candidate is left. *)
Definition evicted s live target s' live' : Prop :=
  exists hs, deleted s live hs s' live' /\ (forall h, h ∈ hs -> unreferenced s h) /\
    (exists k, Forall2 (fun id h => table CUDA s !! h = Some id)
       (take k (evictor (gpu_union_ s))) hs) /\
    (target <= sm_CountFreeFrame (gpu_spans s') \/ evictor (gpu_union_ s') = []).

Lemma Forall2_unreferenced s live k hs :
  wf s live ->
  Forall2 (fun id h => table CUDA s !! h = Some id) (take k (evictor (gpu_union_ s))) hs ->
  forall h, h ∈ hs -> unreferenced s h.
Proof.
  intros Hwf Hf h Hh. apply list_elem_of_lookup in Hh as [i Hi].
  destruct (Forall2_lookup_r _ _ _ _ _ Hf Hi) as (id & Hid & T).
  apply lookup_take_Some in Hid as [Hid _]. apply list_elem_of_lookup_2 in Hid.
  apply (wf_evictor _ _ Hwf) in Hid as (h' & n & T' & N & R).
  exists id, n. split; [done|]. split; [done|done].
Qed.

Lemma EvictUnrefered_spec now target s live :
  wf s live -> 0 <= sm_CountFreeFrame (gpu_spans s) < target -> target < 2 ^ 31 ->
  wp (EvictUnrefered now target) (fun _ s' => exists live', evicted s live target s' live')
     (fun e _ => not_taken_back e) s.
Proof.
  intros Hwf Hfree Ht. pose proof (wf_layers _ _ Hwf) as HLy. unfold EvictUnrefered.
  wp_step. wp_step. wp_step. wp_step.
  rewrite i32_small by lia. destruct (layer_num_ (config s) * 2 =? 0) eqn:E; [lia|].
  set (free := sm_CountFreeFrame (gpu_spans s)) in *.
  set (need := Z.quot _ _).
  assert (Hneed : need = (target - free + layer_num_ (config s) * 2 - 1) / (layer_num_ (config s) * 2)).
  { unfold need. apply Z.quot_div_nonneg; lia. }
  assert (Hn0 : 0 <= need) by (rewrite Hneed; apply Z.div_pos; lia).
  assert (Hcover : target - free <= 2 * layer_num_ (config s) * need).
  { rewrite Hneed. Z.to_euclidean_division_equations. nia. }
  eapply wp_mono; [by apply (evict_unrefered_by_num_spec now need s live)| |done].
  intros _ s' (hs & live' & Hd & Hf). exists live', hs.
  pose proof (Forall2_unreferenced s live _ hs Hwf Hf) as Hu.
  split; [done|]. split; [done|]. split; [eauto|].
  pose proof Hd as (Hwf' & _ & Hnodes & _ & _ & Htab & Hcnt & _).
  pose proof (Forall2_length _ _ _ Hf) as Hlen. rewrite length_take in Hlen.
  destruct (decide (Z.to_nat need <= length (evictor (gpu_union_ s)))%nat) as [Hle|Hgt].
  - left. rewrite Hcnt, <- Hlen, Nat.min_l, Z2Nat.id by lia. fold free. lia.
  - right. rewrite take_ge in Hf by lia.
    destruct (evictor (gpu_union_ s')) as [|id ev'] eqn:Eev; [done|exfalso].
    assert (Hin : id ∈ evictor (gpu_union_ s')) by (rewrite Eev; left).
    apply (wf_evictor _ _ Hwf') in Hin as (h & n & T & N & R).
    rewrite Htab in T. case_bool_decide as Hh; [done|]. rewrite Hnodes in N.
    assert (Hin : id ∈ evictor (gpu_union_ s)) by (apply (wf_evictor _ _ Hwf); eauto).
    apply list_elem_of_lookup in Hin as [i Hi].
    destruct (Forall2_lookup_l _ _ _ _ _ Hf Hi) as (h' & Hh' & T').
    apply Hh. rewrite (wf_table_inj s live h h' id) by done.
    by eapply list_elem_of_lookup_2.
Qed.

(** The cut points are the multiples of the span size below the length. *)
Lemma cuts_lookup fuel span i N k n :
  0 < span -> cuts fuel span i N !! k = Some n -> n = i + 1 + span * Z.of_nat k /\ n <= N - 1.
Proof.
  intros Hsp. revert i k. induction fuel as [|fuel IH]; intros i k; simpl; [done|].
  destruct (i <? N - 1) eqn:E; [|done]. destruct k as [|k]; simpl.
  - intros [= <-]. lia.
  - intros Hk. apply IH in Hk. lia.
Qed.

Lemma hits_length_le m tokens lens : (length (hits m tokens lens) <= length lens)%nat.
Proof.
  induction lens as [|n lens IH]; simpl; [lia|].
  destruct (m !! _); simpl; lia.
Qed.

Lemma hits_bound m tokens span :
  0 < span ->
  let l := hits m tokens (span_cuts span 0 (Z.of_nat (length tokens))) in
  span * Z.of_nat (length l) <= Z.max 0 (Z.of_nat (length tokens) - 1).
Proof.
  intros Hsp l. pose proof (hits_length_le m tokens
    (span_cuts span 0 (Z.of_nat (length tokens)))) as Hle. fold l in Hle.
  destruct (length l) as [|k] eqn:E; [lia|].
  destruct (lookup_lt_is_Some_2 (span_cuts span 0 (Z.of_nat (length tokens))) k) as [n Hn];
    [lia|].
  apply cuts_lookup in Hn as [-> Hn]; [|done]. lia.
Qed.

(** * The properties *)

(** The references of [RefOnly] protect its nodes from an eviction. *)
Lemma evicted_keeps_hits s s1 live live2 s2 l hs :
  wf s live -> wf s1 live -> keeps s s1 -> refs_moved s s1 (fun id => occurrences id l) ->
  deleted s1 live hs s2 live2 -> (forall h, h ∈ hs -> unreferenced s1 h) ->
  (forall h id, table CUDA s !! h = Some id -> id ∈ l -> (h ∉ hs)) /\
  (forall h, h ∈ hs -> unreferenced s h).
Proof.
  intros Hwf Hwf1 Hk Hm Hd Hu. destruct Hk as (_ & Htab & _). split.
  - intros h id T Hin Hh. destruct (Hu h Hh) as (id' & n1 & T1 & N1 & R1).
    rewrite Htab in T1. assert (id' = id) as -> by congruence.
    destruct (wf_node _ _ Hwf _ _ T) as (n & Hn & _ & Hr & _).
    destruct (Hm id n Hn) as (n1' & N1' & _ & Hc). assert (n1' = n1) as -> by congruence.
    assert (0 < occurrences id l); [|lia].
    unfold occurrences. apply list_elem_of_In, (count_occ_In Z.eq_dec) in Hin. lia.
  - intros h Hh. destruct (Hu h Hh) as (id & n1 & T1 & N1 & R1). rewrite Htab in T1.
    destruct (wf_node _ _ Hwf _ _ T1) as (n & Hn & _ & Hr & _).
    destruct (Hm id n Hn) as (n1' & N1' & _ & Hc). assert (n1' = n1) as -> by congruence.
    exists id, n. split_and!; try done. unfold occurrences in Hc. lia.
Qed.

(** Evicting when frames are short, and not otherwise. *)
Lemma evict_when_spec now target s live :
  wf s live -> 0 <= sm_CountFreeFrame (gpu_spans s) -> target < 2 ^ 31 ->
  wp (when (sm_CountFreeFrame (gpu_spans s) <? target) (EvictUnrefered now target))
     (fun _ s' => exists live' hs, deleted s live hs s' live' /\
        (forall h, h ∈ hs -> unreferenced s h) /\
        (target <= sm_CountFreeFrame (gpu_spans s') \/ evictor (gpu_union_ s') = []))
     (fun e _ => not_taken_back e /\ sm_CountFreeFrame (gpu_spans s) < target) s.
Proof.
  intros Hwf Hfree Ht. destruct (_ <? _) eqn:E; unfold when.
  - eapply wp_mono; [apply (EvictUnrefered_spec now target s live); [done|lia|done]| |intros e s0 He; split; [done|lia]].
    intros _ s' (live' & hs & Hd & Hu & _ & Hr). eauto 10.
  - wp_step. exists live, []. split; [by apply deleted_nil|]. split; [|left; lia].
    intros h Hh. by apply elem_of_nil in Hh.
Qed.

(** What the reservation for a request leaves: [l] are the nodes of its cached
    prefix, [hs] the evicted entries. *)
Definition reserved s (l : list Z) (frames : Z) (ok : bool) s' : Prop :=
  exists (hs : list string) live', wf s' live' /\
    (forall h, table CUDA s' !! h = if bool_decide (h ∈ hs) then None else table CUDA s !! h) /\
    (forall h, h ∈ hs -> unreferenced s h) /\
    (forall h id, table CUDA s !! h = Some id -> id ∈ l -> (h ∉ hs)) /\
    refs_moved s s' (fun _ => 0) /\
    ok = (frames <=? sm_CountFreeFrame (gpu_spans s')) /\
    (ok = false -> forall h id n, table CUDA s' !! h = Some id -> nodes s !! id = Some n ->
       ref_cnt n = 0 -> id ∈ l).

Lemma reserve_unref_spec s s1 s2 live live2 l hs frames :
  wf s live -> wf s1 live -> keeps s s1 -> refs_moved s s1 (fun id => occurrences id l) ->
  (forall id, id ∈ l -> exists h, table CUDA s !! h = Some id) ->
  deleted s1 live hs s2 live2 -> (forall h, h ∈ hs -> unreferenced s1 h) ->
  (frames <= sm_CountFreeFrame (gpu_spans s2) \/ evictor (gpu_union_ s2) = []) ->
  wp (UnRef l) (fun _ s' => reserved s l frames (frames <=? sm_CountFreeFrame (gpu_spans s')) s')
     (fun _ _ => False) s2.
Proof.
  intros Hwf Hwf1 Hk Hm Hl Hd Hu Hor.
  destruct (evicted_keeps_hits s s1 live live2 s2 l hs Hwf Hwf1 Hk Hm Hd Hu)
    as [Hpin Hun].
  pose proof Hk as (_ & Htab1 & _). pose proof Hd as (Hwf2 & _ & Hnodes & _ & _ & Htab2 & _).
  assert (Ht2 : forall h id, table CUDA s !! h = Some id -> id ∈ l -> table CUDA s2 !! h = Some id).
  { intros h id T Hin. rewrite Htab2, Htab1, bool_decide_false by eauto. done. }
  eapply wp_mono; [apply (UnRef_spec s2 live2 l Hwf2)| |done].
  - intros id Hin. destruct (Hl id Hin) as [h T]. eauto.
  - intros id n1 N1. rewrite Hnodes in N1.
    destruct (decide (id ∈ l)) as [Hin|]; [left|by right].
    destruct (Hl id Hin) as [h T]. destruct (wf_node _ _ Hwf _ _ T) as (n & Hn & _ & Hr & _).
    destruct (Hm id n Hn) as (n1' & N1' & _ & Hc). assert (n1' = n1) as -> by congruence. lia.
  - intros _ s' (Hwf' & (_ & Htab' & _ & _ & Hcnt & _) & Hm').
    exists hs, live2. split; [done|]. split; [|split; [done|split; [done|split; [|split; [done|]]]]].
    + intros h. by rewrite Htab', Htab2, Htab1.
    + assert (Hm2 : refs_moved s s2 (fun id => occurrences id l)).
      { intros id n Hn. rewrite Hnodes. by apply Hm. }
      eapply refs_moved_trans; [|exact Hm2|exact Hm']. intros id. simpl. lia.
    + intros Hok h id n T N R. rewrite Hcnt in Hok.
      destruct Hor as [Hor|Hev]; [exfalso; apply Z.leb_gt in Hok; lia|].
      destruct (decide (id ∈ l)) as [|Hni]; [done|exfalso].
      rewrite Htab' in T. destruct (Hm id n N) as (n1 & N1 & _ & Hc).
      assert (Hin : id ∈ evictor (gpu_union_ s2)).
      { apply (wf_evictor _ _ Hwf2). exists h, n1. rewrite Hnodes. split_and!; try done.
        rewrite Hc. unfold occurrences. rewrite (proj1 (count_occ_not_In Z.eq_dec l id)); [lia|].
        by rewrite <- list_elem_of_In. }
      rewrite Hev in Hin. by apply elem_of_nil in Hin.
Qed.

(** The frames the reservation asks for. *)
Definition frames_for s (len gpu_cached_len max_length : Z) : Z :=
  (Z.min (len - gpu_cached_len + 10) max_length / token_per_span_ (config s) + 1) * 2
  * layer_num_ (config s).

Lemma wp_int z s (Q : Z -> t -> Prop) E : - 2 ^ 31 <= z < 2 ^ 31 -> Q z s -> wp (int z) Q E s.
Proof.
  intros Hz HQ. unfold int. rewrite (proj2 (Z.leb_le _ _)), (proj2 (Z.ltb_lt _ _)) by lia.
  by apply wp_ret.
Qed.

Lemma frames_for_bound s len glen max_length :
  0 < token_per_span_ (config s) -> 0 < layer_num_ (config s) -> 0 <= glen <= len -> 0 <= max_length ->
  (len + 11) * 2 * layer_num_ (config s) < 2 ^ 31 ->
  0 <= Z.min (len - glen + 10) max_length / token_per_span_ (config s) <= len + 10 /\
  0 <= frames_for s len glen max_length < 2 ^ 31.
Proof.
  intros Hsp Hlay Hg Hm Hb. set (x := Z.min _ _). set (d := x / _).
  assert (Hd : 0 <= d <= len + 10).
  { unfold d. split; [apply Z.div_pos; lia|]. apply Z.div_le_upper_bound; nia. }
  split; [done|]. unfold frames_for. fold x. fold d. split; [nia|].
  eapply Z.le_lt_trans; [|exact Hb]. apply Z.mul_le_mono_nonneg_r; lia.
Qed.

(** No int overflows. *)
Lemma context_frame_spec s len glen max_length :
  0 < token_per_span_ (config s) -> 0 < layer_num_ (config s) -> 0 <= glen <= len -> 0 <= max_length ->
  (len + 11) * 2 * layer_num_ (config s) < 2 ^ 31 ->
  wp (context_frame len glen max_length)
     (fun f s' => s' = s /\ f = frames_for s len glen max_length) (fun _ _ => False) s.
Proof.
  intros Hsp Hlay Hg Hm Hb. destruct (frames_for_bound s len glen max_length) as [Hd Hf]; [done..|].
  assert (Hlen : len + 11 < 2 ^ 30) by nia. unfold context_frame. unfold frames_for in *.
  set (x := Z.min _ _) in *. set (d := x / _) in *.
  wp_step. wp_step. wp_step. apply wp_int; [lia|]. wp_step. apply wp_int; [lia|].
  rewrite (proj2 (Z.eqb_neq _ _)) by lia. fold x.
  rewrite Z.quot_div_nonneg by lia. fold d.
  wp_step. apply wp_int; [lia|]. wp_step. apply wp_int; [lia|].
  wp_step. apply wp_int; [lia|]. wp_step. apply wp_int; [lia|].
  wp_step. split; [done|]. apply u64_small. lia.
Qed.

(** Counting hits changes the counters only. *)
Lemma UpdateCnt_spec s0 s live d (b : bool) hit miss :
  wf s live -> keeps s0 s -> refs_moved s0 s d ->
  wp (when b (UpdateCnt hit miss))
    (fun _ s' => wf s' live /\ keeps s0 s' /\ refs_moved s0 s' d) (fun _ _ => False) s.
Proof.
  intros Hwf Hk Hm. destruct b; [|by apply wp_ret]. apply wp_modify. split; [|done].
  destruct Hwf. by split.
Qed.

(** C32. The reservation of GenerateContinueContext for a request, without a host
    cache: it returns, for sure when the frames it asks for are free, and else
    unless a frame that an evicted prefix gives back cannot be queued.  The cached
    prefix is the longest run of cached prefixes and leaves at least one token to
    compute; a request that is new gets its length, no other changes; the frames
    asked for are those of the rest and 10 more tokens, and no int overflows; only
    entries that no request references and that are not part of this prefix are
    evicted; every reference count is what it was before; and when the frames are
    not there, nothing is left in the cache that could have been evicted. *)
Theorem GenerateContinueContext_reserve_correct now tokens ts max_length request s live :
  wf s live -> 0 < token_per_span_ (config s) ->
  0 <= sm_CountFreeFrame (gpu_spans s) -> 0 <= max_length ->
  input_len request = Z.of_nat (length tokens) ->
  (input_len request + 11) * 2 * layer_num_ (config s) < 2 ^ 31 ->
  let span := token_per_span_ (config s) in
  let l := hits (table CUDA s) tokens (span_cuts span 0 (Z.of_nat (length tokens))) in
  let plen := span * Z.of_nat (length l) in
  let needed := frames_for s (input_len request) plen max_length in
  wp (GenerateContinueContext_reserve now tokens ts max_length request)
     (fun '(request', frames, ok) s' =>
        frames = needed /\ plen <= Z.max 0 (input_len request - 1) /\
        request' = (if prefill_chunk_len request =? 0
                    then mkPrompt (input_len request) plen plen plen else request) /\
        reserved s l frames ok s')
     (fun e _ => not_taken_back e /\ sm_CountFreeFrame (gpu_spans s) < needed) s.
Proof.
  intros Hwf Hsp Hfree Hmax Hlen Hbound span l plen needed.
  unfold GenerateContinueContext_reserve, RefOnly. pose proof (wf_layers _ _ Hwf) as HLy.
  pose proof (hits_bound (table CUDA s) tokens span Hsp) as Hb. fold l plen in Hb. cbv zeta in Hb.
  assert (Hpl : 0 <= plen <= input_len request) by (unfold plen; nia).
  assert (Hsmall : input_len request + 11 < 2 ^ 30) by nia.
  destruct (frames_for_bound s (input_len request) plen max_length) as [_ Hn]; [done..|]. fold needed in Hn.
  wp_step. wp_step. wp_step.
  eapply wp_mono; [by apply (ref_loop_spec tokens ts _ s live)| |done].
  intros [[p g] nv] s1 (Hwf1 & Hk1 & -> & -> & -> & Hm1). simpl app in *.
  fold span in Hm1 |- *. fold l in Hm1 |- *. rewrite !Z.add_0_l. fold plen.
  wp_step. apply wp_int; [lia|]. wp_step.
  eapply wp_mono; [by eapply UpdateCnt_spec|clear s1 Hwf1 Hk1 Hm1|done].
  intros _ s1 (Hwf1 & Hk1 & Hm1). pose proof Hk1 as (Hcfg & _ & _ & _ & Hcnt & _).
  wp_step. eapply wp_mono; [apply context_frame_spec; rewrite ?Hcfg; done| |done].
  intros f s1' [-> ->]. unfold frames_for. rewrite Hcfg. fold (frames_for s (input_len request) plen max_length).
  fold needed. wp_step. wp_step. rewrite i32_small by lia. wp_step.
  eapply wp_mono; [apply (evict_when_spec now needed s1 live Hwf1); rewrite ?Hcnt; lia| |].
  - intros _ s2 (live2 & hs & Hd & Hu & Hor). wp_step.
    eapply wp_mono; [apply (reserve_unref_spec s s1 s2 live live2 l hs needed); auto| |done].
    + intros id Hin. by eapply hits_table.
    + intros u s3 H3. wp_step. wp_step. wp_step. split_and!; try done. lia.
  - intros e s2 [He Hlt]. split; [done|lia].
Qed.

(** EvictAllUnrefered, without a host cache, leaves exactly the entries
    that some request references, and gives the frames of all others back. *)
Theorem EvictAllUnrefered_leaves_referenced now s live :
  wf s live ->
  wp (EvictAllUnrefered now)
     (fun _ s' => exists live', wf s' live' /\ nodes s' = nodes s /\
        (forall h id, table CUDA s' !! h = Some id <->
           table CUDA s !! h = Some id /\
           exists n, nodes s !! id = Some n /\ 0 < ref_cnt n) /\
        sm_CountFreeFrame (gpu_spans s') = sm_CountFreeFrame (gpu_spans s) +
          2 * layer_num_ (config s) * Z.of_nat (length (evictor (gpu_union_ s))))
     (fun e _ => not_taken_back e) s.
Proof.
  intros Hwf.
  assert (Hrun : EvictAllUnrefered now s =
    evict_unrefered_by_num now (Z.of_nat (length (evictor (gpu_union_ s)))) s) by done.
  eapply wp_same_run; [exact Hrun|].
  eapply wp_mono; [apply (evict_unrefered_by_num_spec now _ s live Hwf); lia| |done].
  intros _ s' (hs & live' & Hd & Hf). exists live'.
  pose proof (Forall2_unreferenced s live _ hs Hwf Hf) as Hu.
  rewrite Nat2Z.id, firstn_all in Hf.
  destruct Hd as (Hwf' & _ & Hnodes & _ & _ & Htab & Hcnt & _).
  split; [done|]. split; [done|]. split; [|by rewrite Hcnt, <- (Forall2_length _ _ _ Hf)].
  intros h id. rewrite Htab. case_bool_decide as Hh.
  - split; [done|]. intros [T (n & N & R)].
    destruct (Hu h Hh) as (id' & n' & T' & N' & R'). simplify_eq. lia.
  - split; [|by intros [? _]]. intros T. split; [done|].
    destruct (wf_node _ _ Hwf _ _ T) as (n & N & _ & R & _). exists n. split; [done|].
    destruct (decide (ref_cnt n = 0)) as [E|]; [exfalso|lia].
    assert (Hin : id ∈ evictor (gpu_union_ s)) by (apply (wf_evictor _ _ Hwf); eauto).
    apply list_elem_of_lookup in Hin as [i Hi].
    destruct (Forall2_lookup_l _ _ _ _ _ Hf Hi) as (h' & Hh' & T').
    apply Hh. rewrite (wf_table_inj s live h h' id) by done.
    by eapply list_elem_of_lookup_2.
Qed.

(** EvictUnrefered, without a host cache: asked for more frames than are
    free, it deletes candidates in the evictor's order and never a referenced
    node, gives exactly their frames back, and ends with the frames free or
    with no candidate left. *)
Theorem EvictUnrefered_frees now target s live :
  wf s live -> 0 <= sm_CountFreeFrame (gpu_spans s) < target -> target < 2 ^ 31 ->
  wp (EvictUnrefered now target) (fun _ s' => exists live', evicted s live target s' live')
     (fun e _ => not_taken_back e) s.
Proof. apply EvictUnrefered_spec. Qed.

End proofs.

(** * A concrete manager

    One decoder layer, two tokens per span, span managers over the bump device,
    and a simple hash in the place of MurmurHash3. *)
Module Demo.
Abbreviation spans := (CacheSpanManager.t (DefaultCacheFrameManager.t BumpDevice.t)).
#[local] Instance demo_manager : SpanManager spans := default_manager.
#[local] Instance demo_laws : SpanManagerLaws spans := default_manager_laws.
#[local] Instance demo_murmur : Murmur := fun l => foldl (fun a x => (a * 31 + x + 7) mod 2 ^ 32) 0 l.
Abbreviation state := (t (S := spans) (C := spans)).

(** [frames] host frames, all made by [Init], as [init_cpu_union] does. *)
Definition host (frames : nat) : spans :=
  snd (CacheSpanManager.Init 64 (CacheSpanManager.new
    (DefaultCacheFrameManager.new (BumpDevice.mk ∅ frames) CPU (Z.of_nat frames) 0))).
Definition gpu (frames : nat) : spans := CacheSpanManager.set_inited 64 (spans_on frames).
Definition demo_config : Config := PrefixCache.mkConfig 2 1 300 64 256 4096.

(** A GPU with room for four nodes and a host with a table of [cap] nodes. *)
Definition start (frames : nat) (cap : Z) : state :=
  set_gpu_union (mkUnion 4 [] ∅)
    (PrefixCacheManager_new demo_config (gpu 8) (host frames) cap [0; 1]).

Definition fresh_cache : SpannedVirtualCache.t :=
  SpannedVirtualCache.new (VirtualCache.mkConfig AsCacheDefault 2 0 1) "r" 1.
Definition drop_cache (sv : spans * SpannedVirtualCache.t)
    : res unit * (spans * SpannedVirtualCache.t) :=
  match SpannedVirtualCache.layer_cache_ (snd sv) with
  | Some a :: _ => let '(r, (s', _)) := CacheArrayOps.destroy (fst sv, a) in (r, (s', snd sv))
  | _ => (Ok tt, sv)
  end.

(** A request from start to stop: its caches are made and filled from the
    prefix cache, grow by the new tokens, are inserted, dereferenced and
    dropped. *)
Definition request (ts : Z) (tokens : list Z) : M state unit := fun s =>
  let run :=
    on_k (SpannedVirtualCache.InitLayer 0 8 128 0 8);;
    on_v (SpannedVirtualCache.InitLayer 0 8 128 0 8);;
    '(plen, vec, new) ← RefFill 0 tokens tokens ts;
    on_k (SpannedVirtualCache.GetCache 0 (Z.of_nat (length new)));;
    on_v (SpannedVirtualCache.GetCache 0 (Z.of_nat (length new)));;
    '(_, (k, v)) ← gets id;
    vec' ← on_mgr (Insert 0 tokens plen ts (SpannedVirtualCache.layer_cache_ k)
                     (SpannedVirtualCache.layer_cache_ v) vec);
    on_mgr (UnRef vec');;
    on_k drop_cache;; on_v drop_cache in
  let '(r, (s', _)) := run (s, (fresh_cache, fresh_cache)) in (r, s').

Lemma start_wf frames : wf (start frames 0) [].
Proof.
  split; simpl; try done.
  - apply (spans_on_inv 8).
  - intros id. split; [by intros ?%elem_of_nil|]. by intros (h & n & T & _).
Qed.

(** After a request of five tokens two prefixes are cached, of two and of four
    tokens, none of them in use. *)
Definition warm : state := snd (request 1 [1; 2; 3; 4; 5] (start 0 0)).
Definition two_tokens : PrefixNode := mkNode [Some 1] [Some 4] 0 2 1 1 CUDA "0000000257" true.
Definition four_tokens : PrefixNode := mkNode [Some 2] [Some 5] 0 4 1 1 CUDA "0000247298" true.

Lemma warm_table : table CUDA warm = {[hash two_tokens := 1; hash four_tokens := 2]}.
Proof. vm_compute. reflexivity. Qed.
Lemma warm_nodes : nodes warm = {[1 := two_tokens; 2 := four_tokens]}.
Proof. vm_compute. reflexivity. Qed.
Lemma warm_entry h id : table CUDA warm !! h = Some id ->
  h = hash two_tokens /\ id = 1 \/ h = hash four_tokens /\ id = 2.
Proof.
  rewrite warm_table, lookup_insert_Some, lookup_singleton_Some. naive_solver.
Qed.

Definition frame_at (p : Z) : CacheFrame := mkFrame p 64 CUDA.
Lemma warm_spans : SpanManager.inv (gpu_spans warm) [5; 4; 2; 1].
Proof.
  split; [by apply (bool_decide_unpack _); vm_compute|]. split; [vm_compute; reflexivity|].
  split; [|by apply (bool_decide_unpack _); vm_compute].
  exists (frame_at <$> [5; 4; 2; 1]). split; [vm_compute; reflexivity|]. split_and!.
  - split; [apply (bool_decide_unpack _); by vm_compute|].
    apply (bool_decide_unpack _). by vm_compute.
  - vm_compute. reflexivity.
  - apply (bool_decide_unpack _). by vm_compute.
  - vm_compute. reflexivity.
Qed.

Lemma warm_node id n : nodes warm !! id = Some n -> id = 1 /\ n = two_tokens \/ id = 2 /\ n = four_tokens.
Proof. rewrite warm_nodes, lookup_insert_Some, lookup_singleton_Some. naive_solver. Qed.

Lemma warm_ok n : n = two_tokens \/ n = four_tokens ->
  0 <= ref_cnt n /\ node_ok n /\ cache_num n = layer_num_ (config warm) /\ NoDup (span_ids n) /\
  (forall x, x ∈ span_ids n -> x ∈ [5; 4; 2; 1] /\ HasExtraRef (gpu_spans warm) x = true).
Proof.
  intros [-> | ->]; (split; [done|]; split; [by split_and!|]; split; [by vm_compute|];
    split; [apply (bool_decide_unpack _); by vm_compute|]; apply Forall_forall;
    apply (bool_decide_unpack _); by vm_compute).
Qed.

Lemma warm_wf : wf warm [5; 4; 2; 1].
Proof.
  split.
  - vm_compute. split; [discriminate|reflexivity].
  - vm_compute. reflexivity.
  - apply warm_spans.
  - intros h id [[-> ->]|[-> ->]]%warm_entry.
    + exists two_tokens. rewrite warm_nodes. split; [done|]. split; [done|]. apply warm_ok. auto.
    + exists four_tokens. rewrite warm_nodes. split; [done|]. split; [done|]. apply warm_ok. auto.
  - intros h1 h2 id1 id2 n1 n2 x T1 T2 N1 N2 X1 X2.
    apply warm_entry in T1, T2. apply warm_node in N1, N2.
    destruct T1 as [[-> ->]|[-> ->]], T2 as [[-> ->]|[-> ->]]; try done;
      destruct N1 as [[? ->]|[? ->]], N2 as [[? ->]|[? ->]]; try done; unfold span_ids in *; simpl in *; set_solver.
  - vm_compute. reflexivity.
  - intros id. change (evictor (gpu_union_ warm)) with [2; 1].
    rewrite !elem_of_cons, elem_of_nil, warm_nodes. split.
    + intros [->|[->|[]]]; [exists (hash four_tokens), four_tokens|exists (hash two_tokens), two_tokens];
        by rewrite warm_table.
    + intros (h & n & [[-> ->]|[-> ->]]%warm_entry & _); auto.
  - rewrite warm_table. vm_compute. reflexivity.
Qed.

(** A new request shares two tokens with the cached prefixes and has to evict the
    other prefix: one of its two frames is missing. *)
Lemma GenerateContinueContext_reserve_correct_witness :
  fst (GenerateContinueContext_reserve 0 [1; 2; 3; 9; 9] 7 3 (mkPrompt 5 0 0 0) warm) =
    Ok (mkPrompt 5 2 2 2, 4, true) /\
  wp (GenerateContinueContext_reserve 0 [1; 2; 3; 9; 9] 7 3 (mkPrompt 5 0 0 0))
     (fun '(request', frames, ok) s' => frames = 4 /\ request' = mkPrompt 5 2 2 2 /\ reserved warm [1] frames ok s')
     (fun e _ => not_taken_back e) warm.
Proof.
  split; [vm_compute; reflexivity|].
  refine (wp_mono _ _ _ _ _ _ (GenerateContinueContext_reserve_correct 0 [1; 2; 3; 9; 9] 7 3
    (mkPrompt 5 0 0 0) warm [5; 4; 2; 1] warm_wf _ _ _ _ _) _ (fun _ _ Hx => proj1 Hx)).
  - vm_compute. reflexivity.
  - vm_compute. discriminate.
  - discriminate.
  - reflexivity.
  - vm_compute. reflexivity.
  - assert (Hl : hits (table CUDA warm) [1; 2; 3; 9; 9]
      (span_cuts (token_per_span_ (config warm)) 0 (Z.of_nat (length [1; 2; 3; 9; 9]))) = [1])
      by (vm_compute; reflexivity).
    rewrite Hl. intros [[request' frames] ok] s' (-> & _ & -> & Hr). exact (conj eq_refl (conj eq_refl Hr)).
Defined.

Lemma EvictAllUnrefered_leaves_referenced_witness :
  wp (EvictAllUnrefered 0) (fun _ s' => exists live', wf s' live') (fun e _ => not_taken_back e)
    (start 0 0).
Proof.
  refine (wp_mono _ _ _ _ _ _ (EvictAllUnrefered_leaves_referenced 0 (start 0 0) [] (start_wf 0))
    _ (fun _ _ Hx => Hx)).
  intros _ s' (live' & Hw & _). by exists live'.
Defined.

Lemma EvictUnrefered_frees_witness :
  wp (EvictUnrefered 0 4) (fun _ s' => exists live', evicted (start 0 0) [] 4 s' live')
    (fun e _ => not_taken_back e) (start 0 0).
Proof.
  refine (EvictUnrefered_frees 0 4 (start 0 0) [] (start_wf 0) _ _).
  - vm_compute. split; [intros Hx; discriminate Hx|reflexivity].
  - vm_compute. reflexivity.
Defined.

(** A request that only looks a prefix up moves the time of the host's node
    while the node is in the host's evictor.  Two prefixes on the host, the
    older one looked up again, and the next swap to the full host table
    searches a set that is no longer in order, which is undefined. *)
Theorem host_evictor_disordered :
  let run := request 1 [1; 2; 3];; request 2 [4; 5; 6];; EvictAllUnrefered 5;;
             RefOnly [1; 2; 3] 3 [];; request 4 [7; 8; 9];; EvictAllUnrefered 5 in
  fst (run (start 8 2)) = Err UB.
Proof. vm_compute. reflexivity. Qed.

(** Host frames are lost for good.  With three frames, an allocation of the
    K spans succeeds, that of the V spans fails, and the K span is never given
    back; with a table for one node, two nodes swapped out together both
    allocate, the second does not fit into the table, and its spans are never
    given back.  Even Reset does not bring them back. *)
Theorem host_frames_lost :
  let run := request 1 [1; 2; 3];; request 2 [4; 5; 6];; EvictAllUnrefered 5;; Reset in
  (let '(r, s) := run (start 3 2) in r = Ok tt /\
     sm_CountFrame (cpu_spans s) = 3 /\ sm_CountFreeFrame (cpu_spans s) = 2) /\
  (let '(r, s) := run (start 8 1) in r = Ok tt /\
     sm_CountFrame (cpu_spans s) = 8 /\ sm_CountFreeFrame (cpu_spans s) = 6).
Proof. vm_compute. done. Qed.
End Demo.
