(* ===== verification/ResultQueue.v ===== *)
(** The result queue of a request (src/csrc/common/result_queue.cpp, its
    elements in src/csrc/interface/allspark.h) and the fetching of new tokens
    that feeds it (src/csrc/common/as_engine.cpp).  The engine's loop appends
    and sets the status, a client calls Get; their atomic steps interleave
    freely.  The lock-free queue is third-party code; with one producer it is
    first-in first-out. *)
From stdpp Require Import base list relations.
From S2P Require Import Prelude.

(** * Elements *)

(** Probabilities are opaque values. *)
Record GeneratedElements := mkElements {
  ids_from_generate : list Z;
  log_probs_list : list (list (Z * Z));
  token_logprobs_list : list Z;
  prefix_cache_len : Z;
  prefix_len_gpu : Z;
  prefix_len_cpu : Z;
}.

Definition empty_elements : GeneratedElements := mkElements [] [] [] 0 0 0.

(** Only the first entry of each vector is taken over; [None] is reading the
    first id of an empty vector. *)
Definition AppendNewSingleElementToEnd (total rhs : GeneratedElements)
    : option GeneratedElements :=
  match ids_from_generate rhs with
  | [] => None
  | id :: _ =>
      Some (mkElements (ids_from_generate total ++ [id])
        (log_probs_list total ++ take 1 (log_probs_list rhs))
        (token_logprobs_list total ++ take 1 (token_logprobs_list rhs))
        (prefix_cache_len rhs) (prefix_len_gpu rhs) (prefix_len_cpu rhs))
  end.

(** * Fetching *)
Record RequestHandle := mkHandle { context_length : Z; generate_length : Z }.

(** [FetchGenerationResultAndIncreaseCounter]: the tokens of
    "generated_ids_global" beyond those already fetched, with their
    probabilities when asked for; [None] is a read past a vector. *)
Definition FetchGenerationResult (host : list Z) (logprobs : bool)
    (probs : list (list (Z * Z))) (token_probs : list Z) (prefix_len plen_gpu : Z)
    (h : RequestHandle) : option (option GeneratedElements * RequestHandle) :=
  let new_length := Z.of_nat (length host) in
  let old_length := context_length h + generate_length h in
  if new_length =? 0 then Some (None, h)
  else if old_length <? new_length then
    let count := Z.to_nat (new_length - old_length) in
    let at_ {A} (l : list A) := take count (drop (Z.to_nat (generate_length h)) l) in
    if logprobs && ((length (at_ probs) <? count) || (length (at_ token_probs) <? count))%nat
    then None
    else Some (Some (mkElements (drop (Z.to_nat old_length) host)
                 (if logprobs then at_ probs else [])
                 (if logprobs then at_ token_probs else [])
                 prefix_len plen_gpu (prefix_len - plen_gpu)),
               mkHandle (context_length h) (new_length - context_length h))
  else Some (None, h).

(** * The queue and its client *)
(** The statuses that end GetWithTimeout, and those after which the engine
    leaves the queue alone. *)
Definition ends_get (st : GenerateRequestStatus) : bool :=
  match st with GenerateFinished | GenerateInterrupted | InternalError => true | _ => false end.
Definition finished (st : GenerateRequestStatus) : bool :=
  match st with GenerateFinished | GenerateInterrupted => true | _ => false end.

(** Where the client is: outside, at the head of the loop of
    [GetWithTimeout], in its first [drainAllElements], about to test the
    status, in the last drain, before its waiting part, or in the loop of
    [GetNoWait]; [Crashed] after an undefined read. *)
Inductive Client :=
  | Idle
  | Top (timeout_ms : Z) (total : GeneratedElements)
  | Drain (timeout_ms : Z) (total : GeneratedElements)
  | Status (timeout_ms : Z) (total : GeneratedElements)
  | FinalDrain (total : GeneratedElements)
  | Waiting (timeout_ms : Z) (total : GeneratedElements)
  | NoWait (total : GeneratedElements)
  | Crashed.

(** [appended] and [returned] record the calls: what was appended and what
    each Get returned, [None] for a null pointer. *)
Record ResultQueue := mkQueue {
  store_queue_ : list GeneratedElements;
  status_ : GenerateRequestStatus;
  closed_ : bool;
  generate_length_ : Z;
  client : Client;
  appended : list GeneratedElements;
  returned : list (option GeneratedElements);
}.

Definition ResultQueue_new : ResultQueue := mkQueue [] Init false 0 Idle [] [].

Definition set_client (c : Client) (q : ResultQueue) : ResultQueue :=
  mkQueue (store_queue_ q) (status_ q) (closed_ q) (generate_length_ q) c (appended q)
    (returned q).
Definition return_ (r : option GeneratedElements) (q : ResultQueue) : ResultQueue :=
  mkQueue (store_queue_ q) (status_ q) (closed_ q) (generate_length_ q) Idle (appended q)
    (returned q ++ [r]).

(** ** The engine's side *)
Definition AppendGenerateElement (e : GeneratedElements) (q : ResultQueue) : ResultQueue :=
  mkQueue (store_queue_ q ++ [e]) (status_ q) (closed_ q)
    (u64 (generate_length_ q + Z.of_nat (length (ids_from_generate e)))) (client q)
    (appended q ++ [e]) (returned q).
Definition SetStatus (st : GenerateRequestStatus) (q : ResultQueue) : ResultQueue :=
  mkQueue (store_queue_ q) st (closed_ q) (generate_length_ q) (client q) (appended q)
    (returned q).
Definition close (q : ResultQueue) : ResultQueue :=
  mkQueue (store_queue_ q) (status_ q) true (generate_length_ q) (client q) (appended q)
    (returned q).

(** ** The client's side *)
Definition Get (timeout_ms : Z) (q : ResultQueue) : ResultQueue :=
  set_client (Top timeout_ms empty_elements) q.
Definition GetNoWait (q : ResultQueue) : ResultQueue := set_client (NoWait empty_elements) q.

(** [try_dequeue] and the appending of what it returned, with the program
    point after either answer. *)
Definition dequeue (total : GeneratedElements) (found : GeneratedElements -> Client)
    (empty : ResultQueue -> ResultQueue) (q : ResultQueue) : ResultQueue :=
  match store_queue_ q with
  | [] => empty q
  | e :: rest =>
      let q' := mkQueue rest (status_ q) (closed_ q) (generate_length_ q) (client q)
                  (appended q) (returned q) in
      match AppendNewSingleElementToEnd total e with
      | Some total' => set_client (found total') q'
      | None => set_client Crashed q'
      end
  end.

(** One atomic step; [timed_out] and [warned] are the clock's answers in the
    waiting part: the caller's timeout and the ten seconds of the warning have
    passed. *)
Definition client_step (timed_out warned : bool) (q : ResultQueue) : ResultQueue :=
  match client q with
  | Idle | Crashed => q
  | Top tm total =>
      if closed_ q then return_ (Some total) q
      else dequeue total (Drain tm) (set_client (Status tm total)) q
  | Drain tm total => dequeue total (Drain tm) (set_client (Top tm total)) q
  | Status tm total =>
      if ends_get (status_ q) then set_client (FinalDrain total) q
      else if (0 <? length (ids_from_generate total))%nat then return_ (Some total) q
      else set_client (Waiting tm total) q
  | FinalDrain total => dequeue total FinalDrain (return_ (Some total)) q
  | Waiting tm total =>
      if (0 <? tm) && timed_out then return_ None q
      else if warned && closed_ q then return_ (Some total) q
      else set_client (Top tm total) q
  | NoWait total =>
      if closed_ q then return_ (Some total) q
      else dequeue total NoWait (return_ (Some total)) q
  end.

(** The engine appends non-empty elements while the request is neither
    finished nor interrupted, and does not take such a status back. *)
Inductive step (q : ResultQueue) : ResultQueue -> Prop :=
  | step_append e :
      finished (status_ q) = false -> ids_from_generate e <> [] ->
      step q (AppendGenerateElement e q)
  | step_status st :
      (finished (status_ q) = true -> finished st = true) -> step q (SetStatus st q)
  | step_close : step q (close q)
  | step_get tm : client q = Idle -> step q (Get tm q)
  | step_get_no_wait : client q = Idle -> step q (GetNoWait q)
  | step_client timed_out warned :
      client q <> Idle -> step q (client_step timed_out warned q).

(** * Nothing is lost, doubled or reordered *)

(** The ids the client has been given, and those it holds. *)
Definition ids_of (r : option GeneratedElements) : list Z :=
  match r with Some e => ids_from_generate e | None => [] end.
Definition delivered (q : ResultQueue) : list Z := returned q ≫= ids_of.
Definition held (q : ResultQueue) : list Z :=
  match client q with
  | Top _ t | Drain _ t | Status _ t | FinalDrain t | Waiting _ t | NoWait t =>
      ids_from_generate t
  | Idle | Crashed => []
  end.
(** The id each element stands for. *)
Definition first_ids (l : list GeneratedElements) : list Z :=
  l ≫= fun e => take 1 (ids_from_generate e).

Record queue_inv (q : ResultQueue) : Prop := mk_queue_inv {
  inv_ids : delivered q ++ held q ++ first_ids (store_queue_ q) = first_ids (appended q);
  inv_nonempty : Forall (fun e => ids_from_generate e <> []) (store_queue_ q);
  inv_running : client q <> Crashed;
  inv_waiting : forall tm t, client q = Waiting tm t -> ids_from_generate t = [];
}.

Lemma first_ids_app l1 l2 : first_ids (l1 ++ l2) = first_ids l1 ++ first_ids l2.
Proof. unfold first_ids. apply bind_app. Qed.

Lemma delivered_return r q : delivered (return_ r q) = delivered q ++ ids_of r.
Proof. unfold delivered, return_. simpl. rewrite bind_app. simpl. by rewrite app_nil_r. Qed.

Lemma append_ids total e t' :
  AppendNewSingleElementToEnd total e = Some t' ->
  ids_from_generate t' = ids_from_generate total ++ take 1 (ids_from_generate e).
Proof.
  unfold AppendNewSingleElementToEnd. destruct (ids_from_generate e); [done|].
  by intros [= <-].
Qed.

(** Returning what is held, or nothing when nothing is held. *)
Lemma inv_return q r :
  queue_inv q -> ids_of r = held q -> queue_inv (return_ r q).
Proof.
  intros [Hi Hn Hr Hw] Hh. split; try done.
  rewrite delivered_return, Hh. unfold held at 2. simpl. by rewrite <- app_assoc.
Qed.

Lemma inv_set_client q c :
  queue_inv q -> c <> Crashed -> held (set_client c q) = held q ->
  (forall tm t, c = Waiting tm t -> ids_from_generate t = []) ->
  queue_inv (set_client c q).
Proof.
  intros [Hi Hn Hr Hw] Hc Hh Hw'. split; try done. rewrite Hh. exact Hi.
Qed.

Lemma inv_dequeue q total found empty :
  queue_inv q -> held q = ids_from_generate total ->
  (forall t, found t <> Crashed /\ (forall tm t', found t <> Waiting tm t')) ->
  (forall t q, held (set_client (found t) q) = ids_from_generate t) ->
  queue_inv (empty q) -> queue_inv (dequeue total found empty q).
Proof.
  intros [Hi Hn Hr Hw] Hh Hf Hfh He. unfold dequeue.
  destruct (store_queue_ q) as [|e rest] eqn:Hq; [done|].
  apply Forall_cons in Hn as [Hne Hn].
  destruct (AppendNewSingleElementToEnd total e) as [t'|] eqn:Ha.
  - apply append_ids in Ha. destruct (Hf t') as [Hf1 Hf2]. split; [|done|done|].
    + rewrite Hfh, Ha. unfold delivered in *. simpl in *. rewrite Hh in Hi.
      rewrite <- Hi, <- !app_assoc. done.
    + simpl. intros tm t Heq. by destruct (Hf2 tm t).
  - unfold AppendNewSingleElementToEnd in Ha. by destruct (ids_from_generate e).
Qed.

Lemma client_step_inv b w q : queue_inv q -> queue_inv (client_step b w q).
Proof.
  intros Hinv. unfold client_step.
  assert (Hstay : forall c, held (set_client c q) = held q -> c <> Crashed ->
    (forall tm t, c = Waiting tm t -> ids_from_generate t = []) -> queue_inv (set_client c q))
    by (intros; by apply inv_set_client).
  destruct (client q) as [|tm t|tm t|tm t|t|tm t|t|] eqn:Hc; try done;
    assert (Hh : held q = ids_from_generate t) by (unfold held; by rewrite Hc).
  - destruct (closed_ q); [by apply inv_return|].
    apply inv_dequeue; try done. by apply Hstay.
  - apply inv_dequeue; try done. by apply Hstay.
  - destruct (ends_get (status_ q)); [by apply Hstay|].
    destruct (_ <? _)%nat eqn:E; [by apply inv_return|].
    apply Hstay; [done|done|]. intros ? ? [= _ <-].
    destruct (ids_from_generate t); [done|]. apply Nat.ltb_ge in E. simpl in E. lia.
  - apply inv_dequeue; try done. by apply inv_return.
  - pose proof (inv_waiting _ Hinv _ _ Hc) as Hnil.
    destruct (_ && b); [apply inv_return; [done|by rewrite Hh]|].
    destruct (w && closed_ q); [by apply inv_return|]. by apply Hstay.
  - destruct (closed_ q); [by apply inv_return|].
    apply inv_dequeue; try done. by apply inv_return.
Qed.

Lemma step_inv q q' : step q q' -> queue_inv q -> queue_inv q'.
Proof.
  intros [e Hf Hne|st Hst| |tm Hc|Hc|b w Hc] Hinv.
  - destruct Hinv as [Hi Hn Hr Hw]. split; try done.
    + change (delivered q ++ held q ++ first_ids (store_queue_ q ++ [e])
              = first_ids (appended q ++ [e])).
      rewrite !first_ids_app, <- Hi, <- !app_assoc. done.
    + apply Forall_app. by split; [|constructor].
  - destruct Hinv as [Hi Hn Hr Hw]. by split.
  - destruct Hinv as [Hi Hn Hr Hw]. by split.
  - apply inv_set_client; [done|done| |done]. unfold held. by rewrite Hc.
  - apply inv_set_client; [done|done| |done]. unfold held. by rewrite Hc.
  - by apply client_step_inv.
Qed.

Lemma queue_reachable_inv q : rtc step ResultQueue_new q -> queue_inv q.
Proof.
  assert (H0 : queue_inv ResultQueue_new) by by split.
  intros Hr. induction Hr as [|q1 q2 q3 Hs Hr IH]; [done|]. by apply IH, (step_inv q1).
Qed.

(** ** Properties *)
Lemma fifo_holds q :
  rtc step ResultQueue_new q ->
  delivered q ++ held q ++ first_ids (store_queue_ q) = first_ids (appended q) /\
  client q <> Crashed.
Proof. intros Hr. destruct (queue_reachable_inv q Hr) as [Hi _ Hc _]. done. Qed.

(** C40. In every interleaving of the engine's and the client's steps, the ids
    the client was given, those it holds and those in the queue are together,
    in order, the first ids of the elements appended: nothing is lost, doubled
    or reordered, and no empty element is ever read. *)
Theorem result_queue_fifo q :
  rtc step ResultQueue_new q ->
  delivered q ++ held q ++ first_ids (store_queue_ q) = first_ids (appended q) /\
  client q <> Crashed.
Proof. apply fifo_holds. Qed.

(** Once the request is finished or interrupted nothing more is appended. *)
Lemma step_finished q q' :
  step q q' -> finished (status_ q) = true ->
  finished (status_ q') = true /\ appended q' = appended q.
Proof.
  assert (Hd : forall total found empty q,
    status_ (empty q) = status_ q -> appended (empty q) = appended q ->
    status_ (dequeue total found empty q) = status_ q /\
    appended (dequeue total found empty q) = appended q).
  { intros total found empty p H1 H2. unfold dequeue. destruct (store_queue_ p); [done|].
    by destruct (AppendNewSingleElementToEnd _ _). }
  intros [e Hf Hne|st Hst| |tm Hc|Hc|b w Hc] Hfin; try done; [congruence|by auto|].
  enough (status_ (client_step b w q) = status_ q /\
          appended (client_step b w q) = appended q) as [-> ->] by done.
  unfold client_step. destruct (client q); try done;
    repeat case_match; try done; by apply Hd.
Qed.

Lemma steps_finished q q' :
  rtc step q q' -> finished (status_ q) = true -> appended q' = appended q.
Proof.
  intros Hr. induction Hr as [|q1 q2 q3 Hs Hr IH]; [done|]. intros Hf.
  destruct (step_finished _ _ Hs Hf) as [Hf' Ha]. by rewrite IH, Ha.
Qed.

Lemma delivered_grows q q' : step q q' -> exists l, delivered q' = delivered q ++ l.
Proof.
  assert (Hd : forall total found empty q,
    (exists l, delivered (empty q) = delivered q ++ l) ->
    exists l, delivered (dequeue total found empty q) = delivered q ++ l).
  { intros total found empty p He. unfold dequeue. destruct (store_queue_ p); [done|].
    destruct (AppendNewSingleElementToEnd _ _); exists []; by rewrite app_nil_r. }
  assert (Hnil : forall q, exists l, delivered q = delivered q ++ l)
    by (intros p; exists []; by rewrite app_nil_r).
  intros [e Hf Hne|st Hst| |tm Hc|Hc|b w Hc]; try exact (Hnil q).
  unfold client_step. destruct (client q); repeat case_match; try exact (Hnil q);
    try (apply Hd); try exact (Hnil q); eexists; apply delivered_return.
Qed.

Lemma delivered_grows_rtc q q' : rtc step q q' -> exists l, delivered q' = delivered q ++ l.
Proof.
  intros Hr. induction Hr as [|q1 q2 q3 Hs Hr [l Hl]]; [exists []; by rewrite app_nil_r|].
  destruct (delivered_grows _ _ Hs) as [l' Hl']. exists (l' ++ l). by rewrite Hl, Hl', app_assoc.
Qed.

(** The Get that sees the end of the request misses nothing: when it
    returns after its last drain, the client has been given every id appended
    so far; and when the request is then finished or interrupted, nothing is
    ever appended or delivered after it. *)
Theorem final_get_complete q b w total :
  rtc step ResultQueue_new q -> client q = FinalDrain total ->
  client (client_step b w q) = Idle ->
  let q' := client_step b w q in
  delivered q' = first_ids (appended q') /\
  (finished (status_ q') = true -> forall q'', rtc step q' q'' ->
     appended q'' = appended q' /\ delivered q'' = delivered q').
Proof.
  intros Hr Hc Hidle q'.
  assert (Hr' : rtc step ResultQueue_new q').
  { eapply rtc_r; [exact Hr|]. apply step_client. by rewrite Hc. }
  assert (Hempty : store_queue_ q' = []).
  { unfold q' in *. unfold client_step, dequeue in *. rewrite Hc in *.
    destruct (store_queue_ q) as [|e rest] eqn:Hq; [done|].
    by destruct (AppendNewSingleElementToEnd total e). }
  destruct (fifo_holds q' Hr') as [Hfifo _].
  assert (Hdel : delivered q' = first_ids (appended q')).
  { rewrite <- Hfifo, Hempty. unfold held. fold q' in Hidle. rewrite Hidle.
    by rewrite app_nil_r. }
  split; [done|]. intros Hfin q'' Hr''.
  pose proof (steps_finished q' q'' Hr'' Hfin) as Ha. split; [done|].
  destruct (delivered_grows_rtc q' q'' Hr'') as [l Hl].
  assert (Hrr : rtc step ResultQueue_new q'') by by transitivity q'.
  destruct (fifo_holds q'' Hrr) as [Hfifo'' _].
  rewrite Ha, <- Hdel, Hl, <- app_assoc in Hfifo''.
  rewrite <- (app_nil_r (delivered q')) in Hfifo'' at 2.
  apply app_inv_head in Hfifo''. apply app_nil in Hfifo'' as [-> _]. by rewrite Hl, app_nil_r.
Qed.

(** ** A Get that finds elements returns them *)
Fixpoint run_client (n : nat) (q : ResultQueue) : ResultQueue :=
  match n with O => q | S k => run_client k (client_step false false q) end.

Lemma run_client_add n m q : run_client (n + m) q = run_client m (run_client n q).
Proof. revert q. induction n as [|n IH]; intros q; [done|]. simpl. apply IH. Qed.

(** Dequeuing what is there, in the first drain. *)
Lemma drain_steps es : forall tm total st cl g ap re,
  Forall (fun e => ids_from_generate e <> []) es ->
  exists total',
    run_client (length es + 1) (mkQueue es st cl g (Drain tm total) ap re)
    = mkQueue [] st cl g (Top tm total') ap re /\
    ids_from_generate total' = ids_from_generate total ++ first_ids es.
Proof.
  induction es as [|e es IH]; intros tm total st cl g ap re Hne.
  { exists total. split; [done|]. by rewrite app_nil_r. }
  apply Forall_cons in Hne as [He Hne]. simpl length.
  change (run_client (S (length es) + 1) (mkQueue (e :: es) st cl g (Drain tm total) ap re))
    with (run_client (length es + 1)
      (client_step false false (mkQueue (e :: es) st cl g (Drain tm total) ap re))).
  unfold client_step, dequeue. simpl.
  destruct (AppendNewSingleElementToEnd total e) as [t'|] eqn:Ha.
  - destruct (IH tm t' st cl g ap re Hne) as (total' & Hrun & Hids). exists total'.
    split; [exact Hrun|]. by rewrite Hids, (append_ids _ _ _ Ha), <- app_assoc.
  - unfold AppendNewSingleElementToEnd in Ha. by destruct (ids_from_generate e).
Qed.

(** A Get on a queue that is not closed and holds elements returns, after a
    number of its own steps that does not depend on the clock, with the first
    id of every element, whatever the status. *)
Theorem Get_returns_elements q tm :
  client q = Idle -> closed_ q = false -> store_queue_ q <> [] ->
  Forall (fun e => ids_from_generate e <> []) (store_queue_ q) ->
  exists n, let q' := run_client n (Get tm q) in
    client q' = Idle /\ store_queue_ q' = [] /\
    exists e, returned q' = returned q ++ [Some e] /\
      ids_from_generate e = first_ids (store_queue_ q).
Proof.
  destruct q as [es st cl g c ap re]. simpl. intros -> -> Hnil Hne.
  destruct es as [|e es]; [done|]. apply Forall_cons in Hne as [He Hne].
  destruct (AppendNewSingleElementToEnd empty_elements e) as [t1|] eqn:Ha.
  2:{ unfold AppendNewSingleElementToEnd in Ha. by destruct (ids_from_generate e). }
  destruct (drain_steps es tm t1 st false g ap re Hne) as (total & Hrun & Hids).
  assert (Htotal : ids_from_generate total = first_ids (e :: es)).
  { rewrite Hids, (append_ids _ _ _ Ha). done. }
  assert (Hpos : (0 <? length (ids_from_generate total))%nat = true).
  { rewrite Htotal. change (first_ids (e :: es)) with (take 1 (ids_from_generate e) ++ first_ids es).
    destruct (ids_from_generate e); [done|]. done. }
  exists (1 + ((length es + 1) + (if ends_get st then 3 else 2)))%nat.
  assert (H1 : run_client 1 (Get tm (mkQueue (e :: es) st false g Idle ap re))
    = mkQueue es st false g (Drain tm t1) ap re).
  { simpl. unfold client_step, dequeue. simpl. by rewrite Ha. }
  rewrite (run_client_add 1), H1, (run_client_add (length es + 1)), Hrun.
  destruct (ends_get st) eqn:Hst; simpl; unfold client_step; simpl;
    rewrite ?Hst; simpl; rewrite ?Hpos; simpl; (split; [done|]); (split; [done|]); eauto.
Qed.

Definition demo_element (id : Z) : GeneratedElements := mkElements [id] [] [] 0 0 0.
(** Two elements appended, and the request finished. *)
Definition demo_queue : ResultQueue :=
  SetStatus GenerateFinished
    (AppendGenerateElement (demo_element 8) (AppendGenerateElement (demo_element 7) ResultQueue_new)).

Lemma demo_reachable : rtc step ResultQueue_new demo_queue.
Proof.
  eapply rtc_l; [by apply (step_append _ (demo_element 7))|].
  eapply rtc_l; [by apply (step_append _ (demo_element 8))|].
  eapply rtc_l; [by apply (step_status _ GenerateFinished)|]. by apply rtc_refl.
Qed.

Lemma client_run_reachable n q :
  rtc step ResultQueue_new q -> client q <> Idle -> rtc step ResultQueue_new (run_client n q).
Proof.
  revert q. induction n as [|n IH]; intros q Hr Hc; [done|]. simpl.
  assert (Hs : rtc step ResultQueue_new (client_step false false q)).
  { eapply rtc_r; [exact Hr|]. by apply step_client. }
  destruct (client (client_step false false q)) eqn:E; try (apply IH; [done|congruence]).
  clear IH. assert (Hid : forall m p, client p = Idle -> run_client m p = p).
  { induction m as [|m IH]; intros p Hp; [done|]. simpl.
    assert (client_step false false p = p) as -> by (unfold client_step; by rewrite Hp).
    by apply IH. }
  by rewrite Hid.
Qed.

Lemma Get_returns_elements_witness :
  exists n, let q' := run_client n (Get 100 demo_queue) in
    client q' = Idle /\ store_queue_ q' = [] /\
    exists e, returned q' = [Some e] /\ ids_from_generate e = [7; 8].
Proof.
  refine (Get_returns_elements demo_queue 100 _ _ _ _); try done.
  by repeat constructor.
Defined.

Lemma result_queue_fifo_witness :
  delivered demo_queue ++ held demo_queue ++ first_ids (store_queue_ demo_queue) = [7; 8] /\
  client demo_queue <> Crashed.
Proof. exact (result_queue_fifo demo_queue demo_reachable). Defined.

Lemma final_get_complete_witness :
  let q := run_client 5 (Get (-1) demo_queue) in
  let q' := client_step false false q in
  delivered q' = [7; 8] /\
  (finished (status_ q') = true -> forall q'', rtc step q' q'' ->
     appended q'' = appended q' /\ delivered q'' = delivered q').
Proof.
  refine (final_get_complete (run_client 5 (Get (-1) demo_queue)) false false
    (mkElements [7; 8] [] [] 0 0 0) _ _ _); [|vm_compute; reflexivity|vm_compute; reflexivity].
  apply client_run_reachable; [|done].
  eapply rtc_r; [exact demo_reachable|]. by apply step_get.
Defined.

(** * Fetching covers the output *)

(** The ids fetched by successive calls on successive outputs. *)
Fixpoint fetch_all (outputs : list (list Z)) (h : RequestHandle)
    : option (list (list Z) * RequestHandle) :=
  match outputs with
  | [] => Some ([], h)
  | host :: rest =>
      match FetchGenerationResult host false [] [] 0 0 h with
      | None => None
      | Some (r, h') =>
          match fetch_all rest h' with
          | Some (ids, h'') => Some (ids_of r :: ids, h'')
          | None => None
          end
      end
  end.

(** Every output extends the one before. *)
Fixpoint growing (prev : list Z) (outputs : list (list Z)) : Prop :=
  match outputs with
  | [] => True
  | host :: rest => (exists l, host = prev ++ l) /\ growing host rest
  end.

Lemma fetch_one prev l h :
  0 <= context_length h -> 0 <= generate_length h ->
  Z.of_nat (length prev) = context_length h + generate_length h ->
  exists r h', FetchGenerationResult (prev ++ l) false [] [] 0 0 h = Some (r, h') /\
    ids_of r = l /\ context_length h' = context_length h /\ 0 <= generate_length h' /\
    Z.of_nat (length (prev ++ l)) = context_length h' + generate_length h'.
Proof.
  intros Hc Hg Hlen. unfold FetchGenerationResult. rewrite length_app, Nat2Z.inj_add.
  destruct l as [|x l].
  - simpl length. rewrite Z.add_0_r. exists None, h.
    destruct (Z.of_nat (length prev) =? 0); [split_and!; try done; lia|].
    rewrite (proj2 (Z.ltb_ge _ _)) by lia. split_and!; try done; lia.
  - simpl length. rewrite (proj2 (Z.eqb_neq _ _)) by lia.
    rewrite (proj2 (Z.ltb_lt _ _)) by lia. simpl. do 2 eexists. split; [done|]. simpl.
    rewrite <- Hlen, Nat2Z.id, drop_app_length. split_and!; try done; lia.
Qed.

(** Over any sequence of growing outputs the fetches return consecutive
    pieces: together they are exactly the tokens beyond the context, each
    once and in order, and the counter ends at their number. *)
Theorem fetch_covers_output outputs prev h :
  0 <= context_length h -> 0 <= generate_length h ->
  Z.of_nat (length prev) = context_length h + generate_length h ->
  growing prev outputs ->
  exists ids h', fetch_all outputs h = Some (ids, h') /\
    prev ++ mjoin ids = List.last outputs prev /\
    context_length h' + generate_length h' = Z.of_nat (length (List.last outputs prev)).
Proof.
  revert prev h. induction outputs as [|host rest IH]; intros prev h Hc Hg Hlen Hgr.
  { exists [], h. split; [done|]. by rewrite app_nil_r. }
  destruct Hgr as [[l ->] Hgr]. simpl fetch_all.
  destruct (fetch_one prev l h Hc Hg Hlen) as (r & h1 & -> & Hr & Hc1 & Hg1 & Hl1).
  destruct (IH (prev ++ l) h1) as (ids & h2 & -> & Hids & Hh2); [lia|done|done|done|].
  exists (ids_of r :: ids), h2. split; [done|]. rewrite Hr.
  assert (Hlast : List.last ((prev ++ l) :: rest) prev = List.last rest (prev ++ l)).
  { destruct rest as [|y rest]; [done|]. simpl.
    clear. revert y. induction rest as [|z rest IH]; intros y; [done|]. apply IH. }
  rewrite Hlast. split; [|done]. rewrite <- Hids. simpl. by rewrite <- app_assoc.
Qed.

Lemma fetch_covers_output_witness :
  exists ids h', fetch_all [[1; 2; 3]; [1; 2; 3]; [1; 2; 3; 4; 5]] (mkHandle 2 0) = Some (ids, h') /\
    [1; 2] ++ mjoin ids = [1; 2; 3; 4; 5] /\ context_length h' + generate_length h' = 5.
Proof.
  refine (fetch_covers_output [[1; 2; 3]; [1; 2; 3]; [1; 2; 3; 4; 5]] [1; 2] (mkHandle 2 0)
    _ _ _ _); simpl; try lia.
  split; [by exists [3]|]. split; [by exists []|]. split; [by exists [4; 5]|done].
Defined.

(** A fetch can return several tokens at once, and the queue's length counts
    them all, but a Get hands over only the first of each element: the others
    are lost to the client, with their probabilities. *)
Theorem Get_drops_tokens :
  let e := mkElements [13; 14] [] [] 0 0 0 in
  let q := run_client 5 (Get (-1) (AppendGenerateElement e ResultQueue_new)) in
  FetchGenerationResult [10; 11; 12; 13; 14] false [] [] 0 0 (mkHandle 2 1)
    = Some (Some e, mkHandle 2 3) /\
  client q = Idle /\ generate_length_ q = 2 /\ delivered q = [13].
Proof. vm_compute. done. Qed.
