(* ===== verification/ModelState.v ===== *)
(** The state of a model's scheduler (src/csrc/core/model/model.h,
    common/generate_context.h, common/request.h) and what it runs on: tensors,
    requests and generate contexts as shared mutable objects in heaps, the
    tables of [AsModel] and [RuntimeContext], and the interfaces of the device
    (clock, LoRA manager, cache frames, prefix cache, a request's virtual
    caches) and of the operators. *)
From stdpp Require Import base list gmap strings.
From S2P Require Import Prelude FrameManager.

(** * Tensors of token ids

    An int64 tensor [[dim0, dim1]]: its shape and the elements its buffer has
    room for, [None] where nothing was written yet. *)
Record Tensor := mkTensor { dim0 : Z; dim1 : Z; cells : list (option Z) }.

Definition Count (t : Tensor) : Z := dim0 t * dim1 t.

(** [AsTensor::SetShape]: [DenseData::Resize] keeps a buffer that is large
    enough and replaces it otherwise. *)
Definition SetShape (d0 d1 : Z) (t : Tensor) : Tensor :=
  let n := Z.to_nat (d0 * d1) in
  mkTensor d0 d1 (if (n <=? length (cells t))%nat then cells t else replicate n None).

(** The elements within the shape; reading one that was never written is
    undefined. *)
Definition elements (t : Tensor) : list (option Z) := take (Z.to_nat (Count t)) (cells t).
Definition tokens (t : Tensor) : option (list Z) := mapM id (elements t).

(** A [TensorMap] maps names to shared tensors. *)
Abbreviation TensorMap := (gmap string nat).

(** * Requests *)

(** The fields of [GenerateConfig] the scheduler reads. *)
Record GenerateConfig := mkGenCfg {
  do_sample : bool;
  num_beams : Z;
  early_stopping : bool;
  eos_token_id : Z;
  stop_words_ids : list (list Z);
  max_length : Z;
  lora_name : string;
}.

Definition set_max_length (n : Z) (c : GenerateConfig) : GenerateConfig :=
  mkGenCfg (do_sample c) (num_beams c) (early_stopping c) (eos_token_id c)
    (stop_words_ids c) n (lora_name c).

(** [Request]; its time stamps for statistics, log probabilities and
    multi-media inputs are left out. *)
Record Request := mkRequest {
  request_id : string;
  inputs : TensorMap;
  outputs : TensorMap;
  interim : TensorMap;
  gen_cfg : GenerateConfig;
  finish : bool;
  input_len : Z;
  origin_len : Z;
  prefill_chunk_len : Z;
  prefix_len : Z;
  prefix_len_gpu : Z;
  status : GenerateRequestStatus;
  start_ts : Z;
}.

(** [Request::Request(request_id_, inputs_, outputs_, gen_cfg, interim_)] *)
Definition Request_new (now : Z) (id : string) (ins outs : TensorMap) (cfg : GenerateConfig)
    (itm : TensorMap) : Request :=
  mkRequest id ins outs itm cfg false 0 0 0 0 0 Init now.

Definition set_interim (m : TensorMap) (q : Request) : Request :=
  mkRequest (request_id q) (inputs q) (outputs q) m (gen_cfg q) (finish q) (input_len q)
    (origin_len q) (prefill_chunk_len q) (prefix_len q) (prefix_len_gpu q) (status q)
    (start_ts q).
Definition set_cfg (c : GenerateConfig) (q : Request) : Request :=
  mkRequest (request_id q) (inputs q) (outputs q) (interim q) c (finish q) (input_len q)
    (origin_len q) (prefill_chunk_len q) (prefix_len q) (prefix_len_gpu q) (status q)
    (start_ts q).
Definition set_finish (b : bool) (q : Request) : Request :=
  mkRequest (request_id q) (inputs q) (outputs q) (interim q) (gen_cfg q) b (input_len q)
    (origin_len q) (prefill_chunk_len q) (prefix_len q) (prefix_len_gpu q) (status q)
    (start_ts q).
Definition set_status (st : GenerateRequestStatus) (q : Request) : Request :=
  mkRequest (request_id q) (inputs q) (outputs q) (interim q) (gen_cfg q) (finish q)
    (input_len q) (origin_len q) (prefill_chunk_len q) (prefix_len q) (prefix_len_gpu q) st
    (start_ts q).
Definition set_lens (il ol : Z) (q : Request) : Request :=
  mkRequest (request_id q) (inputs q) (outputs q) (interim q) (gen_cfg q) (finish q)
    il ol (prefill_chunk_len q) (prefix_len q) (prefix_len_gpu q) (status q) (start_ts q).
Definition set_chunk_len (n : Z) (q : Request) : Request :=
  mkRequest (request_id q) (inputs q) (outputs q) (interim q) (gen_cfg q) (finish q)
    (input_len q) (origin_len q) n (prefix_len q) (prefix_len_gpu q) (status q) (start_ts q).
Definition set_prefix (n g : Z) (q : Request) : Request :=
  mkRequest (request_id q) (inputs q) (outputs q) (interim q) (gen_cfg q) (finish q)
    (input_len q) (origin_len q) (prefill_chunk_len q) n g (status q) (start_ts q).

(** [TensorMap::insert]: an existing entry stays. *)
Definition map_insert (name : string) (t : nat) (m : TensorMap) : TensorMap :=
  match m !! name with Some _ => m | None => <[name := t]> m end.

(** * Contexts *)

(** [GenerateContext]; [cache] stands for [k_cache_list], [v_cache_list] and
    the two virtual caches, [gen_over] for [gen_over[0]] (the batch size of a
    context is 1). *)
Record GenerateContext (R : Type) := mkGen {
  step : Z;
  in_length_bias : Z;
  ctx_num_beams : Z;
  only_decoder : bool;
  ctx_finish : bool;
  current_batch : Z;
  generate_method : Z;
  gen_over : bool;
  ctx_input_len : Z;
  ctx_prefix_len : Z;
  ctx_gen_cfg : GenerateConfig;
  request : nat;
  engine_max_length : Z;
  cache : R;
  prefix_cache_node_list : list Z;
}.
Arguments mkGen {R}. Arguments step {R}. Arguments in_length_bias {R}.
Arguments ctx_num_beams {R}. Arguments only_decoder {R}. Arguments ctx_finish {R}.
Arguments current_batch {R}. Arguments generate_method {R}. Arguments gen_over {R}.
Arguments ctx_input_len {R}. Arguments ctx_prefix_len {R}. Arguments ctx_gen_cfg {R}.
Arguments request {R}. Arguments engine_max_length {R}. Arguments cache {R}.
Arguments prefix_cache_node_list {R}.

Section context.
Context {R : Type}.
Implicit Types c : GenerateContext R.

Definition set_step n b c : GenerateContext R :=
  mkGen n b (ctx_num_beams c) (only_decoder c) (ctx_finish c) (current_batch c)
    (generate_method c) (gen_over c) (ctx_input_len c) (ctx_prefix_len c) (ctx_gen_cfg c)
    (request c) (engine_max_length c) (cache c) (prefix_cache_node_list c).
Definition set_method nb od m c : GenerateContext R :=
  mkGen (step c) (in_length_bias c) nb od (ctx_finish c) (current_batch c)
    m (gen_over c) (ctx_input_len c) (ctx_prefix_len c) (ctx_gen_cfg c)
    (request c) (engine_max_length c) (cache c) (prefix_cache_node_list c).
Definition set_ctx_finish f o c : GenerateContext R :=
  mkGen (step c) (in_length_bias c) (ctx_num_beams c) (only_decoder c) f (current_batch c)
    (generate_method c) o (ctx_input_len c) (ctx_prefix_len c) (ctx_gen_cfg c)
    (request c) (engine_max_length c) (cache c) (prefix_cache_node_list c).
Definition set_current_batch i c : GenerateContext R :=
  mkGen (step c) (in_length_bias c) (ctx_num_beams c) (only_decoder c) (ctx_finish c) i
    (generate_method c) (gen_over c) (ctx_input_len c) (ctx_prefix_len c) (ctx_gen_cfg c)
    (request c) (engine_max_length c) (cache c) (prefix_cache_node_list c).
Definition set_cache (x : R) plen nodes c : GenerateContext R :=
  mkGen (step c) (in_length_bias c) (ctx_num_beams c) (only_decoder c) (ctx_finish c)
    (current_batch c) (generate_method c) (gen_over c) (ctx_input_len c) plen (ctx_gen_cfg c)
    (request c) (engine_max_length c) x nodes.
End context.

(** * The model *)

(** What [ctx_] answers. *)
Record DeviceContext := mkCtx {
  GetDeviceType_ : DeviceType;
  GetRank : Z;
  GetModelMaxLength : Z;
  GetModelMaxBatch : Z;
  GetModelMaxPrefillLength : Z;
  GetCacheSpanSize : Z;
  GetDecoderLayer : Z;
  GetNumberHeads : Z;
  GetSizePerHead : Z;
}.

(** [AsModel] with its [RuntimeContext].  Pointers to requests, contexts and
    tensors are numbers from one counter. *)
Record AsModel (D R : Type) := mkModel {
  requests : gmap nat Request;
  gen_ctxs : gmap nat (GenerateContext R);
  tensors : gmap nat Tensor;
  next_ptr : nat;
  pending_request_queue_ : list nat;
  gen_ctx_list : list nat;
  all_request_map_ : gmap string nat;
  current_unfinished_request_ : Z;
  already_context_length_ : Z;
  is_context : bool;
  context_batch : Z;
  op_gen_ctx_ : option nat;
  cache_set_map : gmap string bool;
  gen_ctx_model_step : Z;
  dev : D;
}.
Arguments mkModel {D R}. Arguments requests {D R}. Arguments gen_ctxs {D R}.
Arguments tensors {D R}. Arguments next_ptr {D R}. Arguments pending_request_queue_ {D R}.
Arguments gen_ctx_list {D R}. Arguments all_request_map_ {D R}.
Arguments current_unfinished_request_ {D R}. Arguments already_context_length_ {D R}.
Arguments is_context {D R}. Arguments context_batch {D R}. Arguments op_gen_ctx_ {D R}.
Arguments cache_set_map {D R}. Arguments gen_ctx_model_step {D R}. Arguments dev {D R}.

Section model.
Context {D R : Type}.
Abbreviation t := (AsModel D R).

Definition set_requests (f : gmap nat Request -> gmap nat Request) (s : t) : t :=
  mkModel (f (requests s)) (gen_ctxs s) (tensors s) (next_ptr s) (pending_request_queue_ s)
    (gen_ctx_list s) (all_request_map_ s) (current_unfinished_request_ s)
    (already_context_length_ s) (is_context s) (context_batch s) (op_gen_ctx_ s)
    (cache_set_map s) (gen_ctx_model_step s) (dev s).
Definition set_gen_ctxs (f : gmap nat (GenerateContext R) -> gmap nat (GenerateContext R))
    (s : t) : t :=
  mkModel (requests s) (f (gen_ctxs s)) (tensors s) (next_ptr s) (pending_request_queue_ s)
    (gen_ctx_list s) (all_request_map_ s) (current_unfinished_request_ s)
    (already_context_length_ s) (is_context s) (context_batch s) (op_gen_ctx_ s)
    (cache_set_map s) (gen_ctx_model_step s) (dev s).
Definition set_tensors (f : gmap nat Tensor -> gmap nat Tensor) (s : t) : t :=
  mkModel (requests s) (gen_ctxs s) (f (tensors s)) (next_ptr s) (pending_request_queue_ s)
    (gen_ctx_list s) (all_request_map_ s) (current_unfinished_request_ s)
    (already_context_length_ s) (is_context s) (context_batch s) (op_gen_ctx_ s)
    (cache_set_map s) (gen_ctx_model_step s) (dev s).
Definition set_next_ptr (n : nat) (s : t) : t :=
  mkModel (requests s) (gen_ctxs s) (tensors s) n (pending_request_queue_ s)
    (gen_ctx_list s) (all_request_map_ s) (current_unfinished_request_ s)
    (already_context_length_ s) (is_context s) (context_batch s) (op_gen_ctx_ s)
    (cache_set_map s) (gen_ctx_model_step s) (dev s).
Definition set_pending (l : list nat) (s : t) : t :=
  mkModel (requests s) (gen_ctxs s) (tensors s) (next_ptr s) l
    (gen_ctx_list s) (all_request_map_ s) (current_unfinished_request_ s)
    (already_context_length_ s) (is_context s) (context_batch s) (op_gen_ctx_ s)
    (cache_set_map s) (gen_ctx_model_step s) (dev s).
Definition set_gen_ctx_list (l : list nat) (s : t) : t :=
  mkModel (requests s) (gen_ctxs s) (tensors s) (next_ptr s) (pending_request_queue_ s)
    l (all_request_map_ s) (current_unfinished_request_ s)
    (already_context_length_ s) (is_context s) (context_batch s) (op_gen_ctx_ s)
    (cache_set_map s) (gen_ctx_model_step s) (dev s).
Definition set_all_request_map (f : gmap string nat -> gmap string nat) (s : t) : t :=
  mkModel (requests s) (gen_ctxs s) (tensors s) (next_ptr s) (pending_request_queue_ s)
    (gen_ctx_list s) (f (all_request_map_ s)) (current_unfinished_request_ s)
    (already_context_length_ s) (is_context s) (context_batch s) (op_gen_ctx_ s)
    (cache_set_map s) (gen_ctx_model_step s) (dev s).
Definition set_unfinished (n : Z) (s : t) : t :=
  mkModel (requests s) (gen_ctxs s) (tensors s) (next_ptr s) (pending_request_queue_ s)
    (gen_ctx_list s) (all_request_map_ s) n
    (already_context_length_ s) (is_context s) (context_batch s) (op_gen_ctx_ s)
    (cache_set_map s) (gen_ctx_model_step s) (dev s).
Definition set_already (n : Z) (s : t) : t :=
  mkModel (requests s) (gen_ctxs s) (tensors s) (next_ptr s) (pending_request_queue_ s)
    (gen_ctx_list s) (all_request_map_ s) (current_unfinished_request_ s)
    n (is_context s) (context_batch s) (op_gen_ctx_ s)
    (cache_set_map s) (gen_ctx_model_step s) (dev s).
Definition set_context (b : bool) (n : Z) (s : t) : t :=
  mkModel (requests s) (gen_ctxs s) (tensors s) (next_ptr s) (pending_request_queue_ s)
    (gen_ctx_list s) (all_request_map_ s) (current_unfinished_request_ s)
    (already_context_length_ s) b n (op_gen_ctx_ s)
    (cache_set_map s) (gen_ctx_model_step s) (dev s).
Definition set_op_gen_ctx (g : option nat) (s : t) : t :=
  mkModel (requests s) (gen_ctxs s) (tensors s) (next_ptr s) (pending_request_queue_ s)
    (gen_ctx_list s) (all_request_map_ s) (current_unfinished_request_ s)
    (already_context_length_ s) (is_context s) (context_batch s) g
    (cache_set_map s) (gen_ctx_model_step s) (dev s).
Definition set_cache_set (f : gmap string bool -> gmap string bool) (s : t) : t :=
  mkModel (requests s) (gen_ctxs s) (tensors s) (next_ptr s) (pending_request_queue_ s)
    (gen_ctx_list s) (all_request_map_ s) (current_unfinished_request_ s)
    (already_context_length_ s) (is_context s) (context_batch s) (op_gen_ctx_ s)
    (f (cache_set_map s)) (gen_ctx_model_step s) (dev s).
Definition set_model_step (n : Z) (s : t) : t :=
  mkModel (requests s) (gen_ctxs s) (tensors s) (next_ptr s) (pending_request_queue_ s)
    (gen_ctx_list s) (all_request_map_ s) (current_unfinished_request_ s)
    (already_context_length_ s) (is_context s) (context_batch s) (op_gen_ctx_ s)
    (cache_set_map s) n (dev s).
Definition set_dev (d : D) (s : t) : t :=
  mkModel (requests s) (gen_ctxs s) (tensors s) (next_ptr s) (pending_request_queue_ s)
    (gen_ctx_list s) (all_request_map_ s) (current_unfinished_request_ s)
    (already_context_length_ s) (is_context s) (context_batch s) (op_gen_ctx_ s)
    (cache_set_map s) (gen_ctx_model_step s) d.

(** [AsModel::AsModel] *)
Definition AsModel_new (d : D) : t :=
  mkModel ∅ ∅ ∅ 0 [] [] ∅ 0 0 false 0 None ∅ 0 d.
End model.

(** * What the model runs on *)

(** The device side of a model: clock, LoRA manager, frame manager, prefix
    cache manager and the caches [R] of one request. *)
Class ModelDevice (D R : Type) := {
  (** [steady_clock::now()] *)
  now : D -> Z * D;
  IsLoraExists : D -> string -> bool;
  has_frame_manager : D -> bool;
  has_prefix_cache : D -> bool;
  CountFreeFrame : D -> Z;
  (** The order in which the workers of [layer_threadpool_] run [n] tasks. *)
  task_order : D -> nat -> list nat;
  (** What [buildGenContext] makes: empty cache lists and virtual caches. *)
  new_caches : DeviceContext -> string -> M D R;
  (** Both [InitLayer] calls of a layer, the second only after a success. *)
  InitLayer : Z -> Z -> Z -> Z -> Z -> M (D * R) AsStatus;
  GetSeqLength : R -> Z -> res Z;
  (** [k_cache_list[i]->Free()] and [v_cache_list[i]->Free()] for all i. *)
  FreeCacheLists : M (D * R) unit;
  (** The destruction of the virtual caches. *)
  ResetVirtualCaches : M (D * R) unit;
  RefOnly : list Z -> Z -> M D (Z * Z * list Z);
  RefFill : list Z -> list Z -> Z -> M (D * R) (Z * list Z * list Z);
  Insert : list Z -> Z -> Z -> R -> list Z -> M D (list Z);
  UnRef : list Z -> M D unit;
  UpdateCnt : Z -> Z -> M D unit;
  EvictUnrefered : Z -> M D unit;
  EvictAllUnrefered : M D unit;
}.

Inductive OpCall := CallReshape | CallAlloc | CallForward.

(** What an operator other than [UpdateIdOp] changes: the device, tensors, the
    interim tensors of requests, the caches of contexts and the flags of the
    layer cache.  No such operator assigns another field of a request, a
    context or the runtime context. *)
Record KernelEffect (D R : Type) := mkEffect {
  e_dev : D;
  e_tensors : gmap nat Tensor;
  e_next : nat;
  e_interim : gmap nat TensorMap;
  e_cache : gmap nat R;
  e_flags : gmap string bool;
}.
Arguments mkEffect {D R}. Arguments e_dev {D R}. Arguments e_tensors {D R}.
Arguments e_next {D R}. Arguments e_interim {D R}. Arguments e_cache {D R}.
Arguments e_flags {D R}.

(** A kernel may read the whole model and may fail by a status or an
    exception, keeping the effect reached so far. *)
Class Kernels (D R K : Type) := {
  kernel_call : K -> OpCall -> AsModel D R -> res AsStatus * KernelEffect D R;
  (** [dynamic_cast] to [SpanAttnOp] or [MLAAttnOp] succeeds. *)
  is_span_attn : K -> bool;
}.

Definition apply_effect {D R} (e : KernelEffect D R) (s : AsModel D R) : AsModel D R :=
  mkModel
    (map_imap (fun r q => Some (set_interim (default (interim q) (e_interim e !! r)) q))
       (requests s))
    (map_imap (fun g c => Some (set_cache (default (cache c) (e_cache e !! g))
       (ctx_prefix_len c) (prefix_cache_node_list c) c)) (gen_ctxs s))
    (e_tensors e) (Nat.max (next_ptr s) (e_next e)) (pending_request_queue_ s)
    (gen_ctx_list s) (all_request_map_ s) (current_unfinished_request_ s)
    (already_context_length_ s) (is_context s) (context_batch s) (op_gen_ctx_ s)
    (e_flags e) (gen_ctx_model_step s) (e_dev e).

(** The operators of the graph: kernels, and [UpdateIdOp] with its name. *)
Inductive AsOperator (K : Type) :=
  | Kernel (k : K)
  | UpdateIdOp (name : string).
Arguments Kernel {K} k.
Arguments UpdateIdOp {K} name.

(** [graph_ops_] and [topo_ops_]. *)
Record Graph (K : Type) := mkGraph {
  pre_graph : list (AsOperator K);
  decoder : list (AsOperator K);
  gen_graph : list (AsOperator K);
  post_graph : list (AsOperator K);
  topo_ops_ : list (AsOperator K);
}.
Arguments mkGraph {K}. Arguments pre_graph {K}. Arguments decoder {K}.
Arguments gen_graph {K}. Arguments post_graph {K}. Arguments topo_ops_ {K}.
