(* ===== verification/Scheduler.v ===== *)
(** The request scheduling of a model (src/csrc/core/model/model_request.cpp,
    model_request_context.cpp, model_context.cpp, model_decoder.cpp,
    model_generation.cpp, model_memory.cpp, with RuntimeContext of
    common/generate_context.h and the end-of-generation test of
    core/operator/generate_opt/update_id/update_id_op.cpp): pending requests,
    the contexts that run, chunked prefill, a decoding step, and how a request
    ends.  Every other operator, the device and the caches are parameters. *)
From stdpp Require Import base list gmap strings.
From S2P Require Import Prelude FrameManager ModelState.

Section scheduler.
Context {D R K : Type} `{MD : ModelDevice D R} `{KS : Kernels D R K}.
Variable ctx_ : DeviceContext.
Variable graph_ops_ : Graph K.
Abbreviation W := (M (AsModel D R)).
Abbreviation context := (GenerateContext R).

Definition AS_STATUS_OK (st : AsStatus) : bool :=
  bool_decide (st = ALLSPARK_SUCCESS) || bool_decide (st = ALLSPARK_STREAMING).

(** [AS_CHECK_STATUS(m); k] and
    [status = m; if (status != ALLSPARK_SUCCESS) return status; k]. *)
Definition check_status (m k : W AsStatus) : W AsStatus :=
  st ← m; if AS_STATUS_OK st then k else mret st.
Definition if_success (m k : W AsStatus) : W AsStatus :=
  st ← m; if bool_decide (st = ALLSPARK_SUCCESS) then k else mret st.

Definition is_cuda : bool := bool_decide (GetDeviceType_ ctx_ = CUDA).

(** * Shared objects *)
Definition deref {A} (get : AsModel D R -> gmap nat A) (p : nat) : W A := fun s =>
  match get s !! p with Some a => (Ok a, s) | None => (Err UB, s) end.
Definition req (r : nat) : W Request := deref requests r.
Definition gen (g : nat) : W context := deref gen_ctxs g.
Definition tensor (x : nat) : W Tensor := deref tensors x.
Definition upd_req (r : nat) (f : Request -> Request) : W unit :=
  q ← req r; modify (set_requests <[r := f q]>).
Definition upd_gen (g : nat) (f : context -> context) : W unit :=
  c ← gen g; modify (set_gen_ctxs <[g := f c]>).
Definition upd_tensor (x : nat) (f : Tensor -> Tensor) : W unit :=
  v ← tensor x; modify (set_tensors <[x := f v]>).
Definition fresh : W nat :=
  p ← gets next_ptr; modify (set_next_ptr (Datatypes.S p));; mret p.
Definition new_tensor (v : Tensor) : W nat :=
  p ← fresh; modify (set_tensors <[p := v]>);; mret p.
Definition new_request (q : Request) : W nat :=
  p ← fresh; modify (set_requests <[p := q]>);; mret p.
Definition new_gen (c : context) : W nat :=
  p ← fresh; modify (set_gen_ctxs <[p := c]>);; mret p.

(** [TensorMap::at] *)
Definition at_ (m : TensorMap) (name : string) : W nat :=
  match m !! name with Some x => mret x | None => throw OutOfRange end.

Definition on_dev {A} (m : M D A) : W A := zoom dev set_dev m.
Definition tick : W Z :=
  d ← gets dev; modify (set_dev (snd (now d)));; mret (fst (now d)).

(** An operation of the device on the caches of one context. *)
Definition on_caches {A} (g : nat) (m : M (D * R) A) : W A := fun s =>
  match gen_ctxs s !! g with
  | None => (Err UB, s)
  | Some c =>
      let '(r, (d, x)) := m (dev s, cache c) in
      (r, set_gen_ctxs <[g := set_cache x (ctx_prefix_len c) (prefix_cache_node_list c) c]>
            (set_dev d s))
  end.

(** * RuntimeContext *)
Definition GetGenCtxListSize (s : AsModel D R) : Z := Z.of_nat (length (gen_ctx_list s)).

Definition GetGenCtx (index : Z) : W nat := fun s =>
  if index <? 0 then (Err UB, s)
  else match gen_ctx_list s !! Z.to_nat index with
       | Some g => (Ok g, s)
       | None => (Err UB, s)
       end.
Definition GetContextGenCtx : W nat := b ← gets context_batch; GetGenCtx b.

Definition PushBackGenCtx (g : nat) : W unit :=
  modify (fun s => set_gen_ctx_list (gen_ctx_list s ++ [g]) s);;
  n ← gets GetGenCtxListSize;
  upd_gen g (set_current_batch (n - 1)).

(** The last context takes the place of the finished one; moving the last
    one to itself leaves it in place. *)
Definition FinishRequest (index : Z) : W unit :=
  batch_size ← gets GetGenCtxListSize;
  g ← GetGenCtx index;
  c ← gen g;
  upd_req (request c) (set_finish true);;
  upd_req (request c) (set_status GenerateFinished);;
  g_last ← GetGenCtx (batch_size - 1);
  modify (fun s => set_gen_ctx_list (<[Z.to_nat index := g_last]> (gen_ctx_list s)) s);;
  upd_gen g_last (set_current_batch index);;
  modify (fun s => set_gen_ctx_list (removelast (gen_ctx_list s)) s).

(** * Operators *)

(** [AsModel::ErrorProcess] *)
Definition ErrorProcess (st : AsStatus) : W AsStatus :=
  modify (set_model_step 0);; mret st.

Definition call_kernel (k : K) (op : OpCall) : W AsStatus := fun s =>
  let '(r, e) := kernel_call k op s in (r, apply_effect e s).

(** [UpdateIdOp::check_stop_words] for one context: the elements before
    [generated_len] end in one of the words. *)
Fixpoint check_stop_words (generated_len : Z) (out_host : list (option Z))
    (words : list (list Z)) : W bool :=
  match words with
  | [] => mret false
  | w :: words' =>
      let n := Z.of_nat (length w) in
      if n <? generated_len then
        if Z.of_nat (length out_host) <? generated_len then throw UB
        else match mapM id (take (length w)
                     (drop (Z.to_nat (generated_len - n)) out_host)) with
             | None => throw UB
             | Some tail =>
                 if bool_decide (tail = w) then mret true
                 else check_stop_words generated_len out_host words'
             end
      else check_stop_words generated_len out_host words'
  end.

(** [UpdateIdOp::check_finish]; the result is not used. *)
Definition check_finish (g : nat) : W unit :=
  c ← gen g;
  let run_step := step c + in_length_bias c in
  let cfg := ctx_gen_cfg c in
  if ctx_finish c then mret tt
  else if max_length cfg - 1 <=? run_step then upd_gen g (set_ctx_finish true (gen_over c))
  else
    q ← req (request c);
    x ← at_ (interim q) "generated_ids";
    v ← tensor x;
    let last_id :=
      if run_step <? 0 then None
      else match cells v !! Z.to_nat run_step with Some a => a | None => None end in
    if early_stopping cfg && bool_decide (last_id = None) then throw UB
    else if early_stopping cfg && bool_decide (last_id = Some (eos_token_id cfg)) then
      upd_gen g (set_ctx_finish true (gen_over c))
    else if (generate_method c =? 0) && negb (bool_decide (stop_words_ids cfg = [])) then
      m ← check_stop_words (run_step + 1) (cells v) (stop_words_ids cfg);
      let over := gen_over c || m in
      upd_gen g (set_ctx_finish over over)
    else mret tt.

(** [memcpy] of [n] elements between two buffers, at the same offset. *)
Definition copy_cells (off n : Z) (src dst : list (option Z)) : option (list (option Z)) :=
  if (off <? 0) || (n <? 0) || (Z.of_nat (length src) <? off + n)
     || (Z.of_nat (length dst) <? off + n) then None
  else Some (take (Z.to_nat off) dst
             ++ take (Z.to_nat n) (drop (Z.to_nat off) src)
             ++ drop (Z.to_nat (off + n)) dst).

(** [UpdateIdOp::copy_generated_ids]: the tokens the client sees. *)
Definition copy_generated_ids (g : nat) (in_context : bool) : W unit :=
  if GetRank ctx_ =? 0 then
    c ← gen g;
    q ← req (request c);
    local ← at_ (interim q) "generated_ids";
    global ← at_ (outputs q) "generated_ids_global";
    l ← tensor local;
    upd_tensor global (SetShape (dim0 l) (dim1 l));;
    l' ← tensor local;
    v ← tensor global;
    let '(off, n) := if in_context then (0, step c + in_length_bias c + 1) else (step c, 1) in
    match copy_cells off n (cells l') (cells v) with
    | None => throw UB
    | Some out => upd_tensor global (fun v => mkTensor (dim0 v) (dim1 v) out)
    end
  else mret tt.

(** [UpdateIdOp::Forward] with [RunContext] and [RunDecoder]. *)
Definition RunContext : W AsStatus :=
  g ← GetContextGenCtx;
  check_finish g;; copy_generated_ids g true;; mret ALLSPARK_SUCCESS.
Definition RunDecoder : W AsStatus :=
  batch_size ← gets GetGenCtxListSize;
  for_each (seqZ 0 batch_size) (fun i =>
    g ← GetGenCtx i; check_finish g;; copy_generated_ids g false);;
  mret ALLSPARK_SUCCESS.
Definition UpdateId_Forward (name : string) : W AsStatus :=
  if bool_decide (name = "update_id_first") then mret ALLSPARK_SUCCESS
  else
    b ← gets is_context;
    if b : bool then RunContext else RunDecoder.

Definition call_op (op : AsOperator K) (call : OpCall) : W AsStatus :=
  match op, call with
  | Kernel k, _ => call_kernel k call
  | UpdateIdOp name, CallForward => UpdateId_Forward name
  | UpdateIdOp _, _ => mret ALLSPARK_SUCCESS
  end.

(** Calls in turn, up to the first status other than success. *)
Fixpoint call_each (op : AsOperator K) (calls : list OpCall) : W AsStatus :=
  match calls with
  | [] => mret ALLSPARK_SUCCESS
  | call :: calls' =>
      st ← call_op op call;
      if bool_decide (st = ALLSPARK_SUCCESS) then call_each op calls' else ErrorProcess st
  end.

Fixpoint call_all (ops : list (AsOperator K)) (calls : list OpCall) : W AsStatus :=
  match ops with
  | [] => mret ALLSPARK_SUCCESS
  | op :: ops' => if_success (call_each op calls) (call_all ops' calls)
  end.

Definition is_attn (op : AsOperator K) : bool :=
  match op with Kernel k => is_span_attn k | UpdateIdOp _ => false end.

(** [std::packaged_task]: the outcome of a call is kept for its future. *)
Definition packaged {A} (m : W A) : W (res A) := fun s => let '(r, s') := m s in (Ok r, s').

(** The tasks of [layer_threadpool_]: each makes its call, whatever becomes of
    the others. *)
Fixpoint run_tasks (tasks : list (AsOperator K)) (order : list nat)
    (futures : gmap nat (res AsStatus)) : W (gmap nat (res AsStatus)) :=
  match order with
  | [] => mret futures
  | i :: order' =>
      match tasks !! i with
      | Some op =>
          r ← packaged (call_op op CallAlloc); run_tasks tasks order' (<[i := r]> futures)
      | None => run_tasks tasks order' futures
      end
  end.

(** [result[i].get()] for each [i]: it rethrows, and does not return for a task
    that has not run. *)
Fixpoint get_futures (idxs : list nat) (futures : gmap nat (res AsStatus)) : W AsStatus :=
  match idxs with
  | [] => mret ALLSPARK_SUCCESS
  | i :: idxs' =>
      match futures !! i with
      | None => throw Hang
      | Some (Err e) => throw e
      | Some (Ok st) =>
          if bool_decide (st = ALLSPARK_SUCCESS) then get_futures idxs' futures
          else ErrorProcess st
      end
  end.

(** The allocation of cache spans; on CUDA by a task per attention operator, for
    which [result] has a place per decoder layer. *)
Definition alloc_decoder : W AsStatus :=
  if is_cuda then
    let tasks := List.filter is_attn (decoder graph_ops_) in
    let num_dec_layers := GetDecoderLayer ctx_ in
    if num_dec_layers <? 0 then throw LengthError
    else if num_dec_layers <? Z.of_nat (length tasks) then throw UB
    else
      order ← gets (fun s => task_order (dev s) (length tasks));
      futures ← run_tasks tasks order ∅;
      if negb (Z.of_nat (length tasks) =? num_dec_layers) then
        ErrorProcess ALLSPARK_RUNTIME_ERROR
      else get_futures (seq 0 (length tasks)) futures
  else call_all (decoder graph_ops_) [CallAlloc].

(** * Ending a request *)

Fixpoint split_pending (request_id_ : string) (l : list nat) : W (bool * list nat) :=
  match l with
  | [] => mret (false, [])
  | r :: l' =>
      q ← req r;
      if bool_decide (request_id q = request_id_) then
        upd_req r (set_status GenerateFinished);;
        '(_, rest) ← split_pending request_id_ l'; mret (true, rest)
      else '(found, rest) ← split_pending request_id_ l'; mret (found, r :: rest)
  end.

Definition StopPendingRequest (request_id_ : string) : W bool :=
  l ← gets pending_request_queue_;
  '(found, rest) ← split_pending request_id_ l;
  modify (set_pending rest);;
  mret found.

(** The last running context with this id. *)
Fixpoint find_running (request_id_ : string) (idxs : list Z) : W Z :=
  match idxs with
  | [] => mret (-1)
  | i :: idxs' =>
      g ← GetGenCtx i;
      c ← gen g;
      q ← req (request c);
      if bool_decide (request_id q = request_id_) then mret i
      else find_running request_id_ idxs'
  end.

Definition isWarmupRequest (id : string) : bool := String.prefix "warmup_request_" id.

(** [ExtraEmbeddingUtils::CreateTensorForHash] without multi-media inputs: a
    copy of the source tensor under a new name, unless the name is taken. *)
Definition CreateTensorForHash (r : nat) (src : TensorMap) (name : string) : W AsStatus :=
  x ← at_ src name;
  v ← tensor x;
  y ← new_tensor (mkTensor (dim0 v) (dim1 v) (elements v));
  upd_req r (fun q => set_interim (map_insert (name +:+ "_for_hash") y (interim q)) q);;
  mret ALLSPARK_SUCCESS.

Definition tokens_at (m : TensorMap) (name : string) : W (list Z) :=
  x ← at_ m name;
  v ← tensor x;
  match tokens v with Some l => mret l | None => throw UB end.

(** [PrefixCacheManager::Insert] for a context. *)
Definition insert_prefix (g : nat) (hash_name : string) (start_idx : Z) : W unit :=
  c ← gen g;
  q ← req (request c);
  l ← tokens_at (interim q) hash_name;
  nodes ← on_dev (Insert l start_idx (start_ts q) (cache c) (prefix_cache_node_list c));
  upd_gen g (fun c => set_cache (cache c) (ctx_prefix_len c) nodes c).

(** The caches of a context that stops; with prefix caching on CUDA the
    generated prefix is inserted first and the nodes are given back. *)
Definition release_caches (g : nat) (c : context) : W AsStatus :=
  on_caches g FreeCacheLists;;
  prefix ← gets (fun s => has_prefix_cache (dev s));
  if is_cuda then
    check_status (
      if prefix : bool then
        q ← req (request c);
        check_status (CreateTensorForHash (request c) (interim q) "generated_ids")
          (if GetCacheSpanSize ctx_ =? 0 then throw UB else
           insert_prefix g "generated_ids_for_hash"
             (Z.quot (ctx_input_len c) (GetCacheSpanSize ctx_) * GetCacheSpanSize ctx_);;
           c' ← gen g;
           on_dev (UnRef (prefix_cache_node_list c'));;
           mret ALLSPARK_SUCCESS)
      else mret ALLSPARK_SUCCESS)
    (on_caches g ResetVirtualCaches;;
     q ← req (request c);
     when (prefix && isWarmupRequest (request_id q)) (on_dev EvictAllUnrefered);;
     mret ALLSPARK_SUCCESS)
  else mret ALLSPARK_SUCCESS.

Definition StopRequest (request_id_ : string) : W AsStatus :=
  stopped ← StopPendingRequest request_id_;
  if stopped : bool then mret ALLSPARK_SUCCESS else
  n ← gets GetGenCtxListSize;
  request_idx ← find_running request_id_ (reverse (seqZ 0 n));
  if request_idx =? -1 then mret ALLSPARK_SUCCESS else
  g ← GetGenCtx request_idx;
  c ← gen g;
  check_status (release_caches g c)
  (upd_req (request c) (set_interim ∅);;
   FinishRequest request_idx;;
   modify (fun s => set_unfinished (current_unfinished_request_ s - 1) s);;
   left ← gets GetGenCtxListSize;
   if 0 <? left then call_all (topo_ops_ graph_ops_) [CallReshape]
   else mret ALLSPARK_SUCCESS).

Definition ReleaseRequest (request_id_ : string) : W AsStatus :=
  modify (set_all_request_map (delete request_id_));; mret ALLSPARK_SUCCESS.

Definition GetRequestById (request_id_ : string) : W (option nat) :=
  gets (fun s => all_request_map_ s !! request_id_).

(** Stops every context that has finished, from the last to the first. *)
Fixpoint stop_finished (idxs : list Z) : W AsStatus :=
  match idxs with
  | [] => mret ALLSPARK_SUCCESS
  | i :: idxs' =>
      g ← GetGenCtx i;
      c ← gen g;
      if ctx_finish c then
        q ← req (request c);
        if_success (StopRequest (request_id q)) (stop_finished idxs')
      else stop_finished idxs'
  end.
Definition stop_all_finished : W AsStatus :=
  n ← gets GetGenCtxListSize; stop_finished (reverse (seqZ 0 n)).

(** * The context phase of a request *)

(** [AsModel::buildGenContext] on a new [GenerateContext]; its sampling state
    is left out. *)
Definition buildGenContext (r : nat) : W nat :=
  q ← req r;
  x ← at_ (inputs q) "input_ids";
  v ← tensor x;
  caches ← on_dev (new_caches ctx_ (request_id q));
  new_gen (mkGen 0 0 1 false false 0 0 false (i32 (dim1 v)) 0 (gen_cfg q) r
             (GetModelMaxLength ctx_) caches []).

Definition reset_layer_cache : W unit :=
  modify (set_cache_set <["rotary_step" := false]>);;
  modify (set_cache_set <["rotary_inv_freq" := false]>).

Definition runDecoderContext : W AsStatus :=
  reset_layer_cache;;
  b ← gets context_batch;
  g ← GetGenCtx b;
  c ← gen g;
  q ← req (request c);
  let cfg := ctx_gen_cfg c in
  x ← at_ (interim q) "new_input_ids";
  v ← tensor x;
  let in_length := u64 (dim1 v) in
  upd_gen g (set_method (num_beams cfg) (only_decoder c)
    (if do_sample cfg && (num_beams cfg =? 1) then 0 else 1));;
  if u64 (max_length cfg) <? in_length then ErrorProcess ALLSPARK_PARAM_ERROR else
  modify (set_op_gen_ctx (Some g));;
  upd_gen g (fun c => set_method 1 true (generate_method c) c);;
  upd_gen g (fun c => set_step (ctx_prefix_len c) (in_length_bias c) c);;
  if_success (call_all (pre_graph graph_ops_) [CallReshape]) (
  if_success (call_all (pre_graph graph_ops_) [CallForward]) (
  if_success (call_all (decoder graph_ops_) [CallReshape]) (
  if_success alloc_decoder (
  if_success (call_all (decoder graph_ops_) [CallForward]) (
  upd_gen g (fun c => set_step (step c)
    (if ctx_prefix_len c =? 0 then ctx_input_len c else i32 in_length) c);;
  upd_gen g (fun c => set_method (num_beams cfg) (only_decoder c) (generate_method c) c);;
  if_success (call_all (gen_graph graph_ops_) [CallReshape]) (
  if_success (call_all (gen_graph graph_ops_) [CallForward]) (
  if_success (call_all (post_graph graph_ops_) [CallReshape; CallForward]) (
  upd_gen g (fun c => set_step (i32 (in_length + ctx_prefix_len c)) 0 c);;
  mret ALLSPARK_SUCCESS)))))))).

Fixpoint init_layers (g : nat) (layers : list Z) : W AsStatus :=
  match layers with
  | [] => mret ALLSPARK_SUCCESS
  | layer_id :: layers' =>
      check_status
        (on_caches g (InitLayer layer_id (GetNumberHeads ctx_) (GetSizePerHead ctx_) 0
           (Z.quot (GetModelMaxLength ctx_ + GetCacheSpanSize ctx_ - 1) (GetCacheSpanSize ctx_))))
        (init_layers g layers')
  end.

(** [PrefixCacheManager::RefFill] for a new context. *)
Definition fill_prefix (g r : nat) : W unit :=
  q ← req r;
  ids ← tokens_at (inputs q) "input_ids";
  hash_ids ← tokens_at (interim q) "input_ids_for_hash";
  '(plen, nodes, new_ids) ← on_caches g (RefFill ids hash_ids (start_ts q));
  upd_gen g (fun c => set_cache (cache c) plen nodes c);;
  y ← new_tensor (mkTensor 1 (Z.of_nat (length new_ids)) (Some <$> new_ids));
  upd_req r (fun q => set_interim (map_insert "new_input_ids" y (interim q)) q).

(** What [StartRequest] prepares before the context runs; the model's
    [attention_mask] tensor is left out. *)
Definition prepare (g r : nat) : W AsStatus :=
  prefix ← gets (fun s => has_prefix_cache (dev s));
  check_status (
    if is_cuda then
      if GetCacheSpanSize ctx_ =? 0 then throw UB
      else init_layers g (seqZ 0 (GetDecoderLayer ctx_))
    else mret ALLSPARK_SUCCESS)
  (if prefix && is_cuda then fill_prefix g r;; mret ALLSPARK_SUCCESS
   else
     q ← req r;
     x ← at_ (inputs q) "input_ids";
     upd_req r (fun q => set_interim (map_insert "new_input_ids" x (interim q)) q);;
     mret ALLSPARK_SUCCESS).

(** The status of [runDecoderContext] is not looked at.  [throw e] throws a
    copy of the caught [std::exception]. *)
Definition StartRequest (r : nat) : W AsStatus :=
  q ← req r;
  let lora := lora_name (gen_cfg q) in
  known ← gets (fun s => IsLoraExists (dev s) lora);
  if negb (bool_decide (lora = "")) && negb known then
    StopRequest (request_id q);;
    upd_req r (set_status GenerateFinished);;
    upd_req r (set_finish true);;
    mret ALLSPARK_LORA_NOT_FOUND
  else
  batch ← gets GetGenCtxListSize;
  g ← buildGenContext r;
  PushBackGenCtx g;;
  check_status (prepare g r) (
  modify (set_context true batch);;
  try_catch (runDecoderContext;; mret tt)
    (StopRequest (request_id q);;
     upd_req r (set_status GenerateInterrupted);;
     throw StdException);;
  prefix ← gets (fun s => has_prefix_cache (dev s));
  when (is_cuda && prefix)
    (c ← gen g; insert_prefix g "input_ids_for_hash" (ctx_prefix_len c));;
  modify (set_context false 0);;
  if_success (call_all (topo_ops_ graph_ops_) [CallReshape]) (
  upd_req r (set_status ContextFinished);;
  stop_all_finished)).

(** [std::string::find("warmup") != npos] *)
Definition mentions_warmup (id : string) : bool :=
  match String.index 0 "warmup" id with Some _ => true | None => false end.

Definition pop_pending : W unit :=
  modify (fun s => set_pending (tail (pending_request_queue_ s)) s).

(** The statuses of [StartRequest] are not looked at. *)
Definition PrefillChunkRequest (r : nat) : W unit :=
  q ← req r;
  let start_whole :=
    pop_pending;; StartRequest r;; upd_req r (fun q => set_chunk_len (input_len q) q) in
  if mentions_warmup (request_id q) then start_whole
  else
    let new_len := prefill_chunk_len q + GetModelMaxPrefillLength ctx_ + 1 in
    if input_len q <=? new_len then
      x ← at_ (inputs q) "input_ids";
      upd_tensor x (SetShape 1 (origin_len q));;
      start_whole
    else
      ts ← tick;
      r' ← new_request (set_lens new_len 0
             (Request_new ts (request_id q +:+ "_chunk_prefill") (inputs q) (outputs q)
                (gen_cfg q) (interim q)));
      x ← at_ (inputs q) "input_ids";
      upd_tensor x (SetShape 1 new_len);;
      upd_req r' (fun q' => set_cfg (set_max_length (new_len + 1) (gen_cfg q')) q');;
      StartRequest r';;
      upd_req r (set_chunk_len (new_len - 1)).

(** * The scheduler's steps *)

Definition count_unfinished : W unit :=
  modify (fun s => set_unfinished
    (i32 (Z.of_nat (length (pending_request_queue_ s)) + GetGenCtxListSize s)) s).

(** The frames a new request needs, with prefix caching: cached prefixes are
    referenced while unreferenced nodes are evicted. *)
Definition reserve_frames (r : nat) : W (AsStatus * Z) :=
  q ← req r;
  st ← CreateTensorForHash r (inputs q) "input_ids";
  if negb (AS_STATUS_OK st) then mret (st, 0) else
  q ← req r;
  l ← tokens_at (interim q) "input_ids_for_hash";
  '(plen, gpu_len, nodes) ← on_dev (RefOnly l (start_ts q));
  when (prefill_chunk_len q =? 0)
    (on_dev (UpdateCnt plen (input_len q - plen));;
     upd_req r (fun q => set_prefix plen gpu_len (set_chunk_len plen q)));;
  let need := (Z.quot (Z.min (input_len q - gpu_len + 10) (GetModelMaxLength ctx_))
                 (GetCacheSpanSize ctx_) + 1) * 2 * GetDecoderLayer ctx_ in
  free ← gets (fun s => CountFreeFrame (dev s));
  when (free <? need) (on_dev (EvictUnrefered need));;
  on_dev (UnRef nodes);;
  mret (ALLSPARK_SUCCESS, need).

Definition GenerateContinueContext (is_new_context : bool) : W AsStatus :=
  when is_new_context (modify (set_already 0));;
  pending ← gets pending_request_queue_;
  running ← gets GetGenCtxListSize;
  match pending with
  | [] => mret ALLSPARK_EMPTY_REQUEST
  | r :: _ =>
      if negb (running <? GetModelMaxBatch ctx_) then mret ALLSPARK_EMPTY_REQUEST else
      q ← req r;
      already ← gets already_context_length_;
      if negb (already =? 0)
         && (GetModelMaxPrefillLength ctx_ <? already + input_len q) then
        mret ALLSPARK_EMPTY_REQUEST
      else if negb is_cuda then
        pop_pending;; StartRequest r;; count_unfinished;; mret ALLSPARK_SUCCESS
      else
        d ← gets dev;
        if negb (has_frame_manager d) then
          pop_pending;; StartRequest r;; count_unfinished;; mret ALLSPARK_SUCCESS
        else if GetCacheSpanSize ctx_ =? 0 then throw UB
        else
          '(st, need) ←
            (if has_prefix_cache d then reserve_frames r
             else mret (ALLSPARK_SUCCESS,
               (Z.quot (Z.min (input_len q + 10) (GetModelMaxLength ctx_))
                  (GetCacheSpanSize ctx_) + 1) * 2 * GetDecoderLayer ctx_));
          if negb (AS_STATUS_OK st) then mret st else
          free ← gets (fun s => CountFreeFrame (dev s));
          if need <=? free then
            PrefillChunkRequest r;;
            count_unfinished;;
            q' ← req r;
            if prefill_chunk_len q' =? input_len q' then
              modify (fun s => set_already (already_context_length_ s + input_len q') s);;
              mret ALLSPARK_SUCCESS
            else mret ALLSPARK_CHUNK_PREFILL
          else
            pop_pending;;
            upd_req r (set_finish true);;
            upd_req r (set_status GenerateInterrupted);;
            count_unfinished;;
            mret ALLSPARK_EMPTY_REQUEST
  end.

(** One decoding step of all running contexts. *)
Definition GenerateContinueDecoder : W AsStatus :=
  count_unfinished;;
  batch_size ← gets GetGenCtxListSize;
  if batch_size =? 0 then mret ALLSPARK_EMPTY_REQUEST else
  modify (fun s => set_model_step (gen_ctx_model_step s + 1) s);;
  reset_layer_cache;;
  if_success alloc_decoder (
  if_success (call_all (decoder graph_ops_) [CallForward]) (
  for_each (seqZ 0 batch_size) (fun i =>
    g ← GetGenCtx i; upd_gen g (fun c => set_step (step c + 1) (in_length_bias c) c));;
  if_success (call_all (gen_graph graph_ops_) [CallReshape]) (
  if_success (call_all (gen_graph graph_ops_) [CallForward]) (
  if_success (call_all (post_graph graph_ops_) [CallReshape; CallForward]) (
  if_success stop_all_finished (mret ALLSPARK_STREAMING)))))).

Definition GenerateContinue : W AsStatus :=
  st ← GenerateContinueDecoder; check_status (mret st) (mret st).

(** The frames the next decoding step may need. *)
Fixpoint new_spans (gs : list nat) : W Z :=
  match gs with
  | [] => mret 0
  | g :: gs' =>
      c ← gen g;
      match GetSeqLength (cache c) 0 with
      | Err e => throw e
      | Ok n =>
          k ← new_spans gs';
          mret (if n mod GetCacheSpanSize ctx_ =? 0 then k + 1 else k)
      end
  end.

Definition AllocDecoderMemory : W AsStatus :=
  modify (set_context false 0);;
  d ← gets dev;
  if is_cuda && has_frame_manager d then
    gs ← gets gen_ctx_list;
    if (GetCacheSpanSize ctx_ =? 0) && negb (bool_decide (gs = [])) then throw UB else
    n ← new_spans gs;
    let decoder_frame := GetDecoderLayer ctx_ * 2 * n in
    free ← gets (fun s => CountFreeFrame (dev s));
    when ((free <? decoder_frame) && has_prefix_cache d) (on_dev (EvictUnrefered decoder_frame));;
    free' ← gets (fun s => CountFreeFrame (dev s));
    if free' <? decoder_frame then AS_THROW ALLSPARK_MEMORY_ERROR
    else mret ALLSPARK_SUCCESS
  else mret ALLSPARK_SUCCESS.

(** A request arrives: the tensors of its handle and output are shared. *)
Definition StartRequestImpl (request_id_ : string) (ins outs : TensorMap)
    (cfg : GenerateConfig) : W AsStatus :=
  ts ← tick;
  x ← at_ ins "input_ids";
  v ← tensor x;
  r ← new_request (set_lens (i32 (dim1 v)) (i32 (dim1 v))
         (Request_new ts request_id_ ins outs cfg ∅));
  modify (fun s => set_pending (pending_request_queue_ s ++ [r]) s);;
  modify (set_all_request_map <[request_id_ := r]>);;
  mret ALLSPARK_SUCCESS.
End scheduler.
