(* ===== verification/SchedulerEnds.v ===== *)
(** The operations of the scheduler end: each returns or throws when the device
    and the operators do and the thread pool runs each of its tasks. *)
From stdpp Require Import base list gmap strings.
From S2P Require Import Prelude FrameManager ModelState Scheduler.

(** What the device and the operators have to keep. *)
Class DeviceEnds {D R K : Type} `{MD : ModelDevice D R} `{KS : Kernels D R K} : Prop := {
  new_caches_ends c id : ends (new_caches (D := D) (R := R) c id);
  InitLayer_ends a b c d e : ends (InitLayer (D := D) (R := R) a b c d e);
  GetSeqLength_ends (r : R) i : GetSeqLength (D := D) r i <> Err Hang;
  FreeCacheLists_ends : ends (FreeCacheLists (D := D) (R := R));
  ResetVirtualCaches_ends : ends (ResetVirtualCaches (D := D) (R := R));
  RefOnly_ends l t : ends (RefOnly (D := D) (R := R) l t);
  RefFill_ends l l' t : ends (RefFill (D := D) (R := R) l l' t);
  Insert_ends l i t (r : R) nodes : ends (Insert (D := D) l i t r nodes);
  UnRef_ends nodes : ends (UnRef (D := D) (R := R) nodes);
  UpdateCnt_ends a b : ends (UpdateCnt (D := D) (R := R) a b);
  EvictUnrefered_ends n : ends (EvictUnrefered (D := D) (R := R) n);
  EvictAllUnrefered_ends : ends (EvictAllUnrefered (D := D) (R := R));
  task_order_all (d : D) n i : (i < n)%nat -> i ∈ task_order (R := R) d n;
  kernel_call_ends (k : K) op (s : AsModel D R) : fst (kernel_call k op s) <> Err Hang;
}.
#[export] Hint Resolve new_caches_ends InitLayer_ends FreeCacheLists_ends ResetVirtualCaches_ends
  RefOnly_ends RefFill_ends Insert_ends UnRef_ends UpdateCnt_ends EvictUnrefered_ends
  EvictAllUnrefered_ends : ends.

Section ends.
Context {D R K : Type} `{MD : ModelDevice D R} `{KS : Kernels D R K} `{DE : !DeviceEnds}.
Variable ctx_ : DeviceContext.
Variable graph_ops_ : Graph K.
Abbreviation W := (M (AsModel D R)).

(** * Shared objects *)
Lemma ends_deref {A} (get : AsModel D R -> gmap nat A) p : ends (deref get p).
Proof. intros s. unfold wp, deref. by destruct (get s !! p). Qed.
Lemma ends_at m name : ends (S := AsModel D R) (at_ m name).
Proof. unfold at_. ends_tac. Qed.
Lemma ends_GetGenCtx i : ends (GetGenCtx (D := D) (R := R) i).
Proof. intros s. unfold wp, GetGenCtx. destruct (_ <? _); [done|]. by destruct (_ !! _). Qed.
Lemma ends_on_dev {A} (m : M D A) : ends m -> ends (on_dev (R := R) m).
Proof. apply ends_zoom. Qed.
Lemma ends_on_caches {A} g (m : M (D * R) A) : ends m -> ends (on_caches g m).
Proof.
  intros Hm s. unfold wp, on_caches. destruct (gen_ctxs s !! g) as [c|]; [|done].
  specialize (Hm (dev s, cache c)). unfold wp in Hm. by destruct (m _) as [[a|e] [d x]].
Qed.
Hint Resolve ends_deref ends_at ends_GetGenCtx ends_on_dev ends_on_caches : ends.
Ltac sched_ends := repeat first
  [ progress unfold upd_req, upd_gen, upd_tensor, new_tensor, new_request, new_gen, fresh, tick,
      req, gen, tensor, check_status, if_success, ErrorProcess, count_unfinished, pop_pending
  | ends_tac ].

Lemma ends_tokens_at m name : ends (S := AsModel D R) (tokens_at m name).
Proof. unfold tokens_at. sched_ends. Qed.
Hint Resolve ends_tokens_at : ends.

Lemma ends_FinishRequest i : ends (FinishRequest (D := D) (R := R) i).
Proof. unfold FinishRequest. sched_ends. Qed.
Lemma ends_PushBackGenCtx g : ends (PushBackGenCtx (D := D) (R := R) g).
Proof. unfold PushBackGenCtx. sched_ends. Qed.
Hint Resolve ends_FinishRequest ends_PushBackGenCtx : ends.

(** * Operators *)
Lemma ends_call_kernel k op : ends (call_kernel (D := D) (R := R) (K := K) k op).
Proof.
  intros s. unfold wp, call_kernel. assert (H := kernel_call_ends k op s).
  destruct (kernel_call k op s) as [[a|e] f]; [done|]. by intros ->.
Qed.
Lemma ends_check_stop_words n out words : ends (S := AsModel D R) (check_stop_words n out words).
Proof. induction words; cbn [check_stop_words]; sched_ends. Qed.
Hint Resolve ends_call_kernel ends_check_stop_words : ends.
Lemma ends_check_finish g : ends (check_finish (D := D) (R := R) g).
Proof. unfold check_finish. sched_ends. Qed.
Lemma ends_copy_generated_ids g b : ends (copy_generated_ids (D := D) (R := R) ctx_ g b).
Proof. unfold copy_generated_ids. sched_ends. Qed.
Hint Resolve ends_check_finish ends_copy_generated_ids : ends.

Lemma ends_call_op op call : ends (call_op (D := D) (R := R) (K := K) ctx_ op call).
Proof.
  destruct op, call; unfold call_op, UpdateId_Forward, RunContext, RunDecoder, GetContextGenCtx; sched_ends.
Qed.
Hint Resolve ends_call_op : ends.
Lemma ends_call_each op calls : ends (call_each (D := D) (R := R) (K := K) ctx_ op calls).
Proof. induction calls; cbn [call_each]; sched_ends. Qed.
Hint Resolve ends_call_each : ends.
Lemma ends_call_all ops calls : ends (call_all (D := D) (R := R) (K := K) ctx_ ops calls).
Proof. induction ops; cbn [call_all]; sched_ends. Qed.
Hint Resolve ends_call_all : ends.

(** Every future is set, as every task is run. *)
Definition futures_ok (futures : gmap nat (res AsStatus)) : Prop :=
  forall i r, futures !! i = Some r -> r <> Err Hang.

Lemma wp_run_tasks tasks order futures s :
  futures_ok futures ->
  wp (run_tasks (D := D) (R := R) (K := K) ctx_ tasks order futures)
    (fun futures' _ => futures_ok futures' /\
       (forall i, is_Some (futures !! i) -> is_Some (futures' !! i)) /\
       forall i, i ∈ order -> (i < length tasks)%nat -> is_Some (futures' !! i))
    (fun _ _ => False) s.
Proof.
  revert futures s. induction order as [|j order IH]; intros futures s Hf; cbn [run_tasks].
  { apply wp_ret. split; [done|]. split; [done|]. intros i Hi. by apply not_elem_of_nil in Hi. }
  destruct (tasks !! j) as [op|] eqn:Hj.
  - apply wp_bind. assert (H := ends_call_op op CallAlloc s). unfold wp in H. unfold wp at 1, packaged.
    destruct (call_op ctx_ op CallAlloc s) as [r s1].
    assert (Hr : futures_ok (<[j := r]> futures)).
    { intros i r' [[_ <-]|[_ Hi]]%lookup_insert_Some; [|by eapply Hf]. destruct r; congruence. }
    eapply wp_mono; [by apply IH| |done]. intros f s2 (H1 & H2 & H3).
    assert (Hkeep : forall i, i = j \/ is_Some (futures !! i) -> is_Some (f !! i)).
    { intros i Hi. apply H2. rewrite lookup_insert_is_Some'. naive_solver. }
    split; [done|]. split; [auto|]. intros i [->|Hi]%elem_of_cons Hl; [auto|by apply H3].
  - eapply wp_mono; [by apply IH| |done]. intros f s2 (H1 & H2 & H3). split; [done|]. split; [done|].
    intros i [->|Hi]%elem_of_cons Hl; [|by apply H3]. apply lookup_ge_None in Hj. lia.
Qed.

Lemma ends_get_futures idxs futures :
  futures_ok futures -> (forall i, i ∈ idxs -> is_Some (futures !! i)) ->
  ends (get_futures (D := D) (R := R) idxs futures).
Proof.
  intros Hf. induction idxs as [|i idxs IH]; intros Hall; cbn [get_futures]; [apply ends_ret|].
  destruct (Hall i) as [r Hi]; [by left|]. rewrite Hi. specialize (Hf i r Hi).
  destruct r as [st|e]; [|by apply ends_throw; congruence].
  case_bool_decide; [|sched_ends]. apply IH. intros j Hj. apply Hall. by right.
Qed.

Lemma ends_alloc_decoder : ends (alloc_decoder (D := D) (R := R) (K := K) ctx_ graph_ops_).
Proof.
  unfold alloc_decoder. destruct (is_cuda _); [|apply ends_call_all]. cbv zeta.
  case_match; [by apply ends_throw|]. case_match; [by apply ends_throw|].
  set (tasks := List.filter _ _). intros s. apply wp_bind, wp_gets, wp_bind.
  eapply wp_mono; [apply wp_run_tasks; intros i r; by rewrite lookup_empty| |done].
  intros futures s1 (H1 & _ & H2). case_match; [by apply wp_bind, wp_modify, wp_ret|].
  apply ends_get_futures; [done|]. intros i Hi%elem_of_seq. apply H2; [apply task_order_all|]; lia.
Qed.
Hint Resolve ends_alloc_decoder : ends.

(** * Ending a request *)
Lemma ends_split_pending id l : ends (split_pending (D := D) (R := R) id l).
Proof. induction l; cbn [split_pending]; sched_ends. Qed.
Lemma ends_find_running id idxs : ends (find_running (D := D) (R := R) id idxs).
Proof. induction idxs; cbn [find_running]; sched_ends. Qed.
Lemma ends_CreateTensorForHash r src name : ends (CreateTensorForHash (D := D) (R := R) r src name).
Proof. unfold CreateTensorForHash. sched_ends. Qed.
Lemma ends_insert_prefix g name i : ends (insert_prefix (D := D) (R := R) g name i).
Proof. unfold insert_prefix. sched_ends. Qed.
Hint Resolve ends_split_pending ends_find_running ends_CreateTensorForHash ends_insert_prefix : ends.
Lemma ends_release_caches g c : ends (release_caches (D := D) (R := R) ctx_ g c).
Proof. unfold release_caches. sched_ends. Qed.
Hint Resolve ends_release_caches : ends.

Lemma ends_StopRequest id : ends (StopRequest (D := D) (R := R) (K := K) ctx_ graph_ops_ id).
Proof. unfold StopRequest, StopPendingRequest. sched_ends. Qed.
Lemma ends_ReleaseRequest id : ends (ReleaseRequest (D := D) (R := R) id).
Proof. unfold ReleaseRequest. sched_ends. Qed.
Hint Resolve ends_StopRequest : ends.
Lemma ends_stop_finished idxs : ends (stop_finished (D := D) (R := R) (K := K) ctx_ graph_ops_ idxs).
Proof. induction idxs; cbn [stop_finished]; sched_ends. Qed.
Hint Resolve ends_stop_finished : ends.
Lemma ends_stop_all_finished : ends (stop_all_finished (D := D) (R := R) (K := K) ctx_ graph_ops_).
Proof. unfold stop_all_finished. sched_ends. Qed.
Hint Resolve ends_stop_all_finished : ends.

(** * The context phase *)
Lemma ends_runDecoderContext : ends (runDecoderContext (D := D) (R := R) (K := K) ctx_ graph_ops_).
Proof. unfold runDecoderContext, reset_layer_cache. sched_ends. Qed.
Lemma ends_init_layers g layers : ends (init_layers (D := D) (R := R) ctx_ g layers).
Proof. induction layers; cbn [init_layers]; sched_ends. Qed.
Hint Resolve ends_runDecoderContext ends_init_layers : ends.
Lemma ends_prepare g r : ends (prepare (D := D) (R := R) ctx_ g r).
Proof. unfold prepare, fill_prefix. sched_ends. Qed.
Hint Resolve ends_prepare : ends.
Lemma ends_StartRequest r : ends (StartRequest (D := D) (R := R) (K := K) ctx_ graph_ops_ r).
Proof. unfold StartRequest, buildGenContext. sched_ends. Qed.
Hint Resolve ends_StartRequest : ends.
Lemma ends_PrefillChunkRequest r : ends (PrefillChunkRequest (D := D) (R := R) (K := K) ctx_ graph_ops_ r).
Proof. unfold PrefillChunkRequest. sched_ends. Qed.
Lemma ends_reserve_frames r : ends (reserve_frames (D := D) (R := R) ctx_ r).
Proof. unfold reserve_frames. sched_ends. Qed.
Hint Resolve ends_PrefillChunkRequest ends_reserve_frames : ends.

Lemma ends_GenerateContinueContext b :
  ends (GenerateContinueContext (D := D) (R := R) (K := K) ctx_ graph_ops_ b).
Proof. unfold GenerateContinueContext. sched_ends. Qed.

(** * Decoding *)
Lemma ends_GenerateContinue : ends (GenerateContinue (D := D) (R := R) (K := K) ctx_ graph_ops_).
Proof. unfold GenerateContinue, GenerateContinueDecoder, reset_layer_cache. sched_ends. Qed.

Lemma ends_AllocDecoderMemory : ends (AllocDecoderMemory (D := D) (R := R) ctx_).
Proof.
  assert (Hn : forall gs, ends (new_spans (D := D) (R := R) ctx_ gs)).
  { induction gs as [|g gs IH]; cbn [new_spans]; [apply ends_ret|]. apply ends_bind; [apply ends_deref|].
    intros c. assert (H := GetSeqLength_ends (cache c) 0).
    destruct (GetSeqLength _ _) as [n|e]; [sched_ends|apply ends_throw; congruence]. }
  unfold AllocDecoderMemory. sched_ends.
Qed.

Lemma ends_StartRequestImpl id ins outs cfg : ends (StartRequestImpl (D := D) (R := R) id ins outs cfg).
Proof. unfold StartRequestImpl. sched_ends. Qed.
End ends.

#[export] Hint Resolve ends_GenerateContinueContext ends_GenerateContinue ends_AllocDecoderMemory
  ends_StopRequest ends_ReleaseRequest ends_StartRequestImpl ends_deref ends_at : ends.
