(* ===== verification/SchedulerFrame.v ===== *)
(** What the operators and the preparation of a context leave alone: the
    relation [frame] between model states, and that every call of an operator,
    of the device or of a cache keeps it. *)
From stdpp Require Import base list gmap strings.
From S2P Require Import Prelude FrameManager ModelState Scheduler.

(** * Heaps related pointwise *)
Definition map_rel {A} (P : A -> A -> Prop) (m m' : gmap nat A) : Prop :=
  forall k, option_Forall2 P (m !! k) (m' !! k).

Section map_rel.
Context {A : Type} (P : A -> A -> Prop) `{HP : !PreOrder P}.

Lemma map_rel_refl m : map_rel P m m.
Proof. intros k. destruct (m !! k); by constructor. Qed.

Lemma map_rel_trans m1 m2 m3 : map_rel P m1 m2 -> map_rel P m2 m3 -> map_rel P m1 m3.
Proof.
  intros H1 H2 k. specialize (H1 k). specialize (H2 k).
  destruct H1 as [a b Hab|]; inversion H2; subst; constructor. by etrans.
Qed.

Lemma map_rel_upd m0 m k a b :
  map_rel P m0 m -> m !! k = Some a -> P a b -> map_rel P m0 (<[k := b]> m).
Proof.
  intros H Hk Hab j. destruct (decide (k = j)) as [<-|Hne].
  - rewrite lookup_insert_eq. specialize (H k). rewrite Hk in H.
    inversion H; subst; constructor. by etrans.
  - rewrite lookup_insert_ne by done. apply H.
Qed.

Lemma map_rel_imap m f :
  (forall k a, P a (f k a)) -> map_rel P m (map_imap (fun k a => Some (f k a)) m).
Proof.
  intros H k. rewrite map_lookup_imap. destruct (m !! k); simpl; constructor. apply H.
Qed.

Lemma map_rel_lookup m m' k a :
  map_rel P m m' -> m !! k = Some a -> exists b, m' !! k = Some b /\ P a b.
Proof.
  intros H Hk. specialize (H k). rewrite Hk in H. inversion H; eauto.
Qed.

Lemma map_rel_lookup_r m m' k b :
  map_rel P m m' -> m' !! k = Some b -> exists a, m !! k = Some a /\ P a b.
Proof.
  intros H Hk. specialize (H k). rewrite Hk in H. inversion H; eauto.
Qed.
End map_rel.

Lemma map_rel_mono {A} (P Q : A -> A -> Prop) m m' :
  (forall a b, P a b -> Q a b) -> map_rel P m m' -> map_rel Q m m'.
Proof. intros HPQ H k. specialize (H k). destruct H; constructor; auto. Qed.

(** * What may change *)

(** A request but for its interim tensors. *)
Definition same_req (q q' : Request) : Prop := set_interim ∅ q = set_interim ∅ q'.

#[export] Instance same_req_preorder : PreOrder same_req.
Proof. split; unfold same_req; [done|intros ???; congruence]. Qed.

Lemma same_req_fields q q' : same_req q q' ->
  request_id q' = request_id q /\ status q' = status q /\ finish q' = finish q /\
  gen_cfg q' = gen_cfg q /\ input_len q' = input_len q /\ origin_len q' = origin_len q /\
  prefill_chunk_len q' = prefill_chunk_len q /\ inputs q' = inputs q /\
  outputs q' = outputs q /\ start_ts q' = start_ts q.
Proof. destruct q, q'. unfold same_req, set_interim. simpl. intros [=]. by subst. Qed.

Section frame.
Context {D R K : Type} `{MD : ModelDevice D R} `{KS : Kernels D R K}.
Variable ctx_ : DeviceContext.
Variable graph_ops_ : Graph K.
Abbreviation W := (M (AsModel D R)).
Abbreviation context := (GenerateContext R).

(** What an operator keeps of a context; [ctx_finish] may be set. *)
Record op_keeps (c c' : context) : Prop := mkOpKeeps {
  ok_request : request c' = request c;
  ok_batch : current_batch c' = current_batch c;
  ok_cfg : ctx_gen_cfg c' = ctx_gen_cfg c;
  ok_len : ctx_input_len c' = ctx_input_len c;
  ok_step : step c' = step c;
  ok_bias : in_length_bias c' = in_length_bias c;
  ok_prefix : ctx_prefix_len c' = ctx_prefix_len c;
  ok_finish : ctx_finish c = true -> ctx_finish c' = true;
}.

(** What the whole context phase keeps. *)
Record ctx_keeps (c c' : context) : Prop := mkCtxKeeps {
  ck_request : request c' = request c;
  ck_batch : current_batch c' = current_batch c;
  ck_cfg : ctx_gen_cfg c' = ctx_gen_cfg c;
  ck_len : ctx_input_len c' = ctx_input_len c;
}.

#[export] Instance op_keeps_preorder : PreOrder op_keeps.
Proof.
  split; [by split|].
  intros x y z [] []. split; first [congruence | auto].
Qed.
#[export] Instance ctx_keeps_preorder : PreOrder ctx_keeps.
Proof. split; [by split|]. intros x y z [] []. split; congruence. Qed.

Lemma op_ctx_keeps c c' : op_keeps c c' -> ctx_keeps c c'.
Proof. intros []. by split. Qed.

(** What everything but the operators' [Forward] keeps of a context: all but
    the caches and the index in the list. *)
Record ctx_same (c c' : context) : Prop := mkCtxSame {
  cs_request : request c' = request c;
  cs_cfg : ctx_gen_cfg c' = ctx_gen_cfg c;
  cs_len : ctx_input_len c' = ctx_input_len c;
  cs_step : step c' = step c;
  cs_bias : in_length_bias c' = in_length_bias c;
  cs_prefix : ctx_prefix_len c' = ctx_prefix_len c;
  cs_finish : ctx_finish c' = ctx_finish c;
}.
Definition cache_keeps (c c' : context) : Prop :=
  ctx_same c c' /\ current_batch c' = current_batch c.

#[export] Instance ctx_same_preorder : PreOrder ctx_same.
Proof. split; [by split|]. intros x y z [] []. split; congruence. Qed.
#[export] Instance cache_keeps_preorder : PreOrder cache_keeps.
Proof.
  split; [by repeat split|]. intros x y z [H1 E1] [H2 E2]. split; [by etrans|congruence].
Qed.

Lemma cache_op_keeps c c' : cache_keeps c c' -> op_keeps c c'.
Proof. intros [[] ?]. split; congruence. Qed.
Lemma cache_ctx_keeps c c' : cache_keeps c c' -> ctx_keeps c c'.
Proof. intros H. by apply op_ctx_keeps, cache_op_keeps. Qed.

Record frame (G : context -> context -> Prop) (s0 s : AsModel D R) : Prop := mkFrameRel {
  fr_pending : pending_request_queue_ s = pending_request_queue_ s0;
  fr_list : gen_ctx_list s = gen_ctx_list s0;
  fr_map : all_request_map_ s = all_request_map_ s0;
  fr_unfinished : current_unfinished_request_ s = current_unfinished_request_ s0;
  fr_already : already_context_length_ s = already_context_length_ s0;
  fr_context : is_context s = is_context s0;
  fr_batch : context_batch s = context_batch s0;
  fr_requests : map_rel same_req (requests s0) (requests s);
  fr_ctxs : map_rel G (gen_ctxs s0) (gen_ctxs s);
  fr_next : (next_ptr s0 <= next_ptr s)%nat;
}.

#[export] Instance frame_preorder G `{!PreOrder G} : PreOrder (frame G).
Proof.
  split.
  - intros s. split; try done; try lia; apply map_rel_refl; exact _.
  - intros x y z [] []. split; try congruence; try lia; (eapply map_rel_trans; [exact _|done|done]).
Qed.

Lemma frame_mono (G G' : context -> context -> Prop) s0 s :
  (forall c c', G c c' -> G' c c') -> frame G s0 s -> frame G' s0 s.
Proof. intros HG []. split; try done. by eapply map_rel_mono. Qed.

Lemma frame_op_ctx s0 s : frame op_keeps s0 s -> frame ctx_keeps s0 s.
Proof. apply frame_mono, op_ctx_keeps. Qed.

(** ** Primitive steps *)

Lemma deref_pres {A} I (get : AsModel D R -> gmap nat A) p : pres I (deref get p).
Proof. intros s Hs. unfold wp, deref. by destruct (get s !! p). Qed.

Lemma at_pres I m name : pres (S := AsModel D R) I (at_ m name).
Proof. unfold at_. destruct (m !! name); apply pres_ret || apply pres_throw. Qed.

Lemma GetGenCtx_pres I i : pres (S := AsModel D R) I (GetGenCtx i).
Proof.
  intros s Hs. unfold wp, GetGenCtx.
  destruct (i <? 0); [done|]. by destruct (gen_ctx_list s !! _).
Qed.

Lemma wp_deref {A} (get : AsModel D R -> gmap nat A) p Q E s :
  (forall a, get s !! p = Some a -> Q a s) -> (get s !! p = None -> E UB s) ->
  wp (deref get p) Q E s.
Proof. unfold wp, deref. destruct (get s !! p); auto. Qed.

Lemma upd_req_pres I r f :
  (forall s q, I s -> requests s !! r = Some q -> I (set_requests <[r := f q]> s)) ->
  pres (S := AsModel D R) I (upd_req r f).
Proof.
  intros H s Hs. apply wp_bind, wp_deref; [|done]. intros q Hq. by apply wp_modify, H.
Qed.
Lemma upd_gen_pres I g f :
  (forall s c, I s -> gen_ctxs s !! g = Some c -> I (set_gen_ctxs <[g := f c]> s)) ->
  pres (S := AsModel D R) I (upd_gen g f).
Proof.
  intros H s Hs. apply wp_bind, wp_deref; [|done]. intros q Hq. by apply wp_modify, H.
Qed.

Lemma on_caches_pres {A} I g (m : M (D * R) A) :
  (forall s c x d, I s -> gen_ctxs s !! g = Some c ->
     I (set_gen_ctxs <[g := set_cache x (ctx_prefix_len c) (prefix_cache_node_list c) c]>
          (set_dev d s))) ->
  pres (S := AsModel D R) I (on_caches g m).
Proof.
  intros H s Hs. unfold wp, on_caches. destruct (gen_ctxs s !! g) as [c|] eqn:Hc; [|done].
  destruct (m _) as [r [d x]]. destruct r; by apply H.
Qed.

(** ** The frame is kept *)
Section keeps.
Context (G : context -> context -> Prop) `{HG : !PreOrder G} (s0 : AsModel D R).

Lemma frame_of_next s n : frame G s0 s -> (next_ptr s <= n)%nat ->
  frame G s0 (set_next_ptr n s).
Proof. intros [] ?. split; try done. simpl. lia. Qed.

Lemma upd_req_frame r f : (forall q, same_req q (f q)) -> pres (frame G s0) (upd_req r f).
Proof.
  intros Hf. apply upd_req_pres. intros s q [] Hq. split; try done.
  simpl. eapply map_rel_upd; eauto; exact _.
Qed.
Lemma upd_gen_frame g f : (forall c, G c (f c)) -> pres (frame G s0) (upd_gen g f).
Proof.
  intros Hf. apply upd_gen_pres. intros s q [] Hq. split; try done.
  simpl. eapply map_rel_upd; eauto; exact _.
Qed.
Lemma upd_tensor_frame x f : pres (frame G s0) (upd_tensor x f).
Proof.
  unfold upd_tensor. apply pres_bind; [apply deref_pres|]. intros v.
  apply pres_modify. intros s []. by split.
Qed.
Lemma new_tensor_frame v : pres (frame G s0) (new_tensor v).
Proof.
  intros s []. unfold wp. simpl. split; try done. simpl. lia.
Qed.
Lemma on_dev_frame {A} (m : M D A) : pres (frame G s0) (on_dev m).
Proof. apply pres_zoom. intros s d []. by split. Qed.
Lemma tick_frame : pres (frame G s0) tick.
Proof. unfold tick. pres_tac. apply pres_modify. intros s []. by split. Qed.
Lemma on_caches_frame {A} g (m : M (D * R) A) :
  (forall c x, G c (set_cache x (ctx_prefix_len c) (prefix_cache_node_list c) c)) ->
  pres (frame G s0) (on_caches g m).
Proof.
  intros Hf. apply on_caches_pres. intros s c x d [] Hc. split; try done.
  simpl. eapply map_rel_upd; eauto; exact _.
Qed.
Lemma flags_frame f :
  (exists h, f = set_cache_set h) \/ (exists n, f = set_model_step n) \/
  (exists h, f = fun s => set_model_step (h s) s) \/ (exists g, f = set_op_gen_ctx g) ->
  pres (frame G s0) (modify f).
Proof.
  intros Hf. apply pres_modify. intros s [].
  destruct Hf as [[h ->]|[[n ->]|[[h ->]|[g ->]]]]; by split.
Qed.
Lemma tokens_at_pres I m name : pres (S := AsModel D R) I (tokens_at m name).
Proof.
  unfold tokens_at. apply pres_bind; [apply at_pres|]. intros x.
  apply pres_bind; [apply deref_pres|]. intros v. pres_tac.
Qed.
End keeps.

Hint Resolve deref_pres at_pres GetGenCtx_pres upd_tensor_frame new_tensor_frame
  on_dev_frame tick_frame tokens_at_pres : pres.

(** ** Operators *)
Lemma call_kernel_quiet s0 k op : pres (frame cache_keeps s0) (call_kernel (K := K) k op).
Proof.
  intros s Hs. unfold wp, call_kernel. destruct (kernel_call k op s) as [r e].
  assert (frame cache_keeps s (apply_effect e s)) as He.
  { split; try done; simpl; [| |lia].
    - apply map_rel_imap. intros r' q. unfold same_req. by destruct q.
    - apply map_rel_imap. intros g c. by repeat split. }
  destruct r; by etrans.
Qed.

(** What keeps the smaller frame from every state keeps the larger one. *)
Lemma lift_pres {A} (G G' : context -> context -> Prop) `{!PreOrder G'} (m : W A) s0 :
  (forall c c', G c c' -> G' c c') ->
  (forall s, frame G s s) -> (forall s, pres (frame G s) m) -> pres (frame G' s0) m.
Proof.
  intros HG Hr H s Hs. eapply wp_mono; [by apply (H s)| |];
    intros a s' Hs'; (etrans; [exact Hs|by eapply frame_mono]).
Qed.

Lemma call_kernel_frame s0 k op : pres (frame op_keeps s0) (call_kernel (K := K) k op).
Proof.
  apply (lift_pres cache_keeps); [exact _|apply cache_op_keeps|reflexivity|].
  intros s. apply call_kernel_quiet.
Qed.

Lemma check_stop_words_pres I n out words :
  pres (S := AsModel D R) I (check_stop_words n out words).
Proof.
  induction words as [|w words IH]; [apply pres_ret|]. cbn [check_stop_words].
  repeat pres_step; apply IH.
Qed.

(** Only the flags of a context that had not finished are written. *)
Lemma check_finish_frame s0 g : pres (frame op_keeps s0) (check_finish g).
Proof.
  intros s Hs. unfold check_finish. apply wp_bind, wp_deref; [|done]. intros c Hc. cbv zeta.
  destruct (ctx_finish c) eqn:Hf; [by apply wp_ret|].
  assert (Hset : forall f o, wp (upd_gen g (set_ctx_finish f o))
    (fun _ s' => frame op_keeps s0 s') (fun _ s' => frame op_keeps s0 s') s).
  { intros f o. apply wp_bind, wp_deref; [|done]. intros c' Hc'. apply wp_modify.
    replace c' with c in * by congruence. destruct Hs. split; try done.
    simpl. eapply map_rel_upd; [exact _|done|done|]. split; try done. simpl. congruence. }
  destruct (_ <=? _); [apply Hset|].
  apply wp_bind, wp_deref; [|done]. intros q Hq. apply wp_bind.
  unfold at_. destruct (interim q !! _) as [x|]; [apply wp_ret|by apply wp_throw].
  apply wp_bind, wp_deref; [|done]. intros v Hv. cbv zeta.
  destruct (early_stopping _ && _); [by apply wp_throw|].
  destruct (early_stopping _ && _); [apply Hset|].
  destruct (_ && _); [|by apply wp_ret]. apply wp_bind.
  assert (Hr : forall out words n, wp (check_stop_words n out words) (fun _ s' => s' = s)
    (fun _ s' => s' = s) s).
  { intros out words n. by apply (check_stop_words_pres (fun s' => s' = s)). }
  eapply wp_mono; [apply Hr| |by intros e s' ->]. intros m s' ->. apply Hset.
Qed.

Lemma copy_generated_ids_frame s0 g b :
  pres (frame op_keeps s0) (copy_generated_ids ctx_ g b).
Proof. unfold copy_generated_ids, gen, req, tensor. pres_tac. Qed.

Hint Resolve call_kernel_frame check_finish_frame copy_generated_ids_frame : pres.

Lemma call_op_frame s0 op call : pres (frame op_keeps s0) (call_op (K := K) ctx_ op call).
Proof.
  destruct op as [k|name]; [apply call_kernel_frame|]. destruct call; try apply pres_ret.
  unfold call_op, UpdateId_Forward, RunContext, RunDecoder, GetContextGenCtx. pres_tac.
Qed.

Lemma ErrorProcess_frame G s0 st : pres (frame G s0) (ErrorProcess st).
Proof.
  unfold ErrorProcess. pres_tac. apply flags_frame; eauto.
Qed.
Hint Resolve call_op_frame ErrorProcess_frame : pres.

Lemma call_each_frame s0 op calls :
  pres (frame op_keeps s0) (call_each (K := K) ctx_ op calls).
Proof. induction calls; cbn [call_each]; pres_tac. Qed.
Hint Resolve call_each_frame : pres.

Lemma call_all_frame s0 ops calls : pres (frame op_keeps s0) (call_all (K := K) ctx_ ops calls).
Proof. induction ops; cbn [call_all]; unfold if_success; pres_tac. Qed.

(** Without [Forward], only the caches of the contexts change. *)
Lemma call_all_quiet s0 ops calls :
  CallForward ∉ calls -> pres (frame cache_keeps s0) (call_all (K := K) ctx_ ops calls).
Proof.
  intros Hc. assert (He : forall op, pres (frame cache_keeps s0) (call_each (K := K) ctx_ op calls)).
  { intros op. induction calls as [|call calls IH]; cbn [call_each]; [apply pres_ret|].
    apply pres_bind; [|intros st; case_match; [apply IH; set_solver|apply ErrorProcess_frame]].
    destruct op as [k|name]; [apply call_kernel_quiet|]. destruct call; try apply pres_ret. set_solver. }
  induction ops; cbn [call_all]; unfold if_success; [apply pres_ret|].
  apply pres_bind; [apply He|intros st; case_match; [done|apply pres_ret]].
Qed.

Lemma packaged_pres {A} I (m : W A) : pres I m -> pres I (packaged m).
Proof.
  intros Hm s Hs. specialize (Hm s Hs). unfold wp in *. unfold packaged.
  by destruct (m s) as [[a|e] s'].
Qed.

Lemma alloc_decoder_frame s0 :
  pres (frame op_keeps s0) (alloc_decoder (K := K) ctx_ graph_ops_).
Proof.
  assert (Hr : forall tasks order m, pres (frame op_keeps s0) (run_tasks (K := K) ctx_ tasks order m)).
  { intros tasks order. induction order as [|i order IH]; intros m; cbn [run_tasks]; [apply pres_ret|].
    destruct (tasks !! i); [|apply IH]. apply pres_bind; [|intros r; apply IH].
    apply packaged_pres, call_op_frame. }
  assert (Hg : forall idxs m, pres (frame op_keeps s0) (get_futures idxs m)).
  { intros idxs m. induction idxs as [|i idxs IH]; cbn [get_futures]; pres_tac. }
  unfold alloc_decoder. destruct (is_cuda _); [pres_tac|apply call_all_frame].
Qed.

(** What keeps the operators' frame from every state keeps the context's. *)
Lemma lift_frame {A} (m : W A) s0 :
  (forall s, pres (frame op_keeps s) m) -> pres (frame ctx_keeps s0) m.
Proof.
  apply lift_pres; [exact _|apply op_ctx_keeps|reflexivity].
Qed.

(** ** The context phase *)
Hint Resolve alloc_decoder_frame call_all_frame : pres.

Lemma req_interim_frame G s0 r f :
  pres (frame G s0) (upd_req r (fun q => set_interim (f q) q)).
Proof. apply upd_req_frame. intros q. unfold same_req. by destruct q. Qed.
Lemma gen_frame s0 g f : (forall c, ctx_keeps c (f c)) -> pres (frame ctx_keeps s0) (upd_gen g f).
Proof. intros H. apply upd_gen_frame; [exact _|done]. Qed.

Lemma reset_layer_cache_frame G s0 : pres (frame G s0) reset_layer_cache.
Proof. unfold reset_layer_cache. pres_tac; apply flags_frame; eauto. Qed.
Lemma op_gen_ctx_frame G s0 g : pres (frame G s0) (modify (set_op_gen_ctx g)).
Proof. apply flags_frame. eauto 10. Qed.
Hint Resolve req_interim_frame reset_layer_cache_frame op_gen_ctx_frame : pres.

Lemma call_all_ctx_frame s0 ops calls :
  pres (frame ctx_keeps s0) (call_all (K := K) ctx_ ops calls).
Proof. apply lift_frame. intros s. apply call_all_frame. Qed.
Lemma alloc_decoder_ctx_frame s0 :
  pres (frame ctx_keeps s0) (alloc_decoder (K := K) ctx_ graph_ops_).
Proof. apply lift_frame. intros s. apply alloc_decoder_frame. Qed.
Hint Resolve call_all_ctx_frame alloc_decoder_ctx_frame ErrorProcess_frame : pres.
Hint Extern 1 (pres (frame ctx_keeps _) (upd_gen _ _)) => apply gen_frame; by split : pres.

Lemma runDecoderContext_frame s0 :
  pres (frame ctx_keeps s0) (runDecoderContext ctx_ graph_ops_).
Proof. unfold runDecoderContext, if_success, gen, req, tensor. pres_tac. Qed.

Lemma on_caches_quiet {A} s0 g (m : M (D * R) A) : pres (frame cache_keeps s0) (on_caches g m).
Proof. apply on_caches_frame; [exact _|by repeat split]. Qed.

Lemma on_caches_ctx_frame {A} s0 g (m : M (D * R) A) : pres (frame ctx_keeps s0) (on_caches g m).
Proof. apply on_caches_frame; [exact _|by split]. Qed.
Hint Resolve on_caches_ctx_frame : pres.

Lemma CreateTensorForHash_frame G s0 r src name :
  pres (frame G s0) (CreateTensorForHash r src name).
Proof. unfold CreateTensorForHash, tensor. pres_tac. Qed.

Lemma insert_prefix_quiet s0 g name start :
  pres (frame cache_keeps s0) (insert_prefix g name start).
Proof.
  unfold insert_prefix, gen, req. pres_tac. apply upd_gen_frame; [exact _|by repeat split].
Qed.

Lemma insert_prefix_frame s0 g name start :
  pres (frame ctx_keeps s0) (insert_prefix g name start).
Proof. unfold insert_prefix, gen, req. pres_tac. Qed.

Lemma init_layers_frame s0 g layers : pres (frame ctx_keeps s0) (init_layers ctx_ g layers).
Proof. induction layers; cbn [init_layers]; unfold check_status; pres_tac. Qed.
Hint Resolve init_layers_frame : pres.

Lemma prepare_frame s0 g r : pres (frame ctx_keeps s0) (prepare ctx_ g r).
Proof.
  unfold prepare, check_status, fill_prefix, gen, req. pres_tac.
Qed.
End frame.

#[export] Hint Resolve deref_pres at_pres GetGenCtx_pres upd_tensor_frame new_tensor_frame
  on_dev_frame tick_frame tokens_at_pres : pres.
#[export] Hint Resolve call_all_frame alloc_decoder_frame ErrorProcess_frame : pres.
#[export] Hint Resolve runDecoderContext_frame CreateTensorForHash_frame insert_prefix_frame
  prepare_frame on_caches_ctx_frame reset_layer_cache_frame : pres.
