(* ===== verification/SchedulerProofs.v ===== *)
(** Correctness of the request scheduling of [Scheduler]: the invariant of its
    tables, what stopping, admitting and decoding do to the requests, and how
    long prefilling and decoding can take. *)
From stdpp Require Import base list gmap strings.
From S2P Require Import Prelude FrameManager ModelState Scheduler SchedulerFrame.

(** * Removal by moving the last element *)
Section swap_remove.
Context {A : Type}.
Implicit Types l : list A.

Lemma removelast_take l : removelast l = take (length l - 1) l.
Proof.
  induction l as [|x [|y l] IH]; [done..|].
  change (removelast (x :: y :: l)) with (x :: removelast (y :: l)). rewrite IH.
  simpl. by rewrite Nat.sub_0_r.
Qed.

Lemma swap_remove_lookup l i y j z :
  removelast (<[i := y]> l) !! j = Some z ->
  (j < length l - 1)%nat /\ ((j = i /\ z = y) \/ (j <> i /\ l !! j = Some z)).
Proof.
  rewrite removelast_take, length_insert. intros H.
  apply lookup_take_Some in H as [H Hj]. split; [lia|].
  destruct (decide (j = i)) as [->|Hne].
  - left. rewrite list_lookup_insert_eq in H by lia. by simplify_eq.
  - right. by rewrite list_lookup_insert_ne in H.
Qed.

(** The element [x] at [i] is taken out and the last one takes its place. *)
Definition swap_removed (i : nat) (x : A) l l' : Prop :=
  l !! i = Some x /\ exists y, l !! (length l - 1)%nat = Some y /\ l' = removelast (<[i := y]> l).

(** Where an element that is left was before. *)
Lemma swap_removed_lookup i x l l' j z :
  swap_removed i x l l' -> l' !! j = Some z ->
  (j <> i /\ l !! j = Some z) \/ (j = i /\ (i < length l - 1)%nat /\ l !! (length l - 1)%nat = Some z).
Proof.
  intros (Hi & y & Hy & ->) Hz. apply swap_remove_lookup in Hz as (Hj & [[-> ->]|[Hne Hz]]).
  - by right.
  - by left.
Qed.

Lemma swap_remove_perm l i x y :
  l !! i = Some x -> l !! (length l - 1)%nat = Some y ->
  Permutation l (x :: removelast (<[i := y]> l)).
Proof.
  intros Hi Hy. rewrite removelast_take, length_insert.
  assert (Hlen := lookup_lt_Some _ _ _ Hi).
  rewrite <- (take_drop_middle l _ y Hy) at 1.
  rewrite (drop_ge l) by lia.
  destruct (decide (i = length l - 1)%nat) as [->|Hne].
  - rewrite take_insert_ge by lia. replace y with x by congruence.
    by rewrite Permutation_app_comm.
  - rewrite take_insert_lt by lia.
    set (l' := take (length l - 1) l). assert (Hx : l' !! i = Some x).
    { unfold l'. rewrite lookup_take_lt by lia. done. }
    assert (i < length l')%nat by (by eapply lookup_lt_Some).
    rewrite insert_take_drop by done. rewrite <- (take_drop_middle l' i x Hx) at 1.
    rewrite <- app_assoc. simpl. rewrite <- !Permutation_middle. f_equiv.
    rewrite app_assoc. by rewrite Permutation_app_comm.
Qed.

Lemma swap_removed_perm i x l l' : swap_removed i x l l' -> Permutation l (x :: l').
Proof. intros (Hi & y & Hy & ->). by apply swap_remove_perm. Qed.
End swap_remove.

(** * The tables *)
Definition ended (st : GenerateRequestStatus) : bool :=
  bool_decide (st = GenerateFinished) || bool_decide (st = GenerateInterrupted).

Section tables.
Context {D R K : Type} `{MD : ModelDevice D R} `{KS : Kernels D R K}.
Variable ctx_ : DeviceContext.
Variable graph_ops_ : Graph K.
Abbreviation W := (M (AsModel D R)).
Abbreviation model := (AsModel D R).
Abbreviation context := (GenerateContext R).

(** The requests that run, in the order of their contexts. *)
Definition running (s : model) : list nat :=
  omap (fun g => request <$> gen_ctxs s !! g) (gen_ctx_list s).

(** Every listed context exists, knows its index and runs a request that
    exists; no request is in two places; a pending one has not begun. *)
Record tables_ok (s : model) : Prop := mkTablesOk {
  tk_ctx i g : gen_ctx_list s !! i = Some g ->
    exists c, gen_ctxs s !! g = Some c /\ current_batch c = Z.of_nat i /\
      is_Some (requests s !! request c);
  tk_once : NoDup (pending_request_queue_ s ++ running s);
  tk_pending r : r ∈ pending_request_queue_ s ->
    exists q, requests s !! r = Some q /\ status q = Init;
  tk_map id r : all_request_map_ s !! id = Some r -> is_Some (requests s !! r);
  tk_req r : is_Some (requests s !! r) -> (r < next_ptr s)%nat;
  tk_gen g : is_Some (gen_ctxs s !! g) -> (g < next_ptr s)%nat;
}.

(** What no step of the scheduler changes of a request, and that an ended
    request stays ended. *)
Record req_le (q q' : Request) : Prop := mkReqLe {
  rl_id : request_id q' = request_id q;
  rl_cfg : gen_cfg q' = gen_cfg q;
  rl_len : input_len q' = input_len q;
  rl_inputs : inputs q' = inputs q;
  rl_ended : ended (status q) = true -> ended (status q') = true;
}.

#[export] Instance req_le_preorder : PreOrder req_le.
Proof. split; [by split|]. intros x y z [] []. split; first [congruence | auto]. Qed.

Lemma same_req_le q q' : same_req q q' -> req_le q q'.
Proof.
  intros (? & Hs & ? & ? & ? & ? & ? & ? & ?)%same_req_fields. split; try done.
  by rewrite Hs.
Qed.

Definition ended_in (s : model) (r : nat) : Prop :=
  exists q, requests s !! r = Some q /\ ended (status q) = true.

(** Every object stays, related to what it was. *)
Definition heap_le {A} (P : A -> A -> Prop) (m m' : gmap nat A) : Prop :=
  forall k a, m !! k = Some a -> exists b, m' !! k = Some b /\ P a b.

Lemma heap_le_refl {A} (P : A -> A -> Prop) `{!PreOrder P} m : heap_le P m m.
Proof. intros k a Hk. by exists a. Qed.

Lemma heap_le_trans {A} (P : A -> A -> Prop) `{!PreOrder P} m1 m2 m3 :
  heap_le P m1 m2 -> heap_le P m2 m3 -> heap_le P m1 m3.
Proof.
  intros H1 H2 k a Hk. destruct (H1 k a Hk) as (b & Hb & Hab).
  destruct (H2 k b Hb) as (c & Hc & Hbc). exists c. split; [done|]. by etrans.
Qed.

Lemma heap_le_step {A} (P : A -> A -> Prop) `{!PreOrder P} m1 m2 m3 :
  heap_le P m1 m2 -> map_rel P m2 m3 -> heap_le P m1 m3.
Proof.
  intros H1 H2. eapply heap_le_trans; [exact _|exact H1|]. intros k a.
  by apply map_rel_lookup.
Qed.

(** From state [s0] on: the pending requests are among [P] in the order of
    [P], the running ones among [A], and those of [C] are still somewhere. *)
Record progress (P A C : list nat) (s0 s : model) : Prop := mkProgress {
  pg_tables : tables_ok s;
  pg_pending : sublist (pending_request_queue_ s) P;
  pg_running : running s ⊆+ A;
  pg_map : all_request_map_ s = all_request_map_ s0;
  pg_requests : heap_le req_le (requests s0) (requests s);
  pg_kept r : r ∈ C -> r ∈ pending_request_queue_ s \/ r ∈ running s \/ ended_in s r;
  pg_next : (next_ptr s0 <= next_ptr s)%nat;
}.

(** ** Frames keep the tables *)
Lemma running_frame (s s' : model) : frame ctx_keeps s s' -> running s' = running s.
Proof.
  intros Hf. unfold running. rewrite (fr_list _ _ _ Hf).
  apply list_omap_ext, Forall_Forall2_diag, Forall_forall. intros g _.
  assert (H := fr_ctxs _ _ _ Hf g). destruct H as [c c' Hk|]; [|done].
  simpl. f_equal. apply Hk.
Qed.

Lemma is_Some_frame (s s' : model) r : frame ctx_keeps s s' ->
  is_Some (requests s' !! r) <-> is_Some (requests s !! r).
Proof.
  intros Hf. assert (H := fr_requests _ _ _ Hf r). destruct H; naive_solver.
Qed.

Lemma tables_frame s s' : tables_ok s -> frame ctx_keeps s s' -> tables_ok s'.
Proof.
  intros [Hctx Honce Hpend Hmap Hreq Hgen] Hf. assert (Hn := fr_next _ _ _ Hf). split.
  - intros i g. rewrite (fr_list _ _ _ Hf). intros (c & Hc & Hb & Hq)%Hctx.
    destruct (map_rel_lookup _ _ _ _ _ (fr_ctxs _ _ _ Hf) Hc) as (c' & Hc' & [Hr Hb' _ _]).
    exists c'. rewrite Hc', Hr, Hb', (is_Some_frame _ _ _ Hf). done.
  - by rewrite (fr_pending _ _ _ Hf), (running_frame _ _ Hf).
  - intros r. rewrite (fr_pending _ _ _ Hf). intros (q & Hq & Hs)%Hpend.
    destruct (map_rel_lookup _ _ _ _ _ (fr_requests _ _ _ Hf) Hq) as (q' & Hq' & Hk).
    exists q'. split; [done|]. apply same_req_fields in Hk as (? & -> & _). done.
  - intros id r. rewrite (fr_map _ _ _ Hf), (is_Some_frame _ _ _ Hf). apply Hmap.
  - intros r. rewrite (is_Some_frame _ _ _ Hf). intros Hr%Hreq. lia.
  - intros g [c' Hc']. destruct (map_rel_lookup_r _ _ _ _ _ (fr_ctxs _ _ _ Hf) Hc')
      as (c & Hc & _). specialize (Hgen g ltac:(eauto)). lia.
Qed.

Lemma progress_frame P A C s0 s s' :
  progress P A C s0 s -> frame ctx_keeps s s' -> progress P A C s0 s'.
Proof.
  intros [Ht Hp Hr Hm Hq Hk Hn] Hf. assert (Hrun := running_frame _ _ Hf). split.
  - by eapply tables_frame.
  - by rewrite (fr_pending _ _ _ Hf).
  - by rewrite Hrun.
  - by rewrite (fr_map _ _ _ Hf).
  - eapply heap_le_step; [exact _|done|]. eapply map_rel_mono, (fr_requests _ _ _ Hf).
    apply same_req_le.
  - intros r Hr'. rewrite (fr_pending _ _ _ Hf), Hrun.
    destruct (Hk r Hr') as [?|[?|(q & Hqr & He)]]; [by left|by right; left|right; right].
    destruct (map_rel_lookup _ _ _ _ _ (fr_requests _ _ _ Hf) Hqr) as (q' & Hq' & Hs).
    exists q'. split; [done|]. by apply (rl_ended q q'); [apply same_req_le|].
  - assert (H := fr_next _ _ _ Hf). lia.
Qed.

(** Everything that keeps the frame of the context phase makes progress. *)
Lemma lift_progress {B} P A C s0 (m : W B) :
  (forall s, pres (frame ctx_keeps s) m) -> pres (progress P A C s0) m.
Proof.
  intros H s Hs. eapply wp_mono; [by apply (H s)| |];
    intros a s' Hs'; by eapply progress_frame.
Qed.

(** ** Requests that have not begun *)

(** What [split_pending] answers and what it leaves of the requests. *)
Record split_ok (id : string) (l : list nat) (s : model) (found : bool) (rest : list nat)
    (m' : gmap nat Request) : Prop := mkSplitOk {
  so_le : map_rel req_le (requests s) m';
  so_rest : sublist rest l;
  so_same r : r ∉ l \/ r ∈ rest -> m' !! r = requests s !! r;
  so_ended r : r ∈ l -> r ∉ rest ->
    exists q', m' !! r = Some q' /\ request_id q' = id /\ status q' = GenerateFinished;
  so_others r q : r ∈ rest -> requests s !! r = Some q -> request_id q <> id;
  so_found : found = false -> rest = l /\ m' = requests s;
  so_none : (forall r q, r ∈ l -> requests s !! r = Some q -> request_id q <> id) ->
    found = false;
}.

Lemma finish_pending_le q : req_le q (set_status GenerateFinished q).
Proof. by split. Qed.

Lemma wp_split_pending id l s :
  NoDup l -> (forall r, r ∈ l -> is_Some (requests s !! r)) ->
  wp (split_pending id l)
    (fun '(found, rest) s' => exists m', s' = set_requests (fun _ => m') s /\
       split_ok id l s found rest m')
    (fun _ _ => False) s.
Proof.
  revert s. induction l as [|r l IH]; intros s Hnd Hlive; cbn [split_pending].
  { apply wp_ret. exists (requests s). split; [by destruct s|].
    split; try done; try (intros; by set_solver). apply map_rel_refl. exact _. }
  apply NoDup_cons in Hnd as [Hr Hnd].
  apply wp_bind, wp_deref; [|intros Hnone; destruct (Hlive r ltac:(left)); congruence].
  intros q Hq. destruct (bool_decide_reflect (request_id q = id)) as [Hid|Hid].
  - apply wp_bind, wp_bind, wp_deref; [|congruence]. intros q' Hq'.
    replace q' with q by congruence. apply wp_modify. apply wp_bind.
    set (s1 := set_requests _ s).
    assert (Hs1 : forall x, is_Some (requests s1 !! x) <-> is_Some (requests s !! x)).
    { intros x. simpl. destruct (decide (r = x)) as [<-|Hx].
      - rewrite lookup_insert_eq, Hq. naive_solver.
      - by rewrite lookup_insert_ne. }
    eapply wp_mono; [apply (IH s1); [done|intros x Hx; apply Hs1, Hlive; by right]| |done].
    intros [found rest] s' (m' & -> & []). apply wp_ret. exists m'. split; [done|].
    assert (Hm : m' !! r = Some (set_status GenerateFinished q)).
    { rewrite so_same0 by (by left). apply lookup_insert_eq. }
    split.
    + eapply map_rel_trans; [exact _| |exact so_le0].
      eapply map_rel_upd;
        [exact _|apply map_rel_refl; exact _|exact Hq|apply finish_pending_le].
    + by constructor.
    + intros x [Hx|Hx].
      * rewrite so_same0 by (left; set_solver). apply lookup_insert_ne. set_solver.
      * rewrite so_same0 by (by right). apply lookup_insert_ne. intros <-.
        by apply Hr, (elem_of_sublist rest l).
    + intros x [->|Hx]%elem_of_cons Hnx; [|by apply so_ended0].
      exists (set_status GenerateFinished q). by rewrite Hm.
    + intros x q'' Hx Hqx. apply (so_others0 x); [done|]. simpl.
      rewrite lookup_insert_ne; [done|]. intros <-. by apply Hr, (elem_of_sublist rest l).
    + done.
    + intros Hnone. by destruct (Hnone r q ltac:(left) Hq).
  - apply wp_bind. eapply wp_mono; [apply (IH s); [done|intros x Hx; apply Hlive; by right]| |done].
    intros [found rest] s' (m' & -> & []). apply wp_ret. exists m'. split; [done|].
    split.
    + done.
    + by constructor.
    + intros x [Hx|[->|Hx]%elem_of_cons]; [|by apply so_same0; left|by apply so_same0; right].
      apply so_same0. left. set_solver.
    + intros x [->|Hx]%elem_of_cons Hnx; [set_solver|]. apply so_ended0; set_solver.
    + intros x q' [->|Hx]%elem_of_cons Hqx; [congruence|by eapply so_others0].
    + intros Hf. by destruct (so_found0 Hf) as [-> ->].
    + intros Hnone. apply so_none0. intros x q' Hx. apply Hnone. by right.
Qed.

Lemma wp_StopPendingRequest id s :
  tables_ok s ->
  wp (StopPendingRequest id)
    (fun found s' => exists rest m',
       s' = set_pending rest (set_requests (fun _ => m') s) /\
       split_ok id (pending_request_queue_ s) s found rest m')
    (fun _ _ => False) s.
Proof.
  intros Ht. unfold StopPendingRequest. apply wp_bind, wp_gets, wp_bind.
  eapply wp_mono; [apply wp_split_pending| |done].
  - eapply sublist_NoDup; [apply (tk_once _ Ht)|]. by apply sublist_inserts_r.
  - intros r (q & Hq & _)%(tk_pending _ Ht). eauto.
  - intros [found rest] s' (m' & -> & Hok). apply wp_bind, wp_modify, wp_ret. eauto.
Qed.

Lemma is_Some_le (m m' : gmap nat Request) r :
  map_rel req_le m m' -> is_Some (m' !! r) <-> is_Some (m !! r).
Proof. intros H. specialize (H r). destruct H; naive_solver. Qed.

Lemma split_progress P A C s0 s id found rest m' :
  progress P A C s0 s -> split_ok id (pending_request_queue_ s) s found rest m' ->
  progress P A C s0 (set_pending rest (set_requests (fun _ => m') s)).
Proof.
  intros [[Hctx Honce Hpend Hmap Hreq Hgen] Hp Hr Hm Hq Hk Hn] [].
  assert (His : forall r, is_Some (m' !! r) <-> is_Some (requests s !! r)).
  { intros r. by apply is_Some_le. }
  split; simpl; try done.
  - split; simpl.
    + intros i g (c & Hc & Hb & Hc')%Hctx. exists c. by rewrite His.
    + eapply sublist_NoDup; [apply Honce|]. by apply sublist_app.
    + intros r Hr'. rewrite so_same0 by (by right). apply Hpend. by eapply elem_of_sublist.
    + intros i r. rewrite His. apply Hmap.
    + intros r. rewrite His. apply Hreq.
    + apply Hgen.
  - by etrans.
  - eapply heap_le_step; [exact _|done|done].
  - intros r [Hr'|[Hr'|(q & Hqr & He)]]%Hk.
    + destruct (decide (r ∈ rest)); [by left|right; right].
      destruct (so_ended0 r Hr' ltac:(done)) as (q & Hqr & _ & Hs).
      exists q. by rewrite Hs.
    + right. left. done.
    + right. right. destruct (map_rel_lookup _ _ _ _ _ so_le0 Hqr) as (q' & Hq' & Hle).
      exists q'. split; [done|]. by apply (rl_ended q q').
Qed.

Lemma StopPendingRequest_progress P A C s0 id :
  pres (progress P A C s0) (StopPendingRequest id).
Proof.
  intros s Hs. eapply wp_mono; [apply wp_StopPendingRequest, Hs| |done].
  intros found s' (rest & m' & -> & Hok). by eapply split_progress.
Qed.

(** ** The end of a running context *)

(** A context but for its index in the list. *)
Definition but_index (c c' : context) : Prop :=
  set_current_batch 0 c = set_current_batch 0 c'.

#[export] Instance but_index_preorder : PreOrder but_index.
Proof. split; unfold but_index; [done|intros ???; congruence]. Qed.

Lemma but_index_request c c' : but_index c c' -> request c' = request c.
Proof. destruct c, c'. unfold but_index, set_current_batch. simpl. by intros [=]. Qed.

Lemma but_index_same c c' : but_index c c' -> ctx_same c c'.
Proof. destruct c, c'. unfold but_index, set_current_batch. simpl. intros [=]. by subst. Qed.

Lemma omap_request (l : list nat) (m m' : gmap nat context) :
  map_rel but_index m m' ->
  omap (fun g => request <$> m' !! g) l = omap (fun g => request <$> m !! g) l.
Proof.
  intros H. apply list_omap_ext, Forall_Forall2_diag, Forall_forall. intros g _.
  destruct (H g) as [c c' Hk|]; [|done]. simpl. f_equal. by apply but_index_request.
Qed.

Record removed (i g : nat) (c : context) (s s' : model) : Prop := mkRemoved {
  rm_pending : pending_request_queue_ s' = pending_request_queue_ s;
  rm_map : all_request_map_ s' = all_request_map_ s;
  rm_unfinished : current_unfinished_request_ s' = current_unfinished_request_ s;
  rm_next : next_ptr s' = next_ptr s;
  rm_dev : dev s' = dev s;
  rm_request : exists q, requests s !! request c = Some q /\
    requests s' = <[request c := set_status GenerateFinished (set_finish true q)]> (requests s);
  rm_list : swap_removed i g (gen_ctx_list s) (gen_ctx_list s');
  rm_ctxs : map_rel but_index (gen_ctxs s) (gen_ctxs s');
  rm_running : Permutation (running s) (request c :: running s');
  rm_tables : tables_ok s';
}.

Lemma wp_GetGenCtx (i : Z) g Q E (s : model) :
  0 <= i -> gen_ctx_list s !! Z.to_nat i = Some g -> Q g s -> wp (GetGenCtx i) Q E s.
Proof.
  intros Hi Hg HQ. unfold wp, GetGenCtx. destruct (Z.ltb_spec i 0); [lia|]. by rewrite Hg.
Qed.

Lemma wp_FinishRequest i g c s :
  tables_ok s -> gen_ctx_list s !! i = Some g -> gen_ctxs s !! g = Some c ->
  wp (FinishRequest (Z.of_nat i)) (fun _ s' => removed i g c s s') (fun _ _ => False) s.
Proof.
  intros Ht Hg Hc. destruct Ht as [Hctx Honce Hpend Hmap Hreq Hgen].
  assert (Hlen := lookup_lt_Some _ _ _ Hg).
  destruct (Hctx _ _ Hg) as (c0 & Hc0 & Hb & [q Hq]). replace c0 with c in * by congruence.
  destruct (lookup_lt_is_Some_2 (gen_ctx_list s) (length (gen_ctx_list s) - 1)%nat
    ltac:(lia)) as [gl Hgl].
  destruct (Hctx _ _ Hgl) as (cl & Hcl & Hbl & Hql).
  unfold FinishRequest. apply wp_bind, wp_gets, wp_bind.
  eapply wp_GetGenCtx; [lia|by rewrite Nat2Z.id|]. apply wp_bind, wp_deref; [|congruence].
  intros c1 Hc1. replace c1 with c by congruence. clear c1 Hc1.
  apply wp_bind, wp_bind, wp_deref; [|congruence]. intros q1 Hq1. apply wp_modify.
  replace q1 with q by congruence. clear q1 Hq1.
  apply wp_bind, wp_bind, wp_deref; simpl; rewrite lookup_insert_eq; [|done].
  intros q1 [= <-]. apply wp_modify. apply wp_bind. simpl.
  eapply (wp_GetGenCtx _ gl); [unfold GetGenCtxListSize; lia| |].
  { unfold GetGenCtxListSize. simpl. rewrite <- Hgl. f_equal. lia. }
  apply wp_bind, wp_modify, wp_bind, wp_bind, wp_deref; [|simpl; congruence].
  simpl. intros c1 Hc1. replace c1 with cl by congruence. apply wp_modify, wp_modify.
  rewrite Nat2Z.id. clear c1 Hc1. cbv [set_gen_ctx_list set_gen_ctxs set_requests]. simpl.
  rewrite insert_insert_eq.
  match goal with |- removed _ _ _ _ ?x => set (s' := x) end.
  assert (Hrem : swap_removed i g (gen_ctx_list s) (gen_ctx_list s')) by (split; eauto).
  assert (Hperm := swap_removed_perm _ _ _ _ Hrem).
  assert (Hbut : map_rel but_index (gen_ctxs s) (gen_ctxs s')).
  { simpl. eapply map_rel_upd; [exact _|apply map_rel_refl; exact _|exact Hcl|done]. }
  assert (Hrun : Permutation (running s) (request c :: running s')).
  { unfold running. rewrite (omap_request _ _ _ Hbut), Hperm. simpl. by rewrite Hc. }
  assert (Hsome : forall r, is_Some (requests s' !! r) <-> is_Some (requests s !! r)).
  { intros r. simpl. destruct (decide (request c = r)) as [<-|Hne].
    - rewrite lookup_insert_eq, Hq. naive_solver.
    - by rewrite lookup_insert_ne. }
  assert (Hnp : request c ∉ pending_request_queue_ s).
  { rewrite Hrun in Honce. apply NoDup_app in Honce as (_ & Hd & _).
    intros Hin. apply (Hd _ Hin). by left. }
  split; try done; [by eexists|]. split.
  - intros j x Hx. destruct (swap_remove_lookup _ _ _ _ _ Hx) as (Hj & [[-> ->]|[Hne Hjx]]).
    + exists (set_current_batch (Z.of_nat i) cl). simpl. rewrite lookup_insert_eq.
      split; [done|]. split; [done|]. by apply Hsome.
    + destruct (Hctx _ _ Hjx) as (cx & Hcx & Hbx & Hqx). exists cx.
      split; [|split; [done|by apply Hsome]]. simpl. rewrite lookup_insert_ne; [done|].
      intros ->. replace cx with cl in * by congruence. lia.
  - simpl. rewrite Hrun, <- Permutation_middle in Honce. by apply NoDup_cons in Honce as [_ ?].
  - intros r Hr. destruct (Hpend r Hr) as (q1 & Hq1 & Hs1). exists q1. simpl.
    rewrite lookup_insert_ne; [done|]. intros <-. by apply Hnp.
  - intros id r Hr. apply Hsome. by eapply Hmap.
  - intros r Hr%Hsome. by apply Hreq.
  - intros x Hx. apply Hgen. simpl in Hx. destruct (decide (gl = x)) as [<-|Hne]; [eauto|].
    by rewrite lookup_insert_ne in Hx.
Qed.

Lemma removed_progress P A C s0 s s' i g c :
  progress P A C s0 s -> removed i g c s s' -> progress P A C s0 s'.
Proof.
  intros [Ht Hp Hr Hm Hq Hk Hn] [Ep Em _ En _ (q & Hqr & Eq) _ _ Erun Ht'].
  assert (Hle : map_rel req_le (requests s) (requests s')).
  { rewrite Eq. eapply map_rel_upd;
      [exact _|apply map_rel_refl; exact _|exact Hqr|by split]. }
  split.
  - done.
  - by rewrite Ep.
  - etrans; [|exact Hr]. rewrite Erun. by apply submseteq_cons.
  - by rewrite Em.
  - eapply heap_le_step; [exact _|exact Hq|exact Hle].
  - intros r Hr'. rewrite Ep. destruct (Hk r Hr') as [?|[Hin|(q1 & Hq1 & He)]].
    + by left.
    + rewrite Erun in Hin. apply elem_of_cons in Hin as [->|Hin]; [|by right; left].
      right. right. eexists. rewrite Eq, lookup_insert_eq. by split.
    + right. right. destruct (map_rel_lookup _ _ _ _ _ Hle Hq1) as (q2 & Hq2 & Hl).
      exists q2. split; [done|]. by apply (rl_ended q1 q2).
  - by rewrite En.
Qed.

Lemma set_unfinished_progress P A C s0 f :
  pres (progress P A C s0) (modify (fun s => set_unfinished (f s) s)).
Proof.
  apply pres_modify. intros s [[] ? ? ? ? ? ?]. split; try done; by split.
Qed.

Lemma wp_find_running id idxs s :
  tables_ok s -> (forall i, i ∈ idxs -> 0 <= i < GetGenCtxListSize s) ->
  wp (find_running id idxs)
    (fun i s' => s' = s /\
       ((i = -1 /\ forall j g c q, j ∈ idxs -> gen_ctx_list s !! Z.to_nat j = Some g ->
           gen_ctxs s !! g = Some c -> requests s !! request c = Some q ->
           request_id q <> id) \/
        (exists k g c q, i = Z.of_nat k /\ gen_ctx_list s !! k = Some g /\
           gen_ctxs s !! g = Some c /\ requests s !! request c = Some q /\
           request_id q = id)))
    (fun _ _ => False) s.
Proof.
  intros Ht. induction idxs as [|i idxs IH]; intros Hidx; cbn [find_running].
  { apply wp_ret. split; [done|]. left. split; [done|]. intros j g c q. set_solver. }
  destruct (Hidx i ltac:(left)) as [Hi0 Hi]. unfold GetGenCtxListSize in Hi.
  destruct (lookup_lt_is_Some_2 (gen_ctx_list s) (Z.to_nat i) ltac:(lia)) as [g Hg].
  destruct (tk_ctx _ Ht _ _ Hg) as (c & Hc & _ & [q Hq]).
  apply wp_bind. eapply wp_GetGenCtx; [done|exact Hg|].
  apply wp_bind, wp_deref; [|congruence]. intros c' Hc'. replace c' with c by congruence.
  apply wp_bind, wp_deref; [|congruence]. intros q' Hq'. replace q' with q by congruence.
  destruct (bool_decide_reflect (request_id q = id)).
  - apply wp_ret. split; [done|]. right. exists (Z.to_nat i), g, c, q.
    rewrite Z2Nat.id by done. done.
  - eapply wp_mono; [apply IH; intros j Hj; apply Hidx; by right| |done].
    intros k s' [-> [[-> Hno]|Hyes]]; (split; [done|]); [left|by right].
    split; [done|]. intros j g' c1 q1 [->|Hj]%elem_of_cons; [|by apply (Hno j)].
    intros. by simplify_eq.
Qed.

(** With text inputs only, the caches of a context are always released; the
    operations on the device may throw. *)
Definition succeeds (m : W AsStatus) : Prop := forall s,
  wp m (fun st _ => st = ALLSPARK_SUCCESS) (fun _ _ => True) s.

Lemma succeeds_bind {B} (m : W B) k : (forall a, succeeds (k a)) -> succeeds (m ≫= k).
Proof.
  intros Hk s. apply wp_bind. unfold wp at 1. destruct (m s) as [[a|e] s']; [apply Hk|done].
Qed.
Lemma succeeds_check m k : succeeds m -> succeeds k -> succeeds (check_status m k).
Proof.
  intros Hm Hk s. apply wp_bind. eapply wp_mono; [apply Hm| |done]. intros st s' ->. apply Hk.
Qed.
Lemma succeeds_ret : succeeds (mret ALLSPARK_SUCCESS).
Proof. by intros s. Qed.
Lemma succeeds_throw e : succeeds (throw e).
Proof. by intros s. Qed.

Lemma release_caches_quiet g c s : pres (frame cache_keeps s) (release_caches ctx_ g c).
Proof.
  assert (Hc : forall A (m : M (D * R) A), pres (frame cache_keeps s) (on_caches g m))
    by (intros; apply on_caches_quiet).
  assert (Hi : forall name i, pres (frame cache_keeps s) (insert_prefix g name i))
    by (intros; apply insert_prefix_quiet).
  unfold release_caches, check_status, req, gen. pres_tac.
Qed.

Lemma wp_release_caches g c s :
  wp (release_caches ctx_ g c)
    (fun st s' => st = ALLSPARK_SUCCESS /\ frame cache_keeps s s')
    (fun _ s' => frame cache_keeps s s') s.
Proof.
  assert (Hf := release_caches_quiet g c s s ltac:(reflexivity)).
  assert (Hs : succeeds (release_caches ctx_ g c)).
  { unfold release_caches, CreateTensorForHash.
    repeat first [ apply succeeds_check | apply succeeds_ret | apply succeeds_throw
                 | apply succeeds_bind; intros | case_match ]. }
  specialize (Hs s). unfold wp in *.
  by destruct (release_caches ctx_ g c s) as [[st|e] s'].
Qed.

(** The request [r] has been taken out of the running ones and has ended. *)
Record stopped (g r : nat) (s s' : model) : Prop := mkStopped {
  sp_pending : pending_request_queue_ s' = pending_request_queue_ s;
  sp_map : all_request_map_ s' = all_request_map_ s;
  sp_unfinished : current_unfinished_request_ s' = current_unfinished_request_ s - 1;
  sp_list : exists i, swap_removed i g (gen_ctx_list s) (gen_ctx_list s');
  sp_ctxs : map_rel ctx_same (gen_ctxs s) (gen_ctxs s');
  sp_context : exists c, gen_ctxs s !! g = Some c /\ request c = r;
  sp_running : Permutation (running s) (r :: running s');
  sp_request : exists q', requests s' !! r = Some q' /\ finish q' = true /\
    status q' = GenerateFinished;
  sp_others x : x <> r -> option_Forall2 same_req (requests s !! x) (requests s' !! x);
  sp_requests : map_rel req_le (requests s) (requests s');
  sp_next : (next_ptr s <= next_ptr s')%nat;
  sp_tables : tables_ok s';
}.

Definition has_id (s : model) (id : string) (r : nat) : Prop :=
  exists q, requests s !! r = Some q /\ request_id q = id.

#[export] Instance has_id_dec s id r : Decision (has_id s id r).
Proof.
  unfold has_id. destruct (requests s !! r) as [q|]; [|right; by intros (q & Hq & _)].
  destruct (decide (request_id q = id)); [left; by exists q|right; intros (q' & Hq' & ?)].
  congruence.
Defined.

(** [split_pending] takes away exactly the requests with the id. *)
Lemma split_keeps id l s found rest m' r :
  split_ok id l s found rest m' -> r ∈ rest <-> r ∈ l /\ ~ has_id s id r.
Proof.
  intros Hok. split.
  - intros Hr. split; [eapply elem_of_sublist; [exact Hr|apply Hok]|].
    intros (q & Hq & Hid). by apply (so_others _ _ _ _ _ _ Hok r q).
  - intros [Hr Hid]. destruct (decide (r ∈ rest)) as [|Hn]; [done|]. destruct Hid.
    destruct (so_ended _ _ _ _ _ _ Hok r Hr Hn) as (q' & Hq' & Hi & _).
    destruct (map_rel_lookup_r _ _ _ _ _ (so_le _ _ _ _ _ _ Hok) Hq') as (q & Hq & Hle).
    exists q. split; [done|]. by rewrite <- (rl_id _ _ Hle).
Qed.

Lemma split_some id l s rest m' :
  split_ok id l s true rest m' -> exists r, r ∈ l /\ has_id s id r.
Proof.
  intros Hok. destruct (decide (Exists (has_id s id) l)) as [Hex|Hnex].
  { by apply Exists_exists in Hex. }
  assert (Hn := so_none _ _ _ _ _ _ Hok). discriminate Hn. intros r q Hr Hq Hid.
  apply Hnex, Exists_exists. exists r. split; [done|]. by exists q.
Qed.

Lemma split_stopped id l s found rest m' r :
  split_ok id l s found rest m' -> r ∈ l -> has_id s id r ->
  exists q, m' !! r = Some q /\ status q = GenerateFinished.
Proof.
  intros Hok Hr Hid. assert (Hn : r ∉ rest) by (rewrite (split_keeps _ _ _ _ _ _ _ Hok); naive_solver).
  destruct (so_ended _ _ _ _ _ _ Hok r Hr Hn) as (q' & Hq' & _ & Hs). by exists q'.
Qed.

Lemma removed_stopped i g c s1 s2 s3 s4 :
  tables_ok s1 -> gen_ctxs s1 !! g = Some c ->
  frame cache_keeps s1 s2 -> gen_ctx_list s2 !! i = Some g ->
  (forall c2, gen_ctxs s2 !! g = Some c2 -> removed i g c2 s2 s3) ->
  frame cache_keeps (set_unfinished (current_unfinished_request_ s3 - 1) s3) s4 ->
  stopped g (request c) s1 s4.
Proof.
  intros Ht Hc Hf Hg Hrm Hf'.
  assert (Hxf := fr_ctxs _ _ _ Hf). assert (Hxf' := fr_ctxs _ _ _ Hf').
  apply (frame_mono _ ctx_keeps _ _ cache_ctx_keeps) in Hf, Hf'.
  destruct (map_rel_lookup _ _ _ _ _ (fr_ctxs _ _ _ Hf) Hc) as (c2 & Hc2 & Hk).
  specialize (Hrm c2 Hc2). destruct Hrm as [Ep Em Eu En _ (q & Hq & Eq) El Ec Er Ht3].
  rewrite (ck_request _ _ Hk) in *.
  assert (Hrun := running_frame _ _ Hf'). assert (Hrun2 := running_frame _ _ Hf).
  assert (Ht4 : tables_ok s4).
  { eapply tables_frame, Hf'. destruct Ht3. by split. }
  split.
  - rewrite (fr_pending _ _ _ Hf'). simpl. by rewrite Ep, (fr_pending _ _ _ Hf).
  - rewrite (fr_map _ _ _ Hf'). simpl. by rewrite Em, (fr_map _ _ _ Hf).
  - rewrite (fr_unfinished _ _ _ Hf'). simpl. by rewrite Eu, (fr_unfinished _ _ _ Hf).
  - exists i. rewrite (fr_list _ _ _ Hf'). simpl. by rewrite <- (fr_list _ _ _ Hf).
  - assert (Hs : forall c c' : context, cache_keeps c c' -> ctx_same c c') by by intros ?? [].
    eapply map_rel_trans; [exact _|by eapply map_rel_mono, Hxf|].
    eapply map_rel_trans; [exact _|eapply map_rel_mono, Ec; apply but_index_same|].
    by eapply map_rel_mono, Hxf'.
  - by exists c.
  - rewrite Hrun, <- Hrun2. done.
  - assert (H : requests s3 !! request c = Some (set_status GenerateFinished (set_finish true q)))
      by by rewrite Eq, lookup_insert_eq.
    destruct (map_rel_lookup _ _ _ _ _ (fr_requests _ _ _ Hf') H) as (q4 & Hq4 & Hs).
    exists q4. split; [done|]. apply same_req_fields in Hs as (_ & -> & -> & _). done.
  - intros x Hx. assert (H1 := fr_requests _ _ _ Hf x). assert (H2 := fr_requests _ _ _ Hf' x).
    simpl in H2. rewrite Eq, lookup_insert_ne in H2 by done.
    destruct H1; inversion H2; subst; constructor. by etrans.
  - eapply map_rel_trans; [exact _|eapply map_rel_mono, (fr_requests _ _ _ Hf)|];
      [apply same_req_le|].
    eapply map_rel_trans; [exact _| |eapply map_rel_mono, (fr_requests _ _ _ Hf')];
      [|apply same_req_le]. simpl. rewrite Eq.
    eapply map_rel_upd; [exact _|apply map_rel_refl; exact _|exact Hq|by split].
  - assert (H1 := fr_next _ _ _ Hf). assert (H2 := fr_next _ _ _ Hf'). simpl in H2. lia.
  - done.
Qed.

(** The three answers of [StopRequest]: the request was pending, it was
    running, or it is not known. *)
Lemma wp_StopRequest id s :
  tables_ok s ->
  wp (StopRequest ctx_ graph_ops_ id)
    (fun st s' =>
       (st = ALLSPARK_SUCCESS /\ exists rest m',
          s' = set_pending rest (set_requests (fun _ => m') s) /\
          split_ok id (pending_request_queue_ s) s true rest m') \/
       ((forall r, r ∈ pending_request_queue_ s -> ~ has_id s id r) /\
        ((st = ALLSPARK_SUCCESS /\ s' = s /\ forall r, r ∈ running s -> ~ has_id s id r) \/
         exists g r, r ∈ running s /\ has_id s id r /\ stopped g r s s')))
    (fun _ s' => (forall r, r ∈ pending_request_queue_ s -> ~ has_id s id r) /\
       exists g r, r ∈ running s /\ has_id s id r /\
         (frame cache_keeps s s' \/ stopped g r s s')) s.
Proof.
  intros Ht. unfold StopRequest. apply wp_bind.
  eapply wp_mono; [by apply wp_StopPendingRequest| |done].
  intros found s1 (rest & m' & -> & Hok). destruct found; [apply wp_ret; left; eauto|].
  destruct (so_found _ _ _ _ _ _ Hok eq_refl) as [-> ->].
  replace (set_pending _ _) with s by by destruct s.
  assert (Hnp : forall r, r ∈ pending_request_queue_ s -> ~ has_id s id r).
  { intros r Hr (q & Hq & Hid). by apply (so_others _ _ _ _ _ _ Hok r q). }
  apply wp_bind, wp_gets, wp_bind. eapply wp_mono; [apply wp_find_running; [done|]| |done].
  { intros i. rewrite elem_of_reverse, elem_of_seqZ. lia. }
  intros i s' [-> Hi]. destruct Hi as [[-> Hno]|(k & g & c & q & -> & Hg & Hc & Hq & Hid)].
  { apply wp_ret. right. split; [done|]. left. split; [done|]. split; [done|].
    intros r (g & Hg & Hr)%list_elem_of_omap (q & Hq & Hid).
    apply list_elem_of_lookup in Hg as [j Hj]. destruct (gen_ctxs s !! g) as [c|] eqn:Hc; [|done].
    simplify_eq/=. apply (Hno (Z.of_nat j) g c q); rewrite ?Nat2Z.id; try done.
    rewrite elem_of_reverse, elem_of_seqZ. unfold GetGenCtxListSize.
    apply lookup_lt_Some in Hj. lia. }
  assert (Hin : request c ∈ running s /\ has_id s id (request c)).
  { split; [|by eexists]. apply list_elem_of_omap. exists g. rewrite Hc. split; [|done].
    by eapply list_elem_of_lookup_2. }
  destruct (Z.eqb_spec (Z.of_nat k) (-1)); [lia|].
  apply wp_bind. eapply wp_GetGenCtx; [lia|by rewrite Nat2Z.id|].
  apply wp_bind, wp_deref; [|congruence]. intros c' Hc'. replace c' with c by congruence.
  unfold check_status. apply wp_bind. eapply wp_mono; [apply wp_release_caches| |].
  2: { intros e s2 Hf. split; [done|]. exists g, (request c). naive_solver. }
  intros st s2 [-> Hf]. simpl. apply wp_bind.
  eapply wp_mono; [apply (req_interim_frame cache_keeps s (request c) (fun _ => ∅)), Hf| |];
    [|intros e s3 Hf3; split; [done|]; exists g, (request c); naive_solver].
  intros [] s3 Hf3. apply wp_bind.
  assert (Hf3c := frame_mono _ ctx_keeps _ _ cache_ctx_keeps Hf3).
  assert (Ht3 := tables_frame _ _ Ht Hf3c).
  destruct (map_rel_lookup _ _ _ _ _ (fr_ctxs _ _ _ Hf3c) Hc) as (c3 & Hc3 & Hk).
  assert (Hg3 : gen_ctx_list s3 !! k = Some g) by by rewrite (fr_list _ _ _ Hf3).
  eapply wp_mono; [by apply (wp_FinishRequest k g c3)| |done].
  intros [] s4 Hrm. apply wp_bind, wp_modify, wp_bind, wp_gets.
  set (s5 := set_unfinished _ s4).
  assert (Hst : forall s6, frame cache_keeps s5 s6 -> stopped g (request c) s s6).
  { intros s6 Hf6. eapply (removed_stopped k g c s s3 s4); try done.
    intros c2 Hc2. by replace c2 with c3 by congruence. }
  destruct (0 <? _).
  - eapply wp_mono; [apply (call_all_quiet ctx_ s5); [set_solver|reflexivity]| |].
    + intros st s6 Hf6. right. split; [done|]. right. exists g, (request c). naive_solver.
    + intros e s6 Hf6. split; [done|]. exists g, (request c). naive_solver.
  - apply wp_ret. right. split; [done|]. right. exists g, (request c).
    split; [apply Hin|]. split; [apply Hin|]. by apply Hst.
Qed.

Lemma stopped_progress P A C s0 s s' g r :
  progress P A C s0 s -> stopped g r s s' -> progress P A C s0 s'.
Proof.
  intros [Ht Hp Hr Hm Hq Hk Hn] [Ep Em _ _ _ _ Er (q & Hqr & Hf & Hs) Eo Ele En Ht'].
  split.
  - done.
  - by rewrite Ep.
  - etrans; [|exact Hr]. rewrite Er. by apply submseteq_cons.
  - by rewrite Em.
  - eapply heap_le_step; [exact _|done|done].
  - intros x Hx. rewrite Ep. destruct (Hk x Hx) as [?|[Hin|(q1 & Hq1 & He)]].
    + by left.
    + rewrite Er in Hin. apply elem_of_cons in Hin as [->|Hin]; [|by right; left].
      right. right. exists q. by rewrite Hs.
    + right. right. destruct (map_rel_lookup _ _ _ _ _ Ele Hq1) as (q2 & Hq2 & Hl).
      exists q2. split; [done|]. by apply (rl_ended q1 q2).
  - lia.
Qed.

Lemma StopRequest_progress P A C s0 id :
  pres (progress P A C s0) (StopRequest ctx_ graph_ops_ id).
Proof.
  intros s Hs. assert (Ht := pg_tables _ _ _ _ _ Hs).
  eapply wp_mono; [by apply wp_StopRequest| |].
  - intros st s' [(_ & rest & m' & -> & Hok)|(_ & [(_ & -> & _)|(g & r & _ & _ & Hst)])].
    + by eapply split_progress.
    + done.
    + by eapply stopped_progress.
  - intros e s' (_ & g & r & _ & _ & [Hf|Hst]);
      [|by eapply stopped_progress].
    eapply progress_frame; [done|]. by eapply frame_mono, Hf; apply cache_ctx_keeps.
Qed.
Hint Resolve StopRequest_progress : pres.

Lemma stop_all_finished_progress P A C s0 :
  pres (progress P A C s0) (stop_all_finished ctx_ graph_ops_).
Proof.
  unfold stop_all_finished. apply pres_bind; [apply pres_gets|]. intros n.
  generalize (reverse (seqZ 0 n)). intros idxs.
  induction idxs; cbn [stop_finished]; unfold if_success, gen, req; pres_tac.
Qed.

(** A change of a request that is not pending, or one that keeps its status. *)
Lemma upd_req_progress' P A C s0 r f :
  r ∉ P \/ (forall q, status (f q) = status q) ->
  (forall q, req_le q (f q)) -> pres (progress P A C s0) (upd_req r f).
Proof.
  intros HP Hf. apply upd_req_pres. intros s q [[Hctx Honce Hpend Hmap Hreq Hgen] Hp Hr Hm Hq Hk Hn] Hqr.
  set (s' := set_requests _ s).
  assert (Hle : map_rel req_le (requests s) (requests s')).
  { simpl. eapply map_rel_upd; [exact _|apply map_rel_refl; exact _|exact Hqr|apply Hf]. }
  assert (His : forall x, is_Some (requests s' !! x) <-> is_Some (requests s !! x)).
  { intros x. by apply is_Some_le. }
  split; try done.
  - split; try done.
    + intros i g (c & Hc & Hb & Hc')%Hctx. exists c. by rewrite His.
    + intros x Hx. destruct (Hpend x Hx) as (q' & Hq' & Hst). simpl.
      destruct (decide (r = x)) as [<-|Hne]; [|exists q'; by rewrite lookup_insert_ne by done].
      rewrite lookup_insert_eq. exists (f q). split; [done|]. destruct HP as [HP|HP].
      * destruct HP. by apply (elem_of_sublist (pending_request_queue_ s)).
      * rewrite HP. congruence.
    + intros id x. rewrite His. apply Hmap.
    + intros x. rewrite His. apply Hreq.
  - eapply heap_le_step; [exact _|done|done].
  - intros x [?|[?|(q' & Hq' & He)]]%Hk; [by left|by right; left|right; right].
    destruct (map_rel_lookup _ _ _ _ _ Hle Hq') as (q2 & Hq2 & Hl).
    exists q2. split; [done|]. by apply (rl_ended q' q2).
Qed.

Lemma upd_req_progress P A C s0 r f :
  r ∉ P -> (forall q, req_le q (f q)) -> pres (progress P A C s0) (upd_req r f).
Proof. intros HP. apply upd_req_progress'. by left. Qed.

(** Fields outside the tables. *)
Lemma set_context_progress P A C s0 b n : pres (progress P A C s0) (modify (set_context b n)).
Proof. apply pres_modify. intros s [[] ? ? ? ? ? ?]. split; try done; by split. Qed.
Lemma set_already_progress P A C s0 f :
  pres (progress P A C s0) (modify (fun s => set_already (f s) s)).
Proof. apply pres_modify. intros s [[] ? ? ? ? ? ?]. split; try done; by split. Qed.

Lemma progress_refl s : tables_ok s ->
  progress (pending_request_queue_ s) (running s) (pending_request_queue_ s ++ running s) s s.
Proof.
  intros Ht. split; try done; [apply heap_le_refl; exact _|].
  intros r [?|?]%elem_of_app; [by left|by right; left].
Qed.

Lemma progress_mono P P' A A' C C' s0 s :
  sublist P P' -> A ⊆+ A' -> (forall r, r ∈ C' -> r ∈ C) ->
  progress P A C s0 s -> progress P' A' C' s0 s.
Proof.
  intros HP HA HC [Ht Hp Hr Hm Hq Hk Hn]. split; try done; [by etrans|by etrans|auto].
Qed.

(** ** The start of a request *)

(** A new context for [r] at the end of the list. *)
Lemma push_progress C s0 s s1 s2 g c r q :
  progress (pending_request_queue_ s) (running s) C s0 s ->
  requests s !! r = Some q -> status q = Init ->
  r ∉ pending_request_queue_ s -> r ∉ running s ->
  frame ctx_keeps s s1 -> g = next_ptr s1 -> request c = r ->
  s2 = set_gen_ctx_list (gen_ctx_list s1 ++ [g])
         (set_gen_ctxs <[g := set_current_batch (Z.of_nat (length (gen_ctx_list s1))) c]>
            (set_next_ptr (Datatypes.S g) s1)) ->
  progress (pending_request_queue_ s) (r :: running s) (r :: C) s0 s2 /\
  exists q2, requests s2 !! r = Some q2 /\ status q2 = Init.
Proof.
  intros Hpr Hq Hst Hnp Hnr Hf Hgn Hcr ->.
  assert (Hpr1 := progress_frame _ _ _ _ _ _ Hpr Hf).
  destruct (map_rel_lookup _ _ _ _ _ (fr_requests _ _ _ Hf) Hq) as (q1 & Hq1 & Hsame).
  apply same_req_fields in Hsame as (_ & Hs1 & _). assert (Hrun := running_frame _ _ Hf).
  destruct Hpr1 as [[Hctx Honce Hpend Hmap Hreq Hgen] Hp Hr Hm Hle Hk Hn].
  assert (Hfresh : gen_ctxs s1 !! g = None).
  { destruct (gen_ctxs s1 !! g) eqn:Hc; [|done]. specialize (Hgen g ltac:(eauto)). lia. }
  match goal with |- progress _ _ _ _ ?x /\ _ => set (s2 := x) end.
  assert (Hold : forall x, x ∈ gen_ctx_list s1 -> gen_ctxs s2 !! x = gen_ctxs s1 !! x).
  { intros x [i Hi]%list_elem_of_lookup. simpl. apply lookup_insert_ne. intros <-.
    destruct (Hctx _ _ Hi) as (? & ? & _). congruence. }
  assert (Hrun2 : running s2 = running s ++ [r]).
  { unfold running at 1. simpl. rewrite omap_app. simpl. rewrite lookup_insert_eq. simpl.
    rewrite Hcr. f_equal. rewrite <- Hrun. apply list_omap_ext, Forall_Forall2_diag, Forall_forall.
    intros x Hx. by rewrite <- (Hold x Hx). }
  split; [|by exists q1; rewrite Hs1].
  split; try done.
  - split; try done.
    + intros i x Hx. simpl in Hx. apply lookup_app_Some in Hx as [Hx|[Hi Hx]].
      * destruct (Hctx _ _ Hx) as (cx & Hcx & Hb & Hcq). exists cx.
        rewrite Hold by (by eapply list_elem_of_lookup_2). done.
      * apply list_lookup_singleton_Some in Hx as [Hi0 <-].
        exists (set_current_batch (Z.of_nat (length (gen_ctx_list s1))) c). simpl.
        rewrite lookup_insert_eq. split; [done|]. split; [lia|]. rewrite Hcr. eauto.
    + rewrite Hrun2. simpl. rewrite (fr_pending _ _ _ Hf). rewrite (fr_pending _ _ _ Hf), Hrun in Honce.
      rewrite app_assoc. apply NoDup_app. split; [done|]. split; [|apply NoDup_singleton].
      intros x Hx ->%list_elem_of_singleton. apply elem_of_app in Hx as [?|?]; done.
    + intros x Hx%Hreq. simpl. lia.
    + intros x. simpl. destruct (decide (g = x)) as [<-|Hne]; [intros _; lia|].
      rewrite lookup_insert_ne by done. intros Hx%Hgen. lia.
  - rewrite Hrun2. by rewrite Permutation_app_comm.
  - intros x [->|Hx]%elem_of_cons; rewrite Hrun2.
    + right. left. set_solver.
    + destruct (Hk x Hx) as [?|[Hin|?]]; [by left| |by right; right].
      right. left. rewrite Hrun in Hin. set_solver.
  - simpl. lia.
Qed.

Lemma wp_buildGenContext r s :
  wp (buildGenContext ctx_ r)
    (fun g s' => exists s1 c, frame ctx_keeps s s1 /\ g = next_ptr s1 /\ request c = r /\
       s' = set_gen_ctxs <[g := c]> (set_next_ptr (Datatypes.S g) s1))
    (fun _ s' => frame ctx_keeps s s') s.
Proof.
  unfold buildGenContext. apply wp_bind, wp_deref; [|done]. intros q Hq. apply wp_bind.
  eapply wp_mono; [apply (at_pres (fun s' => s' = s)); done| |by intros e s' ->].
  intros x s' ->. apply wp_bind, wp_deref; [|done]. intros v Hv. apply wp_bind.
  eapply wp_mono; [apply (on_dev_frame ctx_keeps s); reflexivity| |done].
  intros caches s1 Hf. unfold new_gen, fresh.
  apply wp_bind, wp_bind, wp_gets, wp_bind, wp_modify, wp_ret, wp_bind, wp_modify, wp_ret.
  eexists s1, _. split; [done|]. split; [done|]. split; [|reflexivity]. done.
Qed.

(** [progress] with the request [r] not yet ended. *)
Definition begun (P A C : list nat) (r : nat) (s0 s : model) : Prop :=
  progress P A C s0 s /\ exists q, requests s !! r = Some q /\ status q = Init.

Lemma lift_begun {B} P A C r s0 (m : W B) :
  (forall s, pres (frame ctx_keeps s) m) -> pres (begun P A C r s0) m.
Proof.
  assert (Hfr : forall s s', begun P A C r s0 s -> frame ctx_keeps s s' ->
    begun P A C r s0 s').
  { intros s s' [Hp (q & Hq & Hs)] Hf. split; [by eapply progress_frame|].
    destruct (map_rel_lookup _ _ _ _ _ (fr_requests _ _ _ Hf) Hq) as (q' & Hq' & Hk).
    exists q'. apply same_req_fields in Hk as (_ & -> & _). done. }
  intros H s Hs. eapply wp_mono; [by apply (H s)| |]; intros; by eapply Hfr.
Qed.

Lemma set_context_begun P A C r s0 b n : pres (begun P A C r s0) (modify (set_context b n)).
Proof.
  apply pres_modify. intros s [Hp Hq]. split; [|done].
  by apply (set_context_progress P A C s0 b n s).
Qed.

Lemma wp_PushBackGenCtx g c (s : model) Q E :
  gen_ctxs s !! g = Some c ->
  Q tt (set_gen_ctxs <[g := set_current_batch (Z.of_nat (length (gen_ctx_list s))) c]>
          (set_gen_ctx_list (gen_ctx_list s ++ [g]) s)) ->
  wp (PushBackGenCtx g) Q E s.
Proof.
  intros Hc HQ. unfold PushBackGenCtx.
  apply wp_bind, wp_modify, wp_bind, wp_gets, wp_bind, wp_deref; [|simpl; congruence].
  intros c' Hc'. simpl in Hc'. replace c' with c by congruence. apply wp_modify.
  unfold GetGenCtxListSize. simpl. rewrite length_app. simpl.
  replace (Z.of_nat (length (gen_ctx_list s) + 1) - 1) with (Z.of_nat (length (gen_ctx_list s)))
    by lia. done.
Qed.

(** The context phase of a request that has its context. *)
Lemma wp_run_context P A C s0 r q g batch s :
  r ∉ P -> begun P A C r s0 s ->
  wp (check_status (prepare ctx_ g r) (
        modify (set_context true batch);;
        try_catch (runDecoderContext ctx_ graph_ops_;; mret tt)
          (StopRequest ctx_ graph_ops_ (request_id q);;
           upd_req r (set_status GenerateInterrupted);;
           throw StdException);;
        prefix ← gets (fun s => has_prefix_cache (dev s));
        when (is_cuda ctx_ && prefix)
          (c ← gen g; insert_prefix g "input_ids_for_hash" (ctx_prefix_len c));;
        modify (set_context false 0);;
        if_success (call_all ctx_ (topo_ops_ graph_ops_) [CallReshape]) (
        upd_req r (set_status ContextFinished);;
        stop_all_finished ctx_ graph_ops_)))
    (fun _ s' => progress P A C s0 s') (fun _ s' => progress P A C s0 s') s.
Proof.
  intros HP Hb. unfold check_status, if_success.
  assert (Hdone : forall B (m : W B), (forall s, pres (frame ctx_keeps s) m) ->
    forall k s, begun P A C r s0 s ->
    (forall a s', begun P A C r s0 s' ->
       wp (k a) (fun _ s' => progress P A C s0 s') (fun _ s' => progress P A C s0 s') s') ->
    wp (m ≫= k) (fun (_ : AsStatus) s' => progress P A C s0 s')
       (fun _ s' => progress P A C s0 s') s).
  { intros B m Hm k s1 H1 Hk. apply wp_bind.
    eapply wp_mono; [by apply (lift_begun P A C r s0 m)|done|by intros e s' []]. }
  apply Hdone; [intros s1; apply prepare_frame|done|]. intros st s1 H1.
  destruct (AS_STATUS_OK st); [|apply wp_ret, H1].
  apply wp_bind. eapply wp_mono; [by apply set_context_begun| |by intros e s' []].
  intros [] s2 H2. apply wp_bind.
  assert (H3 : wp (try_catch (runDecoderContext ctx_ graph_ops_;; mret tt)
      (StopRequest ctx_ graph_ops_ (request_id q);;
       upd_req r (set_status GenerateInterrupted);; throw StdException))
    (fun _ s' => begun P A C r s0 s') (fun _ s' => progress P A C s0 s') s2).
  { apply wp_try_catch.
    assert (Hbody : pres (begun P A C r s0) (runDecoderContext ctx_ graph_ops_;; mret tt))
      by (apply lift_begun; intros s3; pres_tac).
    eapply wp_mono; [by apply Hbody|done|].
    - intros e s3 [H3 _]. split; [done|]. apply wp_bind.
      eapply wp_mono; [by apply StopRequest_progress| |done]. intros ? s4 H4. apply wp_bind.
      eapply wp_mono; [apply upd_req_progress; [exact HP|by split|exact H4]| |done].
      intros ? s5 H5. by apply wp_throw. }
  eapply wp_mono; [exact H3| |done]. intros [] s3 H3'.
  apply wp_bind, wp_gets. apply Hdone; [intros s4; unfold gen; pres_tac|done|].
  intros ? s4 H4. apply wp_bind. eapply wp_mono; [by apply set_context_begun| |by intros e s' []].
  intros ? s5 H5. apply Hdone; [intros s6; pres_tac; apply call_all_ctx_frame|done|].
  intros st' s6 H6. destruct (bool_decide _); [|apply wp_ret, H6].
  apply wp_bind, wp_bind. destruct H6 as [H6 (q6 & Hq6 & Hs6)].
  apply wp_deref; [|congruence]. intros q7 Hq7. replace q7 with q6 by congruence.
  apply wp_modify, stop_all_finished_progress.
  clear -HP H6 Hq6 Hs6.
  set (f := fun q => if bool_decide (status q = Init) then set_status ContextFinished q else q).
  assert (Hf : forall q, req_le q (f q)).
  { intros q0. unfold f. case_bool_decide as Hs; [|done]. split; try done. by rewrite Hs. }
  assert (Hu := upd_req_progress P A C s0 r f HP Hf s6 H6).
  unfold wp, upd_req, mbind, M_bind, req, deref in Hu. rewrite Hq6 in Hu. simpl in Hu.
  unfold f in Hu. by rewrite bool_decide_true in Hu.
Qed.

Lemma wp_upd_req_progress P A C s0 r f s :
  r ∉ P -> (forall q, req_le q (f q)) -> progress P A C s0 s ->
  wp (upd_req r f)
    (fun _ s' => progress P A C s0 s' /\
       exists q, requests s !! r = Some q /\ requests s' !! r = Some (f q))
    (fun _ s' => progress P A C s0 s') s.
Proof.
  intros HP Hf Hs. assert (Hp := upd_req_progress P A C s0 r f HP Hf s Hs).
  unfold wp, upd_req, mbind, M_bind, req, deref in *.
  destruct (requests s !! r) as [q|] eqn:Hq; simpl in *; [|done].
  split; [done|]. exists q. by rewrite lookup_insert_eq.
Qed.

Lemma progress_ended P A C s0 s r :
  progress P A C s0 s -> ended_in s r -> progress P (r :: A) (r :: C) s0 s.
Proof.
  intros [Ht Hp Hr Hm Hq Hk Hn] He. split; try done; [by apply submseteq_cons|].
  intros x [->|Hx]%elem_of_cons; [by right; right|by apply Hk].
Qed.

Lemma wp_StartRequest C s0 r q s :
  progress (pending_request_queue_ s) (running s) C s0 s ->
  requests s !! r = Some q -> status q = Init ->
  r ∉ pending_request_queue_ s -> r ∉ running s ->
  wp (StartRequest ctx_ graph_ops_ r)
    (fun _ s' => progress (pending_request_queue_ s) (r :: running s) (r :: C) s0 s')
    (fun _ s' => progress (pending_request_queue_ s) (r :: running s) C s0 s') s.
Proof.
  intros Hp Hq Hst Hnp Hnr. set (P := pending_request_queue_ s). set (A := running s).
  assert (Hweak : forall s', progress P A C s0 s' -> progress P (r :: A) C s0 s').
  { intros s'. apply progress_mono; [done|by apply submseteq_cons|done]. }
  unfold StartRequest. apply wp_bind, wp_deref; [|congruence].
  intros q' Hq'. replace q' with q by congruence. clear q' Hq'. cbv zeta.
  apply wp_bind, wp_gets. destruct (_ && _).
  - apply wp_bind. eapply wp_mono; [by apply StopRequest_progress| |intros e s' H; by apply Hweak].
    intros ? s1 H1. apply wp_bind.
    eapply wp_mono; [apply (wp_upd_req_progress P A C s0 r (set_status GenerateFinished));
      [done|by split|exact H1]| |intros e s' H; by apply Hweak].
    intros ? s2 H2. apply wp_bind.
    eapply wp_mono; [apply (wp_upd_req_progress P A C s0 r (set_finish true));
      [done|by split|exact (proj1 H2)]| |intros e s' H; by apply Hweak].
    intros ? s3 [H3 (q3 & Hq3 & Hq4)]. apply wp_ret, progress_ended; [done|].
    destruct H2 as [_ (q2 & _ & Hq2)]. exists (set_finish true q3).
    split; [done|]. by replace q3 with (set_status GenerateFinished q2) by congruence.
  - apply wp_bind, wp_gets, wp_bind.
    eapply wp_mono; [apply wp_buildGenContext| |intros e s' Hf; by apply Hweak, (progress_frame _ _ _ _ s)].
    intros g s1 (s2 & c & Hf & Hg & Hc & ->). apply wp_bind.
    eapply (wp_PushBackGenCtx _ c); [simpl; apply lookup_insert_eq|]. simpl.
    eapply wp_mono; [apply (wp_run_context P (r :: A) (r :: C) s0 r q); [done|]|done|].
    + eapply (push_progress C s0 s s2 _ g c r q); try done.
      cbv [set_gen_ctxs set_gen_ctx_list set_next_ptr]. simpl. by rewrite insert_insert_eq.
    + intros e s'. apply progress_mono; try done. intros x Hx. by right.
Qed.

(** ** The head of the queue *)
Lemma pop_progress s r rest :
  tables_ok s -> pending_request_queue_ s = r :: rest ->
  progress rest (running s) (rest ++ running s) s (set_pending rest s) /\
  r ∉ rest /\ r ∉ running s.
Proof.
  intros [Hctx Honce Hpend Hmap Hreq Hgen] Hp. rewrite Hp in Honce, Hpend. simpl in Honce.
  apply NoDup_cons in Honce as [Hr Honce].
  split; [|split; intros ?; apply Hr, elem_of_app; [by left|by right]].
  split; try done.
  - split; try done. intros x Hx. apply Hpend. by right.
  - apply heap_le_refl. exact _.
  - intros x [?|?]%elem_of_app; [by left|by right; left].
Qed.

Lemma wp_pop_start s r rest q :
  tables_ok s -> pending_request_queue_ s = r :: rest -> requests s !! r = Some q ->
  wp (pop_pending;; StartRequest ctx_ graph_ops_ r)
    (fun _ s' => progress rest (r :: running s) (r :: rest ++ running s) s s')
    (fun _ s' => progress rest (r :: running s) (rest ++ running s) s s') s.
Proof.
  intros Ht Hp Hq. destruct (pop_progress s r rest Ht Hp) as (Hpr & Hnp & Hnr).
  destruct (tk_pending _ Ht r) as (q' & Hq' & Hst); [rewrite Hp; by left|].
  apply wp_bind, wp_modify. rewrite Hp. simpl.
  by apply (wp_StartRequest (rest ++ running s) s r q' (set_pending rest s)).
Qed.

(** A new request that is not in any table yet. *)
Lemma wp_new_request P A C s0 q s :
  progress P A C s0 s -> status q = Init ->
  wp (new_request q)
    (fun r' s' => progress P A C s0 s' /\ r' = next_ptr s /\ requests s' !! r' = Some q /\
       pending_request_queue_ s' = pending_request_queue_ s /\ running s' = running s)
    (fun _ _ => False) s.
Proof.
  intros [[Hctx Honce Hpend Hmap Hreq Hgen] Hp Hr Hm Hq Hk Hn] Hs.
  unfold new_request, fresh. apply wp_bind, wp_bind, wp_gets, wp_bind, wp_modify, wp_ret.
  apply wp_bind, wp_modify, wp_ret.
  assert (Hnone : requests s !! next_ptr s = None).
  { destruct (requests s !! next_ptr s) eqn:Hx; [|done]. specialize (Hreq (next_ptr s)).
    rewrite Hx in Hreq. specialize (Hreq ltac:(eauto)). lia. }
  assert (Hold : forall x y, requests s !! x = Some y ->
    <[next_ptr s := q]> (requests s) !! x = Some y).
  { intros x y Hx. rewrite lookup_insert_ne; [done|congruence]. }
  split; [|split; [done|split; [apply lookup_insert_eq|done]]].
  split; try done; simpl.
  - split; simpl; try done.
    + intros i g (c & Hc & Hb & [y Hy])%Hctx. exists c. rewrite (Hold _ _ Hy). eauto.
    + intros x (y & Hy & Hst)%Hpend. exists y. by rewrite (Hold _ _ Hy).
    + intros id x [y Hy]%Hmap. rewrite (Hold _ _ Hy). eauto.
    + intros x. destruct (decide (next_ptr s = x)) as [<-|Hne]; [lia|].
      rewrite lookup_insert_ne by done. intros Hx%Hreq. lia.
    + intros x Hx%Hgen. lia.
  - intros x y (y' & Hy & Hle)%Hq. exists y'. split; [by apply Hold|done].
  - intros x [?|[?|(y & Hy & He)]]%Hk; [by left|by right; left|right; right].
    exists y. split; [by apply Hold|done].
  - lia.
Qed.

(** ** Steps that move no request *)
Record still (s0 s : model) : Prop := mkStill {
  st_tables : tables_ok s;
  st_pending : pending_request_queue_ s = pending_request_queue_ s0;
  st_running : running s = running s0;
  st_map : all_request_map_ s = all_request_map_ s0;
  st_requests : heap_le req_le (requests s0) (requests s);
  st_next : (next_ptr s0 <= next_ptr s)%nat;
}.

Lemma still_refl s : tables_ok s -> still s s.
Proof. intros Ht. split; try done. apply heap_le_refl. exact _. Qed.

Lemma still_progress s0 s : still s0 s ->
  progress (pending_request_queue_ s0) (running s0)
    (pending_request_queue_ s0 ++ running s0) s0 s.
Proof.
  intros [Ht Hp Hr Hm Hq Hn]. split; try done; [by rewrite Hp|by rewrite Hr|].
  intros r. rewrite Hp, Hr, elem_of_app. naive_solver.
Qed.

Lemma still_frame s0 s s' : still s0 s -> frame ctx_keeps s s' -> still s0 s'.
Proof.
  intros [Ht Hp Hr Hm Hq Hn] Hf. assert (H := fr_next _ _ _ Hf). split.
  - by eapply tables_frame.
  - by rewrite (fr_pending _ _ _ Hf).
  - by rewrite (running_frame _ _ Hf).
  - by rewrite (fr_map _ _ _ Hf).
  - eapply heap_le_step; [exact _|done|]. eapply map_rel_mono, (fr_requests _ _ _ Hf).
    apply same_req_le.
  - lia.
Qed.

Lemma lift_still {B} s0 (m : W B) :
  (forall s, pres (frame ctx_keeps s) m) -> pres (still s0) m.
Proof.
  intros H s Hs. eapply wp_mono; [by apply (H s)| |]; intros a s' Hs'; by eapply still_frame.
Qed.

Lemma still_upd_req s0 r f :
  (forall q, req_le q (f q)) -> (forall q, status (f q) = status q) ->
  pres (still s0) (upd_req r f).
Proof.
  intros Hf Hst. apply upd_req_pres. intros s q Hs Hq.
  assert (Hu := upd_req_progress' _ _ _ s r f (or_intror Hst) Hf s (progress_refl s (st_tables _ _ Hs))).
  unfold wp, upd_req, mbind, M_bind, req, deref in Hu. rewrite Hq in Hu. simpl in Hu.
  destruct Hs as [Ht Hp Hr Hm Hq' Hn]. split; try done; [apply Hu|].
  eapply heap_le_trans; [exact _|done|apply Hu].
Qed.

(** Fields outside the tables. *)
Lemma still_other s0 f :
  (forall s, requests (f s) = requests s) -> (forall s, gen_ctxs (f s) = gen_ctxs s) ->
  (forall s, next_ptr (f s) = next_ptr s) ->
  (forall s, pending_request_queue_ (f s) = pending_request_queue_ s) ->
  (forall s, gen_ctx_list (f s) = gen_ctx_list s) ->
  (forall s, all_request_map_ (f s) = all_request_map_ s) ->
  pres (still s0) (modify f).
Proof.
  intros H1 H2 H3 H4 H5 H6. apply pres_modify. intros s [[] Hp Hr Hm Hq Hn].
  assert (Hrun : running (f s) = running s) by (unfold running; by rewrite H2, H5).
  split; [split|..]; rewrite ?Hrun, ?H1, ?H2, ?H3, ?H4, ?H5, ?H6; done.
Qed.

Lemma still_trans_progress P A C s0 s1 s :
  still s0 s1 -> progress P A C s1 s -> progress P A C s0 s.
Proof.
  intros [Ht Hp Hr Hm Hq Hn] [Ht' Hp' Hr' Hm' Hq' Hk' Hn']. split; try done.
  - by rewrite Hm'.
  - eapply heap_le_trans; [exact _|done|done].
  - lia.
Qed.

Lemma progress_trans_still P A C s0 s1 s :
  progress P A C s0 s1 -> still s1 s -> progress P A C s0 s.
Proof.
  intros [Ht' Hp' Hr' Hm' Hq' Hk' Hn'] [Ht Hp Hr Hm Hq Hn]. split; try done.
  - by rewrite Hp.
  - by rewrite Hr.
  - by rewrite Hm.
  - eapply heap_le_trans; [exact _|done|done].
  - intros r [?|[?|(q & Hqr & He)]]%Hk'; rewrite Hp, Hr; [by left|by right; left|].
    right. right. destruct (Hq _ _ Hqr) as (q' & Hqr' & Hle). exists q'.
    split; [done|]. by apply (rl_ended q q').
  - lia.
Qed.
End tables.
