(* ===== verification/SchedulerSteps.v ===== *)
(** The steps of the scheduler as a whole: what [GenerateContinueContext],
    [GenerateContinueDecoder] and the other operations of [Scheduler] do to
    the pending and the running requests, as steps of an abstract scheduler,
    and over sequences of operations. *)
From stdpp Require Import base list gmap strings relations.
From S2P Require Import Prelude FrameManager ModelState Scheduler SchedulerFrame SchedulerProofs.

Section steps.
Context {D R K : Type} `{MD : ModelDevice D R} `{KS : Kernels D R K}.
Variable ctx_ : DeviceContext.
Variable graph_ops_ : Graph K.
Abbreviation W := (M (AsModel D R)).
Abbreviation model := (AsModel D R).
Implicit Types s : model.

(** ** The context phase *)

(** A step that failed: at most one request [x] may be lost, the head of the
    queue or one that did not exist. *)
Definition cut_short (s s' : model) : Prop := exists x P,
  (pending_request_queue_ s = x :: P \/
   pending_request_queue_ s = P /\ P <> [] /\ requests s !! x = None) /\
  progress P (x :: running s) (P ++ running s) s s'.

Lemma still_upd_tensor (s0 : model) x f : pres (still s0) (upd_tensor x f).
Proof. apply lift_still. intros s. apply upd_tensor_frame. Qed.

Lemma still_trans s0 s1 s : still s0 s1 -> still s1 s -> still s0 s.
Proof.
  intros [? Ep Er Em Eq En] [? Ep' Er' Em' Eq' En'].
  split; try congruence; [|lia]. eapply heap_le_trans; [exact _|done|done].
Qed.

Lemma still_absent s0 s x : still s0 s -> requests s !! x = None -> requests s0 !! x = None.
Proof.
  intros Hs Hn. destruct (requests s0 !! x) eqn:Hx; [|done].
  destruct (st_requests _ _ Hs _ _ Hx) as (? & ? & _). congruence.
Qed.

Lemma still_cut_short s0 s s' : still s0 s -> cut_short s s' -> cut_short s0 s'.
Proof.
  intros Hs (x & P & HP & Hp). exists x, P. rewrite <- (st_pending _ _ Hs), <- (st_running _ _ Hs).
  split; [|by eapply still_trans_progress].
  destruct HP as [?|(? & ? & Hn)]; [by left|right]. do 2 (split; [done|]).
  by eapply still_absent.
Qed.

Lemma cut_short_still s0 s s' : cut_short s0 s -> still s s' -> cut_short s0 s'.
Proof.
  intros (x & P & HP & Hp) Hs. exists x, P. split; [done|]. by eapply progress_trans_still.
Qed.

(** A request of a prefill chunk: a copy of [r] that no table knows yet. *)
Lemma wp_start_chunk s r' q' :
  tables_ok s -> pending_request_queue_ s <> [] ->
  requests s !! r' = Some q' -> status q' = Init ->
  r' ∉ pending_request_queue_ s -> r' ∉ running s ->
  wp (StartRequest ctx_ graph_ops_ r')
    (fun _ s' => progress (pending_request_queue_ s) (r' :: running s)
       (r' :: pending_request_queue_ s ++ running s) s s')
    (fun _ s' => progress (pending_request_queue_ s) (r' :: running s)
       (pending_request_queue_ s ++ running s) s s') s.
Proof.
  intros Ht Hne Hq Hs Hp Hr.
  apply (wp_StartRequest ctx_ graph_ops_ (pending_request_queue_ s ++ running s) s r' q');
    try done. by apply progress_refl.
Qed.

(** A request that did not exist may be changed at will. *)
Lemma still_fresh (s0 s : model) x q :
  still s0 s -> requests s0 !! x = None -> is_Some (requests s !! x) ->
  x ∉ pending_request_queue_ s -> still s0 (set_requests <[x := q]> s).
Proof.
  intros [[Hctx Honce Hpend Hmap Hreq Hgen] Hp Hr Hm Hq Hn] Hx0 Hx Hnp.
  assert (His : forall y, is_Some (<[x := q]> (requests s) !! y) <-> is_Some (requests s !! y)).
  { intros y. destruct (decide (x = y)) as [<-|Hne]; [rewrite lookup_insert_eq; naive_solver|].
    by rewrite lookup_insert_ne. }
  split; try done.
  - split; try done; simpl.
    + intros i g (c & Hc & Hb & Hl)%Hctx. exists c. by rewrite His.
    + intros y Hy. destruct (Hpend y Hy) as (q' & Hq' & Hs). exists q'.
      rewrite lookup_insert_ne; [done|]. by intros <-.
    + intros id y Hy. by apply His, (Hmap id).
    + intros y Hy%His. by apply Hreq.
  - intros y b Hy. destruct (Hq y b Hy) as (b' & Hb & Hle). exists b'. simpl.
    rewrite lookup_insert_ne; [done|congruence].
Qed.

Lemma wp_chunk_request s q :
  tables_ok s -> status q = Init ->
  wp (new_request q)
    (fun r' s' => still s s' /\ requests s !! r' = None /\ requests s' !! r' = Some q /\
       r' ∉ pending_request_queue_ s' /\ r' ∉ running s')
    (fun _ _ => False) s.
Proof.
  intros Ht Hst. eapply wp_mono; [by apply wp_new_request, Hst; apply progress_refl| |done].
  intros r' s' (Hp & -> & Hr & Hpe & Hru).
  assert (Hnone : requests s !! next_ptr s = None).
  { destruct (requests s !! next_ptr s) eqn:Hx; [|done].
    assert (H := tk_req _ Ht (next_ptr s)). rewrite Hx in H. specialize (H ltac:(eauto)). lia. }
  split; [|split; [done|split; [done|]]].
  - split; try done; apply Hp.
  - rewrite Hpe, Hru. split; intros Hin.
    + destruct (tk_pending _ Ht _ Hin) as (? & ? & _). congruence.
    + apply list_elem_of_omap in Hin as (g & [i Hg]%list_elem_of_lookup & Hq).
      destruct (tk_ctx _ Ht _ _ Hg) as (c & Hc & _ & [y Hy]). rewrite Hc in Hq.
      simplify_eq/=. congruence.
Qed.

(** The length of the next chunk of [q]. *)
Definition chunk_end (q : Request) : Z :=
  prefill_chunk_len q + GetModelMaxPrefillLength ctx_ + 1.

(** The head [r] of the queue started as a whole. *)
Definition started (r : nat) (s s' : model) : Prop :=
  progress (tail (pending_request_queue_ s)) (r :: running s)
    (pending_request_queue_ s ++ running s) s s'.

(** A chunk of the head started as a request of its own. *)
Definition chunk_started (s s' : model) : Prop := exists x,
  requests s !! x = None /\
  progress (pending_request_queue_ s) (x :: running s)
    (x :: pending_request_queue_ s ++ running s) s s'.

(** A request that is not split: a warm-up request or the last chunk. *)
Definition unsplit (q : Request) : Prop :=
  mentions_warmup (request_id q) = true \/ input_len q <= chunk_end q.

Inductive prefilled (r : nat) (q : Request) (s s' : model) : Prop :=
  | prefilled_whole q' : unsplit q -> started r s s' -> requests s' !! r = Some q' ->
      prefill_chunk_len q' = input_len q' -> prefilled r q s s'
  | prefilled_chunk q' : chunk_started s s' -> requests s' !! r = Some q' ->
      prefill_chunk_len q' = prefill_chunk_len q + GetModelMaxPrefillLength ctx_ ->
      chunk_end q < input_len q' -> mentions_warmup (request_id q) = false ->
      prefilled r q s s'.

(** Two steps of a [pop] and a start before a continuation. *)
Lemma wp_pop_start_then {B} s r rest q (k : W B) Q :
  tables_ok s -> pending_request_queue_ s = r :: rest -> requests s !! r = Some q ->
  (forall s', progress rest (r :: running s) (r :: rest ++ running s) s s' ->
     wp k Q (fun _ s' => cut_short s s') s') ->
  wp (pop_pending;; StartRequest ctx_ graph_ops_ r;; k) Q (fun _ s' => cut_short s s') s.
Proof.
  intros Ht Hp Hq Hk. assert (H := wp_pop_start ctx_ graph_ops_ s r rest q Ht Hp Hq).
  unfold pop_pending in *. apply wp_bind, wp_modify, wp_bind.
  unfold wp, mbind, M_bind, modify in H. simpl in H.
  unfold wp at 1. destruct (StartRequest _ _ _ _) as [[st|e] s']; [by apply Hk|].
  exists r, rest. split; [by left|done].
Qed.

Lemma wp_start_whole s r rest q q0 :
  unsplit q0 -> tables_ok s -> pending_request_queue_ s = r :: rest -> requests s !! r = Some q ->
  wp (pop_pending;; StartRequest ctx_ graph_ops_ r;;
      upd_req r (fun q => set_chunk_len (input_len q) q))
    (fun _ s' => prefilled r q0 s s') (fun _ s' => cut_short s s') s.
Proof.
  intros Hun Ht Hp Hq. eapply wp_pop_start_then; [done..|]. intros s1 Hpr.
  eapply wp_mono.
  - apply (wp_upd_req_progress rest (r :: running s) (r :: rest ++ running s) s r
      (fun q => set_chunk_len (input_len q) q)); [|by split|done].
    assert (H := tk_once _ Ht). rewrite Hp in H. simpl in H. apply NoDup_cons in H as [H _]. set_solver.
  - intros ? s2 [H2 (q1 & _ & Hq2)]. eapply prefilled_whole; [done| |done|done].
    unfold started. by rewrite Hp.
  - intros e s2 H2. exists r, rest. split; [by left|]. eapply progress_mono; [done..| |exact H2].
    intros x Hx. by right.
Qed.

Lemma still_cut_none s s' :
  tables_ok s -> pending_request_queue_ s <> [] -> still s s' -> cut_short s s'.
Proof.
  intros Ht Hne Hs. exists (next_ptr s), (pending_request_queue_ s). split.
  - right. do 2 (split; [done|]). destruct (requests s !! next_ptr s) eqn:Hx; [|done].
    assert (H := tk_req _ Ht (next_ptr s)). rewrite Hx in H. specialize (H ltac:(eauto)). lia.
  - eapply progress_mono; [| | |by apply still_progress]; [done|by apply submseteq_cons|done].
Qed.

Lemma set_chunk_progress P A C s0 r n :
  pres (progress P A C s0) (upd_req r (set_chunk_len n)).
Proof. apply upd_req_progress'; [by right|by split]. Qed.

Lemma wp_PrefillChunkRequest s r rest q :
  tables_ok s -> pending_request_queue_ s = r :: rest -> requests s !! r = Some q ->
  wp (PrefillChunkRequest ctx_ graph_ops_ r)
    (fun _ s' => prefilled r q s s')
    (fun _ s' => cut_short s s') s.
Proof.
  intros Ht Hp Hq. unfold PrefillChunkRequest. apply wp_bind, wp_deref; [|congruence].
  intros q1 Hq1. replace q1 with q by congruence. clear q1 Hq1. cbv zeta.
  destruct (mentions_warmup (request_id q)) eqn:Hw; [by eapply wp_start_whole; [left|..]|].
  assert (Hne : pending_request_queue_ s <> []) by by rewrite Hp.
  assert (Hq0 : status q = Init).
  { destruct (tk_pending _ Ht r) as (q1 & Hq1 & Hs); [rewrite Hp; by left|]. congruence. }
  assert (Hnone := still_cut_none s). destruct (Z.leb_spec (input_len q)
    (prefill_chunk_len q + GetModelMaxPrefillLength ctx_ + 1)) as [Hlen|Hlen].
  - apply wp_bind. eapply wp_mono; [apply (at_pres (still s)), still_refl, Ht| |auto].
    intros x s1 Hs1. apply wp_bind.
    eapply wp_mono; [by apply (still_upd_tensor s)| |auto]. intros ? s2 Hs2.
    destruct (st_requests _ _ Hs2 _ _ Hq) as (q2 & Hq2 & _).
    eapply wp_mono; [eapply (wp_start_whole s2 r rest q2 q);
      [by right|apply Hs2|by rewrite (st_pending _ _ Hs2)|done]| |].
    + intros ? s3 [q3 ? H3 ? ?|q3 (y & Hy & H3) ? ? ? ?].
      * eapply prefilled_whole; [done| |done|done]. unfold started in *.
        rewrite (st_pending _ _ Hs2), (st_running _ _ Hs2) in H3. by apply (still_trans_progress _ _ _ s s2).
      * eapply prefilled_chunk; [|done..]. exists y.
        rewrite (st_pending _ _ Hs2), (st_running _ _ Hs2) in H3.
        split; [by eapply (still_absent s s2)|by apply (still_trans_progress _ _ _ s s2)].
    + intros e s3 H3. by apply (still_cut_short s s2).
  - apply wp_bind. eapply wp_mono;
      [apply (lift_still s tick); [intros s0; apply tick_frame|by apply still_refl]| |auto].
    intros ts s1 Hs1. apply wp_bind.
    eapply wp_mono; [apply wp_chunk_request; [apply Hs1|done]| |done].
    intros r' s2 (Hs2 & Hn & Hr' & Hnp & Hnr).
    assert (Hs02 := still_trans _ _ _ Hs1 Hs2).
    assert (Hn0 : requests s !! r' = None).
    { by apply (still_absent s s1). }
    apply wp_bind. eapply wp_mono; [apply (at_pres (fun s' => s' = s2)); done| |intros e ? ->; auto].
    intros x ? ->. apply wp_bind. eapply wp_mono;
      [apply (upd_tensor_frame ctx_keeps s2); reflexivity| |
       intros e s' Hf; by apply Hnone, (still_frame _ _ _ Hs02)].
    intros ? s3 Hf3. assert (Hs03 := still_frame _ _ _ Hs02 Hf3).
    apply wp_bind, wp_bind, wp_deref;
      [|intros Hbad; destruct (map_rel_lookup _ _ _ _ _ (fr_requests _ _ _ Hf3) Hr');
        naive_solver].
    intros q3 Hq3. apply wp_modify. set (q4 := set_cfg _ q3). set (s4 := set_requests _ s3).
    assert (Hs04 : still s s4).
    { apply still_fresh; [done..|eauto|]. by rewrite (fr_pending _ _ _ Hf3). }
    assert (Hst4 : status q4 = Init).
    { destruct (map_rel_lookup _ _ _ _ _ (fr_requests _ _ _ Hf3) Hr') as (q5 & Hq5 & Hk).
      apply same_req_fields in Hk as (_ & Hk & _). replace q5 with q3 in Hk by congruence. done. }
    assert (Hp4 : pending_request_queue_ s4 = r :: rest) by by rewrite (st_pending _ _ Hs04).
    assert (Hch : forall C s', progress (pending_request_queue_ s4) (r' :: running s4)
       C s4 s' -> progress (pending_request_queue_ s) (r' :: running s) C s s').
    { intros C s' H. eapply still_trans_progress; [exact Hs04|].
      by rewrite <- (st_pending _ _ Hs04), <- (st_running _ _ Hs04). }
    apply wp_bind. eapply wp_mono; [apply (wp_start_chunk s4 r' q4); try done| |].
    + apply Hs04.
    + by rewrite Hp4.
    + simpl. apply lookup_insert_eq.
    + by rewrite (st_pending _ _ Hs04), <- (st_pending _ _ Hs02).
    + by rewrite (st_running _ _ Hs04), <- (st_running _ _ Hs02).
    + intros st s5 H5. destruct (st_requests _ _ Hs04 _ _ Hq) as (q5 & Hq5 & Hl5).
      destruct (pg_requests _ _ _ _ _ H5 _ _ Hq5) as (q6 & Hq6 & Hl6).
      set (n := prefill_chunk_len q + GetModelMaxPrefillLength ctx_ + 1 - 1).
      assert (Hu := set_chunk_progress _ _ _ s4 r n s5 H5).
      unfold wp, upd_req, mbind, M_bind, req, deref in *. rewrite Hq6 in Hu |- *. simpl in *.
      apply (prefilled_chunk _ _ _ _ (set_chunk_len n q6)).
      * exists r'. split; [done|]. rewrite <- (st_pending _ _ Hs04), <- (st_running _ _ Hs04) at 2.
        by apply Hch.
      * simpl. by rewrite lookup_insert_eq.
      * simpl. unfold n. lia.
      * unfold chunk_end. simpl. rewrite (rl_len _ _ Hl6), (rl_len _ _ Hl5). lia.
      * done.
    + intros e s5 H5. exists r', (pending_request_queue_ s). split; [by right|]. apply Hch.
      by rewrite <- (st_pending _ _ Hs04), <- (st_running _ _ Hs04) in *.
Qed.

(** ** The frames a request needs *)
Lemma still_set_unfinished s0 s n : still s0 s -> still s0 (set_unfinished n s).
Proof. by apply (still_other s0 (set_unfinished n)). Qed.
Lemma still_set_already s0 s n : still s0 s -> still s0 (set_already n s).
Proof. by apply (still_other s0 (set_already n)). Qed.
Lemma still_set_context s0 s b n : still s0 s -> still s0 (set_context b n s).
Proof. by apply (still_other s0 (set_context b n)). Qed.
Lemma on_dev_still {A} s0 (m : M D A) : pres (still s0) (on_dev m).
Proof. apply lift_still. intros s. apply on_dev_frame. Qed.

Lemma wp_on_dev {A} s0 s (m : M D A) (Q : A -> Prop) :
  still s0 s -> (forall d, wp m (fun a _ => Q a) (fun _ _ => True) d) ->
  wp (on_dev m) (fun a s' => Q a /\ still s0 s' /\ requests s' = requests s /\
      m (dev s) = (Ok a, dev s'))
    (fun _ s' => still s0 s') s.
Proof.
  intros Hs HQ. assert (H := on_dev_still s0 m s Hs). specialize (HQ (dev s)).
  unfold wp, on_dev, zoom in *. by destruct (m (dev s)) as [[a|e] d].
Qed.

Lemma wp_hash_tensor s r src name :
  wp (CreateTensorForHash r src name)
    (fun st s' => st = ALLSPARK_SUCCESS /\ frame ctx_keeps s s' /\ dev s' = dev s)
    (fun _ s' => frame ctx_keeps s s') s.
Proof.
  assert (H3 : wp (CreateTensorForHash r src name) (fun _ s' => dev s' = dev s)
    (fun _ s' => dev s' = dev s) s).
  { assert (Hp : pres (fun s' => dev s' = dev s) (CreateTensorForHash r src name)).
    { unfold CreateTensorForHash, tensor, upd_req, req, new_tensor, fresh.
      pres_tac; apply pres_modify; by intros s' ?. }
    by apply Hp. }
  assert (H1 := CreateTensorForHash_frame ctx_keeps s r src name s ltac:(reflexivity)).
  assert (H2 : succeeds (D := D) (R := R) (CreateTensorForHash r src name)).
  { unfold CreateTensorForHash. repeat (apply succeeds_bind; intros). apply succeeds_ret. }
  specialize (H2 s). unfold wp in *. by destruct (CreateTensorForHash r _ _ s) as [[st|e] s'].
Qed.

(** The frames for [n] tokens and 10 more, up to the maximal length: a key and a
    value cache per layer. *)
Definition frames_needed (n : Z) : Z :=
  (Z.quot (Z.min (n + 10) (GetModelMaxLength ctx_)) (GetCacheSpanSize ctx_) + 1) *
    2 * GetDecoderLayer ctx_.

(** The device [d'] after the reservation for [q], that asks for [need] frames:
    the cached prefix is referenced while nodes nobody refers to are evicted, when
    too few frames are free. *)
Definition device_reserved (q : Request) (d : D) (need : Z) (d' : D) : Prop :=
  exists ids plen gpu nodes d1 d2 d3,
    RefOnly ids (start_ts q) d = (Ok (plen, gpu, nodes), d1) /\
    (if prefill_chunk_len q =? 0
     then UpdateCnt plen (input_len q - plen) d1 = (Ok tt, d2) else d2 = d1) /\
    need = frames_needed (input_len q - gpu) /\
    (if CountFreeFrame d2 <? need then EvictUnrefered need d2 = (Ok tt, d3) else d3 = d2) /\
    UnRef nodes d3 = (Ok tt, d').

(** [reserve_frames] only sets the prefix lengths of a request whose prefill
    has not begun, from a length the prefix cache answers. *)
Definition reserved (plen_ok : Z -> Prop) (q : Request) (q' : Request) : Prop :=
  input_len q' = input_len q /\
  (prefill_chunk_len q' = prefill_chunk_len q \/
   prefill_chunk_len q = 0 /\ plen_ok (prefill_chunk_len q')).

Lemma wp_reserve_frames (plen_ok : Z -> Prop) s0 s r q :
  (forall d l n, wp (RefOnly l n) (fun a _ => plen_ok (fst (fst a))) (fun _ _ => True) d) ->
  still s0 s -> requests s !! r = Some q ->
  wp (reserve_frames ctx_ r)
    (fun a s' => fst a = ALLSPARK_SUCCESS /\ still s0 s' /\
       (exists q', requests s' !! r = Some q' /\ reserved plen_ok q q') /\
       device_reserved q (dev s) (snd a) (dev s'))
    (fun _ s' => still s0 s') s.
Proof.
  intros Hplen Hs Hq. unfold reserve_frames. apply wp_bind, wp_deref; [|congruence].
  intros q1 Hq1. replace q1 with q by congruence. clear q1 Hq1. apply wp_bind.
  eapply wp_mono; [apply wp_hash_tensor| |intros e s'; by apply still_frame].
  intros st s1 (-> & Hf & Hd1). simpl.
  destruct (map_rel_lookup _ _ _ _ _ (fr_requests _ _ _ Hf) Hq) as (q1 & Hq1 & Hk).
  apply same_req_fields in Hk as (_ & _ & _ & _ & Hl & _ & Hch & _ & _ & Hts).
  assert (Hs1 := still_frame _ _ _ Hs Hf). clear Hf Hs.
  apply wp_bind, wp_deref; [|congruence]. intros q2 Hq2. replace q2 with q1 by congruence.
  apply wp_bind. eapply wp_mono; [by apply (tokens_at_pres (fun s' => s' = s1))| |by intros e ? ->].
  intros l ? ->. apply wp_bind. eapply wp_mono;
    [apply (wp_on_dev s0 s1 _ (fun a => plen_ok (fst (fst a)))); [done|intros; apply Hplen]| |done].
  intros [[plen gpu] nodes] s2 (Hok & Hs2 & Hr2 & Hd2). simpl in Hok. cbv beta iota. apply wp_bind.
  set (I := fun s' => still s0 s' /\
    exists q', requests s' !! r = Some q' /\ reserved plen_ok q q').
  assert (Hdev : forall B (m : M D B) s', I s' ->
    wp (on_dev m) (fun a s'' => I s'' /\ m (dev s') = (Ok a, dev s'')) (fun _ s' => still s0 s') s').
  { intros B m s' [H1 H2]. eapply wp_mono; [apply (wp_on_dev s0 s' m (fun _ => True)); [done|]| |done].
    - intros d. unfold wp. by destruct (m d) as [[]].
    - intros a s3 (_ & H3 & H4 & H5). split; [|done]. split; [done|]. by rewrite H4. }
  apply (wp_mono _ (fun _ s' => I s' /\ if prefill_chunk_len q =? 0
      then UpdateCnt plen (input_len q - plen) (dev s2) = (Ok tt, dev s') else dev s' = dev s2)
    _ (fun _ s' => still s0 s')); [| |done].
  - unfold when. rewrite <- Hch. destruct (Z.eqb_spec (prefill_chunk_len q1) 0) as [H0|H0].
    + apply wp_bind. eapply wp_mono; [apply (wp_on_dev s0 s2 _ (fun _ => True)); [done|]| |done].
      { intros d. unfold wp. by destruct (UpdateCnt _ _ d) as [[]]. }
      intros [] s3 (_ & H3 & H4 & H5).
      assert (Hu := still_upd_req s0 r (fun q => set_prefix plen gpu (set_chunk_len plen q))
        ltac:(by split) ltac:(done) s3 H3).
      unfold wp, upd_req, mbind, M_bind, req, deref in *. rewrite H4, Hr2, Hq2 in *.
      simpl in *. split; [|by rewrite <- Hl]. split; [done|]. eexists. simpl.
      rewrite lookup_insert_eq. split; [done|].
      split; [simpl; congruence|]. right. split; [congruence|done].
    + apply wp_ret. split; [|done]. split; [done|]. exists q1. rewrite Hr2.
      split; [done|]. split; [done|left; congruence].
  - intros ? s3 [H3 Hd3]. apply wp_bind, wp_gets, wp_bind. fold (frames_needed (input_len q1 - gpu)).
    set (need := frames_needed _).
    apply (wp_mono _ (fun _ s' => I s' /\ if CountFreeFrame (dev s3) <? need
        then EvictUnrefered need (dev s3) = (Ok tt, dev s') else dev s' = dev s3)
      _ (fun _ s' => still s0 s')); [| |done].
    + unfold when. destruct (_ <? need); [|by apply wp_ret].
      eapply wp_mono; [by apply Hdev|by intros [] ?|done].
    + intros ? s4 [H4 Hd4]. apply wp_bind. eapply wp_mono; [by apply Hdev| |done].
      intros [] s5 [[H5 H6] Hd5]. apply wp_ret. do 3 (split; [done|]). simpl.
      exists l, plen, gpu, nodes, (dev s2), (dev s3), (dev s4).
      rewrite <- Hts, <- Hd1. split; [done|]. split; [done|]. split; [|done].
      unfold need. by rewrite Hl.
Qed.

(** ** The whole step *)
Definition already0 (is_new_context : bool) s : Z :=
  if is_new_context then 0 else already_context_length_ s.

(** No request can start: none is pending, the batch is full, or the head
    would exceed the prefill length of this round. *)
Definition idle (is_new_context : bool) s : Prop :=
  match pending_request_queue_ s with
  | [] => True
  | r :: _ => GetModelMaxBatch ctx_ <= GetGenCtxListSize s \/
      already0 is_new_context s <> 0 /\ exists q, requests s !! r = Some q /\
        GetModelMaxPrefillLength ctx_ < already0 is_new_context s + input_len q
  end.

(** The head [r] of the queue ends without having started. *)
Definition refused (r : nat) (s s' : model) : Prop :=
  progress (tail (pending_request_queue_ s)) (running s)
    (pending_request_queue_ s ++ running s) s s' /\
  pending_request_queue_ s' = tail (pending_request_queue_ s) /\ running s' = running s /\
  exists q', requests s' !! r = Some q' /\ finish q' = true /\ status q' = GenerateInterrupted.

Lemma still_refused r s0 s s' : still s0 s -> refused r s s' -> refused r s0 s'.
Proof.
  intros H1 (H2 & H3 & H4 & H5). unfold refused. rewrite (st_pending _ _ H1), (st_running _ _ H1) in *.
  split; [|done]. by apply (still_trans_progress _ _ _ s0 s).
Qed.

(** Where frames are asked for before the head [r] starts. *)
Definition frames_tested s : bool := is_cuda ctx_ && has_frame_manager (dev s).

(** [need] frames are asked for the head [r] and [free] are free then: all of its
    input counts without a prefix cache, and what is not cached with one. *)
Inductive frames_asked s (r : nat) : Z -> Z -> Prop :=
  | asked_whole q : has_prefix_cache (dev s) = false -> requests s !! r = Some q ->
      frames_asked s r (frames_needed (input_len q)) (CountFreeFrame (dev s))
  | asked_uncached q need d : has_prefix_cache (dev s) = true -> requests s !! r = Some q ->
      device_reserved q (dev s) need d -> frames_asked s r need (CountFreeFrame d).

Definition enough_frames s (r : nat) : Prop :=
  exists need free, frames_asked s r need free /\ need <= free.
Definition too_few_frames s (r : nat) : Prop :=
  exists need free, frames_asked s r need free /\ free < need.

(** What [GenerateContinueContext] answers and does. *)
Inductive context_outcome (plen_ok : Z -> Prop) (b : bool) s : AsStatus -> model -> Prop :=
  | outcome_idle s' : idle b s -> still s s' ->
      context_outcome plen_ok b s ALLSPARK_EMPTY_REQUEST s'
  | outcome_refused r s' : ~ idle b s -> head (pending_request_queue_ s) = Some r ->
      frames_tested s = true -> too_few_frames s r ->
      refused r s s' -> context_outcome plen_ok b s ALLSPARK_EMPTY_REQUEST s'
  | outcome_started r s' : ~ idle b s -> head (pending_request_queue_ s) = Some r ->
      (frames_tested s = true -> enough_frames s r /\ exists q q1,
         requests s !! r = Some q /\ request_id q1 = request_id q /\ reserved plen_ok q q1 /\
         unsplit q1) ->
      started r s s' -> context_outcome plen_ok b s ALLSPARK_SUCCESS s'
  | outcome_chunk r q q1 q' s' : ~ idle b s -> head (pending_request_queue_ s) = Some r ->
      frames_tested s = true -> enough_frames s r ->
      requests s !! r = Some q -> reserved plen_ok q q1 -> chunk_started s s' ->
      mentions_warmup (request_id q) = false ->
      requests s' !! r = Some q' ->
      prefill_chunk_len q' = prefill_chunk_len q1 + GetModelMaxPrefillLength ctx_ ->
      chunk_end q1 < input_len q' ->
      context_outcome plen_ok b s ALLSPARK_CHUNK_PREFILL s'.

Lemma still_started r s0 s s1 s' :
  still s0 s -> started r s s1 -> still s1 s' -> started r s0 s'.
Proof.
  intros H1 H2 H3. unfold started in *. rewrite (st_pending _ _ H1), (st_running _ _ H1) in H2.
  eapply progress_trans_still; [|done]. by apply (still_trans_progress _ _ _ s0 s).
Qed.

Lemma still_chunk_started s0 s s1 s' :
  still s0 s -> chunk_started s s1 -> still s1 s' -> chunk_started s0 s'.
Proof.
  intros H1 (x & Hx & H2) H3. exists x. split; [by apply (still_absent s0 s)|].
  rewrite (st_pending _ _ H1), (st_running _ _ H1) in H2.
  eapply progress_trans_still; [|done]. by apply (still_trans_progress _ _ _ s0 s).
Qed.

(** A step that starts the head without chunks. *)
Lemma wp_start_head s0 s r rest q :
  still s0 s -> pending_request_queue_ s0 = r :: rest -> requests s0 !! r = Some q ->
  wp (pop_pending;; StartRequest ctx_ graph_ops_ r;; count_unfinished;; mret ALLSPARK_SUCCESS)
    (fun st s' => st = ALLSPARK_SUCCESS /\ started r s0 s') (fun _ s' => cut_short s0 s') s.
Proof.
  intros Hs Hp Hq. destruct (st_requests _ _ Hs _ _ Hq) as (q1 & Hq1 & _).
  assert (Hp1 : pending_request_queue_ s = r :: rest) by by rewrite (st_pending _ _ Hs).
  eapply wp_mono; [eapply (wp_pop_start_then s r rest q1 _
    (fun st s' => st = ALLSPARK_SUCCESS /\ started r s s')); [apply Hs|done..|]| |].
  - intros s1 H1. unfold count_unfinished. apply wp_bind, wp_modify, wp_ret. split; [done|].
    apply (still_started r s s s1); [by apply still_refl, Hs| |].
    + unfold started. by rewrite Hp1.
    + apply still_set_unfinished, still_refl, H1.
  - intros st s1 [-> H1]. split; [done|].
    apply (still_started r s0 s s1); [done..|]. apply still_refl, H1.
  - intros e s1. by apply still_cut_short.
Qed.

Lemma wp_refuse s r rest q :
  tables_ok s -> pending_request_queue_ s = r :: rest -> requests s !! r = Some q ->
  wp (pop_pending;; upd_req r (set_finish true);; upd_req r (set_status GenerateInterrupted);;
      count_unfinished;; mret ALLSPARK_EMPTY_REQUEST)
    (fun st s' => st = ALLSPARK_EMPTY_REQUEST /\ refused r s s') (fun _ s' => False) s.
Proof.
  intros Ht Hp Hq. destruct (pop_progress s r rest Ht Hp) as (Hpr & Hnp & Hnr).
  unfold pop_pending, count_unfinished. apply wp_bind, wp_modify. rewrite Hp. simpl tail.
  apply wp_bind, wp_bind, wp_deref; [|simpl; congruence]. intros q1 Hq1. apply wp_modify.
  set (s1 := set_requests _ _).
  assert (H1 : progress rest (running s) (rest ++ running s) s s1).
  { assert (H := upd_req_progress rest (running s) (rest ++ running s) s r (set_finish true)
      Hnp ltac:(by split) _ Hpr).
    unfold wp, upd_req, mbind, M_bind, req, deref in H. by rewrite Hq1 in H. }
  apply wp_bind, wp_bind, wp_deref; simpl; rewrite lookup_insert_eq; [|done].
  intros q2 [= <-]. apply wp_modify.
  set (s2 := set_requests _ _).
  assert (H2 : progress rest (running s) (rest ++ running s) s s2).
  { assert (H := upd_req_progress rest (running s) (rest ++ running s) s r
      (set_status GenerateInterrupted) Hnp ltac:(by split) _ H1).
    unfold wp, upd_req, mbind, M_bind, req, deref in H. simpl in H.
    by rewrite lookup_insert_eq in H. }
  apply wp_bind, wp_modify, wp_ret. split; [done|]. unfold refused. rewrite Hp. simpl tail.
  assert (Hq2 : requests s2 !! r = Some (set_status GenerateInterrupted (set_finish true q1)))
    by apply lookup_insert_eq.
  split; [|split; [done|split; [done|by eexists]]].
  eapply progress_trans_still; [|apply still_set_unfinished, still_refl, H2].
  destruct H2 as [? ? ? ? ? Hk ?]. split; try done.
  intros x [->|Hx]%elem_of_cons; [|by apply Hk]. right. right. by eexists.
Qed.

(** The tests of [GenerateContinueContext] decide [idle]. *)
Lemma not_idle b s r rest q :
  pending_request_queue_ s = r :: rest -> requests s !! r = Some q ->
  (GetGenCtxListSize s <? GetModelMaxBatch ctx_) = true ->
  negb (already0 b s =? 0) &&
    (GetModelMaxPrefillLength ctx_ <? already0 b s + input_len q) = false ->
  ~ idle b s.
Proof.
  intros Hp Hq Hb Ha. unfold idle. rewrite Hp.
  intros [H|(H0 & q' & Hq' & H)]; [lia|]. replace q' with q in H by congruence. lia.
Qed.

Lemma wp_GenerateContinueContext plen_ok b s :
  (forall d l n, wp (RefOnly l n) (fun a _ => plen_ok (fst (fst a))) (fun _ _ => True) d) ->
  tables_ok s ->
  wp (GenerateContinueContext ctx_ graph_ops_ b)
    (fun st s' => context_outcome plen_ok b s st s')
    (fun _ s' => ~ idle b s /\ cut_short s s') s.
Proof.
  intros Hplen Ht. unfold GenerateContinueContext. apply wp_bind.
  set (s1 := if b then set_already 0 s else s).
  assert (Hs1 : still s s1).
  { subst s1. destruct b; [|by apply still_refl].
    by apply still_set_already, still_refl. }
  assert (H1 : wp (when b (modify (set_already 0))) (fun _ s' => s' = s1)
    (fun _ _ => False) s) by by destruct b.
  assert (Ha1 : already_context_length_ s1 = already0 b s) by by destruct b.
  assert (Hr1 : requests s1 = requests s) by by destruct b.
  assert (Hd1 : dev s1 = dev s) by by destruct b.
  assert (Hn1 : GetGenCtxListSize s1 = GetGenCtxListSize s) by by destruct b.
  eapply wp_mono; [exact H1| |done]. clear H1. intros ? ? ->. clearbody s1.
  apply wp_bind, wp_gets, wp_bind, wp_gets. rewrite (st_pending _ _ Hs1), Hn1.
  destruct (pending_request_queue_ s) as [|r rest] eqn:Hp.
  { apply wp_ret, outcome_idle; [unfold idle; by rewrite Hp|done]. }
  destruct (GetGenCtxListSize s <? GetModelMaxBatch ctx_) eqn:Hb; simpl negb; cbv iota;
    [|apply wp_ret, outcome_idle; [|done]; unfold idle; rewrite Hp; left; lia].
  destruct (tk_pending _ Ht r) as (q & Hq & Hst); [rewrite Hp; by left|].
  apply wp_bind, wp_deref; rewrite Hr1; [|congruence]. intros q1 Hq1.
  replace q1 with q by congruence. clear q1 Hq1.
  apply wp_bind, wp_gets. rewrite Ha1.
  destruct (negb _ && _) eqn:Hlen.
  { apply wp_ret, outcome_idle; [|done]. unfold idle. rewrite Hp. right.
    apply andb_true_iff in Hlen as [H2 H3]. split; [lia|]. exists q. split; [done|lia]. }
  assert (Hni := not_idle b s r rest q Hp Hq Hb Hlen).
  assert (Hhd : head (pending_request_queue_ s) = Some r) by by rewrite Hp.
  assert (Hwhole : frames_tested s = false -> wp (pop_pending;; StartRequest ctx_ graph_ops_ r;; count_unfinished;;
      mret ALLSPARK_SUCCESS)
    (fun st s' => context_outcome plen_ok b s st s') (fun _ s' => ~ idle b s /\ cut_short s s') s1).
  { intros Hft. eapply wp_mono; [by eapply wp_start_head| |done].
    intros st s' [-> H]. apply (outcome_started plen_ok b s r); [done..| |done]. congruence. }
  unfold frames_tested in Hwhole.
  destruct (is_cuda ctx_) eqn:Hcuda; simpl negb; cbv iota; [|by apply Hwhole].
  apply wp_bind, wp_gets. rewrite Hd1.
  destruct (has_frame_manager (dev s)) eqn:Hfm; simpl negb; cbv iota; [|by apply Hwhole].
  clear Hwhole.
  assert (Hft : frames_tested s = true) by (unfold frames_tested; by rewrite Hcuda).
  assert (Hnone : forall s', still s s' -> ~ idle b s /\ cut_short s s').
  { intros s' H. split; [done|]. apply still_cut_none; [done|by rewrite Hp|done]. }
  destruct (GetCacheSpanSize ctx_ =? 0); [by apply wp_throw, Hnone|].
  apply wp_bind. eapply (wp_mono _ (fun a s' => fst a = ALLSPARK_SUCCESS /\ still s s' /\
    (exists q', requests s' !! r = Some q' /\ reserved plen_ok q q') /\
    frames_asked s r (snd a) (CountFreeFrame (dev s')))).
  { destruct (has_prefix_cache (dev s)) eqn:Hpc.
    - eapply wp_mono; [apply (wp_reserve_frames plen_ok s); [done|done|by rewrite Hr1]| |done].
      intros a0 s' (H1 & H2 & H3 & H4). do 3 (split; [done|]). rewrite Hd1 in H4.
      by apply (asked_uncached s r q).
    - apply wp_ret. split; [done|]. split; [done|]. rewrite Hr1, Hd1.
      split; [exists q; by repeat (split || left)|by apply (asked_whole s r q)]. }
  2: { intros e s'. by apply Hnone. }
  intros [st need] s2 (Hst1 & Hs2 & (q2 & Hq2 & Hres) & Hask). simpl in Hst1, Hask. subst st. simpl.
  apply wp_bind, wp_gets. destruct (Z.leb_spec need (CountFreeFrame (dev s2))) as [Hfree|Hfree].
  - apply wp_bind. eapply wp_mono; [apply (wp_PrefillChunkRequest s2 r rest q2);
      [apply Hs2|by rewrite (st_pending _ _ Hs2)|done]| |].
    + intros ? s3 H3. unfold count_unfinished. apply wp_bind, wp_modify, wp_bind.
      set (s4 := set_unfinished _ s3). assert (Hr4 : requests s4 = requests s3) by done.
      assert (Hs4 : tables_ok s3 -> still s3 s4).
      { intros H. by apply still_set_unfinished, still_refl. }
      clearbody s4.
      assert (Hid : request_id q2 = request_id q).
      { destruct (st_requests _ _ Hs2 _ _ Hq) as (q0 & Hq0 & Hle).
        replace q2 with q0 by congruence. apply Hle. }
      destruct H3 as [q' Hun H3 Hq' Hl|q' H3 Hq' Hl Hc Hw].
      * specialize (Hs4 (pg_tables _ _ _ _ _ H3)).
        apply wp_deref; rewrite Hr4; [|congruence]. intros q3 Hq3. replace q3 with q' by congruence.
        rewrite Hl, Z.eqb_refl. apply wp_bind, wp_modify, wp_ret.
        apply (outcome_started plen_ok b s r); [done..| |].
        { intros _. split; [by eexists _, _|by exists q, q2]. }
        apply (still_started r s s2 s3); [done..|]. by apply still_set_already.
      * destruct H3 as (x & Hx & H3). specialize (Hs4 (pg_tables _ _ _ _ _ H3)).
        apply wp_deref; rewrite Hr4; [|congruence]. intros q3 Hq3. replace q3 with q' by congruence.
        unfold chunk_end in Hc. destruct (Z.eqb_spec (prefill_chunk_len q') (input_len q')); [lia|].
        apply wp_ret. apply (outcome_chunk plen_ok b s r q q2 q'); try done;
          [by eexists _, _| |congruence|by rewrite Hr4].
        apply (still_chunk_started s s2 s3); [done| |done]. by exists x.
    + intros e s3 H3. split; [done|]. by apply (still_cut_short s s2).
  - assert (Hp2 : pending_request_queue_ s2 = r :: rest) by by rewrite (st_pending _ _ Hs2).
    assert (Hstart : wp (pop_pending;; upd_req r (set_finish true);;
        upd_req r (set_status GenerateInterrupted);; count_unfinished;; mret ALLSPARK_EMPTY_REQUEST)
      (fun st s' => st = ALLSPARK_EMPTY_REQUEST /\ refused r s2 s')
      (fun _ s' => False) s2) by (eapply wp_refuse; [apply Hs2|done..]).
    eapply wp_mono; [exact Hstart| |done]. intros st s3 [-> H3].
    apply (still_refused r s s2 s3) in H3; [|done].
    apply (outcome_refused plen_ok b s r); [done..|by eexists _, _|done].
Qed.

(** ** The other steps *)
Lemma GenerateContinueDecoder_progress P A C s0 :
  pres (progress P A C s0) (GenerateContinueDecoder ctx_ graph_ops_).
Proof.
  unfold GenerateContinueDecoder, count_unfinished, if_success.
  assert (Hall : forall ops calls, pres (progress P A C s0) (call_all ctx_ ops calls)).
  { intros ops calls. apply lift_progress. intros s. apply call_all_ctx_frame. }
  assert (Hmod : forall f : model -> model, (forall s, frame ctx_keeps s (f s)) ->
    pres (progress P A C s0) (modify f)).
  { intros f Hf. apply pres_modify. intros s Hs. by eapply progress_frame. }
  apply pres_bind; [apply set_unfinished_progress|intros ?].
  apply pres_bind; [apply pres_gets|intros n]. case_match; [apply pres_ret|].
  apply pres_bind; [apply Hmod; intros s; split; try done; apply map_rel_refl; exact _|intros ?].
  apply pres_bind; [apply lift_progress; intros s; apply reset_layer_cache_frame|intros ?].
  apply pres_bind; [apply lift_progress; intros s; apply alloc_decoder_ctx_frame|intros st].
  case_match; [|apply pres_ret]. apply pres_bind; [apply Hall|intros st1].
  case_match; [|apply pres_ret].
  apply pres_bind; [apply lift_progress; intros s|intros ?].
  { apply pres_for_each. intros i. apply pres_bind; [apply GetGenCtx_pres|intros g].
    apply gen_frame. by split. }
  repeat (apply pres_bind; [apply Hall|intros ?]; case_match; [|apply pres_ret]).
  apply pres_bind; [apply stop_all_finished_progress|intros st2]. case_match; apply pres_ret.
Qed.

Lemma new_spans_pres (I : model -> Prop) gs : pres I (new_spans ctx_ gs).
Proof.
  induction gs; cbn [new_spans]; [apply pres_ret|]. unfold gen. pres_tac.
Qed.

Lemma AllocDecoderMemory_still s0 : pres (still s0) (AllocDecoderMemory ctx_).
Proof.
  unfold AllocDecoderMemory. apply pres_bind; [by apply still_other|intros ?].
  assert (Hd : forall B (m : M D B), pres (still s0) (on_dev m)) by (intros; apply on_dev_still).
  pres_tac. apply new_spans_pres.
Qed.

(** A new request waits behind the others. *)
Definition arrived (id : string) (s s' : model) : Prop := exists r,
  requests s !! r = None /\ tables_ok s' /\
  pending_request_queue_ s' = pending_request_queue_ s ++ [r] /\
  running s' = running s /\ has_id s' id r /\
  all_request_map_ s' = <[id := r]> (all_request_map_ s) /\
  heap_le req_le (requests s) (requests s') /\ (next_ptr s <= next_ptr s')%nat.

Lemma wp_StartRequestImpl id ins outs cfg s :
  tables_ok s ->
  wp (StartRequestImpl id ins outs cfg)
    (fun st s' => st = ALLSPARK_SUCCESS /\ arrived id s s') (fun _ s' => still s s') s.
Proof.
  intros Ht. unfold StartRequestImpl. apply wp_bind.
  eapply wp_mono; [apply (lift_still s tick); [intros s0; apply tick_frame|by apply still_refl]| |done].
  intros ts s1 H1. apply wp_bind.
  eapply wp_mono; [apply (at_pres (fun s' => s' = s1)); done| |by intros e ? ->].
  intros x ? ->. apply wp_bind, wp_deref; [|done]. intros v Hv. apply wp_bind.
  eapply wp_mono; [apply wp_chunk_request; [apply H1|done]| |done].
  intros r s2 (H2 & Hn & Hr & Hp & Hru). assert (H02 := still_trans _ _ _ H1 H2).
  apply wp_bind, wp_modify, wp_bind, wp_modify, wp_ret. split; [done|]. exists r.
  destruct H02 as [[Hctx Honce Hpend Hmap Hreq Hgen] Ep Er Em Eq En].
  split; [by apply (still_absent s s1)|]. split; [|simpl; rewrite Ep, Em; split_and!; try done; by eexists].
  split; simpl.
  - exact Hctx.
  - change (running _) with (running s2).
    rewrite <- app_assoc. rewrite (Permutation_app_comm [r]).
    rewrite app_assoc. apply NoDup_app. split; [done|]. split; [|apply NoDup_singleton].
    intros y Hy Hy'. apply list_elem_of_singleton in Hy' as ->. by apply elem_of_app in Hy as [Hy|Hy].
  - intros y Hy. apply elem_of_app in Hy as [Hy|Hy]; [by apply Hpend|].
    apply list_elem_of_singleton in Hy as ->. by eexists.
  - intros i y. destruct (decide (id = i)) as [<-|Hne]; [rewrite lookup_insert_eq; intros [= <-]; eauto|].
    rewrite lookup_insert_ne by done. apply Hmap.
  - exact Hreq.
  - exact Hgen.
Qed.
End steps.
