(* ===== verification/SchedulerSpec.v ===== *)
(** The contract of the request scheduling: an abstract scheduler with a queue
    of waiting requests and a bounded set of active ones, and that every
    sequence of operations of [Scheduler], failed ones included, is a run of
    it; what this means for the requests a client has registered. *)
From stdpp Require Import base list gmap strings relations.
From S2P Require Import Prelude FrameManager ModelState Scheduler SchedulerFrame SchedulerProofs.
From S2P Require Import SchedulerSteps.

(** * The abstract scheduler

    It knows of a request its id and whether it has ended, and keeps the waiting
    ones in the order of their arrival and the set of the active ones. *)
Record view := mkView {
  queue : list nat;
  active : gset nat;
  over : gset nat;
  names : gmap nat string;
}.
Definition no_requests : view := mkView [] ∅ ∅ ∅.

(** The engine copies the inputs of a request to tensors before it arrives. *)
Inductive event :=
  | EvInput (v : Tensor)
  | EvArrive (request_id_ : string) (ins outs : TensorMap) (cfg : GenerateConfig)
  | EvContext (is_new_context : bool)
  | EvAlloc
  | EvDecode
  | EvStop (request_id_ : string)
  | EvRelease (request_id_ : string).

Section abstract.
Variable n : Z. (* the maximal batch *)
Implicit Types v : view.

Definition unmoved v v' : Prop := queue v' = queue v /\ active v' = active v.

(** From the queue [q] and the active requests [a] on, nobody comes in or
    overtakes; only a request that is over, or one of [L], goes. *)
Record remain (L q : list nat) (a : gset nat) v' : Prop := mkRemain {
  re_queue : sublist (queue v') q;
  re_active : active v' ⊆ a;
  re_gone r : r ∈ q \/ r ∈ a -> r ∈ queue v' \/ r ∈ active v' \/ r ∈ over v' \/ r ∈ L;
}.

Definition room v : Prop := Z.of_nat (size (active v)) < n.
Definition named v (id : string) (r : nat) : Prop := names v !! r = Some id.

(** What an operation with its answer, or the exception it ends with, may do. *)
Inductive sched_move v v' : event -> res AsStatus -> Prop :=
  | move_input t a : unmoved v v' -> sched_move v v' (EvInput t) a
  | move_alloc a : unmoved v v' -> sched_move v v' EvAlloc a
  | move_release id : v' = v -> sched_move v v' (EvRelease id) (Ok ALLSPARK_SUCCESS)
  | move_arrive id ins outs cfg r :
      names v !! r = None -> named v' id r -> r ∉ over v' ->
      queue v' = queue v ++ [r] -> active v' = active v ->
      sched_move v v' (EvArrive id ins outs cfg) (Ok ALLSPARK_SUCCESS)
  | move_no_arrival id ins outs cfg e :
      unmoved v v' -> sched_move v v' (EvArrive id ins outs cfg) (Err e)
  | move_idle b : queue v = [] \/ ~ room v \/ b = false -> unmoved v v' ->
      sched_move v v' (EvContext b) (Ok ALLSPARK_EMPTY_REQUEST)
  | move_refuse b r q : room v -> queue v = r :: q ->
      queue v' = q -> active v' = active v -> r ∈ over v' ->
      sched_move v v' (EvContext b) (Ok ALLSPARK_EMPTY_REQUEST)
  | move_start b r q : room v -> queue v = r :: q -> remain [] q ({[r]} ∪ active v) v' ->
      sched_move v v' (EvContext b) (Ok ALLSPARK_SUCCESS)
  | move_chunk b r : room v -> queue v <> [] -> names v !! r = None ->
      remain [] (queue v) ({[r]} ∪ active v) v' ->
      sched_move v v' (EvContext b) (Ok ALLSPARK_CHUNK_PREFILL)
  | move_start_failed b r q e : room v -> queue v = r :: q ->
      remain [r] q ({[r]} ∪ active v) v' -> sched_move v v' (EvContext b) (Err e)
  | move_chunk_failed b r e : room v -> queue v <> [] -> names v !! r = None ->
      remain [r] (queue v) ({[r]} ∪ active v) v' -> sched_move v v' (EvContext b) (Err e)
  | move_decode a : remain [] (queue v) (active v) v' -> sched_move v v' EvDecode a
  | move_stop_waiting id : Exists (named v id) (queue v) ->
      sublist (queue v') (queue v) ->
      (forall r, r ∈ queue v' <-> r ∈ queue v /\ ~ named v id r) ->
      (forall r, r ∈ queue v -> named v id r -> r ∈ over v') -> active v' = active v ->
      sched_move v v' (EvStop id) (Ok ALLSPARK_SUCCESS)
  | move_stop_active id r a : (forall x, x ∈ queue v -> ~ named v id x) ->
      r ∈ active v -> named v id r -> r ∈ over v' ->
      queue v' = queue v -> active v' = active v ∖ {[r]} -> sched_move v v' (EvStop id) a
  | move_stop_unknown id :
      (forall x, x ∈ queue v \/ x ∈ active v -> ~ named v id x) -> v' = v ->
      sched_move v v' (EvStop id) (Ok ALLSPARK_SUCCESS)
  | move_stop_failed id r e : r ∈ active v -> named v id r -> unmoved v v' ->
      sched_move v v' (EvStop id) (Err e).

(** A request keeps its id and what is over stays over. *)
Record sched_step (e : event) (a : res AsStatus) v v' : Prop := mkSchedStep {
  ss_move : sched_move v v' e a;
  ss_over : over v ⊆ over v';
  ss_names : names v ⊆ names v';
}.

(** Operations with their answers and the view after each. *)
Inductive sched_run : view -> list (event * res AsStatus * view) -> Prop :=
  | run_end v : sched_run v []
  | run_step v e a v' tr : sched_step e a v v' -> sched_run v' tr ->
      sched_run v ((e, a, v') :: tr).

(** Never more than the maximal batch are active. *)
Definition bounded v : Prop := Z.of_nat (size (active v)) <= Z.max 0 n.

Lemma bounded_le v v' : active v' ⊆ active v -> bounded v -> bounded v'.
Proof. unfold bounded. intros H%subseteq_size. lia. Qed.

Lemma bounded_more v v' r : room v -> active v' ⊆ {[r]} ∪ active v -> bounded v'.
Proof.
  unfold room, bounded. intros H Hs%subseteq_size.
  assert (Hu := size_union_alt ({[r]} : gset nat) (active v)). rewrite size_singleton in Hu.
  assert (Hd : (size (active v ∖ {[r]}) <= size (active v))%nat) by (apply subseteq_size; set_solver).
  lia.
Qed.

Lemma sched_move_bounded v v' e a : sched_move v v' e a -> bounded v -> bounded v'.
Proof.
  intros Hm Hb; destruct Hm;
    try (match goal with H : remain _ _ _ _ |- _ => destruct H end);
    first [by eapply bounded_more|apply (bounded_le v); [|done]]; unfold unmoved in *; set_solver.
Qed.

Lemma sched_run_bounded v tr :
  sched_run v tr -> bounded v -> Forall (fun '(_, v') => bounded v') tr.
Proof.
  induction 1 as [|v e a v' tr [Hm _ _] _ IH]; intros Hb; constructor.
  - by eapply sched_move_bounded.
  - apply IH. by eapply sched_move_bounded.
Qed.
End abstract.

Section spec.
Context {D R K : Type} `{MD : ModelDevice D R} `{KS : Kernels D R K}.
Variable ctx_ : DeviceContext.
Variable graph_ops_ : Graph K.
Abbreviation W := (M (AsModel D R)).
Abbreviation model := (AsModel D R).
Implicit Types s : model.
Abbreviation max_batch := (GetModelMaxBatch ctx_).

Definition view_of s : view :=
  mkView (pending_request_queue_ s) (list_to_set (running s))
    (dom (filter (fun '(_, q) => ended (status q) = true) (requests s)))
    (request_id <$> requests s).

Definition run_event (e : event) : W AsStatus :=
  match e with
  | EvInput v => new_tensor v;; mret ALLSPARK_SUCCESS
  | EvArrive id ins outs cfg => StartRequestImpl id ins outs cfg
  | EvContext b => GenerateContinueContext ctx_ graph_ops_ b
  | EvAlloc => AllocDecoderMemory ctx_
  | EvDecode => GenerateContinueDecoder ctx_ graph_ops_
  | EvStop id => StopRequest ctx_ graph_ops_ id
  | EvRelease id => ReleaseRequest id
  end.

(** ** The views of the steps *)
Lemma over_spec s r : r ∈ over (view_of s) <-> ended_in s r.
Proof.
  simpl. rewrite elem_of_dom. unfold is_Some. setoid_rewrite map_lookup_filter_Some.
  unfold ended_in. naive_solver.
Qed.

Lemma named_spec s id r : named (view_of s) id r <-> has_id s id r.
Proof. unfold named, has_id. simpl. rewrite lookup_fmap_Some. naive_solver. Qed.

Lemma unknown_spec s r : names (view_of s) !! r = None <-> requests s !! r = None.
Proof. simpl. by rewrite lookup_fmap, fmap_None. Qed.

Lemma active_spec s r : r ∈ active (view_of s) <-> r ∈ running s.
Proof. simpl. by rewrite elem_of_list_to_set. Qed.

Lemma head_tail {A} (l : list A) x : head l = Some x -> l = x :: tail l.
Proof. destruct l; [done|]. by intros [= ->]. Qed.

Lemma view_grows s s' : heap_le req_le (requests s) (requests s') ->
  over (view_of s) ⊆ over (view_of s') /\ names (view_of s) ⊆ names (view_of s').
Proof.
  intros Hle. split.
  - intros r. rewrite !over_spec. intros (q & Hq & He).
    destruct (Hle _ _ Hq) as (q' & Hq' & Hl). exists q'. split; [done|]. by apply (rl_ended q q').
  - apply map_subseteq_spec. intros r id. change (named (view_of s) id r -> named (view_of s') id r).
    rewrite !named_spec. intros (q & Hq & Hid). destruct (Hle _ _ Hq) as (q' & Hq' & Hl).
    exists q'. split; [done|]. by rewrite (rl_id q q').
Qed.

Lemma running_length s : tables_ok s -> Z.of_nat (length (running s)) = GetGenCtxListSize s.
Proof.
  intros Ht. unfold running, GetGenCtxListSize. f_equal.
  assert (H : forall g, g ∈ gen_ctx_list s -> is_Some (gen_ctxs s !! g)).
  { intros g [i Hg]%list_elem_of_lookup. destruct (tk_ctx _ Ht _ _ Hg) as (c & Hc & _). eauto. }
  induction (gen_ctx_list s) as [|g l IH]; [done|]. simpl.
  destruct (H g ltac:(left)) as [c Hc]. rewrite Hc. simpl. f_equal. apply IH.
  intros x Hx. apply H. by right.
Qed.

Lemma size_active s : tables_ok s ->
  Z.of_nat (size (active (view_of s))) = GetGenCtxListSize s.
Proof.
  intros Ht. simpl. rewrite size_list_to_set, <- running_length; [done..|].
  assert (H := tk_once _ Ht). by apply NoDup_app in H as (_ & _ & ?).
Qed.

Lemma progress_remain P A C L s0 s :
  progress P A C s0 s -> (forall r, r ∈ P \/ r ∈ A -> r ∈ C \/ r ∈ L) ->
  remain L P (list_to_set A) (view_of s).
Proof.
  intros [Ht Hp Hr Hm Hq Hk Hn] HC. split.
  - done.
  - intros r. rewrite active_spec, elem_of_list_to_set. intros Hin. by eapply elem_of_submseteq.
  - intros r Hin. rewrite elem_of_list_to_set in Hin. rewrite active_spec, over_spec.
    destruct (HC r Hin) as [H|H]; [|by right; right; right].
    destruct (Hk r H) as [?|[?|?]]; [by left|by right; left|by right; right; left].
Qed.

Lemma still_unmoved s s' : still s s' -> unmoved (view_of s) (view_of s').
Proof. intros H. split; simpl; [apply H|by rewrite (st_running _ _ H)]. Qed.

(** ** What the context phase may do *)
Lemma not_idle_room b s r :
  tables_ok s -> ~ idle ctx_ b s -> head (pending_request_queue_ s) = Some r ->
  room max_batch (view_of s).
Proof.
  intros Ht. unfold idle, room. rewrite size_active by done.
  destruct (pending_request_queue_ s); [done|]. intros H _. lia.
Qed.

Lemma idle_queue b s : tables_ok s -> idle ctx_ b s ->
  queue (view_of s) = [] \/ ~ room max_batch (view_of s) \/ b = false.
Proof.
  intros Ht. unfold idle, room. rewrite size_active by done. simpl.
  destruct (pending_request_queue_ s); [by left|]. intros [H|[H _]]; [right; left; lia|].
  right. right. by destruct b.
Qed.

Lemma start_remain L P r s s' :
  (exists C, progress P (r :: running s) C s s' /\
    forall x, x ∈ r :: P ++ running s -> x ∈ C \/ x ∈ L) ->
  remain L P ({[r]} ∪ active (view_of s)) (view_of s').
Proof.
  intros (C & Hp & HC).
  change ({[r]} ∪ active (view_of s)) with (list_to_set (r :: running s) : gset nat).
  eapply progress_remain; [exact Hp|]. intros x Hx. apply HC. set_solver.
Qed.

Lemma context_move plen_ok b s st s' :
  tables_ok s -> context_outcome ctx_ plen_ok b s st s' ->
  sched_move max_batch (view_of s) (view_of s') (EvContext b) (Ok st).
Proof.
  intros Ht H. destruct H as [s' Hi Hs|r s' Hi Hh _ _ (Hp & Hq & Hr & q & Hrq & _ & Hst)
    |r s' Hi Hh _ Hp|r q q1 q' s' Hi Hh _ _ _ _ (x & Hx & Hp) _ _ _ _].
  - apply move_idle; [by apply idle_queue|by apply still_unmoved].
  - eapply move_refuse; [by eapply not_idle_room|by apply head_tail| | |].
    + done.
    + simpl. by rewrite Hr.
    + apply over_spec. exists q. by rewrite Hst.
  - eapply move_start; [by eapply not_idle_room|by apply head_tail|].
    apply start_remain. eexists. split; [exact Hp|]. intros y Hy. left.
    rewrite (head_tail _ _ Hh). set_solver.
  - apply (move_chunk _ _ _ b x); [by eapply not_idle_room| |by apply unknown_spec|].
    + simpl. by destruct (pending_request_queue_ s).
    + apply start_remain. eexists. split; [exact Hp|]. intros y Hy. by left.
Qed.

Lemma cut_short_move b s s' e :
  tables_ok s -> ~ idle ctx_ b s -> cut_short s s' ->
  sched_move max_batch (view_of s) (view_of s') (EvContext b) (Err e).
Proof.
  intros Ht Hi (x & P & HP & Hp).
  assert (Hroom : room max_batch (view_of s)).
  { destruct (pending_request_queue_ s) as [|r q] eqn:Hq; [by destruct Hi; unfold idle; rewrite Hq|].
    apply (not_idle_room b s r); [done..|by rewrite Hq]. }
  assert (HC : remain [x] P ({[x]} ∪ active (view_of s)) (view_of s')).
  { apply start_remain. eexists. split; [exact Hp|].
    intros y [->|?]%elem_of_cons; [right; by left|by left]. }
  destruct HP as [HP|(HP & Hne & Hx)].
  - by eapply move_start_failed.
  - subst P. apply move_chunk_failed with x; [done..|by apply unknown_spec|done].
Qed.

Lemma progress_unhurried s s' :
  progress (pending_request_queue_ s) (running s)
    (pending_request_queue_ s ++ running s) s s' ->
  remain [] (queue (view_of s)) (active (view_of s)) (view_of s').
Proof. intros H. eapply progress_remain; [exact H|]. set_solver. Qed.

(** ** What stopping a request may do *)
Lemma split_move id s rest m' :
  tables_ok s -> split_ok id (pending_request_queue_ s) s true rest m' ->
  sched_move max_batch (view_of s) (view_of (set_pending rest (set_requests (fun _ => m') s)))
    (EvStop id) (Ok ALLSPARK_SUCCESS).
Proof.
  intros Ht Hok. destruct (split_some _ _ _ _ _ Hok) as (x & Hx & Hid). apply move_stop_waiting.
  - apply Exists_exists. exists x. by rewrite named_spec.
  - apply Hok.
  - intros r. rewrite named_spec. by eapply split_keeps.
  - intros r Hr Hn%named_spec. apply over_spec.
    destruct (split_stopped _ _ _ _ _ _ r Hok Hr Hn) as (q & Hq & Hs). exists q. simpl. by rewrite Hs.
  - done.
Qed.

Lemma stopped_move id g r s s' a :
  tables_ok s -> (forall x, x ∈ pending_request_queue_ s -> ~ has_id s id x) ->
  r ∈ running s -> has_id s id r -> stopped g r s s' ->
  sched_move max_batch (view_of s) (view_of s') (EvStop id) a.
Proof.
  intros Ht Hnp Hr Hid Hs. apply (move_stop_active _ _ _ id r).
  - intros x Hx. rewrite named_spec. by apply Hnp.
  - by apply active_spec.
  - by apply named_spec.
  - apply over_spec. destruct (sp_request _ _ _ _ Hs) as (q & Hq & _ & Hst). exists q.
    by rewrite Hst.
  - apply (sp_pending _ _ _ _ Hs).
  - assert (Hnd := tk_once _ Ht). apply NoDup_app in Hnd as (_ & _ & Hnd).
    rewrite (sp_running _ _ _ _ Hs) in Hnd. apply NoDup_cons in Hnd as [Hnr _].
    apply leibniz_equiv. intros x. rewrite elem_of_difference, elem_of_singleton, !active_spec.
    rewrite (sp_running _ _ _ _ Hs). set_solver.
Qed.

Lemma StopRequest_move id s a s' :
  tables_ok s -> StopRequest ctx_ graph_ops_ id s = (a, s') ->
  sched_move max_batch (view_of s) (view_of s') (EvStop id) a.
Proof.
  intros Ht Hrun. assert (H := wp_StopRequest ctx_ graph_ops_ id s Ht).
  unfold wp in H. rewrite Hrun in H. destruct a as [st|e].
  - destruct H as [(-> & rest & m' & -> & Hok)|(Hnp & [(-> & -> & Hnr)|(g & r & Hr & Hid & Hst)])].
    + by apply split_move.
    + apply move_stop_unknown; [|done]. intros x. rewrite active_spec, named_spec.
      intros [Hx|Hx]; [by apply Hnp|by apply Hnr].
    + by eapply stopped_move.
  - destruct H as (Hnp & g & r & Hr & Hid & [Hf|Hst]).
    + apply (move_stop_failed _ _ _ id r); [by apply active_spec|by apply named_spec|].
      split; [apply Hf|]. simpl. f_equal. apply running_frame.
      by eapply frame_mono, Hf; apply cache_ctx_keeps.
    + by eapply stopped_move.
Qed.

(** The state after a sequence of operations and how many threw. *)
Fixpoint exec (es : list event) s : nat * model :=
  match es with
  | [] => (0%nat, s)
  | e :: es' =>
      let '(r, s1) := run_event e s in
      let '(n, s2) := exec es' s1 in
      (match r with Ok _ => n | Err _ => Datatypes.S n end, s2)
  end.

(** The operations with their answers and the view after each. *)
Fixpoint observe (es : list event) s : list (event * res AsStatus * view) :=
  match es with
  | [] => []
  | e :: es' => let '(r, s1) := run_event e s in (e, r, view_of s1) :: observe es' s1
  end.

(** The requests that may go: those that have ended and those lost in [L]. *)
Definition gone s (L : list nat) (r : nat) : Prop := ended_in s r \/ r ∈ L.

(** Where a request is: it waits, it runs, or it is gone. *)
Definition accounted s L (r : nat) : Prop :=
  r ∈ pending_request_queue_ s \/ r ∈ running s \/ gone s L r.

(** What an operation guarantees, with the requests [L] it may have lost. *)
Record stepped (L : list nat) s s' : Prop := mkStepped {
  sd_tables : tables_ok s';
  sd_requests : heap_le req_le (requests s) (requests s');
  sd_map id r : all_request_map_ s' !! id = Some r ->
    all_request_map_ s !! id = Some r \/ accounted s' L r;
  sd_kept r : r ∈ pending_request_queue_ s \/ r ∈ running s -> accounted s' L r;
}.

Lemma progress_stepped P A C L s s' :
  progress P A C s s' ->
  (forall r, r ∈ pending_request_queue_ s ++ running s -> r ∈ C \/ r ∈ L) -> stepped L s s'.
Proof.
  intros [Ht Hp Hr Hm Hq Hk Hn] HC. split; try done.
  - intros id r. rewrite Hm. by left.
  - intros r Hin. destruct (HC r) as [H|H]; [by apply elem_of_app| |].
    + destruct (Hk r H) as [?|[?|?]]; [by left|by right; left|]. right. right. by left.
    + right. right. by right.
Qed.

Lemma quiet_stepped s s' :
  progress (pending_request_queue_ s) (running s)
    (pending_request_queue_ s ++ running s) s s' -> stepped [] s s'.
Proof. intros Hp. eapply progress_stepped; [exact Hp|by left]. Qed.

Lemma still_stepped s s' : still s s' -> stepped [] s s'.
Proof. intros H. by apply quiet_stepped, still_progress. Qed.

Lemma context_stepped plen_ok b s st s' :
  context_outcome ctx_ plen_ok b s st s' -> stepped [] s s'.
Proof.
  intros H. destruct H as [s' _ Hs|r s' _ _ _ _ [Hp _]|r s' _ _ _ Hp
    |r q q1 q' s' _ _ _ _ _ _ (x & Hx & Hp) _ _ _ _].
  - by apply still_stepped.
  - eapply progress_stepped; [exact Hp|by left].
  - eapply progress_stepped; [exact Hp|by left].
  - eapply progress_stepped; [exact Hp|left; by right].
Qed.

Lemma cut_short_stepped s s' :
  cut_short s s' -> exists L, (length L <= 1)%nat /\ stepped L s s'.
Proof.
  intros (x & P & HP & Hp). exists [x]. split; [done|]. eapply progress_stepped; [exact Hp|].
  destruct HP as [HP|[HP _]]; rewrite HP; [|by left].
  intros r [->|?]%elem_of_cons; [right; by left|by left].
Qed.

Lemma arrived_stepped id s s' : arrived id s s' -> stepped [] s s'.
Proof.
  intros (r & Hn & Ht' & Hp & Hr & _ & Hm & Hle & Hnx). split; try done.
  - intros i x. rewrite Hm. destruct (decide (id = i)) as [<-|Hne].
    + rewrite lookup_insert_eq. intros [= <-]. right. left. rewrite Hp. set_solver.
    + rewrite lookup_insert_ne by done. by left.
  - intros x. unfold accounted. rewrite Hp, Hr. set_solver.
Qed.

Lemma arrived_move id ins outs cfg s s' : arrived id s s' ->
  sched_move max_batch (view_of s) (view_of s') (EvArrive id ins outs cfg) (Ok ALLSPARK_SUCCESS).
Proof.
  intros (r & Hn & Ht' & Hp & Hr & Hid & _). apply move_arrive with r.
  - by apply unknown_spec.
  - by apply named_spec.
  - rewrite over_spec. intros (q & Hq & He).
    destruct (tk_pending _ Ht' r) as (q' & Hq' & Hst); [rewrite Hp; set_solver|].
    replace q with q' in He by congruence. by rewrite Hst in He.
  - done.
  - simpl. by rewrite Hr.
Qed.

(** What every operation guarantees, whether it returns or throws. *)
Lemma event_ok e s r s' :
  tables_ok s -> run_event e s = (r, s') ->
  sched_move max_batch (view_of s) (view_of s') e r /\
  exists L, (length L <= match r with Ok _ => 0 | Err _ => 1 end)%nat /\ stepped L s s'.
Proof.
  intros Ht Hrun.
  assert (H : wp (run_event e)
    (fun st s' => sched_move max_batch (view_of s) (view_of s') e (Ok st) /\ stepped [] s s')
    (fun x s' => sched_move max_batch (view_of s) (view_of s') e (Err x) /\
       exists L, (length L <= 1)%nat /\ stepped L s s') s).
  { assert (Hnil : forall s', stepped [] s s' -> exists L, (length L <= 1)%nat /\ stepped L s s').
    { intros s1 H. exists []. split; [simpl; lia|done]. }
    assert (Hprog := progress_refl s Ht).
    destruct e as [v|id ins outs cfg|b| | |id|id]; simpl.
    - assert (Hs : pres (still s) (new_tensor v;; mret ALLSPARK_SUCCESS)).
      { apply lift_still. intros s1. apply pres_bind; [apply new_tensor_frame|intros; apply pres_ret]. }
      eapply wp_mono; [apply Hs, still_refl, Ht| |]; intros x s1 H1;
        (split; [by apply move_input, still_unmoved|]).
      + by apply still_stepped.
      + by apply Hnil, still_stepped.
    - eapply wp_mono; [by apply wp_StartRequestImpl| |].
      + intros st s1 [-> H1]. split; [by apply arrived_move|by eapply arrived_stepped].
      + intros x s1 H1. split; [by apply move_no_arrival, still_unmoved|by apply Hnil, still_stepped].
    - eapply wp_mono; [apply (wp_GenerateContinueContext ctx_ graph_ops_ (fun _ => True)); [|done]| |].
      + intros d l n. unfold wp. by destruct (RefOnly l n d) as [[?|?] ?].
      + intros st s1 H1. split; [by eapply context_move|by eapply context_stepped].
      + intros x s1 [Hi H1]. split; [by apply cut_short_move|by apply cut_short_stepped].
    - eapply wp_mono; [apply (AllocDecoderMemory_still ctx_ s), still_refl, Ht| |]; intros x s1 H1;
        (split; [by apply move_alloc, still_unmoved|]).
      + by apply still_stepped.
      + by apply Hnil, still_stepped.
    - eapply wp_mono; [exact (GenerateContinueDecoder_progress ctx_ graph_ops_ _ _ _ s s Hprog)| |];
        intros x s1 H1; (split; [by apply move_decode, progress_unhurried|]).
      + by apply quiet_stepped.
      + by apply Hnil, quiet_stepped.
    - assert (Hstop := StopRequest_move id s). assert (Hp := StopRequest_progress ctx_ graph_ops_
        _ _ _ s id s Hprog). unfold wp in *. destruct (StopRequest _ _ id s) as [[st|x] s1].
      + split; [by apply Hstop|by apply quiet_stepped].
      + split; [by apply Hstop|by apply Hnil, quiet_stepped].
    - unfold ReleaseRequest. apply wp_bind, wp_modify, wp_ret. split; [by apply move_release|].
      destruct Ht as [Hctx Honce Hpend Hmap Hreq Hgen]. split.
      + split; try done. simpl. intros i x [_ Hx]%lookup_delete_Some. by eapply Hmap.
      + apply heap_le_refl. exact _.
      + simpl. intros i x [_ Hx]%lookup_delete_Some. by left.
      + intros x [?|?]; [by left|by right; left]. }
  unfold wp in H. rewrite Hrun in H. destruct r as [st|x]; [|done].
  destruct H as [H1 H2]. split; [done|]. by exists [].
Qed.

Lemma event_stepped e s r s' :
  tables_ok s -> run_event e s = (r, s') ->
  exists L, (length L <= match r with Ok _ => 0 | Err _ => 1 end)%nat /\ stepped L s s'.
Proof. intros Ht Hrun. by apply (event_ok e s r s'). Qed.

Lemma ended_in_le s s' r :
  heap_le req_le (requests s) (requests s') -> ended_in s r -> ended_in s' r.
Proof.
  intros Hle (q & Hq & He). destruct (Hle _ _ Hq) as (q' & Hq' & Hl).
  exists q'. split; [done|]. by apply (rl_ended q q').
Qed.

Lemma stepped_trans L1 L2 s0 s s' :
  stepped L1 s0 s -> stepped L2 s s' -> stepped (L1 ++ L2) s0 s'.
Proof.
  intros [Ht H2 H3 H4] [Ht' H2' H3' H4'].
  assert (Hg1 : forall r, gone s L1 r -> gone s' (L1 ++ L2) r).
  { intros r [H|H]; [left; by eapply ended_in_le|right; set_solver]. }
  assert (Hg2 : forall r, gone s' L2 r -> gone s' (L1 ++ L2) r).
  { intros r [H|H]; [by left|right; set_solver]. }
  assert (Hkept : forall r, accounted s L1 r -> accounted s' (L1 ++ L2) r).
  { intros r [H|[H|H]].
    - destruct (H4' r (or_introl H)) as [?|[?|?]]; [by left|by right; left|right; right; auto].
    - destruct (H4' r (or_intror H)) as [?|[?|?]]; [by left|by right; left|right; right; auto].
    - right. right. auto. }
  split; try done.
  - eapply heap_le_trans; [exact _|done|done].
  - intros id r [H|H]%H3'; [destruct (H3 id r H) as [?|Hin]; [by left|right; by apply Hkept]|].
    right. destruct H as [?|[?|?]]; [by left|by right; left|right; right; auto].
  - intros r Hr. apply Hkept, H4, Hr.
Qed.

Lemma exec_stepped es s : tables_ok s ->
  exists L, (length L <= fst (exec es s))%nat /\ stepped L s (snd (exec es s)).
Proof.
  revert s. induction es as [|e es IH]; intros s Ht; cbn [exec].
  { exists []. split; [done|]. by apply still_stepped, still_refl. }
  destruct (run_event e s) as [r s1] eqn:Hrun.
  destruct (event_stepped e s r s1 Ht Hrun) as (L1 & Hl1 & H1).
  destruct (IH s1 (sd_tables _ _ _ H1)) as (L2 & Hl2 & H2).
  destruct (exec es s1) as [n s2]. simpl in *. exists (L1 ++ L2).
  split; [rewrite length_app; destruct r; lia|]. by eapply stepped_trans.
Qed.

Lemma observe_run es s : tables_ok s -> sched_run max_batch (view_of s) (observe es s).
Proof.
  revert s. induction es as [|e es IH]; intros s Ht; cbn [observe]; [by constructor|].
  destruct (run_event e s) as [r s1] eqn:Hrun.
  destruct (event_ok e s r s1 Ht Hrun) as (Hm & L & _ & H1). constructor.
  - destruct (view_grows s s1 (sd_requests _ _ _ H1)). by split.
  - apply IH, H1.
Qed.

Lemma new_tables_ok (d : D) : tables_ok (AsModel_new (R := R) (d : D)).
Proof.
  split; simpl; try done; [constructor|..]; intros x; try (by intros [? ?]); set_solver.
Qed.

Lemma exec_tables es s : tables_ok s -> tables_ok (snd (exec es s)).
Proof. intros Ht. destruct (exec_stepped es s Ht) as (L & _ & H). apply H. Qed.

(** ** Properties *)

(** C2. The scheduler refines the abstract one: from a new model on, each
    operation of every sequence, with the answer it gives or the exception it ends
    with, is a move of the abstract scheduler between the views before and after
    it.  So requests queue in the order of their arrival and only the head starts,
    when there is room; nothing but the context phase starts a request, and only a
    request that is over leaves, but for one that a failed start may lose;
    stopping takes away exactly requests with the id; and never more than the
    maximal batch run. *)
Theorem scheduler_refines (d : D) es :
  let tr := observe es (AsModel_new d) in
  sched_run max_batch no_requests tr /\
  Forall (fun '(_, v) => bounded max_batch v) tr.
Proof.
  cbv zeta. assert (H : sched_run max_batch no_requests (observe es (AsModel_new (R := R) d))).
  { exact (observe_run es (AsModel_new d) (new_tables_ok d)). }
  split; [done|]. eapply sched_run_bounded; [done|]. change (0 <= Z.max 0 max_batch). lia.
Qed.

(** C3. The tables of the scheduler stay consistent under every sequence of
    operations, failed ones included: each listed context knows its own index and
    runs a request that exists, no request is pending and running or listed twice,
    and a pending request has not begun. *)
Theorem scheduler_invariant (d : D) es : tables_ok (snd (exec es (AsModel_new (R := R) d))).
Proof. apply exec_tables, new_tables_ok. Qed.

(** C4. A registered request is never forgotten: as long as the client has not
    released it, it waits, runs, or has ended; only an operation that throws can
    lose one. *)
Theorem registered_accounted (d : D) es :
  let '(n, s) := exec es (AsModel_new d) in
  exists L, (length L <= n)%nat /\
    forall id r, all_request_map_ s !! id = Some r -> accounted s L r.
Proof.
  assert (H := exec_stepped es _ (new_tables_ok d)).
  destruct (exec es (AsModel_new d)) as [n s]. destruct H as (L & Hl & [_ _ Hm _]).
  exists L. split; [done|]. intros id r Hr. by destruct (Hm id r Hr) as [?|?].
Qed.
End spec.
