(* ===== verification/SchedulerDecode.v ===== *)
(** Decoding ends: after every decoding step each running context is below the
    maximal length of its request, so that a request runs for a bounded number
    of steps. *)
From stdpp Require Import base list gmap strings.
From S2P Require Import Prelude FrameManager ModelState Scheduler SchedulerFrame SchedulerProofs.
From S2P Require Import SchedulerSteps.

Section decode.
Context {D R K : Type} `{MD : ModelDevice D R} `{KS : Kernels D R K}.
Variable ctx_ : DeviceContext.
Variable graph_ops_ : Graph K.
Abbreviation W := (M (AsModel D R)).
Abbreviation model := (AsModel D R).
Abbreviation context := (GenerateContext R).
Implicit Types s : model.
Implicit Types c : context.

(** ** The end of a context *)

(** The context has finished or is below its maximal length. *)
Definition below c : Prop := step c + in_length_bias c < max_length (ctx_gen_cfg c) - 1.
Definition limited c : Prop := ctx_finish c = true \/ below c.

Lemma limited_keeps c c' : op_keeps c c' -> limited c -> limited c'.
Proof.
  intros [? ? Hc ? Hs Hb ? Hf] [H|H]; [left; auto|right]. unfold below in *. by rewrite Hs, Hb, Hc.
Qed.

(** A property of the contexts in the list, with their indexes. *)
Definition listed (P : nat -> context -> Prop) s : Prop := forall i g c,
  gen_ctx_list s !! i = Some g -> gen_ctxs s !! g = Some c -> P i c.

Lemma listed_frame G (P : nat -> context -> Prop) s s' :
  (forall i c c', G c c' -> P i c -> P i c') -> frame G s s' -> listed P s -> listed P s'.
Proof.
  intros HP Hf H i g c. rewrite (fr_list _ _ _ Hf). intros Hg Hc.
  destruct (map_rel_lookup_r _ _ _ _ _ (fr_ctxs _ _ _ Hf) Hc) as (c0 & Hc0 & Hk).
  eapply HP; [exact Hk|]. by eapply H.
Qed.

Lemma wp_check_finish s g :
  wp (check_finish g)
    (fun _ s' => frame op_keeps s s' /\ forall c, gen_ctxs s' !! g = Some c -> limited c)
    (fun _ _ => True) s.
Proof.
  assert (Hf := check_finish_frame s g s ltac:(reflexivity)).
  assert (Hl : wp (check_finish g) (fun _ s' => forall c, gen_ctxs s' !! g = Some c -> limited c)
    (fun _ _ => True) s).
  { clear Hf. unfold check_finish. apply wp_bind, wp_deref; [|done]. intros c Hc. cbv zeta.
    destruct (ctx_finish c) eqn:Hfin.
    { apply wp_ret. intros c' Hc'. left. congruence. }
    destruct (Z.leb_spec (max_length (ctx_gen_cfg c) - 1) (step c + in_length_bias c)).
    { apply wp_bind, wp_deref; [|done]. intros c1 Hc1. apply wp_modify. simpl.
      rewrite lookup_insert_eq. intros c' [= <-]. by left. }
    assert (Hset : forall f o, wp (upd_gen g (set_ctx_finish f o))
      (fun _ s' => forall c, gen_ctxs s' !! g = Some c -> limited c) (fun _ _ => True) s).
    { intros f o. apply wp_bind, wp_deref; [|done]. intros c1 Hc1. apply wp_modify. simpl.
      rewrite lookup_insert_eq. intros c' [= <-]. right. by replace c1 with c by congruence. }
    apply wp_bind, wp_deref; [|done]. intros q _. apply wp_bind.
    eapply wp_mono; [apply (at_pres (fun s' => s' = s)); done| |done]. intros x ? ->.
    apply wp_bind, wp_deref; [|done]. intros v _. cbv zeta.
    destruct (early_stopping _ && _); [done|]. destruct (early_stopping _ && _); [apply Hset|].
    destruct (_ && _); [|apply wp_ret; intros c' Hc'; right; by replace c' with c by congruence].
    apply wp_bind. eapply wp_mono; [apply (check_stop_words_pres (fun s' => s' = s)); done| |done].
    intros m ? ->. apply Hset. }
  unfold wp in *. by destruct (check_finish g s) as [[]].
Qed.

Lemma wp_RunDecoder s :
  wp (RunDecoder ctx_)
    (fun _ s' => frame op_keeps s s' /\ listed (fun _ => limited) s') (fun _ _ => True) s.
Proof.
  unfold RunDecoder. apply wp_bind, wp_gets, wp_bind.
  set (I := fun (pre : list Z) s' => frame op_keeps s s' /\
    listed (fun i c => Z.of_nat i ∈ pre -> limited c) s').
  eapply wp_mono; [apply (wp_for_each I)| |done].
  - split; [reflexivity|]. intros i g c _ _. set_solver.
  - intros pre i rest s1 _ [Hf Hl]. apply wp_bind.
    assert (Hget : wp (GetGenCtx i) (fun g s' => s' = s1 /\ gen_ctx_list s1 !! Z.to_nat i = Some g /\ 0 <= i)
      (fun _ _ => True) s1).
    { unfold wp, GetGenCtx. destruct (Z.ltb_spec i 0); [done|].
      destruct (gen_ctx_list s1 !! _) eqn:Hg; [|done]. done. }
    eapply wp_mono; [exact Hget| |done]. intros g ? (-> & Hg & Hi). apply wp_bind.
    eapply wp_mono; [apply wp_check_finish| |done].
    intros ? s2 [Hf2 Hl2].
    eapply wp_mono; [apply (copy_generated_ids_frame ctx_ s2 g false); reflexivity| |done].
    intros ? s3 Hf3. split; [by etrans; [|etrans]|].
    intros j g' c Hg' Hc Hin. rewrite (fr_list _ _ _ Hf3), (fr_list _ _ _ Hf2) in Hg'.
    destruct (map_rel_lookup_r _ _ _ _ _ (fr_ctxs _ _ _ Hf3) Hc) as (c2 & Hc2 & Hk).
    eapply limited_keeps; [exact Hk|].
    apply elem_of_app in Hin as [Hin|Hin%list_elem_of_singleton].
    + destruct (map_rel_lookup_r _ _ _ _ _ (fr_ctxs _ _ _ Hf2) Hc2) as (c1 & Hc1 & Hk1).
      eapply limited_keeps; [exact Hk1|]. by eapply Hl.
    + apply Hl2. by replace g with g' by (rewrite <- Hin, Nat2Z.id in Hg; congruence).
  - intros ? s1 [Hf Hl]. apply wp_ret. split; [done|]. intros i g c Hg Hc. eapply Hl; [done..|].
    rewrite elem_of_seqZ. unfold GetGenCtxListSize. rewrite (fr_list _ _ _ Hf) in Hg.
    apply lookup_lt_Some in Hg. lia.
Qed.

Lemma listed_limited s s' :
  frame op_keeps s s' -> listed (fun _ => limited) s -> listed (fun _ => limited) s'.
Proof. apply listed_frame. intros _ c c'. apply limited_keeps. Qed.

(** The operator that tests for the end of generation. *)
Definition tests_finish (op : AsOperator K) : Prop :=
  match op with UpdateIdOp name => name <> "update_id_first" | Kernel _ => False end.

Lemma wp_call_each_finish op s :
  tests_finish op -> is_context s = false ->
  wp (call_each ctx_ op [CallReshape; CallForward])
    (fun st s' => st = ALLSPARK_SUCCESS -> frame op_keeps s s' /\ listed (fun _ => limited) s')
    (fun _ _ => True) s.
Proof.
  destruct op as [|name]; [done|]. intros Hn Hc. simpl in Hn. cbn [call_each call_op].
  apply wp_bind, wp_ret. rewrite bool_decide_true by done. apply wp_bind.
  unfold UpdateId_Forward. rewrite bool_decide_false by done. apply wp_bind, wp_gets. rewrite Hc.
  eapply wp_mono; [apply wp_RunDecoder| |done]. intros st s' H. case_bool_decide.
  - by apply wp_ret.
  - unfold ErrorProcess. apply wp_bind, wp_modify, wp_ret. congruence.
Qed.

Lemma wp_call_all_finish ops s :
  Exists tests_finish ops -> is_context s = false ->
  wp (call_all ctx_ ops [CallReshape; CallForward])
    (fun st s' => st = ALLSPARK_SUCCESS -> frame op_keeps s s' /\ listed (fun _ => limited) s')
    (fun _ _ => True) s.
Proof.
  intros Hops. revert s. induction Hops as [op ops Hop|op ops _ IH]; intros s Hc;
    cbn [call_all]; unfold if_success; apply wp_bind.
  - eapply wp_mono; [by apply wp_call_each_finish| |done]. intros st s1 H1. case_bool_decide as Hst.
    + destruct (H1 Hst) as [Hf Hl].
      eapply wp_mono; [apply (call_all_frame ctx_ s1); reflexivity| |done].
      intros st2 s2 Hf2 _. split; [by etrans|exact (listed_limited s1 s2 Hf2 Hl)].
    + by apply wp_ret.
  - eapply wp_mono; [apply (call_each_frame ctx_ s); reflexivity| |done]. intros st s1 Hf.
    case_bool_decide; [|by apply wp_ret].
    eapply wp_mono; [apply IH; by rewrite (fr_context _ _ _ Hf)| |done].
    intros st2 s2 H2 Hst. destruct (H2 Hst) as [Hf2 Hl]. split; [by transitivity s1|done].
Qed.

(** ** The contexts that have finished are stopped *)

(** No two requests that wait or run have the same id. *)
Definition unique_ids s : Prop := forall r1 r2 q1 q2,
  r1 ∈ pending_request_queue_ s ++ running s -> r2 ∈ pending_request_queue_ s ++ running s ->
  requests s !! r1 = Some q1 -> requests s !! r2 = Some q2 ->
  request_id q1 = request_id q2 -> r1 = r2.

Lemma unique_ids_progress s s' :
  progress (pending_request_queue_ s) (running s)
    (pending_request_queue_ s ++ running s) s s' ->
  tables_ok s -> unique_ids s -> unique_ids s'.
Proof.
  intros [Ht' Hp Hr _ Hq _ _] Ht Hu r1 r2 q1 q2 H1 H2 Hq1 Hq2 Heq.
  assert (Hin : forall r, r ∈ pending_request_queue_ s' ++ running s' ->
    r ∈ pending_request_queue_ s ++ running s).
  { intros r [H|H]%elem_of_app; apply elem_of_app;
      [left; by eapply elem_of_sublist|right; by eapply elem_of_submseteq]. }
  apply Hin in H1, H2.
  assert (Hex : forall r, r ∈ pending_request_queue_ s ++ running s -> is_Some (requests s !! r)).
  { intros r [H|H]%elem_of_app.
    - destruct (tk_pending _ Ht r H) as (q & -> & _). eauto.
    - apply list_elem_of_omap in H as (g & [i Hg]%list_elem_of_lookup & Hc).
      destruct (tk_ctx _ Ht _ _ Hg) as (c & Hgc & _ & Hs). rewrite Hgc in Hc. by simplify_eq/=. }
  destruct (Hex _ H1) as [x1 Hx1], (Hex _ H2) as [x2 Hx2].
  destruct (Hq _ _ Hx1) as (y1 & Hy1 & Hl1), (Hq _ _ Hx2) as (y2 & Hy2 & Hl2).
  apply (Hu r1 r2 x1 x2); try done.
  rewrite <- (rl_id _ _ Hl1), <- (rl_id _ _ Hl2). congruence.
Qed.

Lemma running_lookup s i :
  tables_ok s -> running s !! i = gen_ctx_list s !! i ≫= fun g => request <$> gen_ctxs s !! g.
Proof.
  intros Ht. unfold running.
  assert (H : forall g, g ∈ gen_ctx_list s -> is_Some (gen_ctxs s !! g)).
  { intros g [j Hg]%list_elem_of_lookup. destruct (tk_ctx _ Ht _ _ Hg) as (c & Hc & _). eauto. }
  revert i. induction (gen_ctx_list s) as [|g l IH]; intros i; [done|].
  destruct (H g ltac:(left)) as [c Hc]. cbn [omap list_omap]. simpl. rewrite Hc. simpl.
  destruct i as [|i]; simpl; [by rewrite Hc|]. apply IH. intros x Hx. apply H. by right.
Qed.

(** A running request has one context. *)
Lemma running_inj s i j g g' c c' :
  tables_ok s -> gen_ctx_list s !! i = Some g -> gen_ctxs s !! g = Some c ->
  gen_ctx_list s !! j = Some g' -> gen_ctxs s !! g' = Some c' ->
  request c = request c' -> i = j /\ g = g'.
Proof.
  intros Ht Hg Hc Hg' Hc' Hr. assert (Hi := running_lookup s i Ht). assert (Hj := running_lookup s j Ht).
  rewrite Hg in Hi. rewrite Hg' in Hj. simpl in *. rewrite Hc in Hi. rewrite Hc' in Hj. simpl in *.
  assert (Hnd := tk_once _ Ht). apply NoDup_app in Hnd as (_ & _ & Hnd).
  assert (i = j) as -> by (eapply NoDup_lookup; [exact Hnd|exact Hi|by rewrite Hr]).
  split; [done|congruence].
Qed.

(** The contexts of [s'] are contexts of [s]. *)
Record fewer s s' : Prop := mkFewer {
  fw_ctxs : map_rel ctx_same (gen_ctxs s) (gen_ctxs s');
  fw_list g : g ∈ gen_ctx_list s' -> g ∈ gen_ctx_list s;
}.

#[export] Instance fewer_preorder : PreOrder fewer.
Proof.
  split; [intros s; split; [apply map_rel_refl; exact _|done]|].
  intros x y z [] []. split; [by eapply map_rel_trans; [exact _|done..]|auto].
Qed.

(** Stopping the request of the context at [n] takes that context out. *)
Lemma wp_stop_at n g c q s :
  tables_ok s -> unique_ids s -> gen_ctx_list s !! n = Some g -> gen_ctxs s !! g = Some c ->
  requests s !! request c = Some q ->
  wp (StopRequest ctx_ graph_ops_ (request_id q))
    (fun _ s' => fewer s s' /\ swap_removed n g (gen_ctx_list s) (gen_ctx_list s'))
    (fun _ _ => True) s.
Proof.
  intros Ht Hu Hg Hc Hq.
  assert (Hrun : request c ∈ running s).
  { apply list_elem_of_omap. exists g. rewrite Hc. split; [by eapply list_elem_of_lookup_2|done]. }
  assert (Hid : has_id s (request_id q) (request c)) by by exists q.
  eapply wp_mono; [by apply wp_StopRequest| |done].
  intros st s' [(_ & rest & m' & -> & Hok)|(_ & [(_ & _ & Hno)|(g' & r' & Hr' & (q' & Hq' & Hid') & Hst)])].
  - (* a pending request with this id would be another one with the id *)
    exfalso. assert (Hf := so_found _ _ _ _ _ _ Hok). assert (Hn := so_none _ _ _ _ _ _ Hok).
    discriminate Hn. intros r q' Hr Hq' Hid'. assert (Hnd := tk_once _ Ht).
    apply NoDup_app in Hnd as (_ & Hd & _). apply (Hd r Hr).
    replace r with (request c); [done|].
    apply (Hu (request c) r q q'); try done; apply elem_of_app; [by right|by left].
  - by destruct (Hno _ Hrun).
  - assert (r' = request c) as ->.
    { apply (Hu r' (request c) q' q); try done; apply elem_of_app; by right. }
    destruct (sp_context _ _ _ _ Hst) as (c' & Hc' & Hrc), (sp_list _ _ _ _ Hst) as (i & Hi).
    destruct (running_inj s n i g g' c c' Ht Hg Hc (proj1 Hi) Hc' (eq_sym Hrc)) as [<- <-].
    split; [|done]. split; [apply Hst|]. intros x Hx. rewrite (swap_removed_perm _ _ _ _ Hi).
    by right.
Qed.

Lemma wp_stop_finished n s :
  tables_ok s -> unique_ids s -> listed (fun i c => (n <= i)%nat -> ctx_finish c = false) s ->
  wp (stop_finished ctx_ graph_ops_ (reverse (seqZ 0 (Z.of_nat n))))
    (fun st s' => st = ALLSPARK_SUCCESS ->
       fewer s s' /\ listed (fun _ c => ctx_finish c = false) s') (fun _ _ => True) s.
Proof.
  revert s. induction n as [|n IH]; intros s Ht Hu Hl.
  { apply wp_ret. intros _. split; [reflexivity|]. intros i g c Hg Hc. eapply Hl; [done..|lia]. }
  replace (Z.of_nat (Datatypes.S n)) with (Z.of_nat n + 1) by lia.
  rewrite seqZ_app, reverse_app by lia. simpl. rewrite !Z.add_0_l.
  apply wp_bind. unfold wp at 1, GetGenCtx. destruct (Z.ltb_spec (Z.of_nat n) 0); [lia|].
  rewrite Nat2Z.id. destruct (gen_ctx_list s !! n) as [g|] eqn:Hg; [|done].
  destruct (tk_ctx _ Ht _ _ Hg) as (c & Hc & _ & [q Hq]).
  apply wp_bind, wp_deref; [|done]. intros c' Hc'. replace c' with c by congruence. clear c' Hc'.
  destruct (ctx_finish c) eqn:Hfin.
  - apply wp_bind, wp_deref; [|done]. intros q' Hq'. replace q' with q by congruence.
    unfold if_success. apply wp_bind.
    assert (H1 := wp_stop_at n g c q s Ht Hu Hg Hc Hq).
    assert (H2 := StopRequest_progress ctx_ graph_ops_ _ _ _ s (request_id q) s (progress_refl s Ht)).
    assert (H3 : wp (StopRequest ctx_ graph_ops_ (request_id q))
      (fun _ s' => (fewer s s' /\ swap_removed n g (gen_ctx_list s) (gen_ctx_list s')) /\
         progress (pending_request_queue_ s) (running s)
           (pending_request_queue_ s ++ running s) s s') (fun _ _ => True) s)
      by (unfold wp in *; by destruct (StopRequest _ _ _ s) as [[]]).
    eapply wp_mono; [exact H3| |done]. intros st s1 [[Hf Hrm] Hp].
    case_bool_decide; [|by apply wp_ret].
    eapply wp_mono; [apply IH; [apply Hp|by eapply unique_ids_progress|]| |done].
    + intros i x cx Hx Hcx Hi.
      destruct (map_rel_lookup_r _ _ _ _ _ (fw_ctxs _ _ Hf) Hcx) as (c0 & Hc0 & Hk).
      rewrite (cs_finish _ _ Hk).
      destruct (swap_removed_lookup _ _ _ _ _ _ Hrm Hx) as [[Hne Hx0]|(-> & Hn & Hx0)];
        eapply (Hl _ _ _ Hx0 Hc0); lia.
    + intros st2 s2 H4 Hst. destruct (H4 Hst) as [Hf2 Hl2]. split; [by transitivity s1|done].
  - eapply wp_mono; [apply IH; [done..|]| |done].
    + intros i x cx Hx Hcx Hi. destruct (decide (i = n)) as [->|Hne]; [congruence|].
      eapply Hl; [done..|lia].
    + done.
Qed.

(** ** Statuses

    [ALLSPARK_STREAMING] is the answer of a completed decoding step; no
    operator gives it. *)
Definition not_streaming : Prop := forall k op s,
  match fst (kernel_call (K := K) k op s) with Ok st => st <> ALLSPARK_STREAMING | Err _ => True end.

Definition plain (m : W AsStatus) : Prop :=
  forall s, wp m (fun st _ => st <> ALLSPARK_STREAMING) (fun _ _ => True) s.

Lemma plain_bind {A} (m : W A) k : (forall a, plain (k a)) -> plain (m ≫= k).
Proof.
  intros Hk s. apply wp_bind. unfold wp at 1. destruct (m s) as [[a|e] s']; [apply Hk|done].
Qed.
Lemma plain_if_success m k : plain m -> plain k -> plain (if_success m k).
Proof.
  intros Hm Hk s. unfold if_success. apply wp_bind. eapply wp_mono; [apply Hm| |done].
  intros st s' Hst. case_bool_decide; [apply Hk|by apply wp_ret].
Qed.
Lemma plain_ret st : st <> ALLSPARK_STREAMING -> plain (mret st).
Proof. by intros H s. Qed.

Lemma plain_call_op op call : not_streaming -> plain (call_op (K := K) ctx_ op call).
Proof.
  intros Hk. destruct op as [k|name]; [|destruct call; try by apply plain_ret].
  - intros s. unfold wp, call_op, call_kernel. specialize (Hk k call s).
    destruct (kernel_call k call s) as [[st|e] f]; done.
  - unfold call_op, UpdateId_Forward, RunContext, RunDecoder.
    case_bool_decide; [by apply plain_ret|]. apply plain_bind. intros [].
    all: repeat (apply plain_bind; intros ?); by apply plain_ret.
Qed.

Lemma plain_call_all ops calls : not_streaming -> plain (call_all (K := K) ctx_ ops calls).
Proof.
  intros Hk. assert (Hop := fun op call => plain_call_op op call Hk).
  assert (He : forall op cs, plain (call_each (K := K) ctx_ op cs)).
  { intros op cs. induction cs as [|call cs IH]; cbn [call_each]; [by apply plain_ret|].
    intros s. apply wp_bind. eapply wp_mono; [apply Hop| |done]. intros st s' Hst.
    case_bool_decide; [apply IH|]. unfold ErrorProcess. by apply wp_bind, wp_modify, wp_ret. }
  induction ops as [|op ops IH]; cbn [call_all]; [by apply plain_ret|].
  by apply plain_if_success.
Qed.

Lemma plain_get_futures idxs futures :
  (forall i st, futures !! i = Some (Ok st) -> st <> ALLSPARK_STREAMING) ->
  plain (get_futures idxs futures).
Proof.
  intros Hf. induction idxs as [|i idxs IH]; cbn [get_futures]; [by apply plain_ret|].
  destruct (futures !! i) as [[st|e]|] eqn:Hi; [|by intros s..].
  case_bool_decide; [done|]. unfold ErrorProcess. apply plain_bind. intros ?.
  eapply plain_ret, Hf, Hi.
Qed.

Lemma plain_alloc_decoder : not_streaming -> plain (alloc_decoder (K := K) ctx_ graph_ops_).
Proof.
  intros Hk. unfold alloc_decoder. destruct (is_cuda _); [|by apply plain_call_all].
  cbv zeta. case_match; [by intros s|]. case_match; [by intros s|].
  apply plain_bind. intros order s. apply wp_bind.
  set (ok := fun futures : gmap nat (res AsStatus) =>
    forall i st, futures !! i = Some (Ok st) -> st <> ALLSPARK_STREAMING).
  assert (Hr : forall tasks futures s, ok futures ->
    wp (run_tasks ctx_ tasks order futures) (fun futures' _ => ok futures') (fun _ _ => True) s).
  { intros tasks. induction order as [|i order IH]; intros futures s1 Hok; cbn [run_tasks]; [done|].
    destruct (tasks !! i) as [op|]; [|by apply IH]. apply wp_bind.
    assert (Hp := plain_call_op op CallAlloc Hk s1). unfold wp at 1, packaged.
    unfold wp in Hp. destruct (call_op ctx_ op CallAlloc s1) as [[st|e] s2]; apply IH.
    - intros j st' [[_ [= <-]]|[_ Hj]]%lookup_insert_Some; [done|by eapply Hok].
    - intros j st' [[_ [=]]|[_ Hj]]%lookup_insert_Some. by eapply Hok. }
  eapply wp_mono; [by apply Hr| |done]. intros futures s1 Hok.
  case_match; [by apply wp_bind, wp_modify, wp_ret|by apply plain_get_futures].
Qed.

Lemma plain_StopRequest id : not_streaming -> plain (StopRequest ctx_ graph_ops_ id).
Proof.
  intros Hk. unfold StopRequest. apply plain_bind. intros b. destruct b; [by apply plain_ret|].
  apply plain_bind. intros n. apply plain_bind. intros i. destruct (i =? -1); [by apply plain_ret|].
  apply plain_bind. intros g. apply plain_bind. intros c s.
  unfold check_status. apply wp_bind.
  eapply wp_mono; [apply wp_release_caches| |done]. intros st s' [-> _]. simpl.
  match goal with |- wp ?m _ _ s' => enough (plain m) as Hp by apply Hp end.
  apply plain_bind. intros ?. apply plain_bind. intros ?. apply plain_bind. intros ?.
  apply plain_bind. intros l. destruct (0 <? l); [by apply plain_call_all|by apply plain_ret].
Qed.

Lemma plain_stop_finished idxs : not_streaming -> plain (stop_finished ctx_ graph_ops_ idxs).
Proof.
  intros Hk. induction idxs as [|i idxs IH]; cbn [stop_finished]; [by apply plain_ret|].
  apply plain_bind. intros g. apply plain_bind. intros c. destruct (ctx_finish c); [|done].
  apply plain_bind. intros q. apply plain_if_success; [by apply plain_StopRequest|done].
Qed.

(** ** One decoding step *)

(** A context [k] steps of decoding later. *)
Record onward (k : Z) c c' : Prop := mkOnward {
  ow_request : request c' = request c;
  ow_cfg : ctx_gen_cfg c' = ctx_gen_cfg c;
  ow_bias : in_length_bias c' = in_length_bias c;
  ow_step : step c' = step c + k;
}.

(** [k] steps within which no request came or went. *)
Record advanced (k : Z) s0 s : Prop := mkAdvanced {
  av_progress : progress (pending_request_queue_ s0) (running s0)
    (pending_request_queue_ s0 ++ running s0) s0 s;
  av_context : is_context s = is_context s0;
  av_list : gen_ctx_list s = gen_ctx_list s0;
  av_ctxs g c' : g ∈ gen_ctx_list s0 -> gen_ctxs s !! g = Some c' ->
    exists c, gen_ctxs s0 !! g = Some c /\ onward k c c';
}.

Lemma advanced_frame k s0 s s' : advanced k s0 s -> frame op_keeps s s' -> advanced k s0 s'.
Proof.
  intros [Hp Hc Hl Hx] Hf. split.
  - eapply progress_frame; [exact Hp|]. by apply frame_op_ctx.
  - by rewrite (fr_context _ _ _ Hf).
  - by rewrite (fr_list _ _ _ Hf).
  - intros g c' Hg Hc'.
    destruct (map_rel_lookup_r _ _ _ _ _ (fr_ctxs _ _ _ Hf) Hc') as (c1 & Hc1 & []).
    destruct (Hx g c1 Hg Hc1) as (c0 & Hc0 & []). exists c0. split; [done|]. split; congruence.
Qed.

Lemma wp_advance s0 s :
  tables_ok s0 -> advanced 0 s0 s ->
  wp (for_each (seqZ 0 (GetGenCtxListSize s0)) (fun i =>
        g ← GetGenCtx i; upd_gen g (fun c => set_step (step c + 1) (in_length_bias c) c)))
    (fun _ s' => advanced 1 s0 s') (fun _ _ => True) s.
Proof.
  intros Ht0 [Hp Hctx Hlist Hx]. assert (Ht := pg_tables _ _ _ _ _ Hp).
  set (I := fun (pre : list Z) s' => frame ctx_keeps s s' /\
    forall i g c', gen_ctx_list s !! i = Some g -> gen_ctxs s' !! g = Some c' ->
      exists c, gen_ctxs s !! g = Some c /\
        onward (if bool_decide (Z.of_nat i ∈ pre) then 1 else 0) c c').
  eapply (wp_mono _ (fun _ => I (seqZ 0 (GetGenCtxListSize s0))) _ (fun _ _ => True)); [apply (wp_for_each I)| |done].
  - split; [reflexivity|]. intros i g c' _ Hc'. exists c'. split; [done|].
    rewrite bool_decide_false by set_solver. split; try done. lia.
  - intros pre i rest s1 Hsplit [Hf HI]. assert (Hnew : i ∉ pre).
    { assert (Hnd := NoDup_seqZ 0 (GetGenCtxListSize s0)). rewrite Hsplit in Hnd.
      apply NoDup_app in Hnd as (_ & Hd & _). intros Hin. apply (Hd i Hin). by left. }
    apply wp_bind. unfold wp at 1, GetGenCtx. destruct (Z.ltb_spec i 0); [done|].
    destruct (gen_ctx_list s1 !! Z.to_nat i) as [g|] eqn:Hg; [|done].
    rewrite (fr_list _ _ _ Hf) in Hg.
    assert (Hf2 : forall c, gen_ctxs s1 !! g = Some c ->
      frame ctx_keeps s (set_gen_ctxs <[g := set_step (step c + 1) (in_length_bias c) c]> s1)).
    { intros c Hc. destruct Hf. split; try done. simpl. eapply map_rel_upd; eauto; [exact _|by split]. }
    apply wp_bind, wp_deref; [|done]. intros c Hc. apply wp_modify. split; [by apply Hf2|].
    intros j g' c' Hg' Hc'. simpl in Hc'. destruct (decide (g = g')) as [<-|Hne].
    + rewrite lookup_insert_eq in Hc'. injection Hc' as <-.
      destruct (HI j g c Hg' Hc) as (c0 & Hc0 & Ho).
      destruct (tk_ctx _ Ht _ _ Hg) as (c1 & Hc1 & _).
      destruct (running_inj s j (Z.to_nat i) g g c1 c1 Ht Hg' Hc1 Hg Hc1 eq_refl) as [-> _].
      exists c0. split; [done|]. rewrite Z2Nat.id in * by done.
      rewrite bool_decide_false in Ho by done. rewrite bool_decide_true by set_solver.
      destruct Ho. split; simpl; try congruence. lia.
    + rewrite lookup_insert_ne in Hc' by done.
      destruct (HI j g' c' Hg' Hc') as (c0 & Hc0 & Ho). exists c0. split; [done|].
      assert (Hiff : Z.of_nat j ∈ pre ++ [i] <-> Z.of_nat j ∈ pre).
      { rewrite elem_of_app, list_elem_of_singleton. split; [|by left].
        intros [?|<-]; [done|]. rewrite Nat2Z.id in Hg. congruence. }
      by rewrite (bool_decide_ext _ _ Hiff).
  - intros ? s1 [Hf HI]. split.
    + by eapply progress_frame.
    + by rewrite (fr_context _ _ _ Hf).
    + by rewrite (fr_list _ _ _ Hf).
    + intros g c' Hg Hc'. assert (Hg2 := Hg). rewrite <- Hlist in Hg2.
      apply list_elem_of_lookup in Hg2 as [i Hi].
      destruct (HI i g c' Hi Hc') as (c1 & Hc1 & Ho). rewrite bool_decide_true in Ho.
      * destruct (Hx g c1 Hg Hc1) as (c0 & Hc0 & []). exists c0. split; [done|].
        destruct Ho. split; try congruence. lia.
      * rewrite elem_of_seqZ. unfold GetGenCtxListSize. rewrite Hlist in Hi.
        apply lookup_lt_Some in Hi. lia.
Qed.

Lemma advanced_refl s : tables_ok s -> advanced 0 s s.
Proof.
  intros Ht. split; try done; [by apply progress_refl|].
  intros g c' _ Hc. exists c'. split; [done|]. split; try done. lia.
Qed.

Lemma wp_op_step {A} k s0 s (m : W A) :
  advanced k s0 s -> (forall s1, pres (frame op_keeps s1) m) ->
  wp m (fun _ s' => advanced k s0 s') (fun _ _ => True) s.
Proof.
  intros Ha Hm. eapply wp_mono; [apply (Hm s); reflexivity| |done].
  intros a s' Hf. by eapply advanced_frame.
Qed.

(** The contexts after a decoding step. *)
Record decoded s s' : Prop := mkDecoded {
  de_tables : tables_ok s';
  de_ids : unique_ids s';
  de_list g : g ∈ gen_ctx_list s' -> g ∈ gen_ctx_list s;
  de_ctxs g c' : g ∈ gen_ctx_list s' -> gen_ctxs s' !! g = Some c' ->
    ctx_finish c' = false /\ below c' /\ exists c, gen_ctxs s !! g = Some c /\ onward 1 c c';
}.

(** The result of two facts about one run. *)
Lemma wp_and {A} (m : W A) (P Q : A -> model -> Prop) s :
  wp m P (fun _ _ => True) s -> wp m Q (fun _ _ => True) s ->
  wp m (fun a s' => P a s' /\ Q a s') (fun _ _ => True) s.
Proof. unfold wp. destruct (m s) as [[a|e] s']; auto. Qed.

(** A call of operators that must succeed before the step goes on. *)
Lemma wp_calls k s0 s m (next : W AsStatus) Q :
  advanced k s0 s -> (forall s1, pres (frame op_keeps s1) m) -> plain m ->
  (forall s1, advanced k s0 s1 -> wp next (fun st s' => st = ALLSPARK_STREAMING -> Q s')
    (fun _ _ => True) s1) ->
  wp (if_success m next) (fun st s' => st = ALLSPARK_STREAMING -> Q s') (fun _ _ => True) s.
Proof.
  intros Ha Hm Hp Hn. unfold if_success. apply wp_bind.
  eapply wp_mono; [apply wp_and; [by apply (wp_op_step k s0 s)|apply Hp]| |done].
  intros st s1 [H1 Hst]. case_bool_decide; [by apply Hn|by apply wp_ret].
Qed.

Lemma wp_last_calls s0 s :
  tables_ok s0 -> unique_ids s0 -> is_context s0 = false -> not_streaming ->
  Exists tests_finish (post_graph graph_ops_) -> advanced 1 s0 s ->
  wp (if_success (call_all ctx_ (post_graph graph_ops_) [CallReshape; CallForward])
       (if_success (stop_all_finished ctx_ graph_ops_) (mret ALLSPARK_STREAMING)))
    (fun st s' => st = ALLSPARK_STREAMING -> decoded s0 s') (fun _ _ => True) s.
Proof.
  intros Ht Hu Hctx Hk Hpost Ha. unfold if_success. apply wp_bind.
  assert (Hc : is_context s = false) by by rewrite (av_context _ _ _ Ha).
  eapply wp_mono; [apply wp_and; [by apply wp_call_all_finish|by apply plain_call_all]| |done].
  intros st s1 [Hl Hst]. case_bool_decide as Hs; [|by apply wp_ret].
  destruct (Hl Hs) as [Hf Hlim]. assert (H1 := advanced_frame _ _ _ _ Ha Hf).
  assert (Hu1 := unique_ids_progress _ _ (av_progress _ _ _ H1) Ht Hu).
  assert (Ht1 := pg_tables _ _ _ _ _ (av_progress _ _ _ H1)).
  apply wp_bind. eapply wp_mono; [apply wp_and; [|apply wp_and; [|]]| |done].
  { unfold stop_all_finished. apply wp_bind, wp_gets.
    apply (wp_stop_finished (length (gen_ctx_list s1))); [done..|].
    intros i g c Hg _ Hi. apply lookup_lt_Some in Hg. lia. }
  { unfold stop_all_finished. apply wp_bind, wp_gets. by apply plain_stop_finished. }
  { eapply wp_mono; [exact (stop_all_finished_progress ctx_ graph_ops_ _ _ _ s0 s1
      (av_progress _ _ _ H1))|intros a s2 H2; exact H2|done]. }
  intros st2 s2 (Hfew & Hst2 & Hp2). case_bool_decide as Hs2; [|by apply wp_ret].
  apply wp_ret. intros _. destruct (Hfew Hs2) as [[Hx Hin] Hfin].
  split.
  - apply Hp2.
  - by eapply unique_ids_progress.
  - intros g Hg. rewrite <- (av_list _ _ _ H1). auto.
  - intros g c' Hg Hc'. assert (Hg1 := Hg). apply list_elem_of_lookup in Hg1 as [i Hi].
    split; [by eapply Hfin|].
    destruct (map_rel_lookup_r _ _ _ _ _ Hx Hc') as (c1 & Hc1 & [Er Ec El Es Eb Ep Ef]).
    assert (Hgl : g ∈ gen_ctx_list s1) by auto.
    assert (Hg1 := Hgl). apply list_elem_of_lookup in Hg1 as [j Hj].
    split.
    + destruct (Hlim j g c1 Hj Hc1) as [H|H]; [rewrite <- Ef in H; by rewrite (Hfin i g c' Hi Hc') in H|].
      unfold below in *. by rewrite Es, Eb, Ec.
    + rewrite (av_list _ _ _ H1) in Hgl. destruct (av_ctxs _ _ _ H1 g c1 Hgl Hc1) as (c0 & Hc0 & []).
      exists c0. split; [done|]. split; congruence.
Qed.

Lemma wp_GenerateContinueDecoder s :
  tables_ok s -> unique_ids s -> is_context s = false -> not_streaming ->
  Exists tests_finish (post_graph graph_ops_) ->
  wp (GenerateContinueDecoder ctx_ graph_ops_)
    (fun st s' => st = ALLSPARK_STREAMING -> decoded s s') (fun _ _ => True) s.
Proof.
  intros Ht Hu Hctx Hk Hpost. unfold GenerateContinueDecoder, count_unfinished.
  apply wp_bind, wp_modify, wp_bind, wp_gets. set (s1 := set_unfinished _ s).
  assert (H1 : advanced 0 s s1).
  { assert (Hs := still_set_unfinished s s (i32 (Z.of_nat (length (pending_request_queue_ s))
      + GetGenCtxListSize s)) (still_refl s Ht)).
    assert (H := advanced_refl s Ht). destruct H. split; try done. by apply still_progress. }
  assert (Hlen : GetGenCtxListSize s1 = GetGenCtxListSize s) by done.
  clearbody s1. rewrite Hlen. case_match; [by apply wp_ret|].
  apply wp_bind. eapply wp_mono; [apply (wp_op_step 0 s s1); [done|]| |done].
  { intros s2. apply flags_frame. eauto 10. }
  clear s1 H1 Hlen. intros ? s1 H1. apply wp_bind.
  eapply wp_mono; [apply (wp_op_step 0 s s1); [done|intros s2; apply reset_layer_cache_frame]| |done].
  clear s1 H1. intros ? s1 H1.
  apply (wp_calls 0 s s1); [done|intros s2; apply alloc_decoder_frame| |].
  { by apply plain_alloc_decoder. }
  clear s1 H1. intros s1 H1.
  apply (wp_calls 0 s s1); [done|intros s2; apply call_all_frame|by apply plain_call_all|].
  clear s1 H1. intros s1 H1. apply wp_bind.
  eapply wp_mono; [by apply (wp_advance s s1)| |done]. clear s1 H1. intros ? s1 H1.
  apply (wp_calls 1 s s1); [done|intros s2; apply call_all_frame|by apply plain_call_all|].
  clear s1 H1. intros s1 H1.
  apply (wp_calls 1 s s1); [done|intros s2; apply call_all_frame|by apply plain_call_all|].
  clear s1 H1. intros s1 H1. by apply wp_last_calls.
Qed.

(** Steps of decoding as long as a context runs. *)
Fixpoint decode_rounds (n : nat) : W bool :=
  match n with
  | O => mret true
  | Datatypes.S n' =>
      k ← gets GetGenCtxListSize;
      if k =? 0 then mret true else
      AllocDecoderMemory ctx_;;
      st ← GenerateContinueDecoder ctx_ graph_ops_;
      if bool_decide (st = ALLSPARK_STREAMING) then decode_rounds n' else mret false
  end.

(** No context has more than [n] steps left. *)
Definition steps_left (n : Z) s : Prop :=
  listed (fun _ c => max_length (ctx_gen_cfg c) - 1 - (step c + in_length_bias c) <= n) s.

Lemma steps_left_check n s :
  forallb (fun g => match gen_ctxs s !! g with
    | Some c => max_length (ctx_gen_cfg c) - 1 - (step c + in_length_bias c) <=? n
    | None => true end) (gen_ctx_list s) = true -> steps_left n s.
Proof.
  rewrite forallb_forall. intros H i g c Hg Hc. apply list_elem_of_lookup_2, list_elem_of_In in Hg.
  specialize (H g Hg). rewrite Hc in H. lia.
Qed.

Lemma wp_alloc_round s :
  tables_ok s -> unique_ids s ->
  wp (AllocDecoderMemory ctx_)
    (fun _ s' => tables_ok s' /\ unique_ids s' /\ is_context s' = false /\
       gen_ctx_list s' = gen_ctx_list s /\ gen_ctxs s' = gen_ctxs s)
    (fun _ _ => True) s.
Proof.
  intros Ht Hu.
  assert (H1 := AllocDecoderMemory_still ctx_ s s (still_refl s Ht)).
  assert (H2 : wp (AllocDecoderMemory ctx_) (fun _ s' => is_context s' = false /\
      gen_ctx_list s' = gen_ctx_list s /\ gen_ctxs s' = gen_ctxs s) (fun _ _ => True) s).
  { set (I := fun s' => is_context s' = false /\
      gen_ctx_list s' = gen_ctx_list s /\ gen_ctxs s' = gen_ctxs s).
    assert (Hd : forall B (m : M D B), pres I (on_dev m)) by (intros; apply pres_zoom; by intros ? ? []).
    assert (Hn : forall gs, pres I (new_spans ctx_ gs)) by (intros; apply new_spans_pres).
    unfold AllocDecoderMemory. apply wp_bind, wp_modify.
    match goal with |- wp ?m _ _ ?s1 => assert (pres I m) as Hp by pres_tac end.
    eapply wp_mono; [apply Hp; done|done|done]. }
  unfold wp in *. destruct (AllocDecoderMemory ctx_ s) as [[a|e] s']; [|done].
  split; [apply H1|]. split; [|done]. by apply (unique_ids_progress s), Hu; [apply still_progress|].
Qed.

Lemma wp_decode_rounds n s :
  not_streaming -> Exists tests_finish (post_graph graph_ops_) ->
  tables_ok s -> unique_ids s -> steps_left (Z.of_nat n) s -> (n = O -> gen_ctx_list s = []) ->
  wp (decode_rounds n) (fun b s' => b = true -> gen_ctx_list s' = []) (fun _ _ => True) s.
Proof.
  intros Hk Hpost. revert s. induction n as [|n IH]; intros s Ht Hu Hl H0; cbn [decode_rounds].
  { apply wp_ret. auto. }
  apply wp_bind, wp_gets. destruct (Z.eqb_spec (GetGenCtxListSize s) 0) as [Hz|Hz].
  { apply wp_ret. intros _. unfold GetGenCtxListSize in Hz. by destruct (gen_ctx_list s). }
  apply wp_bind. eapply wp_mono; [by apply wp_alloc_round| |done].
  intros ? s1 (Ht1 & Hu1 & Hc1 & Hg1 & Hx1). apply wp_bind.
  eapply wp_mono; [by apply wp_GenerateContinueDecoder| |done].
  intros st s2 H2. case_bool_decide as Hst; [|by apply wp_ret].
  destruct (H2 Hst) as [Ht2 Hu2 Hlist Hctx].
  assert (Hleft : forall i g c, gen_ctx_list s2 !! i = Some g -> gen_ctxs s2 !! g = Some c ->
    below c /\ max_length (ctx_gen_cfg c) - 1 - (step c + in_length_bias c) <= Z.of_nat n).
  { intros i g c Hg Hc. apply list_elem_of_lookup_2 in Hg.
    destruct (Hctx g c Hg Hc) as (_ & Hb & c0 & Hc0 & [Er Ec Eb Es]). split; [done|].
    apply Hlist in Hg. rewrite Hg1 in Hg. rewrite Hx1 in Hc0.
    apply list_elem_of_lookup in Hg as [j Hj]. specialize (Hl j g c0 Hj Hc0). simpl in Hl.
    rewrite Ec, Eb, Es. lia. }
  apply IH; [done|done| |].
  - intros i g c Hg Hc. by eapply Hleft.
  - intros ->. destruct (gen_ctx_list s2) as [|g l] eqn:Hnil; [done|]. exfalso.
    destruct (tk_ctx _ Ht2 0%nat g) as (c & Hc & _); [by rewrite Hnil|].
    destruct (Hleft 0%nat g c eq_refl Hc) as [Hb Hle]. unfold below in Hb. lia.
Qed.

(** C5. Decoding ends, if no two requests that wait or run have the same id: when
    no running request has more than [n] tokens left up to its maximal length,
    then after [n] completed decoding steps no request runs any more, whatever the
    operators compute.  It takes that the end of generation is tested after the
    model and that no other operator answers [ALLSPARK_STREAMING]; without distinct
    ids a finished request may go on, as [twin_request_stopped] shows. *)
Theorem decode_terminates n s s' :
  not_streaming -> Exists tests_finish (post_graph graph_ops_) ->
  tables_ok s -> unique_ids s -> (0 < n)%nat -> steps_left (Z.of_nat n) s ->
  decode_rounds n s = (Ok true, s') -> gen_ctx_list s' = [].
Proof.
  intros Hk Hp Ht Hu Hn Hl Hrun.
  assert (H := wp_decode_rounds n s Hk Hp Ht Hu Hl ltac:(lia)). unfold wp in H.
  rewrite Hrun in H. by apply H.
Qed.

(** C29. If no two requests that wait or run have the same id, a decoding step that
    completes moves every context that goes on by one token, stops every context
    that has finished, and leaves each below the maximal length of its request.
    The end of generation must be tested after the model, and no other operator
    may answer [ALLSPARK_STREAMING]. *)
Theorem decode_step_correct s s' :
  not_streaming -> Exists tests_finish (post_graph graph_ops_) ->
  tables_ok s -> unique_ids s -> is_context s = false ->
  GenerateContinueDecoder ctx_ graph_ops_ s = (Ok ALLSPARK_STREAMING, s') -> decoded s s'.
Proof.
  intros Hk Hp Ht Hu Hc Hrun.
  assert (H := wp_GenerateContinueDecoder s Ht Hu Hc Hk Hp). unfold wp in H.
  rewrite Hrun in H. by apply H.
Qed.
End decode.
