(* ===== verification/SchedulerTheorems.v ===== *)
(** What the operations of the scheduler do, one by one: admission, chunked
    prefill, stopping a request; a small device with its operators on which
    the properties are shown to apply; and runs on which the scheduler does not
    do what it means to. *)
From stdpp Require Import base list gmap strings relations.
From S2P Require Import Prelude FrameManager ModelState Scheduler SchedulerFrame SchedulerProofs.
From S2P Require Import SchedulerSteps SchedulerSpec SchedulerDecode.

Section theorems.
Context {D R K : Type} `{MD : ModelDevice D R} `{KS : Kernels D R K}.
Variable ctx_ : DeviceContext.
Variable graph_ops_ : Graph K.
Abbreviation model := (AsModel D R).
Implicit Types s : model.

(** ** Stopping a request *)

Inductive stop_outcome (id : string) s : AsStatus -> model -> Prop :=
  | stop_waiting s' :
      (exists r, r ∈ pending_request_queue_ s /\ has_id s id r) ->
      sublist (pending_request_queue_ s') (pending_request_queue_ s) ->
      (forall r, r ∈ pending_request_queue_ s' <->
         r ∈ pending_request_queue_ s /\ ~ has_id s id r) ->
      (forall r, r ∈ pending_request_queue_ s -> has_id s id r ->
         exists q, requests s' !! r = Some q /\ status q = GenerateFinished) ->
      gen_ctx_list s' = gen_ctx_list s -> running s' = running s ->
      map_rel req_le (requests s) (requests s') ->
      all_request_map_ s' = all_request_map_ s -> tables_ok s' -> stop_outcome id s ALLSPARK_SUCCESS s'
  | stop_running st g r s' :
      (forall r, r ∈ pending_request_queue_ s -> ~ has_id s id r) ->
      r ∈ running s -> has_id s id r -> stopped g r s s' -> stop_outcome id s st s'
  | stop_unknown :
      (forall r, r ∈ pending_request_queue_ s ++ running s -> ~ has_id s id r) ->
      stop_outcome id s ALLSPARK_SUCCESS s.

Lemma StopRequest_correct' id s st s' :
  tables_ok s -> StopRequest ctx_ graph_ops_ id s = (Ok st, s') -> stop_outcome id s st s'.
Proof.
  intros Ht Hrun. assert (H := wp_StopRequest ctx_ graph_ops_ id s Ht).
  unfold wp in H. rewrite Hrun in H.
  destruct H as [(-> & rest & m' & -> & Hok)|(Hnp & [(-> & -> & Hnr)|(g & r & Hr & Hid & Hst)])].
  - assert (Hpr := split_progress _ _ _ _ _ _ _ _ _ (progress_refl s Ht) Hok).
    apply stop_waiting; try done.
    + by eapply split_some.
    + apply Hok.
    + intros r. by eapply split_keeps.
    + intros r. by eapply split_stopped.
    + apply Hok.
    + apply Hpr.
  - apply stop_unknown. intros r [Hr|Hr]%elem_of_app; auto.
  - by eapply stop_running.
Qed.

(** C15. [StopRequest] takes every waiting request with the id out of the queue and
    marks it finished, keeping the order of the others; if none waits it ends one
    running request with the id, giving back its context; otherwise it changes
    nothing.  The tables stay consistent. *)
Theorem StopRequest_correct id s st s' :
  tables_ok s -> StopRequest ctx_ graph_ops_ id s = (Ok st, s') -> stop_outcome id s st s'.
Proof. apply StopRequest_correct'. Qed.

(** ** Admission *)

Lemma context_admission' b s st s' :
  tables_ok s -> GenerateContinueContext ctx_ graph_ops_ b s = (Ok st, s') ->
  context_outcome ctx_ (fun _ => True) b s st s'.
Proof.
  intros Ht Hrun.
  assert (H := wp_GenerateContinueContext ctx_ graph_ops_ (fun _ => True) b s).
  unfold wp at 2 in H. rewrite Hrun in H. apply H; [|done].
  intros d l n. unfold wp. by destruct (RefOnly l n d) as [[|]].
Qed.


(** C33. Chunked prefill ends: each step that answers [ALLSPARK_CHUNK_PREFILL]
    advances the head of the queue by at least the maximal prefill length, and
    never past its input. *)
Theorem chunk_prefill_progress b s s' :
  (forall (d : D) l n, wp (RefOnly l n) (fun a _ => 0 <= fst (fst a)) (fun _ _ => True) d) ->
  tables_ok s ->
  GenerateContinueContext ctx_ graph_ops_ b s = (Ok ALLSPARK_CHUNK_PREFILL, s') ->
  exists r q q', head (pending_request_queue_ s) = Some r /\
    requests s !! r = Some q /\ requests s' !! r = Some q' /\ input_len q' = input_len q /\
    prefill_chunk_len q + GetModelMaxPrefillLength ctx_ <= prefill_chunk_len q' < input_len q'.
Proof.
  intros Hplen Ht Hrun.
  assert (H := wp_GenerateContinueContext ctx_ graph_ops_ (fun n => 0 <= n) b s Hplen Ht).
  unfold wp in H. rewrite Hrun in H.
  inversion H as [| | |r q q1 q' ? Hi Hh _ _ Hq [Hl Hres] (x & Hx & Hp) _ Hq' Hc Hend]; subst.
  destruct (pg_requests _ _ _ _ _ Hp _ _ Hq) as (q2 & Hq2 & Hle).
  replace q2 with q' in Hle by congruence.
  exists r, q, q'. split; [done|]. split; [done|]. split; [done|].
  split; [apply Hle|]. unfold chunk_end in Hend. lia.
Qed.

(** ** A prompt that does not fit *)

(** A request whose input is longer than its own maximal length is not
    rejected: the context phase ends before any operator runs, without a change of
    the requests or of the device. *)
Theorem oversized_context_skipped s g c q x v :
  GetGenCtx (context_batch s) s = (Ok g, s) -> gen_ctxs s !! g = Some c ->
  requests s !! request c = Some q -> interim q !! "new_input_ids" = Some x ->
  tensors s !! x = Some v -> u64 (max_length (ctx_gen_cfg c)) < u64 (dim1 v) ->
  exists s', runDecoderContext ctx_ graph_ops_ s = (Ok ALLSPARK_PARAM_ERROR, s') /\
    requests s' = requests s /\ tensors s' = tensors s /\ dev s' = dev s.
Proof.
  intros Hg Hc Hq Hx Hv Hlen.
  assert (H : wp (runDecoderContext ctx_ graph_ops_)
    (fun st s' => st = ALLSPARK_PARAM_ERROR /\ requests s' = requests s /\
       tensors s' = tensors s /\ dev s' = dev s) (fun _ _ => False) s).
  { unfold runDecoderContext, reset_layer_cache. apply wp_bind, wp_bind, wp_modify, wp_modify.
    set (s1 := set_cache_set _ (set_cache_set _ s)).
    apply wp_bind, wp_gets, wp_bind. change (context_batch s1) with (context_batch s).
    assert (Hg1 : GetGenCtx (context_batch s) s1 = (Ok g, s1)).
    { unfold GetGenCtx in *. simpl. destruct (_ <? 0); [done|].
      destruct (gen_ctx_list s !! _); congruence. }
    unfold wp at 1. rewrite Hg1.
    apply wp_bind, wp_deref; simpl; rewrite Hc; [|done]. intros c1 [= <-].
    apply wp_bind, wp_deref; simpl; rewrite Hq; [|done]. intros q1 [= <-].
    apply wp_bind. unfold at_. rewrite Hx. apply wp_ret.
    apply wp_bind, wp_deref; simpl; rewrite Hv; [|done]. intros v1 [= <-].
    apply wp_bind, wp_bind, wp_deref; simpl; rewrite Hc; [|done]. intros c1 [= <-]. apply wp_modify.
    destruct (Z.ltb_spec (u64 (max_length (ctx_gen_cfg c))) (u64 (dim1 v))); [|lia].
    unfold ErrorProcess. by apply wp_bind, wp_modify, wp_ret. }
  unfold wp in H. destruct (runDecoderContext ctx_ graph_ops_ s) as [[st|e] s']; [|done].
  destruct H as (-> & ?). by exists s'.
Qed.
End theorems.

(** * A small device

    It has a clock, free frames, on demand a prefix cache that never hits, and
    known LoRAs; the caches of a context are the length of its sequence.  Its
    first operator generates the token 7. *)
Module Demo.
Record Dev := mkDev { clock : Z; frames : Z; prefix : bool; loras : list string }.

#[local] Instance device : ModelDevice Dev Z := {|
  now d := (clock d, mkDev (clock d + 1) (frames d) (prefix d) (loras d));
  IsLoraExists d name := bool_decide (name ∈ loras d);
  has_frame_manager _ := true;
  has_prefix_cache := prefix;
  CountFreeFrame := frames;
  task_order _ n := seq 0 n;
  new_caches _ _ := mret 0;
  InitLayer _ _ _ _ _ := mret ALLSPARK_SUCCESS;
  GetSeqLength n _ := Ok n;
  FreeCacheLists := mret tt;
  ResetVirtualCaches := mret tt;
  RefOnly _ _ := mret (0, 0, []);
  RefFill ids _ _ := mret (0, [], ids);
  Insert _ _ _ _ _ := mret [];
  UnRef _ := mret tt;
  UpdateCnt _ _ := mret tt;
  EvictUnrefered _ := mret tt;
  EvictAllUnrefered := mret tt |}.

Inductive Op := Generate | Nothing.

#[local] Instance operators : Kernels Dev Z Op := {|
  kernel_call k op s :=
    match k, op with
    | Generate, CallForward => (Ok ALLSPARK_SUCCESS, mkEffect (dev s)
        (<[100%nat := mkTensor 1 16 (replicate 16 (Some 7))]> (tensors s)) 101
        ((fun q => <["generated_ids" := 100%nat]> (interim q)) <$> requests s) ∅
        (cache_set_map s))
    | _, _ => (Ok ALLSPARK_SUCCESS, mkEffect (dev s) (tensors s) 0 ∅ ∅ (cache_set_map s))
    end;
  is_span_attn k := match k with Nothing => true | Generate => false end |}.

Definition graph : Graph Op :=
  mkGraph [Kernel Generate] [Kernel Nothing] [] [UpdateIdOp "update_id"] [].
(** Batch 2, at most 16 tokens, 4 of them in one prefill. *)
Definition ctx (dt : DeviceType) : DeviceContext := mkCtx dt 0 16 2 4 4 1 1 1.
Definition cfg (n : Z) : GenerateConfig := mkGenCfg true 1 true 0 [] n "".
Definition model : AsModel Dev Z := AsModel_new (mkDev 0 100 false []).

(** A request of [len] tokens and of at most [n] with the output; its tensors
    are the pointers [p] and [p + 1], itself is [p + 2]. *)
Definition request (id : string) (len n : Z) (p : nat) : list event :=
  [EvInput (mkTensor 1 len (replicate (Z.to_nat len) (Some 5))); EvInput (mkTensor 1 0 []);
   EvArrive id {["input_ids" := p]} {["generated_ids_global" := S p]} (cfg n)].

Definition after (dt : DeviceType) (es : list event) : AsModel Dev Z :=
  snd (exec (ctx dt) graph es model).

Lemma after_tables dt es : tables_ok (after dt es).
Proof. apply exec_tables, new_tables_ok. Qed.

Definition step_of (dt : DeviceType) (e : event) (s : AsModel Dev Z) : res AsStatus * AsModel Dev Z :=
  run_event (ctx dt) graph e s.

Lemma run_eq {A B} (x : A * B) a : fst x = a -> x = (a, snd x).
Proof. destruct x. by intros <-. Qed.

Definition status_of (s : AsModel Dev Z) (r : nat) : option (GenerateRequestStatus * bool) :=
  (fun q => (status q, finish q)) <$> requests s !! r.
Definition steps_of (s : AsModel Dev Z) : list (option (nat * Z * bool)) :=
  (fun g => (fun c => (ModelState.request c, step c, ctx_finish c)) <$> gen_ctxs s !! g) <$> gen_ctx_list s.

(** Two requests wait, then one runs. *)
Definition two : list event := request "a" 3 8 0 ++ request "b" 3 8 3.

Lemma StopRequest_correct_witness :
  stop_outcome "b" (after CPU (two ++ [EvContext true])) ALLSPARK_SUCCESS
    (snd (StopRequest (ctx CPU) graph "b" (after CPU (two ++ [EvContext true])))).
Proof.
  refine (StopRequest_correct (ctx CPU) graph "b" _ _ _ (after_tables _ _) (run_eq _ _ _)).
  vm_compute. reflexivity.
Defined.


Lemma chunk_prefill_progress_witness :
  exists r q q', head (pending_request_queue_ (after CUDA (request "a" 14 16 0))) = Some r /\
    requests (after CUDA (request "a" 14 16 0)) !! r = Some q /\
    requests (snd (GenerateContinueContext (ctx CUDA) graph true (after CUDA (request "a" 14 16 0))))
      !! r = Some q' /\ input_len q' = input_len q /\
    prefill_chunk_len q + 4 <= prefill_chunk_len q' < input_len q'.
Proof.
  refine (chunk_prefill_progress (ctx CUDA) graph true _ _ _ (after_tables _ _) (run_eq _ _ _)).
  - intros d l n. vm_compute. discriminate.
  - vm_compute. reflexivity.
Defined.

(** *** Decoding *)
Lemma operators_not_streaming : not_streaming (D := Dev) (R := Z) (K := Op).
Proof. intros [] [] s; done. Qed.

Lemma graph_tests_finish : Exists tests_finish (post_graph graph).
Proof. by constructor. Qed.

(** Request 2 runs, alone. *)
Definition decoding : AsModel Dev Z :=
  after CPU (request "a" 3 8 0 ++ [EvContext true; EvAlloc]).

Lemma decoding_unique : unique_ids decoding.
Proof.
  assert (H : pending_request_queue_ decoding ++ running decoding = [2%nat])
    by (vm_compute; reflexivity).
  intros r1 r2 q1 q2. rewrite H. intros H1 H2 _ _ _.
  apply list_elem_of_singleton in H1, H2. congruence.
Qed.

Lemma decoding_left : steps_left 5 decoding.
Proof. apply steps_left_check. vm_compute. reflexivity. Qed.

Lemma decode_terminates_witness :
  gen_ctx_list (snd (decode_rounds (ctx CPU) graph 5 decoding)) = [].
Proof.
  refine (decode_terminates (ctx CPU) graph 5 decoding _ operators_not_streaming
    graph_tests_finish (after_tables _ _) decoding_unique _ decoding_left (run_eq _ _ _)).
  - lia.
  - vm_compute. reflexivity.
Defined.

Lemma decode_step_correct_witness :
  decoded decoding (snd (GenerateContinueDecoder (ctx CPU) graph decoding)).
Proof.
  refine (decode_step_correct (ctx CPU) graph decoding _ operators_not_streaming
    graph_tests_finish (after_tables _ _) decoding_unique _ (run_eq _ _ _)).
  - vm_compute. reflexivity.
  - vm_compute. reflexivity.
Defined.

(** A prompt of 9 tokens for 8, ready for its context phase. *)
Definition oversized : AsModel Dev Z :=
  snd ((g ← buildGenContext (ctx CPU) 2; PushBackGenCtx g;; prepare (ctx CPU) g 2;;
        modify (set_context true 0)) (after CPU (request "a" 9 8 0))).

Lemma oversized_context_skipped_witness : exists s',
  runDecoderContext (ctx CPU) graph oversized = (Ok ALLSPARK_PARAM_ERROR, s') /\
  requests s' = requests oversized /\ tensors s' = tensors oversized /\ dev s' = dev oversized.
Proof.
  let c := eval vm_compute in (gen_ctxs oversized !! 3%nat) in
  let q := eval vm_compute in (requests oversized !! 2%nat) in
  let v := eval vm_compute in (tensors oversized !! 0%nat) in
  lazymatch constr:((c, q, v)) with
  | (Some ?c, Some ?q, Some ?v) =>
      refine (oversized_context_skipped (ctx CPU) graph oversized 3 c q 0 v _ _ _ _ _ _)
  end; vm_compute; reflexivity.
Defined.

(** *** Where the scheduler does not do what it means to *)

(** A request of 9 tokens that may have 8: no operator runs for it, yet it is
    reported as prefilled, stays among the running, and the next decoding step
    throws. *)
Lemma oversized_request_runs :
  let s := after CPU (request "a" 9 8 0 ++ [EvContext true]) in
  status_of s 2 = Some (ContextFinished, false) /\ steps_of s = [Some (2%nat, 0, false)] /\
  (exists s1, AllocDecoderMemory (ctx CPU) s = (Ok ALLSPARK_SUCCESS, s1) /\
     fst (GenerateContinueDecoder (ctx CPU) graph s1) = Err OutOfRange).
Proof.
  split; [vm_compute; reflexivity|]. split; [vm_compute; reflexivity|]. eexists.
  split; [apply run_eq; vm_compute; reflexivity|]. vm_compute. reflexivity.
Qed.

(** Two requests with the same id, the first running, the second waiting: when
    the first reaches its maximal length of 5, the second is taken out and
    reported finished without having begun, while the first runs on for another
    token. *)
Theorem twin_request_stopped :
  let s := after CPU (request "a" 3 5 0 ++ request "a" 3 8 3 ++ [EvContext true; EvAlloc; EvDecode]) in
  pending_request_queue_ s = [] /\ status_of s 5 = Some (GenerateFinished, false) /\
  steps_of s = [Some (2%nat, 4, true)] /\
  status_of s 2 = Some (ContextFinished, false).
Proof. vm_compute. done. Qed.

(** An id that a client chose with "warmup" in it turns chunked prefill off:
    14 tokens start at once where 4 are allowed. *)
Lemma warmup_id_not_chunked :
  fst (step_of CUDA (EvContext true) (after CUDA (request "my-warmup-test" 14 16 0)))
    = Ok ALLSPARK_SUCCESS /\
  fst (step_of CUDA (EvContext true) (after CUDA (request "my-test" 14 16 0)))
    = Ok ALLSPARK_CHUNK_PREFILL.
Proof. vm_compute. done. Qed.

(** A request stopped while it waits ends with its status set but [finish]
    unset. *)
Lemma stopped_waiting_not_finished :
  status_of (after CPU (two ++ [EvStop "b"])) 5 = Some (GenerateFinished, false).
Proof. vm_compute. done. Qed.
End Demo.
