(* ===== verification/RequestCheck.v ===== *)
(** The check of a request before it is started ([InputParamsVerify] of
    src/csrc/common/as_engine.cpp): lengths against the engine's limits, and
    sampling parameters, which are IEEE floating point numbers. *)
From Stdlib Require Import ZArith SpecFloat.
From stdpp Require Import base list gmap strings.
From S2P Require Import Prelude FrameManager ModelState.

(** * Floating point

    A [float] parameter is a binary32 number, the literals it is compared with
    are binary64; [top_p < 0] compares floats, which is the same. *)
Definition to_double (f : spec_float) : spec_float :=
  match f with
  | S754_finite s m e => binary_normalize 53 1024 (if s then Zneg m else Zpos m) e s
  | _ => f
  end.
Definition lt_double (f d : spec_float) : bool := SFltb (to_double f) d.
Definition gt_double (f d : spec_float) : bool := SFltb d (to_double f).

(** 0.0, 1.0, 2.0, -2.0 and 1e-6 as doubles. *)
Definition d0 : spec_float := S754_zero false.
Definition d1 : spec_float := S754_finite false (2 ^ 52) (-52).
Definition d2 : spec_float := S754_finite false (2 ^ 52) (-51).
Definition dm2 : spec_float := S754_finite true (2 ^ 52) (-51).
Definition d1em6 : spec_float := S754_finite false 0x10C6F7A0B5ED8D (-72).
(** 1.0, 1e-5 and 0.99 as floats. *)
Definition f1 : spec_float := S754_finite false (2 ^ 23) (-23).
Definition SAMPLING_EPS : spec_float := S754_finite false 0xA7C5AC (-40).
Definition f0_99 : spec_float := S754_finite false 0xFD70A4 (-24).

(** The literals are the numbers closest to their values. *)
Definition of_int (prec emax : Z) (n : positive) : spec_float :=
  binary_normalize prec emax (Zpos n) 0 false.
Lemma literals :
  d1em6 = SFdiv 53 1024 (of_int 53 1024 1) (of_int 53 1024 1000000) /\
  SAMPLING_EPS = SFdiv 24 128 (of_int 24 128 1) (of_int 24 128 100000) /\
  f0_99 = SFdiv 24 128 (of_int 24 128 99) (of_int 24 128 100).
Proof. by vm_compute. Qed.

(** * Requests *)

(** The fields of [GenerateConfig] that only sampling reads. *)
Record SamplingConfig := mkSampling {
  temperature : spec_float;
  top_k : Z;
  top_p : spec_float;
  repetition_penalty : spec_float;
  presence_penalty : spec_float;
  frequency_penalty : spec_float;
  logprobs : bool;
  top_logprobs : Z;
}.

Definition set_sampling (t : spec_float) (k : Z) (p : spec_float) (c : SamplingConfig) :=
  mkSampling t k p (repetition_penalty c) (presence_penalty c) (frequency_penalty c)
    (logprobs c) (top_logprobs c).

(** [AsEngine::RequestContent] of a text request; a tensor of its inputs has
    the shape [[batch, length]]. *)
Record RequestContent := mkContent {
  content_inputs : gmap string Tensor;
  config : GenerateConfig;
  sampling : SamplingConfig;
}.

(** The limits of the engine; 0 stands for none. *)
Record EngineLimits := mkLimits {
  limit_registered : bool;
  limit_is_generate : bool;
  limit_max_length : Z;
  limit_max_batch : Z;
}.
Definition engine_max_top_logprobs_ : Z := 10.

(** Temperatures that stand for greedy sampling, and a [top_p] of 1. *)
Definition adjust_greedy (c : SamplingConfig) : SamplingConfig :=
  if SFltb (temperature c) SAMPLING_EPS then set_sampling f1 1 d0 c else c.
Definition adjust_top_p (c : SamplingConfig) : SamplingConfig :=
  if SFltb (SFabs (SFsub 53 1024 (to_double (top_p c)) d1)) d1em6
  then set_sampling (temperature c) (top_k c) f0_99 c else c.

(** A missing [input_ids] is a null pointer that is read. *)
Definition InputParamsVerify (lim : EngineLimits) (r : RequestContent)
    : res (AsStatus * RequestContent) :=
  let answer st c := Ok (st, mkContent (content_inputs r) (config r) c) in
  let c := sampling r in
  if negb (limit_registered lim) then answer ALLSPARK_PARAM_ERROR c
  else if negb (limit_is_generate lim) then answer ALLSPARK_INVALID_CALL_ERROR c
  else if negb (limit_max_length lim =? 0) && (limit_max_length lim <? max_length (config r)) then
    answer ALLSPARK_EXCEED_LIMIT_ERROR c
  else match content_inputs r !! "input_ids" with
  | None => Err UB
  | Some ids =>
  let input_length := dim1 ids in
  if negb (limit_max_length lim =? 0) && (limit_max_length lim - 2 <? input_length) then
    answer ALLSPARK_EXCEED_LIMIT_ERROR c
  else if input_length <=? 0 then answer ALLSPARK_EXCEED_LIMIT_ERROR c
  else
  let input_batch := dim0 ids in
  if top_k c <? 0 then answer ALLSPARK_PARAM_ERROR c
  else if lt_double (top_p c) d0 || gt_double (top_p c) d1 then answer ALLSPARK_PARAM_ERROR c
  else
  let c1 := adjust_top_p (adjust_greedy c) in
  if negb (limit_max_batch lim =? 0) && (limit_max_batch lim <? input_batch) then
    answer ALLSPARK_EXCEED_LIMIT_ERROR c1
  else if logprobs c1 && (engine_max_top_logprobs_ <? top_logprobs c1) then
    answer ALLSPARK_PARAM_ERROR c1
  else if lt_double (repetition_penalty c1) d0 || gt_double (repetition_penalty c1) d2 then
    answer ALLSPARK_PARAM_ERROR c1
  else if lt_double (presence_penalty c1) dm2 || gt_double (presence_penalty c1) d2 then
    answer ALLSPARK_PARAM_ERROR c1
  else if lt_double (frequency_penalty c1) dm2 || gt_double (frequency_penalty c1) d2 then
    answer ALLSPARK_PARAM_ERROR c1
  else answer ALLSPARK_SUCCESS c1
  end.

(** * What an accepted request satisfies *)

(** [f] lies between two doubles, or is no number. *)
Definition within (lo hi f : spec_float) : Prop :=
  to_double f = S754_nan \/
  (SFleb lo (to_double f) = true /\ SFleb (to_double f) hi = true).

Lemma SFcompare_nan (f g : spec_float) :
  SFcompare f g = None -> f = S754_nan \/ g = S754_nan.
Proof.
  destruct f as [[]|[]| |[]], g as [[]|[]| |[]]; simpl; try done; auto;
    repeat case_match; done.
Qed.

Lemma SFcompare_antisym (f g : spec_float) :
  SFcompare g f = CompOpp <$> SFcompare f g.
Proof.
  destruct f as [[]|[]| |[] m e], g as [[]|[]| |[] m' e']; simpl; try done;
    rewrite (Z.compare_antisym e e'); destruct (e ?= e')%Z; simpl; try done;
    change (Pos.compare_cont Eq) with Pos.compare; rewrite (Pos.compare_antisym m m');
    by destruct (m ?= m')%positive.
Qed.

(** A number that is not below another is at least as large. *)
Lemma not_below f g : f <> S754_nan -> g <> S754_nan -> SFltb f g = false -> SFleb g f = true.
Proof.
  intros Hf Hg. unfold SFltb, SFleb. rewrite (SFcompare_antisym f g).
  destruct (SFcompare f g) as [[]|] eqn:H; simpl; try done.
  by apply SFcompare_nan in H as [|].
Qed.

Lemma not_outside lo hi f : lo <> S754_nan -> hi <> S754_nan ->
  lt_double f lo || gt_double f hi = false -> within lo hi f.
Proof.
  intros Hlo Hhi [H1 H2]%orb_false_iff. unfold within, lt_double, gt_double in *.
  assert (Hd : to_double f = S754_nan \/ to_double f <> S754_nan).
  { destruct (to_double f); [by right..|by left|by right]. }
  destruct Hd as [|Hf]; [by left|right]. split; by apply not_below.
Qed.

(** The adjusted temperature is not below the threshold of greedy sampling. *)
Lemma adjusted_temperature c :
  SFltb (temperature (adjust_top_p (adjust_greedy c))) SAMPLING_EPS = false.
Proof.
  unfold adjust_top_p. destruct (SFltb (SFabs _) d1em6); simpl; unfold adjust_greedy;
    destruct (SFltb (temperature c) SAMPLING_EPS) eqn:H; done.
Qed.

Lemma adjusted_fields c :
  let c1 := adjust_top_p (adjust_greedy c) in
  repetition_penalty c1 = repetition_penalty c /\ presence_penalty c1 = presence_penalty c /\
  frequency_penalty c1 = frequency_penalty c /\ logprobs c1 = logprobs c /\
  top_logprobs c1 = top_logprobs c /\ (0 <= top_k c -> 0 <= top_k c1).
Proof.
  unfold adjust_top_p, adjust_greedy. destruct (SFltb (temperature c) _);
    destruct (SFltb (SFabs _) d1em6); simpl; repeat split; lia.
Qed.

(** [top_p] after the adjustment: 0, 0.99, or as it was, and then not within
    1e-6 of 1. *)
Lemma adjusted_top_p c :
  let p := top_p (adjust_top_p (adjust_greedy c)) in
  p = d0 \/ p = f0_99 \/
  (p = top_p c /\ SFltb (SFabs (SFsub 53 1024 (to_double p) d1)) d1em6 = false).
Proof.
  unfold adjust_top_p, adjust_greedy. destruct (SFltb (temperature c) _); simpl; [by left|].
  destruct (SFltb (SFabs _) d1em6) eqn:H; simpl; [by right; left|by right; right].
Qed.

(** C37. A request that passes the check respects the limits of the engine, and its
    sampling parameters, as the engine goes on with them, lie in the ranges the
    code documents unless they are not numbers. *)
Theorem InputParamsVerify_accepts lim r r' :
  InputParamsVerify lim r = Ok (ALLSPARK_SUCCESS, r') ->
  content_inputs r' = content_inputs r /\ config r' = config r /\
  (limit_max_length lim <> 0 -> max_length (config r') <= limit_max_length lim) /\
  (exists ids, content_inputs r' !! "input_ids" = Some ids /\ 0 < dim1 ids /\
     (limit_max_length lim <> 0 -> dim1 ids <= limit_max_length lim - 2) /\
     (limit_max_batch lim <> 0 -> dim0 ids <= limit_max_batch lim)) /\
  0 <= top_k (sampling r') /\ SFltb (temperature (sampling r')) SAMPLING_EPS = false /\
  within d0 d1 (top_p (sampling r')) /\ within d0 d2 (repetition_penalty (sampling r')) /\
  within dm2 d2 (presence_penalty (sampling r')) /\
  within dm2 d2 (frequency_penalty (sampling r')) /\
  (logprobs (sampling r') = true -> top_logprobs (sampling r') <= engine_max_top_logprobs_).
Proof.
  unfold InputParamsVerify. intros H. cbv zeta in H.
  destruct (content_inputs r !! "input_ids") as [ids|] eqn:Hids;
    [|by repeat (case_match; try done)].
  destruct (limit_registered lim); [|done]. destruct (limit_is_generate lim); [|done].
  cbn [negb] in H. destruct (negb (_ =? 0) && (_ <? max_length _)) eqn:H1; [done|].
  destruct (negb (_ =? 0) && (_ <? dim1 ids)) eqn:H2; [done|].
  destruct (dim1 ids <=? 0) eqn:H3; [done|]. destruct (top_k (sampling r) <? 0) eqn:H4; [done|].
  destruct (lt_double _ d0 || _) eqn:H5; [done|].
  set (c1 := adjust_top_p (adjust_greedy (sampling r))) in *.
  destruct (negb (_ =? 0) && (_ <? dim0 ids)) eqn:H6; [done|].
  destruct (logprobs c1 && _) eqn:H7; [done|]. destruct (lt_double (repetition_penalty c1) _ || _) eqn:H8; [done|].
  destruct (lt_double (presence_penalty c1) _ || _) eqn:H9; [done|].
  destruct (lt_double (frequency_penalty c1) _ || _) eqn:H10; [done|].
  injection H as [= <-]. simpl.
  destruct (adjusted_fields (sampling r)) as (Hr & Hp & Hf & Hl & Ht & Hk).
  split; [done|]. split; [done|]. split; [lia|]. split.
  { exists ids. repeat split; [done|lia..]. }
  split; [apply Hk; lia|]. split; [apply adjusted_temperature|]. split.
  { destruct (adjusted_top_p (sampling r)) as [Hq|[Hq|[Hq _]]]; fold c1 in Hq; rewrite Hq.
    - right. by vm_compute.
    - right. by vm_compute.
    - by apply not_outside. }
  split; [by apply not_outside|]. split; [by apply not_outside|]. split; [by apply not_outside|].
  intros Hlp. rewrite Hlp in H7. unfold engine_max_top_logprobs_ in *. simpl in H7. lia.
Qed.

(** A request of 5 tokens with the default configuration of 20. *)
Definition default_request (temp p : spec_float) : RequestContent :=
  mkContent {["input_ids" := mkTensor 1 5 (replicate 5 (Some 1))]}
    (mkGenCfg true 1 true 102 [] 20 "")
    (mkSampling temp 50 p f1 d0 d0 false 0).
Definition default_limits : EngineLimits := mkLimits true true 2048 32.

Lemma InputParamsVerify_accepts_witness :
  InputParamsVerify default_limits (default_request f1 f1) =
    Ok (ALLSPARK_SUCCESS, default_request f1 f0_99) /\
  within d0 d1 f0_99.
Proof.
  assert (H : InputParamsVerify default_limits (default_request f1 f1) =
    Ok (ALLSPARK_SUCCESS, default_request f1 f0_99)) by by vm_compute.
  split; [exact H|].
  refine (proj1 (proj2 (proj2 (proj2 (proj2 (proj2 (proj2
    (InputParamsVerify_accepts default_limits (default_request f1 f1) _ H)))))))).
Defined.

(** A temperature and a [top_p] that are not numbers are accepted as they are. *)
Lemma nan_accepted :
  InputParamsVerify default_limits (default_request S754_nan S754_nan) =
    Ok (ALLSPARK_SUCCESS, default_request S754_nan S754_nan).
Proof. by vm_compute. Qed.
