(* ===== verification/EngineState.v ===== *)
(** The state of the engine (src/csrc/common/as_engine_impl.h,
    engine_runtime.h, engine_control_message.h): its workers, the request
    handles, result queues and promises that clients and the model loop share,
    the control messages, the state of the loop thread and of the threads that
    call the API. *)
From stdpp Require Import base list gmap strings gmultiset.
From S2P Require Import Prelude FrameManager ResultQueue ModelState.

(** * Messages

    [EngineControlMessage] with its [EngineControlMessageId]; each message
    carries what its constructor in the code is given.  Promises, handles and
    queues are pointers. *)
Inductive EngineControlMessage :=
  | MsgGracefulStopModel (promise : nat)
  | MsgStopModel (promise : nat)
  | MsgStartModel (promise : nat)
  | MsgStartRequest (promise : nat) (request_uuid : string) (handle queue : nat)
      (config : GenerateConfig)
  | MsgSyncRequest (promise : nat) (request_uuid : string)
  | MsgSyncAllRequest (promise : nat)
  | MsgStopRequest (promise : nat) (request_uuid : string)
  | MsgReleaseRequest (promise : nat) (request_uuid : string).

Definition promise_of (m : EngineControlMessage) : nat :=
  match m with
  | MsgGracefulStopModel p | MsgStopModel p | MsgStartModel p | MsgStartRequest p _ _ _ _
  | MsgSyncRequest p _ | MsgSyncAllRequest p | MsgStopRequest p _ | MsgReleaseRequest p _ => p
  end.

(** * Shared objects *)

(** [RequestHandle]: the lengths [FetchGenerationResult] works on, and for each
    rank the copy of the client's input ids. *)
Record RequestHandle := mkRequestHandle {
  request_uuid : string;
  lengths : ResultQueue.RequestHandle;
  continue_count : Z;
  inputs_internal : list nat;
}.

Definition set_lengths (l : ResultQueue.RequestHandle) (h : RequestHandle) : RequestHandle :=
  mkRequestHandle (request_uuid h) l (continue_count h) (inputs_internal h).
Definition set_continue_count (n : Z) (h : RequestHandle) : RequestHandle :=
  mkRequestHandle (request_uuid h) (lengths h) n (inputs_internal h).

(** The heap of handles, queues and promises; a promise is [None] until its
    value is set. *)
Record Objects := mkObjects {
  handles : gmap nat RequestHandle;
  queues : gmap nat ResultQueue.ResultQueue;
  promises : gmap nat (option AsStatus);
  next_obj : nat;
}.

(** * The loop thread and the callers *)

(** [ModelControlState] *)
Record ModelControlState := mkControl {
  msg_queue : list EngineControlMessage;
  request_handle_map : gmap string nat;
  result_queue_map : gmap string nat;
  model_stopping : bool;
  model_stopped : bool;
}.

(** Where the loop thread is: at the test of [looping], handling messages,
    before the context phase, before the decoding loop, before the second
    [UpdateResult], before the test for a graceful stop, or gone. *)
Inductive LoopPoint :=
  | AtTop | AtMessages | AtContext | AtContinue | AtUpdate | AtEnd | Exited.

#[export] Instance LoopPoint_eq_dec : EqDecision LoopPoint.
Proof. solve_decision. Defined.

(** The local variables of [ModelRunningThread]; of the message of a graceful
    stop only the promise is used. *)
Record LoopThread := mkLoop {
  point : LoopPoint;
  looping : bool;
  no_execution : bool;
  graceful_stop_phase : bool;
  graceful_final_released : bool;
  graceful_stop_msg : option nat;
  synchronizing : bool;
  deferred_promise : option nat;
  sync_pending_set : gset string;
}.

Definition LoopThread_new : LoopThread := mkLoop AtTop true false false false None false None ∅.

(** Who holds [lora_lock_], which every call that starts, stops, releases or
    syncs a request keeps to its end: nobody, a StartRequest that has seen that
    the model is not stopping, or a call that waits for its promise. *)
Inductive Caller :=
  | NoCaller
  | Starting (msg : EngineControlMessage) (lora : string)
  | WaitReply (promise : nat).

(** Where [StopModel] is, which takes no lock: not called, before its enqueue,
    waiting, or returned. *)
Inductive Stopper :=
  | NotStopping
  | StopFlagged (promise : nat)
  | StopWaiting (promise : nat)
  | StopReturned (st : AsStatus).

(** [AsEngineImpl] with one model.  [loras_in_use_] is the model's entry, which
    exists once a LoRA was used; [random_draws] counts the calls of the random
    engine. *)
Record Engine (D R : Type) := mkEngine {
  workers_ : list (AsModel D R);
  objects : Objects;
  model_state : ModelControlState;
  thread : LoopThread;
  lora_lock_ : Caller;
  stopper : Stopper;
  loras_in_use_ : option (gmultiset string);
  lora_use_count_ : Z;
  random_draws : nat;
  total_prefill_token : Z;
  total_generated_token : Z;
}.
Arguments mkEngine {D R}. Arguments workers_ {D R}. Arguments objects {D R}.
Arguments model_state {D R}. Arguments thread {D R}. Arguments lora_lock_ {D R}.
Arguments stopper {D R}. Arguments loras_in_use_ {D R}. Arguments lora_use_count_ {D R}.
Arguments random_draws {D R}. Arguments total_prefill_token {D R}.
Arguments total_generated_token {D R}.

(** ** Updates *)
Definition set_handles f (o : Objects) := mkObjects (f (handles o)) (queues o) (promises o) (next_obj o).
Definition set_queues f (o : Objects) := mkObjects (handles o) (f (queues o)) (promises o) (next_obj o).
Definition set_promises f (o : Objects) := mkObjects (handles o) (queues o) (f (promises o)) (next_obj o).
Definition set_next_obj n (o : Objects) := mkObjects (handles o) (queues o) (promises o) n.

Definition set_msg_queue l (c : ModelControlState) :=
  mkControl l (request_handle_map c) (result_queue_map c) (model_stopping c) (model_stopped c).
Definition set_maps hm qm (c : ModelControlState) :=
  mkControl (msg_queue c) hm qm (model_stopping c) (model_stopped c).
Definition set_stopping b (c : ModelControlState) :=
  mkControl (msg_queue c) (request_handle_map c) (result_queue_map c) b (model_stopped c).
Definition set_stopped b (c : ModelControlState) :=
  mkControl (msg_queue c) (request_handle_map c) (result_queue_map c) (model_stopping c) b.

Definition set_point p (t : LoopThread) :=
  mkLoop p (looping t) (no_execution t) (graceful_stop_phase t) (graceful_final_released t)
    (graceful_stop_msg t) (synchronizing t) (deferred_promise t) (sync_pending_set t).
Definition set_looping b (t : LoopThread) :=
  mkLoop (point t) b (no_execution t) (graceful_stop_phase t) (graceful_final_released t)
    (graceful_stop_msg t) (synchronizing t) (deferred_promise t) (sync_pending_set t).
Definition set_no_execution b (t : LoopThread) :=
  mkLoop (point t) (looping t) b (graceful_stop_phase t) (graceful_final_released t)
    (graceful_stop_msg t) (synchronizing t) (deferred_promise t) (sync_pending_set t).
Definition set_graceful b m (t : LoopThread) :=
  mkLoop (point t) (looping t) (no_execution t) b (graceful_final_released t)
    m (synchronizing t) (deferred_promise t) (sync_pending_set t).
Definition set_final_released b (t : LoopThread) :=
  mkLoop (point t) (looping t) (no_execution t) (graceful_stop_phase t) b
    (graceful_stop_msg t) (synchronizing t) (deferred_promise t) (sync_pending_set t).
Definition set_sync b p l (t : LoopThread) :=
  mkLoop (point t) (looping t) (no_execution t) (graceful_stop_phase t)
    (graceful_final_released t) (graceful_stop_msg t) b p l.

Section engine.
Context {D R : Type}.
Abbreviation t := (Engine D R).

Definition set_workers ws (s : t) : t :=
  mkEngine ws (objects s) (model_state s) (thread s) (lora_lock_ s) (stopper s)
    (loras_in_use_ s) (lora_use_count_ s) (random_draws s) (total_prefill_token s)
    (total_generated_token s).
Definition upd_objects f (s : t) : t :=
  mkEngine (workers_ s) (f (objects s)) (model_state s) (thread s) (lora_lock_ s) (stopper s)
    (loras_in_use_ s) (lora_use_count_ s) (random_draws s) (total_prefill_token s)
    (total_generated_token s).
Definition upd_control f (s : t) : t :=
  mkEngine (workers_ s) (objects s) (f (model_state s)) (thread s) (lora_lock_ s) (stopper s)
    (loras_in_use_ s) (lora_use_count_ s) (random_draws s) (total_prefill_token s)
    (total_generated_token s).
Definition upd_thread f (s : t) : t :=
  mkEngine (workers_ s) (objects s) (model_state s) (f (thread s)) (lora_lock_ s) (stopper s)
    (loras_in_use_ s) (lora_use_count_ s) (random_draws s) (total_prefill_token s)
    (total_generated_token s).
Definition set_caller c (s : t) : t :=
  mkEngine (workers_ s) (objects s) (model_state s) (thread s) c (stopper s)
    (loras_in_use_ s) (lora_use_count_ s) (random_draws s) (total_prefill_token s)
    (total_generated_token s).
Definition set_stopper c (s : t) : t :=
  mkEngine (workers_ s) (objects s) (model_state s) (thread s) (lora_lock_ s) c
    (loras_in_use_ s) (lora_use_count_ s) (random_draws s) (total_prefill_token s)
    (total_generated_token s).
Definition set_loras m n (s : t) : t :=
  mkEngine (workers_ s) (objects s) (model_state s) (thread s) (lora_lock_ s) (stopper s)
    m n (random_draws s) (total_prefill_token s) (total_generated_token s).
Definition set_draws n (s : t) : t :=
  mkEngine (workers_ s) (objects s) (model_state s) (thread s) (lora_lock_ s) (stopper s)
    (loras_in_use_ s) (lora_use_count_ s) n (total_prefill_token s) (total_generated_token s).
Definition set_totals a b (s : t) : t :=
  mkEngine (workers_ s) (objects s) (model_state s) (thread s) (lora_lock_ s) (stopper s)
    (loras_in_use_ s) (lora_use_count_ s) (random_draws s) a b.

(** A started model: its loop runs and nobody has called. *)
Definition Engine_new (ws : list (AsModel D R)) : t :=
  mkEngine ws (mkObjects ∅ ∅ ∅ 0) (mkControl [] ∅ ∅ false false) LoopThread_new NoCaller
    NotStopping None 0 0 0 0.
End engine.

(** * What the engine runs on *)

(** The order in which an [unordered_map] is walked is not specified. *)
Class HashOrder := {
  map_order : gmap string nat -> list (string * nat);
  map_order_perm m : map_order m ≡ₚ map_to_list m;
}.

(** [AsSchedulingStrategy] and [AsEvictionStrategy] of interface/allspark.h. *)
Inductive AsSchedulingStrategy := ContextPriority | Balance.
Inductive AsEvictionStrategy := MaxLength | Random.

#[export] Instance AsSchedulingStrategy_eq_dec : EqDecision AsSchedulingStrategy.
Proof. solve_decision. Defined.
#[export] Instance AsEvictionStrategy_eq_dec : EqDecision AsEvictionStrategy.
Proof. solve_decision. Defined.

(** The configuration of the engine: what [model_irs_] answers for the model,
    the strategies of [device_ctx_], and the outputs of the random engine. *)
Record EngineConfig := mkEngineConfig {
  model_registered : bool;
  is_generate : bool;
  engine_max_length_ : Z;
  GetSchedulingStrategy : AsSchedulingStrategy;
  GetEvictionStrategy : AsEvictionStrategy;
  random_engine : nat -> Z;
}.
