(* ===== verification/Engine.v ===== *)
(** The engine (src/csrc/common/as_engine.cpp, as_engine_request.cpp,
    as_engine_model_lifecycle.cpp, engine_worker.cpp): what it does on all
    ranks, the handling of control messages, the results of requests, running
    out of memory, the model loop, and the calls of the API. *)
From stdpp Require Import base list gmap strings gmultiset relations.
From S2P Require Import Prelude FrameManager RequestCheck ResultQueue ModelState Scheduler EngineState.

Section engine.
Context {D R K : Type} `{MD : ModelDevice D R} `{KS : Kernels D R K} `{HO : HashOrder}.
(** Of each rank: its device and its operators. *)
Variable ctx_ : nat -> DeviceContext.
Variable graph_ops_ : nat -> Graph K.
Variable conf : EngineConfig.
Abbreviation W := (M (AsModel D R)).
Abbreviation E := (M (Engine D R)).

(** * Shared objects *)
Definition obj {A} (get : Objects -> gmap nat A) (p : nat) : E A := fun s =>
  match get (objects s) !! p with Some a => (Ok a, s) | None => (Err UB, s) end.
Definition get_handle (p : nat) : E RequestHandle := obj handles p.
(** A client's pointer to a handle is good as long as the table of handles or a
    message on its way owns the handle; after that it dangles. *)
Definition handle_owned (h : nat) (s : Engine D R) : bool :=
  bool_decide (h ∈ (map_to_list (request_handle_map (model_state s))).*2) ||
  existsb (fun m => match m with
                    | MsgStartRequest _ _ h' _ _ => bool_decide (h' = h)
                    | _ => false end) (msg_queue (model_state s)).
Definition use_handle (h : nat) : E RequestHandle :=
  owned ← gets (handle_owned h); if owned : bool then get_handle h else throw UB.
Definition get_queue (p : nat) : E ResultQueue.ResultQueue := obj queues p.
Definition upd_handle (p : nat) (f : RequestHandle -> RequestHandle) : E unit :=
  h ← get_handle p; modify (upd_objects (set_handles <[p := f h]>)).
Definition upd_queue (p : nat) (f : ResultQueue.ResultQueue -> ResultQueue.ResultQueue) : E unit :=
  q ← get_queue p; modify (upd_objects (set_queues <[p := f q]>)).
Definition new_obj : E nat :=
  p ← gets (fun s => next_obj (objects s));
  modify (upd_objects (set_next_obj (S p)));; mret p.
Definition new_handle (h : RequestHandle) : E nat :=
  p ← new_obj; modify (upd_objects (set_handles <[p := h]>));; mret p.
Definition new_queue : E nat :=
  p ← new_obj; modify (upd_objects (set_queues <[p := ResultQueue_new]>));; mret p.
Definition new_promise : E nat :=
  p ← new_obj; modify (upd_objects (set_promises <[p := None]>));; mret p.

(** [promise::set_value]: a second value is a [std::future_error]. *)
Definition set_value (p : nat) (st : AsStatus) : E unit :=
  v ← obj promises p;
  match v with
  | None => modify (upd_objects (set_promises <[p := Some st]>))
  | Some _ => throw StdException
  end.

(** * All ranks

    The workers run in threads of their own, each on its own state, and the
    engine waits for all of them. *)
Fixpoint on_ranks {A} (i : nat) (m : nat -> W A) (ws : list (AsModel D R))
    : list (res A) * list (AsModel D R) :=
  match ws with
  | [] => ([], [])
  | w :: ws' =>
      let '(r, w1) := m i w in
      let '(rs, ws1) := on_ranks (S i) m ws' in (r :: rs, w1 :: ws1)
  end.
Definition enqueue_ranks {A} (m : nat -> W A) : E (list (res A)) := fun s =>
  let '(rs, ws) := on_ranks 0 m (workers_ s) in (Ok rs, set_workers ws s).

(** What ends the process whatever catches it. *)
Definition fatal (e : exn) : bool :=
  match e with CheckFailed | UB | Hang => true | _ => false end.

(** [try { return m; } catch (std::exception& e) { return h(e); }] *)
Definition caught (h : exn -> res AsStatus) (r : res AsStatus) : res AsStatus :=
  match r with
  | Err e => if fatal e then Err e else h e
  | _ => r
  end.
(** [e.what()] names one of the two memory errors. *)
Definition what_memory (e : exn) : bool :=
  bool_decide (e = AsException ALLSPARK_MEMORY_ERROR)
  || bool_decide (e = AsException ALLSPARK_CACHE_MEMORY_OUT).
Definition memory_out (e : exn) : res AsStatus :=
  if what_memory e then Ok ALLSPARK_CACHE_MEMORY_OUT else Ok ALLSPARK_RUNTIME_ERROR.
Definition runtime_error (e : exn) : res AsStatus := Ok ALLSPARK_RUNTIME_ERROR.

(** The last status that is not [good], over all ranks. *)
Fixpoint collect (good : AsStatus -> bool) (rs : list (res AsStatus)) (failed_ret : AsStatus)
    : E AsStatus :=
  match rs with
  | [] => mret failed_ret
  | Err e :: _ => throw e
  | Ok st :: rs' => collect good rs' (if good st then failed_ret else st)
  end.
Definition is_success (st : AsStatus) : bool := bool_decide (st = ALLSPARK_SUCCESS).

(** The first status other than success. *)
Fixpoint first_failure (rs : list (res AsStatus)) : E AsStatus :=
  match rs with
  | [] => mret ALLSPARK_SUCCESS
  | Err e :: _ => throw e
  | Ok st :: rs' => if is_success st then first_failure rs' else mret st
  end.

Definition check_model (k : E AsStatus) : E AsStatus :=
  if negb (model_registered conf) then mret ALLSPARK_PARAM_ERROR else k.
Definition check_generate (k : E AsStatus) : E AsStatus :=
  check_model (if negb (is_generate conf) then mret ALLSPARK_INVALID_CALL_ERROR else k).

Definition RunTextGenerationContext (is_new_context : bool) : E AsStatus :=
  check_generate (
    rs ← enqueue_ranks (fun i => GenerateContinueContext (ctx_ i) (graph_ops_ i) is_new_context);
    collect is_success (caught memory_out <$> rs) ALLSPARK_SUCCESS).

(** A memory error that reaches the collecting loop is thrown on; other
    exceptions become a status. *)
Definition continue_error (e : exn) : res AsStatus :=
  if bool_decide (e = AsException ALLSPARK_MEMORY_ERROR) then Err e
  else Ok ALLSPARK_RUNTIME_ERROR.
Definition RunTextGenerationContinue : E AsStatus :=
  check_generate (
    allocs ← enqueue_ranks (fun i => AllocDecoderMemory (ctx_ i));
    ret ← first_failure (caught memory_out <$> allocs);
    if negb (is_success ret) then mret ret else
    rs ← enqueue_ranks (fun i => GenerateContinue (ctx_ i) (graph_ops_ i));
    collect AS_STATUS_OK (caught continue_error <$> rs) ALLSPARK_SUCCESS).

Definition StopRequestByRequestID (request_id_ : string) : E AsStatus :=
  check_model (
    rs ← enqueue_ranks (fun i => StopRequest (ctx_ i) (graph_ops_ i) request_id_);
    collect AS_STATUS_OK (caught runtime_error <$> rs) ALLSPARK_SUCCESS).
Definition ReleaseRequestByRequestID (request_id_ : string) : E AsStatus :=
  check_model (
    rs ← enqueue_ranks (fun _ => ReleaseRequest request_id_);
    collect AS_STATUS_OK (caught runtime_error <$> rs) ALLSPARK_SUCCESS).

(** The output tensor has room for [engine_max_length_] tokens, of unknown
    value; only rank 0 writes or reads it. *)
Definition StartRequestImpl (h : nat) (gen_cfg : GenerateConfig) : E AsStatus :=
  hd ← get_handle h;
  rs ← enqueue_ranks (fun i =>
    let n := engine_max_length_ conf in
    match inputs_internal hd !! i with
    | None => throw UB
    | Some x =>
        y ← new_tensor (mkTensor 1 n (replicate (Z.to_nat n) None));
        Scheduler.StartRequestImpl (request_uuid hd) {["input_ids" := x]}
          {["generated_ids_global" := y]} gen_cfg
    end);
  collect AS_STATUS_OK (caught runtime_error <$> rs) ALLSPARK_SUCCESS.

(** A read of the first worker. *)
Definition on_worker0 {A} (m : W A) : E A := fun s =>
  match workers_ s with
  | [] => (Err UB, s)
  | w :: ws => let '(r, w1) := m w in (r, set_workers (w1 :: ws) s)
  end.
Definition GetUnFinishedRequest : E Z := on_worker0 (gets current_unfinished_request_).

(** * Results *)

(** [FetchGenerationResultAndIncreaseCounter] on the host tensor of the
    request; log probabilities are left out. *)
Definition FetchGenerationResultAndIncreaseCounter (q : Request) (h : nat)
    : E (option GeneratedElements) :=
  v ← on_worker0 (x ← at_ (outputs q) "generated_ids_global"; tensor x);
  hd ← get_handle h;
  let host := take (Z.to_nat (dim1 v)) (cells v) in
  let old_length := context_length (lengths hd) + generate_length (lengths hd) in
  if Count v =? 0 then mret None
  else match mapM id (drop (Z.to_nat old_length) host) with
  | None => throw UB
  | Some _ =>
      match FetchGenerationResult (default 0 <$> host) false [] []
              (ModelState.prefix_len q) (ModelState.prefix_len_gpu q) (lengths hd) with
      | None => throw UB
      | Some (ele, l) => upd_handle h (set_lengths l);; mret ele
      end
  end.

Definition updateSyncStatus (uuid : string) : E unit :=
  modify (upd_thread (fun t =>
    if synchronizing t
    then set_sync true (deferred_promise t) (sync_pending_set t ∖ {[uuid]}) t else t)).

(** The LoRA of a finished request is no longer in use; the count goes down
    whether or not the name was there. *)
Definition release_lora (lora : string) : E unit :=
  modify (fun s =>
    if 0 <? lora_use_count_ s then
      match loras_in_use_ s with
      | Some l => if bool_decide (lora = "") then s
                  else set_loras (Some (l ∖ {[+ lora +]})) (lora_use_count_ s - 1) s
      | None => s
      end
    else s).

(** The part of [UpdateResult] for a request that has begun. *)
Definition update_begun (uuid : string) (h p : nat) (rq : Request) : E unit :=
  upd_handle h (fun hd => set_continue_count (u64 (continue_count hd + 1)) hd);;
  hd ← get_handle h;
  when (continue_count hd =? 1)
    (modify (fun s => set_totals (total_prefill_token s + input_len rq) (total_generated_token s) s);;
     upd_queue p (SetStatus Generating));;
  new_ele ← FetchGenerationResultAndIncreaseCounter rq h;
  match new_ele with
  | Some e =>
      modify (fun s => set_totals (total_prefill_token s)
        (total_generated_token s + Z.of_nat (length (ids_from_generate e))) s);;
      upd_queue p (AppendGenerateElement e)
  | None => mret tt
  end;;
  q ← get_queue p;
  (if bool_decide (status_ q = GenerateInterrupted) then updateSyncStatus uuid
   else when (finish rq) (upd_queue p (SetStatus GenerateFinished);; updateSyncStatus uuid));;
  when (bool_decide (status rq = GenerateFinished)) (release_lora (lora_name (gen_cfg rq))).

Definition update_entry (entry : string * nat) : E unit :=
  let h := snd entry in
  hd ← get_handle h;
  let uuid := request_uuid hd in
  qm ← gets (fun s => result_queue_map (model_state s));
  match qm !! uuid with
  | None => mret tt
  | Some p =>
      q ← get_queue p;
      if finished (status_ q) then updateSyncStatus uuid
      else
        r ← on_worker0 (GetRequestById uuid);
        match r with
        | None => mret tt
        | Some r =>
            rq ← on_worker0 (req r);
            match status rq with
            | Init => mret tt
            | GenerateInterrupted =>
                upd_queue p (SetStatus GenerateInterrupted);; updateSyncStatus uuid
            | _ => update_begun uuid h p rq
            end
        end
  end.

Definition UpdateResult : E unit :=
  m ← gets (fun s => request_handle_map (model_state s));
  for_each (map_order m) update_entry.

(** * Running the model *)

(** Contexts are started until no more can start; at most one round for each
    pending request, and one that finds none. *)
Fixpoint run_contexts (fuel : nat) (is_new_context : bool) : E AsStatus :=
  match fuel with
  | O => throw Hang
  | S fuel' =>
      st ← RunTextGenerationContext is_new_context;
      match st with
      | ALLSPARK_SUCCESS => run_contexts fuel' false
      | ALLSPARK_CHUNK_PREFILL | ALLSPARK_EMPTY_REQUEST => mret ALLSPARK_SUCCESS
      | _ => mret st
      end
  end.
Definition RunEngineContext : E AsStatus :=
  match GetSchedulingStrategy conf with
  | ContextPriority =>
      fuel ← gets (fun s => match workers_ s with
                            | [] => O | w :: _ => S (length (pending_request_queue_ w)) end);
      run_contexts fuel true
  | Balance => RunTextGenerationContext true
  end.

(** The index of the first largest entry. *)
Definition longest (lens : list Z) : nat :=
  snd (foldl (fun '(i, x) n =>
         (S i, if default 0 (lens !! x) <? n then i else x)) (0%nat, 0%nat) lens).

Definition random_output : E Z :=
  k ← gets random_draws; modify (set_draws (S k));; mret (random_engine conf k).

(** The random engine is a [mt19937]; [n] is the number of entries. *)
Definition ChooseVictimRequest (request_ids : list string) (request_lens : list Z) (n : Z)
    : E string :=
  x ← (match GetEvictionStrategy conf with
       | MaxLength => mret (longest request_lens)
       | Random => rand ← random_output; mret (Z.to_nat (rand mod n))
       end);
  match request_ids !! x with Some id => mret id | None => throw UB end.

(** The requests whose queue is [Generating], with their lengths. *)
Fixpoint generating (entries : list (string * nat)) : E (list (string * Z)) :=
  match entries with
  | [] => mret []
  | (_, h) :: entries' =>
      hd ← get_handle h;
      qm ← gets (fun s => result_queue_map (model_state s));
      match qm !! request_uuid hd with
      | None => throw UB
      | Some p =>
          q ← get_queue p;
          rest ← generating entries';
          let l := lengths hd in
          mret (if bool_decide (status_ q = Generating)
                then (request_uuid hd, i32 (context_length l + generate_length l)) :: rest
                else rest)
      end
  end.

(** Out of cache memory: one generating request is stopped and interrupted.
    [false] when there is none. *)
Definition interrupt_victim : E bool :=
  m ← gets (fun s => request_handle_map (model_state s));
  l ← generating (map_order m);
  if bool_decide (l = []) then mret false
  else
    victim ← ChooseVictimRequest (fst <$> l) (snd <$> l) (Z.of_nat (length l));
    StopRequestByRequestID victim;;
    qm ← gets (fun s => result_queue_map (model_state s));
    match qm !! victim with
    | None => throw UB
    | Some p => upd_queue p (SetStatus GenerateInterrupted);; mret true
    end.

(** The decoding loop; at most one round for each request, and one that finds
    no more to stop.  Any other error aborts the process. *)
Fixpoint continue_loop (fuel : nat) : E unit :=
  match fuel with
  | O => throw Hang
  | S fuel' =>
      st ← RunTextGenerationContinue;
      match st with
      | ALLSPARK_SUCCESS | ALLSPARK_EMPTY_REQUEST => mret tt
      | ALLSPARK_CACHE_MEMORY_OUT =>
          stopped ← interrupt_victim;
          if stopped : bool then continue_loop fuel' else mret tt
      | _ => throw CheckFailed
      end
  end.
Definition RunContinue : E unit :=
  fuel ← gets (fun s => S (size (request_handle_map (model_state s))));
  continue_loop fuel.

(** * Control messages *)

(** [unordered_map::emplace] keeps an entry that is there. *)
Definition emplace (k : string) (p : nat) (m : gmap string nat) : gmap string nat :=
  match m !! k with Some _ => m | None => <[k := p]> m end.

(** [approx]: whether [msg_queue.size_approx()] is more than 0. *)
Definition handle_message (approx : bool) (m : EngineControlMessage) : E unit :=
  t ← gets thread;
  match m with
  | MsgGracefulStopModel p =>
      modify (upd_thread (set_graceful true (Some p)));;
      modify (upd_control (set_stopping true))
  | MsgStopModel p =>
      modify (upd_thread (fun t => set_no_execution true (set_looping false t)));;
      set_value p ALLSPARK_SUCCESS
  | MsgStartModel _ => mret tt
  | MsgStartRequest p uuid h q cfg =>
      if graceful_stop_phase t then
        modify (upd_thread (set_no_execution true));;
        set_value p ALLSPARK_REQUEST_DENIED
      else
        modify (upd_control (fun c => set_maps (emplace uuid h (request_handle_map c))
                                        (emplace uuid q (result_queue_map c)) c));;
        hm ← gets (fun s => request_handle_map (model_state s));
        match hm !! uuid with
        | None => throw OutOfRange
        | Some h' => StartRequestImpl h' cfg;; mret tt
        end
  | MsgStopRequest p uuid =>
      ret ← StopRequestByRequestID uuid;
      set_value p ret
  | MsgSyncRequest p uuid =>
      modify (upd_thread (fun t => set_sync true (Some p) ({[uuid]} ∪ sync_pending_set t) t))
  | MsgSyncAllRequest p =>
      hm ← gets (fun s => request_handle_map (model_state s));
      for_each (map_order hm) (fun '(_, h) =>
        hd ← get_handle h;
        modify (upd_thread (fun t => set_sync (synchronizing t) (deferred_promise t)
                                       ({[request_uuid hd]} ∪ sync_pending_set t) t)));;
      modify (upd_thread (fun t => set_sync true (Some p) (sync_pending_set t) t))
  | MsgReleaseRequest p uuid =>
      ret_stop ← StopRequestByRequestID uuid;
      ret_release ← ReleaseRequestByRequestID uuid;
      modify (upd_control (fun c =>
        match result_queue_map c !! uuid with
        | Some _ => set_maps (delete uuid (request_handle_map c))
                      (delete uuid (result_queue_map c)) c
        | None => c
        end));;
      left ← GetUnFinishedRequest;
      when (graceful_stop_phase t && (left =? 0) && negb approx)
        (modify (upd_thread (set_final_released true)));;
      set_value p (if is_success ret_stop then ret_release else ret_stop)
  end.

(** * The model loop

    One step of [ModelRunningThread] from one point to the next; waiting for a
    message leaves the state as it is.  [approx] and [approx'] are what the first
    and the second call of [msg_queue.size_approx()] of the step tell: an estimate,
    which may miss messages or count some that are gone. *)
Definition goto (p : LoopPoint) : E unit := modify (upd_thread (set_point p)).

Definition leave_messages : E unit :=
  t ← gets thread; goto (if no_execution t then AtTop else AtContext).

(** A message is taken and handled, or [none] is done when there is none. *)
Definition take_message (approx' : bool) (none : E unit) : E unit :=
  c ← gets model_state;
  match msg_queue c with
  | m :: rest => modify (upd_control (set_msg_queue rest));; handle_message approx' m
  | [] => none
  end.

Definition message_step (approx approx' : bool) : E unit :=
  t ← gets thread;
  c ← gets model_state;
  if synchronizing t then leave_messages
  else if approx then take_message approx' leave_messages
  else if negb (bool_decide (sync_pending_set t = ∅)) then leave_messages
  else
    left ← GetUnFinishedRequest;
    if negb (graceful_stop_phase t) && (left =? 0)
       && (size (request_handle_map c) =? 0)%nat && negb (model_stopping c)
    then take_message approx' (mret tt)
    else leave_messages.

(** The promise of a sync is set once every request it waits for is done. *)
Definition finish_sync : E unit :=
  t ← gets thread;
  when (synchronizing t && bool_decide (sync_pending_set t = ∅))
    (modify (upd_thread (fun t => set_sync false (deferred_promise t) ∅ t));;
     match deferred_promise t with
     | Some p => set_value p ALLSPARK_SUCCESS
     | None => throw UB
     end;;
     modify (upd_thread (fun t => set_sync false None ∅ t))).

(** A graceful stop ends the loop when nothing is left to do; requests that
    were not released make it an error. *)
Definition end_step (approx : bool) : E unit :=
  t ← gets thread;
  c ← gets model_state;
  left ← GetUnFinishedRequest;
  if (left =? 0) && negb approx && graceful_stop_phase t then
    match graceful_stop_msg t with
    | None => throw UB
    | Some p =>
        (if (size (result_queue_map c) =? 0)%nat && (size (request_handle_map c) =? 0)%nat
         then modify (upd_thread (set_final_released true));; set_value p ALLSPARK_SUCCESS
         else set_value p ALLSPARK_RUNTIME_ERROR);;
        modify (upd_control (set_stopped true));;
        goto Exited
    end
  else goto AtTop.

Definition loop_step (approx approx' : bool) : E unit :=
  t ← gets thread;
  match point t with
  | AtTop =>
      if looping t then
        modify (upd_thread (set_no_execution false));;
        goto (if synchronizing t then AtContext else AtMessages)
      else goto Exited
  | AtMessages => message_step approx approx'
  | AtContext => RunEngineContext;; UpdateResult;; goto AtContinue
  | AtContinue => RunContinue;; goto AtUpdate
  | AtUpdate => UpdateResult;; finish_sync;; goto AtEnd
  | AtEnd => end_step approx
  | Exited => mret tt
  end.

(** * The API *)
Definition enqueue (m : EngineControlMessage) : E unit :=
  modify (upd_control (fun c => set_msg_queue (msg_queue c ++ [m]) c)).

(** [TensorUtils::DeepCopyDLTensorMapToTensorMap]: every rank sees the copy. *)
Definition copy_inputs (v : Tensor) : E (list nat) := fun s =>
  let '(rs, ws) := on_ranks 0 (fun _ => new_tensor v) (workers_ s) in
  (Ok (omap (fun r => match r with Ok x => Some x | Err _ => None end) rs), set_workers ws s).

(** [StartRequest] up to its look at [model_stopping]; [None] when it goes on
    to enqueue its message.  [lim] are the engine's limits. *)
Definition StartRequest_check (lim : EngineLimits) (uuid : string) (request : option RequestContent)
    : E (option AsStatus) :=
  match request with
  | None => mret (Some ALLSPARK_PARAM_ERROR)
  | Some r0 =>
      match InputParamsVerify lim r0 with
      | Err e => throw e
      | Ok (st, r) =>
          if negb (is_success st) then mret (Some st) else
          let lora := lora_name (config r) in
          known ← (if bool_decide (lora = "") then mret true
                   else on_worker0 (gets (fun s => IsLoraExists (dev s) lora)));
          if negb known then mret (Some ALLSPARK_LORA_NOT_FOUND)
          else
            when (negb (bool_decide (lora = "")))
              (modify (fun s => set_loras (Some (default ∅ (loras_in_use_ s) ⊎ {[+ lora +]}))
                                  (lora_use_count_ s + 1) s));;
            p ← new_promise;
            match content_inputs r !! "input_ids" with
            | None => throw UB
            | Some v =>
                xs ← copy_inputs v;
                h ← new_handle (mkRequestHandle uuid (mkHandle (dim1 v) 0) 0 xs);
                q ← new_queue;
                stopping ← gets (fun s => model_stopping (model_state s));
                if stopping : bool then mret (Some ALLSPARK_REQUEST_DENIED)
                else
                  modify (set_caller (Starting (MsgStartRequest p uuid h q (config r)) lora));;
                  mret None
            end
      end
  end.

(** The enqueue, which may fail: then the LoRA's use is taken back. *)
Definition StartRequest_enqueue (accepted : bool) (m : EngineControlMessage) (lora : string)
    : E AsStatus :=
  modify (set_caller NoCaller);;
  if accepted then enqueue m;; mret ALLSPARK_SUCCESS
  else
    modify (fun s =>
      match loras_in_use_ s with
      | Some l => if bool_decide (lora = "") then s
                  else if bool_decide (lora ∈ l)
                  then set_loras (Some (l ∖ {[+ lora +]})) (lora_use_count_ s - 1) s else s
      | None => s
      end);;
    mret ALLSPARK_RUNTIME_ERROR.

(** The calls that enqueue a message and wait: [None] while they wait. *)
Definition call_and_wait (accepted : bool) (m : nat -> EngineControlMessage) : E (option AsStatus) :=
  p ← new_promise;
  if accepted then enqueue (m p);; modify (set_caller (WaitReply p));; mret None
  else mret (Some ALLSPARK_RUNTIME_ERROR).
Definition StopRequest (accepted : bool) (request_handle : option nat) : E (option AsStatus) :=
  match request_handle with
  | None => mret (Some ALLSPARK_EMPTY_REQUEST)
  | Some h => hd ← use_handle h;
              call_and_wait accepted (fun p => MsgStopRequest p (request_uuid hd))
  end.
Definition ReleaseRequest (accepted : bool) (request_handle : option nat) : E (option AsStatus) :=
  match request_handle with
  | None => mret (Some ALLSPARK_EMPTY_REQUEST)
  | Some h => hd ← use_handle h;
              call_and_wait accepted (fun p => MsgReleaseRequest p (request_uuid hd))
  end.
Definition SyncRequest (accepted : bool) (request_handle : option nat) : E (option AsStatus) :=
  match request_handle with
  | None => call_and_wait accepted MsgSyncAllRequest
  | Some h => hd ← use_handle h;
              call_and_wait accepted (fun p => MsgSyncRequest p (request_uuid hd))
  end.

(** [StopModel] in three parts: the flag, the enqueue, the answer. *)
Definition StopModel_flag : E (option AsStatus) :=
  p ← new_promise;
  stopping ← gets (fun s => model_stopping (model_state s));
  if stopping : bool then mret (Some ALLSPARK_REQUEST_DENIED)
  else
    modify (upd_control (set_stopping true));;
    modify (set_stopper (StopFlagged p));; mret None.
Definition StopModel_enqueue (accepted : bool) (p : nat) : E unit :=
  if accepted then enqueue (MsgGracefulStopModel p);; modify (set_stopper (StopWaiting p))
  else
    modify (upd_control (set_stopping false));;
    modify (set_stopper (StopReturned ALLSPARK_RUNTIME_ERROR)).
(** With a success the caller joins the loop thread, which has to be gone. *)
Definition StopModel_return (p : nat) : E unit :=
  v ← obj promises p;
  t ← gets thread;
  match v with
  | Some st =>
      if is_success st then
        if bool_decide (point t = Exited) then
          modify (upd_control (set_stopped true));; modify (set_stopper (StopReturned st))
        else mret tt
      else modify (set_stopper (StopReturned st))
  | None => mret tt
  end.

(** What the client of a queue does: it calls Get or goes on with it. *)
Inductive client_calls (q : ResultQueue.ResultQueue) : ResultQueue.ResultQueue -> Prop :=
  | calls_get tm : client q = Idle -> client_calls q (Get tm q)
  | calls_get_no_wait : client q = Idle -> client_calls q (GetNoWait q)
  | calls_on timed_out warned : client q <> Idle ->
      client_calls q (client_step timed_out warned q).

(** * Steps of the engine

    The loop thread and the callers take turns.  A call that needs
    [lora_lock_] waits until nobody holds it.  The concurrent queue keeps no order
    between the messages of different threads: any message may be the next. *)
Inductive engine_step (lim : EngineLimits) (s : Engine D R) : Engine D R -> Prop :=
  | step_loop approx approx' s' : loop_step approx approx' s = (Ok tt, s') -> engine_step lim s s'
  | step_reorder l : l ≡ₚ msg_queue (model_state s) ->
      engine_step lim s (upd_control (set_msg_queue l) s)
  | step_start uuid r st s' : lora_lock_ s = NoCaller ->
      StartRequest_check lim uuid r s = (Ok st, s') -> engine_step lim s s'
  | step_start_enqueue m lora accepted st s' : lora_lock_ s = Starting m lora ->
      StartRequest_enqueue accepted m lora s = (Ok st, s') -> engine_step lim s s'
  | step_stop h accepted st s' : lora_lock_ s = NoCaller ->
      StopRequest accepted h s = (Ok st, s') -> engine_step lim s s'
  | step_release h accepted st s' : lora_lock_ s = NoCaller ->
      ReleaseRequest accepted h s = (Ok st, s') -> engine_step lim s s'
  | step_sync h accepted st s' : lora_lock_ s = NoCaller ->
      SyncRequest accepted h s = (Ok st, s') -> engine_step lim s s'
  | step_return p st : lora_lock_ s = WaitReply p ->
      promises (objects s) !! p = Some (Some st) -> engine_step lim s (set_caller NoCaller s)
  | step_stop_model st s' : stopper s = NotStopping \/ (exists st, stopper s = StopReturned st) ->
      StopModel_flag s = (Ok st, s') -> engine_step lim s s'
  | step_stop_model_enqueue p accepted s' : stopper s = StopFlagged p ->
      StopModel_enqueue accepted p s = (Ok tt, s') -> engine_step lim s s'
  | step_stop_model_return p s' : stopper s = StopWaiting p ->
      StopModel_return p s = (Ok tt, s') -> engine_step lim s s'
  | step_client p q q' : queues (objects s) !! p = Some q -> client_calls q q' ->
      engine_step lim s (upd_objects (set_queues <[p := q']>) s).
End engine.
