(* ===== verification/EngineFrame.v ===== *)
(** What the engine's loop leaves alone while it runs the model: the relation
    [run_frame] between engine states, which every operation outside the
    handling of messages keeps.  In it each queue moves by the engine's steps
    of the protocol of [ResultQueue]. *)
From stdpp Require Import base list gmap strings gmultiset relations.
From S2P Require Import Prelude FrameManager RequestCheck ResultQueue ModelState Scheduler.
From S2P Require Import SchedulerFrame SchedulerProofs SchedulerSteps SchedulerSpec.
From S2P Require Import EngineState Engine.

Section frame.
Context {D R K : Type} `{MD : ModelDevice D R} `{KS : Kernels D R K} `{HO : HashOrder}.
Variable ctx_ : nat -> DeviceContext.
Variable graph_ops_ : nat -> Graph K.
Variable conf : EngineConfig.
Abbreviation W := (M (AsModel D R)).
Abbreviation E := (M (Engine D R)).
Abbreviation model := (AsModel D R).
Abbreviation engine := (Engine D R).

(** * Workers *)
Definition worker_le (w w' : model) : Prop :=
  tables_ok w -> tables_ok w' /\ heap_le req_le (requests w) (requests w').

#[export] Instance worker_le_preorder : PreOrder worker_le.
Proof.
  split.
  - intros w Ht. split; [done|]. apply heap_le_refl. exact _.
  - intros w1 w2 w3 H1 H2 Ht. destruct (H1 Ht) as [Ht2 Hle1]. destruct (H2 Ht2) as [Ht3 Hle2].
    split; [done|]. eapply heap_le_trans; [exact _|exact Hle1|exact Hle2].
Qed.

(** A computation of a worker that keeps its tables, failed or not. *)
Definition worker_ok {A} (m : W A) : Prop := forall w0, pres (worker_le w0) m.

Lemma worker_ok_run {A} (m : W A) :
  (forall w, tables_ok w -> wp m (fun _ w' => tables_ok w' /\ heap_le req_le (requests w) (requests w'))
     (fun _ w' => tables_ok w' /\ heap_le req_le (requests w) (requests w')) w) -> worker_ok m.
Proof.
  intros Hm w0 w Hw. unfold wp. specialize (Hm w). unfold wp in Hm.
  destruct (m w) as [[a|e] w'];
    (etrans; [exact Hw|]; intros Ht; by apply Hm).
Qed.

Lemma worker_ok_event i e : worker_ok (run_event (ctx_ i) (graph_ops_ i) e).
Proof.
  apply worker_ok_run. intros w Ht. unfold wp.
  destruct (run_event (ctx_ i) (graph_ops_ i) e w) as [r w'] eqn:Hrun.
  destruct (event_stepped (ctx_ i) (graph_ops_ i) e w r w' Ht Hrun) as (L & _ & H).
  destruct r; (split; apply H).
Qed.

Lemma worker_ok_bind {A B} (m : W A) (f : A -> W B) :
  worker_ok m -> (forall a, worker_ok (f a)) -> worker_ok (m ≫= f).
Proof. intros Hm Hf w0. apply pres_bind; [apply Hm|intros a; apply Hf]. Qed.
Lemma worker_ok_ret {A} (a : A) : worker_ok (mret a).
Proof. intros w0. apply pres_ret. Qed.
Lemma worker_ok_throw {A} e : worker_ok (throw (A := A) e).
Proof. intros w0. apply pres_throw. Qed.
Lemma worker_ok_gets {A} (f : model -> A) : worker_ok (gets f).
Proof. intros w0. apply pres_gets. Qed.

Lemma worker_ok_new_tensor v : worker_ok (new_tensor (D := D) (R := R) v).
Proof.
  intros w0 w Hw. specialize (worker_ok_event 0 (EvInput v) w0 w Hw). unfold wp. simpl.
  unfold mbind, M_bind. by destruct (new_tensor v w) as [[a|e] w'].
Qed.

(** ** All ranks *)
Lemma on_ranks_le {A} (m : nat -> W A) i ws :
  (forall i, worker_ok (m i)) -> Forall2 worker_le ws (snd (on_ranks i m ws)).
Proof.
  intros Hm. revert i. induction ws as [|w ws IH]; intros i; simpl; [constructor|].
  specialize (Hm i w w). unfold wp in Hm.
  destruct (m i w) as [r w1]. specialize (IH (S i)). destruct (on_ranks (S i) m ws) as [rs ws1].
  simpl in *. constructor; [|done]. destruct r; by apply Hm.
Qed.

Lemma on_ranks_length {A} (m : nat -> W A) i ws : length (fst (on_ranks i m ws)) = length ws.
Proof.
  revert i. induction ws as [|w ws IH]; intros i; simpl; [done|]. destruct (m i w) as [r w1].
  specialize (IH (S i)). destruct (on_ranks (S i) m ws) as [rs ws1]. simpl in *. by rewrite IH.
Qed.

(** * The frame *)
#[export] Instance map_rel_preorder {A} (P : A -> A -> Prop) `{!PreOrder P} : PreOrder (map_rel P).
Proof. split; intros ?; [by apply map_rel_refl|]. intros y z. by apply map_rel_trans. Qed.

Definition handle_le (h h' : RequestHandle) : Prop :=
  request_uuid h' = request_uuid h /\ inputs_internal h' = inputs_internal h.
#[export] Instance handle_le_preorder : PreOrder handle_le.
Proof. split; [by split|]. intros x y z [] []. split; congruence. Qed.

(** The loop's variables but the set it waits for, which shrinks. *)
Definition thread_le (t t' : LoopThread) : Prop :=
  set_sync false None ∅ t' = set_sync false None ∅ t /\
  synchronizing t' = synchronizing t /\ deferred_promise t' = deferred_promise t /\
  sync_pending_set t' ⊆ sync_pending_set t.
#[export] Instance thread_le_preorder : PreOrder thread_le.
Proof.
  split; [by split|]. intros x y z (? & ? & ? & ?) (? & ? & ? & ?).
  split_and!; try congruence. by etrans.
Qed.

Lemma thread_le_fields t t' : thread_le t t' ->
  point t' = point t /\ looping t' = looping t /\ no_execution t' = no_execution t /\
  graceful_stop_phase t' = graceful_stop_phase t /\ graceful_stop_msg t' = graceful_stop_msg t /\
  synchronizing t' = synchronizing t /\ deferred_promise t' = deferred_promise t.
Proof.
  intros (Ht & Hs & Hd & _). split_and!; try done.
  - exact (f_equal point Ht).
  - exact (f_equal looping Ht).
  - exact (f_equal no_execution Ht).
  - exact (f_equal graceful_stop_phase Ht).
  - exact (f_equal graceful_stop_msg Ht).
Qed.

(** The queue of a registered request takes no more elements. *)
Definition queue_done (s : engine) (uuid : string) : Prop :=
  exists p q, result_queue_map (model_state s) !! uuid = Some p /\
    queues (objects s) !! p = Some q /\ finished (status_ q) = true.

Lemma rtc_finished q q' : rtc ResultQueue.step q q' ->
  finished (status_ q) = true -> finished (status_ q') = true.
Proof.
  induction 1 as [|q1 q2 q3 Hs _ IH]; [done|]. intros Hf. by apply IH, (step_finished q1).
Qed.

(** Of the requests a sync waits for, only those are taken off the list whose
    queue is done. *)
Record run_frame (s s' : engine) : Prop := mkRunFrame {
  rf_workers : Forall2 worker_le (workers_ s) (workers_ s');
  rf_handles : map_rel handle_le (handles (objects s)) (handles (objects s'));
  rf_queues : map_rel (rtc ResultQueue.step) (queues (objects s)) (queues (objects s'));
  rf_promises : promises (objects s') = promises (objects s);
  rf_next : next_obj (objects s') = next_obj (objects s);
  rf_model_state : model_state s' = model_state s;
  rf_thread : thread_le (thread s) (thread s');
  rf_caller : lora_lock_ s' = lora_lock_ s;
  rf_stopper : stopper s' = stopper s;
  rf_sync u : u ∈ sync_pending_set (thread s) -> u ∉ sync_pending_set (thread s') ->
    queue_done s' u;
}.

Lemma queue_done_le s s' u :
  map_rel (rtc ResultQueue.step) (queues (objects s)) (queues (objects s')) ->
  model_state s' = model_state s -> queue_done s u -> queue_done s' u.
Proof.
  intros Hq Hm (p & q & Hp & Hqq & Hf). destruct (map_rel_lookup _ _ _ _ _ Hq Hqq) as (q' & Hq' & Hr).
  exists p, q'. rewrite Hm. split_and!; [done..|by eapply rtc_finished].
Qed.

#[export] Instance run_frame_preorder : PreOrder run_frame.
Proof.
  split.
  - intros s. by split.
  - intros s1 s2 s3 H1 H2. assert (Hs1 := rf_sync _ _ H1). assert (Hs2 := rf_sync _ _ H2).
    assert (Hdone := queue_done_le s2 s3). destruct H1, H2. split; try first [congruence|by etrans].
    intros u Hu Hn. destruct (decide (u ∈ sync_pending_set (thread s2))); [by apply Hs2|].
    apply Hdone; try done. by apply Hs1.
Qed.

Lemma frame_change s0 s s' : run_frame s0 s -> run_frame s s' -> run_frame s0 s'.
Proof. intros. by etrans. Qed.

Lemma enqueue_ranks_frame {A} s0 (m : nat -> W A) :
  (forall i, worker_ok (m i)) -> pres (run_frame s0) (enqueue_ranks m).
Proof.
  intros Hm s Hs. unfold wp, enqueue_ranks. assert (H := on_ranks_le m 0 (workers_ s) Hm).
  destruct (on_ranks 0 m (workers_ s)) as [rs ws]. etrans; [exact Hs|].
  by split.
Qed.

Lemma on_worker0_frame {A} s0 (m : W A) : worker_ok m -> pres (run_frame s0) (on_worker0 m).
Proof.
  intros Hm s Hs. unfold wp, on_worker0. destruct (workers_ s) as [|w ws] eqn:Hws; [done|].
  specialize (Hm w w). unfold wp in Hm. destruct (m w) as [r w1].
  assert (H : run_frame s0 (set_workers (w1 :: ws) s)).
  { etrans; [exact Hs|]. split; try done. simpl. rewrite Hws.
    constructor; [destruct r; by apply Hm|done]. }
  by destruct r.
Qed.

Lemma collect_pres I good rs st : pres I (collect (D := D) (R := R) good rs st).
Proof.
  revert st. induction rs as [|[st'|e] rs IH]; intros st; simpl; [apply pres_ret|apply IH|apply pres_throw].
Qed.
Lemma first_failure_pres I rs : pres I (first_failure (D := D) (R := R) rs).
Proof.
  induction rs as [|[st|e] rs IH]; simpl; [apply pres_ret| |apply pres_throw].
  destruct (is_success st); [apply IH|apply pres_ret].
Qed.

Lemma obj_pres {A} I (get : Objects -> gmap nat A) p : pres I (obj (D := D) (R := R) get p).
Proof. intros s Hs. unfold wp, obj. by destruct (get (objects s) !! p). Qed.

(** Symbolic reading of an object. *)
Lemma wp_obj {A} (get : Objects -> gmap nat A) p Q Er (s : engine) :
  (forall a, get (objects s) !! p = Some a -> Q a s) -> (get (objects s) !! p = None -> Er UB s) ->
  wp (obj get p) Q Er s.
Proof. intros H1 H2. unfold wp, obj. destruct (get (objects s) !! p); auto. Qed.

Lemma upd_handle_frame s0 p f :
  (forall h, handle_le h (f h)) -> pres (run_frame s0) (upd_handle p f).
Proof.
  intros Hf s Hs. unfold upd_handle, get_handle. apply wp_bind, wp_obj; [|done].
  intros h Hh. apply wp_modify. etrans; [exact Hs|].
  split; try done.
  simpl. by apply (map_rel_upd handle_le _ _ p h).
Qed.

(** A queue moves by a step that its status allows. *)
Lemma wp_upd_queue s0 p f (Q : unit -> engine -> Prop) (Er : exn -> engine -> Prop) s :
  run_frame s0 s ->
  (forall q, queues (objects s) !! p = Some q -> rtc ResultQueue.step q (f q)) ->
  (forall q, queues (objects s) !! p = Some q ->
     run_frame s0 (upd_objects (set_queues <[p := f q]>) s) ->
     Q tt (upd_objects (set_queues <[p := f q]>) s)) ->
  Er UB s -> wp (upd_queue p f) Q Er s.
Proof.
  intros Hs Hf HQ HE. unfold upd_queue, get_queue. apply wp_bind, wp_obj; [|done].
  intros q Hq. apply wp_modify. apply HQ; [done|]. etrans; [exact Hs|].
  split; try done.
  simpl. apply (map_rel_upd (rtc ResultQueue.step) _ _ p q); try done; by apply Hf.
Qed.

(** ** Results *)

(** The queue at [p] still takes elements. *)
Definition open_queue (p : nat) (s : engine) : Prop :=
  exists q, queues (objects s) !! p = Some q /\ finished (status_ q) = false.
Definition framed_open s0 p (s : engine) : Prop := run_frame s0 s /\ open_queue p s.

Lemma pres_and {S A} (I J : S -> Prop) (m : M S A) :
  pres I m -> pres J m -> pres (fun s => I s /\ J s) m.
Proof.
  intros HI HJ s [H1 H2]. specialize (HI s H1). specialize (HJ s H2). unfold wp in *.
  by destruct (m s) as [[a|e] s'].
Qed.

Lemma upd_handle_open p h f : pres (open_queue p) (upd_handle (D := D) (R := R) h f).
Proof.
  intros s Hs. unfold upd_handle, get_handle. apply wp_bind, wp_obj; [|done].
  intros hd _. by apply wp_modify.
Qed.
Lemma on_worker0_open {A} p (m : W A) : pres (open_queue p) (on_worker0 m).
Proof.
  intros s Hs. unfold wp, on_worker0. destruct (workers_ s); [done|].
  destruct (m a) as [[b|e] w1]; done.
Qed.

Lemma read_output_ok q : worker_ok (x ← at_ (outputs q) "generated_ids_global"; tensor x : W Tensor).
Proof.
  intros w0. apply pres_bind; [apply at_pres|intros x]. apply deref_pres.
Qed.

(** What is fetched is not empty. *)
Lemma FetchGenerationResult_nonempty host b l1 l2 n1 n2 h e h' :
  FetchGenerationResult host b l1 l2 n1 n2 h = Some (Some e, h') -> ids_from_generate e <> [].
Proof.
  unfold FetchGenerationResult. case_match; [done|]. case_match; [|done]. case_match; [done|].
  intros [= <- _]. simpl. intros Hnil%(f_equal length). rewrite length_drop in Hnil. simpl in Hnil.
  apply Z.ltb_lt in H0. lia.
Qed.

Lemma wp_Fetch s0 p q h s :
  framed_open s0 p s ->
  wp (FetchGenerationResultAndIncreaseCounter q h)
    (fun ele s' => framed_open s0 p s' /\
       match ele with Some e => ids_from_generate e <> [] | None => True end)
    (fun _ s' => run_frame s0 s') s.
Proof.
  intros Hs. unfold FetchGenerationResultAndIncreaseCounter. apply wp_bind.
  eapply wp_mono; [apply pres_and; [apply on_worker0_frame, read_output_ok|apply on_worker0_open|exact Hs]| |by intros ? ? []].
  clear s Hs. intros v s Hs. apply wp_bind. unfold get_handle. apply wp_obj; [|intros; apply Hs].
  intros hd _. destruct (Count v =? 0); [by apply wp_ret|].
  destruct (mapM _ _); [|apply wp_throw, Hs].
  destruct (FetchGenerationResult _ _ _ _ _ _ _) as [[ele l']|] eqn:Hf; [|apply wp_throw, Hs].
  apply wp_bind.
  eapply wp_mono; [apply pres_and; [apply upd_handle_frame|apply upd_handle_open|exact Hs]| |by intros ? ? []].
  { intros hd'. by split. }
  intros ? s1 Hs1. apply wp_ret. split; [done|]. destruct ele; [|done].
  by eapply FetchGenerationResult_nonempty.
Qed.

Lemma modify_frame s0 (f : engine -> engine) :
  (forall s, run_frame s (f s)) -> pres (run_frame s0) (modify f).
Proof. intros Hf. apply pres_modify. intros s Hs. by etrans. Qed.

Lemma wp_updateSyncStatus s0 uuid s :
  run_frame s0 s -> queue_done s uuid ->
  wp (updateSyncStatus uuid) (fun _ => run_frame s0) (fun _ => run_frame s0) s.
Proof.
  intros Hs Hdone. apply wp_modify. etrans; [exact Hs|].
  split; try done; simpl; destruct (synchronizing (thread s)) eqn:Hsy; try done.
  - unfold thread_le, set_sync. simpl. split_and!; try done. set_solver.
  - intros u Hu Hn. simpl in Hn. destruct (decide (u = uuid)) as [->|Hne]; [exact Hdone|].
    destruct Hn. apply elem_of_difference. by rewrite elem_of_singleton.
Qed.
Lemma release_lora_frame s0 lora : pres (run_frame s0) (release_lora lora).
Proof. apply modify_frame. intros s. repeat case_match; by split. Qed.

(** A status that is not taken back. *)
Lemma wp_SetStatus s0 p st Q (Er : exn -> engine -> Prop) s :
  run_frame s0 s -> (finished st = true \/ open_queue p s) ->
  (forall s', run_frame s0 s' ->
     (exists q, queues (objects s') !! p = Some q /\ status_ q = st) -> Q tt s') ->
  Er UB s -> wp (upd_queue p (SetStatus st)) Q Er s.
Proof.
  intros Hs Hst HQ HE. apply (wp_upd_queue s0); [done| | |done].
  - intros q Hq. apply rtc_once, step_status. intros Hf. destruct Hst as [|(q' & Hq' & Ho)]; [done|].
    congruence.
  - intros q Hq Hfr. apply HQ; [done|]. exists (SetStatus st q).
    split; [|done]. simpl. by rewrite lookup_insert_eq.
Qed.

(** The queue of [uuid] has reached a final status. *)
Lemma frame_done s0 s p uuid :
  run_frame s0 s -> result_queue_map (model_state s0) !! uuid = Some p ->
  (exists q, queues (objects s) !! p = Some q /\ finished (status_ q) = true) -> queue_done s uuid.
Proof.
  intros Hf Hm (q & Hq & Hfin). exists p, q. by rewrite (rf_model_state _ _ Hf).
Qed.

Lemma update_begun_frame s0 uuid h p rq s :
  framed_open s0 p s -> result_queue_map (model_state s0) !! uuid = Some p ->
  wp (update_begun uuid h p rq) (fun _ s' => run_frame s0 s') (fun _ s' => run_frame s0 s') s.
Proof.
  intros Hs Hm. unfold update_begun. apply wp_bind.
  eapply wp_mono; [apply pres_and; [apply upd_handle_frame; by split|apply upd_handle_open|exact Hs]| |by intros ? ? []].
  clear s Hs. intros ? s Hs. apply wp_bind. unfold get_handle. apply wp_obj; [|intros; apply Hs].
  intros hd _. apply wp_bind.
  assert (Hbegin : wp (when (continue_count hd =? 1)
    (modify (fun s => set_totals (total_prefill_token s + input_len rq) (total_generated_token s) s);;
     upd_queue p (SetStatus Generating))) (fun _ => framed_open s0 p) (fun _ => run_frame s0) s).
  { destruct (_ =? 1); [|done]. apply wp_bind, wp_modify. destruct Hs as [Hs Ho].
    assert (Hs' : run_frame s0 (set_totals (total_prefill_token s + input_len rq)
      (total_generated_token s) s)) by (etrans; [exact Hs|by split]).
    apply (wp_SetStatus s0); [done|by right| |done].
    intros s' H1 (q & Hq & Hst). split; [done|]. exists q. by rewrite Hst. }
  eapply wp_mono; [exact Hbegin| |done]. clear s Hs Hbegin. intros ? s Hs. apply wp_bind.
  eapply wp_mono; [by apply (wp_Fetch s0 p)| |done]. clear s Hs. intros ele s [Hs Hne]. apply wp_bind.
  assert (Happend : wp (match ele with
    | Some e => modify (fun s => set_totals (total_prefill_token s)
        (total_generated_token s + Z.of_nat (length (ids_from_generate e))) s);;
        upd_queue p (AppendGenerateElement e)
    | None => mret tt end) (fun _ => run_frame s0) (fun _ => run_frame s0) s).
  { destruct ele as [e|]; [|apply wp_ret, Hs]. apply wp_bind, wp_modify. destruct Hs as [Hs (q & Hq & Ho)].
    set (s1 := set_totals _ _ s). assert (Hs1 : run_frame s0 s1) by (etrans; [exact Hs|by split]).
    apply (wp_upd_queue s0); [done| |done|done].
    intros q' Hq'. simpl in Hq'. simplify_eq. by apply rtc_once, step_append. }
  eapply wp_mono; [exact Happend| |done]. clear s Hs Happend. intros ? s Hs.
  apply wp_bind. unfold get_queue. apply wp_obj; [|done]. intros q Hq. apply wp_bind.
  assert (Hend : wp (if bool_decide (status_ q = GenerateInterrupted) then updateSyncStatus uuid
     else when (finish rq) (upd_queue p (SetStatus GenerateFinished);; updateSyncStatus uuid))
     (fun _ => run_frame s0) (fun _ => run_frame s0) s).
  { case_bool_decide as Hint.
    { apply wp_updateSyncStatus; [done|]. eapply (frame_done s0); [done..|]. exists q. by rewrite Hint. }
    destruct (finish rq); [|done].
    apply wp_bind, (wp_SetStatus s0); [done|by left| |done]. intros s' Hs' (q' & Hq' & Hst).
    apply wp_updateSyncStatus; [done|]. eapply (frame_done s0); [done..|]. exists q'. by rewrite Hst. }
  eapply wp_mono; [exact Hend| |done]. clear s Hs Hend Hq. intros ? s Hs.
  case_bool_decide; [by apply release_lora_frame|done].
Qed.

Lemma update_entry_frame s0 entry : pres (run_frame s0) (update_entry entry).
Proof.
  intros s Hs. unfold update_entry, get_handle. apply wp_bind, wp_obj; [|done]. intros hd _.
  apply wp_bind, wp_gets. destruct (result_queue_map _ !! _) as [p|] eqn:Hm; [|done].
  rewrite (rf_model_state _ _ Hs) in Hm.
  apply wp_bind. unfold get_queue. apply wp_obj; [|done]. intros q Hq.
  destruct (finished (status_ q)) eqn:Hf.
  { apply wp_updateSyncStatus; [done|]. eapply (frame_done s0); [done..|]. by exists q. }
  assert (Ho : framed_open s0 p s) by (split; [done|by exists q]). clear Hs Hq q Hf.
  apply wp_bind.
  assert (Hread : forall B (m : W B), worker_ok m -> forall s, framed_open s0 p s ->
    wp (on_worker0 m) (fun _ => framed_open s0 p) (fun _ => run_frame s0) s).
  { intros B m Hwm s1 Hs1. eapply wp_mono; [apply pres_and; [by apply on_worker0_frame|apply on_worker0_open|exact Hs1]|done|].
    by intros ? ? []. }
  eapply wp_mono; [apply Hread; [apply worker_ok_gets|exact Ho]| |done]. clear s Ho. intros r s Ho.
  destruct r as [r|]; [|by apply wp_ret, Ho]. apply wp_bind.
  eapply wp_mono; [apply Hread; [intros w0; apply deref_pres|exact Ho]| |done]. clear s Ho. intros rq s Ho.
  destruct (status rq); try (by apply update_begun_frame); [by apply wp_ret, Ho|].
  apply wp_bind, (wp_SetStatus s0); [apply Ho|by left| |apply Ho]. intros s' Hs' (q & Hq & Hst).
  apply wp_updateSyncStatus; [done|]. eapply (frame_done s0); [done..|]. exists q. by rewrite Hst.
Qed.

Lemma UpdateResult_frame s0 : pres (run_frame s0) UpdateResult.
Proof.
  unfold UpdateResult. apply pres_bind; [apply pres_gets|intros m].
  apply pres_for_each. apply update_entry_frame.
Qed.

(** ** Running the model *)
Lemma worker_ok_GenerateContinue i : worker_ok (GenerateContinue (ctx_ i) (graph_ops_ i)).
Proof.
  apply worker_ok_bind; [apply (worker_ok_event i EvDecode)|intros st].
  unfold check_status. apply worker_ok_bind; [apply worker_ok_ret|intros st'].
  destruct (AS_STATUS_OK st'); apply worker_ok_ret.
Qed.

Lemma check_model_pres I k : pres I k -> pres I (check_model (D := D) (R := R) conf k).
Proof. intros Hk. unfold check_model. destruct (negb _); [apply pres_ret|done]. Qed.
Lemma check_generate_pres I k : pres I k -> pres I (check_generate (D := D) (R := R) conf k).
Proof.
  intros Hk. apply check_model_pres. destruct (negb _); [apply pres_ret|done].
Qed.

Lemma RunTextGenerationContext_frame s0 b :
  pres (run_frame s0) (RunTextGenerationContext ctx_ graph_ops_ conf b).
Proof.
  apply check_generate_pres, pres_bind; [|intros; apply collect_pres].
  apply enqueue_ranks_frame. intros i. apply (worker_ok_event i (EvContext b)).
Qed.
Lemma RunTextGenerationContinue_frame s0 :
  pres (run_frame s0) (RunTextGenerationContinue ctx_ graph_ops_ conf).
Proof.
  apply check_generate_pres, pres_bind.
  { apply enqueue_ranks_frame. intros i. apply (worker_ok_event i EvAlloc). }
  intros allocs. apply pres_bind; [apply first_failure_pres|intros ret].
  destruct (negb _); [apply pres_ret|]. apply pres_bind; [|intros; apply collect_pres].
  apply enqueue_ranks_frame. apply worker_ok_GenerateContinue.
Qed.
Lemma StopRequestByRequestID_frame s0 id :
  pres (run_frame s0) (StopRequestByRequestID ctx_ graph_ops_ conf id).
Proof.
  apply check_model_pres, pres_bind; [|intros; apply collect_pres].
  apply enqueue_ranks_frame. intros i. apply (worker_ok_event i (EvStop id)).
Qed.
Lemma ReleaseRequestByRequestID_frame s0 id :
  pres (run_frame s0) (ReleaseRequestByRequestID (D := D) (R := R) conf id).
Proof.
  apply check_model_pres, pres_bind; [|intros; apply collect_pres].
  apply enqueue_ranks_frame. intros i. apply (worker_ok_event i (EvRelease id)).
Qed.
Lemma StartRequestImpl_frame s0 h cfg :
  pres (run_frame s0) (StartRequestImpl (D := D) (R := R) conf h cfg).
Proof.
  unfold StartRequestImpl. apply pres_bind; [apply obj_pres|intros hd].
  apply pres_bind; [|intros; apply collect_pres]. apply enqueue_ranks_frame. intros i.
  destruct (inputs_internal hd !! i) as [x|]; [|apply worker_ok_throw].
  apply worker_ok_bind; [apply worker_ok_new_tensor|intros y].
  apply (worker_ok_event i (EvArrive _ _ _ _)).
Qed.

Lemma run_contexts_frame s0 fuel b : pres (run_frame s0) (run_contexts ctx_ graph_ops_ conf fuel b).
Proof.
  revert b. induction fuel as [|fuel IH]; intros b; simpl; [apply pres_throw|].
  apply pres_bind; [apply RunTextGenerationContext_frame|intros []]; try apply pres_ret; apply IH.
Qed.
Lemma RunEngineContext_frame s0 : pres (run_frame s0) (RunEngineContext ctx_ graph_ops_ conf).
Proof.
  unfold RunEngineContext. destruct (GetSchedulingStrategy conf).
  - apply pres_bind; [apply pres_gets|intros; apply run_contexts_frame].
  - apply RunTextGenerationContext_frame.
Qed.

Lemma generating_pres I l : pres I (generating (D := D) (R := R) l).
Proof.
  induction l as [|[u h] l IH]; simpl; [apply pres_ret|].
  apply pres_bind; [apply obj_pres|intros hd]. apply pres_bind; [apply pres_gets|intros qm].
  destruct (qm !! request_uuid hd); [|apply pres_throw].
  apply pres_bind; [apply obj_pres|intros q]. apply pres_bind; [apply IH|intros rest]. apply pres_ret.
Qed.
Lemma ChooseVictimRequest_frame s0 ids lens n :
  pres (run_frame s0) (ChooseVictimRequest (D := D) (R := R) conf ids lens n).
Proof.
  unfold ChooseVictimRequest. apply pres_bind.
  - destruct (GetEvictionStrategy conf); [apply pres_ret|].
    apply pres_bind; [|intros; apply pres_ret]. unfold random_output.
    apply pres_bind; [apply pres_gets|intros k]. apply pres_bind; [|intros; apply pres_ret].
    apply modify_frame. by split.
  - intros x. destruct (ids !! x); [apply pres_ret|apply pres_throw].
Qed.

Lemma interrupt_victim_frame s0 : pres (run_frame s0) (interrupt_victim ctx_ graph_ops_ conf).
Proof.
  unfold interrupt_victim. apply pres_bind; [apply pres_gets|intros m].
  apply pres_bind; [apply generating_pres|intros l]. case_bool_decide; [apply pres_ret|].
  apply pres_bind; [apply ChooseVictimRequest_frame|intros victim].
  apply pres_bind; [apply StopRequestByRequestID_frame|intros st].
  apply pres_bind; [apply pres_gets|intros qm]. destruct (qm !! victim) as [p|]; [|apply pres_throw].
  intros s Hs. apply wp_bind, (wp_SetStatus s0); [done|by left| |done].
  intros s' Hs' _. by apply wp_ret.
Qed.
Lemma continue_loop_frame s0 fuel : pres (run_frame s0) (continue_loop ctx_ graph_ops_ conf fuel).
Proof.
  induction fuel as [|fuel IH]; simpl; [apply pres_throw|].
  apply pres_bind; [apply RunTextGenerationContinue_frame|intros []];
    try solve [apply pres_ret|apply pres_throw].
  apply pres_bind; [apply interrupt_victim_frame|intros []]; [apply IH|apply pres_ret].
Qed.
Lemma RunContinue_frame s0 : pres (run_frame s0) (RunContinue ctx_ graph_ops_ conf).
Proof. apply pres_bind; [apply pres_gets|intros; apply continue_loop_frame]. Qed.

Lemma GetUnFinishedRequest_frame s0 : pres (run_frame s0) GetUnFinishedRequest.
Proof. apply on_worker0_frame, worker_ok_gets. Qed.
End frame.
