(* ===== verification/EngineProofs.v ===== *)
(** The engine keeps its tables under every interleaving of the model loop with
    the calls of its clients: the two maps agree, every promise is answered at
    most once, every queue follows the protocol of [ResultQueue]. *)
From stdpp Require Import base list gmap strings gmultiset relations.
From S2P Require Import Prelude FrameManager RequestCheck ResultQueue ModelState Scheduler.
From S2P Require Import SchedulerFrame SchedulerProofs SchedulerSteps SchedulerSpec.
From S2P Require Import EngineState Engine EngineFrame.

Section proofs.
Context {D R K : Type} `{MD : ModelDevice D R} `{KS : Kernels D R K} `{HO : HashOrder}.
Variable ctx_ : nat -> DeviceContext.
Variable graph_ops_ : nat -> Graph K.
Variable conf : EngineConfig.
Abbreviation E := (M (Engine D R)).
Abbreviation engine := (Engine D R).
Implicit Types s : engine.

(** * The invariant *)

(** The objects a message carries. *)
Definition objects_of (m : EngineControlMessage) : list nat :=
  match m with
  | MsgStartRequest p _ h q _ => [p; h; q]
  | _ => [promise_of m]
  end.

(** The messages on their way: enqueued, or about to be. *)
Definition starting s : list EngineControlMessage :=
  match lora_lock_ s with Starting m _ => [m] | _ => [] end.
Definition flagged s : list nat :=
  match stopper s with StopFlagged p => [p] | _ => [] end.
Definition messages s : list EngineControlMessage :=
  msg_queue (model_state s) ++ starting s.

(** The promises that still have to be answered by the loop thread. *)
Definition kept_promises s : list nat :=
  option_list (deferred_promise (thread s)) ++
  (if bool_decide (point (thread s) = Exited) then [] else option_list (graceful_stop_msg (thread s))).
Definition owed s : list nat := (promise_of <$> messages s) ++ flagged s ++ kept_promises s.

Definition map_values (m : gmap string nat) : list nat := (map_to_list m).*2.

(** Who owns what: no object has two owners. *)
Definition owned s : list nat :=
  (messages s ≫= objects_of) ++ flagged s ++ kept_promises s ++
  map_values (request_handle_map (model_state s)) ++ map_values (result_queue_map (model_state s)).

(** A handle for [uuid] with the copies of its inputs for all ranks. *)
Definition handle_ok s (uuid : string) (h : nat) : Prop :=
  exists hd, handles (objects s) !! h = Some hd /\ request_uuid hd = uuid /\
    length (inputs_internal hd) = length (workers_ s).
Definition message_ok s (m : EngineControlMessage) : Prop :=
  match m with
  | MsgStartRequest _ uuid h q _ => handle_ok s uuid h /\ is_Some (queues (objects s) !! q)
  | _ => True
  end.

Record objects_below s : Prop := mkBelow {
  ob_handles p : is_Some (handles (objects s) !! p) -> (p < next_obj (objects s))%nat;
  ob_queues p : is_Some (queues (objects s) !! p) -> (p < next_obj (objects s))%nat;
  ob_promises p : is_Some (promises (objects s) !! p) -> (p < next_obj (objects s))%nat;
}.

Record engine_ok s : Prop := mkEngineOk {
  eo_workers : Forall tables_ok (workers_ s);
  eo_below : objects_below s;
  eo_owned : NoDup (owned s);
  eo_owned_below : Forall (fun p => p < next_obj (objects s))%nat (owned s);
  eo_promises p : p ∈ owed s -> promises (objects s) !! p = Some None;
  eo_maps u : is_Some (request_handle_map (model_state s) !! u) <->
              is_Some (result_queue_map (model_state s) !! u);
  eo_handle u h : request_handle_map (model_state s) !! u = Some h -> handle_ok s u h;
  eo_queue u p : result_queue_map (model_state s) !! u = Some p -> is_Some (queues (objects s) !! p);
  eo_messages : Forall (message_ok s) (messages s);
  eo_sync : if synchronizing (thread s) then is_Some (deferred_promise (thread s))
            else deferred_promise (thread s) = None /\ sync_pending_set (thread s) = ∅;
  eo_graceful : graceful_stop_phase (thread s) = true -> is_Some (graceful_stop_msg (thread s));
}.

(** ** Running the model keeps it *)
Lemma workers_le_ok ws ws' :
  Forall2 worker_le ws ws' -> Forall (tables_ok (D := D) (R := R)) ws -> Forall tables_ok ws'.
Proof.
  induction 1 as [|w w' ws ws' Hle _ IH]; [done|]. intros [Hw Hws]%Forall_cons.
  constructor; [by apply Hle|by apply IH].
Qed.

Lemma handle_ok_frame s s' u h : run_frame s s' -> handle_ok s u h -> handle_ok s' u h.
Proof.
  intros Hf (hd & Hh & Hu & Hl).
  destruct (map_rel_lookup _ _ _ _ _ (rf_handles _ _ Hf) Hh) as (hd' & Hh' & Hu' & Hi').
  exists hd'. split_and!; [done|congruence|]. rewrite Hi', Hl. by eapply Forall2_length, rf_workers.
Qed.

Lemma queue_frame s s' p : run_frame s s' ->
  is_Some (queues (objects s) !! p) <-> is_Some (queues (objects s') !! p).
Proof.
  intros Hf. split; intros [a Ha].
  - destruct (map_rel_lookup _ _ _ _ _ (rf_queues _ _ Hf) Ha) as (? & ? & _); eauto.
  - destruct (map_rel_lookup_r _ _ _ _ _ (rf_queues _ _ Hf) Ha) as (? & ? & _); eauto.
Qed.

Lemma message_ok_frame s s' m : run_frame s s' -> message_ok s m -> message_ok s' m.
Proof.
  intros Hf. destruct m; try done. simpl. intros [H1 H2].
  split; [by eapply handle_ok_frame|by apply (queue_frame s)].
Qed.

Lemma kept_promises_thread s t' : thread_le (thread s) t' ->
  option_list (deferred_promise t') ++
    (if bool_decide (point t' = Exited) then [] else option_list (graceful_stop_msg t'))
  = kept_promises s.
Proof.
  intros (-> & _ & _ & _ & -> & _ & ->)%thread_le_fields. done.
Qed.

Lemma owned_frame s s' : run_frame s s' -> owned s' = owned s /\ owed s' = owed s.
Proof.
  intros Hf. unfold owned, owed, messages, starting, flagged.
  replace (kept_promises s') with (kept_promises s)
    by (symmetry; apply kept_promises_thread; apply Hf).
  by rewrite (rf_model_state _ _ Hf), (rf_caller _ _ Hf), (rf_stopper _ _ Hf).
Qed.

Lemma engine_ok_frame s s' : engine_ok s -> run_frame s s' -> engine_ok s'.
Proof.
  intros [Hw [Hbh Hbq Hbp] Ho Hob Hp Hm Hh Hq Hms Hs Hg] Hf. destruct (owned_frame s s' Hf) as [Howned Howed].
  assert (Hmsgs : messages s' = messages s)
    by (unfold messages, starting; by rewrite (rf_model_state _ _ Hf), (rf_caller _ _ Hf)).
  destruct (thread_le_fields _ _ (rf_thread _ _ Hf)) as (_ & _ & _ & Hph & Hgm & Hsy & Hd).
  split.
  - eapply workers_le_ok; [apply Hf|done].
  - split; intros p [a Ha]; rewrite (rf_next _ _ Hf).
    + destruct (map_rel_lookup_r _ _ _ _ _ (rf_handles _ _ Hf) Ha) as (? & ? & _); eauto.
    + destruct (map_rel_lookup_r _ _ _ _ _ (rf_queues _ _ Hf) Ha) as (? & ? & _); eauto.
    + rewrite (rf_promises _ _ Hf) in Ha. eauto.
  - by rewrite Howned.
  - by rewrite Howned, (rf_next _ _ Hf).
  - intros p. rewrite Howed, (rf_promises _ _ Hf). apply Hp.
  - intros u. rewrite (rf_model_state _ _ Hf). apply Hm.
  - intros u h. rewrite (rf_model_state _ _ Hf). intros. eapply handle_ok_frame; [done|by apply Hh].
  - intros u p. rewrite (rf_model_state _ _ Hf). intros. apply (queue_frame s s'); [done|by eapply Hq].
  - rewrite Hmsgs. eapply Forall_impl; [exact Hms|]. intros m. by apply message_ok_frame.
  - rewrite Hsy, Hd. destruct (synchronizing (thread s)); [done|]. destruct Hs as [-> Hs].
    split; [done|]. destruct (rf_thread _ _ Hf) as (_ & _ & _ & Hsub). set_solver.
  - by rewrite Hph, Hgm.
Qed.

Lemma frame_keeps_ok {A} (m : E A) :
  (forall s0, pres (run_frame s0) m) -> pres engine_ok m.
Proof.
  intros Hm s Hs. eapply wp_mono; [apply (Hm s); reflexivity| |];
    intros; by eapply engine_ok_frame.
Qed.

(** ** Answering a promise *)
Definition answered p st s : engine := upd_objects (set_promises <[p := Some st]>) s.

Lemma wp_set_value p st Q (Er : exn -> engine -> Prop) s :
  promises (objects s) !! p = Some None -> Q tt (answered p st s) -> wp (set_value p st) Q Er s.
Proof.
  intros Hp HQ. unfold set_value. apply wp_bind, wp_obj; [|congruence].
  intros v Hv. simplify_eq. by apply wp_modify.
Qed.

(** ** Taking over and giving away objects *)
Lemma submseteq_keeps_NoDup {A} (l k : list A) : l ⊆+ k -> NoDup k -> NoDup l.
Proof.
  intros (k' & Hk)%submseteq_Permutation Hnd. rewrite Hk in Hnd. by apply NoDup_app in Hnd as (? & _).
Qed.

(** A thread owns the objects [l] besides those the tables own. *)
Record holds (l : list nat) s : Prop := mkHolds {
  hd_ok : engine_ok s;
  hd_once : NoDup (l ++ owned s);
  hd_below : Forall (fun p => p < next_obj (objects s))%nat l;
}.

Lemma holds_nil s : engine_ok s -> holds [] s.
Proof. intros H. split; [done|apply H|done]. Qed.

Lemma holds_frame l s s' : holds l s -> run_frame s s' -> holds l s'.
Proof.
  intros [H1 H2 H3] Hf. split; [by eapply engine_ok_frame| |].
  - by rewrite (proj1 (owned_frame _ _ Hf)).
  - by rewrite (rf_next _ _ Hf).
Qed.

Lemma holds_less l l' s : l' ⊆+ l -> holds l s -> holds l' s.
Proof.
  intros Hl [H1 H2 H3]. split; [done| |].
  - eapply submseteq_keeps_NoDup; [|exact H2]. by apply submseteq_skips_r.
  - apply Forall_forall. intros p Hp. rewrite Forall_forall in H3. apply H3. by eapply elem_of_submseteq.
Qed.

Lemma owed_owned p s : p ∈ owed s -> p ∈ owned s.
Proof.
  unfold owed, owned. intros [Hp|Hp]%elem_of_app; [|set_solver].
  apply elem_of_app. left. apply list_elem_of_fmap in Hp as (m & -> & Hm).
  apply list_elem_of_bind. exists m. split; [destruct m; set_solver|done].
Qed.

(** A change of the tables only, to what is owned already. *)
Record retable (s s' : engine) : Prop := mkRetable {
  rt_workers : workers_ s' = workers_ s;
  rt_objects : objects s' = objects s;
}.

Lemma retable_ok l s s' :
  holds l s -> retable s s' -> owned s' ⊆+ l ++ owned s ->
  (forall p, p ∈ owed s' -> promises (objects s) !! p = Some None) ->
  (forall u, is_Some (request_handle_map (model_state s') !! u) <->
     is_Some (result_queue_map (model_state s') !! u)) ->
  (forall u h, request_handle_map (model_state s') !! u = Some h -> handle_ok s u h) ->
  (forall u p, result_queue_map (model_state s') !! u = Some p -> is_Some (queues (objects s) !! p)) ->
  Forall (message_ok s) (messages s') ->
  (if synchronizing (thread s') then is_Some (deferred_promise (thread s'))
   else deferred_promise (thread s') = None /\ sync_pending_set (thread s') = ∅) ->
  (graceful_stop_phase (thread s') = true -> is_Some (graceful_stop_msg (thread s'))) ->
  engine_ok s'.
Proof.
  intros [Hok Hnd Hb] [Hw Ho] Hsub Hp Hm Hh Hq Hms Hsy Hg. split.
  - rewrite Hw. apply Hok.
  - destruct Hok as [_ [] _]. split; by rewrite Ho.
  - by eapply submseteq_keeps_NoDup.
  - rewrite Ho. apply Forall_forall. intros p Hin. eapply elem_of_submseteq in Hin; [|exact Hsub].
    destruct Hok as [_ _ _ Hob]. rewrite Forall_forall in Hb, Hob. set_solver.
  - by rewrite Ho.
  - done.
  - intros u h Hu. destruct (Hh u h Hu) as (hd & ? & ? & ?). exists hd. by rewrite Ho, Hw.
  - by rewrite Ho.
  - eapply Forall_impl; [exact Hms|]. intros m. destruct m; try done. simpl.
    intros [(hd & ? & ? & ?) ?]. split; [exists hd; by rewrite Ho, Hw|by rewrite Ho].
  - done.
  - done.
Qed.

(** Taking the first message off the queue. *)
Lemma pop_ok m rest s :
  engine_ok s -> msg_queue (model_state s) = m :: rest ->
  let s' := upd_control (set_msg_queue rest) s in
  holds (objects_of m) s' /\ message_ok s' m /\ promises (objects s) !! promise_of m = Some None.
Proof.
  intros Hok Hq s'. assert (Hmsgs : messages s = m :: messages s').
  { unfold messages, starting. by rewrite Hq. }
  assert (Howned : owned s = objects_of m ++ owned s').
  { unfold owned. rewrite Hmsgs. simpl. by rewrite <- !app_assoc. }
  assert (Howed : owed s = promise_of m :: owed s') by (unfold owed; by rewrite Hmsgs).
  assert (Hms := eo_messages _ Hok). rewrite Hmsgs in Hms. apply Forall_cons in Hms as [Hm Hms].
  split; [|split].
  - split.
    + apply (retable_ok [] s); try done; try apply Hok; [by apply holds_nil| |].
      * rewrite Howned. simpl. apply submseteq_inserts_l. done.
      * intros p Hp. apply Hok. rewrite Howed. by right.
    + rewrite <- Howned. apply Hok.
    + destruct Hok as [_ _ _ Hob]. rewrite Howned in Hob. by apply Forall_app in Hob as [? _].
  - by destruct m.
  - apply Hok. rewrite Howed. by left.
Qed.

(** Answering a promise at hand. *)
Lemma answered_holds p st l s : holds (p :: l) s -> holds l (answered p st s).
Proof.
  intros [Hok Hnd Hb]. assert (Hn : p ∉ owned s).
  { intros Hin. simpl in Hnd. apply NoDup_cons in Hnd as [Hnd _]. set_solver. }
  destruct Hok as [Hw [Hbh Hbq Hbp] Ho Hob Hp Hm Hh Hq Hms Hs Hg].
  apply Forall_cons in Hb as [Hpb Hb]. apply NoDup_cons in Hnd as [Hpl Hnd].
  split; [split; try done|done|done].
  - split; try done. simpl. intros p' Hp'. destruct (decide (p = p')) as [<-|Hne]; [done|].
    rewrite lookup_insert_ne in Hp' by done. by apply Hbp.
  - intros p' Hp'. simpl. rewrite lookup_insert_ne; [by apply Hp|]. intros <-. by apply Hn, owed_owned.
Qed.
Lemma answered_ok p st s : holds [p] s -> engine_ok (answered p st s).
Proof. intros H. by apply (answered_holds p st []). Qed.

(** *** New objects *)
Lemma alloc_holds l s s' :
  holds l s -> workers_ s' = workers_ s -> model_state s' = model_state s ->
  thread s' = thread s -> lora_lock_ s' = lora_lock_ s -> stopper s' = stopper s ->
  next_obj (objects s') = S (next_obj (objects s)) ->
  objects_below s' ->
  (forall p, (p < next_obj (objects s))%nat -> handles (objects s') !! p = handles (objects s) !! p) ->
  (forall p, (p < next_obj (objects s))%nat -> queues (objects s') !! p = queues (objects s) !! p) ->
  (forall p, (p < next_obj (objects s))%nat -> promises (objects s') !! p = promises (objects s) !! p) ->
  holds (next_obj (objects s) :: l) s'.
Proof.
  intros [[Hw [Hbh Hbq Hbp] Ho Hob Hp Hm Hh Hq Hms Hs Hg] Hnd Hb] Ew Em Et El Es En Hbel Eh Eq Ep.
  assert (Howned : owned s' = owned s)
    by (unfold owned, messages, starting, flagged, kept_promises; by rewrite Em, Et, El, Es).
  assert (Howed : owed s' = owed s)
    by (unfold owed, messages, starting, flagged, kept_promises; by rewrite Em, Et, El, Es).
  assert (Hmsgs : messages s' = messages s) by (unfold messages, starting; by rewrite Em, El).
  assert (Hhk : forall u h, handle_ok s u h -> handle_ok s' u h).
  { intros u h (hd & Hhd & ? & ?). exists hd. rewrite Eh, Ew; [done|]. apply Hbh. eauto. }
  assert (Hqk : forall p, is_Some (queues (objects s) !! p) -> is_Some (queues (objects s') !! p)).
  { intros p Hqp. rewrite Eq; [done|]. by apply Hbq. }
  rewrite Forall_forall in Hob, Hb.
  split; [split; try done|..].
  - by rewrite Ew.
  - by rewrite Howned.
  - rewrite Howned, En. apply Forall_forall. intros p Hin. specialize (Hob p Hin). simpl in Hob. lia.
  - intros p Hin. rewrite Howed in Hin. rewrite Ep; [by apply Hp|]. by apply Hob, owed_owned.
  - by rewrite Em.
  - intros u h. rewrite Em. auto.
  - intros u p. rewrite Em. eauto.
  - rewrite Hmsgs. eapply Forall_impl; [exact Hms|]. intros m. destruct m; try done. simpl.
    intros [? ?]. auto.
  - by rewrite Et.
  - by rewrite Et.
  - rewrite Howned. simpl. apply NoDup_cons. split; [|done]. intros [Hin|Hin]%elem_of_app;
      [specialize (Hb _ Hin)|specialize (Hob _ Hin)]; simpl in *; lia.
  - rewrite En. apply Forall_cons. split; [lia|]. apply Forall_forall. intros p Hin.
    specialize (Hb p Hin). simpl in Hb. lia.
Qed.

Definition with_promise s : engine :=
  upd_objects (set_promises <[next_obj (objects s) := None]>)
    (upd_objects (set_next_obj (S (next_obj (objects s)))) s).
Definition with_handle h s : engine :=
  upd_objects (set_handles <[next_obj (objects s) := h]>)
    (upd_objects (set_next_obj (S (next_obj (objects s)))) s).
Definition with_queue s : engine :=
  upd_objects (set_queues <[next_obj (objects s) := ResultQueue_new]>)
    (upd_objects (set_next_obj (S (next_obj (objects s)))) s).

Lemma insert_below {A} (m : gmap nat A) n a p :
  (forall p, is_Some (m !! p) -> (p < n)%nat) -> is_Some (<[n := a]> m !! p) -> (p < S n)%nat.
Proof.
  intros H Hp. destruct (decide (n = p)) as [->|Hne]; [lia|].
  rewrite lookup_insert_ne in Hp by done. specialize (H p Hp). lia.
Qed.

Lemma alloc_ok l s f :
  f = with_promise \/ (exists h, f = with_handle h) \/ f = with_queue ->
  holds l s -> holds (next_obj (objects s) :: l) (f s).
Proof.
  intros Hf Hl. assert (Hbel := eo_below _ (hd_ok _ _ Hl)). destruct Hbel as [Hbh Hbq Hbp].
  assert (Hne : forall {A} (m : gmap nat A) a p, (p < next_obj (objects s))%nat ->
    <[next_obj (objects s) := a]> m !! p = m !! p) by (intros; rewrite lookup_insert_ne; [done|lia]).
  assert (HS : forall p, (p < next_obj (objects s))%nat -> (p < S (next_obj (objects s)))%nat) by lia.
  destruct Hf as [->|[[h ->]| ->]]; apply (alloc_holds l s); try done; simpl; auto;
    split; simpl; auto; intros p; by apply insert_below.
Qed.

Lemma wp_new_promise Q (Er : exn -> engine -> Prop) s :
  Q (next_obj (objects s)) (with_promise s) -> wp new_promise Q Er s.
Proof.
  intros HQ. unfold new_promise, new_obj.
  by apply wp_bind, wp_bind, wp_gets, wp_bind, wp_modify, wp_ret, wp_bind, wp_modify, wp_ret.
Qed.
Lemma wp_new_handle h Q (Er : exn -> engine -> Prop) s :
  Q (next_obj (objects s)) (with_handle h s) -> wp (new_handle h) Q Er s.
Proof.
  intros HQ. unfold new_handle, new_obj.
  by apply wp_bind, wp_bind, wp_gets, wp_bind, wp_modify, wp_ret, wp_bind, wp_modify, wp_ret.
Qed.
Lemma wp_new_queue Q (Er : exn -> engine -> Prop) s :
  Q (next_obj (objects s)) (with_queue s) -> wp new_queue Q Er s.
Proof.
  intros HQ. unfold new_queue, new_obj.
  by apply wp_bind, wp_bind, wp_gets, wp_bind, wp_modify, wp_ret, wp_bind, wp_modify, wp_ret.
Qed.

(** * Messages *)

(** The maps with a new request; it is dropped when its id is taken. *)
Lemma map_values_insert u p m :
  m !! u = None -> map_values (<[u := p]> m) ≡ₚ p :: map_values m.
Proof. intros H. unfold map_values. by rewrite (map_to_list_insert m u p H). Qed.
Lemma map_values_delete u m : map_values (delete u m) ⊆+ map_values m.
Proof.
  unfold map_values. destruct (m !! u) as [p|] eqn:H.
  - rewrite <- (map_to_list_delete m u p H). simpl. apply submseteq_cons. done.
  - by rewrite delete_id.
Qed.
Lemma map_values_emplace u p m : map_values (emplace u p m) ⊆+ p :: map_values m.
Proof.
  unfold emplace. destruct (m !! u) eqn:H; [by apply submseteq_cons|].
  by rewrite map_values_insert.
Qed.

Lemma emplace_lookup u p m v x : emplace u p m !! v = Some x ->
  m !! v = Some x \/ (v = u /\ x = p /\ m !! u = None).
Proof.
  unfold emplace. destruct (m !! u) eqn:H; [by left|]. destruct (decide (u = v)) as [<-|Hne].
  - rewrite lookup_insert_eq. intros [= <-]. by right.
  - rewrite lookup_insert_ne by done. by left.
Qed.
Lemma emplace_some u p m v : is_Some (emplace u p m !! v) <-> v = u \/ is_Some (m !! v).
Proof.
  unfold emplace. destruct (m !! u) eqn:H.
  - split; [by right|]. intros [->|?]; [by eexists|done].
  - destruct (decide (u = v)) as [<-|Hne].
    + rewrite lookup_insert_eq. naive_solver.
    + rewrite lookup_insert_ne by done. naive_solver.
Qed.

(** The two maps with the message's handle and queue. *)
Definition registered (uuid : string) (h q : nat) s : engine :=
  upd_control (fun c => set_maps (emplace uuid h (request_handle_map c))
                          (emplace uuid q (result_queue_map c)) c) s.

Lemma registered_ok p uuid h q cfg s :
  holds (objects_of (MsgStartRequest p uuid h q cfg)) s ->
  message_ok s (MsgStartRequest p uuid h q cfg) -> engine_ok (registered uuid h q s).
Proof.
  intros Hl [Hh Hq]. assert (Hok := hd_ok _ _ Hl). apply (retable_ok _ s _ Hl); try done; try apply Hok.
  - unfold owned at 1. simpl. unfold kept_promises, flagged, messages, starting. simpl.
    fold (starting s) (messages s) (flagged s) (kept_promises s).
    etrans; [apply submseteq_app; [reflexivity|apply submseteq_app; [reflexivity|apply submseteq_app;
      [reflexivity|apply submseteq_app; apply map_values_emplace]]]|].
    unfold owned. generalize (messages s ≫= objects_of) (flagged s) (kept_promises s)
      (map_values (request_handle_map (model_state s))) (map_values (result_queue_map (model_state s))).
    intros a b c d e. apply submseteq_cons. apply Permutation_submseteq. solve_Permutation.
  - intros u. simpl. rewrite !emplace_some. by rewrite (eo_maps _ Hok).
  - simpl. intros u h' [Hu|(-> & -> & _)]%emplace_lookup; [by apply Hok|done].
  - simpl. intros u p' [Hu|(-> & -> & _)]%emplace_lookup; [by eapply Hok|done].
Qed.

Definition unregistered (uuid : string) s : engine :=
  upd_control (fun c => match result_queue_map c !! uuid with
    | Some _ => set_maps (delete uuid (request_handle_map c)) (delete uuid (result_queue_map c)) c
    | None => c
    end) s.

Lemma unregistered_holds l uuid s : holds l s -> holds l (unregistered uuid s).
Proof.
  intros Hl. assert (Hok := hd_ok _ _ Hl). unfold unregistered.
  destruct (result_queue_map (model_state s) !! uuid) as [p|] eqn:Hp.
  - set (s' := upd_control _ s).
    assert (Hsub : owned s' ⊆+ owned s).
    { unfold owned, messages, starting, flagged, kept_promises, s'. simpl. rewrite Hp. simpl.
      repeat apply submseteq_app; try done; apply map_values_delete. }
    split.
    + apply (retable_ok [] s); try done; subst s'; simpl; rewrite ?Hp; simpl.
      * by apply holds_nil.
      * unfold owed, messages, starting, flagged, kept_promises. simpl. rewrite Hp. simpl. apply Hok.
      * intros u. rewrite !lookup_delete_is_Some. by rewrite (eo_maps _ Hok).
      * intros u h [_ Hu]%lookup_delete_Some. by apply Hok.
      * intros u q [_ Hu]%lookup_delete_Some. by eapply Hok.
      * unfold messages, starting. simpl. rewrite Hp. simpl. apply Hok.
      * apply Hok.
      * apply Hok.
    + eapply submseteq_keeps_NoDup; [|exact (hd_once _ _ Hl)]. by apply submseteq_skips_l.
    + exact (hd_below _ _ Hl).
  - assert (Hsame : upd_control (fun c => match result_queue_map c !! uuid with
      | Some _ => set_maps (delete uuid (request_handle_map c)) (delete uuid (result_queue_map c)) c
      | None => c end) s = s).
    { unfold upd_control. rewrite Hp. by destruct s. }
    by rewrite Hsame.
Qed.
(** ** The handlers *)

(** Changes of the loop's variables alone. *)
Lemma owned_thread s f : kept_promises (upd_thread f s) ⊆+ kept_promises s ->
  owned (upd_thread f s) ⊆+ owned s.
Proof.
  intros H. unfold owned, messages, starting, flagged. simpl.
  apply submseteq_skips_l, submseteq_skips_l. by apply submseteq_skips_r.
Qed.
Lemma owed_thread s f p : kept_promises (upd_thread f s) ⊆+ kept_promises s ->
  p ∈ owed (upd_thread f s) -> p ∈ owed s.
Proof.
  intros H. unfold owed, messages, starting, flagged. simpl.
  rewrite !elem_of_app. intros [?|[?|Hp]]; auto. right. right. by eapply elem_of_submseteq.
Qed.

Lemma thread_ok l s f :
  holds l s -> kept_promises (upd_thread f s) ⊆+ kept_promises s ->
  (if synchronizing (f (thread s)) then is_Some (deferred_promise (f (thread s)))
   else deferred_promise (f (thread s)) = None /\ sync_pending_set (f (thread s)) = ∅) ->
  (graceful_stop_phase (f (thread s)) = true -> is_Some (graceful_stop_msg (f (thread s)))) ->
  holds l (upd_thread f s).
Proof.
  intros Hl Hk Hs Hg. assert (Hok := hd_ok _ _ Hl). split; [apply (retable_ok [] s)| |].
  - by apply holds_nil.
  - done.
  - by apply owned_thread.
  - intros p Hp. apply Hok. by eapply owed_thread.
  - apply Hok.
  - apply Hok.
  - apply Hok.
  - apply Hok.
  - done.
  - done.
  - eapply submseteq_keeps_NoDup; [|exact (hd_once _ _ Hl)]. apply submseteq_skips_l.
    by apply owned_thread.
  - exact (hd_below _ _ Hl).
Qed.

(** A change of the other flags of the loop. *)
Lemma flags_ok l s f :
  holds l s ->
  (forall t, point (f t) = point t /\ graceful_stop_msg (f t) = graceful_stop_msg t /\
     deferred_promise (f t) = deferred_promise t /\ synchronizing (f t) = synchronizing t /\
     sync_pending_set (f t) = sync_pending_set t /\
     graceful_stop_phase (f t) = graceful_stop_phase t) ->
  holds l (upd_thread f s).
Proof.
  intros Hl Hf. destruct (Hf (thread s)) as (E1 & E2 & E3 & E4 & E5 & E6).
  assert (Hok := hd_ok _ _ Hl). apply thread_ok; [done| | |].
  - unfold kept_promises. simpl. by rewrite E1, E2, E3.
  - rewrite E3, E4, E5. apply Hok.
  - rewrite E2, E6. apply Hok.
Qed.

Lemma stopping_ok l s b f :
  holds l s -> f = set_stopping b \/ f = set_stopped b -> holds l (upd_control f s).
Proof.
  intros [Hok Hnd Hb] Hf. split.
  - destruct Hf as [-> | ->]; apply (retable_ok [] s); try done; try apply Hok; by apply holds_nil.
  - by destruct Hf as [-> | ->].
  - done.
Qed.

(** A sync takes over its promise. *)
Lemma sync_ok p l s :
  holds [p] s -> promises (objects s) !! p = Some None -> synchronizing (thread s) = false ->
  engine_ok (upd_thread (fun t => set_sync true (Some p) (l t) t) s).
Proof.
  intros Hl Hp Hsy. assert (Hok := hd_ok _ _ Hl).
  assert (Hs := eo_sync _ Hok). rewrite Hsy in Hs. destruct Hs as [Hd _].
  assert (Hk : kept_promises (upd_thread (fun t => set_sync true (Some p) (l t) t) s)
    = p :: kept_promises s) by (unfold kept_promises; simpl; by rewrite Hd).
  apply (retable_ok [p] s); try done; try apply Hok.
  - unfold owned at 1. rewrite Hk. unfold messages, starting, flagged. simpl.
    fold (starting s) (messages s) (flagged s). unfold owned.
    generalize (messages s ≫= objects_of) (flagged s) (kept_promises s)
      (map_values (request_handle_map (model_state s))) (map_values (result_queue_map (model_state s))).
    intros a b c d e. apply Permutation_submseteq. solve_Permutation.
  - intros p'. unfold owed. rewrite Hk. unfold messages, starting, flagged. simpl.
    fold (starting s) (messages s) (flagged s). rewrite !elem_of_app, elem_of_cons.
    intros [?|[?|[->|?]]]; [apply Hok| apply Hok|done|apply Hok]; unfold owed; set_solver.
  - by eexists.
Qed.

(** A graceful stop takes over its promise. *)
Lemma graceful_ok p s :
  holds [p] s -> promises (objects s) !! p = Some None ->
  engine_ok (upd_control (set_stopping true) (upd_thread (set_graceful true (Some p)) s)).
Proof.
  intros Hl Hp. assert (Hok := hd_ok _ _ Hl). set (s' := upd_control _ _).
  set (d := option_list (deferred_promise (thread s))).
  assert (Hk : exists k k', kept_promises s' = d ++ k /\ kept_promises s = d ++ k' /\ k ⊆+ [p]).
  { unfold kept_promises, d, s'. simpl. destruct (bool_decide _).
    - exists [], []. split_and!; [done..|apply submseteq_nil_l].
    - exists [p], (option_list (graceful_stop_msg (thread s))). done. }
  destruct Hk as (k & k' & Hk & Hk0 & Hsub).
  apply (retable_ok [p] s); try done; try apply Hok.
  - unfold owned. rewrite Hk, Hk0. unfold s', messages, starting, flagged. simpl.
    fold (starting s) (messages s) (flagged s).
    generalize (messages s ≫= objects_of) (flagged s) d
      (map_values (request_handle_map (model_state s))) (map_values (result_queue_map (model_state s))).
    intros a b c e f. apply (submseteq_trans _ ([p] ++ a ++ b ++ c ++ e ++ f)).
    + trans (k ++ a ++ b ++ c ++ e ++ f); [apply Permutation_submseteq; solve_Permutation|].
      by apply submseteq_skips_r.
    + simpl. apply submseteq_skip, submseteq_skips_l, submseteq_skips_l. rewrite <- app_assoc.
      apply submseteq_skips_l. by apply submseteq_inserts_l.
  - intros p'. unfold owed. rewrite Hk. unfold s', messages, starting, flagged. simpl.
    fold (starting s) (messages s) (flagged s). rewrite !elem_of_app.
    intros [?|[?|[?|Hin]]]; [apply Hok|apply Hok|apply Hok|]; unfold owed; rewrite ?Hk0; try set_solver.
    eapply elem_of_submseteq in Hin; [|exact Hsub]. apply list_elem_of_singleton in Hin as ->. done.
Qed.
(** A frame step, then on. *)
Lemma wp_framed {A} l s (m : E A) Q (Er : exn -> engine -> Prop) :
  holds l s -> (forall s0, pres (run_frame s0) m) ->
  (forall a s', run_frame s s' -> holds l s' -> Q a s') ->
  (forall e s', engine_ok s' -> Er e s') -> wp m Q Er s.
Proof.
  intros Hl Hm HQ HE. eapply wp_mono; [apply (Hm s); reflexivity| |].
  - intros a s' Hf. apply HQ; [done|by eapply holds_frame].
  - intros e s' Hf. apply HE, (holds_frame l s s' Hl Hf).
Qed.

Lemma frame_promises s s' p : run_frame s s' ->
  promises (objects s) !! p = Some None -> promises (objects s') !! p = Some None.
Proof. intros Hf. by rewrite (rf_promises _ _ Hf). Qed.

Lemma sync_all_fold l0 (l : list (string * nat)) s :
  holds l0 s -> synchronizing (thread s) = false ->
  Forall (fun e => exists hd, handles (objects s) !! snd e = Some hd) l ->
  wp (for_each l (fun '(_, h) =>
        hd ← get_handle h;
        modify (upd_thread (fun t => set_sync (synchronizing t) (deferred_promise t)
                                       ({[request_uuid hd]} ∪ sync_pending_set t) t))))
    (fun _ s' => exists x, s' = upd_thread (fun t => set_sync (synchronizing t) (deferred_promise t)
                                       (x ∪ sync_pending_set t) t) s)
    (fun _ _ => False) s.
Proof.
  intros Hl Hsy Hin.
  apply (wp_for_each (fun _ s' => exists x, s' = upd_thread (fun t => set_sync (synchronizing t)
    (deferred_promise t) (x ∪ sync_pending_set t) t) s)).
  - exists ∅. destruct s as [? ? ? [] ]. unfold upd_thread, set_sync. simpl. by rewrite union_empty_l_L.
  - intros pre [u h] rest s1 -> (x & ->). apply Forall_app in Hin as [_ [(hd & Hh) _]%Forall_cons].
    apply wp_bind. unfold get_handle. apply wp_obj; simpl; [|simpl in Hh; congruence].
    intros hd' Hh'. apply wp_modify. exists ({[request_uuid hd']} ∪ x).
    destruct s as [? ? ? [] ]. unfold upd_thread, set_sync. simpl. by rewrite union_assoc_L.
Qed.

Lemma map_order_lookup m u h : (u, h) ∈ map_order m <-> m !! u = Some h.
Proof. rewrite map_order_perm. apply elem_of_map_to_list. Qed.

Lemma handle_message_ok b m s :
  holds (objects_of m) s -> message_ok s m -> promises (objects s) !! promise_of m = Some None ->
  synchronizing (thread s) = false ->
  wp (handle_message ctx_ graph_ops_ conf b m) (fun _ => engine_ok) (fun _ => engine_ok) s.
Proof.
  intros Hl Hm Hp Hsy. assert (Hok := hd_ok _ _ Hl). unfold handle_message. apply wp_bind, wp_gets.
  destruct m as [p|p|p|p uuid h q cfg|p uuid|p|p uuid|p uuid]; simpl in Hp.
  - apply wp_bind, wp_modify, wp_modify. by apply graceful_ok.
  - apply wp_bind, wp_modify, wp_set_value; [done|]. apply answered_ok.
    by apply (flags_ok [p]).
  - by apply wp_ret.
  - destruct (graceful_stop_phase (thread s)).
    + apply wp_bind, wp_modify, wp_set_value; [done|]. apply answered_ok.
      apply flags_ok; [|by intros []]. eapply holds_less; [|exact Hl].
      apply submseteq_skip, submseteq_nil_l.
    + apply wp_bind, wp_modify, wp_bind, wp_gets. fold (registered uuid h q s).
      assert (Hr := registered_ok p uuid h q cfg s Hl Hm).
      destruct (request_handle_map _ !! uuid) as [h'|]; [|by apply wp_throw].
      apply wp_bind. eapply (wp_framed []); [by apply holds_nil|intros ?; apply (StartRequestImpl_frame ctx_ graph_ops_)| |done].
      intros st s' _ Hs'. apply wp_ret, Hs'.
  - apply wp_modify. by apply (sync_ok p (fun t => {[uuid]} ∪ sync_pending_set t)).
  - apply wp_bind, wp_gets, wp_bind. eapply wp_mono; [apply (sync_all_fold [p]); [done|done|]| |done].
    { apply Forall_forall. intros [u h] Hin%map_order_lookup.
      destruct (eo_handle _ Hok u h Hin) as (hd & Hh & _). by exists hd. }
    intros ? s' (x & ->). apply wp_modify.
    apply (sync_ok p (fun t => x ∪ sync_pending_set t) s Hl Hp Hsy).
  - apply wp_bind. eapply wp_framed; [exact Hl|intros ?; apply StopRequestByRequestID_frame| |done].
    intros st s' Hf Hl'. apply wp_set_value; [by eapply frame_promises|]. by apply answered_ok.
  - apply wp_bind. eapply wp_framed; [exact Hl|intros ?; apply StopRequestByRequestID_frame| |done].
    intros st1 s1 Hf1 Hl1. apply wp_bind.
    eapply wp_framed; [exact Hl1|intros ?; apply (ReleaseRequestByRequestID_frame ctx_ graph_ops_)| |done].
    intros st2 s2 Hf2 Hl2. apply wp_bind, wp_modify. fold (unregistered uuid s2).
    apply (unregistered_holds _ uuid) in Hl2.
    assert (Hp2 : promises (objects (unregistered uuid s2)) !! p = Some None)
      by (change (promises (objects s2) !! p = Some None); eauto using frame_promises).
    apply wp_bind. eapply wp_framed; [exact Hl2|intros ?; apply GetUnFinishedRequest_frame| |done].
    intros n s3 Hf3 Hl3. apply wp_bind.
    assert (Hp3 := frame_promises _ _ _ Hf3 Hp2).
    destruct (_ && _); simpl; [apply wp_modify|apply wp_ret]; (apply wp_set_value; [done|]);
      apply answered_ok; [|done]. by apply flags_ok.
Qed.

(** * The loop *)
Lemma goto_ok l p s : holds l s -> (p = Exited \/ point (thread s) <> Exited) ->
  holds l (upd_thread (set_point p) s).
Proof.
  intros Hl Hp. assert (Hok := hd_ok _ _ Hl). apply thread_ok; [done| |apply Hok|apply Hok].
  unfold kept_promises. simpl. apply submseteq_skips_l. destruct Hp as [-> | Hp].
  - rewrite bool_decide_true by done. apply submseteq_nil_l.
  - rewrite (bool_decide_false (point (thread s) = Exited)) by done.
    case_bool_decide; [apply submseteq_nil_l|done].
Qed.

Lemma wp_goto l p s Q (Er : exn -> engine -> Prop) :
  holds l s -> (p = Exited \/ point (thread s) <> Exited) ->
  (holds l (upd_thread (set_point p) s) -> Q tt (upd_thread (set_point p) s)) -> wp (goto p) Q Er s.
Proof. intros Hl Hp HQ. apply wp_modify, HQ. by apply goto_ok. Qed.

Lemma leave_messages_ok s : engine_ok s -> point (thread s) <> Exited ->
  wp leave_messages (fun _ => engine_ok) (fun _ => engine_ok) s.
Proof.
  intros Hok Hp. unfold leave_messages. apply wp_bind, wp_gets.
  apply (wp_goto []); [by apply holds_nil|by right|]. apply hd_ok.
Qed.

Lemma take_message_ok b none s : engine_ok s -> synchronizing (thread s) = false ->
  wp none (fun _ => engine_ok) (fun _ => engine_ok) s ->
  wp (take_message ctx_ graph_ops_ conf b none) (fun _ => engine_ok) (fun _ => engine_ok) s.
Proof.
  intros Hok Hsy Hnone. unfold take_message. apply wp_bind, wp_gets.
  destruct (msg_queue (model_state s)) as [|m rest] eqn:Hq; [done|].
  apply wp_bind, wp_modify. destruct (pop_ok m rest s Hok Hq) as (H1 & H2 & H3).
  by apply handle_message_ok.
Qed.

Lemma message_step_ok b b' s : engine_ok s -> point (thread s) <> Exited ->
  wp (message_step ctx_ graph_ops_ conf b b') (fun _ => engine_ok) (fun _ => engine_ok) s.
Proof.
  intros Hok Hp. unfold message_step. apply wp_bind, wp_gets, wp_bind, wp_gets.
  destruct (synchronizing (thread s)) eqn:Hsy; [by apply leave_messages_ok|].
  destruct b; [by apply take_message_ok, leave_messages_ok|].
  destruct (negb (bool_decide _)); [by apply leave_messages_ok|]. apply wp_bind.
  eapply (wp_framed []); [by apply holds_nil|intros ?; apply GetUnFinishedRequest_frame| |done].
  intros n s' Hf Hl. destruct (thread_le_fields _ _ (rf_thread _ _ Hf)) as (E1 & _ & _ & _ & _ & E2 & _).
  destruct (_ && _); [|apply leave_messages_ok; [apply Hl|congruence]].
  apply take_message_ok; [apply Hl|congruence|apply wp_ret, Hl].
Qed.

Lemma set_sync_ok s p : engine_ok s -> synchronizing (thread s) = true ->
  deferred_promise (thread s) = Some p ->
  holds [p] (upd_thread (set_sync false None ∅) s) /\ promises (objects s) !! p = Some None.
Proof.
  intros Hok Hsy Hd. set (s' := upd_thread _ s).
  assert (Hk : kept_promises s = p :: kept_promises s') by (unfold kept_promises; by rewrite Hd).
  assert (Howned : owned s ≡ₚ p :: owned s').
  { unfold owned. rewrite Hk. unfold messages, starting, flagged. simpl.
    fold (starting s) (messages s) (flagged s).
    generalize (messages s ≫= objects_of) (flagged s) (kept_promises s')
      (map_values (request_handle_map (model_state s))) (map_values (result_queue_map (model_state s))).
    intros a b c d e. solve_Permutation. }
  assert (Hin : p ∈ owed s) by (unfold owed; rewrite Hk; set_solver).
  split; [|by apply Hok]. split.
  - apply (thread_ok []); [by apply holds_nil|rewrite Hk; by apply submseteq_cons|done|apply Hok].
  - simpl. rewrite <- Howned. apply Hok.
  - apply Forall_singleton. assert (Hob := eo_owned_below _ Hok). rewrite Forall_forall in Hob.
    by apply Hob, owed_owned.
Qed.
Lemma finish_sync_ok s : engine_ok s ->
  wp finish_sync (fun _ s' => engine_ok s' /\ point (thread s') = point (thread s)) (fun _ => engine_ok) s.
Proof.
  intros Hok. unfold finish_sync. apply wp_bind, wp_gets.
  destruct (synchronizing (thread s)) eqn:Hsy; [|by apply wp_ret].
  case_bool_decide as Hpend; [|by apply wp_ret]. simpl. apply wp_bind, wp_modify, wp_bind.
  assert (Hd := eo_sync _ Hok). rewrite Hsy in Hd. destruct Hd as [p Hd]. rewrite Hd.
  destruct (set_sync_ok s p Hok Hsy Hd) as [Hl Hp].
  apply wp_set_value; [done|]. apply wp_modify. split; [|done]. by apply (answered_ok p _ _ Hl).
Qed.

(** The thread leaves with its promise answered. *)
Lemma exit_ok s p st b : engine_ok s -> point (thread s) <> Exited ->
  graceful_stop_msg (thread s) = Some p ->
  promises (objects s) !! p = Some None /\
  engine_ok (upd_thread (set_point Exited) (upd_control (set_stopped true)
    (answered p st (if b : bool then upd_thread (set_final_released true) s else s)))).
Proof.
  intros Hok Hpt Hg. set (s1 := if b then _ else s).
  assert (H1 : engine_ok s1 /\ point (thread s1) <> Exited /\ graceful_stop_msg (thread s1) = Some p
    /\ objects s1 = objects s).
  { unfold s1. destruct b; [|done]. split; [|done]. apply (flags_ok []); [by apply holds_nil|by intros []]. }
  clearbody s1. destruct H1 as (H1 & Hpt1 & Hg1 & Eo).
  set (s2 := upd_thread (set_point Exited) s1).
  assert (Hk : kept_promises s1 ≡ₚ p :: kept_promises s2).
  { unfold kept_promises, s2. simpl. rewrite bool_decide_false by done. rewrite Hg1. simpl.
    rewrite app_nil_r. by rewrite Permutation_app_comm. }
  assert (H2 : engine_ok s2) by (apply (goto_ok []); [by apply holds_nil|by left]).
  assert (Howned : owned s1 ≡ₚ p :: owned s2).
  { unfold owned. rewrite Hk. unfold messages, starting, flagged. simpl.
    fold (starting s1) (messages s1) (flagged s1).
    generalize (messages s1 ≫= objects_of) (flagged s1) (kept_promises s2)
      (map_values (request_handle_map (model_state s1))) (map_values (result_queue_map (model_state s1))).
    intros x y c d e. solve_Permutation. }
  assert (Hin : p ∈ owed s1) by (unfold owed; rewrite Hk; set_solver).
  split; [rewrite <- Eo; by apply H1|].
  assert (Hl : holds [p] s2).
  { split; [done|simpl; rewrite <- Howned; apply H1|]. apply Forall_singleton.
    assert (Hob := eo_owned_below _ H1). rewrite Forall_forall in Hob. by apply Hob, owed_owned. }
  apply (hd_ok []). apply (stopping_ok [] (answered p st s2) true); [|by right].
  by apply answered_holds.
Qed.

Lemma end_step_ok b s : engine_ok s -> point (thread s) <> Exited ->
  wp (end_step b) (fun _ => engine_ok) (fun _ => engine_ok) s.
Proof.
  intros Hok Hpt. unfold end_step. apply wp_bind, wp_gets, wp_bind, wp_gets, wp_bind.
  eapply (wp_framed []); [by apply holds_nil|intros ?; apply GetUnFinishedRequest_frame| |done].
  intros n s' Hf Hl. rewrite <- (rf_model_state _ _ Hf).
  destruct (thread_le_fields _ _ (rf_thread _ _ Hf)) as (Hp & _ & _ & Hph & Hg & _).
  assert (Hpt' : point (thread s') <> Exited) by (by rewrite Hp).
  destruct (_ && _); [|apply (wp_goto []); [done|by right|apply hd_ok]].
  rewrite <- Hg. destruct (graceful_stop_msg (thread s')) as [p|] eqn:Hgm; [|by apply wp_throw, Hl].
  apply wp_bind. destruct (_ && _).
  - apply wp_bind, wp_modify.
    destruct (exit_ok s' p ALLSPARK_SUCCESS true (hd_ok _ _ Hl) Hpt' Hgm) as [Hpp Hend].
    apply wp_set_value; [done|]. by apply wp_bind, wp_modify, wp_modify.
  - destruct (exit_ok s' p ALLSPARK_RUNTIME_ERROR false (hd_ok _ _ Hl) Hpt' Hgm) as [Hpp Hend].
    apply wp_set_value; [done|]. by apply wp_bind, wp_modify, wp_modify.
Qed.

Lemma wp_framed_goto s (m : E unit) p :
  engine_ok s -> point (thread s) <> Exited -> (forall s0, pres (run_frame s0) m) ->
  wp (m;; goto p) (fun _ => engine_ok) (fun _ => engine_ok) s.
Proof.
  intros Hok Hpt Hm. apply wp_bind. eapply (wp_framed []); [by apply holds_nil|exact Hm| |done].
  intros ? s' Hf Hl. apply (wp_goto []); [done| |apply hd_ok].
  right. by rewrite (proj1 (thread_le_fields _ _ (rf_thread _ _ Hf))).
Qed.

Lemma wp_seq_assoc {A B C} (m : E A) (n : E B) (k : E C) Q (Er : exn -> engine -> Prop) s :
  wp ((m;; n);; k) Q Er s -> wp (m;; n;; k) Q Er s.
Proof. unfold wp, mbind, M_bind. by destruct (m s) as [[a|e] s']. Qed.

Lemma context_phase_frame s0 :
  pres (run_frame s0) (RunEngineContext ctx_ graph_ops_ conf;; UpdateResult).
Proof. apply pres_bind; [apply RunEngineContext_frame|intros; apply UpdateResult_frame]. Qed.

Lemma loop_step_ok b b' : pres engine_ok (loop_step ctx_ graph_ops_ conf b b').
Proof.
  intros s Hok. unfold loop_step. apply wp_bind, wp_gets.
  destruct (point (thread s)) eqn:Hpt; try (assert (Hne : point (thread s) <> Exited) by congruence).
  - destruct (looping (thread s)); [|apply (wp_goto []); [by apply holds_nil|by left|apply hd_ok]].
    apply wp_bind, wp_modify. apply (wp_goto []); [|by right|apply hd_ok].
    apply flags_ok; [by apply holds_nil|by intros []].
  - by apply message_step_ok.
  - apply wp_seq_assoc, wp_framed_goto; [done..|apply context_phase_frame].
  - apply wp_framed_goto; [done..|apply RunContinue_frame].
  - apply wp_bind. eapply (wp_framed []); [by apply holds_nil|apply UpdateResult_frame| |done].
    intros ? s' Hf Hl. apply wp_bind. eapply wp_mono; [by apply finish_sync_ok, Hl| |done].
    intros ? s2 [H2 Hp2]. apply (wp_goto []); [by apply holds_nil| |apply hd_ok].
    right. rewrite Hp2. by rewrite (proj1 (thread_le_fields _ _ (rf_thread _ _ Hf))).
  - by apply end_step_ok.
  - by apply wp_ret.
Qed.
(** * The calls *)
Record same_tables s s' : Prop := mkSameTables {
  sb_retable : retable s s';
  sb_handles : request_handle_map (model_state s') = request_handle_map (model_state s);
  sb_queues : result_queue_map (model_state s') = result_queue_map (model_state s);
  sb_thread : thread s' = thread s;
}.

(** Only the messages on their way change, by what the caller owned. *)
Lemma messages_ok l s s' :
  holds l s -> same_tables s s' ->
  (messages s' ≫= objects_of) ++ flagged s' ⊆+ l ++ (messages s ≫= objects_of) ++ flagged s ->
  (forall p, p ∈ (promise_of <$> messages s') ++ flagged s' -> promises (objects s) !! p = Some None) ->
  Forall (message_ok s) (messages s') -> engine_ok s'.
Proof.
  intros Hl [Hrt Eh Eq Et] Hsub Hp Hms. assert (Hok := hd_ok _ _ Hl).
  apply (retable_ok l s); try done; rewrite ?Eh, ?Eq, ?Et; try apply Hok.
  - unfold owned, kept_promises. rewrite Eh, Eq, Et, !app_assoc. rewrite <- !app_assoc.
    rewrite (app_assoc l), (app_assoc (l ++ _)), app_assoc. apply submseteq_skips_r.
    by rewrite <- app_assoc.
  - intros p. unfold owed, kept_promises. rewrite Et, app_assoc, elem_of_app.
    intros [Hin|Hin]; [by apply Hp|]. apply Hok. unfold owed, kept_promises. set_solver.
Qed.

(** Nothing changes but flags and LoRA counts. *)
Lemma same_ok s s' : engine_ok s -> same_tables s s' ->
  messages s' ⊆+ messages s -> flagged s' = flagged s -> engine_ok s'.
Proof.
  intros Hok Hb Hm Hf. apply (messages_ok [] s); [by apply holds_nil|done|..].
  - rewrite Hf. simpl. apply submseteq_skips_r. clear -Hm. induction Hm as [| | | |? ? ? _ IH1 _ IH2]; simpl.
    + done.
    + by apply submseteq_skips_l.
    + rewrite !app_assoc. apply submseteq_skips_r. by rewrite Permutation_app_comm.
    + by apply submseteq_inserts_l.
    + by etrans.
  - intros p. rewrite Hf. intros [(m & -> & Hin)%list_elem_of_fmap|Hin]%elem_of_app; apply Hok; unfold owed.
    + apply elem_of_app. left. apply list_elem_of_fmap. exists m. split; [done|]. by eapply elem_of_submseteq.
    + set_solver.
  - apply Forall_forall. intros m Hin. assert (H := eo_messages _ Hok). rewrite Forall_forall in H.
    apply H. by eapply elem_of_submseteq.
Qed.

(** A call that takes over its own promise. *)
Lemma call_and_wait_ok s b m :
  engine_ok s -> lora_lock_ s = NoCaller ->
  (forall p, objects_of (m p) = [p] /\ promise_of (m p) = p /\ forall s, message_ok s (m p)) ->
  wp (call_and_wait b m) (fun _ => engine_ok) (fun _ => engine_ok) s.
Proof.
  intros Hok Hc Hm. unfold call_and_wait. apply wp_bind, wp_new_promise.
  set (p := next_obj (objects s)).
  assert (Hl : holds [p] (with_promise s)) by (apply (alloc_ok []); [by left|by apply holds_nil]).
  assert (Hp : promises (objects (with_promise s)) !! p = Some None) by (simpl; by rewrite lookup_insert_eq).
  destruct (Hm p) as (E1 & E2 & Hmok).
  destruct b; [|by apply wp_ret, Hl]. apply wp_bind, wp_modify, wp_bind, wp_modify, wp_ret.
  assert (Hok1 := hd_ok _ _ Hl).
  assert (Hms : messages (with_promise s) = msg_queue (model_state s))
    by (unfold messages, starting; simpl; rewrite Hc; by rewrite app_nil_r).
  apply (messages_ok [p] (with_promise s)); [done|by split| | |].
  - rewrite Hms. unfold messages, starting. simpl. rewrite app_nil_r, bind_app. simpl.
    rewrite E1, app_nil_r. change (flagged (set_caller _ _)) with (flagged s).
    change (flagged (with_promise s)) with (flagged s).
    apply Permutation_submseteq. solve_Permutation.
  - assert (Howed : forall p', p' ∈ (promise_of <$> messages (with_promise s)) ++ flagged s ->
      promises (objects (with_promise s)) !! p' = Some None).
    { intros p' Hin. apply Hok1. unfold owed. rewrite app_assoc. apply elem_of_app. by left. }
    intros p'. unfold messages, starting. simpl. rewrite app_nil_r, fmap_app. simpl. rewrite E2.
    rewrite Hms in Howed. change (flagged (set_caller _ _)) with (flagged s). intros Hin.
    destruct (decide (p' = p)) as [->|Hne]; [done|]. apply Howed. set_solver.
  - unfold messages, starting. simpl. rewrite app_nil_r. apply Forall_app. split; [|by constructor].
    rewrite <- Hms. apply Hok1.
Qed.

Lemma wp_use_handle {B} h (k : RequestHandle -> E B) Q (Er : exn -> engine -> Prop) s :
  Er UB s -> (forall hd, wp (k hd) Q Er s) -> wp (hd ← use_handle h; k hd) Q Er s.
Proof.
  intros HE Hk. unfold use_handle. apply wp_bind, wp_bind, wp_gets.
  destruct (handle_owned h s); [|by apply wp_throw]. by apply wp_obj; [intros hd _|].
Qed.

Lemma StopRequest_ok s b h : engine_ok s -> lora_lock_ s = NoCaller ->
  wp (Engine.StopRequest b h) (fun _ => engine_ok) (fun _ => engine_ok) s.
Proof.
  intros Hok Hc. unfold Engine.StopRequest. destruct h as [h|]; [|by apply wp_ret].
  apply wp_use_handle; [done|]. intros hd. by apply call_and_wait_ok.
Qed.
Lemma ReleaseRequest_ok s b h : engine_ok s -> lora_lock_ s = NoCaller ->
  wp (Engine.ReleaseRequest b h) (fun _ => engine_ok) (fun _ => engine_ok) s.
Proof.
  intros Hok Hc. unfold Engine.ReleaseRequest. destruct h as [h|]; [|by apply wp_ret].
  apply wp_use_handle; [done|]. intros hd. by apply call_and_wait_ok.
Qed.
Lemma SyncRequest_ok s b h : engine_ok s -> lora_lock_ s = NoCaller ->
  wp (SyncRequest b h) (fun _ => engine_ok) (fun _ => engine_ok) s.
Proof.
  intros Hok Hc. unfold SyncRequest. destruct h as [h|]; [|by apply call_and_wait_ok].
  apply wp_use_handle; [done|]. intros hd. by apply call_and_wait_ok.
Qed.

Lemma StopModel_flag_ok s : engine_ok s -> flagged s = [] ->
  wp StopModel_flag (fun _ => engine_ok) (fun _ => engine_ok) s.
Proof.
  intros Hok Hfl. unfold StopModel_flag. apply wp_bind, wp_new_promise.
  set (p := next_obj (objects s)).
  assert (Hl : holds [p] (with_promise s)) by (apply (alloc_ok []); [by left|by apply holds_nil]).
  assert (Hp : promises (objects (with_promise s)) !! p = Some None) by (simpl; by rewrite lookup_insert_eq).
  apply wp_bind, wp_gets. destruct (model_stopping _); [by apply wp_ret, Hl|].
  apply wp_bind, wp_modify, wp_bind, wp_modify, wp_ret. assert (Hok1 := hd_ok _ _ Hl).
  apply (messages_ok [p] (with_promise s)); [done|by split| | |].
  - change (messages (set_stopper _ _)) with (messages s). change (messages (with_promise s)) with (messages s).
    change (flagged (with_promise s)) with (flagged s). rewrite Hfl. unfold flagged. simpl.
    apply Permutation_submseteq. solve_Permutation.
  - intros p'. change (messages (set_stopper _ _)) with (messages (with_promise s)). unfold flagged at 1. simpl.
    intros [Hin|Hin]%elem_of_app; [apply Hok1; unfold owed; set_solver|].
    by apply list_elem_of_singleton in Hin as ->.
  - apply Hok1.
Qed.

Lemma StopModel_enqueue_ok s b p : engine_ok s -> stopper s = StopFlagged p ->
  wp (StopModel_enqueue b p) (fun _ => engine_ok) (fun _ => engine_ok) s.
Proof.
  intros Hok Hs. assert (Hfl : flagged s = [p]) by (unfold flagged; by rewrite Hs).
  unfold StopModel_enqueue. destruct b; apply wp_bind, wp_modify, wp_modify.
  - apply (messages_ok [] s); [by apply holds_nil|by split| | |].
    + unfold messages, starting. simpl. rewrite Hfl, !bind_app. unfold flagged. simpl.
      apply Permutation_submseteq. solve_Permutation.
    + intros p' Hin. apply Hok. unfold owed, messages, starting in *. rewrite Hfl. simpl in *.
      unfold flagged in Hin. simpl in Hin. rewrite !fmap_app in Hin. set_solver.
    + unfold messages, starting. simpl. assert (H := eo_messages _ Hok). unfold messages, starting in H.
      rewrite Forall_app in H. rewrite !Forall_app. destruct H. split_and!; try done. by constructor.
  - apply (messages_ok [] s); [by apply holds_nil|by split| | |apply Hok].
    + unfold flagged at 1. simpl. apply submseteq_skips_l, submseteq_nil_l.
    + intros p' Hin. apply Hok. unfold owed. unfold flagged in Hin. simpl in Hin.
      change (messages (set_stopper _ _)) with (messages s) in Hin. set_solver.
Qed.

Lemma StopModel_return_ok s p : engine_ok s -> stopper s = StopWaiting p ->
  wp (StopModel_return p) (fun _ => engine_ok) (fun _ => engine_ok) s.
Proof.
  intros Hok Hs. unfold StopModel_return. apply wp_bind, wp_obj; [|done]. intros v _.
  assert (Hfl : flagged s = []) by (unfold flagged; by rewrite Hs).
  apply wp_bind, wp_gets. destruct v as [st|]; [|by apply wp_ret].
  destruct (is_success st); [|apply wp_modify; by apply (same_ok s)].
  case_bool_decide; [|by apply wp_ret]. apply wp_bind, wp_modify, wp_modify. by apply (same_ok s).
Qed.
Lemma copy_inputs_length v i (ws : list (AsModel D R)) :
  length (omap (fun r => match r with Ok x => Some x | Err _ => None end)
    (fst (on_ranks i (fun _ => new_tensor v) ws))) = length ws.
Proof.
  revert i. induction ws as [|w ws IH]; intros i; [done|]. specialize (IH (S i)). simpl.
  destruct (on_ranks (S i) _ ws) as [rs ws1]. exact (f_equal S IH).
Qed.

Lemma wp_copy_inputs v Q (Er : exn -> engine -> Prop) s :
  (forall xs s', run_frame s s' -> length xs = length (workers_ s') -> Q xs s') ->
  wp (copy_inputs v) Q Er s.
Proof.
  intros HQ. unfold wp, copy_inputs.
  assert (H := on_ranks_le (fun _ => new_tensor v) 0 (workers_ s)
    (fun _ => worker_ok_new_tensor ctx_ graph_ops_ v)).
  assert (Hlen := copy_inputs_length v 0 (workers_ s)).
  destruct (on_ranks 0 _ (workers_ s)) as [rs ws]. simpl in *. apply HQ; [by split|].
  etrans; [exact Hlen|]. simpl. by eapply Forall2_length.
Qed.

Lemma set_loras_ok l s f :
  holds l s -> (forall s, exists m n, f s = set_loras m n s \/ f s = s) -> holds l (f s).
Proof.
  intros Hl Hf. destruct (Hf s) as (m & n & [-> | ->]); [|done].
  split; [by apply (same_ok s); [apply Hl|split| |]|apply Hl|apply Hl].
Qed.

Lemma StartRequest_check_ok lim uuid r s :
  engine_ok s -> lora_lock_ s = NoCaller ->
  wp (StartRequest_check lim uuid r) (fun _ => engine_ok) (fun _ => engine_ok) s.
Proof.
  intros Hok Hc. unfold StartRequest_check. destruct r as [r0|]; [|by apply wp_ret].
  destruct (InputParamsVerify lim r0) as [[st r]|e]; [|by apply wp_throw].
  destruct (negb (is_success st)); [by apply wp_ret|]. cbv zeta. apply wp_bind.
  set (lora := lora_name (config r)).
  assert (Hknown : pres (run_frame s) (if bool_decide (lora = "") then mret true : E bool
     else on_worker0 (gets (fun w => IsLoraExists (dev w) lora)))).
  { case_bool_decide; [apply pres_ret|]. apply on_worker0_frame, worker_ok_gets. }
  eapply wp_mono; [by apply Hknown| |intros e s1 Hf; by eapply engine_ok_frame].
  intros known s1 Hf1. simpl in Hf1. assert (H1 := holds_frame _ _ _ (holds_nil _ Hok) Hf1).
  assert (Hc1 : lora_lock_ s1 = NoCaller) by (by rewrite (rf_caller _ _ Hf1)).
  destruct (negb known); [by apply wp_ret, H1|]. clear Hf1 Hknown Hok Hc. apply wp_bind.
  assert (Hlora : wp (when (negb (bool_decide (lora = "")))
      (modify (fun s => set_loras (Some (default ∅ (loras_in_use_ s) ⊎ {[+ lora +]}))
         (lora_use_count_ s + 1) s)))
    (fun _ s' => holds [] s' /\ lora_lock_ s' = NoCaller) (fun _ _ => False) s1).
  { destruct (negb _); [|by apply wp_ret]. apply wp_modify. split; [|done].
    apply (set_loras_ok [] s1 (fun s => set_loras (Some (default ∅ (loras_in_use_ s) ⊎ {[+ lora +]}))
      (lora_use_count_ s + 1) s)); [done|]. intros s2. eexists _, _. by left. }
  eapply wp_mono; [exact Hlora| |done]. clear s1 H1 Hc1 Hlora. intros _ s1 [H1 Hc1].
  apply wp_bind, wp_new_promise. set (p := next_obj (objects s1)).
  assert (H2 : holds [p] (with_promise s1)) by (apply (alloc_ok []); [by left|done]).
  assert (Hp2 : promises (objects (with_promise s1)) !! p = Some None) by (simpl; by rewrite lookup_insert_eq).
  destruct (content_inputs r !! "input_ids") as [v|]; [|by apply wp_throw, H2].
  apply wp_bind, wp_copy_inputs. intros xs s2 Hf2 Hlen.
  assert (H3 := holds_frame _ _ _ H2 Hf2). assert (Hp3 := frame_promises _ _ _ Hf2 Hp2).
  assert (Hc2 : lora_lock_ s2 = NoCaller) by (by rewrite (rf_caller _ _ Hf2)).
  apply wp_bind, wp_new_handle. set (hd := mkRequestHandle _ _ _ _). set (h := next_obj (objects s2)).
  assert (H4 : holds [h; p] (with_handle hd s2)) by (apply (alloc_ok [p]); [right; left; by eexists|done]).
  apply wp_bind, wp_new_queue. set (q := next_obj (objects (with_handle hd s2))).
  set (s3 := with_queue (with_handle hd s2)).
  assert (H5 : holds [q; h; p] s3) by (apply (alloc_ok [h; p]); [by right; right|done]).
  apply wp_bind, wp_gets. destruct (model_stopping _); [by apply wp_ret, H5|].
  apply wp_bind, wp_modify, wp_ret. set (m := MsgStartRequest p uuid h q (config r)).
  assert (Hok3 := hd_ok _ _ H5).
  assert (Hms : messages s3 = msg_queue (model_state s3))
    by (unfold messages, starting; simpl; rewrite Hc2; by rewrite app_nil_r).
  assert (Hms' : messages (set_caller (Starting m lora) s3) = messages s3 ++ [m]) by (by rewrite Hms).
  assert (Hpq : promises (objects s3) !! p = Some None) by exact Hp3.
  apply (messages_ok [q; h; p] s3); [done|by split|rewrite Hms'..].
  - rewrite bind_app. simpl. change (flagged (set_caller _ _)) with (flagged s3).
    apply Permutation_submseteq. solve_Permutation.
  - rewrite fmap_app. simpl. change (flagged (set_caller _ _)) with (flagged s3). intros p' Hin.
    destruct (decide (p' = p)) as [->|Hne]; [done|]. apply Hok3. unfold owed. set_solver.
  - apply Forall_app. split; [apply Hok3|]. apply Forall_singleton. simpl. split.
    + exists hd. split; [simpl; by rewrite lookup_insert_eq|done].
    + simpl. rewrite lookup_insert_eq. by eexists.
Qed.

Lemma StartRequest_enqueue_ok b m lora s :
  engine_ok s -> lora_lock_ s = Starting m lora ->
  wp (StartRequest_enqueue b m lora) (fun _ => engine_ok) (fun _ => engine_ok) s.
Proof.
  intros Hok Hc. assert (Hms : messages s = msg_queue (model_state s) ++ [m])
    by (unfold messages, starting; by rewrite Hc).
  unfold StartRequest_enqueue. apply wp_bind, wp_modify. destruct b; apply wp_bind, wp_modify, wp_ret.
  - apply (same_ok s); [done|by split| |done]. rewrite Hms. unfold messages, starting. simpl.
    by rewrite app_nil_r.
  - apply (hd_ok []), (set_loras_ok [] (set_caller NoCaller s)
      (fun s => match loras_in_use_ s with
        | Some l => if bool_decide (lora = "") then s
            else if bool_decide (lora ∈ l)
            then set_loras (Some (l ∖ {[+ lora +]})) (lora_use_count_ s - 1) s else s
        | None => s end)).
    + apply holds_nil, (same_ok s); [done|by split| |done]. rewrite Hms. unfold messages, starting. simpl.
      rewrite app_nil_r. by apply submseteq_inserts_r.
    + intros s1. destruct (loras_in_use_ s1); [|exists None, 0; by right].
      repeat case_bool_decide; eexists _, _; first [by left|by right].
Unshelve. all: first [exact None|exact 0].
Qed.

(** ** Steps *)
Lemma reorder_ok l s : engine_ok s -> l ≡ₚ msg_queue (model_state s) ->
  engine_ok (upd_control (set_msg_queue l) s).
Proof.
  intros Hok Hl. apply (same_ok s); [done|by split| |done].
  unfold messages, starting. simpl. by rewrite Hl.
Qed.

Lemma wp_run_ok {A} (m : E A) s r s' :
  wp m (fun _ => engine_ok) (fun _ => engine_ok) s -> m s = (r, s') -> engine_ok s'.
Proof. unfold wp. intros H Hm. rewrite Hm in H. by destruct r. Qed.

Lemma client_calls_step q q' : client_calls q q' -> ResultQueue.step q q'.
Proof. intros []; by constructor. Qed.

Lemma client_frame s p q q' : queues (objects s) !! p = Some q -> client_calls q q' ->
  run_frame s (upd_objects (set_queues <[p := q']>) s).
Proof.
  intros Hq Hc. split; try done. simpl. apply (map_rel_upd (rtc ResultQueue.step) _ _ p q); try done.
  by apply rtc_once, client_calls_step.
Qed.

Lemma engine_step_ok lim s s' : engine_step ctx_ graph_ops_ conf lim s s' -> engine_ok s -> engine_ok s'.
Proof.
  intros Hstep Hok. destruct Hstep.
  - eapply wp_run_ok; [by apply loop_step_ok|done].
  - by apply reorder_ok.
  - eapply wp_run_ok; [by apply (StartRequest_check_ok lim uuid r)|done].
  - eapply wp_run_ok; [by eapply StartRequest_enqueue_ok|done].
  - eapply wp_run_ok; [by eapply StopRequest_ok|done].
  - eapply wp_run_ok; [by eapply ReleaseRequest_ok|done].
  - eapply wp_run_ok; [by eapply SyncRequest_ok|done].
  - apply (same_ok s); [done|by split| |done]. unfold messages, starting. simpl. by rewrite H.
  - eapply wp_run_ok; [apply StopModel_flag_ok; [done|]|done].
    unfold flagged. by destruct H as [-> |[? ->]].
  - eapply wp_run_ok; [by eapply StopModel_enqueue_ok|done].
  - eapply wp_run_ok; [by eapply StopModel_return_ok|done].
  - by eapply engine_ok_frame, client_frame.
Qed.

Lemma new_engine_ok ws : Forall tables_ok ws -> engine_ok (Engine_new ws).
Proof.
  intros Hw. split; try done.
  - split; intros p [? Hp]; simpl in Hp; by rewrite lookup_empty in Hp.
  - constructor.
  - intros p Hp. by apply not_elem_of_nil in Hp.
Qed.

Lemma engine_reachable_ok lim ws s :
  Forall tables_ok ws -> rtc (engine_step ctx_ graph_ops_ conf lim) (Engine_new ws) s -> engine_ok s.
Proof.
  intros Hw Hr. assert (H0 := new_engine_ok ws Hw).
  induction Hr as [|s1 s2 s3 Hs _ IH]; [done|]. apply IH. by eapply engine_step_ok.
Qed.
End proofs.
