(* ===== verification/EngineSync.v ===== *)
(** What clients can rely on across whole runs of the engine: result queues
    follow their protocol and answered promises stay answered; a sync returns
    only when the requests it waits for are done; and the situations in which
    a call waits for ever. *)
From stdpp Require Import base list gmap strings gmultiset relations.
From S2P Require Import Prelude FrameManager RequestCheck ResultQueue ModelState Scheduler.
From S2P Require Import SchedulerFrame SchedulerProofs SchedulerSteps SchedulerSpec.
From S2P Require Import EngineState Engine EngineFrame EngineProofs.

Section sync.
Context {D R K : Type} `{MD : ModelDevice D R} `{KS : Kernels D R K} `{HO : HashOrder}.
Variable ctx_ : nat -> DeviceContext.
Variable graph_ops_ : nat -> Graph K.
Variable conf : EngineConfig.
Abbreviation E := (M (Engine D R)).
Abbreviation engine := (Engine D R).
Abbreviation engine_step := (engine_step ctx_ graph_ops_ conf).
Implicit Types s : engine.

(** * Objects over time *)

(** Queues move by their protocol, new ones are empty; the value of a promise
    does not change once it is set. *)
Record heap_step s s' : Prop := mkHeapStep {
  hp_queues p q : queues (objects s) !! p = Some q ->
    exists q', queues (objects s') !! p = Some q' /\ rtc ResultQueue.step q q';
  hp_new p q' : queues (objects s') !! p = Some q' ->
    exists q, (queues (objects s) !! p = Some q \/ q = ResultQueue_new) /\ rtc ResultQueue.step q q';
  hp_promises p v : promises (objects s) !! p = Some (Some v) ->
    promises (objects s') !! p = Some (Some v);
  hp_below : objects_below s';
}.
Definition heap_keeps s s' : Prop := objects_below s -> heap_step s s'.

#[export] Instance heap_keeps_preorder : PreOrder heap_keeps.
Proof.
  split.
  - intros s Hb. split; eauto using rtc_refl.
  - intros s1 s2 s3 H1 H2 Hb. destruct (H1 Hb) as [Ha Hb1 Hc Hd]. destruct (H2 Hd) as [Ha' Hb' Hc' Hd'].
    split; auto.
    + intros p q Hq. destruct (Ha p q Hq) as (q2 & Hq2 & Hr). destruct (Ha' p q2 Hq2) as (q3 & Hq3 & Hr').
      exists q3. split; [done|by etrans].
    + intros p q3 Hq3. destruct (Hb' p q3 Hq3) as (q2 & [Hq2| ->] & Hr); [|eauto].
      destruct (Hb1 p q2 Hq2) as (q1 & Hq1 & Hr'). exists q1. split; [done|by etrans].
Qed.

Lemma run_frame_heap s s' : run_frame s s' -> heap_keeps s s'.
Proof.
  intros Hf [Hh Hq Hp]. split.
  - intros p q Hq1. destruct (map_rel_lookup _ _ _ _ _ (rf_queues _ _ Hf) Hq1) as (q' & ? & ?). eauto.
  - intros p q' Hq'. destruct (map_rel_lookup_r _ _ _ _ _ (rf_queues _ _ Hf) Hq') as (q & ? & ?). eauto.
  - intros p v. by rewrite (rf_promises _ _ Hf).
  - split; intros p [a Ha]; rewrite (rf_next _ _ Hf).
    + destruct (map_rel_lookup_r _ _ _ _ _ (rf_handles _ _ Hf) Ha) as (? & ? & _); eauto.
    + destruct (map_rel_lookup_r _ _ _ _ _ (rf_queues _ _ Hf) Ha) as (? & ? & _); eauto.
    + rewrite (rf_promises _ _ Hf) in Ha. eauto.
Qed.

Definition heap_pres {A} (m : E A) : Prop := forall s0, pres (heap_keeps s0) m.

Lemma heap_pres_frame {A} (m : E A) : (forall s0, pres (run_frame s0) m) -> heap_pres m.
Proof.
  intros Hm s0 s Hs. eapply wp_mono; [apply (Hm s); reflexivity| |];
    intros ? s' Hf; (etrans; [exact Hs|by apply run_frame_heap]).
Qed.
Lemma heap_pres_modify f : (forall s, objects (f s) = objects s) -> heap_pres (modify f).
Proof.
  intros Hf s0. apply pres_modify. intros s Hs. etrans; [exact Hs|]. intros [Hh Hq Hp].
  split; rewrite ?Hf; eauto using rtc_refl. by split; rewrite Hf.
Qed.
Lemma heap_pres_bind {A B} (m : E A) (f : A -> E B) :
  heap_pres m -> (forall a, heap_pres (f a)) -> heap_pres (m ≫= f).
Proof. intros Hm Hf s0. apply pres_bind; [apply Hm|intros; apply Hf]. Qed.
Lemma heap_pres_ret {A} (a : A) : heap_pres (mret a).
Proof. intros s0. apply pres_ret. Qed.
Lemma heap_pres_throw {A} e : heap_pres (throw (A := A) e).
Proof. intros s0. apply pres_throw. Qed.
Lemma heap_pres_gets {A} (f : engine -> A) : heap_pres (gets f).
Proof. intros s0. apply pres_gets. Qed.
Lemma heap_pres_obj {A} (get : Objects -> gmap nat A) p : heap_pres (obj get p).
Proof. intros s0. apply obj_pres. Qed.
Lemma heap_pres_when b m : heap_pres m -> heap_pres (when b m).
Proof. intros H s0. apply pres_when, H. Qed.
Lemma heap_pres_for_each {A} (l : list A) body : (forall a, heap_pres (body a)) -> heap_pres (for_each l body).
Proof. intros H s0. apply pres_for_each. intros a. apply H. Qed.

Lemma heap_pres_set_value p st : heap_pres (set_value p st).
Proof.
  intros s0 s Hs. unfold set_value. apply wp_bind, wp_obj; [|done]. intros [v|] Hv; [by apply wp_throw|].
  apply wp_modify. etrans; [exact Hs|]. intros [Hh Hq Hp]. split; eauto using rtc_refl.
  - intros p' v Hp'. simpl. rewrite lookup_insert_ne; [done|congruence].
  - split; [done|done|]. intros p' Hp'. simpl in Hp'. destruct (decide (p = p')) as [<-|Hne]; [eauto|].
    rewrite lookup_insert_ne in Hp' by done. eauto.
Qed.

Lemma insert_next {A} (m : gmap nat A) n a p b :
  (forall p, is_Some (m !! p) -> (p < n)%nat) -> m !! p = Some b -> <[n := a]> m !! p = Some b.
Proof.
  intros Hm Hp. rewrite lookup_insert_ne; [done|]. intros <-. specialize (Hm n ltac:(eauto)). lia.
Qed.

Lemma with_below s f :
  f = with_promise \/ (exists h, f = with_handle h) \/ f = with_queue -> heap_keeps s (f s).
Proof.
  intros Hf Hb. assert (Hb' := Hb). destruct Hb' as [Hh Hq Hp].
  assert (Hbel : objects_below (f s)).
  { assert (HS : forall p, (p < next_obj (objects s))%nat -> (p < S (next_obj (objects s)))%nat) by lia.
    destruct Hf as [->|[[h ->]| ->]]; split; simpl; auto; intros p; by apply insert_below. }
  destruct Hf as [->|[[h ->]| ->]]; (split; [| | |exact Hbel]); simpl; eauto using rtc_refl.
  - intros p v. by apply insert_next.
  - intros p q Hq1. exists q. split; [by apply insert_next|done].
  - intros p q'. destruct (decide (next_obj (objects s) = p)) as [<-|Hne].
    + rewrite lookup_insert_eq. intros [= <-]. eauto using rtc_refl.
    + rewrite lookup_insert_ne by done. eauto using rtc_refl.
Qed.
Lemma heap_pres_new_promise : heap_pres new_promise.
Proof.
  intros s0 s Hs. apply wp_new_promise. etrans; [exact Hs|]. apply with_below. by left.
Qed.
Lemma heap_pres_new_handle h : heap_pres (new_handle h).
Proof.
  intros s0 s Hs. apply wp_new_handle. etrans; [exact Hs|]. apply (with_below s (with_handle h)). right. left. by eexists.
Qed.
Lemma heap_pres_new_queue : heap_pres new_queue.
Proof.
  intros s0 s Hs. apply wp_new_queue. etrans; [exact Hs|]. apply with_below. by right; right.
Qed.
Lemma heap_pres_copy_inputs v : heap_pres (copy_inputs v).
Proof.
  intros s0 s Hs. apply (wp_copy_inputs ctx_ graph_ops_). intros xs s' Hf _.
  etrans; [exact Hs|by apply run_frame_heap].
Qed.
End sync.

Create HintDb heap_pres.
#[export] Hint Resolve heap_pres_set_value heap_pres_obj heap_pres_new_promise heap_pres_new_handle
  heap_pres_new_queue heap_pres_copy_inputs : heap_pres.
Ltac heap_step_tac :=
  lazymatch goal with
  | |- heap_pres (mbind _ _) => apply heap_pres_bind; [|intros ?]
  | |- heap_pres (mret _) => apply heap_pres_ret
  | |- heap_pres (throw _) => apply heap_pres_throw
  | |- heap_pres (gets _) => apply heap_pres_gets
  | |- heap_pres (when _ _) => apply heap_pres_when
  | |- heap_pres (for_each _ _) => apply heap_pres_for_each; intros ?
  | |- heap_pres (modify _) => apply heap_pres_modify; intros ?; repeat case_match; done
  | |- heap_pres (goto _) => unfold goto
  | |- heap_pres (enqueue _) => unfold enqueue
  | |- heap_pres (get_handle _) => unfold get_handle
  | |- heap_pres (use_handle _) => unfold use_handle
  | |- heap_pres (if ?b then _ else _) => destruct b eqn:?
  | |- heap_pres (match ?x with _ => _ end) => destruct x eqn:?
  | |- heap_pres (let _ := _ in _) => cbv zeta
  end.
Ltac heap_tac := repeat (heap_step_tac || solve [eauto with heap_pres]).

Section runs.
Context {D R K : Type} `{MD : ModelDevice D R} `{KS : Kernels D R K} `{HO : HashOrder}.
Variable ctx_ : nat -> DeviceContext.
Variable graph_ops_ : nat -> Graph K.
Variable conf : EngineConfig.
Abbreviation E := (M (Engine D R)).
Abbreviation engine := (Engine D R).
Abbreviation engine_step := (engine_step ctx_ graph_ops_ conf).
Implicit Types s : engine.

Lemma heap_pres_unfinished : heap_pres (GetUnFinishedRequest (D := D) (R := R)).
Proof. apply heap_pres_frame, GetUnFinishedRequest_frame. Qed.
Lemma heap_pres_stop id : heap_pres (StopRequestByRequestID ctx_ graph_ops_ conf id).
Proof. apply heap_pres_frame. intros. apply StopRequestByRequestID_frame. Qed.
Lemma heap_pres_release id : heap_pres (ReleaseRequestByRequestID (D := D) (R := R) conf id).
Proof. apply heap_pres_frame. intros. apply (ReleaseRequestByRequestID_frame ctx_ graph_ops_). Qed.
Lemma heap_pres_start h cfg : heap_pres (StartRequestImpl (D := D) (R := R) conf h cfg).
Proof. apply heap_pres_frame. intros. apply (StartRequestImpl_frame ctx_ graph_ops_). Qed.
Lemma heap_pres_update : heap_pres (UpdateResult (D := D) (R := R)).
Proof. apply heap_pres_frame, UpdateResult_frame. Qed.
#[local] Hint Resolve heap_pres_unfinished heap_pres_stop heap_pres_release heap_pres_start
  heap_pres_update : heap_pres.

Lemma heap_pres_handle b m : heap_pres (handle_message ctx_ graph_ops_ conf b m).
Proof. unfold handle_message. heap_tac. Qed.
#[local] Hint Resolve heap_pres_handle : heap_pres.

Lemma heap_pres_message_step b b' : heap_pres (message_step ctx_ graph_ops_ conf b b').
Proof. unfold message_step, take_message, leave_messages. heap_tac. Qed.
Lemma heap_pres_finish_sync : heap_pres (finish_sync (D := D) (R := R)).
Proof. unfold finish_sync. heap_tac. Qed.
Lemma heap_pres_end_step b : heap_pres (end_step (D := D) (R := R) b).
Proof. unfold end_step. heap_tac. Qed.
#[local] Hint Resolve heap_pres_message_step heap_pres_finish_sync heap_pres_end_step : heap_pres.

Lemma heap_pres_loop b b' : heap_pres (loop_step ctx_ graph_ops_ conf b b').
Proof.
  unfold loop_step. heap_tac.
  - apply heap_pres_frame, RunEngineContext_frame.
  - apply heap_pres_frame, RunContinue_frame.
Qed.

Lemma heap_pres_call b m : heap_pres (call_and_wait (D := D) (R := R) b m).
Proof. unfold call_and_wait. heap_tac. Qed.
#[local] Hint Resolve heap_pres_call : heap_pres.
Lemma heap_pres_start_check lim uuid r : heap_pres (StartRequest_check (D := D) (R := R) lim uuid r).
Proof.
  unfold StartRequest_check. heap_tac.
  - apply heap_pres_frame. intros s0. apply on_worker0_frame, worker_ok_gets.
Qed.

Lemma heap_run {A} (m : E A) s r s' : heap_pres m -> m s = (r, s') -> heap_keeps s s'.
Proof.
  intros Hm Hr. specialize (Hm s s ltac:(reflexivity)). unfold wp in Hm. rewrite Hr in Hm. by destruct r.
Qed.

Lemma engine_step_heap lim s s' : engine_step lim s s' -> heap_keeps s s'.
Proof.
  intros Hstep. destruct Hstep; try (eapply heap_run; [|eassumption]).
  - apply heap_pres_loop.
  - apply (heap_run (modify (upd_control (set_msg_queue l))) s (Ok tt)); [heap_tac|done].
  - apply heap_pres_start_check.
  - unfold StartRequest_enqueue. heap_tac.
  - unfold Engine.StopRequest. heap_tac.
  - unfold Engine.ReleaseRequest. heap_tac.
  - unfold SyncRequest. heap_tac.
  - apply (heap_run (modify (set_caller NoCaller)) s (Ok tt)); [heap_tac|done].
  - unfold StopModel_flag. heap_tac.
  - unfold StopModel_enqueue. heap_tac.
  - unfold StopModel_return. heap_tac.
  - by eapply run_frame_heap, client_frame.
Qed.

Lemma run_heap lim s s' : rtc (engine_step lim) s s' -> heap_keeps s s'.
Proof.
  induction 1 as [|s1 s2 s3 Hs _ IH]; [reflexivity|]. etrans; [by eapply engine_step_heap|done].
Qed.

Lemma reachable_queue lim ws s p q :
  rtc (engine_step lim) (Engine_new ws) s -> queues (objects s) !! p = Some q ->
  rtc ResultQueue.step ResultQueue_new q.
Proof.
  intros Hr Hq. assert (Hb : objects_below (Engine_new ws))
    by (split; intros ? [? Hp]; simpl in Hp; by rewrite lookup_empty in Hp).
  destruct (run_heap lim _ _ Hr Hb) as [_ Hn _ _]. destruct (Hn p q Hq) as (q0 & [H0| ->] & Hrtc); [|done].
  simpl in H0. by rewrite lookup_empty in H0.
Qed.
End runs.

(** * Calls leave the loop's tables alone *)
Section calls.
Context {D R K : Type} `{MD : ModelDevice D R} `{KS : Kernels D R K} `{HO : HashOrder}.
Variable ctx_ : nat -> DeviceContext.
Variable graph_ops_ : nat -> Graph K.
Variable conf : EngineConfig.
Abbreviation E := (M (Engine D R)).
Abbreviation engine := (Engine D R).
Abbreviation engine_step := (engine_step ctx_ graph_ops_ conf).
Implicit Types s : engine.

Record tabs s s' : Prop := mkTabs {
  tb_thread : thread s' = thread s;
  tb_handles : request_handle_map (model_state s') = request_handle_map (model_state s);
  tb_queues : result_queue_map (model_state s') = result_queue_map (model_state s);
  tb_messages : msg_queue (model_state s) ⊆+ msg_queue (model_state s');
  tb_promises p : is_Some (promises (objects s) !! p) ->
    promises (objects s') !! p = promises (objects s) !! p;
  tb_below : objects_below s';
}.
Definition tabs_keeps s s' : Prop := objects_below s -> tabs s s'.

#[export] Instance tabs_keeps_preorder : PreOrder tabs_keeps.
Proof.
  split; [by intros s Hb; split|].
  intros s1 s2 s3 H1 H2 Hb. destruct (H1 Hb) as [a1 b1 c1 d1 e1 f1].
  destruct (H2 f1) as [a2 b2 c2 d2 e2 f2].
  split; [congruence|congruence|congruence|by etrans| |done].
  intros p Hp. rewrite e2; [by apply e1|]. by rewrite e1.
Qed.

Definition tabs_pres {A} (m : E A) : Prop := forall s0, pres (tabs_keeps s0) m.

Lemma tabs_pres_bind {A B} (m : E A) (f : A -> E B) :
  tabs_pres m -> (forall a, tabs_pres (f a)) -> tabs_pres (m ≫= f).
Proof. intros Hm Hf s0. apply pres_bind; [apply Hm|intros; apply Hf]. Qed.
Lemma tabs_pres_ret {A} (a : A) : tabs_pres (mret a).
Proof. intros s0. apply pres_ret. Qed.
Lemma tabs_pres_throw {A} e : tabs_pres (throw (A := A) e).
Proof. intros s0. apply pres_throw. Qed.
Lemma tabs_pres_gets {A} (f : engine -> A) : tabs_pres (gets f).
Proof. intros s0. apply pres_gets. Qed.
Lemma tabs_pres_when b m : tabs_pres m -> tabs_pres (when b m).
Proof. intros H s0. apply pres_when, H. Qed.
Lemma tabs_pres_obj {A} (get : Objects -> gmap nat A) p : tabs_pres (obj get p).
Proof. intros s0. apply obj_pres. Qed.
Lemma tabs_pres_modify f :
  (forall s, objects (f s) = objects s /\ thread (f s) = thread s /\
     request_handle_map (model_state (f s)) = request_handle_map (model_state s) /\
     result_queue_map (model_state (f s)) = result_queue_map (model_state s) /\
     msg_queue (model_state s) ⊆+ msg_queue (model_state (f s))) -> tabs_pres (modify f).
Proof.
  intros Hf s0. apply pres_modify. intros s Hs. etrans; [exact Hs|]. intros [Hh Hq Hp].
  destruct (Hf s) as (Eo & Et & Eh & Eq & Em). split; try done; [by rewrite Eo|]. by split; rewrite Eo.
Qed.
Lemma tabs_alloc s f :
  f = with_promise \/ (exists h, f = with_handle h) \/ f = with_queue -> tabs_keeps s (f s).
Proof.
  intros Hf Hb. assert (Hbel : objects_below (f s)) by (by apply (hp_below _ _ (with_below s f Hf Hb))).
  destruct Hf as [->|[[h ->]| ->]]; split; try done. intros p Hp. simpl.
  apply lookup_insert_ne. intros <-. assert (H := ob_promises _ Hb _ Hp). lia.
Qed.
Lemma tabs_pres_new_promise : tabs_pres new_promise.
Proof. intros s0 s Hs. apply wp_new_promise. etrans; [exact Hs|]. apply tabs_alloc. by left. Qed.
Lemma tabs_pres_new_handle h : tabs_pres (new_handle h).
Proof.
  intros s0 s Hs. apply wp_new_handle. etrans; [exact Hs|]. apply (tabs_alloc s (with_handle h)).
  right. left. by eexists.
Qed.
Lemma tabs_pres_new_queue : tabs_pres new_queue.
Proof. intros s0 s Hs. apply wp_new_queue. etrans; [exact Hs|]. apply tabs_alloc. by right; right. Qed.
Lemma tabs_workers s ws : tabs_keeps s (set_workers ws s).
Proof. intros []. by split. Qed.
Lemma tabs_pres_worker0 {A} (m : M (AsModel D R) A) : tabs_pres (on_worker0 m).
Proof.
  intros s0 s Hs. unfold wp, on_worker0. destruct (workers_ s) as [|w ws]; [done|].
  destruct (m w) as [[a|e] w1]; (etrans; [exact Hs|apply tabs_workers]).
Qed.
Lemma tabs_pres_copy_inputs v : tabs_pres (copy_inputs v).
Proof.
  intros s0 s Hs. unfold wp, copy_inputs. destruct (on_ranks 0 _ (workers_ s)) as [rs ws].
  etrans; [exact Hs|apply tabs_workers].
Qed.
End calls.

#[export] Hint Resolve tabs_pres_obj tabs_pres_new_promise tabs_pres_new_handle tabs_pres_new_queue
  tabs_pres_copy_inputs tabs_pres_worker0 : tabs_pres.
Ltac tabs_step_tac :=
  lazymatch goal with
  | |- tabs_pres (mbind _ _) => apply tabs_pres_bind; [|intros ?]
  | |- tabs_pres (mret _) => apply tabs_pres_ret
  | |- tabs_pres (throw _) => apply tabs_pres_throw
  | |- tabs_pres (gets _) => apply tabs_pres_gets
  | |- tabs_pres (when _ _) => apply tabs_pres_when
  | |- tabs_pres (modify _) => apply tabs_pres_modify; intros ?; repeat case_match;
      split_and!; try done; by apply submseteq_inserts_r
  | |- tabs_pres (enqueue _) => unfold enqueue
  | |- tabs_pres (get_handle _) => unfold get_handle
  | |- tabs_pres (use_handle _) => unfold use_handle
  | |- tabs_pres (if ?b then _ else _) => destruct b eqn:?
  | |- tabs_pres (match ?x with _ => _ end) => destruct x eqn:?
  | |- tabs_pres (let _ := _ in _) => cbv zeta
  end.
Ltac tabs_tac := repeat (tabs_step_tac || solve [eauto with tabs_pres]).

Section waiting.
Context {D R K : Type} `{MD : ModelDevice D R} `{KS : Kernels D R K} `{HO : HashOrder}.
Variable ctx_ : nat -> DeviceContext.
Variable graph_ops_ : nat -> Graph K.
Variable conf : EngineConfig.
Abbreviation E := (M (Engine D R)).
Abbreviation engine := (Engine D R).
Abbreviation engine_step := (engine_step ctx_ graph_ops_ conf).
Implicit Types s : engine.

Lemma tabs_run {A} (m : E A) s r s' : tabs_pres m -> m s = (r, s') -> tabs_keeps s s'.
Proof.
  intros Hm Hr. specialize (Hm s s ltac:(reflexivity)). unfold wp in Hm. rewrite Hr in Hm. by destruct r.
Qed.

Lemma tabs_call b m : tabs_pres (call_and_wait (D := D) (R := R) b m).
Proof. unfold call_and_wait. tabs_tac. Qed.
#[local] Hint Resolve tabs_call : tabs_pres.

(** A step is one of the loop, or leaves the loop's tables alone. *)
Lemma engine_step_cases lim s s' : engine_step lim s s' ->
  (exists b b', loop_step ctx_ graph_ops_ conf b b' s = (Ok tt, s')) \/ tabs_keeps s s'.
Proof.
  intros Hstep. destruct Hstep; [left; by do 2 eexists|right..]; try (eapply tabs_run; [|eassumption]).
  - intros Hb. split; try done; [simpl; by rewrite H|by destruct Hb].
  - unfold StartRequest_check. tabs_tac.
  - unfold StartRequest_enqueue. tabs_tac.
  - unfold Engine.StopRequest. tabs_tac.
  - unfold Engine.ReleaseRequest. tabs_tac.
  - unfold SyncRequest. tabs_tac.
  - apply (tabs_run (modify (set_caller NoCaller)) s (Ok tt)); [tabs_tac|done].
  - unfold StopModel_flag. tabs_tac.
  - unfold StopModel_enqueue. tabs_tac.
  - unfold StopModel_return. tabs_tac.
  - intros [Hh Hq Hp]. split; try done. split; [done| |done]. intros p' Hp'. simpl in Hp'.
    destruct (decide (p = p')) as [<-|Hne]; [by apply Hq|]. rewrite lookup_insert_ne in Hp' by done. by apply Hq.
Qed.

(** ** The loop while it waits for a sync *)
Record syncing s s' : Prop := mkSyncing {
  sy_on : synchronizing (thread s') = true;
  sy_deferred : deferred_promise (thread s') = deferred_promise (thread s);
  sy_queues : result_queue_map (model_state s') = result_queue_map (model_state s);
  sy_messages : msg_queue (model_state s') = msg_queue (model_state s);
  sy_pending u : u ∈ sync_pending_set (thread s) -> u ∉ sync_pending_set (thread s') -> queue_done s' u;
}.
(** The sync has come to its end. *)
Definition synced (p : nat) s s' : Prop :=
  promises (objects s') !! p = Some (Some ALLSPARK_SUCCESS) /\
  result_queue_map (model_state s') = result_queue_map (model_state s) /\
  forall u, u ∈ sync_pending_set (thread s) -> queue_done s' u.

Lemma wp_seq_assoc' {A B C} (m : E A) (n : E B) (k : E C) Q (Er : exn -> engine -> Prop) s :
  wp (m;; n;; k) Q Er s -> wp ((m;; n);; k) Q Er s.
Proof. unfold wp, mbind, M_bind. by destruct (m s) as [[a|e] s']. Qed.

Lemma frame_syncing s s1 s' :
  synchronizing (thread s) = true -> run_frame s s1 ->
  queues (objects s') = queues (objects s1) ->
  result_queue_map (model_state s') = result_queue_map (model_state s1) ->
  msg_queue (model_state s') = msg_queue (model_state s1) ->
  synchronizing (thread s') = synchronizing (thread s1) ->
  deferred_promise (thread s') = deferred_promise (thread s1) ->
  sync_pending_set (thread s') = sync_pending_set (thread s1) -> syncing s s'.
Proof.
  intros Hsy Hf Eq Em Ems Es Ed Ep.
  destruct (thread_le_fields _ _ (rf_thread _ _ Hf)) as (_ & _ & _ & _ & _ & Hs1 & Hd1).
  split; try congruence.
  - by rewrite Em, (rf_model_state _ _ Hf).
  - by rewrite Ems, (rf_model_state _ _ Hf).
  - intros u Hu. rewrite Ep. intros Hn. destruct (rf_sync _ _ Hf u Hu Hn) as (p & q & H1 & H2 & H3).
    exists p, q. by rewrite Em, Eq.
Qed.

Lemma wp_finish_syncing s s1 p :
  engine_ok s -> synchronizing (thread s) = true -> deferred_promise (thread s) = Some p ->
  run_frame s s1 ->
  wp finish_sync (fun _ s' => syncing s (upd_thread (set_point AtEnd) s') \/
     synced p s (upd_thread (set_point AtEnd) s')) (fun _ _ => True) s1.
Proof.
  intros Hok Hsy Hd Hf.
  destruct (thread_le_fields _ _ (rf_thread _ _ Hf)) as (_ & _ & _ & _ & _ & Hs1 & Hd1).
  assert (Hok1 := engine_ok_frame _ _ Hok Hf).
  unfold finish_sync. apply wp_bind, wp_gets. rewrite Hs1, Hsy. case_bool_decide as Hp; simpl.
  - apply wp_bind, wp_modify, wp_bind. rewrite Hd1, Hd.
    assert (Hpp : promises (objects s1) !! p = Some None).
    { apply Hok1. unfold owed, kept_promises. rewrite Hd1, Hd. set_solver. }
    apply wp_set_value; [done|]. apply wp_modify. right. split_and!.
    + simpl. by rewrite lookup_insert_eq.
    + simpl. by rewrite (rf_model_state _ _ Hf).
    + intros u Hu. destruct (rf_sync _ _ Hf u Hu) as (p' & q & H1 & H2 & H3).
      { rewrite Hp. apply not_elem_of_empty. }
      by exists p', q.
  - apply wp_ret. left. by apply (frame_syncing s s1).
Qed.

Lemma wp_loop_syncing b b' s p :
  engine_ok s -> synchronizing (thread s) = true -> deferred_promise (thread s) = Some p ->
  wp (loop_step ctx_ graph_ops_ conf b b') (fun _ s' => syncing s s' \/ synced p s s') (fun _ _ => True) s.
Proof.
  intros Hok Hsy Hd. unfold loop_step. apply wp_bind, wp_gets.
  assert (Hsame : forall f, (forall t, synchronizing (f t) = synchronizing t /\
    deferred_promise (f t) = deferred_promise t /\ sync_pending_set (f t) = sync_pending_set t) ->
    syncing s (upd_thread f s)).
  { intros f Hf. destruct (Hf (thread s)) as (E1 & E2 & E3). by apply (frame_syncing s s). }
  assert (Hframed : forall (m : E unit) pt, (forall s0, pres (run_frame s0) m) ->
    wp (m;; goto pt) (fun _ s' => syncing s s' \/ synced p s s') (fun _ _ => True) s).
  { intros m pt Hm. apply wp_bind. eapply wp_mono; [apply (Hm s); reflexivity| |done].
    intros ? s1 Hf. apply wp_modify. left. by apply (frame_syncing s s1). }
  destruct (point (thread s)).
  - destruct (looping (thread s)); [|apply wp_modify; left; by apply Hsame].
    apply wp_bind, wp_modify, wp_modify. left.
    by apply (Hsame (fun t => set_point (if synchronizing (thread s) then AtContext else AtMessages)
      (set_no_execution false t))).
  - unfold message_step. apply wp_bind, wp_gets, wp_bind, wp_gets. rewrite Hsy.
    apply wp_bind, wp_gets, wp_modify. left. by apply Hsame.
  - apply wp_seq_assoc, Hframed. apply context_phase_frame.
  - apply Hframed, RunContinue_frame.
  - apply wp_bind. eapply wp_mono; [apply (UpdateResult_frame s); reflexivity| |done].
    intros ? s1 Hf. apply wp_bind. eapply wp_mono; [by apply (wp_finish_syncing s s1 p)| |done].
    intros ? s2 H2. by apply wp_modify.
  - unfold end_step. apply wp_bind, wp_gets, wp_bind, wp_gets, wp_bind.
    eapply wp_mono; [apply (GetUnFinishedRequest_frame s); reflexivity| |done]. intros n s1 Hf.
    destruct (_ && _); [|apply wp_modify; left; by apply (frame_syncing s s1)].
    destruct (graceful_stop_msg _) as [p'|]; [|by apply wp_throw].
    assert (Hset : forall s2 st, (s2 = s1 \/ s2 = upd_thread (set_final_released true) s1) ->
      wp (set_value p' st;; modify (upd_control (set_stopped true));; goto Exited)
        (fun _ s' => syncing s s' \/ synced p s s') (fun _ _ => True) s2).
    { intros s2 st H2. unfold set_value. apply wp_bind, wp_bind, wp_obj; [|done].
      intros [v|] _; [by apply wp_throw|]. apply wp_modify, wp_bind, wp_modify, wp_modify. left.
      apply (frame_syncing s s1); destruct H2 as [->| ->]; done. }
    destruct (_ && _); [|apply Hset; by left].
    apply wp_seq_assoc', wp_bind, wp_modify, Hset. by right.
  - apply wp_ret. left. by apply (frame_syncing s s).
Qed.

(** ** The caller that waits *)
Lemma caller_pres_frame {A} (m : E A) c :
  (forall s0, pres (run_frame s0) m) -> pres (fun s => lora_lock_ s = c) m.
Proof.
  intros Hm s Hs. eapply wp_mono; [apply (Hm s); reflexivity| |]; intros ? s' Hf;
    by rewrite (rf_caller _ _ Hf).
Qed.
Lemma caller_modify c f : (forall s, lora_lock_ (f s) = lora_lock_ s) -> pres (fun s => lora_lock_ s = c) (modify f).
Proof. intros Hf. apply pres_modify. intros s. by rewrite Hf. Qed.
Lemma caller_set_value c p st : pres (fun s => lora_lock_ s = c) (set_value p st).
Proof.
  unfold set_value. apply pres_bind; [apply obj_pres|intros [v|]]; [apply pres_throw|by apply caller_modify].
Qed.

Ltac caller_tac := repeat first
  [ apply caller_set_value
  | apply caller_pres_frame; intros; first [apply GetUnFinishedRequest_frame|apply StopRequestByRequestID_frame
      |apply (ReleaseRequestByRequestID_frame ctx_ graph_ops_)|apply (StartRequestImpl_frame ctx_ graph_ops_)
      |apply RunEngineContext_frame|apply UpdateResult_frame|apply RunContinue_frame]
  | apply obj_pres
  | apply caller_modify; intros; repeat case_match; done
  | progress unfold goto, get_handle
  | pres_step ].

Lemma caller_handle c b m : pres (fun s => lora_lock_ s = c) (handle_message ctx_ graph_ops_ conf b m).
Proof. unfold handle_message. caller_tac. Qed.
Lemma caller_loop c b b' : pres (fun s => lora_lock_ s = c) (loop_step ctx_ graph_ops_ conf b b').
Proof.
  unfold loop_step, message_step, take_message, leave_messages, finish_sync, end_step.
  repeat first [apply caller_handle|progress caller_tac].
Qed.

(** A caller goes on to wait as long as its promise is not answered. *)
Lemma caller_kept lim s s' p :
  engine_step lim s s' -> lora_lock_ s = WaitReply p -> promises (objects s) !! p = Some None ->
  lora_lock_ s' = WaitReply p.
Proof.
  intros Hstep Hc Hp. destruct Hstep; try congruence; try done.
  - assert (H1 := caller_loop (WaitReply p) approx approx' s Hc). unfold wp in H1. by rewrite H in H1.
  - assert (H1 : pres (fun s => lora_lock_ s = WaitReply p) (StopModel_flag (D := D) (R := R))).
    { unfold StopModel_flag, new_promise, new_obj. caller_tac. }
    specialize (H1 s Hc). unfold wp in H1. rewrite H0 in H1. done.
  - assert (H1 : pres (fun s => lora_lock_ s = WaitReply p) (StopModel_enqueue (D := D) (R := R) accepted p0)).
    { unfold StopModel_enqueue, enqueue. caller_tac. }
    specialize (H1 s Hc). unfold wp in H1. rewrite H0 in H1. done.
  - assert (H1 : pres (fun s => lora_lock_ s = WaitReply p) (StopModel_return (D := D) (R := R) p0)).
    { unfold StopModel_return. caller_tac. }
    specialize (H1 s Hc). unfold wp in H1. rewrite H0 in H1. done.
Qed.

(** ** What holds along a run *)

(** The queue that [uuid] had at [s0] takes no more elements. *)
Definition done_since s0 s (uuid : string) : Prop :=
  exists p q, result_queue_map (model_state s0) !! uuid = Some p /\
    queues (objects s) !! p = Some q /\ finished (status_ q) = true.

Lemma done_since_step s0 s s' u :
  heap_keeps s s' -> objects_below s -> done_since s0 s u -> done_since s0 s' u.
Proof.
  intros Hh Hb (p & q & H1 & H2 & H3). destruct (Hh Hb) as [Hq _ _ _].
  destruct (Hq p q H2) as (q' & Hq' & Hr). exists p, q'. split_and!; [done..|by eapply rtc_finished].
Qed.

(** The sync that began at [s0] goes on, or has returned. *)
Definition sync_on s0 (p : nat) s : Prop :=
  synchronizing (thread s) = true /\ deferred_promise (thread s) = Some p /\
  result_queue_map (model_state s) = result_queue_map (model_state s0) /\
  msg_queue (model_state s0) ⊆+ msg_queue (model_state s) /\
  forall u, u ∈ sync_pending_set (thread s0) -> u ∈ sync_pending_set (thread s) \/ done_since s0 s u.
Definition sync_over s0 (p : nat) s : Prop :=
  promises (objects s) !! p = Some (Some ALLSPARK_SUCCESS) /\
  forall u, u ∈ sync_pending_set (thread s0) -> done_since s0 s u.

Lemma sync_step lim s0 p s s' :
  engine_ok s -> engine_step lim s s' -> sync_on s0 p s -> sync_on s0 p s' \/ sync_over s0 p s'.
Proof.
  intros Hok Hstep (Hsy & Hd & Hm & Hms & Hp). assert (Hb := eo_below _ Hok).
  assert (Hh := engine_step_heap _ _ _ _ _ _ Hstep).
  destruct (engine_step_cases lim s s' Hstep) as [(b & b' & Hloop)|Ht].
  - assert (H := wp_loop_syncing b b' s p Hok Hsy Hd). unfold wp in H. rewrite Hloop in H.
    destruct H as [[H1 H2 H3 H4 H5]|(H1 & H2 & H3)]; [left|right].
    + unfold sync_on. rewrite H1, H2, H3, H4. split_and!; try done. intros u Hu.
      destruct (Hp u Hu) as [Hin|Hdone]; [|right; by eapply done_since_step].
      destruct (decide (u ∈ sync_pending_set (thread s'))) as [?|Hn]; [by left|right].
      destruct (H5 u Hin Hn) as (p' & q & Hq). exists p', q. by rewrite <- Hm, <- H3.
    + split; [done|]. intros u Hu. destruct (Hp u Hu) as [Hin|Hdone]; [|by eapply done_since_step].
      destruct (H3 u Hin) as (p' & q & Hq). exists p', q. by rewrite <- Hm, <- H2.
  - left. destruct (Ht Hb) as [Et Eh Eq Em Ep _]. unfold sync_on. rewrite Et, Eq. split_and!; try done.
    + by etrans.
    + intros u Hu. destruct (Hp u Hu) as [?|Hdone]; [by left|right; by eapply done_since_step].
Qed.

Lemma sync_run lim s0 p s :
  engine_ok s0 -> synchronizing (thread s0) = true -> deferred_promise (thread s0) = Some p ->
  rtc (engine_step lim) s0 s -> engine_ok s /\ (sync_on s0 p s \/ sync_over s0 p s).
Proof.
  intros Hok Hsy Hd Hr. 
  refine (rtc_ind_r (fun s => engine_ok s /\ (sync_on s0 p s \/ sync_over s0 p s)) s0 _ _ s Hr); clear s Hr.
  - split; [done|left]. split_and!; auto.
  - intros s s' _ Hstep [Hoks IH]. split; [by eapply engine_step_ok|].
    destruct IH as [IH|(Hp & Hu)]; [by eapply sync_step|right].
    assert (Hh := engine_step_heap _ _ _ _ _ _ Hstep). assert (Hb := eo_below _ Hoks).
    split; [by apply (hp_promises _ _ (Hh Hb))|]. intros u Hin. by eapply done_since_step, Hu.
Qed.

(** C8. [SyncRequest] returns only when it should: its promise is answered, with
    success, only once the result queue of every request it waits for is finished
    or interrupted. *)
Theorem sync_waits lim ws s0 s p st :
  Forall tables_ok ws -> rtc (engine_step lim) (Engine_new ws) s0 ->
  synchronizing (thread s0) = true -> deferred_promise (thread s0) = Some p ->
  rtc (engine_step lim) s0 s -> promises (objects s) !! p = Some (Some st) ->
  st = ALLSPARK_SUCCESS /\ forall u, u ∈ sync_pending_set (thread s0) -> done_since s0 s u.
Proof.
  intros Hws H0 Hsy Hd Hr Hst. assert (Hok0 := engine_reachable_ok _ _ _ _ _ _ Hws H0).
  destruct (sync_run lim s0 p s Hok0 Hsy Hd Hr) as [Hok [Hon|[Hp Hu]]].
  - destruct Hon as (_ & Hd' & _). assert (Hpp : promises (objects s) !! p = Some None).
    { apply Hok. unfold owed, kept_promises. rewrite Hd'. set_solver. }
    congruence.
  - split; [congruence|done].
Qed.

(** C38. A sync whose message is taken while its request is not in the engine's
    tables never returns: the loop handles no message any more (in particular not
    the one that would register the request), the promise stays unanswered, and the
    caller keeps the lock that starting, stopping, releasing or syncing any request
    needs.  It takes no handle that has been freed to get there: the queue keeps no
    order between the messages of different threads, so the sync of one thread may
    be taken before the start message of another, whose handle is then still owned
    by that message. *)
Theorem sync_unregistered_blocks lim ws s0 s p u :
  Forall tables_ok ws -> rtc (engine_step lim) (Engine_new ws) s0 ->
  synchronizing (thread s0) = true -> deferred_promise (thread s0) = Some p ->
  lora_lock_ s0 = WaitReply p -> u ∈ sync_pending_set (thread s0) ->
  result_queue_map (model_state s0) !! u = None -> rtc (engine_step lim) s0 s ->
  lora_lock_ s = WaitReply p /\ promises (objects s) !! p = Some None /\
  msg_queue (model_state s0) ⊆+ msg_queue (model_state s).
Proof.
  intros Hws H0 Hsy Hd Hc Hu Hnone Hr. assert (Hok0 := engine_reachable_ok _ _ _ _ _ _ Hws H0).
  assert (Hinv : forall s, rtc (engine_step lim) s0 s ->
    promises (objects s) !! p = Some None /\ msg_queue (model_state s0) ⊆+ msg_queue (model_state s)).
  { intros s1 Hr1. destruct (sync_run lim s0 p s1 Hok0 Hsy Hd Hr1) as [Hok [Hon|[_ Hdone]]].
    - destruct Hon as (_ & Hd' & _ & Hpre & _). split; [|done].
      apply Hok. unfold owed, kept_promises. rewrite Hd'. set_solver.
    - destruct (Hdone u Hu) as (p' & q & Hp' & _). congruence. }
  split; [|by apply Hinv].
  refine (rtc_ind_r (fun s => lora_lock_ s = WaitReply p) s0 Hc _ s Hr).
  intros s1 s2 Hr1 Hstep Hc1. destruct (Hinv s1 Hr1) as [Hp1 _].
  by eapply (caller_kept lim s1).
Qed.

(** After the model loop has ended, a call that stops, releases or syncs a
    request waits for ever and keeps its lock. *)
Theorem call_after_exit_blocks lim ws s0 s p :
  Forall tables_ok ws -> rtc (engine_step lim) (Engine_new ws) s0 ->
  point (thread s0) = Exited -> lora_lock_ s0 = WaitReply p ->
  promises (objects s0) !! p = Some None -> rtc (engine_step lim) s0 s ->
  lora_lock_ s = WaitReply p /\ promises (objects s) !! p = Some None /\ point (thread s) = Exited.
Proof.
  intros Hws H0 Hpt Hc Hp Hr. assert (Hok0 := engine_reachable_ok _ _ _ _ _ _ Hws H0).
  enough (H : engine_ok s /\ lora_lock_ s = WaitReply p /\ promises (objects s) !! p = Some None /\
    point (thread s) = Exited) by apply H.
  refine (rtc_ind_r (fun s => engine_ok s /\ lora_lock_ s = WaitReply p /\
    promises (objects s) !! p = Some None /\ point (thread s) = Exited) s0 _ _ s Hr); [done|].
  intros s1 s2 _ Hstep (Hok & Hc1 & Hp1 & Hpt1). split; [by eapply engine_step_ok|].
  split; [by eapply (caller_kept lim s1)|].
  destruct (engine_step_cases lim s1 s2 Hstep) as [(b & b' & Hloop)|Ht].
  - unfold loop_step, mbind, M_bind, gets in Hloop. rewrite Hpt1 in Hloop. by injection Hloop as <-.
  - destruct (Ht (eo_below _ Hok)) as [Et _ _ _ Ep _]. rewrite Et. split; [|done]. by rewrite Ep; [|eexists].
Qed.
End waiting.
