(* ===== verification/EngineRun.v ===== *)
(** Running the model on all ranks: a round of the context phase takes a request
    off the queue, and when the cache is full one generating request gives way. *)
From stdpp Require Import base list gmap strings gmultiset relations.
From S2P Require Import Prelude FrameManager RequestCheck ResultQueue ModelState Scheduler.
From S2P Require Import SchedulerFrame SchedulerProofs SchedulerSteps SchedulerSpec SchedulerTheorems.
From S2P Require Import EngineState Engine EngineFrame EngineProofs.

Section run.
Context {D R K : Type} `{MD : ModelDevice D R} `{KS : Kernels D R K} `{HO : HashOrder}.
Variable ctx_ : nat -> DeviceContext.
Variable graph_ops_ : nat -> Graph K.
Variable conf : EngineConfig.
Abbreviation W := (M (AsModel D R)).
Abbreviation E := (M (Engine D R)).
Abbreviation engine := (Engine D R).
Implicit Types s : engine.

(** * All ranks *)
Lemma enqueue_ranks_run {A} (m : nat -> W A) s :
  enqueue_ranks m s = (Ok (fst (on_ranks 0 m (workers_ s))),
                       set_workers (snd (on_ranks 0 m (workers_ s))) s).
Proof. unfold enqueue_ranks. by destruct (on_ranks 0 m (workers_ s)). Qed.

(** The first rank's answer and state. *)
Lemma on_ranks_cons {A} (m : nat -> W A) w ws i :
  on_ranks i m (w :: ws) =
    (fst (m i w) :: fst (on_ranks (S i) m ws), snd (m i w) :: snd (on_ranks (S i) m ws)).
Proof. simpl. destruct (m i w) as [r w1]. by destruct (on_ranks (S i) m ws). Qed.

Lemma collect_run good rs st s : exists r, collect good rs st s = (r, s).
Proof.
  revert st. induction rs as [|[a|e] rs IH]; intros st; simpl; [by eexists|apply IH|by eexists].
Qed.

(** Success of all ranks. *)
Lemma collect_success rs st s s' :
  collect is_success rs st s = (Ok ALLSPARK_SUCCESS, s') ->
  st = ALLSPARK_SUCCESS /\ Forall (fun r => r = Ok ALLSPARK_SUCCESS) rs.
Proof.
  revert st. induction rs as [|[a|e] rs IH]; intros st; simpl.
  - by intros [= ->].
  - intros H. destruct (IH _ H) as [H1 H2]. unfold is_success in H1. case_bool_decide; [|done].
    subst. by split; [|constructor].
  - done.
Qed.

Lemma caught_memory_success r : caught memory_out r = Ok ALLSPARK_SUCCESS -> r = Ok ALLSPARK_SUCCESS.
Proof.
  destruct r as [a|e]; [done|]. simpl. destruct (fatal e); [done|]. unfold memory_out.
  by destruct (what_memory e).
Qed.

(** * Contexts *)

(** A round that succeeds takes the head off the first rank's queue. *)
Lemma context_round b s s' w ws :
  workers_ s = w :: ws -> tables_ok w ->
  RunTextGenerationContext ctx_ graph_ops_ conf b s = (Ok ALLSPARK_SUCCESS, s') ->
  exists w' ws', workers_ s' = w' :: ws' /\ tables_ok w' /\
    (length (pending_request_queue_ w') < length (pending_request_queue_ w))%nat.
Proof.
  intros Hw Ht. unfold RunTextGenerationContext, check_generate, check_model.
  destruct (negb (model_registered conf)); [done|]. destruct (negb (is_generate conf)); [done|].
  unfold mbind, M_bind. rewrite enqueue_ranks_run, Hw, on_ranks_cons.
  intros Hrun. destruct (collect_success _ _ _ _ Hrun) as [_ Hall].
  apply Forall_cons in Hall as [Hr%caught_memory_success _].
  match type of Hrun with collect ?g ?rs ?st ?s1 = _ => destruct (collect_run g rs st s1) as [r Hc] end.
  rewrite Hc in Hrun. injection Hrun as [= _ <-]. simpl.
  destruct (GenerateContinueContext (ctx_ 0%nat) (graph_ops_ 0%nat) b w) as [r1 w1] eqn:Hg.
  simpl in Hr. subst r1. eexists w1, _. split; [done|].
  assert (Ho := context_admission' (ctx_ 0%nat) (graph_ops_ 0%nat) b w _ _ Ht Hg).
  inversion Ho as [|  |r0 ? _ Hh _ Hst|]; subst. split; [apply Hst|].
  assert (Hs := sublist_length _ _ (pg_pending _ _ _ _ _ Hst)).
  destruct (pending_request_queue_ w) as [|x q]; [done|]. simpl in *. lia.
Qed.

(** * Memory pressure *)

(** Nothing but the workers changes. *)
Definition only_workers s s' : Prop := exists ws, s' = set_workers ws s.

Lemma only_workers_trans s1 s2 s3 : only_workers s1 s2 -> only_workers s2 s3 -> only_workers s1 s3.
Proof. intros [ws ->] [ws' ->]. by exists ws'. Qed.
Lemma only_workers_refl s : only_workers s s.
Proof. exists (workers_ s). by destruct s. Qed.

Lemma enqueue_collect_workers {A} (m : nat -> W A) (f : list (res A) -> E AsStatus) s r s' :
  (forall rs s, exists r, f rs s = (r, s)) -> (rs ← enqueue_ranks m; f rs) s = (r, s') ->
  only_workers s s'.
Proof.
  intros Hf. unfold mbind, M_bind. rewrite enqueue_ranks_run.
  destruct (Hf (fst (on_ranks 0 m (workers_ s))) (set_workers (snd (on_ranks 0 m (workers_ s))) s)) as [r' ->].
  intros [= _ <-]. by eexists.
Qed.

Lemma check_model_workers (k : E AsStatus) s r s' :
  (forall r s', k s = (r, s') -> only_workers s s') -> check_model conf k s = (r, s') -> only_workers s s'.
Proof.
  intros Hk. unfold check_model. destruct (negb _); [|apply Hk]. intros [= _ <-]. apply only_workers_refl.
Qed.

Lemma stop_workers id s r s' :
  StopRequestByRequestID ctx_ graph_ops_ conf id s = (r, s') -> only_workers s s'.
Proof.
  apply check_model_workers. intros r1 s1. apply enqueue_collect_workers. intros rs s2. apply collect_run.
Qed.

Lemma first_failure_run rs s : exists r, first_failure rs s = (r, s).
Proof.
  induction rs as [|[a|e] rs IH]; simpl; [by eexists| |by eexists].
  destruct (is_success a); [apply IH|by eexists].
Qed.

Lemma continue_workers s r s' :
  RunTextGenerationContinue ctx_ graph_ops_ conf s = (r, s') -> only_workers s s'.
Proof.
  unfold RunTextGenerationContinue, check_generate. apply check_model_workers. intros r1 s1.
  destruct (negb _); [intros [= _ <-]; apply only_workers_refl|].
  set (s2 := set_workers (snd (on_ranks 0 (fun i => AllocDecoderMemory (ctx_ i)) (workers_ s))) s).
  assert (H2 : only_workers s s2) by by eexists. unfold mbind, M_bind. rewrite enqueue_ranks_run.
  fold s2. destruct (first_failure_run
    (caught memory_out <$> fst (on_ranks 0 (fun i => AllocDecoderMemory (ctx_ i)) (workers_ s))) s2) as [rf ->].
  destruct rf as [st|e]; [|intros [= _ <-]; done]. destruct (negb (is_success st)); [intros [= _ <-]; done|].
  intros H. eapply only_workers_trans; [exact H2|]. revert H.
  apply (enqueue_collect_workers (fun i => GenerateContinue (ctx_ i) (graph_ops_ i))).
  intros rs s3. apply collect_run.
Qed.

(** ** The generating requests *)
Definition queue_status s (u : string) : option GenerateRequestStatus :=
  p ← result_queue_map (model_state s) !! u; status_ <$> queues (objects s) !! p.
Definition total_length s (h : nat) : Z :=
  match handles (objects s) !! h with
  | Some hd => i32 (context_length (lengths hd) + generate_length (lengths hd))
  | None => 0
  end.

(** What [generating] lists. *)
Definition generating_of s (l : list (string * nat)) : list (string * Z) :=
  omap (fun '(u, h) => if bool_decide (queue_status s u = Some Generating)
                       then Some (u, total_length s h) else None) l.

Lemma generating_run s l :
  engine_ok s -> Forall (fun e => request_handle_map (model_state s) !! fst e = Some (snd e)) l ->
  generating l s = (Ok (generating_of s l), s).
Proof.
  intros Hok. induction l as [|[u h] l IH]; [done|]. intros [Hu Hl]%Forall_cons. simpl in Hu.
  destruct (eo_handle _ Hok u h Hu) as (hd & Hh & Huid & _).
  assert (Hq : is_Some (result_queue_map (model_state s) !! u)) by (apply (eo_maps _ Hok); by eexists).
  destruct Hq as [p Hp]. destruct (eo_queue _ Hok u p Hp) as [q Hqq].
  simpl. unfold mbind, M_bind, get_handle, obj at 1. rewrite Hh. unfold gets at 1. rewrite Huid, Hp.
  unfold get_queue, obj at 1. rewrite Hqq, (IH Hl). unfold mret, M_ret.
  assert (Hst : queue_status s u = Some (status_ q))
    by (unfold queue_status; rewrite Hp; simpl; by rewrite Hqq).
  rewrite Hst. unfold total_length. rewrite Hh.
  destruct (decide (status_ q = Generating)) as [Hg|Hg].
  - rewrite !bool_decide_true by congruence. done.
  - rewrite !bool_decide_false by congruence. done.
Qed.

Lemma map_order_entries s :
  Forall (fun e => request_handle_map (model_state s) !! fst e = Some (snd e))
    (map_order (request_handle_map (model_state s))).
Proof. apply Forall_forall. intros [u h] Hin. by apply map_order_lookup. Qed.

Abbreviation generating_now s := (generating_of s (map_order (request_handle_map (model_state s)))).

Lemma generating_now_spec s u n :
  (u, n) ∈ generating_now s <->
  exists h, request_handle_map (model_state s) !! u = Some h /\ n = total_length s h /\
    queue_status s u = Some Generating.
Proof.
  unfold generating_of. rewrite list_elem_of_omap. split.
  - intros ([u' h] & Hin & Hif). case_bool_decide; [|done]. simplify_eq. exists h.
    split; [by apply map_order_lookup|done].
  - intros (h & Hh & -> & Hst). exists (u, h). split; [by apply map_order_lookup|].
    by rewrite bool_decide_true.
Qed.

(** ** The victim *)
Lemma longest_from lens rest x i :
  (length lens = i + length rest)%nat -> rest = drop i lens -> (x < length lens)%nat ->
  (x < i \/ i = 0 /\ x = 0)%nat ->
  (forall j m, (j < i)%nat -> lens !! j = Some m -> m <= default 0 (lens !! x)) ->
  exists y, snd (foldl (fun '(i, x) n =>
         (S i, if default 0 (lens !! x) <? n then i else x)) (i, x) rest) = y /\
    (y < length lens)%nat /\ forall j m, lens !! j = Some m -> m <= default 0 (lens !! y).
Proof.
  revert x i. induction rest as [|n rest IH]; intros x i Hlen Hrest Hx Hxi Hmax.
  - exists x. split; [done|]. split; [done|]. intros j m Hj. apply (Hmax j m); [|done].
    assert (H := lookup_lt_Some _ _ _ Hj). simpl in Hlen. lia.
  - assert (Hn : lens !! i = Some n).
    { replace i with (i + 0)%nat by lia. rewrite <- lookup_drop, <- Hrest. done. }
    cbn [foldl]. set (x' := if default 0 (lens !! x) <? n then i else x). simpl in Hlen.
    apply (IH x' (S i)); [lia| | | |].
    + assert (Hd : drop 1 (drop i lens) = rest) by (by rewrite <- Hrest).
      rewrite drop_drop in Hd. by replace (i + 1)%nat with (S i) in Hd by lia.
    + unfold x'. destruct (_ <? _); lia.
    + left. unfold x'. destruct (_ <? _); lia.
    + intros j m Hj Hm. unfold x'. destruct (Z.ltb_spec (default 0 (lens !! x)) n) as [Hlt|Hge].
      * rewrite Hn. simpl. destruct (decide (j = i)) as [->|Hne]; [by simplify_eq|].
        specialize (Hmax j m ltac:(lia) Hm). lia.
      * destruct (decide (j = i)) as [->|Hne]; [by simplify_eq|]. apply (Hmax j m); [lia|done].
Qed.

Lemma longest_spec lens : lens <> [] ->
  exists n, lens !! longest lens = Some n /\ forall m, m ∈ lens -> m <= n.
Proof.
  intros Hne. assert (Hlen : (0 < length lens)%nat) by (destruct lens; simpl; [done|lia]).
  destruct (longest_from lens lens 0 0) as (y & Hy & Hlt & Hmax); [lia|done|lia|by right|lia|].
  unfold longest. rewrite Hy. destruct (lookup_lt_is_Some_2 lens y Hlt) as [n Hn].
  exists n. split; [done|]. intros m [j Hj]%list_elem_of_lookup. specialize (Hmax j m Hj).
  by rewrite Hn in Hmax.
Qed.

Definition quiet s s' : Prop := objects s' = objects s /\ model_state s' = model_state s.

Lemma ChooseVictimRequest_run l s :
  l <> [] ->
  exists u n s', ChooseVictimRequest conf (fst <$> l) (snd <$> l) (Z.of_nat (length l)) s = (Ok u, s') /\
    quiet s s' /\ (u, n) ∈ l /\
    (GetEvictionStrategy conf = MaxLength -> forall v m, (v, m) ∈ l -> m <= n).
Proof.
  intros Hne. unfold ChooseVictimRequest, mbind, M_bind. destruct (GetEvictionStrategy conf).
  - destruct (longest_spec (snd <$> l)) as (n & Hn & Hmax); [by destruct l|].
    apply list_lookup_fmap_Some in Hn as ([u n'] & Heq & Hu). simpl in Heq. subst n'.
    exists u, n, s. simpl. unfold mret, M_ret.
    assert (Hid : (fst <$> l) !! longest (snd <$> l) = Some u) by (by rewrite list_lookup_fmap, Hu).
    rewrite Hid. split; [done|]. split; [done|]. split; [by eapply list_elem_of_lookup_2|].
    intros _ v m Hv. apply Hmax, list_elem_of_fmap. by exists (v, m).
  - set (k := random_engine conf (random_draws s)).
    assert (Hpos : 0 < Z.of_nat (length l)) by (destruct l; simpl; [done|lia]).
    assert (Hr := Z.mod_pos_bound k (Z.of_nat (length l)) Hpos).
    destruct (lookup_lt_is_Some_2 l (Z.to_nat (k mod Z.of_nat (length l)))) as [[u n] Hu]; [lia|].
    exists u, n, (set_draws (S (random_draws s)) s).
    unfold random_output, mbind, M_bind, gets, modify, mret, M_ret. simpl. fold k.
    assert (Hid : (fst <$> l) !! Z.to_nat (k mod Z.of_nat (length l)) = Some u)
      by (by rewrite list_lookup_fmap, Hu).
    rewrite Hid. split; [done|]. split; [done|]. split; [by eapply list_elem_of_lookup_2|done].
Qed.

(** What running out of memory does to the result queues. *)
Inductive victim_outcome s : bool -> engine -> Prop :=
  | victim_none : (forall u, queue_status s u <> Some Generating) -> victim_outcome s false s
  | victim_one u h p q s' :
      request_handle_map (model_state s) !! u = Some h ->
      result_queue_map (model_state s) !! u = Some p -> queues (objects s) !! p = Some q ->
      status_ q = Generating ->
      (GetEvictionStrategy conf = MaxLength -> forall v h',
         request_handle_map (model_state s) !! v = Some h' ->
         queue_status s v = Some Generating -> total_length s h' <= total_length s h) ->
      objects s' = set_queues <[p := SetStatus GenerateInterrupted q]> (objects s) ->
      model_state s' = model_state s -> victim_outcome s true s'.

Lemma victim_correct' s b s' :
  engine_ok s -> interrupt_victim ctx_ graph_ops_ conf s = (Ok b, s') -> victim_outcome s b s'.
Proof.
  intros Hok. unfold interrupt_victim, mbind, M_bind, gets. cbn beta iota.
  rewrite (generating_run s _ Hok (map_order_entries s)).
  case_bool_decide as Hnil.
  - intros [= <- <-]. apply victim_none. intros u Hst.
    assert (Hu : is_Some (request_handle_map (model_state s) !! u)).
    { apply (eo_maps _ Hok). unfold queue_status in Hst. destruct (result_queue_map _ !! u); [by eexists|done]. }
    destruct Hu as [h Hh]. assert (Hin : (u, total_length s h) ∈ generating_now s)
      by (apply generating_now_spec; by exists h).
    rewrite Hnil in Hin. by apply not_elem_of_nil in Hin.
  - destruct (ChooseVictimRequest_run _ s Hnil) as (u & n & s1 & -> & [Eo Em] & Hin & Hmax).
    destruct (StopRequestByRequestID ctx_ graph_ops_ conf u s1) as [[st|e] s2] eqn:Hstop; [|done].
    destruct (stop_workers _ _ _ _ Hstop) as [ws ->]. simpl. rewrite Em.
    apply generating_now_spec in Hin as (h & Hh & -> & Hst).
    unfold queue_status in Hst. destruct (result_queue_map (model_state s) !! u) as [p|] eqn:Hp; [|done].
    simpl in Hst. destruct (queues (objects s) !! p) as [q|] eqn:Hq; [|done]. simplify_eq/=.
    unfold upd_queue, get_queue, obj, mbind, M_bind. simpl. rewrite Eo, Hq.
    intros [= <- <-]. eapply (victim_one s u h p q); try done.
    + intros Hs v h' Hv Hg. apply (Hmax Hs v). apply generating_now_spec. by exists h'.
    + simpl. by rewrite Eo.
Qed.

(** C28. When the cache is full, [interrupt_victim] interrupts exactly one request
    that generates, with the strategy [MaxLength] one of the longest; every other
    result queue stays as it is.  It answers [false] only when none generates. *)
Theorem victim_correct s b s' :
  engine_ok s -> interrupt_victim ctx_ graph_ops_ conf s = (Ok b, s') -> victim_outcome s b s'.
Proof. apply victim_correct'. Qed.

(** ** The decoding loop *)
Lemma quiet_status s s' u : quiet s s' -> queue_status s' u = queue_status s u.
Proof. intros [Eo Em]. unfold queue_status. by rewrite Eo, Em. Qed.

Definition generating_count s : nat :=
  length (List.filter (fun e => bool_decide (queue_status s (fst e) = Some Generating))
    (map_order (request_handle_map (model_state s)))).

Lemma generating_count_bound s :
  (generating_count s <= size (request_handle_map (model_state s)))%nat.
Proof.
  unfold generating_count. etrans; [apply List.filter_length_le|].
  rewrite (Permutation_length (map_order_perm _)). by rewrite length_map_to_list.
Qed.

Lemma filter_length_lt {A} (f g : A -> bool) l x :
  x ∈ l -> (forall y, f y = true -> g y = true) -> g x = true -> f x = false ->
  (length (List.filter f l) < length (List.filter g l))%nat.
Proof.
  intros Hin Hfg Hg Hf.
  assert (Hle : forall l, (length (List.filter f l) <= length (List.filter g l))%nat).
  { intros k. induction k as [|y k IH]; simpl; [done|]. destruct (f y) eqn:Hfy.
    - rewrite (Hfg y Hfy). simpl. lia.
    - destruct (g y); simpl; lia. }
  induction l as [|y l IH]; [by apply not_elem_of_nil in Hin|].
  apply elem_of_cons in Hin as [->|Hin]; simpl.
  - rewrite Hf, Hg. specialize (Hle l). simpl. lia.
  - specialize (IH Hin). destruct (f y) eqn:Hfy; [rewrite (Hfg y Hfy); simpl; lia|].
    destruct (g y); simpl; lia.
Qed.

Lemma victim_count s s' : victim_outcome s true s' -> (generating_count s' < generating_count s)%nat.
Proof.
  intros H. inversion H as [|u h p q ? Hh Hp Hq Hst _ Eo Em]; subst. unfold generating_count.
  rewrite Em. apply (filter_length_lt _ _ _ (u, h)).
  - by apply map_order_lookup.
  - intros [v h']. simpl. rewrite !bool_decide_eq_true. unfold queue_status. rewrite Em, Eo.
    destruct (result_queue_map (model_state s) !! v) as [pv|]; [|done]. simpl.
    destruct (decide (p = pv)) as [<-|Hne]; [by rewrite lookup_insert_eq|by rewrite lookup_insert_ne].
  - simpl. apply bool_decide_eq_true. unfold queue_status. rewrite Hp. simpl. rewrite Hq. simpl. by rewrite Hst.
  - simpl. apply bool_decide_eq_false. unfold queue_status. rewrite Em, Hp, Eo. simpl.
    by rewrite lookup_insert_eq.
Qed.

End run.
