(* ===== verification/EngineRelease.v ===== *)
(** Releasing a request: what the message leaves behind in the engine's maps,
    in the promise and on every rank. *)
From stdpp Require Import base list gmap strings gmultiset relations.
From S2P Require Import Prelude FrameManager RequestCheck ResultQueue ModelState Scheduler.
From S2P Require Import SchedulerFrame SchedulerProofs SchedulerSteps SchedulerSpec SchedulerDecode SchedulerTheorems.
From S2P Require Import EngineState Engine EngineFrame EngineProofs EngineSync EngineRun.

(** * On one rank *)
Section rank.
Context {D R K : Type} `{MD : ModelDevice D R} `{KS : Kernels D R K}.
Variable ctx_ : DeviceContext.
Variable graph_ops_ : Graph K.
Abbreviation model := (AsModel D R).
Implicit Types w : model.

(** No request with the id waits or runs any more; every other one does what it
    did. *)
Record gone (id : string) w w' : Prop := mkGone {
  gn_none r : r ∈ pending_request_queue_ w' ++ running w' -> ~ has_id w id r;
  gn_pending r : ~ has_id w id r -> r ∈ pending_request_queue_ w' <-> r ∈ pending_request_queue_ w;
  gn_running r : ~ has_id w id r -> r ∈ running w' <-> r ∈ running w;
  gn_requests : map_rel req_le (requests w) (requests w');
  gn_map : all_request_map_ w' = all_request_map_ w;
}.

Lemma has_id_unique id w r1 r2 :
  unique_ids w -> r1 ∈ pending_request_queue_ w ++ running w ->
  r2 ∈ pending_request_queue_ w ++ running w -> has_id w id r1 -> has_id w id r2 -> r1 = r2.
Proof. intros Hu H1 H2 (q1 & ? & ?) (q2 & ? & ?). eapply Hu; [done..|congruence]. Qed.

Lemma stop_gone id w st w' :
  tables_ok w -> unique_ids w -> Scheduler.StopRequest ctx_ graph_ops_ id w = (Ok st, w') ->
  gone id w w'.
Proof.
  intros Ht Hu Hrun. assert (Hno := tk_once _ Ht). apply NoDup_app in Hno as (_ & Hpr & Hnr).
  destruct (StopRequest_correct' ctx_ graph_ops_ id w st w' Ht Hrun)
    as [w' (r0 & Hr0 & Hid0) Hsub Hiff _ _ Hrn Hle Hm _|st g r0 w' Hnp Hr0 Hid0 Hst|Hnone].
  - split; [|intros r Hn; rewrite Hiff; tauto|by rewrite Hrn|done..].
    intros r [Hr|Hr]%elem_of_app Hid; [by apply Hiff in Hr as [_ []]|].
    rewrite Hrn in Hr. apply (Hpr r0 Hr0).
    by rewrite (has_id_unique id w r0 r Hu ltac:(set_solver) ltac:(set_solver) Hid0 Hid).
  - assert (Hp := sp_running _ _ _ _ Hst).
    assert (Hin : forall r, r ∈ running w <-> r = r0 \/ r ∈ running w') by (intros r; rewrite Hp; apply elem_of_cons).
    split; [|intros r _; by rewrite (sp_pending _ _ _ _ Hst)| |apply Hst..].
    + intros r. rewrite (sp_pending _ _ _ _ Hst). intros [Hr|Hr]%elem_of_app Hid; [by eapply Hnp|].
      assert (r = r0) as -> by (eapply (has_id_unique id w); try done; set_solver).
      rewrite Hp in Hnr. by apply NoDup_cons in Hnr as [? _].
    + intros r Hn. rewrite Hin. split; [by right|]. by intros [->|].
  - by split.
Qed.
End rank.

(** * The message *)
Section release.
Context {D R K : Type} `{MD : ModelDevice D R} `{KS : Kernels D R K} `{HO : HashOrder}.
Variable ctx_ : nat -> DeviceContext.
Variable graph_ops_ : nat -> Graph K.
Variable conf : EngineConfig.
Abbreviation W := (M (AsModel D R)).
Abbreviation E := (M (Engine D R)).
Abbreviation engine := (Engine D R).
Implicit Types s : engine.

(** ** Every rank in its turn *)
Lemma on_ranks_each {A} (m : nat -> W A) ws i :
  fst (on_ranks i m ws) = imap (fun j w => fst (m (i + j)%nat w)) ws /\
  snd (on_ranks i m ws) = imap (fun j w => snd (m (i + j)%nat w)) ws.
Proof.
  revert i. induction ws as [|w ws IH]; intros i; [done|].
  rewrite on_ranks_cons. simpl. rewrite Nat.add_0_r. destruct (IH (S i)) as [-> ->].
  split; f_equal; apply imap_ext; intros; simpl; by rewrite Nat.add_succ_r.
Qed.

Lemma on_ranks_lookup {A} (m : nat -> W A) ws i w :
  ws !! i = Some w ->
  fst (on_ranks 0 m ws) !! i = Some (fst (m i w)) /\ snd (on_ranks 0 m ws) !! i = Some (snd (m i w)).
Proof.
  intros Hw. destruct (on_ranks_each m ws 0) as [-> ->]. by rewrite !list_lookup_imap, Hw.
Qed.

(** All ranks answered well. *)
Lemma collect_ok_success rs st s s' :
  collect AS_STATUS_OK rs st s = (Ok ALLSPARK_SUCCESS, s') ->
  st = ALLSPARK_SUCCESS /\ Forall (fun r => exists st, r = Ok st /\ AS_STATUS_OK st = true) rs.
Proof.
  revert st. induction rs as [|[a|e] rs IH]; intros st; simpl; [by intros [= ->]| |done].
  intros H. destruct (IH _ H) as [H1 H2]. destruct (AS_STATUS_OK a) eqn:Ha; [|by subst].
  subst. split; [done|]. constructor; [by exists a|done].
Qed.

Lemma caught_runtime_ok r st : caught runtime_error r = Ok st -> AS_STATUS_OK st = true -> r = Ok st.
Proof. destruct r as [a|e]; [done|]. simpl. destruct (fatal e); [done|]. by intros [= <-]. Qed.

(** What stopping by id does to the ranks. *)
Lemma StopRequestByRequestID_run id s :
  model_registered conf = true ->
  exists r, StopRequestByRequestID ctx_ graph_ops_ conf id s =
      (r, set_workers (imap (fun i w => snd (Scheduler.StopRequest (ctx_ i) (graph_ops_ i) id w)) (workers_ s)) s) /\
    (r = Ok ALLSPARK_SUCCESS -> forall i w, workers_ s !! i = Some w ->
       exists st, fst (Scheduler.StopRequest (ctx_ i) (graph_ops_ i) id w) = Ok st).
Proof.
  intros Hreg. unfold StopRequestByRequestID, check_model. rewrite Hreg. cbn [negb].
  unfold mbind, M_bind. rewrite enqueue_ranks_run. destruct (on_ranks_each (fun i => Scheduler.StopRequest (ctx_ i) (graph_ops_ i) id) (workers_ s) 0) as [E1 E2].
  rewrite E2. match goal with |- context [collect ?g ?rs ?st ?s1] =>
    destruct (collect_run g rs st s1) as [r Hc] end.
  exists r. split; [done|]. intros -> i w Hw. apply collect_ok_success in Hc as [_ Hall].
  rewrite E1 in Hall.
  assert (Hl := proj1 (Forall_lookup _ _) Hall i (caught runtime_error (fst (Scheduler.StopRequest (ctx_ i) (graph_ops_ i) id w)))).
  destruct Hl as (st & Hst & Hgood); [by rewrite list_lookup_fmap, list_lookup_imap, Hw|].
  exists st. by apply caught_runtime_ok.
Qed.

Lemma ReleaseRequestByRequestID_run id s :
  model_registered conf = true ->
  ReleaseRequestByRequestID conf id s =
    (Ok ALLSPARK_SUCCESS, set_workers (set_all_request_map (delete id) <$> workers_ s) s).
Proof.
  intros Hreg. unfold ReleaseRequestByRequestID, check_model. rewrite Hreg. cbn [negb].
  unfold mbind, M_bind. rewrite enqueue_ranks_run. set (m := fun _ : nat => Scheduler.ReleaseRequest id : W AsStatus).
  destruct (on_ranks_each m (workers_ s) 0) as [-> ->].
  assert (H : imap (fun j w => snd (m (0 + j)%nat w)) (workers_ s) = set_all_request_map (delete id) <$> workers_ s).
  { rewrite <- imap_const. by apply imap_ext. }
  rewrite H. generalize (set_workers (set_all_request_map (delete id) <$> workers_ s) s). intros s1.
  replace (imap (fun j w => fst (m (0 + j)%nat w)) (workers_ s)) with
    (const (Ok ALLSPARK_SUCCESS) <$> workers_ s)
    by (rewrite <- imap_const; by apply imap_ext).
  generalize (workers_ s). intros ws. induction ws; [done|]. simpl. apply IHws.
Qed.

Lemma GetUnFinishedRequest_run s n s' : GetUnFinishedRequest s = (Ok n, s') -> s' = s.
Proof.
  unfold GetUnFinishedRequest, on_worker0, gets. destruct s as [[|w ws] ? ? ? ? ? ? ? ? ? ?]; [done|].
  by intros [= _ <-].
Qed.

Lemma set_value_run p st s s' :
  set_value p st s = (Ok tt, s') -> s' = answered p st s.
Proof.
  unfold set_value, mbind, M_bind, obj. destruct (promises (objects s) !! p) as [[v|]|]; [done| |done].
  unfold modify. by intros [= <-].
Qed.

(** What releasing [u] leaves behind. *)
Record released (u : string) (p : nat) (st : AsStatus) s s' : Prop := mkReleased {
  rl_handles : request_handle_map (model_state s') = delete u (request_handle_map (model_state s));
  rl_queues : result_queue_map (model_state s') = delete u (result_queue_map (model_state s));
  rl_messages : msg_queue (model_state s') = msg_queue (model_state s);
  rl_objects : objects s' = set_promises <[p := Some st]> (objects s);
  rl_map i w' : workers_ s' !! i = Some w' -> all_request_map_ w' !! u = None;
  rl_workers i w : st = ALLSPARK_SUCCESS -> workers_ s !! i = Some w -> unique_ids w ->
    exists w1, gone u w w1 /\ workers_ s' !! i = Some (set_all_request_map (delete u) w1);
}.

(** The engine once both maps of the message are handled: [ws] are the ranks. *)
Lemma release_maps u s :
  (forall u, is_Some (request_handle_map (model_state s) !! u) <->
     is_Some (result_queue_map (model_state s) !! u)) ->
  upd_control (fun c => match result_queue_map c !! u with
    | Some _ => set_maps (delete u (request_handle_map c)) (delete u (result_queue_map c)) c
    | None => c end) s =
  upd_control (fun c => set_maps (delete u (request_handle_map c)) (delete u (result_queue_map c)) c) s.
Proof.
  intros Hm. unfold upd_control. destruct (result_queue_map (model_state s) !! u) eqn:Hu; [done|].
  destruct (request_handle_map (model_state s) !! u) eqn:Hh.
  { assert (H : is_Some (result_queue_map (model_state s) !! u)) by (apply Hm; by eexists).
    rewrite Hu in H. by destruct H. }
  rewrite !delete_id by done. by destruct (model_state s).
Qed.

(** C6. A release, when its message is handled: the request is no longer in the
    engine's two maps nor in the table of any rank, every other entry, queue and
    handle is as before, and the caller's promise is answered.  If the answer is
    success then, on every rank where no two requests that wait or run have the
    same id, no request with the id waits or runs any more and the other requests
    wait and run as before.  The engine only logs an id that is used twice; then
    one request with the id, or all that wait, are stopped. *)
Theorem release_correct b p u s s' :
  engine_ok s -> model_registered conf = true ->
  handle_message ctx_ graph_ops_ conf b (MsgReleaseRequest p u) s = (Ok tt, s') ->
  exists st, released u p st s s'.
Proof.
  intros Hok Hreg. unfold handle_message, mbind, M_bind, gets, modify at 1. cbn beta iota.
  destruct (StopRequestByRequestID_run u s Hreg) as (r & -> & Hr).
  set (ws1 := imap _ (workers_ s)). destruct r as [ret|e]; [|done].
  rewrite ReleaseRequestByRequestID_run by done. cbn beta iota.
  set (s2 := set_workers _ _). rewrite (release_maps u s2) by apply (eo_maps _ Hok).
  set (s3 := upd_control _ s2).
  destruct (GetUnFinishedRequest s3) as [[left|e] s4] eqn:Hleft; [|done].
  apply GetUnFinishedRequest_run in Hleft as ->. cbn beta iota. unfold when.
  set (st := if is_success ret then ALLSPARK_SUCCESS else ret).
  destruct (_ && negb b); cbn;
    intros ->%set_value_run; exists st; split; try done.
  all: simpl.
  all: try (intros i w' (w1 & -> & _)%list_lookup_fmap_Some; apply lookup_delete_eq).
  all: intros i w Hst Hw Hu; assert (ret = ALLSPARK_SUCCESS) as ->
    by (unfold st, is_success in Hst; case_bool_decide; congruence).
  all: destruct (Hr eq_refl i w Hw) as [st1 Hst1].
  all: exists (snd (Scheduler.StopRequest (ctx_ i) (graph_ops_ i) u w)).
  all: rewrite list_lookup_fmap; unfold ws1; rewrite list_lookup_imap, Hw; split; [|done].
  all: eapply (stop_gone (ctx_ i) (graph_ops_ i)); [|done|rewrite <- Hst1; apply surjective_pairing].
  all: exact (proj1 (Forall_lookup _ _) (eo_workers _ Hok) _ _ Hw).
Qed.
End release.
