(* ===== verification/EngineCalls.v ===== *)
(** Calls that wait for the model loop are served: whatever order the queue of
    messages has and whatever its size estimate tells, a stop or a release is
    answered once the loop has read as many messages as were queued, and one
    more; the calls share a lock, so no other call gets in between. *)
From stdpp Require Import base list gmap strings gmultiset relations.
From S2P Require Import Prelude FrameManager RequestCheck ResultQueue ModelState Scheduler.
From S2P Require Import SchedulerFrame SchedulerProofs SchedulerSteps SchedulerSpec.
From S2P Require Import EngineState Engine EngineFrame EngineProofs EngineSync EngineRun EngineRelease.

(** The messages a caller waits for, and those answered when they are handled. *)
Definition is_client (m : EngineControlMessage) : bool :=
  match m with
  | MsgStopRequest _ _ | MsgReleaseRequest _ _ | MsgSyncRequest _ _ | MsgSyncAllRequest _ => true
  | _ => false
  end.
Definition is_sync (m : EngineControlMessage) : bool :=
  match m with MsgSyncRequest _ _ | MsgSyncAllRequest _ => true | _ => false end.
Definition is_call (m : EngineControlMessage) : bool := is_client m && negb (is_sync m).

Section calls.
Context {D R K : Type} `{MD : ModelDevice D R} `{KS : Kernels D R K} `{HO : HashOrder}.
Variable ctx_ : nat -> DeviceContext.
Variable graph_ops_ : nat -> Graph K.
Variable conf : EngineConfig.
Abbreviation E := (M (Engine D R)).
Abbreviation engine := (Engine D R).
Abbreviation msgs s := (msg_queue (model_state s)).
Implicit Types s : engine.

(** * What the loop leaves alone *)
Record loop_keeps s s' : Prop := mkLoopKeeps {
  lk_messages : msgs s' = msgs s;
  lk_lock : lora_lock_ s' = lora_lock_ s;
  lk_stopper : stopper s' = stopper s;
  lk_stopping : model_stopping (model_state s) = true -> model_stopping (model_state s') = true;
  lk_sync : synchronizing (thread s') = true ->
    synchronizing (thread s) = true /\ deferred_promise (thread s') = deferred_promise (thread s);
}.

#[export] Instance loop_keeps_preorder : PreOrder loop_keeps.
Proof.
  split; [by split|]. intros s1 s2 s3 [a1 b1 c1 d1 e1] [a2 b2 c2 d2 e2].
  split; try congruence; [auto|]. intros H. destruct (e2 H) as [H2 E2]. destruct (e1 H2) as [H1 E1].
  split; [done|congruence].
Qed.

Lemma frame_loop_keeps s s' : run_frame s s' -> loop_keeps s s'.
Proof.
  intros Hf. destruct (thread_le_fields _ _ (rf_thread _ _ Hf)) as (_ & _ & _ & _ & _ & E1 & E2).
  split; rewrite ?(rf_model_state _ _ Hf); [done|apply Hf|apply Hf|done|by rewrite E1, E2].
Qed.

Definition loop_pres {A} (m : E A) : Prop := forall s0, pres (loop_keeps s0) m.

Lemma loop_pres_frame {A} (m : E A) : (forall s0, pres (run_frame s0) m) -> loop_pres m.
Proof.
  intros Hm s0 s Hs. eapply wp_mono; [apply (Hm s); reflexivity| |]; intros ? s' Hf;
    (etrans; [exact Hs|by apply frame_loop_keeps]).
Qed.
Lemma loop_pres_modify f : (forall s, loop_keeps s (f s)) -> loop_pres (modify f).
Proof. intros Hf s0. apply pres_modify. intros s Hs. etrans; [exact Hs|apply Hf]. Qed.
Lemma loop_pres_set_value p st : loop_pres (set_value p st).
Proof.
  intros s0. unfold set_value. apply pres_bind; [apply obj_pres|intros [v|]]; [apply pres_throw|].
  apply loop_pres_modify. by split.
Qed.

Ltac keeps_modify := apply loop_pres_modify; intros ?; split; simpl; repeat case_match; simpl; done.
Ltac keeps_tac := repeat first
  [ apply loop_pres_set_value
  | apply loop_pres_frame; intros; first [apply GetUnFinishedRequest_frame|apply StopRequestByRequestID_frame
      |apply (ReleaseRequestByRequestID_frame ctx_ graph_ops_)|apply (StartRequestImpl_frame ctx_ graph_ops_)
      |apply RunEngineContext_frame|apply UpdateResult_frame|apply RunContinue_frame]
  | apply obj_pres
  | keeps_modify
  | progress unfold goto, get_handle
  | pres_step ].

Lemma handle_plain b m : is_sync m = false -> loop_pres (handle_message ctx_ graph_ops_ conf b m).
Proof. intros Hm s0. destruct m; try done; unfold handle_message; keeps_tac. Qed.

(** What handling a message leaves of a queue, and which sync begins. *)
Record handled (m : EngineControlMessage) s s' : Prop := mkHandled {
  hm_messages : msgs s' = msgs s;
  hm_lock : lora_lock_ s' = lora_lock_ s;
  hm_stopper : stopper s' = stopper s;
  hm_stopping : model_stopping (model_state s) = true -> model_stopping (model_state s') = true;
  hm_sync : synchronizing (thread s') = true ->
    synchronizing (thread s) = true /\ deferred_promise (thread s') = deferred_promise (thread s) \/
    is_sync m = true /\ deferred_promise (thread s') = Some (promise_of m);
}.

Lemma handle_message_handled b m s :
  wp (handle_message ctx_ graph_ops_ conf b m) (fun _ s' => handled m s s') (fun _ _ => True) s.
Proof.
  destruct (is_sync m) eqn:Hm.
  - assert (Hset : forall l s1, loop_keeps s s1 ->
      handled m s (upd_thread (fun t => set_sync true (Some (promise_of m)) (l t) t) s1)).
    { intros l s1 [H1 H2 H3 H4 _]. split; try done. intros _. by right. }
    destruct m as [| | | |p u|p| |]; try done; unfold handle_message; apply wp_bind, wp_gets.
    + apply wp_modify. apply (Hset (fun t => {[u]} ∪ sync_pending_set t)). reflexivity.
    + apply wp_bind, wp_gets, wp_bind. eapply (wp_mono _ (fun _ s1 => loop_keeps s s1) _ (fun _ s1 => loop_keeps s s1)).
      * match goal with |- wp ?m _ _ s => assert (H : loop_pres m) by (intros s0; keeps_tac) end.
        apply (H s s). reflexivity.
      * intros ? s1 H1. apply wp_modify. by apply (Hset sync_pending_set).
      * done.
  - eapply wp_mono; [apply (handle_plain b m Hm s s); reflexivity| |done].
    intros ? s' [H1 H2 H3 H4 H5]. split; try done. intros H. left. by apply H5.
Qed.

(** The loop takes a message, or leaves the queue as it is. *)
Definition took_message s s' : Prop := exists b m rest,
  msgs s = m :: rest /\ synchronizing (thread s) = false /\
  handle_message ctx_ graph_ops_ conf b m (upd_control (set_msg_queue rest) s) = (Ok tt, s').

Lemma take_message_cases b none s s' :
  synchronizing (thread s) = false -> loop_pres none ->
  take_message ctx_ graph_ops_ conf b none s = (Ok tt, s') -> loop_keeps s s' \/ took_message s s'.
Proof.
  intros Hsy Hnone. unfold take_message, mbind, M_bind, gets. cbn beta iota.
  destruct (msgs s) as [|m rest] eqn:Hm; intros Hrun.
  - left. assert (H := Hnone s s ltac:(reflexivity)). unfold wp in H. by rewrite Hrun in H.
  - right. by exists b, m, rest.
Qed.

Lemma loop_pres_leave : loop_pres leave_messages.
Proof. intros s0. unfold leave_messages. keeps_tac. Qed.

Lemma message_step_cases b b' s s' :
  message_step ctx_ graph_ops_ conf b b' s = (Ok tt, s') -> loop_keeps s s' \/ took_message s s'.
Proof.
  assert (Hleave : leave_messages s = (Ok tt, s') -> loop_keeps s s' \/ took_message s s').
  { intros Hrun. left. assert (H := loop_pres_leave s s ltac:(reflexivity)). unfold wp in H. by rewrite Hrun in H. }
  unfold message_step. unfold mbind at 1 2, M_bind at 1 2, gets at 1 2. cbn beta iota.
  destruct (synchronizing (thread s)) eqn:Hsy; [done|].
  destruct b; [apply take_message_cases; [done|apply loop_pres_leave]|].
  destruct (negb (bool_decide _)); [done|]. unfold mbind, M_bind.
  destruct (GetUnFinishedRequest s) as [[n|e] s1] eqn:Hn; [|done].
  apply GetUnFinishedRequest_run in Hn as ->. destruct (_ && _); [|done].
  apply take_message_cases; [done|]. intros s0. apply pres_ret.
Qed.

Lemma loop_step_cases b b' s s' :
  loop_step ctx_ graph_ops_ conf b b' s = (Ok tt, s') -> loop_keeps s s' \/ took_message s s'.
Proof.
  unfold loop_step. unfold mbind at 1, M_bind at 1, gets at 1. cbn beta iota.
  destruct (point (thread s)) eqn:Hpt; [|apply message_step_cases|..];
    intros Hrun; left;
    (match type of Hrun with ?m s = _ => assert (H : loop_pres m) end;
     [intros s0; unfold finish_sync, end_step; keeps_tac|
      specialize (H s s ltac:(reflexivity)); unfold wp in H; by rewrite Hrun in H]).
Qed.

(** * Who waits

    A message of a call in the queue, and the sync the loop is at, are those of
    the caller that holds the lock. *)
Record callers_ok s : Prop := mkCallersOk {
  co_messages m : m ∈ msgs s -> is_client m = true -> lora_lock_ s = WaitReply (promise_of m);
  co_starting m lora : lora_lock_ s = Starting m lora -> is_client m = false;
  co_sync p : synchronizing (thread s) = true -> deferred_promise (thread s) = Some p ->
    lora_lock_ s = WaitReply p;
  co_flag p : stopper s = StopFlagged p -> model_stopping (model_state s) = true;
}.

Lemma loop_callers b b' s s' :
  loop_step ctx_ graph_ops_ conf b b' s = (Ok tt, s') -> callers_ok s -> callers_ok s'.
Proof.
  intros Hloop [Hm Hs Hsy Hf].
  destruct (loop_step_cases b b' s s' Hloop) as [[E1 E2 E3 E4 E5]|(b1 & m & rest & Hq & Hno & Hrun)].
  - split; rewrite ?E1, ?E2, ?E3; [done|done| |].
    + intros p H Hd. destruct (E5 H) as [H1 E6]. apply Hsy; [done|congruence].
    + intros p Hp. by eapply E4, Hf.
  - assert (H := handle_message_handled b1 m (upd_control (set_msg_queue rest) s)).
    unfold wp in H. rewrite Hrun in H. destruct H as [E1 E2 E3 E4 E5]. simpl in *.
    split; rewrite ?E1, ?E2, ?E3; [|done| |].
    + intros m' Hin. apply Hm. rewrite Hq. by right.
    + intros p H Hd. destruct (E5 H) as [[H1 _]|[H1 E6]]; [congruence|].
      replace p with (promise_of m) by congruence. apply Hm; [rewrite Hq; by left|by destruct m].
    + intros p Hp. by eapply E4, Hf.
Qed.

(** What the calls leave alone. *)
Record call_keeps s s' : Prop := mkCallKeeps {
  ck_messages : msgs s' = msgs s;
  ck_thread : thread s' = thread s;
  ck_stopper : stopper s' = stopper s;
  ck_stopping : model_stopping (model_state s') = model_stopping (model_state s);
}.
#[export] Instance call_keeps_preorder : PreOrder call_keeps.
Proof. split; [by split|]. intros s1 s2 s3 [] []. split; congruence. Qed.

Definition call_pres {A} (m : E A) : Prop := forall s0, pres (call_keeps s0) m.
Lemma call_pres_modify f : (forall s, call_keeps s (f s)) -> call_pres (modify f).
Proof. intros Hf s0. apply pres_modify. intros s Hs. etrans; [exact Hs|apply Hf]. Qed.
Lemma call_pres_worker0 {A} (m : M (AsModel D R) A) : call_pres (on_worker0 m).
Proof.
  intros s0 s Hs. unfold wp, on_worker0. destruct (workers_ s) as [|w ws]; [done|].
  destruct (m w) as [[a|e] w1]; (etrans; [exact Hs|by split]).
Qed.
Lemma call_pres_copy v : call_pres (copy_inputs v).
Proof.
  intros s0 s Hs. unfold wp, copy_inputs. destruct (on_ranks 0 _ (workers_ s)) as [rs ws].
  etrans; [exact Hs|by split].
Qed.
Ltac call_tac := repeat first
  [ apply obj_pres | apply call_pres_worker0 | apply call_pres_copy
  | apply call_pres_modify; intros ?; split; simpl; repeat case_match; done
  | progress unfold new_promise, new_handle, new_queue, new_obj, use_handle, get_handle
  | pres_step ].

Lemma call_run {A} (m : E A) s r s' : call_pres m -> m s = (r, s') -> call_keeps s s'.
Proof.
  intros Hm Hr. specialize (Hm s s ltac:(reflexivity)). unfold wp in Hm. rewrite Hr in Hm. by destruct r.
Qed.

(** Nobody waits when nobody has the lock. *)
Lemma nobody_waits s : callers_ok s -> (forall p, lora_lock_ s <> WaitReply p) -> engine_ok s ->
  (forall m, m ∈ msgs s -> is_client m = false) /\ synchronizing (thread s) = false.
Proof.
  intros [Hm _ Hsy _] Hno Hok. split.
  - intros m Hin. destruct (is_client m) eqn:Hc; [|done]. by destruct (Hno (promise_of m)); apply Hm.
  - destruct (synchronizing (thread s)) eqn:H; [|done]. assert (Hd := eo_sync _ Hok).
    rewrite H in Hd. destruct Hd as [p Hd]. by destruct (Hno p); apply Hsy.
Qed.

Lemma calm_callers s s' :
  (forall m, m ∈ msgs s' -> is_client m = true -> lora_lock_ s' = WaitReply (promise_of m)) ->
  (forall m lora, lora_lock_ s' = Starting m lora -> is_client m = false) ->
  synchronizing (thread s) = false -> thread s' = thread s -> stopper s' = stopper s ->
  model_stopping (model_state s') = model_stopping (model_state s) ->
  callers_ok s -> callers_ok s'.
Proof.
  intros Hm Hs Hsy E1 E2 E3 [_ _ _ Hf]. split; [done|done| |].
  - intros p. rewrite E1, Hsy. done.
  - intros p. rewrite E2, E3. apply Hf.
Qed.

(** ** The calls *)
Definition starting_lock (c : Caller) : Prop :=
  c = NoCaller \/ exists m lora, c = Starting m lora /\ is_client m = false.

Lemma StartRequest_check_lock lim uuid r s st s' :
  lora_lock_ s = NoCaller -> StartRequest_check lim uuid r s = (Ok st, s') -> starting_lock (lora_lock_ s').
Proof.
  intros Hc Hrun.
  assert (H : pres (fun s => starting_lock (lora_lock_ s)) (StartRequest_check (D := D) (R := R) lim uuid r)).
  { assert (Hw : forall A (m : M (AsModel D R) A), pres (fun s => starting_lock (lora_lock_ s)) (on_worker0 m)).
    { intros A m s1 H1. unfold wp, on_worker0. destruct (workers_ s1); [done|]. by destruct (m _) as [[?|?] ?]. }
    assert (Hcp : forall v, pres (fun s => starting_lock (lora_lock_ s)) (copy_inputs v)).
    { intros v s1 H1. unfold wp, copy_inputs. by destruct (on_ranks 0 _ (workers_ s1)). }
    unfold StartRequest_check, new_promise, new_handle, new_queue, new_obj.
    repeat first [apply Hw|apply Hcp|apply pres_modify; intros ? H1; simpl;
      first [done|right; by do 2 eexists]|pres_step]. }
  specialize (H s (or_introl Hc)). unfold wp in H. by rewrite Hrun in H.
Qed.

Lemma start_check_callers lim uuid r s st s' :
  engine_ok s -> callers_ok s -> lora_lock_ s = NoCaller ->
  StartRequest_check lim uuid r s = (Ok st, s') -> callers_ok s'.
Proof.
  intros Hok Hco Hc Hrun. destruct (nobody_waits s Hco ltac:(congruence) Hok) as [Hnm Hsy].
  assert (Hk : call_pres (StartRequest_check (D := D) (R := R) lim uuid r))
    by (intros s0; unfold StartRequest_check; call_tac).
  destruct (call_run _ _ _ _ Hk Hrun) as [E1 E2 E3 E4].
  apply (calm_callers s); try done.
  - intros m. rewrite E1. intros Hin Hcl. by rewrite (Hnm m Hin) in Hcl.
  - intros m lora Hl. destruct (StartRequest_check_lock _ _ _ _ _ _ Hc Hrun) as [H|(m' & lora' & H & Hcl)];
      [congruence|]. rewrite H in Hl. by simplify_eq.
Qed.

Lemma start_enqueue_callers b m lora s st s' :
  engine_ok s -> callers_ok s -> lora_lock_ s = Starting m lora ->
  StartRequest_enqueue b m lora s = (Ok st, s') -> callers_ok s'.
Proof.
  intros Hok Hco Hc Hrun. destruct (nobody_waits s Hco ltac:(congruence) Hok) as [Hnm Hsy].
  assert (Hcl := co_starting _ Hco m lora Hc).
  assert (H : thread s' = thread s /\ stopper s' = stopper s /\ lora_lock_ s' = NoCaller /\
    model_stopping (model_state s') = model_stopping (model_state s) /\
    (msgs s' = msgs s \/ msgs s' = msgs s ++ [m])).
  { unfold StartRequest_enqueue, mbind, M_bind, modify, mret, M_ret in Hrun.
    destruct b; injection Hrun as [= <- <-]; simpl; [by split_and!; auto|].
    repeat case_match; simpl; split_and!; auto. }
  destruct H as (E1 & E2 & E3 & E4 & E5). apply (calm_callers s); try done.
  - intros m' Hin Hcl'. assert (Hno : is_client m' = false); [|congruence].
    destruct E5 as [E5|E5]; rewrite E5 in Hin; [auto|]. apply elem_of_app in Hin as [Hin|Hin]; [auto|].
    by apply list_elem_of_singleton in Hin as ->.
  - intros m' lora'. by rewrite E3.
Qed.

Lemma call_and_wait_callers b m s st s' :
  engine_ok s -> callers_ok s -> lora_lock_ s = NoCaller -> (forall p, promise_of (m p) = p) ->
  call_and_wait b m s = (Ok st, s') -> callers_ok s'.
Proof.
  intros Hok Hco Hc Hp Hrun. destruct (nobody_waits s Hco ltac:(congruence) Hok) as [Hnm Hsy].
  unfold call_and_wait, new_promise, new_obj, enqueue, mbind, M_bind, modify, gets, mret, M_ret in Hrun.
  destruct b; injection Hrun as [= <- <-]; apply (calm_callers s); try done; simpl.
  - intros m' [Hin|Hin]%elem_of_app Hcl; [by rewrite (Hnm m' Hin) in Hcl|].
    apply list_elem_of_singleton in Hin as ->. by rewrite Hp.
  - intros m' Hin Hcl. by rewrite (Hnm m' Hin) in Hcl.
  - intros m' lora'. rewrite Hc. done.
Qed.

Lemma use_handle_run h (k : RequestHandle -> E (option AsStatus)) s st s' :
  (hd ← use_handle h; k hd) s = (Ok st, s') -> exists hd, k hd s = (Ok st, s').
Proof.
  unfold use_handle, get_handle, obj, mbind, M_bind, gets. cbn beta iota.
  destruct (handle_owned h s); [|done]. destruct (handles (objects s) !! h) as [hd|]; [by exists hd|done].
Qed.

(** ** All steps *)
Lemma stop_model_callers s s' :
  callers_ok s -> lora_lock_ s' = lora_lock_ s -> thread s' = thread s ->
  (forall m, m ∈ msgs s' -> m ∈ msgs s \/ is_client m = false) ->
  (forall p, stopper s' = StopFlagged p -> model_stopping (model_state s') = true) -> callers_ok s'.
Proof.
  intros [Hm Hs Hsy Hf] E1 E2 Hin Hf'. split; rewrite ?E1, ?E2; try done.
  intros m Hi Hc. destruct (Hin m Hi) as [?|?]; [auto|congruence].
Qed.

Lemma return_callers p st s :
  engine_ok s -> callers_ok s -> lora_lock_ s = WaitReply p ->
  promises (objects s) !! p = Some (Some st) -> callers_ok (set_caller NoCaller s).
Proof.
  intros Hok [Hm Hs Hsy Hf] Hc Hp. assert (Hno : p ∉ owed s) by (intros Hin%Hok; congruence).
  split; simpl; [|done| |done].
  - intros m Hin Hcl. destruct Hno. assert (H := Hm m Hin Hcl). rewrite Hc in H. injection H as ->.
    unfold owed, messages. set_solver.
  - intros p' H1 Hd. destruct Hno. assert (H := Hsy p' H1 Hd). rewrite Hc in H. injection H as ->.
    unfold owed, kept_promises. rewrite Hd. set_solver.
Qed.

Lemma step_callers lim s s' :
  engine_step ctx_ graph_ops_ conf lim s s' -> engine_ok s -> callers_ok s -> callers_ok s'.
Proof.
  intros Hstep Hok Hco. destruct Hstep.
  - by eapply loop_callers.
  - destruct Hco as [Hm Hs Hsy Hf]. split; try done. simpl. intros m. rewrite H. apply Hm.
  - by eapply start_check_callers.
  - by eapply start_enqueue_callers.
  - unfold Engine.StopRequest in H0. destruct h; [|unfold mret, M_ret in H0; simplify_eq; exact Hco].
    apply use_handle_run in H0 as [hd H0]. eapply call_and_wait_callers; [exact Hok|exact Hco|exact H| |exact H0]; done.
  - unfold Engine.ReleaseRequest in H0. destruct h; [|unfold mret, M_ret in H0; simplify_eq; exact Hco].
    apply use_handle_run in H0 as [hd H0]. eapply call_and_wait_callers; [exact Hok|exact Hco|exact H| |exact H0]; done.
  - unfold SyncRequest in H0. destruct h; [apply use_handle_run in H0 as [hd H0]|];
      (eapply call_and_wait_callers; [exact Hok|exact Hco|exact H| |exact H0]; done).
  - by eapply return_callers.
  - unfold StopModel_flag, new_promise, new_obj, mbind, M_bind, modify, gets, mret, M_ret in H0. simpl in H0.
    destruct (model_stopping (model_state s)) eqn:Hst; injection H0 as [= <- <-];
      apply (stop_model_callers s); try done; try (by left).
  - unfold StopModel_enqueue, enqueue, mbind, M_bind, modify in H0.
    destruct accepted; injection H0 as [= <-]; apply (stop_model_callers s); try done; try (by left).
    simpl. intros m [?|Hm]%elem_of_app; [by left|right]. by apply list_elem_of_singleton in Hm as ->.
  - unfold StopModel_return, obj, mbind, M_bind, modify, gets, mret, M_ret in H0.
    destruct (promises (objects s) !! p) as [[v|]|]; [|unfold mret, M_ret in H0; simplify_eq; exact Hco|done].
    destruct (is_success v); [destruct (bool_decide _)|]; injection H0 as [= <-];
      apply (stop_model_callers s); try done; try (by left). apply Hco.
  - destruct Hco. by split.
Qed.

Lemma reachable_callers lim ws s :
  Forall tables_ok ws -> rtc (engine_step ctx_ graph_ops_ conf lim) (Engine_new ws) s ->
  engine_ok s /\ callers_ok s.
Proof.
  intros Hws Hr. refine (rtc_ind_r (fun s => engine_ok s /\ callers_ok s) (Engine_new ws) _ _ s Hr).
  - split; [by apply new_engine_ok|]. split; try done. intros m Hm. by apply not_elem_of_nil in Hm.
  - intros s1 s2 _ Hstep [Hok Hco]. split; [by eapply engine_step_ok|by eapply step_callers].
Qed.

(** * Calls are served *)
Definition is_answered (p : nat) s : Prop := exists st, promises (objects s) !! p = Some (Some st).

Lemma answered_step lim p s s' :
  engine_ok s -> engine_step ctx_ graph_ops_ conf lim s s' -> is_answered p s -> is_answered p s'.
Proof.
  intros Hok Hstep [st Hst]. exists st.
  by apply (hp_promises _ _ (engine_step_heap _ _ _ _ _ _ Hstep (eo_below _ Hok))).
Qed.

Lemma wp_set_value_sets p st s :
  wp (set_value p st) (fun _ s' => is_answered p s') (fun _ _ => True) s.
Proof.
  unfold wp. destruct (set_value p st s) as [[[]|e] s'] eqn:H; [|done].
  apply set_value_run in H as ->. exists st. simpl. apply lookup_insert_eq.
Qed.

Lemma wp_then {A B} (n : E A) (k : A -> E B) (Q : B -> engine -> Prop) s :
  (forall a s', wp (k a) Q (fun _ _ => True) s') -> wp (mbind k n) Q (fun _ _ => True) s.
Proof. intros Hk. apply wp_bind. unfold wp at 1. destruct (n s) as [[a|e] s']; [apply Hk|done]. Qed.

Lemma handle_answers b m s :
  is_call m = true -> wp (handle_message ctx_ graph_ops_ conf b m)
    (fun _ s' => is_answered (promise_of m) s') (fun _ _ => True) s.
Proof.
  intros Hm. destruct m; try done; unfold handle_message;
    repeat first [apply wp_set_value_sets|apply wp_then; intros].
Qed.

(** While a call waits no sync is at work. *)
Lemma call_no_sync m s :
  engine_ok s -> callers_ok s -> m ∈ msgs s -> is_client m = true -> synchronizing (thread s) = false.
Proof.
  intros Hok Hco Hin Hcl. destruct (synchronizing (thread s)) eqn:Hsy; [|done].
  assert (Hd := eo_sync _ Hok). rewrite Hsy in Hd. destruct Hd as [p Hd].
  assert (H1 := co_sync _ Hco p Hsy Hd). rewrite (co_messages _ Hco m Hin Hcl) in H1. injection H1 as H1.
  assert (Hnd := eo_owned _ Hok). unfold owned in Hnd. apply NoDup_app in Hnd as (_ & Hnd & _).
  destruct (Hnd p).
  - apply list_elem_of_bind. exists m. rewrite <- H1. split; [destruct m; set_solver|].
    unfold messages. set_solver.
  - unfold kept_promises. rewrite Hd. set_solver.
Qed.

(** The messages that may still come while the lock is held: a StopModel's, which
    takes no lock, and only one, as it then is stopping. *)
Definition to_come s : nat :=
  match stopper s with
  | StopFlagged _ => 1
  | _ => if model_stopping (model_state s) then 0 else 1
  end.
Definition in_the_way s : nat := length (msgs s) + to_come s.

Lemma to_come_le s s' : stopper s' = stopper s ->
  (model_stopping (model_state s) = true -> model_stopping (model_state s') = true) ->
  (to_come s' <= to_come s)%nat.
Proof.
  unfold to_come. intros ->. intros H.
  assert (Hb : ((if model_stopping (model_state s') then 0 else 1) <=
    (if model_stopping (model_state s) then 0 else 1))%nat).
  { destruct (model_stopping (model_state s)); [by rewrite H|destruct (model_stopping _); lia]. }
  destruct (stopper s); first [exact Hb|lia].
Qed.

(** The message is still there, or it has been answered. *)
Definition served_or m (n : nat) s : Prop :=
  is_answered (promise_of m) s \/ m ∈ msgs s /\ (in_the_way s <= n)%nat.

Lemma took_serves m s s' :
  is_call m = true -> m ∈ msgs s -> took_message s s' -> served_or m (in_the_way s - 1) s'.
Proof.
  intros Hm Hin (b & m1 & rest & Hq & _ & Hrun). rewrite Hq in Hin. apply elem_of_cons in Hin as [<-|Hin].
  - left. assert (H := handle_answers b m (upd_control (set_msg_queue rest) s) Hm).
    unfold wp in H. by rewrite Hrun in H.
  - right. assert (H := handle_message_handled b m1 (upd_control (set_msg_queue rest) s)).
    unfold wp in H. rewrite Hrun in H. destruct H as [E1 E2 E3 E4 _]. simpl in *.
    assert (Ht := to_come_le s s' E3 E4). unfold in_the_way. rewrite E1, Hq. simpl. split; [done|lia].
Qed.

Lemma other_serves lim m s s' :
  engine_ok s -> callers_ok s -> is_call m = true -> m ∈ msgs s ->
  engine_step ctx_ graph_ops_ conf lim s s' -> served_or m (in_the_way s) s'.
Proof.
  intros Hok Hco Hm Hin Hstep. assert (Hcl : is_client m = true) by (by destruct m).
  assert (Hlock := co_messages _ Hco m Hin Hcl).
  assert (Hgo : forall s', msgs s' = msgs s -> (to_come s' <= to_come s)%nat ->
    served_or m (in_the_way s) s').
  { intros s1 E1 E2. right. unfold in_the_way. rewrite E1. split; [done|lia]. }
  destruct Hstep; try congruence.
  - destruct (loop_step_cases _ _ _ _ H) as [[E1 _ E3 E4 _]|Ht].
    + apply Hgo; [done|by apply to_come_le].
    + destruct (took_serves m s s' Hm Hin Ht) as [?|[? ?]]; [by left|right]. split; [done|lia].
  - right. unfold in_the_way, to_come. simpl. rewrite H. split; [done|lia].
  - assert (Hno : promises (objects s) !! promise_of m = Some None).
    { apply Hok. unfold owed, messages. set_solver. }
    congruence.
  - unfold StopModel_flag, new_promise, new_obj, mbind, M_bind, modify, gets, mret, M_ret in H0. simpl in H0.
    destruct (model_stopping (model_state s)) eqn:Hst; injection H0 as [= <- <-]; apply Hgo; try done.
    unfold to_come. simpl. rewrite Hst. by destruct H as [->|[st' ->]].
  - assert (Hf := co_flag _ Hco p H).
    unfold StopModel_enqueue, enqueue, mbind, M_bind, modify in H0.
    destruct accepted; injection H0 as [= <-].
    + right. unfold in_the_way, to_come. simpl. rewrite H, Hf, length_app. simpl.
      split; [set_solver|lia].
    + apply Hgo; [done|]. unfold to_come. simpl. by rewrite H.
  - unfold StopModel_return, obj, mbind, M_bind, modify, gets, mret, M_ret in H0.
    destruct (promises (objects s) !! p) as [[v|]|]; [|injection H0 as <-; apply Hgo; [done|lia]|done].
    destruct (is_success v); [destruct (bool_decide _)|]; injection H0 as [= <-]; apply Hgo; try done;
      unfold to_come; simpl; rewrite H; by destruct (model_stopping _).
  - by apply Hgo.
Qed.

(** The loop reads [n] messages, that is [n] times it is at its messages and the
    estimate tells that there is one; all other steps, the loop's too, come in
    between in any number and order. *)
Inductive reads (lim : EngineLimits) : nat -> engine -> engine -> Prop :=
  | reads_none s : reads lim 0 s s
  | reads_message n b s1 s2 s3 : point (thread s1) = AtMessages ->
      loop_step ctx_ graph_ops_ conf true b s1 = (Ok tt, s2) ->
      reads lim n s2 s3 -> reads lim (S n) s1 s3
  | reads_other n s1 s2 s3 : engine_step ctx_ graph_ops_ conf lim s1 s2 ->
      reads lim n s2 s3 -> reads lim n s1 s3.

Lemma loop_reads b m s s' :
  engine_ok s -> callers_ok s -> m ∈ msgs s -> is_client m = true -> point (thread s) = AtMessages ->
  loop_step ctx_ graph_ops_ conf true b s = (Ok tt, s') -> took_message s s'.
Proof.
  intros Hok Hco Hin Hcl Hpt. assert (Hsy := call_no_sync m s Hok Hco Hin Hcl).
  unfold loop_step, message_step, take_message, mbind, M_bind, gets. rewrite Hpt. cbn beta iota.
  rewrite Hsy. destruct (msgs s) as [|m1 rest] eqn:Hq; [by apply not_elem_of_nil in Hin|].
  intros Hrun. by exists b, m1, rest.
Qed.

Lemma reads_serve lim n m s s' :
  engine_ok s -> callers_ok s -> is_call m = true -> reads lim n s s' -> served_or m n s ->
  is_answered (promise_of m) s'.
Proof.
  intros Hok Hco Hm Hr. revert Hok Hco. induction Hr as [s|n b s1 s2 s3 Hpt Hl _ IH|n s1 s2 s3 Hstep _ IH];
    intros Hok Hco Hs.
  - destruct Hs as [?|[Hin Hle]]; [done|]. unfold in_the_way in Hle.
    destruct (msgs s); [by apply not_elem_of_nil in Hin|simpl in Hle; lia].
  - assert (Hstep : engine_step ctx_ graph_ops_ conf lim s1 s2) by by eapply step_loop.
    apply IH; [by eapply engine_step_ok|by eapply step_callers|]. destruct Hs as [H|[Hin Hle]].
    + left. by eapply answered_step.
    + assert (Ht := loop_reads b m s1 s2 Hok Hco Hin ltac:(by destruct m) Hpt Hl).
      destruct (took_serves m s1 s2 Hm Hin Ht) as [?|[? ?]]; [by left|right]. split; [done|lia].
  - apply IH; [by eapply engine_step_ok|by eapply step_callers|]. destruct Hs as [H|[Hin Hle]].
    + left. by eapply answered_step.
    + destruct (other_serves lim m s1 s2 Hok Hco Hm Hin Hstep) as [?|[? ?]]; [by left|right].
      split; [done|lia].
Qed.

(** C7. A stop or a release whose message is queued is served: its promise is
    answered at the latest when the loop has read one message more than are queued,
    whatever order the queue gives them, whatever its size estimate tells in
    between, and whatever the clients do: the call holds the lock that every other
    call needs, so nothing but one StopModel gets in its way, and no sync does. *)
Theorem call_served lim ws m n s s' :
  Forall tables_ok ws -> rtc (engine_step ctx_ graph_ops_ conf lim) (Engine_new ws) s ->
  m ∈ msgs s -> is_call m = true -> (length (msgs s) < n)%nat -> reads lim n s s' ->
  exists st, promises (objects s') !! promise_of m = Some (Some st).
Proof.
  intros Hws Hr Hin Hm Hn Hreads. destruct (reachable_callers lim ws s Hws Hr) as [Hok Hco].
  apply (reads_serve lim n m s s' Hok Hco Hm Hreads). right. split; [done|].
  assert (Ht : (to_come s <= 1)%nat)
    by (unfold to_come; destruct (stopper s); try destruct (model_stopping _); lia).
  unfold in_the_way. lia.
Qed.
End calls.
