(* ===== verification/EngineEnds.v ===== *)
(** Each step of the model loop ends: its two loops without a bound of their own,
    starting contexts and decoding under memory pressure, make progress in every
    round. *)
From stdpp Require Import base list gmap strings gmultiset relations.
From S2P Require Import Prelude FrameManager RequestCheck ResultQueue ModelState Scheduler SchedulerEnds.
From S2P Require Import SchedulerFrame SchedulerProofs SchedulerSteps SchedulerSpec.
From S2P Require Import EngineState Engine EngineFrame EngineProofs EngineRun.

Section ends.
Context {D R K : Type} `{MD : ModelDevice D R} `{KS : Kernels D R K} `{HO : HashOrder}
  `{DE : !DeviceEnds}.
Variable ctx_ : nat -> DeviceContext.
Variable graph_ops_ : nat -> Graph K.
Variable conf : EngineConfig.
Abbreviation W := (M (AsModel D R)).
Abbreviation E := (M (Engine D R)).
Abbreviation engine := (Engine D R).
Implicit Types s : engine.

(** * Objects and ranks *)
Lemma ends_obj {A} (get : Objects -> gmap nat A) p : ends (obj (D := D) (R := R) get p).
Proof. intros s. unfold wp, obj. by destruct (get _ !! p). Qed.
Hint Resolve ends_obj : ends.
Lemma ends_set_value p st : ends (set_value (D := D) (R := R) p st).
Proof. unfold set_value. ends_tac. Qed.
Lemma ends_on_worker0 {A} (m : W A) : ends m -> ends (on_worker0 m).
Proof.
  intros Hm s. unfold wp, on_worker0. destruct (workers_ s) as [|w ws]; [done|].
  specialize (Hm w). unfold wp in Hm. by destruct (m w) as [[a|e] w1].
Qed.
Hint Resolve ends_set_value ends_on_worker0 : ends.
Ltac engine_ends := repeat first
  [ progress unfold get_handle, get_queue, upd_handle, upd_queue, goto, GetUnFinishedRequest, req, tensor
  | lazymatch goal with |- ends (on_worker0 _) => apply ends_on_worker0 end
  | ends_step | solve [eauto with ends] ].

(** No rank's answer is a loop without end. *)
Abbreviation all_end rs := (Forall (fun r => r <> Err Hang) rs).

Lemma ends_ranks {A B} (m : nat -> W A) (k : list (res A) -> E B) :
  (forall i, ends (m i)) -> (forall rs, all_end rs -> ends (k rs)) -> ends (rs ← enqueue_ranks m; k rs).
Proof.
  intros Hm Hk s. unfold wp, mbind, M_bind. rewrite enqueue_ranks_run. apply Hk.
  assert (H : forall i, all_end (fst (on_ranks i m (workers_ s)))); [|apply H].
  generalize (workers_ s). intros ws. induction ws as [|w ws IH]; intros i; [constructor|].
  rewrite on_ranks_cons. simpl. constructor; [|apply IH].
  apply (ends_run (m i) w _ (snd (m i w))); [done|apply surjective_pairing].
Qed.

Lemma all_end_caught h rs : (forall e, e <> Hang -> h e <> Err Hang) -> all_end rs -> all_end (caught h <$> rs).
Proof.
  intros Hh H. rewrite Forall_fmap. eapply Forall_impl; [exact H|]. intros [a|e]; simpl; [done|]. intros He.
  destruct (fatal e); [done|]. apply Hh. congruence.
Qed.
Lemma ends_collect good rs st : all_end rs -> ends (collect (D := D) (R := R) good rs st).
Proof.
  intros H. revert st. induction H as [|[a|e] rs Hr _ IH]; intros st; simpl; [apply ends_ret|apply IH|].
  apply ends_throw. congruence.
Qed.
Lemma ends_first_failure rs : all_end rs -> ends (first_failure (D := D) (R := R) rs).
Proof.
  induction 1 as [|[a|e] rs Hr _ IH]; simpl; [apply ends_ret| |apply ends_throw; congruence].
  destruct (is_success a); [done|apply ends_ret].
Qed.
Lemma memory_out_ends e : e <> Hang -> memory_out e <> Err Hang.
Proof. unfold memory_out. by destruct (what_memory e). Qed.
Lemma continue_error_ends e : e <> Hang -> continue_error e <> Err Hang.
Proof. unfold continue_error. case_bool_decide; congruence. Qed.
Hint Resolve ends_collect ends_first_failure all_end_caught memory_out_ends continue_error_ends : ends.

Ltac check_tac := unfold check_generate, check_model; repeat (case_match; [apply ends_ret|]).

Lemma ends_RunTextGenerationContext b :
  ends (RunTextGenerationContext (D := D) (R := R) (K := K) ctx_ graph_ops_ conf b).
Proof.
  unfold RunTextGenerationContext. check_tac.
  apply ends_ranks; [intros i; apply ends_GenerateContinueContext|].
  intros rs Hrs. apply ends_collect, all_end_caught, Hrs. apply memory_out_ends.
Qed.
Lemma ends_RunTextGenerationContinue :
  ends (RunTextGenerationContinue (D := D) (R := R) (K := K) ctx_ graph_ops_ conf).
Proof.
  unfold RunTextGenerationContinue. check_tac.
  apply ends_ranks; [intros i; apply ends_AllocDecoderMemory|]. intros rs Hrs.
  apply ends_bind; [apply ends_first_failure, all_end_caught, Hrs; apply memory_out_ends|]. intros st.
  case_match; [apply ends_ret|]. apply ends_ranks; [intros i; apply ends_GenerateContinue|].
  intros rs' Hrs'. apply ends_collect, all_end_caught, Hrs'. apply continue_error_ends.
Qed.
Lemma ends_StopRequestByRequestID id :
  ends (StopRequestByRequestID (D := D) (R := R) (K := K) ctx_ graph_ops_ conf id).
Proof.
  unfold StopRequestByRequestID. check_tac. apply ends_ranks; [intros i; apply ends_StopRequest|].
  intros rs Hrs. by apply ends_collect, all_end_caught.
Qed.
Lemma ends_ReleaseRequestByRequestID id : ends (ReleaseRequestByRequestID (D := D) (R := R) conf id).
Proof.
  unfold ReleaseRequestByRequestID. check_tac. apply ends_ranks; [intros i; apply ends_ReleaseRequest|].
  intros rs Hrs. by apply ends_collect, all_end_caught.
Qed.
Lemma ends_engine_StartRequestImpl h cfg : ends (Engine.StartRequestImpl (D := D) (R := R) conf h cfg).
Proof.
  unfold Engine.StartRequestImpl. apply ends_bind; [apply ends_obj|]. intros hd. apply ends_ranks.
  - intros i. cbv zeta. destruct (inputs_internal hd !! i); [|by apply ends_throw].
    unfold new_tensor, fresh. ends_tac.
  - intros rs Hrs. by apply ends_collect, all_end_caught.
Qed.
Hint Resolve ends_RunTextGenerationContext ends_RunTextGenerationContinue ends_StopRequestByRequestID
  ends_ReleaseRequestByRequestID ends_engine_StartRequestImpl : ends.

(** * Results and messages *)
Lemma ends_UpdateResult : ends (UpdateResult (D := D) (R := R)).
Proof.
  assert (Hf : forall q h, ends (FetchGenerationResultAndIncreaseCounter (D := D) (R := R) q h)).
  { intros. unfold FetchGenerationResultAndIncreaseCounter. engine_ends. }
  unfold UpdateResult, update_entry, update_begun, updateSyncStatus, release_lora, GetRequestById.
  engine_ends; by apply Hf.
Qed.
Hint Resolve ends_UpdateResult : ends.

Lemma ends_handle_message b m : ends (handle_message (D := D) (R := R) (K := K) ctx_ graph_ops_ conf b m).
Proof. unfold handle_message. engine_ends. Qed.
Hint Resolve ends_handle_message : ends.
Lemma ends_message_step b b' : ends (message_step (D := D) (R := R) (K := K) ctx_ graph_ops_ conf b b').
Proof. unfold message_step, take_message, leave_messages. engine_ends. Qed.
Lemma ends_end_step b : ends (end_step (D := D) (R := R) b).
Proof. unfold end_step. engine_ends. Qed.
Lemma ends_finish_sync : ends (finish_sync (D := D) (R := R)).
Proof. unfold finish_sync. engine_ends. Qed.
Lemma ends_interrupt_victim : ends (interrupt_victim (D := D) (R := R) (K := K) ctx_ graph_ops_ conf).
Proof.
  assert (Hg : forall l, ends (generating (D := D) (R := R) l)).
  { induction l as [|[u h] l IH]; cbn [generating]; engine_ends. }
  unfold interrupt_victim, ChooseVictimRequest, random_output. engine_ends; by apply Hg.
Qed.

(** * The loops without a bound of their own *)

(** Each round that succeeds takes a request off the first rank's queue. *)
Lemma wp_run_contexts n b s w ws :
  workers_ s = w :: ws -> tables_ok w -> (length (pending_request_queue_ w) < n)%nat ->
  wp (run_contexts ctx_ graph_ops_ conf n b) (fun _ _ => True) (fun e _ => e <> Hang) s.
Proof.
  revert b s w ws. induction n as [|n IH]; intros b s w ws Hw Ht Hn; [lia|]. cbn [run_contexts].
  apply wp_bind. assert (H := ends_RunTextGenerationContext b s). unfold wp in H. unfold wp at 1.
  destruct (RunTextGenerationContext _ _ _ b s) as [[st|e] s'] eqn:Hr; [|done].
  destruct st; try done.
  destruct (context_round ctx_ graph_ops_ conf b s s' w ws Hw Ht Hr) as (w' & ws' & Hw' & Ht' & Hlt).
  apply (IH false s' w' ws'); [done|done|lia].
Qed.

(** Each round that runs out of memory interrupts one more request. *)
Lemma wp_continue_loop n s :
  engine_ok s -> (generating_count s < n)%nat ->
  wp (continue_loop ctx_ graph_ops_ conf n) (fun _ _ => True) (fun e _ => e <> Hang) s.
Proof.
  revert s. induction n as [|n IH]; intros s Hok Hn; [lia|]. cbn [continue_loop]. apply wp_bind.
  assert (Hf := RunTextGenerationContinue_frame ctx_ graph_ops_ conf s s ltac:(reflexivity)).
  assert (He := ends_RunTextGenerationContinue s). unfold wp in Hf, He. unfold wp at 1.
  destruct (RunTextGenerationContinue _ _ _ s) as [[st|e] s1] eqn:Hr; [|done].
  assert (Hok1 := engine_ok_frame _ _ Hok Hf).
  assert (Hc : generating_count s1 = generating_count s).
  { destruct (continue_workers _ _ _ _ _ _ Hr) as [ws ->]. done. }
  destruct st; try done. apply wp_bind.
  assert (Hf1 := interrupt_victim_frame ctx_ graph_ops_ conf s1 s1 ltac:(reflexivity)).
  assert (He1 := ends_interrupt_victim s1). unfold wp in Hf1, He1. unfold wp at 1.
  destruct (interrupt_victim _ _ _ s1) as [[[]|e] s2] eqn:Hv; [|done|done].
  assert (Hlt := victim_count _ _ _ (victim_correct' ctx_ graph_ops_ conf s1 true s2 Hok1 Hv)).
  apply IH; [by eapply engine_ok_frame|lia].
Qed.

(** C10. Each step of the model loop ends, with a result or an exception, if the
    device and the operators end: the two loops in it that have no bound of their
    own make progress in every round and never use up the fuel the definitions give
    them.  Starting contexts takes a request off the first rank's queue in each
    round that succeeds, so it takes at most one round per pending request and one
    more; decoding under memory pressure interrupts a request in each round that
    runs out of memory, so it takes at most one round per registered request and
    one more. *)
Theorem engine_loops_end b b' s :
  engine_ok s -> workers_ s <> [] -> fst (loop_step ctx_ graph_ops_ conf b b' s) <> Err Hang.
Proof.
  intros Hok Hne. enough (H : wp (loop_step ctx_ graph_ops_ conf b b') (fun _ _ => True) (fun e _ => e <> Hang) s).
  { unfold wp in H. destruct (loop_step _ _ _ _ _ s) as [[[]|e] s']; simpl; congruence. }
  assert (Hthen : forall A B (m : E A) (k : A -> E B), wp m (fun _ _ => True) (fun e _ => e <> Hang) s ->
    (forall a, ends (k a)) -> wp (mbind k m) (fun _ _ => True) (fun e _ => e <> Hang) s).
  { intros A B m k Hm Hk. apply wp_bind. eapply wp_mono; [exact Hm| |done]. intros a s' _. apply Hk. }
  unfold loop_step. apply wp_bind, wp_gets. destruct (point (thread s)).
  - match goal with |- wp ?m _ _ _ => assert (He : ends m) by engine_ends; apply He end.
  - apply ends_message_step.
  - apply Hthen; [|intros a; engine_ends]. unfold RunEngineContext.
    destruct (GetSchedulingStrategy conf); [|apply ends_RunTextGenerationContext].
    apply wp_bind, wp_gets. destruct (workers_ s) as [|w ws] eqn:Hw; [done|].
    assert (Ht := eo_workers _ Hok). rewrite Hw in Ht. apply Forall_cons in Ht as [Ht _].
    eapply wp_run_contexts; [done..|lia].
  - apply Hthen; [|intros a; engine_ends]. unfold RunContinue. apply wp_bind, wp_gets.
    assert (Hb := generating_count_bound s). apply wp_continue_loop; [done|lia].
  - match goal with |- wp ?m _ _ _ => assert (He : ends m); [|apply He] end.
    apply ends_bind; [apply ends_UpdateResult|]. intros ?.
    apply ends_bind; [apply ends_finish_sync|]. intros ?. engine_ends.
  - apply ends_end_step.
  - by apply wp_ret.
Qed.
End ends.
