(* ===== verification/EngineTheorems.v ===== *)
(** The engine: what holds in every state it can reach, a small engine on which
    the properties are shown to apply, and runs on which it does not do what it
    means to. *)
From stdpp Require Import base list gmap strings gmultiset relations.
From S2P Require Import Prelude FrameManager RequestCheck ResultQueue ModelState Scheduler SchedulerEnds.
From S2P Require Import SchedulerFrame SchedulerProofs SchedulerSteps SchedulerSpec SchedulerDecode SchedulerTheorems.
From S2P Require Import EngineState Engine EngineFrame EngineProofs EngineSync EngineRun EngineRelease EngineCalls EngineEnds.

Section theorems.
Context {D R K : Type} `{MD : ModelDevice D R} `{KS : Kernels D R K} `{HO : HashOrder}.
Variable ctx_ : nat -> DeviceContext.
Variable graph_ops_ : nat -> Graph K.
Variable conf : EngineConfig.
Implicit Types s : Engine D R.

(** C1. Every state the engine reaches from a new one, with any interleaving of its
    loop, of the calls of its clients and of a StopModel, has consistent tables:
    the two maps of requests have the same ids, a registered handle and queue exist
    and the handle names the id it is registered under, no promise, handle or queue
    has two owners, every promise somebody owes is still unanswered, and a rank's
    scheduler keeps its own invariant. *)
Theorem engine_invariant lim ws s :
  Forall tables_ok ws -> rtc (engine_step ctx_ graph_ops_ conf lim) (Engine_new ws) s -> engine_ok s.
Proof. apply engine_reachable_ok. Qed.

(** C9. Whatever the engine and its clients do, each result queue keeps its order:
    what its client was given, holds and finds in the queue are together, in order,
    the ids the engine appended, and no client reads an element that is not there. *)
Theorem engine_queue_fifo lim ws s p q :
  rtc (engine_step ctx_ graph_ops_ conf lim) (Engine_new ws) s -> queues (objects s) !! p = Some q ->
  delivered q ++ held q ++ first_ids (store_queue_ q) = first_ids (appended q) /\ client q <> Crashed.
Proof. intros Hr Hq. by eapply fifo_holds, reachable_queue. Qed.
End theorems.

(** * A small engine

    One rank with the device of the scheduler's examples. *)
Module EngineDemo.
Import Demo.
#[local] Existing Instance device.

(** For each request of the pass the operator writes its ids, all of them 7: those
    there are and one more. *)
Definition batch (s : AsModel Dev Z) : list (GenerateContext Z) :=
  omap (fun g => gen_ctxs s !! g)
    (if is_context s then option_list (gen_ctx_list s !! Z.to_nat (context_batch s))
     else gen_ctx_list s).
Definition ids_tensor (c : GenerateContext Z) : nat := (100 + ModelState.request c)%nat.
Definition ids_of (s : AsModel Dev Z) (c : GenerateContext Z) : Tensor :=
  let n := if is_context s then step c + in_length_bias c + 1 else step c + 1 in
  mkTensor 1 n (replicate (Z.to_nat n) (Some 7)).
#[local] Instance operators : Kernels Dev Z Op := {|
  kernel_call k op s :=
    match k, op with
    | Generate, CallForward => (Ok ALLSPARK_SUCCESS, mkEffect (dev s)
        (foldr (fun c => <[ids_tensor c := ids_of s c]>) (tensors s) (batch s)) 1000
        (map_imap (fun r q => Some (<["generated_ids" := (100 + r)%nat]> (interim q))) (requests s)) ∅
        (cache_set_map s))
    | _, _ => (Ok ALLSPARK_SUCCESS, mkEffect (dev s) (tensors s) 0 ∅ ∅ (cache_set_map s))
    end;
  is_span_attn _ := false |}.

#[local] Instance list_order : HashOrder := {| map_order := map_to_list; map_order_perm m := reflexivity _ |}.

Definition ctxs (i : nat) : DeviceContext := ctx CPU.
Definition graphs (i : nat) : Graph Op :=
  mkGraph [Kernel Nothing] [Kernel Nothing] [Kernel Generate] [UpdateIdOp "update_id"] [].
Definition conf : EngineConfig := mkEngineConfig true true 16 ContextPriority MaxLength (fun _ => 0).
Definition lim : EngineLimits := mkLimits true true 16 2.
Abbreviation engine := (Engine Dev Z).
Abbreviation step := (engine_step ctxs graphs conf lim).

(** ** Scripts

    The estimate of the queue's size is right; [Swap] turns the queue around. *)
Inductive Action :=
  | Loop (n : nat)
  | Swap
  | Start (uuid : string) (len maxlen : Z) (lora : string)
  | StartOn
  | Stop (h : nat)
  | Release (h : nat)
  | Sync (h : option nat)
  | Return
  | StopModel
  | StopModelOn
  | StopModelBack.

Definition content (len maxlen : Z) (lora : string) : RequestContent :=
  mkContent {["input_ids" := mkTensor 1 len (replicate (Z.to_nat len) (Some 5))]}
    (mkGenCfg true 1 true 0 [] maxlen lora) (sampling (default_request f1 f1)).

(** The step an action takes, and whether it can be taken. *)
Definition run_of {A} (m : M engine A) (s : engine) : option engine :=
  match m s with (Ok _, s') => Some s' | _ => None end.
Definition free (s : engine) : bool := match lora_lock_ s with NoCaller => true | _ => false end.

Definition one_loop (s : engine) : res unit * engine :=
  let b := negb (bool_decide (msg_queue (model_state s) = [])) in
  loop_step ctxs graphs conf b (1 <? length (msg_queue (model_state s)))%nat s.
Fixpoint loop_n (n : nat) (s : engine) : option engine :=
  match n with
  | O => Some s
  | S n' => s' ← run_of one_loop s; loop_n n' s'
  end.

Definition act (a : Action) (s : engine) : option engine :=
  match a with
  | Loop n => loop_n n s
  | Swap => Some (upd_control (set_msg_queue (rev (msg_queue (model_state s)))) s)
  | Start uuid len maxlen lora =>
      if free s then run_of (StartRequest_check lim uuid (Some (content len maxlen lora))) s else None
  | StartOn =>
      match lora_lock_ s with
      | Starting m lora => run_of (StartRequest_enqueue true m lora) s
      | _ => None
      end
  | Stop h => if free s then run_of (Engine.StopRequest true (Some h)) s else None
  | Release h => if free s then run_of (Engine.ReleaseRequest true (Some h)) s else None
  | Sync h => if free s then run_of (SyncRequest true h) s else None
  | Return =>
      match lora_lock_ s with
      | WaitReply p =>
          match promises (objects s) !! p with
          | Some (Some _) => Some (set_caller NoCaller s)
          | _ => None
          end
      | _ => None
      end
  | StopModel => match stopper s with NotStopping => run_of StopModel_flag s | _ => None end
  | StopModelOn => match stopper s with StopFlagged p => run_of (StopModel_enqueue true p) s | _ => None end
  | StopModelBack => match stopper s with StopWaiting p => run_of (StopModel_return p) s | _ => None end
  end.
Fixpoint script (l : list Action) (s : engine) : option engine :=
  match l with
  | [] => Some s
  | a :: l' => s' ← act a s; script l' s'
  end.

Lemma run_of_step {A} (m : M engine A) s s' :
  run_of m s = Some s' -> exists a, m s = (Ok a, s').
Proof. unfold run_of. destruct (m s) as [[a|e] s1]; [|done]. intros [= <-]. by exists a. Qed.

Lemma loop_n_steps n s s' : loop_n n s = Some s' -> rtc step s s'.
Proof.
  revert s. induction n as [|n IH]; intros s; simpl; [by intros [= ->]|].
  destruct (run_of _ s) as [s1|] eqn:H1; [|done]. simpl. intros H.
  apply run_of_step in H1 as [[] H1]. eapply rtc_l; [unfold one_loop in H1; by eapply step_loop|by apply IH].
Qed.

Lemma act_steps a s s' : act a s = Some s' -> rtc step s s'.
Proof.
  intros H. destruct a; cbn [act] in H; unfold free in H; repeat case_match; simplify_eq.
  1: by eapply loop_n_steps.
  1: apply rtc_once, step_reorder; symmetry; apply Permutation_rev.
  all: try apply run_of_step in H as [st H]; apply rtc_once.
  - by eapply step_start.
  - by eapply step_start_enqueue.
  - by eapply step_stop.
  - by eapply step_release.
  - by eapply step_sync.
  - by eapply step_return.
  - eapply step_stop_model; [by left|done].
  - destruct st. by eapply step_stop_model_enqueue.
  - destruct st. by eapply step_stop_model_return.
Qed.

Lemma script_steps l s s' : script l s = Some s' -> rtc step s s'.
Proof.
  revert s. induction l as [|a l IH]; intros s; simpl; [by intros [= ->]|].
  destruct (act a s) as [s1|] eqn:H1; [|done]. intros H. etrans; [by eapply act_steps|by apply IH].
Qed.

Definition start : engine := Engine_new [model].
Definition after_script (l : list Action) : engine := default start (script l start).
Definition runs (l : list Action) (s : engine) : bool := if script l s then true else false.

Lemma reached l : runs l start = true -> rtc step start (after_script l).
Proof.
  unfold runs, after_script. destruct (script l start) as [s|] eqn:H; [|done].
  intros _. by eapply script_steps.
Qed.
Lemma reached_app l1 l2 : runs (l1 ++ l2) start = true ->
  rtc step (after_script l1) (after_script (l1 ++ l2)).
Proof.
  unfold runs, after_script. assert (Happ : forall l s, script (l ++ l2) s = s' ← script l s; script l2 s').
  { induction l as [|a l IH]; intros s; simpl; [done|]. destruct (act a s) as [s1|]; [apply IH|done]. }
  rewrite Happ. destruct (script l1 start) as [s|] eqn:H1; [|done]. simpl.
  destruct (script l2 s) as [s'|] eqn:H; [|done]. intros _. by eapply script_steps.
Qed.

Lemma start_ok : Forall tables_ok [model].
Proof. by repeat constructor; apply new_tables_ok. Qed.
Lemma script_ok l : runs l start = true -> engine_ok (after_script l).
Proof. intros H. eapply engine_reachable_ok; [apply start_ok|by apply reached]. Qed.

(** Request "a" of 3 tokens, at most 8; its handle is 1, its queue 2. *)
Definition begin_a : list Action := [Start "a" 3 8 ""; StartOn].

Lemma engine_invariant_witness : engine_ok (after_script (begin_a ++ [Loop 20])).
Proof.
  refine (engine_invariant ctxs graphs conf lim [model] _ start_ok (reached _ _)).
  vm_compute. reflexivity.
Defined.

Definition queue_at (s : engine) (p : nat) : ResultQueue.ResultQueue := default ResultQueue_new (queues (objects s) !! p).

(** It runs to its end and the queue holds its 5 tokens. *)
Lemma engine_queue_fifo_witness :
  let q := queue_at (after_script (begin_a ++ [Loop 30])) 2 in
  first_ids (store_queue_ q) = [7; 7; 7; 7; 7] /\ status_ q = GenerateFinished /\
  (delivered q ++ held q ++ first_ids (store_queue_ q) = first_ids (appended q) /\ client q <> Crashed).
Proof.
  split; [vm_compute; reflexivity|]. split; [vm_compute; reflexivity|].
  refine (engine_queue_fifo ctxs graphs conf lim [model] _ 2 _ (reached (begin_a ++ [Loop 30]) _) _);
    vm_compute; reflexivity.
Defined.

(** A sync of "a" while it generates. *)
Definition syncs : list Action := begin_a ++ [Loop 7; Sync (Some 1%nat); Loop 3].
Lemma sync_waits_witness :
  ALLSPARK_SUCCESS = ALLSPARK_SUCCESS /\
  forall u, u ∈ sync_pending_set (thread (after_script syncs)) ->
    done_since (after_script syncs) (after_script (syncs ++ [Loop 40])) u.
Proof.
  refine (sync_waits ctxs graphs conf lim [model] (after_script syncs) (after_script (syncs ++ [Loop 40]))
    3 ALLSPARK_SUCCESS start_ok (reached syncs _) _ _ (reached_app syncs [Loop 40] _) _); vm_compute; reflexivity.
Defined.

(** The message of a sync of "a" overtakes the message that starts "a": the sync
    waits for ever, and "a" does not start. *)
Definition sync_first : list Action := [Loop 1] ++ begin_a ++ [Sync (Some 1%nat); Swap; Loop 1].
Lemma sync_unregistered_blocks_witness :
  lora_lock_ (after_script (sync_first ++ [Loop 50])) = WaitReply 3 /\
  promises (objects (after_script (sync_first ++ [Loop 50]))) !! 3%nat = Some None /\
  msg_queue (model_state (after_script sync_first)) ⊆+
    msg_queue (model_state (after_script (sync_first ++ [Loop 50]))).
Proof.
  refine (sync_unregistered_blocks ctxs graphs conf lim [model] (after_script sync_first)
    (after_script (sync_first ++ [Loop 50])) 3 "a" start_ok (reached sync_first _)
    _ _ _ _ _ (reached_app sync_first [Loop 50] _)).
  5: apply (bool_decide_eq_true_1 _).
  all: vm_compute; reflexivity.
Defined.

(** The model is stopped; then a client stops "a". *)
Definition stopped_model : list Action :=
  begin_a ++ [Loop 30; StopModel; StopModelOn; Loop 12; StopModelBack; Stop 1].
Lemma call_after_exit_blocks_witness :
  lora_lock_ (after_script (stopped_model ++ [Loop 9])) = WaitReply 4 /\
  promises (objects (after_script (stopped_model ++ [Loop 9]))) !! 4%nat = Some None /\
  point (thread (after_script (stopped_model ++ [Loop 9]))) = Exited.
Proof.
  refine (call_after_exit_blocks ctxs graphs conf lim [model] (after_script stopped_model)
    (after_script (stopped_model ++ [Loop 9])) 4 start_ok (reached stopped_model _) _ _ _
    (reached_app stopped_model [Loop 9] _)); vm_compute; reflexivity.
Defined.

(** Two requests generate: "a" has 4 tokens, "b" 5. *)
Definition generate_two : list Action := begin_a ++ [Start "b" 4 10 ""; StartOn; Loop 6].
Definition two_running : engine := after_script generate_two.
Lemma victim_correct_witness :
  let s' := snd (interrupt_victim ctxs graphs conf two_running) in
  queue_status s' "a" = Some Generating /\ queue_status s' "b" = Some GenerateInterrupted /\
  victim_outcome conf two_running true s'.
Proof.
  split; [vm_compute; reflexivity|]. split; [vm_compute; reflexivity|].
  refine (victim_correct ctxs graphs conf two_running true _ (script_ok generate_two _) (run_eq _ _ _));
    vm_compute; reflexivity.
Defined.

#[local] Instance device_ends : DeviceEnds (K := Op).
Proof.
  split; intros; try (intros s; exact I).
  - done.
  - simpl. apply elem_of_seq. lia.
  - by destruct k, op.
Qed.

(** Both run to the end: the step that starts "a" and the step that decodes it. *)
Lemma engine_loops_end_witness :
  fst (loop_step ctxs graphs conf true false (after_script (begin_a ++ [Loop 3]))) <> Err Hang.
Proof.
  refine (engine_loops_end ctxs graphs conf true false _ (script_ok (begin_a ++ [Loop 3]) _) _);
    vm_compute; [reflexivity|discriminate].
Defined.

(** The release of "a", which runs. *)
Definition releasing : list Action := begin_a ++ [Loop 7; Release 1; Loop 1].
Lemma release_correct_witness :
  exists st, released "a" 3 st (after_script releasing)
    (snd (handle_message ctxs graphs conf false (MsgReleaseRequest 3 "a") (after_script releasing))).
Proof.
  refine (release_correct ctxs graphs conf false 3 "a" _ _ (script_ok releasing _) _ (run_eq _ _ _));
    vm_compute; reflexivity.
Defined.

(** A stop behind the start of the same request: two messages are queued, the third
    read at the latest answers it. *)
Definition stop_behind : list Action := [Loop 1] ++ begin_a ++ [Stop 1].
Fixpoint read_n (n : nat) (s : engine) : option engine :=
  match n with
  | O => Some s
  | S n' =>
      match point (thread s) with
      | AtMessages => s' ← run_of (loop_step ctxs graphs conf true false) s; read_n n' s'
      | _ => None
      end
  end.
Lemma read_n_reads n s s' : read_n n s = Some s' -> reads ctxs graphs conf lim n s s'.
Proof.
  revert s. induction n as [|n IH]; intros s; simpl; [intros [= ->]; constructor|].
  destruct (point (thread s)) eqn:Hp; try done. destruct (run_of _ s) as [s1|] eqn:H1; [|done].
  apply run_of_step in H1 as [[] H1]. intros H. by eapply reads_message, IH.
Qed.

Lemma call_served_witness :
  exists st, promises (objects (default start (read_n 3 (after_script stop_behind)))) !! 3%nat = Some (Some st).
Proof.
  assert (Hq : msg_queue (model_state (after_script stop_behind)) =
    [MsgStartRequest 0 "a" 1 2 (ModelState.mkGenCfg true 1 true 0 [] 8 ""); MsgStopRequest 3 "a"])
    by (vm_compute; reflexivity).
  refine (call_served ctxs graphs conf lim [model] (MsgStopRequest 3 "a") 3 (after_script stop_behind) _
    start_ok (reached stop_behind _) _ eq_refl _ (read_n_reads 3 _ _ _)); rewrite ?Hq.
  2: set_solver.
  2: simpl; lia.
  all: vm_compute; reflexivity.
Defined.

(** ** Where the engine does not do what it means to *)
Definition lora_start : engine := Engine_new [AsModel_new (mkDev 0 100 false ["L"])].
Definition lora_script (l : list Action) : engine := default lora_start (script l lora_start).
Definition in_use (s : engine) : option Z * Z := (Z.of_nat <$> (multiplicity "L" <$> loras_in_use_ s), lora_use_count_ s).

(** A client stops a request that still waits for its turn: the next
    [UpdateResult] takes it for begun and reads its whole output tensor, of which
    nothing has been written. *)
Definition stop_waiting : list Action :=
  [Loop 1] ++ begin_a ++ [Start "b" 4 10 ""; StartOn; Start "c" 4 10 ""; StartOn; Loop 10; Stop 7; Loop 7].
Lemma stopped_waiting_reads_unwritten :
  let s := after_script stop_waiting in
  runs stop_waiting start = true /\ queue_status s "c" = Some Init /\
  point (thread s) = AtContext /\ promises (objects s) !! 9%nat = Some (Some ALLSPARK_SUCCESS) /\
  fst (one_loop s) = Err UB.
Proof. vm_compute. done. Qed.

(** A LoRA counts as in use for ever once its request is released before its end. *)
Lemma lora_leak_on_release :
  let l := [Start "a" 3 8 "L"; StartOn; Loop 7; Release 1; Loop 4; Return] in
  runs l lora_start = true /\ in_use (lora_script l) = (Some 1, 1) /\
  in_use (lora_script [Start "a" 3 8 "L"; StartOn; Loop 40]) = (Some 0, 0).
Proof. vm_compute. done. Qed.

(** A request whose message comes behind a graceful stop: [StartRequest] has
    answered success, the loop denies the request, and nobody tells the client:
    its queue stays [Init], its LoRA in use. *)
Lemma denied_after_success :
  let l := [Loop 1; Start "a" 3 8 "L"; StopModel; StopModelOn; StartOn; Loop 15; StopModelBack] in
  let s := lora_script l in
  runs l lora_start = true /\ promises (objects s) !! 0%nat = Some (Some ALLSPARK_REQUEST_DENIED) /\
  status_ (queue_at s 2) = Init /\ point (thread s) = Exited /\ in_use s = (Some 1, 1) /\
  stopper s = StopReturned ALLSPARK_SUCCESS.
Proof. vm_compute. done. Qed.
End EngineDemo.
