(* ===== verification/MemoryReuse.v ===== *)
(** Activation memory (src/csrc/common/block_impl.h, block_allocator.h,
    memory_reuser.cpp, src/csrc/core/tensor/data.cpp, tensor.cpp): buffers of
    tensors, blocks that tensors share, the pool of blocks of a device context,
    and the binding of the tensors of a graph to blocks by their visits. *)
From stdpp Require Import base list gmap strings.
From S2P Require Import Prelude.

(** * Shapes *)
Definition Shape := list Z.

(** [Shape::Count] of a whole shape; a shape without dimensions counts 0. *)
Definition Count (shape : Shape) : Z :=
  match shape with [] => 0 | _ => foldl Z.mul 1 shape end.

(** * Memory *)

(** [Allocator]: [None] stands for an error status, which leaves the pointer as
    it was; [Some p] is what is stored, null for no bytes.  [live] are the
    buffers in use. *)
Class Allocator (A : Type) := {
  alloc_bytes : Z -> A -> option (option nat) * A;
  free_bytes : nat -> A -> A;
  live : A -> gset nat;
}.

(** The address of a new object is one that is not in use. *)
Class Addresses := {
  new_address : gset nat -> nat;
  new_address_fresh X : new_address X ∉ X;
}.

(** The order in which an [unordered_map] is walked is not specified. *)
Class VisitOrder := {
  visit_order : gmap nat Z -> list (nat * Z);
  visit_order_perm m : visit_order m ≡ₚ map_to_list m;
}.

(** [DenseData] with the allocator's own buffers (no external deleter). *)
Record DenseData := mkDense { raw_data_ : option nat; nbytes_ : Z }.

(** [BlockImpl] *)
Record Block := mkBlock { size_ : Z; ptr_ : option nat; tensors_ : gset nat }.

(** [AsTensor] of mode [DENSE]; [elem] is [SizeofType(dtype_)]. *)
Record AsTensor := mkTensor {
  name_ : string;
  elem : Z;
  shape_ : Shape;
  data_ : DenseData;
  block_ : option nat;
  mutable_ : bool;
}.

(** What tensors and blocks live in: the blocks and tensors by their addresses,
    the pool [BlockAllocator] of the device context, the allocator, and the
    contents [V] of the buffers that have been written. *)
Record Context (A V : Type) := mkContext {
  blocks : gmap nat Block;
  free_blocks_ : list nat;
  allocated_blocks_ : gset nat;
  tensors : gmap nat AsTensor;
  allocator_ : A;
  memory : gmap nat V;
}.
Arguments mkContext {A V}. Arguments blocks {A V}. Arguments free_blocks_ {A V}.
Arguments allocated_blocks_ {A V}. Arguments tensors {A V}. Arguments allocator_ {A V}.
Arguments memory {A V}.

Definition set_size n (b : Block) := mkBlock n (ptr_ b) (tensors_ b).
Definition set_ptr p (b : Block) := mkBlock (size_ b) p (tensors_ b).
Definition set_bound X (b : Block) := mkBlock (size_ b) (ptr_ b) X.
Definition set_shape_ l (t : AsTensor) := mkTensor (name_ t) (elem t) l (data_ t) (block_ t) (mutable_ t).
Definition set_data d (t : AsTensor) := mkTensor (name_ t) (elem t) (shape_ t) d (block_ t) (mutable_ t).
Definition set_block b (t : AsTensor) := mkTensor (name_ t) (elem t) (shape_ t) (data_ t) b (mutable_ t).

Section reuse.
Context {A V : Type} `{AL : Allocator A} `{AD : Addresses} `{VO : VisitOrder}.
Abbreviation ctx := (Context A V).
Abbreviation E := (M ctx).
Implicit Types s : ctx.

Definition set_blocks f s : ctx :=
  mkContext (f (blocks s)) (free_blocks_ s) (allocated_blocks_ s) (tensors s) (allocator_ s) (memory s).
Definition set_pools l X s : ctx :=
  mkContext (blocks s) l X (tensors s) (allocator_ s) (memory s).
Definition set_tensors f s : ctx :=
  mkContext (blocks s) (free_blocks_ s) (allocated_blocks_ s) (f (tensors s)) (allocator_ s) (memory s).
Definition set_memory a m s : ctx :=
  mkContext (blocks s) (free_blocks_ s) (allocated_blocks_ s) (tensors s) a m.

(** The object behind a pointer. *)
Definition block (b : nat) : E Block := fun s =>
  match blocks s !! b with Some x => (Ok x, s) | None => (Err UB, s) end.
Definition upd_block (b : nat) (f : Block -> Block) : E unit :=
  x ← block b; modify (set_blocks <[b := f x]>).
Definition tensor (t : nat) : E AsTensor := fun s =>
  match tensors s !! t with Some x => (Ok x, s) | None => (Err UB, s) end.
Definition upd_tensor (t : nat) (f : AsTensor -> AsTensor) : E unit :=
  x ← tensor t; modify (set_tensors <[t := f x]>).

(** A buffer is freed once; a new one holds nothing that was written. *)
Definition free_buffer (p : nat) : E unit := fun s =>
  if bool_decide (p ∈ live (allocator_ s))
  then (Ok tt, set_memory (free_bytes p (allocator_ s)) (delete p (memory s)) s)
  else (Err UB, s).
Definition alloc_buffer (n : Z) : E (option (option nat)) := fun s =>
  let '(r, a) := alloc_bytes n (allocator_ s) in
  (Ok r, set_memory a (match r with Some (Some p) => delete p (memory s) | _ => memory s end) s).

(** * DenseData

    The methods work on the value; the caller stores it. *)
Definition DenseData_new (nbytes : Z) : E DenseData :=
  if nbytes =? 0 then mret (mkDense None 0)
  else
    r ← alloc_buffer nbytes;
    match r with
    | Some p => mret (mkDense p nbytes)
    | None => AS_THROW ALLSPARK_MEMORY_ERROR
    end.
Definition DenseData_delete (d : DenseData) : E unit :=
  match raw_data_ d with Some p => free_buffer p | None => mret tt end.
(** After a failure the pointer still names the freed buffer. *)
Definition DenseData_Resize (d : DenseData) (nbytes : Z) : E (AsStatus * DenseData) :=
  if nbytes <=? nbytes_ d then mret (ALLSPARK_SUCCESS, d)
  else
    match raw_data_ d with Some p => free_buffer p | None => mret tt end;;
    r ← alloc_buffer nbytes;
    match r with
    | Some p => mret (ALLSPARK_SUCCESS, mkDense p nbytes)
    | None => mret (ALLSPARK_MEMORY_ERROR, d)
    end.

(** * Blocks *)
Definition Block_Free (b : nat) : E unit :=
  x ← block b;
  match ptr_ x with
  | Some p => free_buffer p;; upd_block b (fun x => set_size 0 (set_ptr None x))
  | None => mret tt
  end.
(** The status of the allocation is not looked at. *)
Definition Resize (b : nat) (new_size : Z) : E Z :=
  x ← block b;
  when (size_ x <? new_size)
    (Block_Free b;;
     r ← alloc_buffer new_size;
     match r with Some p => upd_block b (set_ptr p) | None => mret tt end;;
     upd_block b (set_size new_size));;
  x ← block b;
  mret (size_ x).
Definition Destory (b : nat) : E unit :=
  x ← block b;
  match ptr_ x with
  | Some p => free_buffer p;; upd_block b (set_ptr None)
  | None => mret tt
  end.
(** [Restore] hands the null pointer itself to [Alloc], to be written through. *)
Definition Restore (b : nat) : E unit :=
  x ← block b;
  match ptr_ x with
  | None => if 0 <? size_ x then throw UB else mret tt
  | Some _ => mret tt
  end.
Definition BindTensor (b t : nat) : E unit := upd_block b (fun x => set_bound ({[t]} ∪ tensors_ x) x).
Definition UnBindTensor (b t : nat) : E unit := upd_block b (fun x => set_bound (tensors_ x ∖ {[t]}) x).

(** * The pool

    [free_blocks_] is a [std::set] ordered by size, then address; its operations
    are defined only while its elements are in that order. *)
Definition rank (bs : gmap nat Block) (b : nat) : Z * nat :=
  (match bs !! b with Some x => size_ x | None => 0 end, b).
Definition rank_lt (x y : Z * nat) : bool :=
  (fst x <? fst y) || ((fst x =? fst y) && (snd x <? snd y)%nat).
Fixpoint ordered (l : list (Z * nat)) : bool :=
  match l with
  | x :: (y :: _) as l' => rank_lt x y && ordered l'
  | _ => true
  end.
Definition in_order s : bool := ordered (rank (blocks s) <$> free_blocks_ s).

Definition lower_bound (bs : gmap nat Block) (key : Z * nat) (l : list nat) : option nat :=
  List.find (fun b => negb (rank_lt (rank bs b) key)) l.
Fixpoint insert_block (bs : gmap nat Block) (b : nat) (l : list nat) : list nat :=
  match l with
  | [] => [b]
  | c :: l' => if rank_lt (rank bs c) (rank bs b) then c :: insert_block bs b l' else b :: l
  end.
Definition erase (b : nat) (l : list nat) : list nat := List.filter (fun c => negb (c =? b)%nat) l.

(** [BlockAllocator::Alloc]; the search key is a block of its own, with an
    address of its own. *)
Definition AllocBlock (size : Z) : E nat :=
  s ← gets id;
  if negb (in_order s) then throw UB else
  let key := new_address (dom (blocks s)) in
  b ← (match lower_bound (blocks s) (size, key) (free_blocks_ s) with
       | Some b => modify (fun s => set_pools (erase b (free_blocks_ s)) (allocated_blocks_ s) s);; mret b
       | None =>
           match last (free_blocks_ s) with
           | Some b =>
               Resize b size;;
               modify (fun s => set_pools (erase b (free_blocks_ s)) (allocated_blocks_ s) s);; mret b
           | None =>
               let b := new_address ({[key]} ∪ dom (blocks s)) in
               modify (set_blocks <[b := mkBlock 0 None ∅]>);; Resize b size;; mret b
           end
       end);
  modify (fun s => set_pools (free_blocks_ s) ({[b]} ∪ allocated_blocks_ s) s);;
  mret b.

Definition FreeBlock (block : option nat) : E unit :=
  match block with
  | None => mret tt
  | Some b =>
      s ← gets id;
      if negb (bool_decide (b ∈ allocated_blocks_ s)) then mret tt
      else if negb (in_order s) then throw UB
      else modify (fun s => set_pools (insert_block (blocks s) b (free_blocks_ s))
                              (allocated_blocks_ s ∖ {[b]}) s)
  end.
Definition Reset : E unit :=
  s ← gets id;
  for_each (elements (allocated_blocks_ s)) (fun b => FreeBlock (Some b)).

(** A block nobody points to any more is destroyed with its buffer. *)
Definition referenced s (b : nat) : bool :=
  bool_decide (b ∈ free_blocks_ s) || bool_decide (b ∈ allocated_blocks_ s)
  || bool_decide (Exists (fun e => block_ (snd e) = Some b) (map_to_list (tensors s))).
Definition drop_unreferenced : E unit :=
  s ← gets id;
  for_each (List.filter (fun b => negb (referenced s b)) (elements (dom (blocks s))))
    (fun b => Block_Free b;; modify (set_blocks (delete b))).
Definition ResetPools : E unit :=
  modify (set_pools [] ∅);; drop_unreferenced.

(** * Tensors *)
Definition BindingBlock (t b : nat) : E unit :=
  upd_tensor t (set_block (Some b));; drop_unreferenced;; BindTensor b t.
Definition GetDataPtr (t : nat) : E (option nat) :=
  x ← tensor t;
  match block_ x with
  | Some b => y ← block b; mret (ptr_ y)
  | None => mret (raw_data_ (data_ x))
  end.
Definition GetSizeInByte (t : nat) : E Z :=
  x ← tensor t;
  let min_size := u64 (Count (shape_ x) * elem x) in
  match block_ x with
  | Some b => y ← block b; mret (u64 (Z.max (i64 min_size) (size_ y)))
  | None => mret (u64 (Z.max (i64 min_size) (nbytes_ (data_ x))))
  end.
(** The argument is not looked at. *)
Definition SetMutable (t : nat) (is_mutable : bool) : E unit :=
  upd_tensor t (fun x => mkTensor (name_ x) (elem x) (shape_ x) (data_ x) (block_ x) true).
(** With a block the status is always success; without one a failed
    [Resize] leaves the shape. *)
Definition SetShape (t : nat) (shape : Shape) : E AsStatus :=
  x ← tensor t;
  let nbytes := i64 (Count shape * elem x) in
  match block_ x with
  | Some b =>
      Resize b nbytes;;
      upd_tensor t (set_shape_ shape);;
      mret ALLSPARK_SUCCESS
  | None =>
      '(ret, d) ← DenseData_Resize (data_ x) nbytes;
      upd_tensor t (set_data d);;
      if bool_decide (ret = ALLSPARK_SUCCESS) then
        upd_tensor t (set_shape_ shape);; mret ALLSPARK_SUCCESS
      else mret ret
  end.
(** The old buffer is dropped once the new one is there. *)
Definition Free (t : nat) : E AsStatus :=
  x ← tensor t;
  match block_ x with
  | Some b => Block_Free b;; mret ALLSPARK_SUCCESS
  | None =>
      d ← DenseData_new 1;
      DenseData_delete (data_ x);;
      upd_tensor t (set_data d);;
      mret ALLSPARK_SUCCESS
  end.

(** * Binding *)
Definition noreused : list string :=
  ["cross_attention.key_value.out"; "input_ids"; "attention_mask"; "fusion_input_ids";
   "fusion_attention_mask"; "fusion_relative_position"; "batch_offset"; "transmask.out";
   "max_dec_ids"; "generated_ids_global"; "dec_ids"; "next_beam_id"; "hyps_ids";
   "hyps_beam_score"].
Definition checknoused (name : string) : bool :=
  existsb (fun w => match String.index 0 w name with Some _ => true | None => false end) noreused.

(** How often each tensor is visited. *)
Definition count_visits (root_list : list nat) : gmap nat Z :=
  foldl (fun vis t => <[t := default 0 (vis !! t) + 1]> vis) ∅ root_list.

(** One list of [visit_list]: a tensor gets a block at its first visit. *)
Fixpoint bind_tensors (l : list nat) (vis : gmap nat Z) (binded : gset nat)
    : E (gmap nat Z * gset nat) :=
  match l with
  | [] => mret (vis, binded)
  | t :: l' =>
      x ← tensor t;
      if checknoused (name_ x) then bind_tensors l' vis binded
      else
        binded' ← (if bool_decide (t ∈ binded) then mret binded
                   else b ← AllocBlock 0; BindingBlock t b;; mret ({[t]} ∪ binded));
        bind_tensors l' (<[t := default 0 (vis !! t) - 1]> vis) binded'
  end.
(** The blocks of the tensors that are not visited any more go back. *)
Definition free_visited (vis : gmap nat Z) : E (gmap nat Z) :=
  for_each (visit_order vis) (fun '(t, n) =>
    when (n =? 0) (x ← tensor t; FreeBlock (block_ x)));;
  mret ((fun n => if n =? 0 then -1 else n) <$> vis).
Fixpoint bind_steps (visit_list : list (list nat)) (vis : gmap nat Z) (binded : gset nat) : E unit :=
  match visit_list with
  | [] => mret tt
  | l :: rest =>
      '(vis1, binded1) ← bind_tensors l vis binded;
      vis2 ← free_visited vis1;
      bind_steps rest vis2 binded1
  end.
Definition binding_with_algo_0 (visit_list : list (list nat)) : E unit :=
  bind_steps visit_list (count_visits (concat visit_list)) ∅.
End reuse.
