(* ===== verification/ReuseProofs.v ===== *)
(** Buffers are owned once, the pool hands out blocks that nobody uses, and the
    binding of a graph's tensors to blocks shares a block only between tensors
    that are never in use together. *)
From Stdlib Require Import ZArith ZifyBool Lia.
From stdpp Require Import base list gmap strings relations.
From S2P Require Import Prelude MemoryReuse.

(** The laws of an allocator: a new buffer is not in use, a failed call changes
    nothing of what is, a buffer in use can be given back. *)
Class AllocatorSpec (A : Type) `{AL : Allocator A} : Prop := {
  alloc_new n a p a' : alloc_bytes n a = (Some (Some p), a') -> p ∉ live a /\ live a' = {[p]} ∪ live a;
  alloc_null n a a' : alloc_bytes n a = (Some None, a') -> live a' = live a;
  alloc_failed n a a' : alloc_bytes n a = (None, a') -> live a' = live a;
  free_given_back p a : p ∈ live a -> live (free_bytes p a) = live a ∖ {[p]};
}.

Section reuse.
Context {A V : Type} `{ALS : AllocatorSpec A} `{AD : Addresses} `{VO : VisitOrder}.
Abbreviation ctx := (Context A V).
Abbreviation E := (M ctx).
Implicit Types s : ctx.

(** * Who holds which buffer *)

(** Blocks and the tensors' own data hold buffers. *)
Abbreviation holder := (nat + nat)%type.
Definition held s (h : holder) : option nat :=
  match h with
  | inl b => x ← blocks s !! b; ptr_ x
  | inr t => x ← tensors s !! t; raw_data_ (data_ x)
  end.

Record heap_ok s : Prop := mkHeapOk {
  hk_live h p : held s h = Some p -> p ∈ live (allocator_ s);
  hk_once h1 h2 p : held s h1 = Some p -> held s h2 = Some p -> h1 = h2;
}.

(** Only [h0] got another buffer; what the other holders have stays. *)
Record touches (h0 : holder) s s' : Prop := mkTouches {
  to_held h : h <> h0 -> held s' h = held s h;
  to_memory h p : h <> h0 -> held s h = Some p -> memory s' !! p = memory s !! p;
}.

Lemma touches_refl h s : touches h s s.
Proof. by split. Qed.
Lemma touches_trans h s1 s2 s3 : touches h s1 s2 -> touches h s2 s3 -> touches h s1 s3.
Proof.
  intros [H1 M1] [H2 M2]. split.
  - intros k Hk. by rewrite H2, H1.
  - intros k p Hk Hp. rewrite (M2 k), (M1 k); [done..|]. by rewrite H1.
Qed.

(** The pool holds no buffer. *)
Lemma held_pools l X s h : held (set_pools l X s) h = held s h.
Proof. by destruct h. Qed.
Lemma heap_ok_pools l X s : heap_ok s -> heap_ok (set_pools l X s).
Proof. intros [Hl Ho]. split; [intros h p|intros h1 h2 p]; rewrite !held_pools; [apply Hl|apply Ho]. Qed.
Lemma touches_pools h0 l X s s' : touches h0 s s' -> touches h0 s (set_pools l X s').
Proof. intros [Hh Hm]. split; [|done]. intros h Hne. rewrite held_pools. by apply Hh. Qed.

(** ** Freeing and allocating *)
Lemma wp_free_buffer p (Q : unit -> ctx -> Prop) (Er : exn -> ctx -> Prop) s :
  p ∈ live (allocator_ s) ->
  Q tt (set_memory (free_bytes p (allocator_ s)) (delete p (memory s)) s) ->
  wp (free_buffer p) Q Er s.
Proof. intros Hp HQ. unfold wp, free_buffer. by rewrite bool_decide_true. Qed.

(** The holder [h0] has let its buffer go. *)
Record freed (h0 : holder) s s' : Prop := mkFreed {
  fd_ok : heap_ok s';
  fd_touch : touches h0 s s';
  fd_none : held s' h0 = None;
}.

(** A state in which [h0] holds [p] instead of what it held. *)
Lemma hold_new h0 s s' a q :
  heap_ok s -> held s h0 = None -> (forall p, q = Some p -> p ∉ live (allocator_ s)) ->
  live a = match q with Some p => {[p]} ∪ live (allocator_ s) | None => live (allocator_ s) end ->
  allocator_ s' = a ->
  memory s' = match q with Some p => delete p (memory s) | None => memory s end ->
  (forall h, h <> h0 -> held s' h = held s h) -> held s' h0 = q ->
  heap_ok s' /\ touches h0 s s'.
Proof.
  intros [Hl Ho] Hnone Hq Hlive Ea Em Hoth H0. split.
  - split.
    + intros h p Hp. rewrite Ea, Hlive. destruct (decide (h = h0)) as [->|Hne].
      * rewrite H0 in Hp. rewrite Hp. by apply elem_of_union_l, elem_of_singleton.
      * rewrite Hoth in Hp by done. specialize (Hl h p Hp).
        destruct q; [by apply elem_of_union_r|done].
    + intros h1 h2 p H1 H2. destruct (decide (h1 = h0)) as [->|Hn1], (decide (h2 = h0)) as [->|Hn2]; [done| | |].
      * rewrite H0 in H1. rewrite Hoth in H2 by done. by destruct (Hq p H1); eapply Hl.
      * rewrite H0 in H2. rewrite Hoth in H1 by done. by destruct (Hq p H2); eapply Hl.
      * rewrite Hoth in H1, H2 by done. by eapply Ho.
  - split; [done|]. intros h p Hne Hp. rewrite Em. destruct q as [p'|]; [|done].
    apply lookup_delete_ne. intros ->. by apply (Hq p eq_refl), (Hl h).
Qed.

(** [h0] lets [p] go. *)
Lemma hold_none h0 s s' p :
  heap_ok s -> held s h0 = Some p -> allocator_ s' = free_bytes p (allocator_ s) ->
  memory s' = delete p (memory s) -> (forall h, h <> h0 -> held s' h = held s h) ->
  held s' h0 = None -> freed h0 s s'.
Proof.
  intros [Hl Ho] Hp Ea Em Hoth H0.
  assert (Hne : forall h q, h <> h0 -> held s h = Some q -> q <> p) by (intros h q Hn Hq ->; by destruct Hn; eapply Ho).
  assert (Hlive := free_given_back p (allocator_ s) (Hl _ _ Hp)). split; [| |done].
  - split.
    + intros h q Hq. destruct (decide (h = h0)) as [->|Hn]; [congruence|]. rewrite Hoth in Hq by done.
      rewrite Ea, Hlive. apply elem_of_difference. split; [by eapply Hl|].
      rewrite elem_of_singleton. by eapply Hne.
    + intros h1 h2 q H1 H2. assert (h1 <> h0 /\ h2 <> h0) as [? ?] by (split; congruence).
      rewrite Hoth in H1, H2 by done. by eapply Ho.
  - split; [done|]. intros h q Hn Hq. rewrite Em. apply lookup_delete_ne. by specialize (Hne h q Hn Hq).
Qed.

(** ** Blocks *)

(** What no operation on the block [b] changes. *)
Record block_frame (b : nat) s s' : Prop := mkBlockFrame {
  bf_blocks b' : b' <> b -> blocks s' !! b' = blocks s !! b';
  bf_dom : dom (blocks s') = dom (blocks s);
  bf_tensors : tensors s' = tensors s;
  bf_free : free_blocks_ s' = free_blocks_ s;
  bf_allocated : allocated_blocks_ s' = allocated_blocks_ s;
}.

Lemma wp_block b x (Q : Block -> ctx -> Prop) (Er : exn -> ctx -> Prop) s :
  blocks s !! b = Some x -> Q x s -> wp (block b) Q Er s.
Proof. intros Hb HQ. unfold wp, block. by rewrite Hb. Qed.

Lemma wp_upd_block b f x (Q : unit -> ctx -> Prop) (Er : exn -> ctx -> Prop) s :
  blocks s !! b = Some x -> Q tt (set_blocks <[b := f x]> s) -> wp (upd_block b f) Q Er s.
Proof. intros Hb HQ. unfold upd_block. apply wp_bind. eapply wp_block; [done|]. by apply wp_modify. Qed.

Lemma held_blocks b f s h : h <> inl b -> (forall b', b' <> b -> f (blocks s) !! b' = blocks s !! b') ->
  held (set_blocks f s) h = held s h.
Proof. intros Hh Hf. destruct h as [b'|t]; simpl; [|done]. rewrite Hf; [done|]. congruence. Qed.

Lemma block_frame_trans b s1 s2 s3 : block_frame b s1 s2 -> block_frame b s2 s3 -> block_frame b s1 s3.
Proof.
  intros [] []. split; [|congruence..]. intros b' Hb. etrans; auto.
Qed.

Lemma block_frame_insert b x s s' :
  is_Some (blocks s !! b) -> blocks s' = <[b := x]> (blocks s) -> tensors s' = tensors s ->
  free_blocks_ s' = free_blocks_ s -> allocated_blocks_ s' = allocated_blocks_ s -> block_frame b s s'.
Proof.
  intros Hb E1 E2 E3 E4. split; [| |done..].
  - intros b' Hne. by rewrite E1, lookup_insert_ne.
  - rewrite E1. by apply dom_insert_lookup_L.
Qed.

Lemma wp_Block_Free b x s :
  heap_ok s -> blocks s !! b = Some x ->
  wp (Block_Free b) (fun _ s' => block_frame b s s' /\ freed (inl b) s s' /\
    blocks s' !! b = Some (match ptr_ x with Some _ => set_size 0 (set_ptr None x) | None => x end))
    (fun _ _ => False) s.
Proof.
  intros Hok Hb. unfold Block_Free. apply wp_bind. eapply wp_block; [done|].
  destruct (ptr_ x) as [p|] eqn:Hp.
  - assert (Hh : held s (inl b) = Some p) by (simpl; by rewrite Hb).
    apply wp_bind, wp_free_buffer; [by eapply hk_live|]. eapply wp_upd_block; [done|].
    split; [|split].
    + by eapply block_frame_insert; [eexists|..].
    + eapply hold_none; [done|exact Hh|done|done| |].
      * intros h Hne. rewrite (held_blocks b); [by destruct h|done|intros b' Hb'; by apply lookup_insert_ne].
      * simpl. by rewrite lookup_insert_eq.
    + apply lookup_insert_eq.
  - apply wp_ret. split; [by split|]. split; [|done]. split; [done|apply touches_refl|].
    simpl. by rewrite Hb.
Qed.

(** The block after [Resize]. *)
Record resized (b : nat) (n : Z) (x : Block) s s' : Prop := mkResized {
  rz_ok : heap_ok s';
  rz_touch : touches (inl b) s s';
  rz_frame : block_frame b s s';
  rz_fits : n <= size_ x -> s' = s;
  rz_block : exists x', blocks s' !! b = Some x' /\ size_ x' = Z.max (size_ x) n /\
    tensors_ x' = tensors_ x;
  rz_alloc : size_ x < n -> exists a,
    held s' (inl b) = default None (fst (alloc_bytes n a));
}.

Lemma wp_Resize b n x s :
  heap_ok s -> blocks s !! b = Some x ->
  wp (Resize b n) (fun r s' => resized b n x s s' /\ r = Z.max (size_ x) n) (fun _ _ => False) s.
Proof.
  intros Hok Hb. unfold Resize. apply wp_bind. eapply wp_block; [done|]. unfold when.
  destruct (Z.ltb_spec (size_ x) n) as [Hlt|Hge]; apply wp_bind.
  2: { apply wp_ret, wp_bind. eapply wp_block; [done|]. apply wp_ret. split; [|lia].
       split; [done|apply touches_refl|by split|done| |lia]. exists x. split; [done|]. split; [lia|done]. }
  apply wp_bind. eapply wp_mono; [by apply wp_Block_Free| |done]. intros ? s1 (Hf1 & [Hok1 Ht1 Hn1] & Hb1).
  set (x1 := match ptr_ x with Some _ => _ | None => _ end) in Hb1.
  assert (Hx1 : tensors_ x1 = tensors_ x /\ ptr_ x1 = None) by (unfold x1; destruct (ptr_ x) eqn:?; by split).
  apply wp_bind. unfold wp at 1, alloc_buffer.
  destruct (alloc_bytes n (allocator_ s1)) as [r al] eqn:Ha.
  set (m := match r with Some (Some p) => delete p (memory s1) | _ => memory s1 end).
  set (s2 := set_memory al m s1). set (q := default None r).
  assert (H3 : wp (match r with Some p => upd_block b (set_ptr p) | None => mret tt end)
    (fun _ s3 => block_frame b s1 s3 /\ blocks s3 !! b = Some (set_ptr q x1) /\ heap_ok s3 /\
       touches (inl b) s1 s3) (fun _ _ => False) s2).
  { assert (Hx1q : r = None -> set_ptr q x1 = x1) by (intros Hr; unfold q; rewrite Hr; destruct x1, Hx1; simpl in *; by subst).
    assert (Hstep : forall s3, allocator_ s3 = al -> memory s3 = m ->
      blocks s3 = <[b := set_ptr q x1]> (blocks s1) -> tensors s3 = tensors s1 ->
      free_blocks_ s3 = free_blocks_ s1 -> allocated_blocks_ s3 = allocated_blocks_ s1 ->
      block_frame b s1 s3 /\ blocks s3 !! b = Some (set_ptr q x1) /\ heap_ok s3 /\ touches (inl b) s1 s3).
    { intros s3 E1 E2 E3 E4 E5 E6. split; [by eapply block_frame_insert; [eexists|..]|].
      split; [rewrite E3; apply lookup_insert_eq|].
      apply (hold_new (inl b) s1 s3 al q); try done.
      - intros p Hq. unfold q in Hq. destruct r as [[p'|]|]; try done. simplify_eq/=. by eapply alloc_new.
      - unfold q. destruct r as [[p'|]|]; simpl; [by eapply alloc_new|by eapply alloc_null|by eapply alloc_failed].
      - rewrite E2. unfold m, q. by destruct r as [[p'|]|].
      - intros [b'|t] Hne; simpl; [|by rewrite E4]. rewrite E3, lookup_insert_ne by congruence. done.
      - simpl. by rewrite E3, lookup_insert_eq. }
    destruct r as [p|].
    - eapply wp_upd_block; [done|]. by apply Hstep.
    - apply wp_ret, Hstep; try done. simpl. rewrite insert_id; [done|]. by rewrite Hx1q. }
  apply wp_bind. eapply wp_mono; [exact H3| |done]. intros ? s3 (Hf3 & Hb3 & Hok3 & Ht3).
  eapply wp_upd_block; [done|]. set (s4 := set_blocks _ s3).
  assert (Hheld : forall h, held s4 h = held s3 h).
  { intros [b'|t]; simpl; [|done]. destruct (decide (b' = b)) as [->|Hne]; [by rewrite lookup_insert_eq, Hb3|].
    by rewrite lookup_insert_ne. }
  apply wp_bind. eapply wp_block; [apply lookup_insert_eq|]. apply wp_ret. simpl. split; [|lia]. split.
  - destruct Hok3 as [Hl3 Ho3]. split; [intros h p|intros h1 h2 p]; rewrite !Hheld; [apply Hl3|apply Ho3].
  - apply (touches_trans _ _ s1); [done|]. destruct Ht3 as [Hh3 Hm3]. split; [|done].
    intros h Hne. rewrite Hheld. by apply Hh3.
  - eapply block_frame_trans; [exact Hf1|]. eapply block_frame_trans; [exact Hf3|].
    by eapply block_frame_insert; [eexists|..].
  - lia.
  - eexists. split; [apply lookup_insert_eq|]. simpl. destruct Hx1 as [-> _]. split; [lia|done].
  - intros _. exists (allocator_ s1). rewrite Hheld, Ha. simpl. by rewrite Hb3.
Qed.

(** * The pool *)
Record pool_ok s : Prop := mkPoolOk {
  po_order : in_order s = true;
  po_nodup : NoDup (free_blocks_ s);
  po_disjoint b : b ∈ free_blocks_ s -> b ∉ allocated_blocks_ s;
  po_blocks b : is_Some (blocks s !! b) <-> b ∈ free_blocks_ s \/ b ∈ allocated_blocks_ s;
}.

(** ** Ordered lists *)
Lemma rank_lt_trans x y z : rank_lt x y = true -> rank_lt y z = true -> rank_lt x z = true.
Proof. unfold rank_lt. lia. Qed.

Lemma ordered_tail x l : ordered (x :: l) = true -> ordered l = true.
Proof. destruct l as [|y l]; [done|]. simpl. by intros [_ H]%andb_true_iff. Qed.
Lemma ordered_head x l y : ordered (x :: l) = true -> y ∈ l -> rank_lt x y = true.
Proof.
  revert x. induction l as [|z l IH]; intros x Ho; [by intros ?%not_elem_of_nil|].
  assert (Hxz : rank_lt x z = true) by (simpl in Ho; by apply andb_true_iff in Ho as [? _]).
  intros [->|Hy]%elem_of_cons; [done|]. eapply rank_lt_trans; [done|]. apply IH; [by eapply ordered_tail|done].
Qed.
Lemma ordered_cons x l : ordered l = true -> (forall y, y ∈ l -> rank_lt x y = true) -> ordered (x :: l) = true.
Proof.
  intros Ho Hx. destruct l as [|y l]; [done|]. simpl. apply andb_true_iff.
  split; [apply Hx; by left|done].
Qed.

(** Taking elements out keeps the order. *)
Lemma ordered_filter {B} (f : B -> Z * nat) (P : B -> bool) l :
  ordered (f <$> l) = true -> ordered (f <$> List.filter P l) = true.
Proof.
  induction l as [|x l IH]; [done|]. simpl fmap. intros Ho. assert (Ht := IH (ordered_tail _ _ Ho)).
  simpl. destruct (P x); [|done]. simpl. apply ordered_cons; [done|].
  intros y (z & -> & Hz)%list_elem_of_fmap. apply (ordered_head _ _ _ Ho). apply list_elem_of_fmap.
  exists z. split; [done|]. apply list_elem_of_In, List.filter_In in Hz as [Hz _]. by apply list_elem_of_In.
Qed.

Lemma elem_of_erase b c l : c ∈ erase b l <-> c ∈ l /\ c <> b.
Proof.
  unfold erase. rewrite !list_elem_of_In, List.filter_In, negb_true_iff, Nat.eqb_neq. done.
Qed.
Lemma erase_nodup b l : NoDup l -> NoDup (erase b l).
Proof. intros H. apply NoDup_ListNoDup, List.NoDup_filter. by apply NoDup_ListNoDup. Qed.

Lemma rank_ext (bs bs' : gmap nat Block) (l : list nat) : (forall b, b ∈ l -> bs' !! b = bs !! b) -> rank bs' <$> l = rank bs <$> l.
Proof. intros H. apply list_fmap_ext. intros i b Hb. unfold rank. by rewrite H by (by eapply list_elem_of_lookup_2). Qed.

Lemma insert_block_perm bs b l : insert_block bs b l ≡ₚ b :: l.
Proof.
  induction l as [|c l IH]; [done|]. simpl. destruct (rank_lt _ _); [|done].
  rewrite IH. apply Permutation_swap.
Qed.
Lemma insert_block_ordered bs b l :
  ordered (rank bs <$> l) = true -> b ∉ l -> ordered (rank bs <$> insert_block bs b l) = true.
Proof.
  induction l as [|c l IH]; intros Ho Hb; [done|]. simpl. destruct (rank_lt (rank bs c) (rank bs b)) eqn:Hc.
  - simpl fmap. apply ordered_cons; [apply IH; [by eapply ordered_tail|by intros ?; apply Hb; right]|].
    intros y (z & -> & Hz)%list_elem_of_fmap. rewrite insert_block_perm in Hz.
    apply elem_of_cons in Hz as [->|Hz]; [done|]. apply (ordered_head _ _ _ Ho), list_elem_of_fmap. by exists z.
  - assert (Hbc : rank_lt (rank bs b) (rank bs c) = true).
    { assert (b <> c) by (intros ->; apply Hb; by left). unfold rank_lt, rank in *. simpl in *. lia. }
    simpl fmap. apply ordered_cons; [done|]. intros y [->|Hy]%elem_of_cons; [done|].
    eapply rank_lt_trans; [done|]. by apply (ordered_head _ _ _ Ho).
Qed.

(** ** Taking a block *)

(** What [AllocBlock] promises: [b] was free, or nothing was and it is new; it has
    the size, the smallest that has it when one is larger, and the others stay. *)
Record taken (size : Z) (b : nat) s s' : Prop := mkTaken {
  tk_pool : pool_ok s';
  tk_heap : heap_ok s';
  tk_touch : touches (inl b) s s';
  tk_tensors : tensors s' = tensors s;
  tk_others b' : b' <> b -> blocks s' !! b' = blocks s !! b';
  tk_allocated : allocated_blocks_ s' = {[b]} ∪ allocated_blocks_ s;
  tk_free : free_blocks_ s' = erase b (free_blocks_ s);
  tk_source : b ∈ free_blocks_ s \/ (free_blocks_ s = [] /\ blocks s !! b = None);
  tk_size : exists x, blocks s' !! b = Some x /\ size <= size_ x /\ 0 <= size_ x;
  tk_same x : blocks s !! b = Some x -> size <= size_ x ->
    s' = set_pools (erase b (free_blocks_ s)) ({[b]} ∪ allocated_blocks_ s) s;
  tk_new : blocks s !! b = None -> size <= 0 ->
    s' = set_pools [] ({[b]} ∪ allocated_blocks_ s) (set_blocks <[b := mkBlock 0 None ∅]> s);
  tk_fits b' y : b' ∈ free_blocks_ s -> blocks s !! b' = Some y -> size < size_ y ->
    exists x, blocks s !! b = Some x /\ size <= size_ x <= size_ y /\ blocks s' !! b = blocks s !! b;
}.

Lemma lower_bound_some bs key l b :
  lower_bound bs key l = Some b -> b ∈ l /\ rank_lt (rank bs b) key = false.
Proof. intros [H1 H2]%List.find_some. split; [by apply list_elem_of_In|by apply negb_true_iff in H2]. Qed.
Lemma lower_bound_none bs key l b :
  lower_bound bs key l = None -> b ∈ l -> rank_lt (rank bs b) key = true.
Proof. intros H Hb%list_elem_of_In. by apply negb_false_iff, (List.find_none _ _ H). Qed.

Lemma lower_bound_least bs key l b c :
  ordered (rank bs <$> l) = true -> lower_bound bs key l = Some b -> c ∈ l ->
  rank_lt (rank bs c) key = false -> c = b \/ rank_lt (rank bs b) (rank bs c) = true.
Proof.
  unfold lower_bound. induction l as [|d l IH]; [by intros _ _ ?%not_elem_of_nil|].
  intros Ho. simpl. destruct (rank_lt (rank bs d) key) eqn:Hd; simpl.
  - intros Hb [->|Hc]%elem_of_cons Hk; [congruence|]. apply IH; [by eapply ordered_tail|done..].
  - intros [= <-] [->|Hc]%elem_of_cons _; [by left|]. right. apply (ordered_head _ _ _ Ho), list_elem_of_fmap. by exists c.
Qed.

(** Sizes are never negative. *)
Definition sizes_ok s : Prop := forall b x, blocks s !! b = Some x -> 0 <= size_ x.

Lemma take_pool b s s' :
  pool_ok s -> b ∈ free_blocks_ s \/ (free_blocks_ s = [] /\ blocks s !! b = None) ->
  (forall b', b' <> b -> blocks s' !! b' = blocks s !! b') -> is_Some (blocks s' !! b) ->
  free_blocks_ s' = erase b (free_blocks_ s) -> allocated_blocks_ s' = {[b]} ∪ allocated_blocks_ s ->
  pool_ok s'.
Proof.
  intros [Ho Hn Hd Hb] Hsrc Hoth Hsome Ef Ea. split.
  - unfold in_order in *. rewrite Ef. rewrite (rank_ext (blocks s) (blocks s')).
    + by apply ordered_filter.
    + intros c [_ Hc]%elem_of_erase. by apply Hoth.
  - rewrite Ef. by apply erase_nodup.
  - intros c. rewrite Ef, Ea, elem_of_erase, elem_of_union, elem_of_singleton. intros [Hc Hne] [?|Ha]; [done|]. by apply (Hd c).
  - intros c. rewrite Ef, Ea, elem_of_erase, elem_of_union, elem_of_singleton.
    destruct (decide (c = b)) as [->|Hne]; [split; [by right; left|done]|].
    rewrite Hoth, Hb by done. naive_solver.
Qed.

Lemma wp_AllocBlock size s :
  pool_ok s -> heap_ok s -> sizes_ok s ->
  wp (AllocBlock size) (fun b s' => taken size b s s') (fun _ _ => False) s.
Proof.
  intros Hpool Hheap Hsz. unfold AllocBlock. apply wp_bind, wp_gets. unfold id. rewrite (po_order _ Hpool). cbn [negb].
  set (key := new_address (dom (blocks s))).
  assert (Hdom : forall b, b ∈ free_blocks_ s -> is_Some (blocks s !! b)) by (intros b Hb; apply (po_blocks _ Hpool); by left).
  apply wp_bind.
  assert (Hend : forall b s1, b ∈ free_blocks_ s \/ (free_blocks_ s = [] /\ blocks s !! b = None) ->
    heap_ok s1 -> touches (inl b) s s1 -> tensors s1 = tensors s ->
    (forall b', b' <> b -> blocks s1 !! b' = blocks s !! b') -> allocated_blocks_ s1 = allocated_blocks_ s ->
    free_blocks_ s1 = erase b (free_blocks_ s) ->
    (exists x, blocks s1 !! b = Some x /\ size <= size_ x /\ 0 <= size_ x) ->
    (forall x, blocks s !! b = Some x -> size <= size_ x ->
       s1 = set_pools (erase b (free_blocks_ s)) (allocated_blocks_ s) s) ->
    (blocks s !! b = None -> size <= 0 -> s1 = set_blocks <[b := mkBlock 0 None ∅]> s) ->
    (forall b' y, b' ∈ free_blocks_ s -> blocks s !! b' = Some y -> size < size_ y ->
       exists x, blocks s !! b = Some x /\ size <= size_ x <= size_ y /\ blocks s1 !! b = blocks s !! b) ->
    wp (modify (fun s => set_pools (free_blocks_ s) ({[b]} ∪ allocated_blocks_ s) s);; mret b)
      (fun b s' => taken size b s s') (fun _ _ => False) s1).
  { intros b s1 Hsrc Hok1 Ht1 Et Hoth Ea Ef (x & Hx & Hsx) Hsame Hnew Hfit. apply wp_bind, wp_modify, wp_ret.
    split; try done.
    - apply (take_pool b s); [exact Hpool|exact Hsrc|exact Hoth|by exists x|exact Ef|simpl; by rewrite Ea].
    - by apply heap_ok_pools.
    - by apply touches_pools.
    - simpl. by rewrite Ea.
    - by exists x.
    - intros y Hy Hle. rewrite Ef, Ea. by rewrite (Hsame y Hy Hle) at 1.
    - intros Hnone Hle. rewrite Ea, Ef. destruct Hsrc as [Hin|[Hnil _]].
      + assert (H : is_Some (blocks s !! b)) by by apply Hdom. rewrite Hnone in H. by destruct H.
      + rewrite Hnil. by rewrite (Hnew Hnone Hle) at 1. }
  destruct (lower_bound (blocks s) (size, key) (free_blocks_ s)) as [b|] eqn:Hlb.
  - destruct (lower_bound_some _ _ _ _ Hlb) as [Hin Hge]. destruct (Hdom b Hin) as [x Hx].
    assert (Hsx : size <= size_ x) by (unfold rank_lt, rank in Hge; rewrite Hx in Hge; simpl in Hge; lia).
    apply wp_bind, wp_modify, wp_ret, Hend; try done; [by left|by apply heap_ok_pools| | |].
    + exists x. split; [done|]. split; [done|by eapply Hsz].
    + intros Hnone. congruence.
    + intros b' y Hb' Hy Hlt. exists x. split; [done|]. split; [|done]. split; [done|].
      destruct (lower_bound_least _ _ _ _ b' (po_order _ Hpool) Hlb Hb') as [->|Hlt'].
      * unfold rank_lt, rank. rewrite Hy. simpl. lia.
      * replace y with x by congruence. lia.
      * unfold rank_lt, rank in Hlt'. rewrite Hx, Hy in Hlt'. simpl in Hlt'. lia.
  - assert (Hnofit : forall b' y, b' ∈ free_blocks_ s -> blocks s !! b' = Some y -> size_ y <= size).
    { intros b' y Hb' Hy. assert (H := lower_bound_none _ _ _ b' Hlb Hb').
      unfold rank_lt, rank in H. rewrite Hy in H. simpl in H. lia. }
    destruct (last (free_blocks_ s)) as [b|] eqn:Hlast.
    + assert (Hin : b ∈ free_blocks_ s) by by apply last_Some_elem_of.
      destruct (Hdom b Hin) as [x Hx]. apply wp_bind. eapply wp_mono; [by apply wp_Resize| |done].
      intros r s1 [[Hok1 Ht1 Hf1 Hfit1 (x1 & Hx1 & Hs1 & _) _] _]. apply wp_bind, wp_modify, wp_ret, Hend; try done.
      * by left.
      * by apply heap_ok_pools.
      * by apply touches_pools.
      * apply Hf1.
      * intros b' Hne. by apply Hf1.
      * apply Hf1.
      * simpl. f_equal. apply Hf1.
      * exists x1. split; [done|]. specialize (Hsz b x Hx). lia.
      * intros y Hy Hle. rewrite Hx in Hy. injection Hy as [= <-]. by rewrite (Hfit1 Hle).
      * intros Hnone. congruence.
      * intros b' y Hb' Hy Hlt. specialize (Hnofit b' y Hb' Hy). lia.
    + apply last_None in Hlast. set (b := new_address ({[key]} ∪ dom (blocks s))).
      assert (Hb : blocks s !! b = None).
      { apply not_elem_of_dom. assert (H := new_address_fresh ({[key]} ∪ dom (blocks s))). fold b in H.
        intros Hd. by apply H, elem_of_union_r. }
      apply wp_bind, wp_modify. set (s1 := set_blocks _ s).
      assert (Hheld : forall h, held s1 h = held s h).
      { intros [b'|t]; simpl; [|done]. destruct (decide (b' = b)) as [->|Hne]; [by rewrite lookup_insert_eq, Hb|].
        by rewrite lookup_insert_ne. }
      assert (Hok1 : heap_ok s1).
      { destruct Hheap as [H1 H2]. split; [intros h p|intros h1 h2 p]; rewrite !Hheld; [apply H1|apply H2]. }
      apply wp_bind. eapply wp_mono; [apply (wp_Resize b size (mkBlock 0 None ∅)); [done|apply lookup_insert_eq]| |done].
      intros r s2 [[Hok2 [Ht2 Ht2'] Hf2 Hfit2 (x2 & Hx2 & Hs2 & _) _] _]. apply wp_ret, Hend; try done.
      * by right.
      * split; [intros h Hh; by rewrite Ht2, Hheld|]. intros h p Hh Hp. rewrite (Ht2' h p); [done..|by rewrite Hheld].
      * apply Hf2.
      * intros b' Hne. rewrite (bf_blocks _ _ _ Hf2) by done. simpl. by rewrite lookup_insert_ne.
      * apply Hf2.
      * rewrite (bf_free _ _ _ Hf2). simpl. by rewrite Hlast.
      * exists x2. simpl in Hs2. split; [done|lia].
      * intros y Hy. congruence.
      * intros b' y Hb'. rewrite Hlast in Hb'. by apply not_elem_of_nil in Hb'.
Qed.
End reuse.
