(* ===== verification/ReuseBinding.v ===== *)
(** Binding the tensors of a graph: two tensors share a block only when no step
    lies between the first and the last visit of both, and there are as many
    blocks as tensors in use at once at some step. *)
From Stdlib Require Import ZArith ZifyBool Lia.
From stdpp Require Import base list gmap strings relations.
From S2P Require Import Prelude MemoryReuse ReuseProofs.

Section binding.
Context {A V : Type} `{ALS : AllocatorSpec A} `{AD : Addresses} `{VO : VisitOrder}.
Abbreviation ctx := (Context A V).
Abbreviation E := (M ctx).
Implicit Types s : ctx.

(** ** Binding one tensor *)
Lemma wp_tensor t x (Q : AsTensor -> ctx -> Prop) (Er : exn -> ctx -> Prop) s :
  tensors s !! t = Some x -> Q x s -> wp (tensor t) Q Er s.
Proof. intros Ht HQ. unfold wp, tensor. by rewrite Ht. Qed.
Lemma wp_upd_tensor t f x (Q : unit -> ctx -> Prop) (Er : exn -> ctx -> Prop) s :
  tensors s !! t = Some x -> Q tt (set_tensors <[t := f x]> s) -> wp (upd_tensor t f) Q Er s.
Proof. intros Ht HQ. unfold upd_tensor. apply wp_bind. eapply wp_tensor; [done|]. by apply wp_modify. Qed.

(** No block of the pool is dropped. *)
Lemma wp_drop_unreferenced (Q : unit -> ctx -> Prop) (Er : exn -> ctx -> Prop) s :
  (forall b, is_Some (blocks s !! b) -> b ∈ free_blocks_ s \/ b ∈ allocated_blocks_ s) ->
  Q tt s -> wp drop_unreferenced Q Er s.
Proof.
  intros Hb HQ. unfold drop_unreferenced. apply wp_bind, wp_gets. unfold id.
  replace (List.filter _ _) with (@nil nat); [done|]. symmetry.
  apply elem_of_nil_inv. intros b [Hin Hr]%list_elem_of_In%List.filter_In.
  apply list_elem_of_In, elem_of_elements, elem_of_dom, Hb in Hin.
  unfold referenced in Hr. destruct Hin as [H|H].
  - by rewrite (bool_decide_true _ H) in Hr.
  - by rewrite (bool_decide_true _ H), orb_true_r in Hr.
Qed.

Lemma wp_BindingBlock t b x y (Q : unit -> ctx -> Prop) (Er : exn -> ctx -> Prop) s :
  pool_ok s -> tensors s !! t = Some x -> blocks s !! b = Some y ->
  Q tt (set_blocks <[b := set_bound ({[t]} ∪ tensors_ y) y]> (set_tensors <[t := set_block (Some b) x]> s)) ->
  wp (BindingBlock t b) Q Er s.
Proof.
  intros Hp Ht Hb HQ. unfold BindingBlock. apply wp_bind. eapply wp_upd_tensor; [done|].
  apply wp_bind, wp_drop_unreferenced; [apply (po_blocks _ Hp)|]. eapply wp_upd_block; [done|]. exact HQ.
Qed.

(** ** Visits *)
Variable visit_list : list (list nat).
Variable s0 : ctx.

(** A tensor whose name does not keep it from sharing. *)
Definition shareable (t : nat) : bool :=
  match tensors s0 !! t with Some x => negb (checknoused (name_ x)) | None => false end.

Definition later (n t : nat) : Prop := t ∈ concat (drop n visit_list).
Definition before (n t : nat) : Prop := t ∈ concat (take n visit_list).
#[local] Instance later_dec n t : Decision (later n t).
Proof. unfold later. exact _. Defined.
(** [t] is in use at step [i]: it has been visited and will be, [i] included. *)
Definition in_use (i t : nat) : Prop := before (S i) t /\ later i t.

Lemma elem_of_concat_drop n t : later n t <-> exists i l, (n <= i)%nat /\ visit_list !! i = Some l /\ t ∈ l.
Proof.
  unfold later. rewrite list_elem_of_In, List.in_concat. split.
  - intros (l & Hl%list_elem_of_In & Ht%list_elem_of_In). apply list_elem_of_lookup in Hl as [j Hj].
    rewrite lookup_drop in Hj. exists (n + j)%nat, l. split; [lia|done].
  - intros (i & l & Hi & Hl & Ht). exists l. split; apply list_elem_of_In; [|done].
    apply list_elem_of_lookup. exists (i - n)%nat. rewrite lookup_drop. by replace (n + (i - n))%nat with i by lia.
Qed.
Lemma elem_of_concat_take n t : before n t <-> exists i l, (i < n)%nat /\ visit_list !! i = Some l /\ t ∈ l.
Proof.
  unfold before. rewrite list_elem_of_In, List.in_concat. split.
  - intros (l & Hl%list_elem_of_In & Ht%list_elem_of_In). apply list_elem_of_lookup in Hl as [j Hj].
    apply lookup_take_Some in Hj as [Hj Hlt]. exists j, l. done.
  - intros (i & l & Hi & Hl & Ht). exists l. split; apply list_elem_of_In; [|done].
    apply list_elem_of_lookup. exists i. by apply lookup_take_Some.
Qed.
Lemma later_mono n m t : (n <= m)%nat -> later m t -> later n t.
Proof. rewrite !elem_of_concat_drop. intros Hnm (i & l & Hi & H). exists i, l. split; [lia|done]. Qed.
Lemma before_mono n m t : (n <= m)%nat -> before n t -> before m t.
Proof. rewrite !elem_of_concat_take. intros Hnm (i & l & Hi & H). exists i, l. split; [lia|done]. Qed.
Lemma visits_in_use n l t : visit_list !! n = Some l -> t ∈ l -> in_use n t.
Proof.
  intros Hl Ht. split; [apply elem_of_concat_take|apply elem_of_concat_drop]; exists n, l; split; [lia|done|lia|done].
Qed.

(** ** The invariant of the binding

    [bl] gives the block of each tensor bound so far; in step [n] the tensors
    [done_] have been handled, [left] are still to be. *)
Definition count_of (t : nat) (l : list nat) : Z := Z.of_nat (length (List.filter (Nat.eqb t) l)).
Definition with_blocks (bl : gmap nat nat) : gmap nat AsTensor :=
  map_imap (fun t x => Some (match bl !! t with Some b => set_block (Some b) x | None => x end)) (tensors s0).

(** As many tensors in use at one step as there are blocks. *)
Definition peak s : Prop :=
  exists m T, NoDup T /\ Forall (fun t => shareable t = true /\ in_use m t) T /\ length T = size (blocks s).

(** The visits still to come of a tensor in use; only of those a count is 0. *)
Record counts (n : nat) (left : list nat) (vis : gmap nat Z) : Prop := mkCounts {
  ct_vis t : shareable t = true -> later n t ->
    vis !! t = Some (count_of t left + count_of t (concat (drop (S n) visit_list)));
  ct_over t : vis !! t = Some 0 -> shareable t = true /\ later n t;
}.

Record bound (n : nat) (done_ left : list nat) (bl : gmap nat nat) (vis : gmap nat Z) s : Prop := mkBound {
  bn_pool : pool_ok s;
  bn_heap : heap_ok s;
  bn_flat b x : blocks s !! b = Some x -> size_ x = 0 /\ ptr_ x = None;
  bn_tensors : tensors s = with_blocks bl;
  bn_memory : memory s = memory s0;
  bn_live : allocator_ s = allocator_ s0;
  bn_dom t : is_Some (bl !! t) <-> shareable t = true /\ (before n t \/ t ∈ done_);
  bn_alloc b : b ∈ allocated_blocks_ s <-> exists t, bl !! t = Some b /\ later n t;
  bn_disjoint t1 t2 b i : t1 <> t2 -> bl !! t1 = Some b -> bl !! t2 = Some b ->
    in_use i t1 -> in_use i t2 -> False;
  bn_counts : counts n left vis;
  bn_peak : blocks s = ∅ \/ peak s;
  bn_blocks t b : bl !! t = Some b -> is_Some (blocks s !! b);
}.

(** ** Counting *)
Lemma count_of_cons t u l : count_of t (u :: l) = (if decide (t = u) then 1 else 0) + count_of t l.
Proof.
  unfold count_of. simpl. destruct (Nat.eqb_spec t u) as [->|Hne].
  - rewrite decide_True by done. simpl length. lia.
  - by rewrite decide_False.
Qed.
Lemma count_of_app t l k : count_of t (l ++ k) = count_of t l + count_of t k.
Proof. induction l as [|u l IH]; [done|]. simpl. rewrite !count_of_cons, IH. lia. Qed.
Lemma count_of_nonneg t l : 0 <= count_of t l.
Proof. unfold count_of. lia. Qed.
Lemma count_of_pos t l : t ∈ l <-> 0 < count_of t l.
Proof.
  induction l as [|u l IH]; [split; [by intros ?%not_elem_of_nil|done]|].
  rewrite count_of_cons, elem_of_cons, IH. assert (H := count_of_nonneg t l).
  destruct (decide (t = u)); split; intros; [lia|by left|naive_solver lia|right; lia].
Qed.

Lemma count_visits_lookup l t :
  count_visits l !! t = if decide (t ∈ l) then Some (count_of t l) else None.
Proof.
  unfold count_visits. assert (H : forall (m : gmap nat Z),
    foldl (fun vis t => <[t := default 0 (vis !! t) + 1]> vis) m l !! t
      = if decide (t ∈ l) then Some (default 0 (m !! t) + count_of t l) else m !! t).
  { induction l as [|u l IH]; intros m; [done|]. simpl. rewrite IH, count_of_cons.
    destruct (decide (t = u)) as [->|Hne].
    - rewrite lookup_insert_eq. rewrite (decide_True (P := u ∈ u :: l)) by by left. simpl.
      destruct (decide (u ∈ l)) as [_|Hn]; f_equal; [lia|].
      assert (count_of u l = 0); [|lia]. rewrite count_of_pos in Hn. assert (H := count_of_nonneg u l). lia.
    - rewrite lookup_insert_ne by done. destruct (decide (t ∈ l)) as [Hin|Hn].
      + rewrite decide_True by by right. done.
      + rewrite decide_False; [done|]. by intros [?|?]%elem_of_cons. }
  rewrite H. by rewrite lookup_empty.
Qed.

Lemma drop_step n l : visit_list !! n = Some l -> drop n visit_list = l :: drop (S n) visit_list.
Proof. intros H. by apply drop_S. Qed.

Lemma counts_start : counts 0 (default [] (visit_list !! 0%nat)) (count_visits (concat visit_list)).
Proof.
  assert (Hall : default [] (visit_list !! 0%nat) ++ concat (drop 1 visit_list) = concat visit_list)
    by (destruct visit_list; [done|simpl; by rewrite drop_0]).
  split.
  - intros t _ Hl. unfold later in Hl. rewrite drop_0 in Hl. rewrite count_visits_lookup, decide_True by done.
    by rewrite <- count_of_app, Hall.
  - intros t Ht. rewrite count_visits_lookup in Ht. destruct (decide _) as [Hin%count_of_pos|]; [|done].
    simplify_eq. lia.
Qed.

(** Visiting [t]. *)
Lemma counts_visit n t left vis :
  shareable t = true -> later n t -> counts n (t :: left) vis ->
  counts n left (<[t := default 0 (vis !! t) - 1]> vis).
Proof.
  intros Hs Hl [Hv Ho]. split.
  - intros u Hu Hlu. destruct (decide (u = t)) as [->|Hne].
    + rewrite lookup_insert_eq, (Hv t) by done. simpl. rewrite count_of_cons, decide_True by done. f_equal. lia.
    + rewrite lookup_insert_ne by done. rewrite (Hv u) by done. by rewrite count_of_cons, decide_False.
  - intros u. destruct (decide (u = t)) as [->|Hne]; [done|]. rewrite lookup_insert_ne by done. apply Ho.
Qed.
Lemma counts_skip n t left vis :
  shareable t = false -> counts n (t :: left) vis -> counts n left vis.
Proof.
  intros Hs [Hv Ho]. split; [|done]. intros u Hu Hlu. rewrite (Hv u) by done.
  rewrite count_of_cons, decide_False; [done|congruence].
Qed.

(** The end of step [n]. *)
Lemma counts_next n vis :
  counts n [] vis ->
  counts (S n) (default [] (visit_list !! S n)) ((fun k => if k =? 0 then -1 else k) <$> vis).
Proof.
  intros [Hv Ho]. split.
  - intros t Ht Hl. rewrite lookup_fmap, (Hv t) by (done || by eapply later_mono; [|done]; lia).
    assert (Hpos : 0 < count_of t (concat (drop (S n) visit_list))) by by apply count_of_pos.
    simpl. change (count_of t []) with 0. destruct (Z.eqb_spec (0 + count_of t (concat (drop (S n) visit_list))) 0); [lia|].
    f_equal. destruct (visit_list !! S n) as [l|] eqn:Hn.
    + rewrite (drop_step _ _ Hn). simpl. by rewrite count_of_app.
    + apply lookup_ge_None in Hn. rewrite drop_ge in Hpos by done. unfold count_of in Hpos. simpl in Hpos. lia.
  - intros t. rewrite lookup_fmap. destruct (vis !! t) as [k|]; [|done]. simpl. destruct (Z.eqb_spec k 0); intros Hk; [discriminate|congruence].
Qed.

(** ** One step *)
Lemma with_blocks_lookup bl t x :
  tensors s0 !! t = Some x ->
  with_blocks bl !! t = Some (match bl !! t with Some b => set_block (Some b) x | None => x end).
Proof. intros Hx. unfold with_blocks. by rewrite map_lookup_imap, Hx. Qed.

Lemma with_blocks_insert bl t b x :
  tensors s0 !! t = Some x -> <[t := set_block (Some b) x]> (with_blocks bl) = with_blocks (<[t := b]> bl).
Proof.
  intros Hx. apply map_eq. intros u. unfold with_blocks. destruct (decide (u = t)) as [->|Hne].
  - by rewrite lookup_insert_eq, map_lookup_imap, Hx, lookup_insert_eq.
  - by rewrite lookup_insert_ne, !map_lookup_imap, lookup_insert_ne.
Qed.

Lemma with_blocks_name bl t x : with_blocks bl !! t = Some x -> checknoused (name_ x) = negb (shareable t).
Proof.
  unfold with_blocks, shareable. rewrite map_lookup_imap. destruct (tensors s0 !! t) as [y|]; [|done].
  simpl. intros [= <-]. rewrite negb_involutive. by destruct (bl !! t).
Qed.

(** The tensors of one step are bound before the next. *)
Lemma processed_later n done_ t l :
  visit_list !! n = Some (done_ ++ t :: l) -> later n t.
Proof. intros Hn. apply elem_of_concat_drop. exists n, (done_ ++ t :: l). split; [lia|]. split; [done|set_solver]. Qed.

(** A block not in the hands of the pool's users is used by nobody any more. *)
Lemma not_allocated_over n done_ left bl vis s b t :
  bound n done_ left bl vis s -> b ∉ allocated_blocks_ s -> bl !! t = Some b -> ~ later n t.
Proof. intros Hb Hn Ht Hl. apply Hn, (bn_alloc _ _ _ _ _ _ Hb). by exists t. Qed.

(** The tensors that hold the allocated blocks. *)
Definition holders (n : nat) (bl : gmap nat nat) : list nat :=
  List.filter (fun t => bool_decide (later n t)) (elements (dom bl)).
Lemma elem_of_holders n bl t : t ∈ holders n bl <-> is_Some (bl !! t) /\ later n t.
Proof.
  unfold holders. by rewrite list_elem_of_In, List.filter_In, <- list_elem_of_In, elem_of_elements, elem_of_dom,
    bool_decide_eq_true.
Qed.
Lemma holders_nodup n bl : NoDup (holders n bl).
Proof. apply NoDup_ListNoDup, List.NoDup_filter, NoDup_ListNoDup, NoDup_elements. Qed.

Lemma bound_in_use n done_ left bl vis s t :
  visit_list !! n = Some (done_ ++ left) -> bound n done_ left bl vis s ->
  is_Some (bl !! t) -> later n t -> shareable t = true /\ in_use n t.
Proof.
  intros Hn Hb Hs Hl. apply (bn_dom _ _ _ _ _ _ Hb) in Hs as [Hsh Hin]. split; [done|]. split; [|done].
  destruct Hin as [Hin|Hin]; [eapply before_mono; [|done]; lia|].
  apply elem_of_concat_take. exists n, (done_ ++ left). split; [lia|]. split; [done|set_solver].
Qed.

(** There are as many holders as allocated blocks. *)
Lemma holders_length n done_ left bl vis s :
  visit_list !! n = Some (done_ ++ left) -> bound n done_ left bl vis s ->
  length (holders n bl) = size (allocated_blocks_ s).
Proof.
  intros Hn Hb. pose (img := omap (fun t => bl !! t) (holders n bl)).
  assert (Hlen : length img = length (holders n bl)).
  { unfold img. assert (H : Forall (fun t => is_Some (bl !! t)) (holders n bl))
      by (apply Forall_forall; by intros t [? _]%elem_of_holders).
    induction H as [|t l [b Hb'] _ IH]; [done|]. simpl. rewrite Hb'. simpl. f_equal. exact IH. }
  assert (Hnd : NoDup img).
  { unfold img. assert (H : forall t, t ∈ holders n bl -> is_Some (bl !! t) /\ later n t) by (intros t; apply elem_of_holders).
    assert (Hno := holders_nodup n bl). clear Hlen img. revert H. generalize dependent (holders n bl). intros k Hno.
    induction Hno as [|t l Ht Hno IH]; intros H; [constructor|]. simpl.
    destruct (H t) as [[b Hbt] Hlt]; [by left|]. rewrite Hbt. constructor; [|apply IH; intros u Hu; apply H; by right].
    intros (u & Hu & Hbu)%list_elem_of_omap. destruct (H u) as [_ Hlu]; [by right|].
    assert (t <> u) by (intros ->; done).
    eapply (bn_disjoint _ _ _ _ _ _ Hb t u b n); [done..| |];
      eapply bound_in_use; try done; by eexists. }
  rewrite <- Hlen. unfold size, fin_sets.set_size. simpl. apply Permutation_length, NoDup_Permutation; [done|apply NoDup_elements|].
  intros b. rewrite elem_of_elements, (bn_alloc _ _ _ _ _ _ Hb). unfold img. rewrite list_elem_of_omap. split.
  - intros (t & Ht & Hbt). exists t. split; [done|]. by apply elem_of_holders in Ht as [_ ?].
  - intros (t & Hbt & Hl). exists t. split; [|done]. apply elem_of_holders. split; [by eexists|done].
Qed.

(** [t] has a block: its visit. *)
Lemma bound_visit n done_ left bl vis s t :
  visit_list !! n = Some (done_ ++ t :: left) -> shareable t = true -> is_Some (bl !! t) ->
  bound n done_ (t :: left) bl vis s ->
  bound n (done_ ++ [t]) left bl (<[t := default 0 (vis !! t) - 1]> vis) s.
Proof.
  intros Hn Hs Hbt [H1 H2 H3 H4 H5 H6 H7 H8 H9 H10 H11 H12]. split; try done.
  - intros u. rewrite H7, elem_of_app, list_elem_of_singleton.
    split; [naive_solver|]. intros [Hu [?|[?| ->]]]; [by auto..|]. by apply H7.
  - apply counts_visit; [done|by eapply processed_later|done].
Qed.

Lemma bound_skip n done_ left bl vis s t :
  shareable t = false -> bound n done_ (t :: left) bl vis s -> bound n (done_ ++ [t]) left bl vis s.
Proof.
  intros Hs [H1 H2 H3 H4 H5 H6 H7 H8 H9 H10 H11 H12]. split; try done; [|by eapply counts_skip].
  intros u. rewrite H7, elem_of_app, list_elem_of_singleton.
  split; [naive_solver|]. intros [Hu [?|[?| ->]]]; [by auto..|congruence].
Qed.

(** A block taken from a flat heap is flat, and no buffer moves. *)
Lemma taken_flat n done_ left bl vis s s1 b :
  bound n done_ left bl vis s -> taken 0 b s s1 ->
  (forall c y, blocks s1 !! c = Some y -> size_ y = 0 /\ ptr_ y = None) /\
  memory s1 = memory s /\ allocator_ s1 = allocator_ s.
Proof.
  intros Hb Htk. assert (Hflat := bn_flat _ _ _ _ _ _ Hb). destruct (blocks s !! b) as [x|] eqn:Hx.
  - destruct (Hflat b x Hx) as [Hsz _]. rewrite (tk_same _ _ _ _ Htk x Hx) by lia. done.
  - rewrite (tk_new _ _ _ _ Htk Hx) by lia. split; [|done]. intros c y. simpl.
    destruct (decide (c = b)) as [->|Hne]; [rewrite lookup_insert_eq; by intros [= <-]|].
    rewrite lookup_insert_ne by done. apply Hflat.
Qed.

(** [t] gets the block [b]. *)
Definition given (t b : nat) (x : AsTensor) (y : Block) s : ctx :=
  set_blocks <[b := set_bound ({[t]} ∪ tensors_ y) y]> (set_tensors <[t := set_block (Some b) x]> s).

Lemma given_lookup t b x y s c z :
  blocks s !! b = Some y -> blocks (given t b x y s) !! c = Some z ->
  exists z0, blocks s !! c = Some z0 /\ size_ z = size_ z0 /\ ptr_ z = ptr_ z0.
Proof.
  intros Hy. simpl. destruct (decide (c = b)) as [->|Hne].
  - rewrite lookup_insert_eq. intros [= <-]. by exists y.
  - rewrite lookup_insert_ne by done. intros Hz. by exists z.
Qed.
Lemma given_rank t b x y s c : blocks s !! b = Some y ->
  rank (blocks (given t b x y s)) c = rank (blocks s) c.
Proof.
  intros Hy. unfold rank. simpl. destruct (decide (c = b)) as [->|Hne].
  - by rewrite lookup_insert_eq, Hy.
  - by rewrite lookup_insert_ne.
Qed.
Lemma given_pool t b x y s : blocks s !! b = Some y -> pool_ok s -> pool_ok (given t b x y s).
Proof.
  intros Hy [H1 H2 H3 H4]. split; [|done|done|].
  - unfold in_order in *. rewrite <- H1. f_equal. apply list_fmap_ext. intros i c _. by apply given_rank.
  - intros c. rewrite <- H4. simpl. destruct (decide (c = b)) as [->|Hne].
    + by rewrite lookup_insert_eq, Hy.
    + by rewrite lookup_insert_ne.
Qed.
Lemma given_held t b x y s h : blocks s !! b = Some y ->
  (exists z, tensors s !! t = Some z /\ data_ z = data_ x) -> held (given t b x y s) h = held s h.
Proof.
  intros Hy (z & Hz & Hd). destruct h as [c|u]; simpl.
  - destruct (decide (c = b)) as [->|Hne]; [by rewrite lookup_insert_eq, Hy|by rewrite lookup_insert_ne].
  - destruct (decide (u = t)) as [->|Hne]; [|by rewrite lookup_insert_ne].
    rewrite lookup_insert_eq, Hz. simpl. by rewrite Hd.
Qed.

(** The tensors in use when a new block is made: all blocks are taken. *)
Lemma bound_peak n done_ left bl vis s s1 t b :
  visit_list !! n = Some (done_ ++ t :: left) -> shareable t = true -> bl !! t = None ->
  bound n done_ (t :: left) bl vis s -> taken 0 b s s1 ->
  exists m T, NoDup T /\ Forall (fun t => shareable t = true /\ in_use m t) T /\ length T = size (blocks s1).
Proof.
  intros Hn Hs Hbt Hb Htk. assert (Hpool := bn_pool _ _ _ _ _ _ Hb).
  assert (Hin : in_use n t) by (eapply visits_in_use; [exact Hn|set_solver]).
  destruct (tk_source _ _ _ _ Htk) as [Hfree|[Hnil Hnone]].
  - destruct (proj2 (po_blocks _ Hpool b) (or_introl Hfree)) as [x Hx].
    rewrite (tk_same _ _ _ _ Htk x Hx) by (destruct (bn_flat _ _ _ _ _ _ Hb b x Hx); lia).
    destruct (bn_peak _ _ _ _ _ _ Hb) as [He|Hp]; [|done]. rewrite He in Hx. by rewrite lookup_empty in Hx.
  - rewrite (tk_new _ _ _ _ Htk Hnone) by lia. exists n, (t :: holders n bl). split; [|split].
    + constructor; [|apply holders_nodup]. intros [[c Hc] _]%elem_of_holders. congruence.
    + constructor; [done|]. apply Forall_forall. intros u [Hu Hl]%elem_of_holders. by eapply bound_in_use.
    + simpl. rewrite map_size_insert_None by done. f_equal.
      rewrite (holders_length _ _ _ _ _ _ Hn Hb). rewrite <- (size_dom (D := gset nat)). f_equal. apply set_eq. intros c.
      rewrite elem_of_dom, (po_blocks _ Hpool), Hnil, elem_of_nil. naive_solver.
Qed.

Lemma bound_new n done_ left bl vis s s1 t b x :
  visit_list !! n = Some (done_ ++ t :: left) -> shareable t = true -> bl !! t = None ->
  tensors s0 !! t = Some x -> bound n done_ (t :: left) bl vis s -> taken 0 b s s1 ->
  exists y, blocks s1 !! b = Some y /\
  bound n (done_ ++ [t]) left (<[t := b]> bl) (<[t := default 0 (vis !! t) - 1]> vis) (given t b x y s1).
Proof.
  intros Hn Hs Hbt Hx Hb Htk. assert (Hl := processed_later _ _ _ _ Hn).
  assert (Hpool := bn_pool _ _ _ _ _ _ Hb).
  assert (Hna : b ∉ allocated_blocks_ s).
  { destruct (tk_source _ _ _ _ Htk) as [Hin|[_ Hnone]]; [by apply (po_disjoint _ Hpool)|].
    intros Ha. assert (H : is_Some (blocks s !! b)) by (apply (po_blocks _ Hpool); by right).
    rewrite Hnone in H. by destruct H. }
  destruct (tk_size _ _ _ _ Htk) as (y & Hy & _ & _). exists y. split; [done|].
  destruct (taken_flat _ _ _ _ _ _ _ _ Hb Htk) as (Hflat & Hmem & Halloc).
  assert (Hts : tensors s1 !! t = Some x).
  { rewrite (tk_tensors _ _ _ _ Htk), (bn_tensors _ _ _ _ _ _ Hb), (with_blocks_lookup _ _ _ Hx). by rewrite Hbt. }
  split.
  - by apply given_pool; [|apply Htk].
  - destruct (tk_heap _ _ _ _ Htk) as [H1 H2].
    split; [intros h p|intros h1 h2 p]; rewrite !given_held by (done || by exists x); [apply H1|apply H2].
  - intros c z Hz. destruct (given_lookup _ _ _ _ _ _ _ Hy Hz) as (z0 & Hz0 & -> & ->). by eapply Hflat.
  - simpl. rewrite (tk_tensors _ _ _ _ Htk), (bn_tensors _ _ _ _ _ _ Hb). by apply with_blocks_insert.
  - simpl. rewrite Hmem. apply Hb.
  - simpl. rewrite Halloc. apply Hb.
  - intros u. rewrite elem_of_app, list_elem_of_singleton. destruct (decide (u = t)) as [->|Hne].
    + rewrite lookup_insert_eq. split; [by auto|by eexists].
    + rewrite lookup_insert_ne by done. rewrite (bn_dom _ _ _ _ _ _ Hb). naive_solver.
  - intros c. simpl. rewrite (tk_allocated _ _ _ _ Htk), elem_of_union, elem_of_singleton, (bn_alloc _ _ _ _ _ _ Hb).
    split.
    + intros [->|(u & Hu & Hlu)]; [exists t; by rewrite lookup_insert_eq|].
      exists u. rewrite lookup_insert_ne by congruence. done.
    + intros (u & Hu & Hlu). destruct (decide (u = t)) as [->|Hne].
      * rewrite lookup_insert_eq in Hu. left. congruence.
      * rewrite lookup_insert_ne in Hu by done. right. by exists u.
  - assert (Hclash : forall u i, u <> t -> bl !! u = Some b -> in_use i u -> in_use i t -> False).
    { intros u i Hne Hu [_ Hlu] [Hbt' _].
      assert (Hover := not_allocated_over _ _ _ _ _ _ _ _ Hb Hna Hu).
      assert (Hi : (i < n)%nat) by (destruct (decide (n <= i)%nat); [destruct Hover; by eapply later_mono|lia]).
      assert (H : is_Some (bl !! t)); [|rewrite Hbt in H; by destruct H].
      apply (bn_dom _ _ _ _ _ _ Hb). split; [done|]. left. eapply before_mono; [|done]. lia. }
    intros t1 t2 c i Hne H1 H2 Hi1 Hi2. destruct (decide (t1 = t)) as [->|Hn1], (decide (t2 = t)) as [->|Hn2]; [done| | |].
    + rewrite lookup_insert_eq in H1. rewrite lookup_insert_ne in H2 by done. simplify_eq. by eapply Hclash.
    + rewrite lookup_insert_eq in H2. rewrite lookup_insert_ne in H1 by done. simplify_eq. by eapply Hclash.
    + rewrite lookup_insert_ne in H1, H2 by done. by eapply (bn_disjoint _ _ _ _ _ _ Hb t1 t2).
  - apply counts_visit; [done..|apply Hb].
  - right. destruct (bound_peak _ _ _ _ _ _ _ _ _ Hn Hs Hbt Hb Htk) as (m & T & H1 & H2 & H3).
    exists m, T. split; [done|]. split; [done|]. rewrite H3. simpl. by rewrite map_size_insert_Some.
  - intros u c Hu. simpl. destruct (decide (c = b)) as [->|Hne]; [rewrite lookup_insert_eq; by eexists|].
    rewrite lookup_insert_ne by done. rewrite (tk_others _ _ _ _ Htk) by done.
    destruct (decide (u = t)) as [->|Hnu]; [rewrite lookup_insert_eq in Hu; congruence|].
    rewrite lookup_insert_ne in Hu by done. by eapply bn_blocks.
Qed.

(** Every visited tensor exists. *)
Hypothesis known : forall t, later 0 t -> is_Some (tensors s0 !! t).

Lemma wp_bind_tensors n done_ left bl vis s :
  visit_list !! n = Some (done_ ++ left) -> bound n done_ left bl vis s ->
  wp (bind_tensors left vis (dom bl))
    (fun '(vis', binded) s' => exists bl', binded = dom bl' /\ bound n (done_ ++ left) [] bl' vis' s')
    (fun _ _ => False) s.
Proof.
  revert done_ bl vis s. induction left as [|t left IH]; intros done_ bl vis s Hn Hb; simpl.
  { apply wp_ret. exists bl. by rewrite app_nil_r. }
  assert (Hl := processed_later _ _ _ _ Hn).
  destruct (known t) as [x Hx]; [eapply later_mono; [|done]; lia|].
  apply wp_bind. eapply wp_tensor.
  { rewrite (bn_tensors _ _ _ _ _ _ Hb). by apply with_blocks_lookup. }
  set (x1 := match bl !! t with Some b => set_block (Some b) x | None => x end).
  assert (Hname : checknoused (name_ x1) = negb (shareable t)).
  { apply (with_blocks_name bl). by apply with_blocks_lookup. }
  rewrite Hname. assert (Hn' : visit_list !! n = Some ((done_ ++ [t]) ++ left)) by by rewrite <- app_assoc.
  replace (done_ ++ t :: left) with ((done_ ++ [t]) ++ left) by by rewrite <- app_assoc.
  destruct (shareable t) eqn:Hs; simpl.
  2: { apply IH; [done|]. by apply bound_skip. }
  apply wp_bind. destruct (bl !! t) as [b|] eqn:Hbt.
  - rewrite bool_decide_true by (apply elem_of_dom; by eexists). apply wp_ret.
    apply IH; [done|]. apply bound_visit; [done..|by eexists|done].
  - rewrite bool_decide_false by (rewrite elem_of_dom, Hbt; by intros []). apply wp_bind.
    eapply wp_mono; [apply wp_AllocBlock; [apply Hb|apply Hb|]| |done].
    { intros b y Hy. destruct (bn_flat _ _ _ _ _ _ Hb b y Hy). lia. }
    intros b s1 Htk. destruct (bound_new _ _ _ _ _ _ _ _ _ x Hn Hs Hbt Hx Hb Htk) as (y & Hy & Hb1).
    apply wp_bind. apply (wp_BindingBlock t b x y); [apply Htk| |done|].
    { rewrite (tk_tensors _ _ _ _ Htk), (bn_tensors _ _ _ _ _ _ Hb), (with_blocks_lookup _ _ _ Hx). by rewrite Hbt. }
    apply wp_ret. replace ({[t]} ∪ dom bl) with (dom (<[t := b]> bl)) by apply dom_insert_L.
    by apply IH.
Qed.

(** ** The end of a step *)

(** The tensors of which the walk over [vis] has freed the blocks. *)
Record freeing (n : nat) (l : list nat) (bl : gmap nat nat) (vis : gmap nat Z) (pre : list (nat * Z)) s s' : Prop := mkFreeing {
  fr_pool : pool_ok s';
  fr_same : set_pools [] ∅ s' = set_pools [] ∅ s;
  fr_alloc b : b ∈ allocated_blocks_ s' <-> exists t, bl !! t = Some b /\ later n t /\ (t, 0) ∉ pre;
}.

Lemma wp_FreeBlock b s :
  pool_ok s -> is_Some (blocks s !! b) ->
  wp (FreeBlock (Some b)) (fun _ s' => pool_ok s' /\ set_pools [] ∅ s' = set_pools [] ∅ s /\
    allocated_blocks_ s' = allocated_blocks_ s ∖ {[b]}) (fun _ _ => False) s.
Proof.
  intros Hp Hb. unfold FreeBlock. apply wp_bind, wp_gets. unfold id.
  case_bool_decide as Hin; simpl.
  - rewrite (po_order _ Hp). simpl. apply wp_modify. split; [|by split].
    assert (Hnf : b ∉ free_blocks_ s) by (intros H; by apply (po_disjoint _ Hp b)).
    destruct Hp as [H1 H2 H3 H4]. split; simpl.
    + by apply insert_block_ordered.
    + rewrite insert_block_perm. by constructor.
    + intros c. rewrite insert_block_perm, elem_of_cons, elem_of_difference, elem_of_singleton. intros [->|Hc]; [tauto|].
      intros [Hc' _]. by apply (H3 c).
    + intros c. rewrite insert_block_perm, elem_of_cons, elem_of_difference, elem_of_singleton, H4.
      destruct (decide (c = b)) as [->|Hne]; [split; [by auto|by right]|naive_solver].
  - apply wp_ret. split; [done|]. split; [done|]. apply set_eq. intros c.
    rewrite elem_of_difference, elem_of_singleton. split; [|by intros [? _]]. intros Hc. split; [done|]. by intros ->.
Qed.

Lemma wp_free_visited n l bl vis s :
  visit_list !! n = Some l -> bound n l [] bl vis s ->
  wp (free_visited vis) (fun vis' s' =>
    bound (S n) [] (default [] (visit_list !! S n)) bl vis' s') (fun _ _ => False) s.
Proof.
  intros Hn Hb. unfold free_visited. apply wp_bind.
  assert (Hn' : visit_list !! n = Some (l ++ [])) by by rewrite app_nil_r.
  assert (Hcnt := bn_counts _ _ _ _ _ _ Hb).
  assert (Hv : forall t k, (t, k) ∈ visit_order vis <-> vis !! t = Some k)
    by (intros t k; rewrite visit_order_perm; apply elem_of_map_to_list).
  assert (Hbl : forall t, shareable t = true -> later n t -> vis !! t = Some 0 -> is_Some (bl !! t)).
  { intros t Hs Hl H0. apply (bn_dom _ _ _ _ _ _ Hb). split; [done|]. right.
    rewrite (ct_vis _ _ _ Hcnt t Hs Hl) in H0. apply elem_of_concat_drop in Hl as (i & k & Hi & Hk & Ht).
    destruct (decide (i = n)) as [->|Hne]; [congruence|].
    assert (Hpos : 0 < count_of t (concat (drop (S n) visit_list))).
    { apply count_of_pos, elem_of_concat_drop. exists i, k. split; [lia|done]. }
    simplify_eq. assert (Hz := count_of_nonneg t []). lia. }
  eapply wp_mono; [apply (wp_for_each (fun pre s' => freeing n l bl vis pre s s') _ _ (fun _ _ => False))| |done].
  - split; [apply Hb|done|]. intros b. rewrite (bn_alloc _ _ _ _ _ _ Hb).
    split; intros (t & H); exists t; [|naive_solver]. split_and!; [apply H|apply H|apply not_elem_of_nil].
  - intros pre [t k] rest s1 Hsplit [Hp Hsame Halloc]. unfold when. destruct (Z.eqb_spec k 0) as [->|Hk].
    + assert (Ht : vis !! t = Some 0) by (apply Hv; rewrite Hsplit; set_solver).
      destruct (ct_over _ _ _ Hcnt t Ht) as [Hs Hl]. destruct (Hbl t Hs Hl Ht) as [b Hbt].
      assert (Et : tensors s1 = tensors s) by exact (f_equal tensors Hsame).
      assert (Eb : blocks s1 = blocks s) by exact (f_equal blocks Hsame).
      destruct (known t) as [x Hx]; [eapply later_mono; [|done]; lia|].
      apply wp_bind. eapply wp_tensor.
      { rewrite Et, (bn_tensors _ _ _ _ _ _ Hb). by apply with_blocks_lookup. }
      rewrite Hbt. simpl.
      assert (Hlive : is_Some (blocks s1 !! b)).
      { rewrite Eb. apply (po_blocks _ (bn_pool _ _ _ _ _ _ Hb)). right. apply (bn_alloc _ _ _ _ _ _ Hb). by exists t. }
      eapply wp_mono; [by apply wp_FreeBlock| |done]. intros ? s2 (Hp2 & Hsame2 & Ha2).
      split; [done|by rewrite Hsame2|]. intros c. rewrite Ha2, elem_of_difference, elem_of_singleton, Halloc. split.
      * intros [(u & Hu & Hlu & Hnp) Hne]. exists u. split_and!; [done..|].
        rewrite elem_of_app, list_elem_of_singleton. intros [?|[= ->]]; [done|congruence].
      * intros (u & Hu & Hlu & Hnp). rewrite elem_of_app, list_elem_of_singleton in Hnp. split; [exists u; naive_solver|].
        intros ->. destruct (decide (u = t)) as [->|Hne]; [naive_solver|].
        eapply (bn_disjoint _ _ _ _ _ _ Hb u t b n); [done..| |]; eapply bound_in_use; try done; by eexists.
    + apply wp_ret. split; [done..|]. intros b. rewrite Halloc. split; intros (u & Hu & Hlu & Hnp); exists u; split_and!; try done.
      * rewrite elem_of_app, list_elem_of_singleton. intros [?|[= _ ?]]; [done|congruence].
      * intros H. apply Hnp. by apply elem_of_app; left.
  - intros ? s1 [Hp Hsame Halloc]. apply wp_ret.
    assert (Hfields : tensors s1 = tensors s /\ blocks s1 = blocks s /\ memory s1 = memory s /\ allocator_ s1 = allocator_ s).
    { split_and!; [exact (f_equal tensors Hsame)|exact (f_equal blocks Hsame)|exact (f_equal memory Hsame)|exact (f_equal allocator_ Hsame)]. }
    destruct Hfields as (Et & Eb & Em & Ea).
    destruct Hb as [H1 H2 H3 H4 H5 H6 H7 H8 H9 H10 H11 H12]. split; rewrite ?Et, ?Eb, ?Em, ?Ea; try done.
    + destruct H2 as [Ha Hb]. assert (Hheld : forall h, held s1 h = held s h) by (intros [c|u]; simpl; by rewrite ?Eb, ?Et).
      split; [intros h p|intros h1 h2 p]; rewrite !Hheld; rewrite ?Ea; [apply Ha|apply Hb].
    + intros t. rewrite H7. split.
      * intros [Hs Hin]. split; [done|]. left. destruct Hin as [Hin|Hin]; [eapply before_mono; [|done]; lia|].
        apply elem_of_concat_take. exists n, l. split; [lia|done].
      * intros [Hs [(i & k & Hi & Hk & Ht)%elem_of_concat_take|[]%not_elem_of_nil]]. split; [done|].
        destruct (decide (i = n)) as [->|Hne]; [right; congruence|]. left. apply elem_of_concat_take. exists i, k. split; [lia|done].
    + intros b. rewrite Halloc. split; intros (t & Hbt & Hrest).
      * destruct Hrest as [Hlt Hnp]. exists t. split; [done|]. rewrite Hv in Hnp.
        destruct (proj1 (H7 t)) as [Hs _]; [by eexists|]. rewrite (ct_vis _ _ _ H10 t Hs Hlt) in Hnp.
        unfold later. apply count_of_pos. assert (H := count_of_nonneg t (concat (drop (S n) visit_list))).
        assert (count_of t [] = 0) by done. destruct (decide (count_of t (concat (drop (S n) visit_list)) = 0)) as [E0|]; [|lia].
        destruct Hnp. f_equal. lia.
      * exists t. split; [done|]. assert (Hlt : later n t) by (eapply later_mono; [|done]; lia). split; [done|].
        rewrite Hv. destruct (proj1 (H7 t)) as [Hs _]; [by eexists|]. rewrite (ct_vis _ _ _ H10 t Hs Hlt).
        apply count_of_pos in Hrest. assert (count_of t [] = 0) by done. intros [= ?]. lia.
    + by apply counts_next.
    + destruct H11 as [?|(m & T & HT)]; [by left|right]. exists m, T. by rewrite Eb.
Qed.

(** ** The whole graph *)
Lemma wp_bind_steps rest n bl vis s :
  drop n visit_list = rest -> bound n [] (default [] (visit_list !! n)) bl vis s ->
  wp (bind_steps rest vis (dom bl))
    (fun _ s' => exists bl' vis', bound (length visit_list) [] [] bl' vis' s') (fun _ _ => False) s.
Proof.
  revert n bl vis s. induction rest as [|l rest IH]; intros n bl vis s Hr Hb; simpl.
  - apply wp_ret. assert (Hge : (length visit_list <= n)%nat).
    { assert (H := f_equal length Hr). rewrite length_drop in H. simpl in H. lia. }
    rewrite lookup_ge_None_2 in Hb by done. simpl in Hb. exists bl, vis.
    assert (Hl : forall m t, (length visit_list <= m)%nat -> ~ later m t).
    { intros m t Hm. unfold later. rewrite drop_ge by done. apply not_elem_of_nil. }
    destruct Hb as [H1 H2 H3 H4 H5 H6 H7 H8 H9 [H10 H10'] H11 H12]. split; try done.
    + intros t. rewrite H7. unfold before. by rewrite !take_ge by lia.
    + intros b. rewrite H8. split; intros (t & _ & Ht); by eapply Hl in Ht.
    + split; [|intros t Ht; destruct (H10' t Ht) as [_ Hlt]; by eapply Hl in Hlt].
      intros t _ Ht. by eapply Hl in Ht.
  - assert (Hn : visit_list !! n = Some l).
    { replace n with (n + 0)%nat by lia. by rewrite <- lookup_drop, Hr. }
    rewrite Hn in Hb. simpl in Hb. apply wp_bind.
    eapply wp_mono; [by apply (wp_bind_tensors n [] l bl vis s)| |done].
    intros [vis1 binded] s1 (bl1 & -> & Hb1). simpl in Hb1. apply wp_bind.
    eapply wp_mono; [by apply (wp_free_visited n l bl1)| |done]. intros vis2 s2 Hb2.
    apply (IH (S n) bl1 vis2); [|done]. assert (Hd := drop_step n l Hn). rewrite Hr in Hd. by injection Hd.
Qed.

(** A device context without blocks and tensors without blocks. *)
Record unbound : Prop := mkUnbound {
  un_blocks : blocks s0 = ∅;
  un_free : free_blocks_ s0 = [];
  un_allocated : allocated_blocks_ s0 = ∅;
  un_heap : heap_ok s0;
}.

Lemma bound_start : unbound -> bound 0 [] (default [] (visit_list !! 0%nat)) ∅ (count_visits (concat visit_list)) s0.
Proof.
  intros [Hb Hf Ha Hh]. split; try done.
  - split; rewrite ?Hf, ?Hb, ?Ha; [by unfold in_order; rewrite Hf|constructor|by intros b ?%not_elem_of_nil|].
    intros b. rewrite lookup_empty, elem_of_nil, elem_of_empty. split; [by intros []|tauto].
  - intros b x. by rewrite Hb, lookup_empty.
  - apply map_eq. intros t. unfold with_blocks. rewrite map_lookup_imap.
    destruct (tensors s0 !! t); [by rewrite lookup_empty|done].
  - intros t. rewrite lookup_empty. split; [by intros []|].
    intros [_ [H|H]]; [by apply elem_of_concat_take in H as (? & ? & ? & _); lia|by apply not_elem_of_nil in H].
  - intros b. rewrite Ha, elem_of_empty. split; [done|]. intros (t & Ht & _). by rewrite lookup_empty in Ht.
  - apply counts_start.
  - by left.
Qed.

(** The outcome of the binding. *)
Record reuses (bl : gmap nat nat) s' : Prop := mkReuses {
  ru_tensors : tensors s' = with_blocks bl;
  ru_shared t : is_Some (bl !! t) <-> shareable t = true /\ t ∈ concat visit_list;
  ru_disjoint t1 t2 b i : t1 <> t2 -> bl !! t1 = Some b -> bl !! t2 = Some b ->
    in_use i t1 -> in_use i t2 -> False;
  ru_blocks t b : bl !! t = Some b -> exists x, blocks s' !! b = Some x /\ size_ x = 0 /\ ptr_ x = None;
  ru_few : blocks s' = ∅ \/ peak s';
  ru_given_back : allocated_blocks_ s' = ∅ /\ pool_ok s';
  ru_heap : heap_ok s' /\ memory s' = memory s0 /\ allocator_ s' = allocator_ s0;
}.

Lemma binding_run : unbound ->
  wp (binding_with_algo_0 visit_list) (fun _ s' => exists bl, reuses bl s') (fun _ _ => False) s0.
Proof.
  intros Hun. unfold binding_with_algo_0.
  assert (Hsteps := wp_bind_steps visit_list 0 ∅ (count_visits (concat visit_list)) s0 (drop_0 _) (bound_start Hun)).
  rewrite dom_empty_L in Hsteps. eapply wp_mono; [exact Hsteps| |done].
  intros ? s' (bl & vis & [H1 H2 H3 H4 H5 H6 H7 H8 H9 H10 H11 H12]). exists bl.
  assert (Hna : forall b, b ∉ allocated_blocks_ s').
  { intros b (t & _ & Hl)%H8. unfold later in Hl. rewrite drop_ge in Hl by done. by apply not_elem_of_nil in Hl. }
  assert (Hlast : forall t, is_Some (bl !! t) <-> shareable t = true /\ t ∈ concat visit_list).
  { intros t. rewrite H7. unfold before. rewrite take_ge by done. rewrite elem_of_nil. tauto. }
  split; try done.
  - intros t b Hbt. destruct (H12 t b Hbt) as [x Hx]. exists x. split; [done|by eapply H3].
  - split; [|done]. apply set_eq. intros b. rewrite elem_of_empty. split; [by intros ?%Hna|done].
Qed.
End binding.
