(* ===== verification/ReuseRun.v ===== *)
(** Running the operators of a graph (src/csrc/core/model/model_decoder.cpp,
    src/csrc/core/operator/operator.cpp) on tensors with blocks of their own
    and on tensors that share: every operator reads the same values. *)
From Stdlib Require Import ZArith ZifyBool Lia.
From stdpp Require Import base list gmap strings relations.
From S2P Require Import Prelude MemoryReuse ReuseProofs ReuseBinding.

(** [AsOperator]: its tensors, the shapes [Reshape] gives to its outputs and the
    values [Forward] computes for them, both with a status.  What an operator
    computes is a parameter. *)
Record AsOperator (V : Type) := mkOperator {
  in_names_ : list nat;
  out_names_ : list nat;
  reshape_op : list Shape -> AsStatus * (nat -> Shape);
  forward_op : list (option V) -> AsStatus * (nat -> V);
}.
Arguments mkOperator {V}. Arguments in_names_ {V}. Arguments out_names_ {V}.
Arguments reshape_op {V}. Arguments forward_op {V}.

Section run.
Context {A V : Type} `{ALS : AllocatorSpec A} `{AD : Addresses} `{VO : VisitOrder}.
Abbreviation ctx := (Context A V).
Abbreviation E := (M ctx).
Implicit Types s : ctx.

(** The bytes a tensor's elements take. *)
Definition bytes (x : AsTensor) : Z := i64 (Count (shape_ x) * elem x).

(** Where a kernel finds a tensor; outside the buffer it reads and writes what
    belongs to others. *)
Definition data_room (t : nat) : E (option nat) :=
  x ← tensor t;
  p ← GetDataPtr t;
  cap ← (match block_ x with Some b => y ← block b; mret (size_ y) | None => mret (nbytes_ (data_ x)) end);
  if bytes x <=? 0 then mret None
  else if bytes x <=? cap then match p with Some _ => mret p | None => throw UB end
  else throw UB.
Definition read_tensor (t : nat) : E (option V) :=
  p ← data_room t;
  gets (fun s => p ≫= (fun p => memory s !! p)).
Definition write_tensor (t : nat) (v : V) : E unit :=
  p ← data_room t;
  match p with
  | Some p => modify (fun s => set_memory (allocator_ s) (<[p := v]> (memory s)) s)
  | None => mret tt
  end.

Definition succeeded (st : AsStatus) : bool := bool_decide (st = ALLSPARK_SUCCESS).

Fixpoint reshape_outs (i : nat) (outs : list nat) (shapes : nat -> Shape) : E AsStatus :=
  match outs with
  | [] => mret ALLSPARK_SUCCESS
  | t :: outs' =>
      st ← SetShape t (shapes i);
      if succeeded st then reshape_outs (S i) outs' shapes else mret st
  end.
Definition CallReshape (op : AsOperator V) : E AsStatus :=
  shapes ← mapM (fun t => x ← tensor t; mret (shape_ x)) (in_names_ op);
  let '(st, f) := reshape_op op shapes in
  if succeeded st then reshape_outs 0 (out_names_ op) f else mret st.

Fixpoint write_outs (i : nat) (outs : list nat) (values : nat -> V) : E unit :=
  match outs with
  | [] => mret tt
  | t :: outs' => write_tensor t (values i);; write_outs (S i) outs' values
  end.
(** The values read are part of the result. *)
Definition CallForward (op : AsOperator V) : E (AsStatus * list (option V)) :=
  values ← mapM read_tensor (in_names_ op);
  let '(st, f) := forward_op op values in
  write_outs 0 (out_names_ op) f;;
  mret (st, values).

(** The loops over the operators of a graph; a failing operator ends them. *)
Fixpoint reshape_graph (ops : list (AsOperator V)) : E AsStatus :=
  match ops with
  | [] => mret ALLSPARK_SUCCESS
  | op :: ops' =>
      st ← CallReshape op;
      if succeeded st then reshape_graph ops' else mret st
  end.
Fixpoint forward_graph (ops : list (AsOperator V)) : E (AsStatus * list (list (option V))) :=
  match ops with
  | [] => mret (ALLSPARK_SUCCESS, [])
  | op :: ops' =>
      '(st, vs) ← CallForward op;
      if succeeded st then
        '(st', rest) ← forward_graph ops'; mret (st', vs :: rest)
      else mret (st, [vs])
  end.
(** One graph: all operators are reshaped, then all run.  [post_graph] reshapes
    and runs operator by operator, as graphs of one operator; after a prefill
    the operators are only reshaped. *)
Definition run_graph (forward : bool) (ops : list (AsOperator V)) : E (AsStatus * list (list (option V))) :=
  st ← reshape_graph ops;
  if succeeded st && forward then forward_graph ops else mret (st, []).
Definition run_graphs (passes : list (bool * list (AsOperator V)))
    : E (list (AsStatus * list (list (option V)))) :=
  mapM (fun '(forward, ops) => run_graph forward ops) passes.
End run.
