(* ===== verification/ReuseTwin.v ===== *)
(** Two runs of the same operators, one on tensors with buffers of their own and
    one on tensors that share blocks, side by side. *)
From Stdlib Require Import ZArith ZifyBool Lia.
From stdpp Require Import base list gmap strings relations.
From S2P Require Import Prelude MemoryReuse ReuseProofs ReuseBinding ReuseRun.

(** Both runs of [m] return the same result. *)
Definition twin {S A} (m : M S A) (Q : A -> S -> S -> Prop) (s s' : S) : Prop :=
  exists a s1 s1', m s = (Ok a, s1) /\ m s' = (Ok a, s1') /\ Q a s1 s1'.

Lemma twin_ret {S A} (a : A) (Q : A -> S -> S -> Prop) s s' : Q a s s' -> twin (mret a) Q s s'.
Proof. intros H. by exists a, s, s'. Qed.
Lemma twin_mono {S A} (m : M S A) (Q Q' : A -> S -> S -> Prop) s s' :
  twin m Q s s' -> (forall a s1 s1', Q a s1 s1' -> Q' a s1 s1') -> twin m Q' s s'.
Proof. intros (a & s1 & s1' & H1 & H2 & H) HQ. exists a, s1, s1'. auto. Qed.
Lemma twin_bind {S A B} (m : M S A) (f : A -> M S B) (Q : B -> S -> S -> Prop) s s' :
  twin m (fun a s1 s1' => twin (f a) Q s1 s1') s s' -> twin (m ≫= f) Q s s'.
Proof.
  intros (a & s1 & s1' & H1 & H2 & (b & s2 & s2' & H3 & H4 & H)). exists b, s2, s2'.
  unfold mbind, M_bind. by rewrite H1, H2.
Qed.
(** Each run by itself. *)
Lemma twin_wp {S A} (m : M S A) a (P P' : S -> Prop) (Q : A -> S -> S -> Prop) s s' :
  wp m (fun r s1 => r = a /\ P s1) (fun _ _ => False) s ->
  wp m (fun r s1 => r = a /\ P' s1) (fun _ _ => False) s' ->
  (forall s1 s1', P s1 -> P' s1' -> Q a s1 s1') -> twin m Q s s'.
Proof.
  unfold wp. destruct (m s) as [[r|] s1] eqn:E1, (m s') as [[r'|] s1'] eqn:E2; try done.
  intros [-> H1] [-> H2] HQ. exists a, s1, s1'. split; [done|]. split; [done|]. by apply HQ.
Qed.
Lemma twin_mapM {S A B} (f : A -> M S B) (I : S -> S -> Prop) l s s' :
  I s s' -> (forall x s s', x ∈ l -> I s s' -> twin (f x) (fun _ => I) s s') ->
  twin (mapM f l) (fun _ => I) s s'.
Proof.
  revert s s'. induction l as [|x l IH]; intros s s' HI Hf; simpl; [by apply twin_ret|].
  apply twin_bind. eapply twin_mono; [apply Hf; [by left|done]|]. intros b s1 s1' H1. apply twin_bind.
  eapply twin_mono; [apply IH; [done|]|].
  - intros y t t' Hy. apply Hf. by right.
  - intros bs s2 s2' H2. by apply twin_ret.
Qed.

Section twin.
Context {A V : Type} `{ALS : AllocatorSpec A} `{AD : Addresses} `{VO : VisitOrder}.
Abbreviation ctx := (Context A V).
Implicit Types s : ctx.

(** The allocator does not run out of memory. *)
Variable reliable : forall n (a : A), 0 < n -> exists p a', alloc_bytes n a = (Some (Some p), a').

(** What a holder's buffer holds. *)
Definition val s (h : nat + nat) : option V := held s h ≫= (memory s !!.).

Lemma touches_val h0 s s' h : touches h0 s s' -> h <> h0 -> val s' h = val s h.
Proof.
  intros [Hh Hm] Hne. unfold val. rewrite Hh by done. destruct (held s h) as [p|] eqn:Hp; [|done].
  simpl. by eapply Hm.
Qed.

Lemma heap_ok_ext s s' : heap_ok s -> (forall h, held s' h = held s h) ->
  live (allocator_ s') = live (allocator_ s) -> heap_ok s'.
Proof.
  intros [Hl Ho] Hh Ha. split; [intros h p|intros h1 h2 p]; rewrite !Hh; rewrite ?Ha; [apply Hl|apply Ho].
Qed.

(** A buffer as large as it says. *)
Definition dense_ok (d : DenseData) : Prop := 0 <= nbytes_ d /\ (is_Some (raw_data_ d) <-> 0 < nbytes_ d).
Definition room_ok (y : Block) : Prop := 0 <= size_ y /\ (is_Some (ptr_ y) <-> 0 < size_ y).

(** ** Shapes *)
Record shaped_data (t : nat) (sh : Shape) (x : AsTensor) s s1 : Prop := mkShapedData {
  sd_heap : heap_ok s1;
  sd_blocks : blocks s1 = blocks s;
  sd_touch : touches (inr t) s s1;
  sd_tensors : exists d, tensors s1 = <[t := set_shape_ sh (set_data d x)]> (tensors s) /\ dense_ok d /\
    nbytes_ d = Z.max (nbytes_ (data_ x)) (i64 (Count sh * elem x));
  sd_val : val s1 (inr t) = if i64 (Count sh * elem x) <=? nbytes_ (data_ x) then val s (inr t) else None;
}.

(** The tensor [t] without data. *)
Definition dataless (t : nat) (x : AsTensor) s : ctx := set_tensors <[t := set_data (mkDense None 0) x]> s.

Lemma held_insert t x d s h : h <> inr t ->
  held (set_tensors <[t := set_data d x]> s) h = held s h.
Proof. destruct h as [b|u]; simpl; [done|]. intros Hne. rewrite lookup_insert_ne; [done|congruence]. Qed.
Lemma held_insert_eq t x d s : held (set_tensors <[t := set_data d x]> s) (inr t) = raw_data_ d.
Proof. simpl. by rewrite lookup_insert_eq. Qed.

Lemma wp_let_go t x s :
  heap_ok s -> tensors s !! t = Some x ->
  wp (match raw_data_ (data_ x) with Some p => free_buffer p | None => mret tt end)
    (fun _ s1 => freed (inr t) s (dataless t x s1) /\ blocks s1 = blocks s /\ tensors s1 = tensors s)
    (fun _ _ => False) s.
Proof.
  intros Hh Ht. assert (Hheld : held s (inr t) = raw_data_ (data_ x)) by (simpl; by rewrite Ht).
  destruct (raw_data_ (data_ x)) as [p|].
  - apply wp_free_buffer; [by eapply hk_live|]. split; [|done]. eapply hold_none; [done|exact Hheld|done|done| |].
    + intros h Hne. unfold dataless. rewrite held_insert by done. by destruct h.
    + apply held_insert_eq.
  - apply wp_ret. split; [|done].
    assert (Hsame : forall h, held (dataless t x s) h = held s h).
    { intros h. destruct (decide (h = inr t)) as [->|Hne]; [by rewrite Hheld; apply held_insert_eq|by apply held_insert]. }
    split; [by eapply heap_ok_ext|split; [intros; apply Hsame|done]|apply held_insert_eq].
Qed.

Lemma wp_DenseData_Resize t x n s :
  heap_ok s -> tensors s !! t = Some x -> dense_ok (data_ x) ->
  wp (DenseData_Resize (data_ x) n) (fun '(st, d) s1 => st = ALLSPARK_SUCCESS /\
    dense_ok d /\ nbytes_ d = Z.max (nbytes_ (data_ x)) n /\ blocks s1 = blocks s /\ tensors s1 = tensors s /\
    let s2 := set_tensors <[t := set_data d x]> s1 in
    heap_ok s2 /\ touches (inr t) s s2 /\
    val s2 (inr t) = if n <=? nbytes_ (data_ x) then val s (inr t) else None) (fun _ _ => False) s.
Proof.
  intros Hh Ht Hd. unfold DenseData_Resize. destruct (Z.leb_spec n (nbytes_ (data_ x))) as [Hle|Hlt].
  - apply wp_ret. split; [done|]. split; [done|]. split; [lia|].
    replace (set_tensors <[t := set_data (data_ x) x]> s) with s.
    { split_and!; try done. }
    destruct s, x. unfold set_tensors, set_data. simpl in *. by rewrite insert_id.
  - apply wp_bind. eapply wp_mono; [by apply wp_let_go| |done]. intros ? s1 ([Hok Htou Hnone] & Eb & Et).
    apply wp_bind. unfold wp at 1, alloc_buffer. destruct Hd as [Hd _].
    destruct (reliable n (allocator_ s1)) as (p & al & Ha); [lia|]. rewrite Ha. apply wp_ret.
    split; [done|]. split; [split; simpl; [lia|split; [lia|by eexists]]|]. split; [simpl; lia|]. split; [done|]. split; [done|].
    cbv zeta. set (s2 := set_tensors _ _). destruct (alloc_new _ _ _ _ Ha) as [Hfresh Hlive].
    destruct (hold_new (inr t) (dataless t x s1) s2 al (Some p)) as [Hok2 Ht2]; try done.
    + intros q [= <-]. done.
    + intros h Hne. unfold s2, dataless. rewrite !held_insert by done. by destruct h.
    + apply held_insert_eq.
    + split; [done|]. split; [by eapply touches_trans|]. unfold val, s2. rewrite held_insert_eq. simpl. apply lookup_delete_eq.
Qed.

Lemma wp_SetShape_data t sh x s :
  heap_ok s -> tensors s !! t = Some x -> block_ x = None -> dense_ok (data_ x) ->
  wp (SetShape t sh) (fun st s1 => st = ALLSPARK_SUCCESS /\ shaped_data t sh x s s1) (fun _ _ => False) s.
Proof.
  intros Hh Ht Hb Hd. unfold SetShape. apply wp_bind. eapply wp_tensor; [done|]. rewrite Hb. apply wp_bind.
  eapply wp_mono; [by apply (wp_DenseData_Resize t)| |done].
  intros [st d] s1 (-> & Hd1 & Hn & Eb & Et & Hok & Htou & Hval). cbv zeta in *.
  apply wp_bind. eapply wp_upd_tensor; [by rewrite Et|]. rewrite bool_decide_true by done. apply wp_bind.
  eapply wp_upd_tensor; [apply lookup_insert_eq|]. apply wp_ret. split; [done|].
  set (s2 := set_tensors <[t := set_data d x]> s1) in *.
  set (s3 := set_tensors _ s2).
  assert (Hheld : forall h, held s3 h = held s2 h).
  { intros [b|u]; [done|]. unfold s3, s2. simpl. rewrite insert_insert_eq.
    destruct (decide (u = t)) as [->|Hne]; [by rewrite !lookup_insert_eq|by rewrite !lookup_insert_ne by done]. }
  split; try done.
  - by eapply heap_ok_ext.
  - split; [intros h Hne; rewrite Hheld; by apply Htou|apply Htou].
  - exists d. split; [|done]. unfold s3, s2. simpl. by rewrite insert_insert_eq, Et.
  - rewrite <- Hval. unfold val. by rewrite Hheld.
Qed.

Record shaped_block (t b : nat) (sh : Shape) (x : AsTensor) (y : Block) s s1 : Prop := mkShapedBlock {
  sb_heap : heap_ok s1;
  sb_touch : touches (inl b) s s1;
  sb_tensors : tensors s1 = <[t := set_shape_ sh x]> (tensors s);
  sb_others b' : b' <> b -> blocks s1 !! b' = blocks s !! b';
  sb_block : exists y1, blocks s1 !! b = Some y1 /\ room_ok y1 /\
    size_ y1 = Z.max (size_ y) (i64 (Count sh * elem x));
}.

Lemma wp_SetShape_block t b sh x y s :
  heap_ok s -> tensors s !! t = Some x -> block_ x = Some b -> blocks s !! b = Some y -> room_ok y ->
  wp (SetShape t sh) (fun st s1 => st = ALLSPARK_SUCCESS /\ shaped_block t b sh x y s s1) (fun _ _ => False) s.
Proof.
  intros Hh Ht Hb Hy Hroom. unfold SetShape. apply wp_bind. eapply wp_tensor; [done|]. rewrite Hb. apply wp_bind.
  set (n := i64 (Count sh * elem x)).
  eapply wp_mono; [by apply (wp_Resize b n y)| |done]. intros r s1 [[Hok Htou Hf Hfit (y1 & Hy1 & Hs1 & _) Hal] _].
  apply wp_bind. eapply wp_upd_tensor; [by rewrite (bf_tensors _ _ _ Hf)|]. apply wp_ret. split; [done|].
  set (s2 := set_tensors _ s1).
  assert (Hheld : forall h, held s2 h = held s1 h).
  { intros [c|u]; [done|]. unfold s2. simpl. destruct (decide (u = t)) as [->|Hne].
    - by rewrite lookup_insert_eq, (bf_tensors _ _ _ Hf), Ht.
    - by rewrite lookup_insert_ne by done. }
  split.
  - by eapply heap_ok_ext.
  - split; [intros h Hne; rewrite Hheld; by apply Htou|apply Htou].
  - simpl. by rewrite (bf_tensors _ _ _ Hf).
  - apply Hf.
  - exists y1. split; [done|]. split; [|done]. destruct Hroom as [H0 Hp]. split; [lia|].
    destruct (decide (n <= size_ y)) as [Hle|Hgt].
    + rewrite (Hfit Hle), Hy in Hy1. injection Hy1 as <-. done.
    + destruct Hal as [a Ha]; [lia|]. destruct (reliable n a) as (p & a' & Hp'); [lia|]. rewrite Hp' in Ha.
      simpl in Ha. rewrite Hy1 in Ha. simpl in Ha. rewrite Ha. split; [lia|by eexists].
Qed.
(** ** Side by side

    [bl] gives the blocks of the tensors that share in the second run.  [R]: the
    shared tensors whose blocks are large enough; [D]: those that hold what they
    hold in the first run. *)
Variable bl : gmap nat nat.

Record same_tensor (t : nat) (x x' : AsTensor) : Prop := mkSameTensor {
  st_elem : elem x' = elem x;
  st_shape : shape_ x' = shape_ x;
  st_own : block_ x = None;
  st_block : block_ x' = bl !! t;
  st_dense : dense_ok (data_ x);
  st_fits : bytes x <= nbytes_ (data_ x);
  st_private : bl !! t = None -> nbytes_ (data_ x') = nbytes_ (data_ x) /\ dense_ok (data_ x');
}.

Record sim (R D : nat -> Prop) s s' : Prop := mkSim {
  si_heap : heap_ok s;
  si_heap' : heap_ok s';
  si_tensors t x : tensors s !! t = Some x -> exists x', tensors s' !! t = Some x' /\ same_tensor t x x';
  si_private t : bl !! t = None -> val s' (inr t) = val s (inr t);
  si_block t b : bl !! t = Some b -> exists y, blocks s' !! b = Some y /\ room_ok y;
  si_fits t b x y : R t -> bl !! t = Some b -> tensors s !! t = Some x -> blocks s' !! b = Some y -> bytes x <= size_ y;
  si_live t b x : D t -> bl !! t = Some b -> tensors s !! t = Some x -> 0 < bytes x -> val s' (inl b) = val s (inr t);
}.
Definition nothing (t : nat) : Prop := False.

Lemma sim_weaken (R R' D D' : nat -> Prop) s s' : sim R D s s' ->
  (forall t, R' t -> R t) -> (forall t, D' t -> D t) -> sim R' D' s s'.
Proof. intros [] HR HD. split; eauto. Qed.

Lemma sim_shaped_data t sh x x' R s s' s1 s1' :
  sim R nothing s s' -> tensors s !! t = Some x -> tensors s' !! t = Some x' -> same_tensor t x x' -> bl !! t = None ->
  shaped_data t sh x s s1 -> shaped_data t sh x' s' s1' -> sim (fun u => R u \/ u = t) nothing s1 s1'.
Proof.
  intros Hs Hx Hx' Hst Hbl [Hok Eb Htou (d & Et & Hd & Hn) Hv] [Hok' Eb' Htou' (d' & Et' & Hd' & Hn') Hv'].
  assert (Hnb : nbytes_ (data_ x') = nbytes_ (data_ x)) by by apply (st_private _ _ _ Hst).
  rewrite (st_elem _ _ _ Hst) in Hn', Hv'. split; try done.
  - intros u z. rewrite Et, Et'. destruct (decide (u = t)) as [->|Hne].
    + rewrite !lookup_insert_eq. intros [= <-]. eexists. split; [done|]. split; simpl; try apply Hst; try done.
      * unfold bytes. simpl. lia.
      * intros _. split; [lia|done].
    + rewrite !lookup_insert_ne by done. apply (si_tensors _ _ _ _ Hs).
  - intros u Hu. destruct (decide (u = t)) as [->|Hne].
    + by rewrite Hv, Hv', Hnb, (si_private _ _ _ _ Hs).
    + rewrite (touches_val _ _ _ _ Htou), (touches_val _ _ _ _ Htou') by congruence. by apply (si_private _ _ _ _ Hs).
  - rewrite Eb'. apply (si_block _ _ _ _ Hs).
  - intros u b z y HR Hb Hz. destruct (decide (u = t)) as [->|Hne]; [congruence|].
    rewrite Et, lookup_insert_ne in Hz by done. rewrite Eb'. eapply (si_fits _ _ _ _ Hs); [|done..]. naive_solver.
Qed.

Lemma sim_shaped_block t b sh x x' y R s s' s1 s1' :
  sim R nothing s s' -> tensors s !! t = Some x -> tensors s' !! t = Some x' -> same_tensor t x x' -> bl !! t = Some b ->
  blocks s' !! b = Some y ->
  shaped_data t sh x s s1 -> shaped_block t b sh x' y s' s1' -> sim (fun u => R u \/ u = t) nothing s1 s1'.
Proof.
  intros Hs Hx Hx' Hst Hbl Hy [Hok Eb Htou (d & Et & Hd & Hn) Hv] [Hok' Htou' Et' Hoth (y1 & Hy1 & Hroom & Hsz)].
  rewrite (st_elem _ _ _ Hst) in Hsz. split; try done.
  - intros u z. rewrite Et, Et'. destruct (decide (u = t)) as [->|Hne].
    + rewrite !lookup_insert_eq. intros [= <-]. eexists. split; [done|]. split; simpl; try apply Hst; try done; [unfold bytes; simpl; lia|congruence].
    + rewrite !lookup_insert_ne by done. apply (si_tensors _ _ _ _ Hs).
  - intros u Hu. rewrite (touches_val _ _ _ _ Htou), (touches_val _ _ _ _ Htou') by congruence. by apply (si_private _ _ _ _ Hs).
  - intros u c Hc. destruct (decide (c = b)) as [->|Hne]; [by exists y1|]. rewrite Hoth by done. by eapply (si_block _ _ _ _ Hs).
  - intros u c z y2 HR Hc. rewrite Et. destruct (decide (u = t)) as [->|Hne].
    + rewrite lookup_insert_eq. intros [= <-]. replace c with b by congruence. rewrite Hy1. intros [= <-].
      unfold bytes. simpl. lia.
    + rewrite lookup_insert_ne by done. intros Hz Hy2. assert (HR' : R u) by naive_solver.
      destruct (decide (c = b)) as [->|Hcb].
      * assert (Hle := si_fits _ _ _ _ Hs u b z y HR' Hc Hz Hy). replace y2 with y1 by congruence. lia.
      * rewrite Hoth in Hy2 by done. by eapply (si_fits _ _ _ _ Hs).
Qed.

Lemma shaped_dom t sh x s s1 : shaped_data t sh x s s1 -> tensors s !! t = Some x -> dom (tensors s1) = dom (tensors s).
Proof. intros [_ _ _ (d & -> & _) _] Hx. apply dom_insert_lookup_L. by eexists. Qed.

Lemma twin_SetShape t sh R s s' :
  sim R nothing s s' -> t ∈ dom (tensors s) ->
  twin (SetShape t sh) (fun st s1 s1' => st = ALLSPARK_SUCCESS /\ dom (tensors s1) = dom (tensors s) /\
    sim (fun u => R u \/ u = t) nothing s1 s1') s s'.
Proof.
  intros Hs [x Hx]%elem_of_dom. destruct (si_tensors _ _ _ _ Hs t x Hx) as (x' & Hx' & Hst).
  assert (Hp := wp_SetShape_data t sh x s (si_heap _ _ _ _ Hs) Hx (st_own _ _ _ Hst) (st_dense _ _ _ Hst)).
  destruct (bl !! t) as [b|] eqn:Hbl.
  - destruct (si_block _ _ _ _ Hs t b Hbl) as (y & Hy & Hroom).
    eapply twin_wp; [exact Hp|apply (wp_SetShape_block t b sh x' y); try done; [apply Hs|by rewrite (st_block _ _ _ Hst)]|].
    intros s1 s1' H1 H1'. simpl. split; [done|]. split; [by eapply shaped_dom|]. by eapply sim_shaped_block.
  - eapply twin_wp; [exact Hp|apply (wp_SetShape_data t sh x'); try done; [apply Hs|by rewrite (st_block _ _ _ Hst)|by apply (st_private _ _ _ Hst)]|].
    intros s1 s1' H1 H1'. simpl. split; [done|]. split; [by eapply shaped_dom|]. by eapply sim_shaped_data.
Qed.
(** ** Reading and writing *)
Definition place (t : nat) (b : option nat) : nat + nat := match b with Some b => inl b | None => inr t end.
(** The buffer of [t] has the room for its elements. *)
Definition has_room s (t : nat) (x : AsTensor) : Prop :=
  match block_ x with
  | Some b => exists y, blocks s !! b = Some y /\ room_ok y /\ bytes x <= size_ y
  | None => dense_ok (data_ x) /\ bytes x <= nbytes_ (data_ x)
  end.

Lemma tensor_run t x s : tensors s !! t = Some x -> tensor t s = (Ok x, s).
Proof. intros H. unfold tensor. by rewrite H. Qed.

Lemma data_room_run t x s :
  tensors s !! t = Some x -> has_room s t x ->
  data_room t s = (Ok (if bytes x <=? 0 then None else held s (place t (block_ x))), s) /\
  (0 < bytes x -> is_Some (held s (place t (block_ x)))).
Proof.
  intros Ht Hroom. set (h := place t (block_ x)).
  assert (Hcap : exists cap q, held s h = q /\ bytes x <= cap /\ (is_Some q <-> 0 < cap) /\
    data_room t s = (if bytes x <=? 0 then mret None
                     else if bytes x <=? cap then match q with Some _ => mret q | None => throw UB end
                     else throw UB) s).
  { unfold data_room, GetDataPtr, has_room, h in *. rewrite (bind_ok _ _ _ _ _ (tensor_run _ _ _ Ht)).
    unfold mbind at 1, M_bind at 1. rewrite (bind_ok _ _ _ _ _ (tensor_run _ _ _ Ht)).
    destruct (block_ x) as [b|]; simpl.
    - destruct Hroom as (y & Hy & [_ Hp] & Hle). rewrite Hy. exists (size_ y), (ptr_ y).
      split; [done|]. split; [done|]. split; [done|]. unfold block, mbind, M_bind. rewrite Hy. simpl. by rewrite Hy.
    - destruct Hroom as [[_ Hp] Hle]. rewrite Ht. by exists (nbytes_ (data_ x)), (raw_data_ (data_ x)). }
  destruct Hcap as (cap & q & -> & Hle & Hq & ->). destruct (Z.leb_spec (bytes x) 0) as [|H0].
  - split; [done|lia].
  - destruct (proj2 Hq) as [p ->]; [lia|]. rewrite (proj2 (Z.leb_le _ _) Hle). split; [done|by eexists].
Qed.

(** The tensor [t] in both runs. *)
Lemma sim_room R D t s s' :
  sim R D s s' -> t ∈ dom (tensors s) -> (is_Some (bl !! t) -> R t) ->
  exists x x', tensors s !! t = Some x /\ tensors s' !! t = Some x' /\ has_room s t x /\ has_room s' t x' /\
    bytes x' = bytes x /\ block_ x = None /\ block_ x' = bl !! t.
Proof.
  intros Hs [x Hx]%elem_of_dom HR. destruct (si_tensors _ _ _ _ Hs t x Hx) as (x' & Hx' & Hst).
  destruct Hst as [He Hsh Hown Hb Hd Hf Hpr].
  assert (Hby : bytes x' = bytes x) by (unfold bytes; by rewrite He, Hsh).
  exists x, x'. split_and!; try done; unfold has_room.
  - by rewrite Hown.
  - rewrite Hb, Hby. destruct (bl !! t) as [b|] eqn:Hbl.
    + destruct (si_block _ _ _ _ Hs t b Hbl) as (y & Hy & Hr). exists y. split; [done|]. split; [done|].
      eapply (si_fits _ _ _ _ Hs); [apply HR; by eexists|done..].
    + destruct Hpr as [Hn Hd']; [done|]. split; [done|lia].
Qed.

Lemma twin_read t R D s s' :
  sim R D s s' -> t ∈ dom (tensors s) -> (is_Some (bl !! t) -> R t /\ D t) ->
  twin (read_tensor t) (fun _ s1 s1' => s1 = s /\ s1' = s') s s'.
Proof.
  intros Hs Ht HD. destruct (sim_room R D t s s' Hs Ht) as (x & x' & Hx & Hx' & Hr & Hr' & Hby & Hb & Hb').
  { intros H. by apply HD. }
  destruct (data_room_run t x s Hx Hr) as [E _], (data_room_run t x' s' Hx' Hr') as [E' _].
  unfold read_tensor, twin, mbind, M_bind, gets. rewrite E, E', Hby. rewrite Hb, Hb'.
  eexists _, s, s'. split; [done|]. split; [|done]. do 2 f_equal.
  destruct (Z.leb_spec (bytes x) 0) as [|H0]; [done|]. change (val s' (place t (bl !! t)) = val s (inr t)).
  destruct (bl !! t) as [b|] eqn:Hbl; simpl.
  - eapply (si_live _ _ _ _ Hs); [apply HD; by eexists|done..].
  - by apply (si_private _ _ _ _ Hs).
Qed.

Definition written (p : nat) (v : V) s : ctx := set_memory (allocator_ s) (<[p := v]> (memory s)) s.
Lemma held_written p v s h : held (written p v s) h = held s h.
Proof. by destruct h. Qed.
Lemma val_written h0 p v s h : heap_ok s -> held s h0 = Some p ->
  val (written p v s) h = if bool_decide (h = h0) then Some v else val s h.
Proof.
  intros Hh Hp. unfold val. rewrite held_written. case_bool_decide as Hd.
  - rewrite Hd, Hp. simpl. apply lookup_insert_eq.
  - destruct (held s h) as [q|] eqn:Hq; [|done]. simpl. apply lookup_insert_ne. intros ->.
    apply Hd. by eapply (hk_once _ Hh).
Qed.

Lemma twin_write t v R D s s' :
  sim R D s s' -> t ∈ dom (tensors s) -> (is_Some (bl !! t) -> R t) ->
  (forall u b, D u -> u <> t -> bl !! u = Some b -> bl !! t = Some b -> False) ->
  twin (write_tensor t v) (fun _ s1 s1' => dom (tensors s1) = dom (tensors s) /\
    sim R (fun u => D u \/ u = t) s1 s1') s s'.
Proof.
  intros Hs Ht HR Hdis. destruct (sim_room R D t s s' Hs Ht HR) as (x & x' & Hx & Hx' & Hr & Hr' & Hby & Hb & Hb').
  destruct (data_room_run t x s Hx Hr) as [E Hheld], (data_room_run t x' s' Hx' Hr') as [E' Hheld'].
  unfold write_tensor, twin, mbind, M_bind. rewrite E, E', Hby. rewrite Hb, Hb' in *. rewrite Hby in Hheld'.
  destruct (Z.leb_spec (bytes x) 0) as [H0|H0].
  - eexists tt, s, s'. split; [done|]. split; [done|]. split; [done|]. destruct Hs. split; try done.
    intros u b z [Hu| ->] Hbu Hz Hpos; [by eapply si_live0|]. replace z with x in Hpos by congruence. lia.
  - destruct (Hheld H0) as [p Hp], (Hheld' H0) as [p' Hp']. rewrite Hp, Hp'.
    eexists tt, (written p v s), (written p' v s'). split; [done|]. split; [done|]. split; [done|].
    assert (Hv := fun h => val_written _ p v s h (si_heap _ _ _ _ Hs) Hp).
    assert (Hv' := fun h => val_written _ p' v s' h (si_heap' _ _ _ _ Hs) Hp').
    split.
    + eapply heap_ok_ext; [apply (si_heap _ _ _ _ Hs)|apply held_written|done].
    + eapply heap_ok_ext; [apply (si_heap' _ _ _ _ Hs)|apply held_written|done].
    + apply (si_tensors _ _ _ _ Hs).
    + intros u Hu. rewrite Hv, Hv'. destruct (decide (u = t)) as [->|Hne].
      * rewrite Hu. by rewrite !bool_decide_true.
      * rewrite !bool_decide_false; [by apply (si_private _ _ _ _ Hs)|simpl; congruence|].
        destruct (bl !! t); simpl; congruence.
    + apply (si_block _ _ _ _ Hs).
    + apply (si_fits _ _ _ _ Hs).
    + intros u b z Hu Hbu Hz Hpos. rewrite Hv, Hv'. destruct (decide (u = t)) as [->|Hne].
      * rewrite Hbu. by rewrite !bool_decide_true.
      * destruct Hu as [Hu|?]; [|done]. rewrite !bool_decide_false; [by eapply (si_live _ _ _ _ Hs)|simpl; congruence|].
        destruct (bl !! t) as [c|] eqn:Hc; simpl; [|done]. intros [= ->]. by eapply Hdis.
Qed.
End twin.

(** * Graphs *)
Section graphs.
Context {A V : Type} `{ALS : AllocatorSpec A} `{AD : Addresses} `{VO : VisitOrder}.
Implicit Types s : Context A V.
Implicit Types ops : list (AsOperator V).
Variable reliable : forall n (a : A), 0 < n -> exists p a', alloc_bytes n a = (Some (Some p), a').
Variable visit_list : list (list nat).
Variable s0 : Context A V.
Variable bl : gmap nat nat.
Variable known : gset nat.
Variable only_shareable : forall t, is_Some (bl !! t) -> shareable s0 t = true.
Variable disjoint_use : forall t1 t2 b i, t1 <> t2 -> bl !! t1 = Some b -> bl !! t2 = Some b ->
  in_use visit_list i t1 -> in_use visit_list i t2 -> False.
Variable known_visits : forall t, t ∈ concat visit_list -> t ∈ known.

(** The operators of a graph are steps of the visits, from [n] on. *)
Definition segment (n : nat) ops : Prop :=
  forall k op, ops !! k = Some op -> visit_list !! (n + k)%nat = Some (in_names_ op ++ out_names_ op).
(** A graph reads a tensor that may share only once it has written it; the
    tensors that carry values from graph to graph keep buffers of their own. *)
Fixpoint self_contained (written : list nat) ops : bool :=
  match ops with
  | [] => true
  | op :: ops' =>
      forallb (fun t => negb (shareable s0 t) || bool_decide (t ∈ written)) (in_names_ op)
      && self_contained (out_names_ op ++ written) ops'
  end.

Lemma segment_tail n op ops : segment n (op :: ops) -> segment (S n) ops.
Proof. intros H k o Hk. replace (S n + k)%nat with (n + S k)%nat by lia. by apply H. Qed.
Lemma segment_head n op ops : segment n (op :: ops) -> visit_list !! n = Some (in_names_ op ++ out_names_ op).
Proof. intros H. specialize (H 0%nat op eq_refl). by rewrite Nat.add_0_r in H. Qed.
Lemma segment_known n op ops t : segment n (op :: ops) -> t ∈ in_names_ op ++ out_names_ op -> t ∈ known.
Proof.
  intros H%segment_head Ht. apply known_visits, list_elem_of_In, List.in_concat. eexists.
  split; apply list_elem_of_In; [by eapply list_elem_of_lookup_2|done].
Qed.

(** What both runs keep. *)
Definition twins (R D : nat -> Prop) s s' : Prop := dom (tensors s) = known /\ sim bl R D s s'.

(** ** Reshaping *)
Lemma twin_reshape_outs i outs f R s s' :
  twins R nothing s s' -> (forall t, t ∈ outs -> t ∈ known) ->
  twin (reshape_outs i outs f) (fun st s1 s1' => st = ALLSPARK_SUCCESS /\ twins (fun u => R u \/ u ∈ outs) nothing s1 s1') s s'.
Proof.
  revert i R s s'. induction outs as [|t outs IH]; intros i R s s' [Hd Hs] Hk; simpl.
  - apply twin_ret. split; [done|]. split; [done|]. eapply sim_weaken; [done| |done]. intros u [?|?%not_elem_of_nil]; done.
  - apply twin_bind. eapply twin_mono; [apply (twin_SetShape reliable bl t (f i) R); [done|rewrite Hd; apply Hk; by left]|].
    intros st s1 s1' (-> & Hd1 & Hs1). unfold succeeded. rewrite bool_decide_true by done.
    eapply twin_mono; [apply (IH (S i) (fun u => R u \/ u = t) s1 s1'); [split; [by rewrite Hd1|exact Hs1]|intros u Hu; apply Hk; by right]|].
    intros st2 s2 s2' (-> & Hd2 & Hs2). split; [done|]. split; [done|]. eapply sim_weaken; [exact Hs2| |done].
    intros u [?|[->|?]%elem_of_cons]; auto.
Qed.

Lemma twin_shape t R D s s' :
  twins R D s s' -> t ∈ known ->
  twin (x ← tensor t; mret (shape_ x)) (fun _ => twins R D) s s'.
Proof.
  intros [Hd Hs] Ht. rewrite <- Hd in Ht. apply elem_of_dom in Ht as [x Hx].
  destruct (si_tensors _ _ _ _ _ Hs t x Hx) as (x' & Hx' & Hst). exists (shape_ x), s, s'.
  rewrite (bind_ok _ _ _ _ _ (tensor_run _ _ _ Hx)), (bind_ok _ _ _ _ _ (tensor_run _ _ _ Hx')).
  rewrite (st_shape _ _ _ _ Hst). done.
Qed.

Lemma twin_CallReshape op R s s' :
  twins R nothing s s' -> (forall t, t ∈ in_names_ op ++ out_names_ op -> t ∈ known) ->
  twin (CallReshape op) (fun st => twins (fun u => R u \/ (st = ALLSPARK_SUCCESS /\ u ∈ out_names_ op)) nothing) s s'.
Proof.
  intros Hs Hk. unfold CallReshape. apply twin_bind. eapply twin_mono.
  { apply (twin_mapM _ (twins R nothing) (in_names_ op)); [done|]. intros t t1 t1' Ht Ht1.
    apply twin_shape; [done|]. apply Hk, elem_of_app. by left. }
  intros shapes s1 s1' Hs1. destruct (reshape_op op shapes) as [st f]. unfold succeeded. case_bool_decide as Hst.
  - eapply twin_mono; [apply (twin_reshape_outs _ _ _ R); [exact Hs1|]|].
    + intros t Ht. apply Hk, elem_of_app. by right.
    + intros st2 s2 s2' (-> & Hd2 & Hs2). split; [done|]. eapply sim_weaken; [done| |done]. naive_solver.
  - apply twin_ret. destruct Hs1 as [Hd1 Hs1]. split; [done|]. eapply sim_weaken; [done| |done]. naive_solver.
Qed.

Definition outs_of ops (t : nat) : Prop := t ∈ concat (out_names_ <$> ops).

Lemma twin_reshape_graph n ops R s s' :
  twins R nothing s s' -> segment n ops ->
  twin (reshape_graph ops) (fun st => twins (fun u => R u \/ (st = ALLSPARK_SUCCESS /\ outs_of ops u)) nothing) s s'.
Proof.
  revert n R s s'. induction ops as [|op ops IH]; intros n R s s' Hs Hseg; simpl.
  - apply twin_ret. destruct Hs as [Hd Hs]. split; [done|]. eapply sim_weaken; [done| |done].
    intros u [?|[_ ?%not_elem_of_nil]]; done.
  - apply twin_bind. eapply twin_mono; [apply twin_CallReshape; [done|intros t; by eapply segment_known]|].
    intros st s1 s1' [Hd1 Hs1]. unfold succeeded. case_bool_decide as Hst.
    + eapply twin_mono; [apply (IH (S n) (fun u => R u \/ (st = ALLSPARK_SUCCESS /\ u ∈ out_names_ op)) s1 s1'); [by split|by eapply segment_tail]|].
      intros st2 s2 s2' [Hd2 Hs2]. split; [done|]. eapply sim_weaken; [exact Hs2| |done].
      intros u [?|[? [Hu|Hu]%elem_of_app]]; naive_solver.
    + apply twin_ret. split; [done|]. eapply sim_weaken; [exact Hs1| |done]. naive_solver.
Qed.

(** ** Running *)
Lemma twin_write_outs n i outs f R D s s' :
  twins R D s s' -> (forall u, D u -> in_use visit_list n u) ->
  (forall t, t ∈ outs -> t ∈ known /\ R t /\ in_use visit_list n t) ->
  twin (write_outs i outs f) (fun _ => twins R (fun u => D u \/ u ∈ outs)) s s'.
Proof.
  revert i D s s'. induction outs as [|t outs IH]; intros i D s s' [Hd Hs] HD Ho; simpl.
  - apply twin_ret. split; [done|]. eapply sim_weaken; [done|done|]. intros u [?|?%not_elem_of_nil]; done.
  - destruct (Ho t) as (Hk & HR & Hu); [by left|]. apply twin_bind. eapply twin_mono.
    { apply (twin_write bl t (f i) R D); [done|by rewrite Hd|done|].
      intros u b HDu Hne Hb1 Hb2. eapply (disjoint_use u t b n); auto. }
    intros _ s1 s1' [Hd1 Hs1]. eapply twin_mono.
    { apply (IH (S i) (fun u => D u \/ u = t)); [split; [by rewrite Hd1|done]|naive_solver|].
      intros u Hu'. apply Ho. by right. }
    intros _ s2 s2' [Hd2 Hs2]. split; [done|]. eapply sim_weaken; [exact Hs2|done|].
    intros u [?|[->|?]%elem_of_cons]; auto.
Qed.

Lemma twin_CallForward n op W R s s' :
  twins R (fun t => t ∈ W /\ later visit_list n t) s s' ->
  visit_list !! n = Some (in_names_ op ++ out_names_ op) ->
  (forall t, t ∈ in_names_ op ++ out_names_ op -> t ∈ known) ->
  (forall t, t ∈ W -> R t /\ before visit_list n t) -> (forall t, t ∈ out_names_ op -> R t) ->
  forallb (fun t => negb (shareable s0 t) || bool_decide (t ∈ W)) (in_names_ op) = true ->
  twin (CallForward op) (fun _ => twins R (fun t => t ∈ out_names_ op ++ W /\ later visit_list (S n) t)) s s'.
Proof.
  intros Hs Hn Hk HW HR Hin. unfold CallForward. apply twin_bind.
  set (D := fun t => t ∈ W /\ later visit_list n t) in *. eapply twin_mono.
  { apply (twin_mapM _ (twins R D) (in_names_ op)); [done|]. intros t t1 t1' Ht [Hd1 Ht1].
    assert (Hlk : t ∈ in_names_ op ++ out_names_ op) by (apply elem_of_app; by left).
    eapply twin_mono; [apply (twin_read bl t R D); [done|rewrite Hd1; by apply Hk|]|].
    - intros Hbl%only_shareable. apply List.forallb_forall with (x := t) in Hin; [|by apply list_elem_of_In].
      rewrite Hbl in Hin. simpl in Hin. apply bool_decide_eq_true in Hin. split; [by apply HW|].
      split; [done|]. apply elem_of_concat_drop. exists n. by eexists.
    - intros _ ? ? [-> ->]. by split. }
  intros vs s1 s1' Hs1. destruct (forward_op op vs) as [st f]. apply twin_bind.
  assert (Hou : forall t, t ∈ in_names_ op ++ out_names_ op -> in_use visit_list n t) by (intros; by eapply visits_in_use).
  eapply twin_mono; [apply (twin_write_outs n 0 (out_names_ op) f R D); [done| |]|].
  - intros u [Hu Hl]. split; [|done]. apply (before_mono _ n); [lia|]. by apply HW.
  - intros t Ht. assert (Hlk : t ∈ in_names_ op ++ out_names_ op) by (apply elem_of_app; by right). auto.
  - intros _ s2 s2' [Hd2 Hs2]. apply twin_ret. split; [done|]. eapply sim_weaken; [done|done|].
    intros t [[Ht|Ht]%elem_of_app Hl]; [by right|left]. split; [done|]. apply (later_mono _ n (S n)); [lia|done].
Qed.

Lemma twins_weaken R D s s' : twins R D s s' -> twins nothing nothing s s'.
Proof. intros [Hd Hs]. split; [done|]. by eapply sim_weaken. Qed.

Lemma twin_forward_graph n ops W R s s' :
  twins R (fun t => t ∈ W /\ later visit_list n t) s s' -> segment n ops ->
  (forall t, t ∈ W -> R t /\ before visit_list n t) -> (forall t, outs_of ops t -> R t) ->
  self_contained W ops = true ->
  twin (forward_graph ops) (fun _ => twins nothing nothing) s s'.
Proof.
  revert n W s s'. induction ops as [|op ops IH]; intros n W s s' Hs Hseg HW HR Hsc; simpl.
  - apply twin_ret. by eapply twins_weaken.
  - simpl in Hsc. apply andb_true_iff in Hsc as [Hin Hsc]. assert (Hn := segment_head _ _ _ Hseg).
    apply twin_bind. eapply twin_mono; [apply (twin_CallForward n op W R); try done|].
    + intros t. by eapply segment_known.
    + intros t Ht. apply HR, elem_of_app. by left.
    + intros [st vs] s1 s1' Hs1. destruct (succeeded st); [|apply twin_ret; by eapply twins_weaken].
      apply twin_bind. eapply twin_mono; [apply (IH (S n) (out_names_ op ++ W)); try done|].
      * by eapply segment_tail.
      * intros t [Ht|Ht]%elem_of_app.
        -- split; [apply HR, elem_of_app; by left|]. eapply visits_in_use; [exact Hn|]. apply elem_of_app. by right.
        -- split; [by apply HW|]. apply (before_mono _ n); [lia|by apply HW].
      * intros t Ht. apply HR, elem_of_app. by right.
      * intros [st' rest] s2 s2' Hs2. by apply twin_ret.
Qed.

Lemma twin_run_graph fw n ops s s' :
  twins nothing nothing s s' -> segment n ops -> (fw = true -> self_contained [] ops = true) ->
  twin (run_graph fw ops) (fun _ => twins nothing nothing) s s'.
Proof.
  intros Hs Hseg Hsc. unfold run_graph. apply twin_bind.
  eapply twin_mono; [by apply (twin_reshape_graph n)|]. intros st s1 s1' [Hd Hs1].
  unfold succeeded. case_bool_decide as Hst; simpl; [destruct fw|].
  - eapply (twin_forward_graph n ops [] (outs_of ops)); try done.
    + split; [done|]. eapply sim_weaken; [done|by right|]. by intros t [?%not_elem_of_nil _].
    + by intros t ?%not_elem_of_nil.
    + by apply Hsc.
  - apply twin_ret. by apply (twins_weaken _ _ _ _ (conj Hd Hs1)).
  - apply twin_ret. by apply (twins_weaken _ _ _ _ (conj Hd Hs1)).
Qed.

(** A pass runs a graph that is a segment of the visits. *)
Definition placed (pass : bool * list (AsOperator V)) : Prop :=
  exists n, segment n (snd pass) /\ (fst pass = true -> self_contained [] (snd pass) = true).

Lemma twin_run_graphs passes s s' :
  twins nothing nothing s s' -> Forall placed passes ->
  twin (run_graphs passes) (fun _ => twins nothing nothing) s s'.
Proof.
  intros Hs Hp. apply twin_mapM; [done|]. intros [fw ops] t t' Hin Ht. rewrite Forall_forall in Hp.
  destruct (Hp _ Hin) as (n & Hseg & Hsc). by apply (twin_run_graph fw n).
Qed.
End graphs.
