(* ===== verification/ReuseTheorems.v ===== *)
(** What the pool of blocks and the binding of a graph promise, with a
    demonstration on an allocator that counts. *)
From Stdlib Require Import ZArith ZifyBool Lia.
From stdpp Require Import base list gmap strings relations.
From S2P Require Import Prelude MemoryReuse ReuseProofs ReuseBinding ReuseRun ReuseTwin.

Section theorems.
Context {A V : Type} `{ALS : AllocatorSpec A} `{AD : Addresses} `{VO : VisitOrder}.
Implicit Types s : Context A V.

(** An assignment of blocks under which no two tensors in use at one step share. *)
Definition sharing (visit_list : list (list nat)) s (f : nat -> nat) : Prop :=
  forall t1 t2 i, shareable s t1 = true -> shareable s t2 = true ->
    in_use visit_list i t1 -> in_use visit_list i t2 -> f t1 = f t2 -> t1 = t2.

Lemma peak_fewest visit_list s0 s f :
  peak visit_list s0 s -> sharing visit_list s0 f ->
  (size (blocks s) <= size (list_to_set (f <$> concat visit_list) : gset nat))%nat.
Proof.
  intros (m & T & Hnd & HT & <-) Hf.
  assert (Hnd' : NoDup (f <$> T)).
  { apply NoDup_fmap_2_strong; [|done]. intros t1 t2 H1 H2. rewrite Forall_forall in HT.
    destruct (HT t1 H1) as [? ?], (HT t2 H2) as [? ?]. by apply (Hf t1 t2 m). }
  rewrite <- (length_fmap f T), <- (size_list_to_set (C := gset nat) _ Hnd').
  apply subseteq_size. intros b. rewrite !elem_of_list_to_set, !list_elem_of_fmap.
  intros (t & -> & Ht). exists t. split; [done|]. rewrite Forall_forall in HT.
  destruct (HT t Ht) as [_ [_ Hl]]. apply elem_of_concat_drop in Hl as (i & l & _ & Hi & Hl).
  apply list_elem_of_In, List.in_concat. exists l. split; apply list_elem_of_In; [|done].
  by eapply list_elem_of_lookup_2.
Qed.

(** C17. Binding the tensors of a graph never fails.  It gives a block to each
    visited tensor whose name does not exclude it and to no other; two tensors
    share a block only if no step lies between the first and the last visit of
    both; no binding that keeps to this has fewer blocks; all blocks have gone
    back to the pool and no buffer was touched. *)
Theorem binding_correct visit_list s0 :
  (forall t, t ∈ concat visit_list -> is_Some (tensors s0 !! t)) -> unbound s0 ->
  exists bl s', binding_with_algo_0 visit_list s0 = (Ok tt, s') /\ reuses visit_list s0 bl s' /\
    forall f, sharing visit_list s0 f ->
      (size (blocks s') <= size (list_to_set (f <$> concat visit_list) : gset nat))%nat.
Proof.
  intros Hk Hun. assert (Hrun := binding_run visit_list s0 Hk Hun). unfold wp in Hrun.
  destruct (binding_with_algo_0 visit_list s0) as [[[]|e] s']; [|done].
  destruct Hrun as [bl Hr]. exists bl, s'. split; [done|]. split; [done|].
  intros f Hf. destruct (ru_few _ _ _ _ Hr) as [->|Hp]; [rewrite map_size_empty; lia|].
  by eapply peak_fewest.
Qed.

(** C39. Taking a block: the pool stays a partition of the blocks into free and
    allocated ones in the order of their sizes; the block was free, or none was
    and it is new; it is large enough, and the smallest such block when one is
    larger than asked for; no other buffer changes. *)
Theorem AllocBlock_correct n s :
  pool_ok s -> heap_ok s -> sizes_ok s ->
  exists b s', AllocBlock n s = (Ok b, s') /\ taken n b s s'.
Proof.
  intros Hp Hh Hs. assert (H := wp_AllocBlock n s Hp Hh Hs). unfold wp in H.
  destruct (AllocBlock n s) as [[b|e] s']; [by exists b, s'|done].
Qed.

(** Tensors as their constructor leaves them. *)
Definition constructed s : Prop :=
  forall t x, tensors s !! t = Some x -> block_ x = None /\ dense_ok (data_ x) /\ bytes x <= nbytes_ (data_ x).

Lemma sim_bound visit_list s0 bl s1 :
  unbound s0 -> constructed s0 -> reuses visit_list s0 bl s1 -> sim bl nothing nothing s0 s1.
Proof.
  intros Hun Hcon [Ht _ _ Hb _ _ (Hh & Hm & Ha)].
  assert (Hheld : forall t, held s1 (inr t) = held s0 (inr t)).
  { intros t. simpl. rewrite Ht. unfold with_blocks. rewrite map_lookup_imap.
    destruct (tensors s0 !! t); simpl; [by destruct (bl !! t)|done]. }
  split; try done.
  - by destruct Hun.
  - intros t x Hx. destruct (Hcon t x Hx) as (Hbn & Hd & Hf).
    exists (match bl !! t with Some b => set_block (Some b) x | None => x end). split.
    + rewrite Ht. unfold with_blocks. by rewrite map_lookup_imap, Hx.
    + split; try done; by destruct (bl !! t).
  - intros t _. unfold val. rewrite Hheld, Hm. done.
  - intros t b Hbt. destruct (Hb t b Hbt) as (y & Hy & Hs & Hp). exists y. split; [done|].
    split; rewrite Hs; [lia|]. rewrite Hp. split; [by intros []|lia].
Qed.

(** C16. Sharing blocks is invisible.  After the binding, any sequence of graphs
    that are segments of the visits and read a tensor that may share only after
    writing it gives the same statuses, and every operator reads the same values,
    as on tensors with buffers of their own, whatever the operators compute and
    however the shapes grow from graph to graph; what the other tensors hold at
    the end is the same too. *)
Theorem reuse_transparent visit_list s0 passes :
  (forall n (a : A), 0 < n -> exists p a', alloc_bytes n a = (Some (Some p), a')) ->
  (forall t, t ∈ concat visit_list -> is_Some (tensors s0 !! t)) -> unbound s0 -> constructed s0 ->
  Forall (placed visit_list s0) passes ->
  exists s1 results e0 e1,
    binding_with_algo_0 visit_list s0 = (Ok tt, s1) /\
    run_graphs passes s0 = (Ok results, e0) /\ run_graphs passes s1 = (Ok results, e1) /\
    forall t, shareable s0 t = false -> val e1 (inr t) = val e0 (inr t).
Proof.
  intros Hrel Hk Hun Hcon Hp. assert (Hrun := binding_run visit_list s0 Hk Hun). unfold wp in Hrun.
  destruct (binding_with_algo_0 visit_list s0) as [[[]|e] s1]; [|done]. destruct Hrun as [bl Hr].
  destruct (twin_run_graphs Hrel visit_list s0 bl (dom (tensors s0))) with (passes := passes) (s := s0) (s' := s1)
    as (results & e0 & e1 & H0 & H1 & _ & Hs).
  - intros t H. by apply (ru_shared _ _ _ _ Hr).
  - apply (ru_disjoint _ _ _ _ Hr).
  - intros t Ht. by apply elem_of_dom, Hk.
  - split; [done|]. by eapply sim_bound.
  - done.
  - exists s1, results, e0, e1. split; [done|]. split; [done|]. split; [done|].
    intros t Ht. apply (si_private _ _ _ _ _ Hs). destruct (bl !! t) as [b|] eqn:Hb; [|done].
    destruct (proj1 (ru_shared _ _ _ _ Hr t)) as [Hsh _]; [by eexists|congruence].
Qed.
End theorems.

(** * A demonstration *)
Module ReuseDemo.
Definition above (X : gset nat) : nat := S (List.list_max (elements X)).
Lemma above_fresh X : above X ∉ X.
Proof.
  intros H. assert (Hle := proj1 (List.list_max_le (elements X) (List.list_max (elements X))) (le_n _)).
  rewrite List.Forall_forall in Hle. apply elem_of_elements, list_elem_of_In, Hle in H. unfold above in H. lia.
Qed.
#[local] Instance demo_addresses : Addresses := {| new_address := above; new_address_fresh := above_fresh |}.
Lemma demo_order m : map_to_list (m : gmap nat Z) ≡ₚ map_to_list m.
Proof. done. Qed.
#[local] Instance demo_visits : VisitOrder := {| visit_order := map_to_list; visit_order_perm := demo_order |}.

(** An allocator that answers [room] calls. *)
Record Heap := mkHeap { room : nat; in_heap : gset nat }.
Definition demo_alloc (n : Z) (a : Heap) : option (option nat) * Heap :=
  if n <=? 0 then (Some None, a)
  else match room a with
       | O => (None, a)
       | S k => let p := above (in_heap a) in (Some (Some p), mkHeap k ({[p]} ∪ in_heap a))
       end.
Definition demo_free (p : nat) (a : Heap) : Heap := mkHeap (room a) (in_heap a ∖ {[p]}).
#[local] Instance demo_allocator : Allocator Heap :=
  {| alloc_bytes := demo_alloc; free_bytes := demo_free; live := in_heap |}.
#[local] Instance demo_allocator_spec : AllocatorSpec Heap.
Proof.
  split; simpl; unfold demo_alloc, demo_free.
  - intros n a p a' H. destruct (n <=? 0); [done|]. destruct (room a); [done|]. simplify_eq. split; [apply above_fresh|done].
  - intros n a a' H. destruct (n <=? 0); [by simplify_eq|]. by destruct (room a).
  - intros n a a' H. destruct (n <=? 0); [done|]. destruct (room a); by simplify_eq.
  - done.
Qed.

(** Five tensors of a chain of four operators; the last one is an input. *)
Definition demo_tensor (name : string) : AsTensor := mkTensor name 4 [] (mkDense None 0) None true.
Definition demo_tensors : gmap nat AsTensor :=
  list_to_map (zip (seq 0 5) (demo_tensor <$> ["a"; "b"; "c"; "d"; "input_ids"]%string)).
Definition demo_context (n : nat) : Context Heap nat := mkContext ∅ [] ∅ demo_tensors (mkHeap n ∅) ∅.
Definition demo_visit_list : list (list nat) := [[4; 0]; [0; 1]; [1; 2]; [4; 2; 3]; []; []]%nat.

Definition demo_bound : Context Heap nat := snd (binding_with_algo_0 demo_visit_list (demo_context 3)).
Example demo_blocks : (fun t => tensors demo_bound !! t ≫= block_) <$> seq 0 5 =
  [Some 2; Some 4; Some 2; Some 4; None]%nat.
Proof. vm_compute. reflexivity. Qed.

Lemma demo_known t : t ∈ concat demo_visit_list -> is_Some (tensors (demo_context 3) !! t).
Proof.
  revert t. apply Forall_forall. simpl. repeat constructor; by eexists.
Qed.
Lemma demo_held n h : held (demo_context n) h = None.
Proof.
  destruct h as [b|t]; [done|]. simpl. destruct (demo_tensors !! t) as [x|] eqn:Hx; [|done].
  unfold demo_tensors in Hx. apply elem_of_list_to_map_2, list_elem_of_In in Hx. simpl in Hx.
  by repeat destruct Hx as [[= <- <-]|Hx].
Qed.
Lemma demo_heap_ok n : heap_ok (demo_context n).
Proof. split; [intros h p|intros h1 h2 p]; by rewrite demo_held. Qed.
Lemma demo_unbound n : unbound (demo_context n).
Proof. split; try done. apply demo_heap_ok. Qed.

Lemma binding_correct_witness : exists bl s',
  binding_with_algo_0 demo_visit_list (demo_context 3) = (Ok tt, s') /\
  reuses demo_visit_list (demo_context 3) bl s' /\
  forall f, sharing demo_visit_list (demo_context 3) f ->
    (size (blocks s') <= size (list_to_set (f <$> concat demo_visit_list) : gset nat))%nat.
Proof. refine (binding_correct demo_visit_list (demo_context 3) demo_known (demo_unbound 3)). Defined.

(** A pool of two free blocks. *)
Definition demo_pool : Context Heap nat :=
  mkContext {[1 := mkBlock 8 (Some 1) ∅; 2 := mkBlock 16 (Some 2) ∅]}%nat [1; 2]%nat ∅ ∅ (mkHeap 3 {[1; 2]}%nat) ∅.
Lemma demo_pool_block b x : blocks demo_pool !! b = Some x ->
  (b = 1%nat /\ x = mkBlock 8 (Some 1%nat) ∅) \/ (b = 2%nat /\ x = mkBlock 16 (Some 2%nat) ∅).
Proof.
  simpl. rewrite lookup_insert_Some, lookup_singleton_Some. naive_solver.
Qed.
Lemma demo_pool_ok : pool_ok demo_pool.
Proof.
  split; [reflexivity|by apply (bool_decide_unpack _); vm_compute|set_solver|].
  intros b. split.
  - intros [x [[-> _]|[-> _]]%demo_pool_block]; left; set_solver.
  - simpl. intros [H|H]; [|set_solver]. repeat (apply elem_of_cons in H as [->|H]; [by eexists|]).
    by apply not_elem_of_nil in H.
Qed.
Lemma demo_pool_heap : heap_ok demo_pool.
Proof.
  assert (Hb : forall h p, held demo_pool h = Some p -> h = inl p /\ (p = 1 \/ p = 2)%nat).
  { intros [b|t] p H; [|done]. change (held demo_pool (inl b)) with (x ← blocks demo_pool !! b; ptr_ x) in H.
    destruct (blocks demo_pool !! b) as [x|] eqn:Hx; [|done].
    apply demo_pool_block in Hx as [[-> ->]|[-> ->]]; simpl in H; simplify_eq; auto. }
  split.
  - intros h p [-> Hp]%Hb. change (p ∈ ({[1; 2]} : gset nat)%nat). set_solver.
  - intros h1 h2 p [-> _]%Hb [-> _]%Hb. done.
Qed.
Lemma demo_pool_sizes : sizes_ok demo_pool.
Proof. by intros b x [[-> ->]|[-> ->]]%demo_pool_block. Qed.

Lemma AllocBlock_correct_witness : exists b s', AllocBlock 5 demo_pool = (Ok b, s') /\ taken 5 b demo_pool s'.
Proof. refine (AllocBlock_correct 5 demo_pool demo_pool_ok demo_pool_heap demo_pool_sizes). Defined.

(** ** Running *)

(** An allocator that never runs out. *)
Record Endless := mkEndless { buffers : gset nat }.
Definition endless_alloc (n : Z) (a : Endless) : option (option nat) * Endless :=
  if n <=? 0 then (Some None, a)
  else let p := above (buffers a) in (Some (Some p), mkEndless ({[p]} ∪ buffers a)).
#[local] Instance endless_allocator : Allocator Endless :=
  {| alloc_bytes := endless_alloc; free_bytes p a := mkEndless (buffers a ∖ {[p]}); live := buffers |}.
#[local] Instance endless_allocator_spec : AllocatorSpec Endless.
Proof.
  split; simpl; unfold endless_alloc.
  - intros n a p a' H. destruct (n <=? 0); [done|]. simplify_eq. split; [apply above_fresh|done].
  - intros n a a' H. destruct (n <=? 0); by simplify_eq.
  - intros n a a' H. by destruct (n <=? 0).
  - done.
Qed.
Lemma endless_reliable n (a : Endless) : 0 < n -> exists p a', alloc_bytes n a = (Some (Some p), a').
Proof. intros Hn. simpl. unfold endless_alloc. rewrite (proj2 (Z.leb_gt _ _)) by done. by do 2 eexists. Qed.

(** An operator that adds up what it reads; reading nothing counts 100. *)
Definition demo_operator (ins outs : list nat) (n : Z) : AsOperator nat :=
  mkOperator ins outs (fun _ => (ALLSPARK_SUCCESS, fun _ => [n]))
    (fun vs => (ALLSPARK_SUCCESS, fun i => S (i + foldr plus 0 (default 100 <$> vs)))%nat).
Definition demo_graph (n : Z) : list (AsOperator nat) :=
  [demo_operator [4] [0] 2; demo_operator [0] [1] n; demo_operator [1] [2] (n + 1); demo_operator [4; 2] [3] 1]%nat.
Definition demo_start : Context Endless nat := mkContext ∅ [] ∅ demo_tensors (mkEndless ∅) ∅.
Definition demo_passes : list (bool * list (AsOperator nat)) := [(true, demo_graph 2); (false, demo_graph 3); (true, demo_graph 7)].
Definition demo_shared : Context Endless nat := snd (binding_with_algo_0 demo_visit_list demo_start).

Example demo_run : fst (run_graphs demo_passes demo_shared) = Ok
  [(ALLSPARK_SUCCESS, [[None]; [Some 101]; [Some 102]; [None; Some 103]]);
   (ALLSPARK_SUCCESS, []);
   (ALLSPARK_SUCCESS, [[None]; [Some 101]; [Some 102]; [None; Some 103]])]%nat.
Proof. vm_compute. reflexivity. Qed.

Lemma demo_start_held h : held demo_start h = None.
Proof. exact (demo_held 0 h). Qed.
Lemma demo_start_unbound : unbound demo_start.
Proof. split; try done. split; [intros h p|intros h1 h2 p]; by rewrite demo_start_held. Qed.
Lemma demo_constructed : constructed demo_start.
Proof.
  assert (Hd : forall name, let x := demo_tensor name in
    block_ x = None /\ dense_ok (data_ x) /\ bytes x <= nbytes_ (data_ x)).
  { intros name. split; [done|]. split; [|done]. split; [done|]. split; [by intros []|done]. }
  intros t x Hx. simpl in Hx. unfold demo_tensors in Hx. apply elem_of_list_to_map_2, list_elem_of_In in Hx. simpl in Hx.
  repeat (destruct Hx as [[= <- <-]|Hx]; [apply Hd|]). done.
Qed.
Lemma demo_graph_segment n : segment demo_visit_list 0 (demo_graph n).
Proof. by intros [|[|[|[|k]]]] op [= <-]. Qed.
Lemma demo_placed : Forall (placed demo_visit_list demo_start) demo_passes.
Proof. repeat constructor; exists 0%nat; (split; [apply demo_graph_segment|reflexivity]). Qed.

Lemma reuse_transparent_witness : exists s1 results e0 e1,
  binding_with_algo_0 demo_visit_list demo_start = (Ok tt, s1) /\
  run_graphs demo_passes demo_start = (Ok results, e0) /\ run_graphs demo_passes s1 = (Ok results, e1) /\
  forall t, shareable demo_start t = false -> val e1 (inr t) = val e0 (inr t).
Proof.
  refine (reuse_transparent demo_visit_list demo_start demo_passes endless_reliable demo_known demo_start_unbound
    demo_constructed demo_placed).
Defined.

(** A tensor that one graph writes and the next one reads loses its value when the
    next graph first grows a tensor that has got the same block. *)
Definition split_passes : list (bool * list (AsOperator nat)) :=
  [(true, take 1 (demo_graph 7)); (true, drop 1 (demo_graph 7))].
Lemma growth_between_graphs :
  (fst (run_graphs split_passes demo_start),
   fst (run_graphs split_passes demo_shared)) =
  (Ok [(ALLSPARK_SUCCESS, [[None]]); (ALLSPARK_SUCCESS, [[Some 101]; [Some 102]; [None; Some 103]])],
   Ok [(ALLSPARK_SUCCESS, [[None]]); (ALLSPARK_SUCCESS, [[None]; [Some 101]; [None; Some 102]])])%nat.
Proof. vm_compute. reflexivity. Qed.

(** ** Memory running out *)

(** The shape of a tensor with a block is set with success though there is no
    memory; the next kernel gets a null pointer. *)
Definition starved : Context Heap nat :=
  snd (SetShape 0 [10] (snd (binding_with_algo_0 demo_visit_list (demo_context 0)))).
Lemma failed_growth_succeeds :
  fst (SetShape 0 [10] (snd (binding_with_algo_0 demo_visit_list (demo_context 0)))) = Ok ALLSPARK_SUCCESS /\
  fst (GetSizeInByte 0 starved) = Ok 40 /\ fst (GetDataPtr 0 starved) = Ok None /\ fst (read_tensor 0 starved) = Err UB.
Proof. vm_compute. split_and!; reflexivity. Qed.

(** After a failed [Resize] the data still names the buffer it has freed and its
    destructor frees it again. *)
Lemma failed_resize_frees_twice :
  fst ((d ← DenseData_new 4; '(st, d) ← DenseData_Resize d 8; mret (st, raw_data_ d)) (demo_context 1))
    = Ok (ALLSPARK_MEMORY_ERROR, Some 1%nat) /\
  fst ((d ← DenseData_new 4; '(_, d) ← DenseData_Resize d 8; DenseData_delete d) (demo_context 1)) = Err UB.
Proof. vm_compute. split; reflexivity. Qed.

(** ** The pool *)

(** Blocks grow while they are in the ordered set of the free ones. *)
Lemma growth_disorders_pool : fst (AllocBlock 0 (snd (run_graphs demo_passes demo_shared))) = Err UB.
Proof. vm_compute. reflexivity. Qed.

(** A block of exactly the size is passed over when it lies below the search key. *)
Lemma exact_fit_passed_over : fst (AllocBlock 8 demo_pool) = Ok 2%nat.
Proof. vm_compute. reflexivity. Qed.
End ReuseDemo.
