(* ===== verification/WeightSplit.v ===== *)
(** Splitting weights between ranks (src/csrc/runtime/weight/weight_splitter.cpp,
    weight_loader.cpp, the copies of src/csrc/core/tensor/tensor_utils.cpp): the
    part of a weight that each rank of a tensor-parallel model keeps.  The copies
    are those of host memory. *)
From Stdlib Require Import ZArith ZifyBool Lia.
From stdpp Require Import base list strings.
From S2P Require Import Prelude StringUtil MemoryReuse.

(** * Types *)
Inductive DataType :=
  | DATATYPE_UNDEFINED | FLOAT32 | FLOAT16 | INT8 | INT16 | INT32 | INT64 | STRING
  | BOOL | BFLOAT16 | UINT8 | FLOAT8E4M3 | FLOAT8E5M2 | POINTER.
#[export] Instance DataType_eq_dec : EqDecision DataType.
Proof. solve_decision. Defined.
Definition SizeofType (t : DataType) : Z :=
  match t with
  | POINTER | INT64 => 8
  | FLOAT32 | INT32 => 4
  | FLOAT16 | BFLOAT16 | INT16 => 2
  | INT8 | UINT8 => 1
  | DATATYPE_UNDEFINED => 0
  | _ => 1
  end.

(** The integers of a file are cast to the enumerations. *)
Inductive DataMode := DENSE | CSC | ELL | MODE_OTHER (z : Z).
#[export] Instance DataMode_eq_dec : EqDecision DataMode.
Proof. solve_decision. Defined.
Inductive SplitMode :=
  | NOSPLIT | VSPLIT | HSPLIT | QKVSPLIT | KVSPLIT | HSPLIT_QUANTIZE | GROUP_VSPLIT
  | MQA_VSPLIT | BATCH_VSPLIT | BATCH_HSPLIT | BATCH_KVSPLIT | SPLIT_OTHER (z : Z).
#[export] Instance SplitMode_eq_dec : EqDecision SplitMode.
Proof. solve_decision. Defined.

(** [TensorInfo]; [dtype] stays uninitialised when a header names no known type. *)
Record TensorInfo := mkTensorInfo {
  shape : Shape;
  dtype : option DataType;
  mode : DataMode;
  split_mode : SplitMode;
  nnz : Z;
  group_list : list Z;
}.
Record RankInfo := mkRank { rank_id : Z; rank_size : Z }.

(** A dense [AsTensor] with its buffer; a null buffer has no bytes. *)
Record Tensor := mkT { dtype_ : DataType; shape_ : Shape; data_ : bytes }.

(** What a new buffer holds is not specified. *)
Class Uninit := {
  uninit : nat -> bytes;
  uninit_length n : length (uninit n) = n;
}.

Section split.
Context `{UN : Uninit}.
Abbreviation E := (M Tensor).

(** Arithmetic in [int] must not overflow. *)
Definition int_ (z : Z) : E Z :=
  if (INT32_MIN <=? z) && (z <=? INT32_MAX) then mret z else throw UB.

(** * Tensors *)
Definition nbytes (t : DataType) (sh : Shape) : Z := i64 (Count sh * SizeofType t).
(** [AsTensor]'s constructor, [Free] and [SetShape]; the allocator has memory. *)
Definition Tensor_new (t : DataType) (sh : Shape) : Tensor :=
  mkT t sh (uninit (Z.to_nat (nbytes t sh))).
Definition Free : E unit := modify (fun x => mkT (dtype_ x) (shape_ x) (uninit 1)).
Definition SetShape (sh : Shape) : E unit :=
  modify (fun x =>
    let n := nbytes (dtype_ x) sh in
    mkT (dtype_ x) sh (if n <=? Z.of_nat (length (data_ x)) then data_ x else uninit (Z.to_nat n))).
(** [shape_[i]], from the end for a negative [i]. *)
Definition dim (sh : Shape) (i : Z) : E Z :=
  let j := if i <? 0 then i + Z.of_nat (length sh) else i in
  if (0 <=? j) && (j <? Z.of_nat (length sh)) then mret (nth (Z.to_nat j) sh 0) else throw UB.
Definition GetStrideInByte (x : Tensor) : E Z := w ← dim (shape_ x) (-1); mret (u64 (w * SizeofType (dtype_ x))).

(** [memcpy] between the buffers of two tensors. *)
Definition memcpy (d : Z) (src : bytes) (s n : Z) : E unit := fun x =>
  if (0 <=? d) && (0 <=? s) && (0 <=? n)
     && (d + n <=? Z.of_nat (length (data_ x))) && (s + n <=? Z.of_nat (length src))
  then (Ok tt, mkT (dtype_ x) (shape_ x)
    (take (Z.to_nat d) (data_ x) ++ take (Z.to_nat n) (drop (Z.to_nat s) src) ++ drop (Z.to_nat (d + n)) (data_ x)))
  else (Err UB, x).
(** Comparison in [size_t]. *)
Definition beyond (a b : Z) : bool := u64 b <? u64 a.

Definition DeepCopyVectorPart (dst_col_offset : Z) (src : Tensor) (src_col_offset len : Z) : E unit :=
  dst ← gets id;
  if negb (length (shape_ dst) =? length (shape_ src))%nat || negb (length (shape_ dst) =? 1)%nat
  then AS_THROW ALLSPARK_RUNTIME_ERROR
  else if negb (bool_decide (dtype_ dst = dtype_ src)) then AS_THROW ALLSPARK_RUNTIME_ERROR
  else
    ws ← dim (shape_ src) 0;
    wd ← dim (shape_ dst) 0;
    if beyond (len + src_col_offset) ws || beyond (len + dst_col_offset) wd then AS_THROW ALLSPARK_RUNTIME_ERROR
    else
      let sz := SizeofType (dtype_ dst) in
      memcpy (sz * dst_col_offset) (data_ src) (SizeofType (dtype_ src) * src_col_offset) (len * sz).
Definition DeepCopyVector (src : Tensor) (src_col_offset : Z) : E unit :=
  dst ← gets id;
  if Count (shape_ src) <? Count (shape_ dst) then AS_THROW ALLSPARK_RUNTIME_ERROR
  else w ← dim (shape_ dst) 0; DeepCopyVectorPart 0 src src_col_offset w.

Definition DeepCopyMatrix2DPart (dst_col_offset dst_row_offset : Z) (src : Tensor)
    (src_col_offset src_row_offset region_width region_height : Z) : E unit :=
  dst ← gets id;
  if negb (length (shape_ dst) =? length (shape_ src))%nat || negb (length (shape_ dst) =? 2)%nat
  then AS_THROW ALLSPARK_RUNTIME_ERROR
  else if negb (bool_decide (dtype_ dst = dtype_ src)) then AS_THROW ALLSPARK_RUNTIME_ERROR
  else
    hs ← dim (shape_ src) 0; ws ← dim (shape_ src) 1;
    hd ← dim (shape_ dst) 0; wd ← dim (shape_ dst) 1;
    if beyond (region_height + src_row_offset) hs || beyond (region_width + src_col_offset) ws
       || beyond (region_height + dst_row_offset) hd || beyond (region_width + dst_col_offset) wd
    then AS_THROW ALLSPARK_RUNTIME_ERROR
    else
      dstride ← GetStrideInByte dst;
      sstride ← GetStrideInByte src;
      for_each (seqZ 0 region_height) (fun i =>
        memcpy ((i + dst_row_offset) * dstride + dst_col_offset * SizeofType (dtype_ dst)) (data_ src)
          ((i + src_row_offset) * sstride + src_col_offset * SizeofType (dtype_ src))
          (region_width * SizeofType (dtype_ dst))).
Definition DeepCopyMatrix2D (src : Tensor) (src_col_offset src_row_offset : Z) : E unit :=
  dst ← gets id;
  if Count (shape_ src) <? Count (shape_ dst) then AS_THROW ALLSPARK_RUNTIME_ERROR
  else
    w ← dim (shape_ dst) 1; h ← dim (shape_ dst) 0;
    DeepCopyMatrix2DPart 0 0 src src_col_offset src_row_offset w h.
(** The width is not looked at. *)
Definition CopyMatrix2D (dst_ptr_with_offsets : Z) (src : bytes) (src_ptr_with_offsets dst_stride src_stride
    height width : Z) : E unit :=
  for_each (seqZ 0 height) (fun i =>
    memcpy (dst_ptr_with_offsets + i * dst_stride) src (src_ptr_with_offsets + i * src_stride) (1 * dst_stride)).
Definition Memset (val : Z) : E unit :=
  modify (fun x => mkT (dtype_ x) (shape_ x) (List.repeat val (length (data_ x)))).
Definition ShareData (rhs : Tensor) : E unit :=
  dst ← gets id;
  if negb (bool_decide (shape_ dst = shape_ rhs)) then throw InvalidArgument
  else if negb (bool_decide (dtype_ dst = dtype_ rhs)) then throw InvalidArgument
  else modify (fun x => mkT (dtype_ x) (shape_ x) (data_ rhs)).

(** * The splitters

    One definition per class and method, by what it does for a matrix and for a
    bias; a method that picks the class by the mode of the weight. *)
Definition divides (n w : Z) : bool := Z.rem w n =? 0.

(** The sum of a group list, an [int]; [None] when a group does not divide. *)
Fixpoint group_total (n : Z) (l : list Z) (total_len : Z) : res (option Z) :=
  match l with
  | [] => Ok (Some total_len)
  | g :: l' =>
      if negb (divides n g) then Ok None
      else if (INT32_MIN <=? total_len + g) && (total_len + g <=? INT32_MAX) then group_total n l' (total_len + g)
      else Err UB
  end.
Fixpoint int_sum (l : list Z) (acc : Z) : res Z :=
  match l with
  | [] => Ok acc
  | g :: l' => if (INT32_MIN <=? acc + g) && (acc + g <=? INT32_MAX) then int_sum l' (acc + g) else Err UB
  end.

(** ** May the weight be split?  There is at least one rank. *)
Definition VSplit_IsSplittable (sh : Shape) (n : Z) : bool :=
  match sh with [_; w] | [w] => divides n w | _ => false end.
(** The case of two dimensions falls through to the error. *)
Definition BatchVSplit_IsSplittable (sh : Shape) (n : Z) : bool :=
  match sh with [_; _; w] => divides n w | _ => false end.
Definition BatchKVSplit_IsSplittable (sh : Shape) (n : Z) : bool :=
  match sh with [_; _; w] | [_; w] => divides n w | _ => false end.
Definition HSplit_IsSplittable (sh : Shape) (n : Z) : bool :=
  match sh with [h; _] | [h] => divides n h | _ => false end.
Definition BatchHSplit_IsSplittable (sh : Shape) (n : Z) : bool :=
  match sh with [_; h; _] => divides n h | _ => false end.
Definition Gemm_IsSplittable (batch_gemm_cnt : Z) (sh : Shape) (n : Z) : bool :=
  match sh with [_; w] | [w] => divides (batch_gemm_cnt * n) w | _ => false end.
Definition Group_IsSplittable (info : TensorInfo) (n : Z) : res bool :=
  match group_total n (group_list info) 0 with
  | Err e => Err e
  | Ok None => Ok false
  | Ok (Some total_len) =>
      match shape info with
      | [_; w] | [w] => Ok (divides n w && (w =? total_len))
      | _ => Ok false
      end
  end.
Definition MQA_IsSplittable (info : TensorInfo) (n : Z) : res bool :=
  match group_list info with
  | [g; _; _] =>
      if negb (divides n g) then Ok false
      else match int_sum (group_list info) 0 with
      | Err e => Err e
      | Ok total_len =>
          match shape info with
          | [_; w] | [w] => Ok (w =? total_len)
          | _ => Ok false
          end
      end
  | _ => Ok false
  end.
Definition IsSplittable (info : TensorInfo) (r : RankInfo) : res bool :=
  let n := rank_size r in
  let sh := shape info in
  match split_mode info with
  | NOSPLIT => Ok true
  | VSPLIT => Ok (VSplit_IsSplittable sh n)
  | HSPLIT => Ok (HSplit_IsSplittable sh n)
  | QKVSPLIT => Ok (Gemm_IsSplittable 3 sh n)
  | KVSPLIT => Ok (Gemm_IsSplittable 2 sh n)
  | GROUP_VSPLIT => Group_IsSplittable info n
  | MQA_VSPLIT => MQA_IsSplittable info n
  | BATCH_VSPLIT => Ok (BatchVSplit_IsSplittable sh n)
  | BATCH_HSPLIT => Ok (BatchHSplit_IsSplittable sh n)
  | BATCH_KVSPLIT => Ok (BatchKVSplit_IsSplittable sh n)
  | HSPLIT_QUANTIZE | SPLIT_OTHER _ => Ok false
  end.

(** ** The shape of a part *)
Definition reshape (sh : Shape) : E unit := Free;; SetShape sh.
Definition VSplit_SetShape (sh : Shape) (n : Z) : E unit :=
  match sh with [h; w] => reshape [h; Z.quot w n] | [w] => reshape [Z.quot w n] | _ => mret tt end.
Definition BatchVSplit_SetShape (sh : Shape) (n : Z) : E unit :=
  match sh with [b; h; w] => reshape [b; h; Z.quot w n] | [b; w] => reshape [b; Z.quot w n] | _ => mret tt end.
Definition BatchKVSplit_SetShape (sh : Shape) (n : Z) : E unit :=
  match sh with [b; h; w] => reshape [b; h; Z.quot w n] | [b; w] => reshape [b; Z.quot w n] | _ => mret tt end.
Definition HSplit_SetShape (sh : Shape) (n : Z) : E unit :=
  match sh with [h; w] => reshape [Z.quot h n; w] | [w] => reshape [w] | _ => mret tt end.
Definition BatchHSplit_SetShape (sh : Shape) (n : Z) : E unit :=
  match sh with [b; h; w] => reshape [b; Z.quot h n; w] | _ => mret tt end.
Definition Gemm_SetShape (sh : Shape) (n : Z) : E unit :=
  match sh with [h; w] => reshape [h; Z.quot w n] | [w] => reshape [Z.quot w n] | _ => mret tt end.
Definition Group_SetShape (sh : Shape) (n : Z) : E unit :=
  match sh with [h; w] => reshape [h; Z.quot w n] | [w] => reshape [Z.quot w n] | _ => mret tt end.
Definition MQA_SetShape (info : TensorInfo) (n : Z) : E unit :=
  match group_list info, shape info with
  | g0 :: g1 :: g2 :: _, [h; _] => reshape [h; Z.quot g0 n + g1 + g2]
  | g0 :: g1 :: g2 :: _, [_] => reshape [Z.quot g0 n + g1 + g2]
  | _, ([_; _] | [_]) => throw UB
  | _, _ => mret tt
  end.
Definition set_part_shape (info : TensorInfo) (r : RankInfo) : E unit :=
  let n := rank_size r in
  let sh := shape info in
  match split_mode info with
  | NOSPLIT => SetShape sh
  | VSPLIT => VSplit_SetShape sh n
  | HSPLIT => HSplit_SetShape sh n
  | QKVSPLIT | KVSPLIT => Gemm_SetShape sh n
  | GROUP_VSPLIT => Group_SetShape sh n
  | MQA_VSPLIT => MQA_SetShape info n
  | BATCH_VSPLIT => BatchVSplit_SetShape sh n
  | BATCH_HSPLIT => BatchHSplit_SetShape sh n
  | BATCH_KVSPLIT => BatchKVSplit_SetShape sh n
  | HSPLIT_QUANTIZE | SPLIT_OTHER _ => mret tt
  end.

(** ** Copies of columns *)
Definition copy_vsplit (info : TensorInfo) (r : RankInfo) (whole : Tensor) : E unit :=
  match shape info with
  | [_; w] => DeepCopyMatrix2D whole (u64 (i32 (Z.quot w (rank_size r) * rank_id r))) 0
  | [w] => DeepCopyVector whole (u64 (i32 (Z.quot w (rank_size r) * rank_id r)))
  | _ => mret tt
  end.
Definition copy_hsplit (info : TensorInfo) (r : RankInfo) (whole : Tensor) : E unit :=
  match shape info with
  | [h; _] => DeepCopyMatrix2D whole 0 (u64 (i32 (Z.quot (rank_id r * h) (rank_size r))))
  | [_] => if rank_id r =? 0 then DeepCopyVector whole 0 else Memset 0
  | _ => mret tt
  end.
(** [batch_gemm_cnt] matrices side by side. *)
Definition copy_gemm (batch_gemm_cnt : Z) (info : TensorInfo) (r : RankInfo) (whole : Tensor) : E unit :=
  let n := rank_size r in
  match shape info with
  | [h; w] =>
      let sub_matrix_width := i32 (Z.quot w batch_gemm_cnt) in
      let sub_matrix_height := i32 h in
      for_each (seqZ 0 batch_gemm_cnt) (fun g =>
        let after_div_rank := u64 (Z.quot sub_matrix_width n) in
        base_src_idx ← int_ (g * sub_matrix_width);
        let base_dst_idx := Z.quot base_src_idx n in
        DeepCopyMatrix2DPart (u64 base_dst_idx) 0 whole (u64 (base_src_idx + after_div_rank * rank_id r)) 0
          after_div_rank (u64 sub_matrix_height))
  | [w] =>
      let qkv_sub_width := i32 (Z.quot w batch_gemm_cnt) in
      let copy_len := i32 (Z.quot (Z.quot w n) batch_gemm_cnt) in
      for_each (seqZ 0 batch_gemm_cnt) (fun g =>
        a ← int_ (qkv_sub_width * g);
        b ← int_ (Z.quot qkv_sub_width n * rank_id r);
        src_idx ← int_ (a + b);
        dst_idx ← int_ (g * Z.quot qkv_sub_width n);
        DeepCopyVectorPart (u64 dst_idx) whole (u64 src_idx) (u64 copy_len))
  | _ => mret tt
  end.
(** Groups of the given widths side by side; [prefix_sum] is an [int], the width
    of a group a [size_t]. *)
Fixpoint copy_groups (matrix : bool) (h : Z) (groups : list Z) (prefix_sum : Z) (r : RankInfo) (whole : Tensor) : E unit :=
  match groups with
  | [] => mret tt
  | g :: groups' =>
      let now := u64 g in
      let part := now / rank_size r in
      let src_idx := u64 (prefix_sum + part * rank_id r) in
      let dst_idx := u64 (Z.quot prefix_sum (rank_size r)) in
      (if matrix then DeepCopyMatrix2DPart dst_idx 0 whole src_idx 0 part (u64 (i32 h))
       else DeepCopyVectorPart dst_idx whole src_idx (u64 (i32 part)));;
      copy_groups matrix h groups' (i32 (prefix_sum + now)) r whole
  end.
(** The first group is split, the others are copied whole. *)
Fixpoint copy_mqa (matrix : bool) (h : Z) (first : bool) (groups : list Z) (src_prefix_sum dst_prefix_sum : Z)
    (r : RankInfo) (whole : Tensor) : E unit :=
  match groups with
  | [] => mret tt
  | g :: groups' =>
      let now := u64 (if first then Z.quot g (rank_size r) else g) in
      let src_idx := u64 (if first then src_prefix_sum + now * rank_id r else src_prefix_sum) in
      let dst_idx := u64 dst_prefix_sum in
      (if matrix then DeepCopyMatrix2DPart dst_idx 0 whole src_idx 0 now (u64 (i32 h))
       else DeepCopyVectorPart dst_idx whole src_idx (u64 (i32 now)));;
      src' ← int_ (src_prefix_sum + g);
      copy_mqa matrix h false groups' src' (i32 (dst_prefix_sum + now)) r whole
  end.

(** ** Copies of batches of matrices *)
Definition copy_batch_vsplit_index (g h w : Z) : E Z := a ← int_ (g * h); int_ (a * w).
Definition copy_batch_vsplit (info : TensorInfo) (r : RankInfo) (whole : Tensor) : E unit :=
  let rows batch sub_matrix_height sub_matrix_width :=
    for_each (seqZ 0 batch) (fun g =>
      let after_div_rank := u64 (Z.quot sub_matrix_width (rank_size r)) in
      src ← copy_batch_vsplit_index g sub_matrix_height sub_matrix_width;
      rows ← int_ (g * sub_matrix_height);
      dst ← gets id;
      dstride ← GetStrideInByte dst;
      sstride ← GetStrideInByte whole;
      let sz := SizeofType (dtype_ whole) in
      CopyMatrix2D (u64 (rows * after_div_rank) * sz) (data_ whole) (u64 (src + after_div_rank * rank_id r) * sz)
        dstride sstride sub_matrix_height dstride) in
  match shape info with
  | [b; h; w] => rows (i32 b) (i32 h) (i32 w)
  | [b; w] => rows (i32 b) 1 (i32 w)
  | _ => mret tt
  end.
Definition copy_batch_hsplit (info : TensorInfo) (r : RankInfo) (whole : Tensor) : E unit :=
  match shape info with
  | [b; h; w] =>
      let sub_matrix_width := i32 w in
      let sub_matrix_height := i32 h in
      for_each (seqZ 0 (i32 b)) (fun g =>
        let dst_height := u64 (Z.quot sub_matrix_height (rank_size r)) in
        src ← copy_batch_vsplit_index g sub_matrix_height sub_matrix_width;
        dst ← gets id;
        dstride ← GetStrideInByte dst;
        sstride ← GetStrideInByte whole;
        let sz := SizeofType (dtype_ whole) in
        CopyMatrix2D (u64 (g * dst_height * sub_matrix_width) * sz) (data_ whole)
          (u64 (src + rank_id r * dst_height * sub_matrix_width) * sz) dstride sstride dst_height dstride)
  | _ => mret tt
  end.
Definition copy_batch_kvsplit (info : TensorInfo) (r : RankInfo) (whole : Tensor) : E unit :=
  let rows batch sub_matrix_height sub_matrix_width :=
    for_each (seqZ 0 batch) (fun b => for_each (seqZ 0 2) (fun g =>
      let after_div_rank := u64 (Z.quot sub_matrix_width (rank_size r)) in
      src ← copy_batch_vsplit_index b sub_matrix_height sub_matrix_width;
      src ← int_ (src * 2);
      sub ← int_ (g * sub_matrix_width);
      src ← int_ (src + sub);
      rows ← int_ (b * sub_matrix_height);
      dst ← gets id;
      dstride ← GetStrideInByte dst;
      sstride ← GetStrideInByte whole;
      let sz := SizeofType (dtype_ whole) in
      CopyMatrix2D (u64 (rows * after_div_rank * 2 + g * after_div_rank) * sz) (data_ whole)
        (u64 (src + after_div_rank * rank_id r) * sz) dstride sstride sub_matrix_height (dstride / 2))) in
  match shape info with
  | [b; h; w] => rows (i32 b) (i32 h) (i32 (Z.quot w 2))
  | [b; w] => rows (i32 b) 1 (i32 (Z.quot w 2))
  | _ => mret tt
  end.

Definition CopyWeight (info : TensorInfo) (r : RankInfo) (whole : Tensor) : E unit :=
  let matrix := (length (shape info) =? 2)%nat in
  match split_mode info with
  | NOSPLIT => ShareData whole
  | VSPLIT => copy_vsplit info r whole
  | HSPLIT => copy_hsplit info r whole
  | QKVSPLIT => copy_gemm 3 info r whole
  | KVSPLIT => copy_gemm 2 info r whole
  | GROUP_VSPLIT =>
      match shape info with
      | [_; _] | [_] => copy_groups matrix (hd 0 (shape info)) (group_list info) 0 r whole
      | _ => mret tt
      end
  | MQA_VSPLIT =>
      match shape info with
      | [_; _] | [_] => copy_mqa matrix (hd 0 (shape info)) true (group_list info) 0 0 r whole
      | _ => mret tt
      end
  | BATCH_VSPLIT => copy_batch_vsplit info r whole
  | BATCH_HSPLIT => copy_batch_hsplit info r whole
  | BATCH_KVSPLIT => copy_batch_kvsplit info r whole
  | HSPLIT_QUANTIZE | SPLIT_OTHER _ => mret tt
  end.

(** * Loading

    [DenseWeightLoader::LoadFromMemory]: the bytes of the weight become a whole
    tensor, of which the splitter copies the part of the rank. *)
Definition GetSplitterByMode (m : SplitMode) : E unit :=
  match m with HSPLIT_QUANTIZE | SPLIT_OTHER _ => AS_THROW ALLSPARK_RUNTIME_ERROR | _ => mret tt end.
Definition LoadFromMemory (info : TensorInfo) (r : RankInfo) (ptr : bytes) : E unit :=
  GetSplitterByMode (split_mode info);;
  match IsSplittable info r with
  | Err e => throw e
  | Ok false => AS_THROW ALLSPARK_RUNTIME_ERROR
  | Ok true =>
      match dtype info with
      | None => throw UB
      | Some t =>
          let whole := Tensor_new t (shape info) in
          if (Z.of_nat (length (data_ whole)) <? Z.of_nat (length ptr)) then throw UB
          else
            let whole := mkT t (shape info) (ptr ++ drop (length ptr) (data_ whole)) in
            set_part_shape info r;;
            CopyWeight info r whole
      end
  end.
End split.
