(* ===== verification/WeightProofs.v ===== *)
(** Copies between row-major matrices, and the part of a weight each rank gets. *)
From Stdlib Require Import ZArith ZifyBool Lia.
From stdpp Require Import base list strings.
From S2P Require Import Prelude StringUtil MemoryReuse WeightSplit.

(** * Rows

    A row-major matrix is the concatenation of its rows. *)
Section rows.
Context {X : Type}.
Implicit Types l x r : list X.
Implicit Types rows : list (list X).

Definition slice (s n : nat) l : list X := take n (drop s l).
Definition splice (d : nat) x l : list X := take d l ++ x ++ drop (d + length x) l.
Definition rows_of (w : nat) rows : Prop := Forall (fun r => length r = w) rows.

Lemma length_slice s n l : (s + n <= length l)%nat -> length (slice s n l) = n.
Proof. intros H. unfold slice. rewrite length_take, length_drop. lia. Qed.
Lemma length_splice d x l : (d + length x <= length l)%nat -> length (splice d x l) = length l.
Proof. intros H. unfold splice. rewrite !length_app, length_take, length_drop. lia. Qed.
Lemma length_rows w rows : rows_of w rows -> length (concat rows) = (length rows * w)%nat.
Proof. induction 1 as [|r rows Hr _ IH]; [done|]. simpl. rewrite length_app, IH, Hr. lia. Qed.

Lemma slice_app_r s n l1 l2 : slice (length l1 + s) n (l1 ++ l2) = slice s n l2.
Proof. unfold slice. by rewrite drop_app_add. Qed.
Lemma slice_app_l s n l1 l2 : (s + n <= length l1)%nat -> slice s n (l1 ++ l2) = slice s n l1.
Proof. intros H. unfold slice. rewrite drop_app_le by lia. apply take_app_le. rewrite length_drop. lia. Qed.
Lemma splice_app_r d x l1 l2 : splice (length l1 + d) x (l1 ++ l2) = l1 ++ splice d x l2.
Proof. unfold splice. rewrite take_app_add, <- Nat.add_assoc, drop_app_add. by rewrite <- app_assoc. Qed.
Lemma splice_app_l d x l1 l2 : (d + length x <= length l1)%nat -> splice d x (l1 ++ l2) = splice d x l1 ++ l2.
Proof.
  intros H. unfold splice. rewrite take_app_le, drop_app_le by lia. by rewrite <- !app_assoc.
Qed.

(** A copy inside row [i]. *)
Lemma slice_row w rows tail i r s n :
  rows_of w rows -> rows !! i = Some r -> (s + n <= w)%nat -> slice (i * w + s) n (concat rows ++ tail) = slice s n r.
Proof.
  intros Hr. revert i. induction Hr as [|r0 rows Hw Hr IH]; intros i Hi Hle; [done|]. simpl. rewrite <- app_assoc.
  destruct i as [|i]; simpl in Hi.
  - simplify_eq. simpl. by apply slice_app_l.
  - replace (S i * w + s)%nat with (length r0 + (i * w + s))%nat by lia. rewrite slice_app_r. by apply IH.
Qed.
Lemma splice_row w rows i r d x :
  rows_of w rows -> rows !! i = Some r -> (d + length x <= w)%nat ->
  splice (i * w + d) x (concat rows) = concat (<[i := splice d x r]> rows).
Proof.
  intros Hr. revert i. induction Hr as [|r0 rows Hw Hr IH]; intros i Hi Hle; [done|].
  destruct i as [|i]; simpl in Hi.
  - simplify_eq. simpl. by apply splice_app_l.
  - cbn [concat]. replace (S i * w + d)%nat with (length r0 + (i * w + d))%nat by lia. rewrite splice_app_r. simpl. f_equal. by apply IH.
Qed.

(** Copying a column block row by row. *)
Definition copy_columns (d s n : nat) (dst src : list (list X)) : list (list X) :=
  zip_with (fun dr sr => splice d (slice s n sr) dr) dst src.

Lemma copy_columns_step d s n dst src i dr sr :
  dst !! i = Some dr -> src !! i = Some sr -> length dst = length src ->
  copy_columns d s n (take (S i) dst) (take (S i) src) ++ drop (S i) dst =
  <[i := splice d (slice s n sr) dr]> (copy_columns d s n (take i dst) (take i src) ++ drop i dst).
Proof.
  intros Hd Hs Hl. unfold copy_columns. rewrite (take_S_r dst i dr), (take_S_r src i sr) by done.
  assert (Hi := lookup_lt_Some _ _ _ Hd).
  rewrite zip_with_app by (rewrite !length_take; lia). rewrite <- app_assoc. simpl.
  rewrite (drop_S dst dr i) by done. set (l := zip_with _ _ _).
  assert (Hlen : length l = i) by (unfold l; rewrite length_zip_with, !length_take; lia).
  assert (Hins : forall y z rest, <[i := y]> (l ++ z :: rest) = l ++ y :: rest).
  { intros y z rest. rewrite insert_app_r_alt by lia. by rewrite Hlen, Nat.sub_diag. }
  by rewrite Hins.
Qed.
End rows.

(** * The loops of the copies *)
Lemma memcpy_run d src s n t sh data :
  (d + n <= length data)%nat -> (s + n <= length src)%nat ->
  memcpy (Z.of_nat d) src (Z.of_nat s) (Z.of_nat n) (mkT t sh data) = (Ok tt, mkT t sh (splice d (slice s n src) data)).
Proof.
  intros Hd Hs. unfold memcpy, splice, slice. simpl.
  replace (_ && _ && _ && _ && _) with true by lia. rewrite <- Nat2Z.inj_add, !Nat2Z.id.
  do 4 f_equal. f_equal. rewrite length_take, length_drop. lia.
Qed.

(** Rows [rd] to [rd + h] of [dst] get the columns of rows [rs] to [rs + h] of [src]. *)
Definition copy_region {X} (d s n rd rs h : nat) (dst src : list (list X)) : list (list X) :=
  take rd dst ++ copy_columns d s n (slice rd h dst) (slice rs h src) ++ drop (rd + h) dst.

Lemma copy_columns_rows {X} d s n wd ws (dst src : list (list X)) :
  rows_of wd dst -> rows_of ws src -> (d + n <= wd)%nat -> (s + n <= ws)%nat ->
  rows_of wd (copy_columns d s n dst src).
Proof.
  intros Hd. revert src. induction Hd as [|r dst Hr _ IH]; intros src Hs H1 H2; [constructor|].
  destruct Hs as [|r' src Hr' Hs]; simpl; constructor; [|by apply IH].
  rewrite length_splice; [done|]. rewrite length_slice; lia.
Qed.

Lemma rows_of_slice {X} w s n (rows : list (list X)) : rows_of w rows -> rows_of w (slice s n rows).
Proof. intros H. by apply Forall_take, Forall_drop. Qed.

(** The region after [i] of its rows. *)
Section region.
Context {X : Type}.
Variables (d s n rd rs h wd ws : nat) (dst src : list (list X)).
Variables (Hdst : rows_of wd dst) (Hsrc : rows_of ws src) (Hrd : (rd + h <= length dst)%nat) (Hrs : (rs + h <= length src)%nat).
Variables (Hdn : (d + n <= wd)%nat) (Hsn : (s + n <= ws)%nat).
Definition region_rows (i : nat) : list (list X) :=
  take rd dst ++ (copy_columns d s n (take i (slice rd h dst)) (take i (slice rs h src)) ++ drop i (slice rd h dst)) ++ drop (rd + h) dst.

Lemma region_rows_start : region_rows 0 = dst.
Proof.
  unfold region_rows. simpl. unfold slice. trans (take rd dst ++ drop rd dst); [|apply take_drop]. f_equal.
  rewrite <- drop_drop. apply take_drop.
Qed.
Lemma region_rows_end : region_rows h = copy_region d s n rd rs h dst src.
Proof.
  assert (HlD := length_slice rd h dst Hrd). assert (HlS := length_slice rs h src Hrs).
  unfold region_rows, copy_region. rewrite (drop_ge (slice rd h dst)), app_nil_r by lia.
  by rewrite (take_ge (slice rd h dst)), (take_ge (slice rs h src)) by lia.
Qed.
Lemma region_rows_of i : rows_of wd (region_rows i).
Proof.
  unfold region_rows. apply Forall_app. split; [by apply Forall_take|]. apply Forall_app. split; [|by apply Forall_drop].
  apply Forall_app. split; [|by apply Forall_drop, rows_of_slice].
  apply (copy_columns_rows d s n wd ws); [by apply Forall_take, rows_of_slice|by apply Forall_take, rows_of_slice|done..].
Qed.
(** Row [rd + i] is the next to be written. *)
Lemma region_rows_step i : (i < h)%nat ->
  exists dr sr, region_rows i !! (rd + i)%nat = Some dr /\ src !! (rs + i)%nat = Some sr /\
    region_rows (S i) = <[(rd + i)%nat := splice d (slice s n sr) dr]> (region_rows i).
Proof.
  intros Hi. unfold region_rows. set (D := slice rd h dst). set (Sr := slice rs h src).
  assert (HlD : length D = h) by by apply length_slice. assert (HlS : length Sr = h) by by apply length_slice.
  destruct (lookup_lt_is_Some_2 D i) as [dr Hdr]; [lia|]. destruct (lookup_lt_is_Some_2 Sr i) as [sr Hsr]; [lia|].
  assert (Hl1 : length (take rd dst) = rd) by (rewrite length_take; lia).
  assert (Hl2 : length (copy_columns d s n (take i D) (take i Sr)) = i).
  { unfold copy_columns. rewrite length_zip_with, !length_take. lia. }
  exists dr, sr. split_and!.
  - rewrite lookup_app_r by lia. rewrite Hl1, lookup_app_l by (rewrite length_app, length_drop; lia).
    rewrite lookup_app_r by lia. rewrite Hl2, lookup_drop. by replace (i + (rd + i - rd - i))%nat with i by lia.
  - unfold Sr, slice in Hsr. apply lookup_take_Some in Hsr as [Hsr _]. by rewrite lookup_drop in Hsr.
  - rewrite (copy_columns_step d s n D Sr i dr sr) by (try done; lia).
    rewrite (insert_app_r_alt (take rd dst)) by lia. f_equal. rewrite Hl1.
    replace (rd + i - rd)%nat with i by lia. by rewrite (insert_app_l (_ ++ drop i D)) by (rewrite length_app, length_drop; lia).
Qed.
End region.

Lemma copy_loop (body : Z -> M Tensor unit) d s n rd rs h wd ws (dst src : list bytes) tl t sh :
  (forall i x, (i < h)%nat -> body (Z.of_nat i) x =
     memcpy (Z.of_nat ((rd + i) * wd + d)) (concat src ++ tl) (Z.of_nat ((rs + i) * ws + s)) (Z.of_nat n) x) ->
  rows_of wd dst -> rows_of ws src -> (rd + h <= length dst)%nat -> (rs + h <= length src)%nat ->
  (d + n <= wd)%nat -> (s + n <= ws)%nat ->
  for_each (seqZ 0 (Z.of_nat h)) body (mkT t sh (concat dst)) =
  (Ok tt, mkT t sh (concat (copy_region d s n rd rs h dst src))).
Proof.
  intros Hbody Hd Hs Hrd Hrs Hdn Hsn.
  set (st := fun i => mkT t sh (concat (region_rows d s n rd rs h dst src i))).
  assert (Hlen : length (seqZ 0 (Z.of_nat h)) = h) by (rewrite length_seqZ; lia).
  assert (Hend : st h = mkT t sh (concat (copy_region d s n rd rs h dst src))) by (unfold st; by erewrite region_rows_end by done).
  assert (Hstart : st 0%nat = mkT t sh (concat dst)) by (unfold st; by erewrite region_rows_start by done).
  rewrite <- Hend, <- Hstart.
  trans (Ok tt, st (length (seqZ 0 (Z.of_nat h)))); [|by rewrite Hlen]. apply (for_each_run _ body st). intros i z Hi.
  assert (Hih := lookup_lt_Some _ _ _ Hi). rewrite Hlen in Hih.
  apply lookup_seqZ in Hi as [-> _]. rewrite Z.add_0_l, Hbody by done.
  assert (Hrow : exists dr sr, region_rows d s n rd rs h dst src i !! (rd + i)%nat = Some dr /\ src !! (rs + i)%nat = Some sr /\
    region_rows d s n rd rs h dst src (S i) = <[(rd + i)%nat := splice d (slice s n sr) dr]> (region_rows d s n rd rs h dst src i))
    by by eapply region_rows_step.
  destruct Hrow as (dr & sr & Hdr & Hsr & Hstep).
  assert (Hrows : rows_of wd (region_rows d s n rd rs h dst src i)) by by eapply region_rows_of.
  assert (Hlsr : length (slice s n sr) = n).
  { apply length_slice. rewrite (proj1 (Forall_lookup _ _) Hs _ _ Hsr). lia. }
  unfold st. rewrite Hstep, memcpy_run.
  - rewrite (slice_row ws src tl (rs + i) sr s n Hs Hsr Hsn).
    by rewrite (splice_row wd _ (rd + i) dr) by (try done; lia).
  - rewrite (length_rows wd _ Hrows). assert (Hl := lookup_lt_Some _ _ _ Hdr). nia.
  - rewrite length_app, (length_rows ws src Hs). nia.
Qed.

(** * Copies between tensors *)
Definition small (n : nat) : Prop := Z.of_nat n < 2 ^ 31.

Lemma u64_nat n : Z.of_nat n < 2 ^ 64 -> u64 (Z.of_nat n) = Z.of_nat n.
Proof. intros H. apply u64_small. lia. Qed.
Lemma i32_nat n : small n -> i32 (Z.of_nat n) = Z.of_nat n.
Proof. intros H. apply i32_small. unfold small in H. lia. Qed.
Lemma beyond_false a b : 0 <= a <= b -> b < 2 ^ 64 -> beyond a b = false.
Proof. intros H1 H2. unfold beyond. rewrite !u64_small by lia. lia. Qed.
Lemma SizeofType_nat t : exists sz, SizeofType t = Z.of_nat sz /\ (sz <= 8)%nat.
Proof. exists (Z.to_nat (SizeofType t)). destruct t; cbn; lia. Qed.

Lemma stride_run t sz h w data (x : Tensor) :
  SizeofType t = Z.of_nat sz -> (sz <= 8)%nat -> small w ->
  GetStrideInByte (mkT t [h; Z.of_nat w] data) x = (Ok (Z.of_nat (w * sz)), x).
Proof.
  intros Hsz Hle Hw. unfold GetStrideInByte. rewrite (bind_ok _ _ x x (Z.of_nat w) eq_refl). simpl.
  rewrite Hsz, <- Nat2Z.inj_mul, u64_nat; [done|]. unfold small in Hw. nia.
Qed.

Lemma matrix_part_run d rd s rs n h t sz hd wd hs ws (dst src : list bytes) tl :
  SizeofType t = Z.of_nat sz -> (sz <= 8)%nat -> small hd -> small wd -> small hs -> small ws ->
  rows_of (wd * sz) dst -> length dst = hd -> rows_of (ws * sz) src -> length src = hs ->
  (rd + h <= hd)%nat -> (d + n <= wd)%nat -> (rs + h <= hs)%nat -> (s + n <= ws)%nat ->
  DeepCopyMatrix2DPart (Z.of_nat d) (Z.of_nat rd) (mkT t [Z.of_nat hs; Z.of_nat ws] (concat src ++ tl))
    (Z.of_nat s) (Z.of_nat rs) (Z.of_nat n) (Z.of_nat h) (mkT t [Z.of_nat hd; Z.of_nat wd] (concat dst)) =
  (Ok tt, mkT t [Z.of_nat hd; Z.of_nat wd] (concat (copy_region (d * sz) (s * sz) (n * sz) rd rs h dst src))).
Proof.
  intros Hsz Hle Hhd Hwd Hhs Hws Hdst Hld Hsrc Hls H1 H2 H3 H4. unfold DeepCopyMatrix2DPart.
  set (S := mkT t _ (concat src ++ tl)). set (D := mkT t _ (concat dst)).
  rewrite (bind_ok (gets id) _ D D D eq_refl). cbv beta. cbn [shape_ S D dtype_ length Nat.eqb negb orb].
  rewrite bool_decide_true by done. cbn [negb].
  rewrite (bind_ok _ _ D D (Z.of_nat hs) eq_refl), (bind_ok _ _ D D (Z.of_nat ws) eq_refl).
  rewrite (bind_ok _ _ D D (Z.of_nat hd) eq_refl), (bind_ok _ _ D D (Z.of_nat wd) eq_refl).
  unfold small in *. rewrite !beyond_false by lia. cbn [orb].
  rewrite (bind_ok _ _ _ _ _ (stride_run t sz (Z.of_nat hd) wd (concat dst) D Hsz Hle Hwd)), (bind_ok _ _ _ _ _ (stride_run t sz (Z.of_nat hs) ws (concat src ++ tl) D Hsz Hle Hws)).
  apply (copy_loop _ (d * sz) (s * sz) (n * sz) rd rs h (wd * sz) (ws * sz) dst src tl); try done; try lia; try nia.
  intros i x Hi. rewrite Hsz. f_equal; lia.
Qed.

(** ** A matrix or a bias

    A bias is a matrix of one row. *)
Definition tshape (m : bool) (h w : nat) : Shape := if m then [Z.of_nat h; Z.of_nat w] else [Z.of_nat w].
Definition copy_part (m : bool) (d : Z) (src : Tensor) (s n h : Z) : M Tensor unit :=
  if m then DeepCopyMatrix2DPart d 0 src s 0 n h else DeepCopyVectorPart d src s n.

Lemma copy_region_all {X} d s n h (dst src : list (list X)) :
  length dst = h -> length src = h -> copy_region d s n 0 0 h dst src = copy_columns d s n dst src.
Proof.
  intros H1 H2. unfold copy_region, slice. rewrite !drop_0, take_0. rewrite (drop_ge dst) by lia.
  rewrite app_nil_r. by rewrite !take_ge by lia.
Qed.

Lemma vector_part_run d s n t sz wd ws (dr sr tl : bytes) :
  SizeofType t = Z.of_nat sz -> (sz <= 8)%nat -> small wd -> small ws ->
  length dr = (wd * sz)%nat -> length sr = (ws * sz)%nat -> (d + n <= wd)%nat -> (s + n <= ws)%nat ->
  DeepCopyVectorPart (Z.of_nat d) (mkT t [Z.of_nat ws] (sr ++ tl)) (Z.of_nat s) (Z.of_nat n) (mkT t [Z.of_nat wd] dr) =
  (Ok tt, mkT t [Z.of_nat wd] (splice (d * sz) (slice (s * sz) (n * sz) sr) dr)).
Proof.
  intros Hsz Hle Hwd Hws Hd Hs H1 H2. unfold DeepCopyVectorPart. set (x := mkT t [Z.of_nat wd] dr).
  rewrite (bind_ok (gets id) _ x x x eq_refl). cbv beta. cbn [shape_ x dtype_ length Nat.eqb negb orb].
  rewrite bool_decide_true by done. cbn [negb].
  rewrite (bind_ok _ _ x x (Z.of_nat ws) eq_refl), (bind_ok _ _ x x (Z.of_nat wd) eq_refl).
  unfold small in *. rewrite !beyond_false by lia. cbn [orb]. cbv zeta. rewrite Hsz, <- !Nat2Z.inj_mul. cbn [data_].
  unfold x. rewrite !(Nat.mul_comm sz). rewrite memcpy_run.
  - by rewrite slice_app_l by nia.
  - rewrite Hd. nia.
  - rewrite length_app, Hs. nia.
Qed.

Lemma part_run m d s n t sz h wd ws (dst src : list bytes) tl :
  SizeofType t = Z.of_nat sz -> (sz <= 8)%nat -> small h -> small wd -> small ws -> (m = false -> h = 1%nat) ->
  rows_of (wd * sz) dst -> length dst = h -> rows_of (ws * sz) src -> length src = h ->
  (d + n <= wd)%nat -> (s + n <= ws)%nat ->
  copy_part m (Z.of_nat d) (mkT t (tshape m h ws) (concat src ++ tl)) (Z.of_nat s) (Z.of_nat n) (Z.of_nat h)
    (mkT t (tshape m h wd) (concat dst)) =
  (Ok tt, mkT t (tshape m h wd) (concat (copy_columns (d * sz) (s * sz) (n * sz) dst src))).
Proof.
  intros Hsz Hle Hh Hwd Hws Hm Hdst Hld Hsrc Hls H1 H2. unfold copy_part, tshape. destruct m.
  - change 0 with (Z.of_nat 0). rewrite (matrix_part_run d 0 s 0 n h t sz h wd h ws dst src tl); try done; try lia.
    by rewrite copy_region_all.
  - rewrite Hm in * by done. destruct dst as [|dr [|]]; try done. destruct src as [|sr [|]]; try done.
    simpl. rewrite !app_nil_r. apply vector_part_run; try done.
    + by inversion Hdst.
    + by inversion Hsrc.
Qed.

(** * Parts of rows

    Segments of a row: where they start and how long they are. *)
Definition row_part (sz : nat) (segs : list (nat * nat)) (r : bytes) : bytes :=
  concat ((fun '(s, n) => slice (s * sz) (n * sz) r) <$> segs).
Definition seg_width (segs : list (nat * nat)) : nat := sum_list (snd <$> segs).
Definition segs_in (w : nat) (segs : list (nat * nat)) : Prop := Forall (fun '(s, n) => s + n <= w)%nat segs.

Lemma length_row_part sz segs w r :
  segs_in w segs -> length r = (w * sz)%nat -> length (row_part sz segs r) = (seg_width segs * sz)%nat.
Proof.
  intros Hs Hr. induction Hs as [|[s n] segs Hn _ IH]; [done|]. unfold row_part, seg_width in *. cbn.
  rewrite length_app, IH, length_slice; [lia|nia].
Qed.
Lemma row_part_app sz l1 l2 r : row_part sz (l1 ++ l2) r = row_part sz l1 r ++ row_part sz l2 r.
Proof. unfold row_part. by rewrite fmap_app, concat_app. Qed.
Lemma seg_width_app l1 l2 : seg_width (l1 ++ l2) = (seg_width l1 + seg_width l2)%nat.
Proof. unfold seg_width. by rewrite fmap_app, sum_list_with_app. Qed.

(** The rows of [dst] start with the segments of those of [src]. *)
Definition filled (sz : nat) (segs : list (nat * nat)) (src dst : list bytes) : Prop :=
  Forall2 (fun sr dr => exists rest, dr = row_part sz segs sr ++ rest) src dst.

Lemma filled_nil sz src dst : length src = length dst -> filled sz [] src dst.
Proof.
  intros H. apply Forall2_same_length_lookup_2; [done|]. intros i x y _ _. by exists y.
Qed.
Lemma filled_step sz segs s n w (src dst : list bytes) :
  rows_of (w * sz) src -> segs_in w segs -> (s + n <= w)%nat -> filled sz segs src dst ->
  filled sz (segs ++ [(s, n)]) src (copy_columns (seg_width segs * sz) (s * sz) (n * sz) dst src).
Proof.
  intros Hsrc Hin Hn Hf. induction Hf as [|sr dr src dst [rest ->] _ IH]; [constructor|].
  inversion Hsrc as [|? ? Hsr Hsrc']; subst. simpl. constructor; [|by apply IH].
  exists (drop (n * sz) rest). rewrite row_part_app. unfold row_part at 3. cbn. rewrite app_nil_r, <- app_assoc.
  replace (seg_width segs * sz)%nat with (length (row_part sz segs sr) + 0)%nat
    by (rewrite (length_row_part sz segs w sr) by done; lia).
  rewrite splice_app_r. f_equal. unfold splice. rewrite length_slice by nia. done.
Qed.
Lemma filled_done sz segs w wd (src dst : list bytes) :
  rows_of (w * sz) src -> rows_of (wd * sz) dst -> segs_in w segs -> seg_width segs = wd -> filled sz segs src dst ->
  dst = row_part sz segs <$> src.
Proof.
  intros Hsrc Hdst Hin Hw Hf. induction Hf as [|sr dr src dst [rest ->] _ IH]; [done|].
  inversion Hsrc as [|? ? Hsr]; inversion Hdst as [|? ? Hl]; subst. simpl. f_equal; [|by apply IH].
  rewrite length_app, (length_row_part sz segs w sr) in Hl by done.
  destruct rest; [by rewrite app_nil_r|simpl in Hl; lia].
Qed.

(** ** The segments of a rank

    Groups of columns, each divided evenly between [n] ranks. *)
Fixpoint even_segments (n k off : nat) (widths : list nat) : list (nat * nat) :=
  match widths with
  | [] => []
  | g :: widths' => (off + k * (g / n), g / n)%nat :: even_segments n k (off + g) widths'
  end.
Fixpoint whole_segments (off : nat) (widths : list nat) : list (nat * nat) :=
  match widths with [] => [] | g :: widths' => (off, g) :: whole_segments (off + g) widths' end.
Definition divisible (n : nat) (widths : list nat) : Prop := Forall (fun g => (n | g)%nat) widths.

Lemma even_segments_app n k off l1 l2 :
  even_segments n k off (l1 ++ l2) = even_segments n k off l1 ++ even_segments n k (off + sum_list l1) l2.
Proof.
  revert off. induction l1 as [|g l1 IH]; intros off; simpl; [by rewrite Nat.add_0_r|].
  rewrite IH. by rewrite Nat.add_assoc.
Qed.
Lemma even_segments_in n k off widths :
  (k < n)%nat -> divisible n widths -> segs_in (off + sum_list widths) (even_segments n k off widths).
Proof.
  intros Hk Hd. revert off. induction Hd as [|g widths [q ->] _ IH]; intros off; simpl; constructor.
  - rewrite Nat.div_mul by lia. nia.
  - eapply Forall_impl; [apply (IH (off + q * n)%nat)|]. intros [s w] H. lia.
Qed.
Lemma even_segments_width n k off widths :
  (0 < n)%nat -> divisible n widths -> seg_width (even_segments n k off widths) = (sum_list widths / n)%nat.
Proof.
  intros Hn Hd. revert off. induction Hd as [|g widths [q ->] Hd IH]; intros off; simpl.
  - unfold seg_width. simpl. by rewrite Nat.Div0.div_0_l.
  - unfold seg_width in *. cbn. rewrite IH. rewrite Nat.div_mul by lia.
    rewrite (Nat.add_comm (q * n)), Nat.div_add by lia. lia.
Qed.
Lemma whole_segments_in off widths : segs_in (off + sum_list widths) (whole_segments off widths).
Proof.
  revert off. induction widths as [|g widths IH]; intros off; simpl; constructor; [lia|].
  eapply Forall_impl; [apply (IH (off + g)%nat)|]. intros [s w] H. lia.
Qed.
Lemma whole_segments_width off widths : seg_width (whole_segments off widths) = sum_list widths.
Proof. revert off. induction widths as [|g widths IH]; intros off; [done|]. unfold seg_width in *. cbn. by rewrite IH. Qed.

Lemma quot_nat a b : (0 < b)%nat -> Z.quot (Z.of_nat a) (Z.of_nat b) = Z.of_nat (a / b).
Proof. intros H. rewrite Z.quot_div_nonneg by lia. by rewrite Nat2Z.inj_div. Qed.
Lemma divides_nat n w : (0 < n)%nat -> divides (Z.of_nat n) (Z.of_nat w) = bool_decide ((n | w)%nat).
Proof.
  intros Hn. unfold divides. rewrite Z.rem_mod_nonneg by lia. rewrite <- Nat2Z.inj_mod.
  apply eq_bool_prop_intro. rewrite bool_decide_spec, Is_true_true, Z.eqb_eq.
  rewrite <- Nat.Lcm0.mod_divide. lia.
Qed.

Lemma int_ok z (x : Tensor) : - 2 ^ 31 <= z < 2 ^ 31 -> int_ z x = (Ok z, x).
Proof. intros H. unfold int_, INT32_MIN, INT32_MAX. by replace (_ && _) with true by lia. Qed.

(** ** The copies of a group list *)
Section copies.
Variables (m : bool) (t : DataType) (sz h n k ws : nat) (src : list bytes) (tl : bytes).
Variables (Hsz : SizeofType t = Z.of_nat sz) (Hle : (sz <= 8)%nat) (Hh : small h) (Hws : small ws).
Variables (Hm : m = false -> h = 1%nat) (Hk : (k < n)%nat) (Hn : small n).
Variables (Hsrc : rows_of (ws * sz) src) (Hls : length src = h).
Abbreviation rank := (mkRank (Z.of_nat k) (Z.of_nat n)).
Abbreviation whole := (mkT t (tshape m h ws) (concat src ++ tl)).

(** The part being filled. *)
Definition filling (wd : nat) (segs : list (nat * nat)) (x : Tensor) : Prop :=
  exists dst, x = mkT t (tshape m h wd) (concat dst) /\ rows_of (wd * sz) dst /\ filled sz segs src dst.

Lemma filling_step wd segs s l x :
  small wd -> segs_in ws segs -> (s + l <= ws)%nat -> (seg_width segs + l <= wd)%nat -> filling wd segs x ->
  exists y, copy_part m (Z.of_nat (seg_width segs)) whole (Z.of_nat s) (Z.of_nat l) (Z.of_nat h) x = (Ok tt, y) /\
    filling wd (segs ++ [(s, l)]) y.
Proof.
  intros Hwd Hin Hs Hl (dst & -> & Hd & Hf). assert (Hlen := Forall2_length _ _ _ Hf).
  eexists. split; [apply (part_run m _ _ _ t sz h wd ws); try done; lia|].
  eexists. split; [done|]. split.
  - apply (copy_columns_rows _ _ _ (wd * sz) (ws * sz)); try done; nia.
  - by apply (filled_step _ _ _ _ ws).
Qed.

Lemma small_le a b : (a <= b)%nat -> small b -> small a.
Proof. unfold small. lia. Qed.
Lemma div_le_nat a : (a / n <= a)%nat.
Proof. apply Nat.Div0.div_le_upper_bound. nia. Qed.

(** The step of the loops, in their integer types. *)
Lemma part_cast d s l x : small d -> small s -> small l ->
  (if m then DeepCopyMatrix2DPart (u64 (Z.of_nat d)) 0 whole (u64 (Z.of_nat s)) 0 (Z.of_nat l) (u64 (i32 (Z.of_nat h)))
   else DeepCopyVectorPart (u64 (Z.of_nat d)) whole (u64 (Z.of_nat s)) (u64 (i32 (Z.of_nat l)))) x =
  copy_part m (Z.of_nat d) whole (Z.of_nat s) (Z.of_nat l) (Z.of_nat h) x.
Proof.
  intros Hd Hs Hl. unfold small in *. rewrite !i32_nat by done. rewrite !u64_nat by lia. by destruct m.
Qed.

Lemma copy_groups_filling wd groups segs p x :
  small wd -> divisible n groups -> (n | p)%nat -> seg_width segs = (p / n)%nat -> segs_in ws segs ->
  (p + sum_list groups <= ws)%nat -> ((p + sum_list groups) / n <= wd)%nat -> filling wd segs x ->
  exists y, copy_groups m (Z.of_nat h) (Z.of_nat <$> groups) (Z.of_nat p) rank whole x = (Ok tt, y) /\
    filling wd (segs ++ even_segments n k p groups) y.
Proof.
  intros Hwd Hdiv. revert p segs x. induction Hdiv as [|g groups [q ->] Hdiv IH]; intros p segs x [r ->] Hw Hin Hp Hpw Hf.
  - exists x. split; [done|]. by rewrite app_nil_r.
  - simpl in Hp. cbn [copy_groups fmap list_fmap rank_size rank_id] in *.
    assert (Hws' := Hws). unfold small in Hws', Hn.
    rewrite Nat.div_mul in Hw by lia.
    rewrite (u64_nat (q * n)) by lia. rewrite <- Nat2Z.inj_div, Nat.div_mul by lia.
    rewrite quot_nat, Nat.div_mul by lia. rewrite <- Nat2Z.inj_mul, <- !Nat2Z.inj_add.
    rewrite i32_nat by (unfold small; lia).
    assert (Hle2 : (r + q <= wd)%nat).
    { transitivity ((r * n + (q * n + sum_list groups)) / n)%nat; [|done].
      replace (r * n + (q * n + sum_list groups))%nat with (sum_list groups + (r + q) * n)%nat by lia.
      rewrite Nat.div_add by lia. lia. }
    assert (Hkq : (q * k + q <= q * n)%nat) by nia.
    destruct (filling_step wd segs (r * n + q * k) q x) as (y & Hy & Hfy); [done..|nia|lia|done|].
    rewrite Hw in Hy. rewrite (bind_ok _ _ x y tt).
    2: { rewrite part_cast; [exact Hy|..]; unfold small in *; nia. }
    destruct (IH (r * n + q * n)%nat (segs ++ [(r * n + q * k, q)%nat]) y) as (z & Hz & Hfz); try done.
    + exists (r + q)%nat. lia.
    + rewrite seg_width_app, Hw. unfold seg_width. cbn. replace (r * n + q * n)%nat with ((r + q) * n)%nat by lia.
      rewrite Nat.div_mul by lia. lia.
    + apply Forall_app. split; [done|]. repeat constructor. nia.
    + lia.
    + by rewrite <- Nat.add_assoc.
    + exists z. split; [exact Hz|]. simpl. rewrite Nat.div_mul by lia. rewrite (Nat.mul_comm k).
      by rewrite <- app_assoc in Hfz.
Qed.

(** The columns of equally wide groups. *)
Lemma even_loop cnt q (body : Z -> M Tensor unit) wd x :
  small wd -> (cnt * q <= wd)%nat -> (cnt * (q * n) <= ws)%nat ->
  (forall g y, (g < cnt)%nat -> body (Z.of_nat g) y =
     copy_part m (Z.of_nat (g * q)) whole (Z.of_nat (g * (q * n) + q * k)) (Z.of_nat q) (Z.of_nat h) y) ->
  filling wd [] x ->
  exists y, for_each (seqZ 0 (Z.of_nat cnt)) body x = (Ok tt, y) /\
    filling wd (even_segments n k 0 (repeat (q * n)%nat cnt)) y.
Proof.
  intros Hwd Hcq Hcn Hbody Hf.
  assert (Hdiv : forall j, divisible n (repeat (q * n)%nat j)) by (intros j; induction j; constructor; [by exists q|done]).
  assert (Hsum : forall j, sum_list (repeat (q * n)%nat j) = (j * (q * n))%nat) by (intros j; induction j as [|j IH]; [done|]; simpl; rewrite IH; lia).
  assert (Hloop : forall j i y, (i + j = cnt)%nat -> filling wd (even_segments n k 0 (repeat (q * n)%nat i)) y ->
    exists z, for_each (Z.of_nat <$> seq i j) body y = (Ok tt, z) /\
      filling wd (even_segments n k 0 (repeat (q * n)%nat cnt)) z).
  { induction j as [|j IH]; intros i y Hij Hy.
    - exists y. split; [done|]. by replace cnt with i by lia.
    - assert (Hseg : seg_width (even_segments n k 0 (repeat (q * n)%nat i)) = (i * q)%nat).
      { rewrite even_segments_width, Hsum by (try apply Hdiv; lia). by rewrite Nat.mul_assoc, Nat.div_mul by lia. }
      assert (Hkq : (q * k + q <= q * n)%nat) by nia. assert (Hi : ((i + 1) * (q * n) <= ws)%nat) by nia.
      destruct (filling_step wd (even_segments n k 0 (repeat (q * n)%nat i)) (i * (q * n) + q * k) q y) as (z & Hz & Hfz).
      + done.
      + eapply Forall_impl; [apply (even_segments_in n k 0 (repeat (q * n)%nat i)); [done|apply Hdiv]|].
        intros [s w] Hsw. rewrite Hsum in Hsw. nia.
      + nia.
      + rewrite Hseg. nia.
      + done.
      + rewrite Hseg in Hz. destruct (IH (S i) z) as (z' & Hz' & Hfz'); [lia| |].
        * replace (S i) with (i + 1)%nat by lia. rewrite repeat_app, even_segments_app, Hsum. simpl.
          rewrite Nat.div_mul by lia. by rewrite (Nat.mul_comm k).
        * exists z'. split; [|done]. simpl. rewrite (bind_ok _ _ y z tt); [done|]. by rewrite Hbody by lia. }
  destruct (Hloop cnt 0%nat x) as (y & Hy & Hfy); [done|done|]. exists y. split; [|done]. rewrite <- Hy. f_equal.
  unfold seqZ. rewrite Nat2Z.id. apply list_fmap_ext. intros; lia.
Qed.

(** The copies of the classes that split columns. *)
Lemma vsplit_filling q x :
  (q * n <= ws)%nat -> filling q [] x ->
  exists y, (if m then DeepCopyMatrix2D whole (u64 (i32 (Z.quot (Z.of_nat (q * n)) (Z.of_nat n) * Z.of_nat k))) 0
             else DeepCopyVector whole (u64 (i32 (Z.quot (Z.of_nat (q * n)) (Z.of_nat n) * Z.of_nat k)))) x = (Ok tt, y) /\
    filling q (even_segments n k 0 [(q * n)%nat]) y.
Proof.
  intros Hq Hf. assert (Hkq : (k * q + q <= q * n)%nat) by nia. assert (Hws' := Hws). unfold small in Hws', Hn.
  destruct (filling_step q [] (k * q) q x) as (y & Hy & Hfy); [unfold small; nia|constructor|nia|done|done|].
  exists y. split; [|simpl; by rewrite Nat.div_mul by lia]. destruct Hf as (dst & -> & _).
  rewrite quot_nat, Nat.div_mul by lia. rewrite <- Nat2Z.inj_mul, (Nat.mul_comm q k), i32_nat by (unfold small; lia).
  rewrite u64_nat by lia. unfold copy_part in Hy. rewrite <- Hy.
  destruct m; [unfold DeepCopyMatrix2D|unfold DeepCopyVector].
  - set (X := mkT t _ (concat dst)). rewrite (bind_ok (gets id) _ X X X eq_refl). cbv beta. cbn [shape_ X tshape Count foldl].
    replace (_ <? _) with false by nia.
    by rewrite (bind_ok _ _ X X (Z.of_nat q) eq_refl), (bind_ok _ _ X X (Z.of_nat h) eq_refl).
  - set (X := mkT t _ (concat dst)). rewrite (bind_ok (gets id) _ X X X eq_refl). cbv beta. cbn [shape_ X tshape Count foldl].
    replace (_ <? _) with false by nia. by rewrite (bind_ok _ _ X X (Z.of_nat q) eq_refl).
Qed.

Lemma gemm_filling info cnt q x :
  shape info = tshape m h ws -> (0 < cnt)%nat -> ws = (cnt * (q * n))%nat -> filling (cnt * q) [] x ->
  exists y, copy_gemm (Z.of_nat cnt) info rank whole x = (Ok tt, y) /\
    filling (cnt * q) (even_segments n k 0 (repeat (q * n)%nat cnt)) y.
Proof.
  intros Hinfo Hcnt Hw Hf. assert (Hws' := Hws). unfold small in Hws', Hn.
  assert (Hquot : Z.quot (Z.of_nat ws) (Z.of_nat cnt) = Z.of_nat (q * n)).
  { rewrite quot_nat by lia. f_equal. rewrite Hw, Nat.mul_comm. by rewrite Nat.div_mul by lia. }
  assert (Hqn : (q * n <= ws)%nat) by nia.
  assert (Hqn' : i32 (Z.of_nat (q * n)) = Z.of_nat (q * n)) by (apply i32_nat; unfold small; lia).
  assert (Hq : Z.quot (Z.of_nat (q * n)) (Z.of_nat n) = Z.of_nat q) by (rewrite quot_nat, Nat.div_mul by lia; done).
  assert (Hbase : forall g, (g < cnt)%nat -> (g * (q * n) + q * k + q <= ws)%nat) by (intros g Hg; nia).
  assert (Hbody : exists body, copy_gemm (Z.of_nat cnt) info rank whole x = for_each (seqZ 0 (Z.of_nat cnt)) body x /\
    forall g y, (g < cnt)%nat -> body (Z.of_nat g) y =
      copy_part m (Z.of_nat (g * q)) whole (Z.of_nat (g * (q * n) + q * k)) (Z.of_nat q) (Z.of_nat h) y).
  { unfold copy_gemm. rewrite Hinfo. unfold tshape, copy_part.
    destruct m; cbv zeta; rewrite Hquot, Hqn'; (eexists; split; [reflexivity|]); intros g y Hg; specialize (Hbase g Hg);
      cbn [rank_size rank_id]; rewrite Hq.
    - rewrite <- !Nat2Z.inj_mul. rewrite (bind_ok _ _ _ _ _ (int_ok (Z.of_nat (g * (q * n))) y ltac:(lia))).
      rewrite quot_nat by lia. rewrite Nat.mul_assoc, Nat.div_mul by lia. rewrite <- Nat.mul_assoc.
      rewrite (u64_nat q) by lia. rewrite <- Nat2Z.inj_mul, <- Nat2Z.inj_add.
      rewrite i32_nat by done. unfold small in Hh. rewrite !u64_nat by nia. done.
    - assert (Hlen : Z.quot (Z.quot (Z.of_nat ws) (Z.of_nat n)) (Z.of_nat cnt) = Z.of_nat q).
      { rewrite !quot_nat by lia. f_equal. rewrite Hw. replace (cnt * (q * n))%nat with (q * cnt * n)%nat by lia.
        rewrite !Nat.div_mul by lia. done. }
      rewrite Hlen, i32_nat by (unfold small; nia). rewrite <- !Nat2Z.inj_mul.
      rewrite (bind_ok _ _ _ _ _ (int_ok (Z.of_nat (q * n * g)) y ltac:(lia))).
      rewrite (bind_ok _ _ _ _ _ (int_ok (Z.of_nat (q * k)) y ltac:(lia))). rewrite <- Nat2Z.inj_add.
      rewrite (bind_ok _ _ _ _ _ (int_ok (Z.of_nat (q * n * g + q * k)) y ltac:(lia))).
      rewrite (bind_ok _ _ _ _ _ (int_ok (Z.of_nat (g * q)) y ltac:(nia))).
      rewrite !u64_nat by nia. f_equal; f_equal; lia. }
  destruct Hbody as (body & -> & Hbody). apply even_loop; try done; [unfold small; nia|nia].
Qed.

(** Groups that are copied whole. *)
Lemma copy_mqa_rest wd groups segs p d x :
  small wd -> seg_width segs = d -> segs_in ws segs ->
  (p + sum_list groups <= ws)%nat -> (d + sum_list groups <= wd)%nat -> filling wd segs x ->
  exists y, copy_mqa m (Z.of_nat h) false (Z.of_nat <$> groups) (Z.of_nat p) (Z.of_nat d) rank whole x = (Ok tt, y) /\
    filling wd (segs ++ whole_segments p groups) y.
Proof.
  intros Hwd. revert segs p d x. induction groups as [|g groups IH]; intros segs p d x Hw Hin Hp Hd Hf.
  - exists x. split; [done|]. by rewrite app_nil_r.
  - simpl in Hp, Hd. cbn [copy_mqa fmap list_fmap rank_size rank_id] in *.
    assert (Hws' := Hws). unfold small in Hws', Hwd. rewrite (u64_nat g) by lia. rewrite <- !Nat2Z.inj_add.
    destruct (filling_step wd segs p g x) as (y & Hy & Hfy); [done..|lia|lia|done|]. rewrite Hw in Hy.
    rewrite (bind_ok _ _ x y tt) by (rewrite part_cast; [exact Hy|unfold small; lia..]).
    rewrite (bind_ok _ _ _ _ _ (int_ok (Z.of_nat (p + g)) y ltac:(lia))). rewrite i32_nat by (unfold small; lia).
    destruct (IH (segs ++ [(p, g)]) (p + g)%nat (d + g)%nat y) as (z & Hz & Hfz); [|..|done|].
    + rewrite seg_width_app, Hw. unfold seg_width. cbn. lia.
    + apply Forall_app. split; [done|]. repeat constructor. lia.
    + lia.
    + lia.
    + exists z. split; [exact Hz|]. simpl. by rewrite <- app_assoc in Hfz.
Qed.

Lemma mqa_filling q groups x :
  (q * n + sum_list groups <= ws)%nat -> small (q + sum_list groups) -> filling (q + sum_list groups) [] x ->
  exists y, copy_mqa m (Z.of_nat h) true (Z.of_nat <$> (q * n :: groups)%nat) 0 0 rank whole x = (Ok tt, y) /\
    filling (q + sum_list groups) ((k * q, q)%nat :: whole_segments (q * n) groups) y.
Proof.
  intros Hq Hwd Hf. assert (Hws' := Hws). unfold small in Hws'. assert (Hkq : (k * q + q <= q * n)%nat) by nia.
  destruct (filling_step (q + sum_list groups) [] (k * q) q x) as (y & Hy & Hfy); [done|constructor|lia|simpl; lia|done|].
  cbn [copy_mqa fmap list_fmap rank_size rank_id]. rewrite quot_nat, Nat.div_mul by lia. rewrite (u64_nat q) by lia.
  rewrite !Z.add_0_l, <- Nat2Z.inj_mul, (Nat.mul_comm q k). change (u64 0) with (u64 (Z.of_nat 0)).
  rewrite (bind_ok _ _ x y tt) by (rewrite part_cast; [exact Hy|unfold small in *; lia..]).
  rewrite (bind_ok _ _ _ _ _ (int_ok (Z.of_nat (q * n)) y ltac:(lia))). rewrite i32_nat by (unfold small; lia).
  apply (copy_mqa_rest _ _ [(k * q, q)%nat]); try done; try (unfold seg_width; cbn; lia).
  repeat constructor. lia.
Qed.
End copies.

(** ** Rows *)
Lemma copy_columns_whole {X} w (dst src : list (list X)) :
  rows_of w dst -> rows_of w src -> length dst = length src -> copy_columns 0 0 w dst src = src.
Proof.
  intros Hd. revert src. induction Hd as [|r dst Hr _ IH]; intros src Hs Hl; destruct src as [|r' src]; try done.
  inversion Hs; subst. simpl. rewrite IH by (try done; simpl in Hl; lia). f_equal.
  unfold splice, slice. rewrite drop_0, take_0, !take_ge by lia. simpl. rewrite drop_ge by lia. apply app_nil_r.
Qed.

Lemma hsplit_run t sz q n k w (dst src : list bytes) :
  SizeofType t = Z.of_nat sz -> (sz <= 8)%nat -> (k < n)%nat -> small (q * n) -> small n -> small w ->
  rows_of (w * sz) dst -> length dst = q -> rows_of (w * sz) src -> length src = (q * n)%nat ->
  DeepCopyMatrix2D (mkT t [Z.of_nat (q * n); Z.of_nat w] (concat src)) 0
    (u64 (i32 (Z.quot (Z.of_nat k * Z.of_nat (q * n)) (Z.of_nat n)))) (mkT t [Z.of_nat q; Z.of_nat w] (concat dst)) =
  (Ok tt, mkT t [Z.of_nat q; Z.of_nat w] (concat (slice (k * q) q src))).
Proof.
  intros Hsz Hle Hk Hqn Hn Hw Hdst Hld Hsrc Hls. unfold small in *. assert (Hkq : (k * q + q <= q * n)%nat) by nia.
  rewrite <- Nat2Z.inj_mul, quot_nat by lia. replace (k * (q * n))%nat with (k * q * n)%nat by lia.
  rewrite Nat.div_mul by lia. rewrite i32_nat by (unfold small; lia). rewrite u64_nat by lia.
  unfold DeepCopyMatrix2D. set (X := mkT t _ (concat dst)). rewrite (bind_ok (gets id) _ X X X eq_refl). cbv beta.
  cbn [shape_ X Count foldl]. replace (_ <? _) with false by nia.
  rewrite (bind_ok _ _ X X (Z.of_nat w) eq_refl), (bind_ok _ _ X X (Z.of_nat q) eq_refl).
  assert (Hrun := matrix_part_run 0 0 0 (k * q) w q t sz q w (q * n) w dst src []).
  rewrite app_nil_r in Hrun. change (Z.of_nat 0) with 0 in Hrun. unfold X. rewrite Hrun; try done; try (unfold small; nia).
  do 3 f_equal. unfold copy_region. rewrite take_0, drop_ge, app_nil_r by lia. simpl.
  unfold slice at 1. rewrite drop_0, take_ge by lia. apply copy_columns_whole; try done; [by apply rows_of_slice|].
  rewrite length_slice; lia.
Qed.

