(* ===== verification/WeightLoad.v ===== *)
(** What loading a weight leaves on a rank: the segments of columns or the rows
    that each split mode gives it, and runs of [LoadFromMemory]. *)
From Stdlib Require Import ZArith ZifyBool Lia.
From stdpp Require Import base list strings.
From S2P Require Import Prelude StringUtil MemoryReuse WeightSplit WeightProofs.

(** * Specification

    A weight is a matrix of [h] rows and [w] columns; a bias is one row. *)
Definition splittable (mode : SplitMode) (m : bool) (h w : nat) (groups : list nat) (n : nat) : bool :=
  match mode with
  | NOSPLIT => true
  | VSPLIT => bool_decide (n | w)%nat
  | HSPLIT => bool_decide (n | if m then h else w)%nat
  | QKVSPLIT => bool_decide (3 * n | w)%nat
  | KVSPLIT => bool_decide (2 * n | w)%nat
  | GROUP_VSPLIT => bool_decide (divisible n groups /\ sum_list groups = w)
  | MQA_VSPLIT => bool_decide (length groups = 3%nat /\ (n | hd 0 groups)%nat /\ sum_list groups = w)
  | _ => false
  end.
(** The columns, as groups each divided between the ranks. *)
Definition column_groups (mode : SplitMode) (w : nat) (groups : list nat) : list nat :=
  match mode with
  | QKVSPLIT => repeat (w / 3) 3
  | KVSPLIT => repeat (w / 2) 2
  | GROUP_VSPLIT => groups
  | _ => [w]
  end%nat.
(** The part of rank [k] of [n]: its rows and columns, and its rows. *)
Definition part_dims (mode : SplitMode) (m : bool) (h w : nat) (groups : list nat) (n : nat) : nat * nat :=
  match mode with
  | NOSPLIT => (h, w)
  | HSPLIT => (if m then h / n else h, w)
  | MQA_VSPLIT => (h, hd 0 groups / n + sum_list (tl groups))
  | _ => (h, w / n)
  end%nat.
Definition rank_part (mode : SplitMode) (m : bool) (sz h w : nat) (groups : list nat) (n k : nat) (src : list bytes) : list bytes :=
  match mode with
  | NOSPLIT => src
  | HSPLIT =>
      if m then slice (k * (h / n)) (h / n) src
      else if (k =? 0)%nat then src else List.map (List.map (fun _ => 0%Z)) src
  | MQA_VSPLIT =>
      row_part sz ((k * (hd 0 groups / n), hd 0 groups / n) :: whole_segments (hd 0 groups) (tl groups)) <$> src
  | _ => row_part sz (even_segments n k 0 (column_groups mode w groups)) <$> src
  end%nat.

(** * Loading *)
Section loading.
Context `{UN : Uninit}.
Implicit Types x : Tensor.

(** A weight in memory: its dimensions fit [int], its bytes [int64_t]. *)
Record weight_ok (m : bool) (t : DataType) (h w : nat) : Prop := mkWeightOk {
  wo_rows : (0 < h)%nat;
  wo_cols : (0 < w)%nat;
  wo_small : small h /\ small w;
  wo_bias : m = false -> h = 1%nat;
  wo_bytes : 0 < SizeofType t /\ Z.of_nat (h * w) * SizeofType t < 2 ^ 63;
}.

Lemma nbytes_tshape m t h w sz :
  (m = false -> h = 1%nat) -> SizeofType t = Z.of_nat sz -> Z.of_nat (h * w) * SizeofType t < 2 ^ 63 ->
  nbytes t (tshape m h w) = Z.of_nat (h * (w * sz)).
Proof.
  intros Hm Hsz Hb. unfold nbytes, tshape. rewrite Hsz in *. destruct m; cbn [Count foldl].
  - rewrite i64_small; lia.
  - rewrite Hm in * by done. rewrite i64_small; lia.
Qed.

Lemma reshape_run x sh nb :
  nbytes (dtype_ x) sh = Z.of_nat nb -> (0 < nb)%nat ->
  exists data, length data = nb /\ reshape sh x = (Ok tt, mkT (dtype_ x) sh data).
Proof.
  intros Hnb Hpos. unfold reshape.
  rewrite (bind_ok Free _ x _ tt eq_refl). unfold SetShape, modify. cbn [dtype_ data_].
  rewrite Hnb, uninit_length. destruct (Z.leb_spec (Z.of_nat nb) (Z.of_nat 1)).
  - exists (uninit 1). split; [rewrite uninit_length; lia|done].
  - exists (uninit nb). split; [apply uninit_length|]. by rewrite Nat2Z.id.
Qed.

Lemma load_run info r t ptr x :
  GetSplitterByMode (split_mode info) x = (Ok tt, x) -> IsSplittable info r = Ok true -> dtype info = Some t ->
  length ptr = Z.to_nat (nbytes t (shape info)) ->
  LoadFromMemory info r ptr x = (set_part_shape info r;; CopyWeight info r (mkT t (shape info) ptr)) x.
Proof.
  intros Hg Hs Hd Hl. unfold LoadFromMemory. rewrite (bind_ok _ _ _ _ _ Hg), Hs, Hd. cbn [Tensor_new data_].
  rewrite uninit_length, Hl. replace (_ <? _) with false by lia.
  rewrite drop_ge, app_nil_r by (rewrite uninit_length; lia). done.
Qed.

Lemma chunk h w (data : bytes) : length data = (h * w)%nat ->
  exists rows, concat rows = data /\ rows_of w rows /\ length rows = h.
Proof.
  revert data. induction h as [|h IH]; intros data Hl.
  - exists []. destruct data; [split_and!; [done|constructor|done]|done].
  - destruct (IH (drop w data)) as (rows & Hc & Hr & Hlr); [rewrite length_drop; lia|].
    exists (take w data :: rows). simpl. rewrite Hc, take_drop. split_and!; [done| |by f_equal].
    constructor; [rewrite length_take; lia|done].
Qed.

Lemma int_sum_nat groups acc :
  small (acc + sum_list groups) -> int_sum (Z.of_nat <$> groups) (Z.of_nat acc) = Ok (Z.of_nat (acc + sum_list groups)).
Proof.
  unfold small. revert acc. induction groups as [|g groups IH]; intros acc Hs; cbn [int_sum fmap list_fmap].
  - simpl. by rewrite Nat.add_0_r.
  - simpl in Hs. unfold INT32_MIN, INT32_MAX. rewrite <- Nat2Z.inj_add.
    replace (_ && _) with true by lia. rewrite IH by lia. simpl. do 2 f_equal. lia.
Qed.
Lemma group_total_nat n groups acc : (0 < n)%nat -> small (acc + sum_list groups) ->
  group_total (Z.of_nat n) (Z.of_nat <$> groups) (Z.of_nat acc) =
  Ok (if bool_decide (divisible n groups) then Some (Z.of_nat (acc + sum_list groups)) else None).
Proof.
  intros Hn. unfold small. revert acc. induction groups as [|g groups IH]; intros acc Hs; cbn [group_total fmap list_fmap].
  - rewrite bool_decide_true by constructor. simpl. by rewrite Nat.add_0_r.
  - change (sum_list (g :: groups)) with (g + sum_list groups)%nat in *. rewrite divides_nat by done.
    assert (Hcons : divisible n (g :: groups) <-> (n | g)%nat /\ divisible n groups) by apply Forall_cons.
    destruct (decide (n | g)%nat) as [Hd|Hd].
    + rewrite (bool_decide_true (n | g)%nat) by done. cbn [negb]. unfold INT32_MIN, INT32_MAX.
      rewrite <- Nat2Z.inj_add. replace (_ && _) with true by lia. rewrite IH, Nat.add_assoc by lia.
      by rewrite (bool_decide_ext (divisible n (g :: groups)) (divisible n groups)) by tauto.
    + rewrite (bool_decide_false (n | g)%nat) by done. cbn [negb]. by rewrite bool_decide_false by tauto.
Qed.
Lemma divisible_sum n groups : divisible n groups -> (n | sum_list groups)%nat.
Proof. induction 1; simpl; [apply Nat.divide_0_r|by apply Nat.divide_add_r]. Qed.

Lemma splittable_correct m mode h w groups n k d md nnz0 :
  (0 < n)%nat -> small (sum_list groups) -> mode <> BATCH_KVSPLIT ->
  IsSplittable (mkTensorInfo (tshape m h w) d md mode nnz0 (Z.of_nat <$> groups)) (mkRank k (Z.of_nat n)) =
  Ok (splittable mode m h w groups n).
Proof.
  intros Hn Hg Hmode. unfold IsSplittable, splittable. cbn [split_mode shape rank_size].
  assert (H1 : forall a, divides (Z.of_nat n) (Z.of_nat a) = bool_decide (n | a)%nat) by (intros; by apply divides_nat).
  assert (H2 : forall c a, (0 < c)%nat -> divides (Z.of_nat c * Z.of_nat n) (Z.of_nat a) = bool_decide (c * n | a)%nat).
  { intros. rewrite <- Nat2Z.inj_mul. apply divides_nat. lia. }
  destruct mode; try done; try (by destruct m; cbn; rewrite ?H1).
  - destruct m; cbn [tshape Gemm_IsSplittable]; f_equal; by apply (H2 3%nat); lia.
  - destruct m; cbn [tshape Gemm_IsSplittable]; f_equal; by apply (H2 2%nat); lia.
  - unfold Group_IsSplittable. cbn [group_list shape]. change 0 with (Z.of_nat 0) at 1.
    rewrite (group_total_nat n groups 0) by done. rewrite Nat.add_0_l. case_bool_decide as Hd.
    + assert (Hw : divides (Z.of_nat n) (Z.of_nat w) && (Z.of_nat w =? Z.of_nat (sum_list groups)) =
        bool_decide (divisible n groups /\ sum_list groups = w)).
      { rewrite H1. case_bool_decide as Hw; case_bool_decide as Hs; cbn [andb]; try done.
        - destruct Hs as [_ Hs]. lia.
        - destruct (Z.eqb_spec (Z.of_nat w) (Z.of_nat (sum_list groups))); [|done]. exfalso. apply Hs. split; [done|lia].
        - destruct Hs as [Hs <-]. exfalso. apply Hw. by apply divisible_sum. }
      destruct m; cbn [tshape]; by rewrite Hw.
    + rewrite bool_decide_false; [done|]. by intros [? _].
  - unfold MQA_IsSplittable. cbn [group_list shape].
    destruct groups as [|g [|g1 [|g2 [|]]]]; cbn [fmap list_fmap length hd]; try (by rewrite bool_decide_false by (by intros [? _])).
    rewrite H1. case_bool_decide as Hd; cbn [negb].
    + change (int_sum _ 0) with (int_sum (Z.of_nat <$> [g; g1; g2]) (Z.of_nat 0)). rewrite (int_sum_nat [g; g1; g2] 0) by done. rewrite Nat.add_0_l.
      assert (Hw : (Z.of_nat w =? Z.of_nat (sum_list [g; g1; g2])) =
        bool_decide (3%nat = 3%nat /\ (n | g)%nat /\ sum_list [g; g1; g2] = w)).
      { case_bool_decide as Hs; [destruct Hs as (_ & _ & Hs); lia|].
        destruct (Z.eqb_spec (Z.of_nat w) (Z.of_nat (sum_list [g; g1; g2]))); [|done]. exfalso. apply Hs. split_and!; [done..|lia]. }
      destruct m; cbn [tshape]; by rewrite Hw.
    + rewrite bool_decide_false; [done|]. by intros (_ & ? & _).
Qed.

(** ** A matrix or a bias *)
Lemma sz_bounds m t sz h w : weight_ok m t h w -> SizeofType t = Z.of_nat sz -> (0 < sz <= 8)%nat.
Proof. intros Hok Hsz. destruct (SizeofType_nat t) as (s & Hs & ?). pose proof (wo_bytes _ _ _ _ Hok). lia. Qed.
Lemma tshape_bytes m t sz h w h' w' :
  weight_ok m t h w -> SizeofType t = Z.of_nat sz -> (m = false -> h' = 1%nat) -> (h' <= h)%nat -> (w' <= w)%nat ->
  nbytes t (tshape m h' w') = Z.of_nat (h' * (w' * sz)).
Proof.
  intros Hok Hsz Hm Hh Hw. apply nbytes_tshape; [done..|]. pose proof (wo_bytes _ _ _ _ Hok).
  assert (h' * w' <= h * w)%nat by (by apply Nat.mul_le_mono). nia.
Qed.

Section weight.
Variables (m : bool) (t : DataType) (sz h w n k : nat) (mode : SplitMode) (groups : list nat) (src : list bytes).
Variables (md : DataMode) (nnz0 : Z).
Variables (Hok : weight_ok m t h w) (Hsz : SizeofType t = Z.of_nat sz) (Hk : (k < n)%nat) (Hn : small n).
Variables (Hgroups : small (sum_list groups)).
Variables (Hsrc : rows_of (w * sz) src) (Hls : length src = h).
Abbreviation info := (mkTensorInfo (tshape m h w) (Some t) md mode nnz0 (Z.of_nat <$> groups)).
Abbreviation rank := (mkRank (Z.of_nat k) (Z.of_nat n)).
Abbreviation whole := (mkT t (tshape m h w) (concat src)).

(** A load of a part whose shape the splitter sets. *)
Lemma load_shaped h' w' x :
  mode <> NOSPLIT -> mode <> BATCH_KVSPLIT -> splittable mode m h w groups n = true -> dtype_ x = t ->
  set_part_shape info rank = reshape (tshape m h' w') -> (m = false -> h' = 1%nat) -> (0 < h' <= h)%nat -> (0 < w' <= w)%nat ->
  exists dst, rows_of (w' * sz) dst /\ length dst = h' /\
    LoadFromMemory info rank (concat src) x = CopyWeight info rank whole (mkT t (tshape m h' w') (concat dst)).
Proof.
  intros Hns Hkv Hspl Hx Hps Hm Hh Hw. pose proof (sz_bounds m t sz h w Hok Hsz).
  destruct (reshape_run x (tshape m h' w') (h' * (w' * sz))) as (data & Hl & Hset); [|nia|].
  { rewrite Hx. apply (tshape_bytes m t sz h w); done || lia. }
  destruct (chunk h' (w' * sz) data Hl) as (dst & Hc & Hr & Hld). exists dst. split_and!; [done..|].
  rewrite (load_run info rank t).
  - rewrite Hps, (bind_ok _ _ _ _ _ Hset). by rewrite Hc, Hx.
  - cbn [split_mode]. destruct mode; try done.
  - rewrite splittable_correct by (done || lia). by rewrite Hspl.
  - done.
  - cbn [shape]. rewrite (tshape_bytes m t sz h w) by (done || lia || apply (wo_bias _ _ _ _ Hok)).
    rewrite (length_rows _ _ Hsrc). lia.
Qed.

Lemma load_filled wd segs x :
  mode <> NOSPLIT -> mode <> BATCH_KVSPLIT -> splittable mode m h w groups n = true -> dtype_ x = t ->
  set_part_shape info rank = reshape (tshape m h wd) -> (0 < wd <= w)%nat -> segs_in w segs -> seg_width segs = wd ->
  (forall y, filling m t sz h src wd [] y ->
     exists z, CopyWeight info rank whole y = (Ok tt, z) /\ filling m t sz h src wd segs z) ->
  LoadFromMemory info rank (concat src) x = (Ok tt, mkT t (tshape m h wd) (concat (row_part sz segs <$> src))).
Proof.
  intros Hns Hkv Hspl Hx Hps Hwd Hin Hw Hcopy. pose proof (wo_rows _ _ _ _ Hok). pose proof (wo_bias _ _ _ _ Hok).
  destruct (load_shaped h wd x) as (dst & Hr & Hl & ->); [done..|lia|done|].
  destruct (Hcopy (mkT t (tshape m h wd) (concat dst))) as (z & -> & dst' & -> & Hr' & Hf).
  { exists dst. split_and!; [done..|]. apply filled_nil. congruence. }
  do 3 f_equal. by apply (filled_done sz segs w wd).
Qed.
End weight.

(** The number of rows does not matter for a bias. *)
Lemma copy_groups_bias a b groups p r whole x :
  copy_groups false a groups p r whole x = copy_groups false b groups p r whole x.
Proof.
  revert p x. induction groups as [|g groups IH]; intros p x; [done|]. cbn [copy_groups]. unfold mbind, M_bind.
  destruct (DeepCopyVectorPart _ _ _ _ x) as [[] x']; [apply IH|done].
Qed.
Lemma copy_mqa_bias a b first groups p d r whole x :
  copy_mqa false a first groups p d r whole x = copy_mqa false b first groups p d r whole x.
Proof.
  revert first p d x. induction groups as [|g groups IH]; intros first p d x; [done|]. cbn [copy_mqa]. unfold mbind, M_bind.
  destruct (DeepCopyVectorPart _ _ _ _ x) as [[] x']; [|done]. destruct (int_ _ x') as [[] x'']; [apply IH|done].
Qed.

Lemma column_groups_ok mode m h w groups n : match mode with VSPLIT | QKVSPLIT | KVSPLIT | GROUP_VSPLIT => True | _ => False end ->
  splittable mode m h w groups n = true -> divisible n (column_groups mode w groups) /\ sum_list (column_groups mode w groups) = w.
Proof.
  intros Hm Hs. unfold splittable, column_groups in *. destruct mode; try done; apply bool_decide_eq_true in Hs.
  - split; [by constructor|cbn; lia].
  - destruct Hs as [q Hq]. assert (Hd : (w / 3 = q * n)%nat) by (rewrite Hq; replace (q * (3 * n))%nat with (q * n * 3)%nat by lia; by rewrite Nat.div_mul).
    rewrite Hd. split; [repeat constructor; by exists q|cbn; lia].
  - destruct Hs as [q Hq]. assert (Hd : (w / 2 = q * n)%nat) by (rewrite Hq; replace (q * (2 * n))%nat with (q * n * 2)%nat by lia; by rewrite Nat.div_mul).
    rewrite Hd. split; [repeat constructor; by exists q|cbn; lia].
  - done.
Qed.

(** One lemma per mode. *)
Section modes.
Variables (m : bool) (t : DataType) (sz h w n k : nat) (groups : list nat) (src : list bytes).
Variables (md : DataMode) (nnz0 : Z).
Variables (Hok : weight_ok m t h w) (Hsz : SizeofType t = Z.of_nat sz) (Hk : (k < n)%nat) (Hn : small n).
Variables (Hgroups : small (sum_list groups)).
Variables (Hsrc : rows_of (w * sz) src) (Hls : length src = h).
Abbreviation info mode := (mkTensorInfo (tshape m h w) (Some t) md mode nnz0 (Z.of_nat <$> groups)).
Abbreviation rank := (mkRank (Z.of_nat k) (Z.of_nat n)).
Definition loads (mode : SplitMode) (x : Tensor) : Prop :=
  LoadFromMemory (info mode) rank (concat src) x =
  (Ok tt, mkT t (let '(h', w') := part_dims mode m h w groups n in tshape m h' w')
            (concat (rank_part mode m sz h w groups n k src))).

Lemma part_shape_columns mode : match mode with VSPLIT | QKVSPLIT | KVSPLIT | GROUP_VSPLIT => True | _ => False end ->
  set_part_shape (info mode) rank = reshape (tshape m h (w / n)).
Proof.
  intros Hm. unfold set_part_shape. cbn [split_mode shape rank_size].
  destruct mode; try done; destruct m; cbn; by rewrite quot_nat by lia.
Qed.
Lemma width_div q : w = (q * n)%nat -> (0 < q <= w)%nat /\ (w / n)%nat = q.
Proof. intros Hw. pose proof (wo_cols _ _ _ _ Hok). split; [nia|]. rewrite Hw. by apply Nat.div_mul; lia. Qed.

Lemma load_columns mode x : match mode with VSPLIT | QKVSPLIT | KVSPLIT | GROUP_VSPLIT => True | _ => False end ->
  splittable mode m h w groups n = true -> dtype_ x = t -> loads mode x.
Proof.
  intros Hm Hs Hx. destruct (column_groups_ok mode m h w groups n Hm Hs) as [Hdiv Hsum].
  assert (Hq : exists q, w = (q * n)%nat) by (rewrite <- Hsum; by apply divisible_sum).
  destruct Hq as [q Hq]. destruct (width_div q Hq) as [Hq' Hwn].
  assert (Hdims : part_dims mode m h w groups n = (h, w / n)%nat) by by destruct mode.
  assert (Hpart : rank_part mode m sz h w groups n k src = row_part sz (even_segments n k 0 (column_groups mode w groups)) <$> src)
    by by destruct mode.
  unfold loads. rewrite Hdims, Hpart.
  pose proof (sz_bounds m t sz h w Hok Hsz) as Hszb. destruct (wo_small _ _ _ _ Hok) as [Hsh Hsw].
  pose proof (wo_bias _ _ _ _ Hok) as Hbias.
  apply load_filled; try done.
  - by destruct mode.
  - by destruct mode.
  - by apply part_shape_columns.
  - lia.
  - pose proof (even_segments_in n k 0 (column_groups mode w groups) Hk Hdiv) as Hin. by rewrite Hsum in Hin.
  - rewrite even_segments_width by (lia || done). by rewrite Hsum.
  - intros y Hy. rewrite Hwn in *. unfold CopyWeight. cbn [split_mode].
    destruct mode; try done; cbn [shape group_list column_groups] in *.
    + destruct (vsplit_filling m t sz h n k w src []) with q y as (z & Hz & Hf); try done; try lia.
      rewrite <- Hq in Hz, Hf. rewrite app_nil_r in Hz. exists z. split; [|done]. rewrite <- Hz.
      unfold copy_vsplit. cbn [shape rank_size rank_id]. by destruct m.
    + assert (Hq3 : exists q', q = (3 * q')%nat).
      { apply bool_decide_eq_true in Hs as [r Hr]. exists r. nia. }
      destruct Hq3 as [q' ->]. destruct (gemm_filling m t sz h n k w src []) with (info QKVSPLIT) 3%nat q' y as (z & Hz & Hf); try done; try lia.
      rewrite app_nil_r in Hz. exists z. split; [exact Hz|].
      replace (w / 3)%nat with (q' * n)%nat; [done|]. rewrite Hq. replace (3 * q' * n)%nat with (q' * n * 3)%nat by lia. by rewrite Nat.div_mul.
    + assert (Hq3 : exists q', q = (2 * q')%nat).
      { apply bool_decide_eq_true in Hs as [r Hr]. exists r. nia. }
      destruct Hq3 as [q' ->]. destruct (gemm_filling m t sz h n k w src []) with (info KVSPLIT) 2%nat q' y as (z & Hz & Hf); try done; try lia.
      rewrite app_nil_r in Hz. exists z. split; [exact Hz|].
      replace (w / 2)%nat with (q' * n)%nat; [done|]. rewrite Hq. replace (2 * q' * n)%nat with (q' * n * 2)%nat by lia. by rewrite Nat.div_mul.
    + destruct (copy_groups_filling m t sz h n k w src []) with q groups (@nil (nat * nat)) 0%nat y as (z & Hz & Hf); try done; try lia.
      * unfold small in *. lia.
      * apply Nat.divide_0_r.
      * by rewrite Nat.Div0.div_0_l.
      * constructor.
      * rewrite Nat.add_0_l, Hsum. lia.
      * rewrite app_nil_r in Hz. exists z. split; [|done]. rewrite <- Hz. destruct m; [done|]. apply copy_groups_bias.
Qed.

Lemma load_mqa x : splittable MQA_VSPLIT m h w groups n = true -> dtype_ x = t -> loads MQA_VSPLIT x.
Proof.
  intros Hs Hx. assert (Hs' := Hs). unfold splittable in Hs'. apply bool_decide_eq_true in Hs' as (Hl & [q Hq] & Hsum).
  assert (Hg : exists g1 g2, groups = [(q * n)%nat; g1; g2]).
  { destruct groups as [|g0 [|g1 [|g2 [|]]]]; try done. cbn [hd] in Hq. subst g0. by exists g1, g2. }
  destruct Hg as (g1 & g2 & Hg). rewrite Hg in Hsum. cbn in Hsum.
  destruct (wo_small _ _ _ _ Hok) as [Hsh Hsw]. pose proof (wo_bias _ _ _ _ Hok) as Hbias. pose proof (wo_cols _ _ _ _ Hok).
  unfold loads, part_dims, rank_part. rewrite Hg in Hs |- *. cbn [hd tl]. rewrite Nat.div_mul by lia. pose proof (sz_bounds m t sz h w Hok Hsz) as Hszb.
  assert (Hin := whole_segments_in (q * n) [g1; g2]).
  apply load_filled; try done.
  - by rewrite <- Hg.
  - unfold set_part_shape, MQA_SetShape. cbn [split_mode group_list shape rank_size fmap list_fmap].
    destruct m; cbn [tshape]; rewrite quot_nat, Nat.div_mul by lia; cbn [sum_list sum_list_with id].
    + do 3 f_equal. lia.
    + do 2 f_equal. lia.
  - cbn. unfold id in *. destruct q; nia.
  - constructor; [nia|]. eapply Forall_impl; [exact Hin|]. intros [a b] Hab. cbn in Hab. unfold id in *. lia.
  - intros y Hy. destruct (mqa_filling m t sz h n k w src []) with q [g1; g2] y as (z & Hz & Hf); try done; try lia.
    + simpl. lia.
    + unfold small in *. simpl. nia.
    + rewrite app_nil_r in Hz. exists z. split; [|done]. rewrite <- Hz. unfold CopyWeight. cbn [split_mode group_list shape].
      destruct m; [done|]. apply copy_mqa_bias.
Qed.

Lemma load_nosplit x : dtype_ x = t -> loads NOSPLIT x.
Proof.
  intros Hx. unfold loads, part_dims, rank_part. rewrite (load_run _ _ t); [|done..|].
  - unfold set_part_shape. cbn [split_mode shape].
    unfold CopyWeight, ShareData, SetShape, mbind, M_bind, modify, gets. cbn. by rewrite Hx, !bool_decide_true.
  - cbn [shape]. rewrite (tshape_bytes m t sz h w) by (done || lia || apply (wo_bias _ _ _ _ Hok)).
    rewrite (length_rows _ _ Hsrc). lia.
Qed.

Lemma load_hsplit_matrix x : m = true -> splittable HSPLIT m h w groups n = true -> dtype_ x = t -> loads HSPLIT x.
Proof.
  intros Hm Hs Hx. assert (Hs' := Hs). unfold splittable in Hs'. apply bool_decide_eq_true in Hs'. rewrite Hm in Hs'.
  destruct Hs' as [q Hq]. pose proof (wo_rows _ _ _ _ Hok). pose proof (wo_cols _ _ _ _ Hok). pose proof (sz_bounds m t sz h w Hok Hsz).
  destruct (wo_small _ _ _ _ Hok) as [Hsh Hsw].
  assert (Hhn : (h / n = q)%nat) by (rewrite Hq, Nat.div_mul; lia).
  destruct (load_shaped m t sz h w n k HSPLIT groups src md nnz0) with q w x as (dst & Hr & Hl & Hrun); try done; try (rewrite ?Hm; done || nia).
  { unfold set_part_shape, HSplit_SetShape. rewrite Hm. cbn [split_mode shape rank_size tshape]. by rewrite quot_nat, Hhn by lia. }
  unfold loads, part_dims, rank_part. rewrite Hrun, Hm, Hhn. unfold CopyWeight, copy_hsplit. cbn [split_mode shape tshape rank_id rank_size].
  assert (Hrun' := hsplit_run t sz q n k w dst src). rewrite <- Hq in Hrun'. apply Hrun'; try done; lia.
Qed.
End modes.

(** A bias that is not split: rank 0 has it, the others have zeros. *)
Lemma load_hsplit_bias t sz w n k groups (src : list bytes) md nnz0 x :
  weight_ok false t 1 w -> SizeofType t = Z.of_nat sz -> (k < n)%nat -> small (sum_list groups) ->
  rows_of (w * sz) src -> length src = 1%nat -> splittable HSPLIT false 1 w groups n = true -> dtype_ x = t ->
  loads false t sz 1 w n k groups src md nnz0 HSPLIT x.
Proof.
  intros Hok Hsz Hk Hg Hsrc Hls Hs Hx. pose proof (wo_cols _ _ _ _ Hok). pose proof (sz_bounds _ t sz 1 w Hok Hsz).
  destruct (wo_small _ _ _ _ Hok) as [_ Hsw].
  destruct (load_shaped false t sz 1 w n k HSPLIT groups src md nnz0) with 1%nat w x as (dst & Hr & Hl & Hrun); try done; try lia.
  unfold loads, part_dims, rank_part. rewrite Hrun. unfold CopyWeight, copy_hsplit. cbn [split_mode shape tshape rank_id rank_size].
  destruct dst as [|dr [|]]; try done. destruct src as [|sr [|]]; try done. inversion Hr; inversion Hsrc; subst.
  cbn [concat]. rewrite !app_nil_r. destruct (Nat.eqb_spec k 0) as [->|Hk0].
  - change (Z.of_nat 0 =? 0) with true. cbv iota. unfold DeepCopyVector. set (X := mkT _ _ dr). rewrite (bind_ok (gets id) _ X X X eq_refl). cbv beta.
    cbn [shape_ X tshape Count foldl]. rewrite Z.ltb_irrefl. rewrite (bind_ok _ _ X X (Z.of_nat w) eq_refl).
    assert (Hv := vector_part_run 0 0 w (dtype_ x) sz w w dr sr []). rewrite app_nil_r in Hv. change (Z.of_nat 0) with 0 in Hv. unfold X. rewrite Hv; try done; try lia.
    do 2 f_equal. unfold splice, slice. cbn [Nat.mul]. rewrite drop_0, take_0, take_ge by lia. simpl. rewrite drop_ge by lia. by rewrite !app_nil_r.
  - replace (Z.of_nat k =? 0) with false by lia. unfold Memset, modify. cbn. do 3 f_equal. rewrite app_nil_r.
    assert (Heq : length dr = length sr) by lia. clear -Heq. revert sr Heq. induction dr as [|b dr IH]; intros [|c sr] Heq; try done.
    simpl. f_equal. apply IH. simpl in Heq. lia.
Qed.

(** All modes that cut matrices and biases. *)
Lemma load_part m t sz h w n k mode groups (src : list bytes) md nnz0 x :
  weight_ok m t h w -> SizeofType t = Z.of_nat sz -> (k < n)%nat -> small n -> small (sum_list groups) ->
  rows_of (w * sz) src -> length src = h -> splittable mode m h w groups n = true -> dtype_ x = t ->
  loads m t sz h w n k groups src md nnz0 mode x.
Proof.
  intros Hok Hsz Hk Hn Hg Hsrc Hls Hs Hx. destruct mode; try done.
  - by apply load_nosplit.
  - by apply load_columns.
  - destruct m; [by apply load_hsplit_matrix|]. assert (Hh1 : h = 1%nat) by by apply (wo_bias _ _ _ _ Hok). rewrite Hh1 in *. by apply load_hsplit_bias.
  - by apply load_columns.
  - by apply load_columns.
  - by apply load_columns.
  - by apply load_mqa.
Qed.

(** Every row of a part is as wide as its shape says. *)
Lemma row_part_rows sz segs w wd (src : list bytes) :
  segs_in w segs -> seg_width segs = wd -> rows_of (w * sz) src -> rows_of (wd * sz) (row_part sz segs <$> src).
Proof.
  intros Hin <- Hr. apply Forall_fmap. eapply Forall_impl; [exact Hr|]. intros r Hl. by apply (length_row_part sz segs w).
Qed.
Lemma rank_part_rows mode m sz h w groups n k (src : list bytes) :
  (k < n)%nat -> (0 < w)%nat -> rows_of (w * sz) src -> splittable mode m h w groups n = true ->
  (0 < snd (part_dims mode m h w groups n))%nat /\
  rows_of (snd (part_dims mode m h w groups n) * sz) (rank_part mode m sz h w groups n k src).
Proof.
  intros Hk Hw Hr Hs.
  assert (Hcols : match mode with VSPLIT | QKVSPLIT | KVSPLIT | GROUP_VSPLIT => True | _ => False end -> (0 < w / n)%nat /\
    rows_of (w / n * sz) (row_part sz (even_segments n k 0 (column_groups mode w groups)) <$> src)).
  { intros Hm. destruct (column_groups_ok mode m h w groups n Hm Hs) as [Hd Hsum]. split.
    - assert (Hq : (n | w)%nat) by (rewrite <- Hsum; by apply divisible_sum). destruct Hq as [q ->]. rewrite Nat.div_mul by lia. nia.
    - apply (row_part_rows sz _ w).
      + rewrite <- Hsum at 1. by apply (even_segments_in n k 0).
      + rewrite even_segments_width by (lia || done). by rewrite Hsum.
      + done. }
  destruct mode; try done; try (by apply Hcols); unfold part_dims, rank_part; cbn [snd].
  - split; [done|]. destruct m; [by apply rows_of_slice|]. case_match; [done|].
    apply Forall_fmap. eapply Forall_impl; [exact Hr|]. intros r Hl. unfold compose. by rewrite length_map.
  - unfold splittable in Hs. apply bool_decide_eq_true in Hs as (Hl & [q Hq] & Hsum).
    destruct groups as [|g0 gs]; [done|]. cbn [hd tl] in *. subst g0. rewrite Nat.div_mul by lia.
    change (sum_list ((q * n)%nat :: gs)) with (q * n + sum_list gs)%nat in Hsum. split; [destruct q; nia|].
    apply (row_part_rows sz _ w); [|by rewrite <- (whole_segments_width (q * n) gs)|done].
    constructor; [nia|]. pose proof (whole_segments_in (q * n) gs) as Hin. by rewrite Hsum in Hin.
Qed.
End loading.
