(* ===== verification/WeightBatch.v ===== *)
(** The parts of a batch of matrices: the copies of [BatchVSplit] and
    [BatchHSplit] row by row. *)
From Stdlib Require Import ZArith ZifyBool Lia.
From stdpp Require Import base list strings.
From S2P Require Import Prelude StringUtil MemoryReuse WeightSplit WeightProofs WeightLoad.

(** Of each matrix of [hs] rows, [hd] rows from row [o], and of each row [n]
    bytes from byte [s]. *)
Definition batch_rows {X} (b hd hs o s n : nat) (src : list (list X)) : list (list X) :=
  concat ((fun g => slice s n <$> slice (g * hs + o) hd src) <$> seq 0 b).

Lemma copy_columns_all {X} s n ws (dst src : list (list X)) :
  rows_of n dst -> rows_of ws src -> (s + n <= ws)%nat -> length dst = length src ->
  copy_columns 0 s n dst src = slice s n <$> src.
Proof.
  intros Hd. revert src. induction Hd as [|r dst Hr _ IH]; intros src Hs Hle Hl; destruct src as [|r' src]; try done.
  inversion Hs; subst. simpl. rewrite IH by (try done; simpl in Hl; lia). f_equal.
  unfold splice. rewrite take_0, length_slice, drop_ge by lia. apply app_nil_r.
Qed.

Lemma copy_matrix_run s n rd rs h ws (dst src : list bytes) t sh p q sd ss :
  p = Z.of_nat (rd * n) -> q = Z.of_nat (rs * ws + s) -> sd = Z.of_nat n -> ss = Z.of_nat ws ->
  rows_of n dst -> rows_of ws src -> (rd + h <= length dst)%nat -> (rs + h <= length src)%nat -> (s + n <= ws)%nat ->
  forall width, CopyMatrix2D p (concat src) q sd ss (Z.of_nat h) width (mkT t sh (concat dst)) =
  (Ok tt, mkT t sh (concat (copy_region 0 s n rd rs h dst src))).
Proof.
  intros -> -> -> -> Hd Hs H1 H2 H3 width. unfold CopyMatrix2D.
  apply (copy_loop _ 0 s n rd rs h n ws dst src []); try done; try lia.
  intros i x Hi. rewrite app_nil_r. f_equal; lia.
Qed.

Section batch.
Variables (b hd hs o s n ws : nat) (dst src : list bytes) (t : DataType) (sh : Shape).
Variables (Hdst : rows_of n dst) (Hld : length dst = (b * hd)%nat) (Hsrc : rows_of ws src) (Hls : length src = (b * hs)%nat).
Variables (Ho : (o + hd <= hs)%nat) (Hn : (s + n <= ws)%nat).
(** The first [i] matrices done. *)
Definition batch_done (i : nat) : list bytes := batch_rows i hd hs o s n src ++ drop (i * hd) dst.

Lemma batch_rows_step i : batch_rows (S i) hd hs o s n src =
  batch_rows i hd hs o s n src ++ (slice s n <$> slice (i * hs + o) hd src).
Proof.
  unfold batch_rows. rewrite seq_S, fmap_app, concat_app. simpl. by rewrite app_nil_r.
Qed.
Lemma batch_rows_ok i : (i <= b)%nat ->
  length (batch_rows i hd hs o s n src) = (i * hd)%nat /\ rows_of n (batch_rows i hd hs o s n src).
Proof.
  induction i as [|i IH]; intros Hi; [split; [done|constructor]|]. destruct IH as [Hl Hr]; [lia|].
  rewrite batch_rows_step, length_app, Hl, length_fmap, length_slice by nia. split; [lia|].
  apply Forall_app. split; [done|]. apply Forall_fmap. eapply Forall_impl; [exact (rows_of_slice ws _ _ _ Hsrc)|].
  intros r Hr'. cbv beta in Hr'. apply length_slice. by rewrite Hr'.
Qed.
Lemma batch_done_ok i : (i <= b)%nat -> length (batch_done i) = (b * hd)%nat /\ rows_of n (batch_done i).
Proof.
  intros Hi. destruct (batch_rows_ok i Hi) as [Hl Hr]. unfold batch_done. rewrite length_app, length_drop, Hl. split; [nia|].
  apply Forall_app. split; [done|]. by apply Forall_drop.
Qed.

Lemma batch_run (body : Z -> M Tensor unit) :
  (forall g x, (g < b)%nat -> exists width, body (Z.of_nat g) (mkT t sh x) =
     CopyMatrix2D (Z.of_nat (g * hd * n)) (concat src) (Z.of_nat ((g * hs + o) * ws + s)) (Z.of_nat n) (Z.of_nat ws)
       (Z.of_nat hd) width (mkT t sh x)) ->
  for_each (seqZ 0 (Z.of_nat b)) body (mkT t sh (concat dst)) =
  (Ok tt, mkT t sh (concat (batch_rows b hd hs o s n src))).
Proof.
  intros Hbody. set (st := fun i => mkT t sh (concat (batch_done i))).
  assert (Hlen : length (seqZ 0 (Z.of_nat b)) = b) by (rewrite length_seqZ; lia).
  assert (Hend : mkT t sh (concat (batch_rows b hd hs o s n src)) = st (length (seqZ 0 (Z.of_nat b)))).
  { rewrite Hlen. unfold st, batch_done. rewrite drop_ge, app_nil_r by lia. done. }
  rewrite Hend. change (mkT t sh (concat dst)) with (st 0%nat). apply for_each_run. intros i z Hi.
  assert (Hib := lookup_lt_Some _ _ _ Hi). rewrite Hlen in Hib. apply lookup_seqZ in Hi as [-> _]. rewrite Z.add_0_l.
  destruct (Hbody i (concat (batch_done i)) Hib) as [width Hw]. unfold st. rewrite Hw.
  destruct (batch_done_ok i) as [Hl Hr]; [lia|]. destruct (batch_rows_ok i) as [Hl' Hr']; [lia|].
  rewrite (copy_matrix_run s n (i * hd) (i * hs + o) hd ws) by (done || nia). do 3 f_equal.
  unfold copy_region, batch_done. rewrite batch_rows_step.
  set (A := batch_rows i hd hs o s n src) in *. unfold slice at 1. rewrite <- Hl', take_app_length, drop_app_length.
  rewrite drop_app_add' by done. rewrite drop_drop, <- app_assoc. f_equal.
  rewrite (copy_columns_all s n ws).
  - do 2 f_equal. rewrite Hl'. lia.
  - apply Forall_take. by apply Forall_drop.
  - by apply rows_of_slice.
  - done.
  - rewrite length_take, length_drop, length_slice by nia. rewrite Hl'. nia.
Qed.
End batch.

(** * Loading *)
Section loading.
Context `{UN : Uninit}.
Variables (t : DataType) (sz b h w n k : nat) (groups : list Z) (src : list bytes) (md : DataMode) (nnz0 : Z).
Variables (Hsz : SizeofType t = Z.of_nat sz) (Hpos : (0 < sz)%nat) (Hdims : (0 < b)%nat /\ (0 < h)%nat /\ (0 < w)%nat).
Variables (Hsmall : small (b * h * w)) (Hk : (k < n)%nat) (Hn : small n).
Variables (Hsrc : rows_of (w * sz) src) (Hls : length src = (b * h)%nat).
Definition shape3 (b h w : nat) : Shape := [Z.of_nat b; Z.of_nat h; Z.of_nat w].
Abbreviation info mode := (mkTensorInfo (shape3 b h w) (Some t) md mode nnz0 groups).
Abbreviation rank := (mkRank (Z.of_nat k) (Z.of_nat n)).
Abbreviation whole := (mkT t (shape3 b h w) (concat src)).

Lemma sz_le : (sz <= 8)%nat.
Proof. destruct (SizeofType_nat t) as (s & Hs & ?). lia. Qed.
Lemma shape3_bytes h' w' : (h' <= h)%nat -> (w' <= w)%nat -> nbytes t (shape3 b h' w') = Z.of_nat (b * h' * (w' * sz)).
Proof.
  intros Hh Hw. pose proof sz_le. unfold nbytes, shape3. cbn [Count foldl]. rewrite Hsz.
  assert (b * h' * w' <= b * h * w)%nat by (repeat apply Nat.mul_le_mono; lia). unfold small in Hsmall.
  rewrite i64_small; [lia|]. replace (_ * _) with (Z.of_nat (b * h' * w' * sz)) by lia. nia.
Qed.
Lemma stride3_run h' w' data (x : Tensor) : (w' <= w)%nat ->
  GetStrideInByte (mkT t (shape3 b h' w') data) x = (Ok (Z.of_nat (w' * sz)), x).
Proof.
  intros Hw. pose proof sz_le. unfold small in Hsmall. unfold GetStrideInByte. rewrite (bind_ok _ _ x x (Z.of_nat w') eq_refl). simpl.
  rewrite Hsz, <- Nat2Z.inj_mul, u64_nat; [done|]. nia.
Qed.
(** The index of the splitter fits in [int]. *)
Lemma batch_index g x : (g < b)%nat ->
  copy_batch_vsplit_index (Z.of_nat g) (Z.of_nat h) (Z.of_nat w) x = (Ok (Z.of_nat (g * h * w)), x).
Proof.
  intros Hg. unfold small in Hsmall. assert (g * h * w <= b * h * w)%nat by (repeat apply Nat.mul_le_mono; lia).
  assert (g * h <= g * h * w)%nat by nia.
  unfold copy_batch_vsplit_index. rewrite <- !Nat2Z.inj_mul. rewrite (bind_ok _ _ _ _ _ (int_ok (Z.of_nat (g * h)) x ltac:(lia))).
  rewrite <- !Nat2Z.inj_mul. apply int_ok. lia.
Qed.

Lemma load3 mode h' w' x :
  mode = BATCH_VSPLIT \/ mode = BATCH_HSPLIT -> IsSplittable (info mode) rank = Ok true -> dtype_ x = t ->
  set_part_shape (info mode) rank = reshape (shape3 b h' w') -> (0 < h' <= h)%nat -> (0 < w' <= w)%nat ->
  exists dst, rows_of (w' * sz) dst /\ length dst = (b * h')%nat /\
    LoadFromMemory (info mode) rank (concat src) x = CopyWeight (info mode) rank whole (mkT t (shape3 b h' w') (concat dst)).
Proof.
  intros Hm Hs Hx Hps Hh Hw.
  destruct (reshape_run x (shape3 b h' w') (b * h' * (w' * sz))) as (data & Hl & Hset); [|nia|].
  { rewrite Hx. apply shape3_bytes; lia. }
  destruct (chunk (b * h') (w' * sz) data Hl) as (dst & Hc & Hr & Hld). exists dst. split_and!; [done..|].
  rewrite (load_run (info mode) rank t); [|by destruct Hm as [-> | ->]|done..|].
  - rewrite Hps, (bind_ok _ _ _ _ _ Hset). by rewrite Hc, Hx.
  - cbn [shape]. rewrite shape3_bytes by lia. rewrite (length_rows _ _ Hsrc). lia.
Qed.

Lemma load_batch_vsplit q x : w = (q * n)%nat -> dtype_ x = t ->
  LoadFromMemory (info BATCH_VSPLIT) rank (concat src) x =
  (Ok tt, mkT t (shape3 b h q) (concat (batch_rows b h h 0 (k * q * sz) (q * sz) src))).
Proof.
  intros Hw Hx. pose proof sz_le as Hle. unfold small in *.
  assert (Hq : (0 < q <= w)%nat) by (destruct q; nia). assert (Hquot : Z.quot (Z.of_nat w) (Z.of_nat n) = Z.of_nat q)
    by (rewrite quot_nat, Hw, Nat.div_mul; lia).
  assert (Hkq : (k * q + q <= w)%nat) by nia. assert (Hbh : (b * h <= b * h * w /\ w <= b * h * w)%nat) by nia.
  destruct (load3 BATCH_VSPLIT h q x) as (dst & Hr & Hl & ->); try done; try lia.
  { by left. }
  { unfold IsSplittable. cbn. rewrite divides_nat by lia. f_equal. apply bool_decide_eq_true. by exists q. }
  { unfold set_part_shape. cbn. by rewrite Hquot. }
  unfold CopyWeight, copy_batch_vsplit. cbn [split_mode shape shape3]. rewrite !i32_nat by (unfold small; nia).
  apply (batch_run b h h 0 (k * q * sz) (q * sz) (w * sz)); try done; try nia.
  intros g y Hg. eexists. cbn [rank_size rank_id]. rewrite Hquot, u64_nat by lia.
  set (X := mkT t _ y). rewrite (bind_ok _ _ _ _ _ (batch_index g X Hg)). rewrite <- !Nat2Z.inj_mul.
  assert (g * h * w <= b * h * w)%nat by (repeat apply Nat.mul_le_mono; lia). assert (g * h <= g * h * w)%nat by nia.
  rewrite (bind_ok _ _ _ _ _ (int_ok (Z.of_nat (g * h)) X ltac:(lia))). rewrite (bind_ok (gets id) _ X X X eq_refl). cbv beta.
  unfold X at 1. rewrite (bind_ok _ _ _ _ _ (stride3_run h q y X ltac:(lia))), (bind_ok _ _ _ _ _ (stride3_run h w (concat src) X ltac:(lia))).
  cbn [dtype_ data_]. rewrite Hsz, <- !Nat2Z.inj_mul, <- Nat2Z.inj_add, !u64_nat by nia. f_equal; lia.
Qed.

Lemma load_batch_hsplit q x : h = (q * n)%nat -> dtype_ x = t ->
  LoadFromMemory (info BATCH_HSPLIT) rank (concat src) x =
  (Ok tt, mkT t (shape3 b q w) (concat (batch_rows b q h (k * q) 0 (w * sz) src))).
Proof.
  intros Hh Hx. pose proof sz_le as Hle. unfold small in *.
  assert (Hq : (0 < q <= h)%nat) by (destruct q; nia). assert (Hquot : Z.quot (Z.of_nat h) (Z.of_nat n) = Z.of_nat q)
    by (rewrite quot_nat, Hh, Nat.div_mul; lia).
  assert (Hkq : (k * q + q <= h)%nat) by nia. assert (Hbh : (b * h <= b * h * w /\ w <= b * h * w /\ h <= b * h)%nat) by nia.
  destruct (load3 BATCH_HSPLIT q w x) as (dst & Hr & Hl & ->); try done; try lia.
  { by right. }
  { unfold IsSplittable. cbn. rewrite divides_nat by lia. f_equal. apply bool_decide_eq_true. by exists q. }
  { unfold set_part_shape. cbn. by rewrite Hquot. }
  unfold CopyWeight, copy_batch_hsplit. cbn [split_mode shape shape3]. rewrite !i32_nat by (unfold small; nia).
  apply (batch_run b q h (k * q) 0 (w * sz) (w * sz)); try done; try lia.
  intros g y Hg. eexists. cbn [rank_size rank_id]. rewrite Hquot, u64_nat by lia.
  set (X := mkT t _ y). rewrite (bind_ok _ _ _ _ _ (batch_index g X Hg)).
  rewrite (bind_ok (gets id) _ X X X eq_refl). cbv beta.
  assert (g * q + q <= b * q)%nat by nia. assert (k * q * w <= h * w)%nat by (apply Nat.mul_le_mono_r; lia).
  assert (g * q * w <= b * q * w)%nat by (apply Nat.mul_le_mono_r; lia).
  assert (b * q * w <= b * h * w)%nat by (apply Nat.mul_le_mono_r, Nat.mul_le_mono_l; lia).
  assert ((g + 1) * h * w <= b * h * w)%nat by (repeat apply Nat.mul_le_mono; lia).
  unfold X at 1. rewrite (bind_ok _ _ _ _ _ (stride3_run q w y X ltac:(lia))), (bind_ok _ _ _ _ _ (stride3_run h w (concat src) X ltac:(lia))).
  cbn [dtype_ data_]. rewrite Hsz, <- !Nat2Z.inj_mul, <- Nat2Z.inj_add, !u64_nat by lia. f_equal; lia.
Qed.

(** The part of rank [k]: its shape and its rows. *)
Definition batch_part (mode : SplitMode) : Shape * list bytes :=
  match mode with
  | BATCH_VSPLIT => (shape3 b h (w / n), batch_rows b h h 0 (k * (w / n) * sz) (w / n * sz) src)
  | _ => (shape3 b (h / n) w, batch_rows b (h / n) h (k * (h / n)) 0 (w * sz) src)
  end%nat.
Definition batch_splittable (mode : SplitMode) : bool :=
  match mode with BATCH_VSPLIT => bool_decide (n | w)%nat | _ => bool_decide (n | h)%nat end.
Lemma batch_splittable_correct mode : mode = BATCH_VSPLIT \/ mode = BATCH_HSPLIT ->
  IsSplittable (info mode) rank = Ok (batch_splittable mode).
Proof.
  intros [-> | ->]; unfold IsSplittable, batch_splittable; cbn; by rewrite divides_nat by lia.
Qed.
Lemma load_batch mode x : mode = BATCH_VSPLIT \/ mode = BATCH_HSPLIT -> batch_splittable mode = true -> dtype_ x = t ->
  LoadFromMemory (info mode) rank (concat src) x =
  (Ok tt, mkT t (fst (batch_part mode)) (concat (snd (batch_part mode)))).
Proof.
  intros [-> | ->] Hs Hx; apply bool_decide_eq_true in Hs as [q Hq]; unfold batch_part; cbn [fst snd].
  - replace (w / n)%nat with q by (rewrite Hq, Nat.div_mul; lia). by apply load_batch_vsplit.
  - replace (h / n)%nat with q by (rewrite Hq, Nat.div_mul; lia). by apply load_batch_hsplit.
Qed.
End loading.
