(* ===== verification/WeightTheorems.v ===== *)
(** The theorems about splitting weights. *)
From Stdlib Require Import ZArith ZifyBool Lia.
From stdpp Require Import base list strings.
From S2P Require Import Prelude StringUtil MemoryReuse WeightSplit WeightProofs WeightLoad WeightBatch.

(** * Gathering

    The inverse of splitting, from the tensors of all ranks. *)
Definition rows_in (x : Tensor) : list bytes :=
  let wb := (Z.to_nat (List.last (shape_ x) 0%Z) * Z.to_nat (SizeofType (dtype_ x)))%nat in
  (fun i => slice (i * wb) wb (data_ x)) <$> seq 0 (length (data_ x) / wb).
(** Takes from each part of a row its columns of the first group, then of the
    second, and so on. *)
Fixpoint gather_row (sz n : nat) (widths : list nat) (parts : list bytes) : bytes :=
  match widths with
  | [] => []
  | g :: widths' =>
      let q := (g / n * sz)%nat in
      concat (take q <$> parts) ++ gather_row sz n widths' (drop q <$> parts)
  end.
Definition gather (mode : SplitMode) (m : bool) (sz w : nat) (groups : list nat) (n : nat) (parts : list (list bytes)) : list bytes :=
  let row i := (fun p => nth i p []) <$> parts in
  let rows := seq 0 (length (hd [] parts)) in
  match mode with
  | NOSPLIT => hd [] parts
  | HSPLIT => if m then concat parts else hd [] parts
  | MQA_VSPLIT =>
      (fun i => gather_row sz n [hd 0 groups] (row i) ++ drop (hd 0 groups / n * sz) (hd [] (row i))) <$> rows
  | _ => (fun i => gather_row sz n (column_groups mode w groups) (row i)) <$> rows
  end%nat.

Section gather.
Implicit Types r : bytes.

Lemma nth_fmap_seq {X} (f : nat -> X) n k d : (k < n)%nat -> nth k (f <$> seq 0 n) d = f k.
Proof.
  intros Hk. rewrite nth_lookup, list_lookup_fmap, lookup_seq_lt by done. done.
Qed.
Lemma map_nth_seq {X Y} (f : X -> Y) l d : (fun i => f (nth i l d)) <$> seq 0 (length l) = f <$> l.
Proof.
  apply list_eq. intros i. rewrite !list_lookup_fmap. destruct (l !! i) as [x|] eqn:Hi.
  - rewrite lookup_seq_lt by (by eapply lookup_lt_Some). simpl. by rewrite (nth_lookup_Some _ _ _ _ Hi).
  - rewrite lookup_seq_ge; [done|]. by apply lookup_ge_None.
Qed.
Lemma slices_concat {X} wb n (l : list X) : length l = (n * wb)%nat -> concat ((fun i => slice (i * wb) wb l) <$> seq 0 n) = l.
Proof.
  revert l. induction n as [|n IH]; intros l Hl.
  - by destruct l.
  - rewrite <- cons_seq, <- fmap_S_seq, fmap_cons, <- list_fmap_compose. cbn [concat].
    trans (take wb l ++ drop wb l); [|apply take_drop]. f_equal.
    rewrite <- (IH (drop wb l)) by (rewrite length_drop; lia). f_equal. apply list_fmap_ext. intros i j Hij.
    unfold compose, slice. rewrite drop_drop. done.
Qed.

(** The rows of a loaded tensor. *)
Lemma rows_in_concat t sz m h w (rows : list bytes) :
  SizeofType t = Z.of_nat sz -> (0 < w * sz)%nat -> rows_of (w * sz) rows ->
  rows_in (mkT t (tshape m h w) (concat rows)) = rows.
Proof.
  intros Hsz Hpos Hr. unfold rows_in. cbn [shape_ dtype_ data_].
  replace (List.last (tshape m h w) 0) with (Z.of_nat w) by by destruct m. rewrite Hsz, !Nat2Z.id.
  rewrite (length_rows _ _ Hr), Nat.div_mul by lia. clear Hpos. induction Hr as [|r rows Hl Hr IH]; [done|].
  cbn [length]. rewrite <- cons_seq, <- fmap_S_seq, fmap_cons, <- list_fmap_compose. cbn [concat]. f_equal.
  - cbn [Nat.mul]. rewrite slice_app_l by lia. unfold slice. rewrite drop_0, take_ge; [done|lia].
  - rewrite <- IH at 2. apply list_fmap_ext. intros i j Hij. unfold compose.
    replace (S j * (w * sz))%nat with (length r + j * (w * sz))%nat by lia. by rewrite slice_app_r.
Qed.

(** The parts of one row, one per rank. *)
Lemma slice_slice {X} a b c d (l : list X) : (a + b <= d)%nat -> slice a b (slice c d l) = slice (c + a) b l.
Proof.
  intros H. unfold slice. rewrite List.skipn_firstn_comm, take_take, drop_drop. f_equal. lia.
Qed.
Lemma slice_join {X} a b c (l : list X) : slice a b l ++ slice (a + b) c l = slice a (b + c) l.
Proof. unfold slice. rewrite <- drop_drop. by rewrite take_take_drop. Qed.
Lemma gather_group sz n q off w (r : bytes) :
  length r = (w * sz)%nat -> (off + q * n <= w)%nat ->
  concat ((fun k => slice ((off + k * q) * sz) (q * sz) r) <$> seq 0 n) = slice (off * sz) (q * n * sz) r.
Proof.
  intros Hr Hle. rewrite <- (slices_concat (q * sz) n (slice (off * sz) (q * n * sz) r)) by (rewrite length_slice; nia).
  f_equal. apply list_fmap_ext. intros i k Hk. apply lookup_seq in Hk as [-> Hk].
  rewrite slice_slice by nia. f_equal. lia.
Qed.
Lemma gather_row_parts sz n widths off w (r : bytes) (rest : nat -> bytes) :
  (0 < n)%nat -> divisible n widths -> length r = (w * sz)%nat -> (off + sum_list widths <= w)%nat ->
  gather_row sz n widths ((fun k => row_part sz (even_segments n k off widths) r ++ rest k) <$> seq 0 n) =
  slice (off * sz) (sum_list widths * sz) r.
Proof.
  intros Hn Hd Hr. revert off. induction Hd as [|g widths [q ->] Hd IH]; intros off Hle.
  - unfold slice. by rewrite take_0.
  - cbn [gather_row even_segments]. change (sum_list ((q * n)%nat :: widths)) with (q * n + sum_list widths)%nat in Hle |- *.
    rewrite Nat.div_mul by lia. rewrite <- !list_fmap_compose.
    assert (Hlen : forall k, (k < n)%nat -> length (slice ((off + k * q) * sz) (q * sz) r) = (q * sz)%nat).
    { intros k Hk. apply length_slice. nia. }
    rewrite Nat.mul_add_distr_r, <- slice_join. f_equal.
    + rewrite <- (gather_group sz n q off w) by (done || lia). f_equal. apply list_fmap_ext. intros i k Hk.
      apply lookup_seq in Hk as [-> Hk]. unfold compose, row_part. cbn. rewrite <- app_assoc.
      by rewrite take_app_le, take_ge by (rewrite Hlen; done).
    + replace (off * sz + q * n * sz)%nat with ((off + q * n) * sz)%nat by lia. rewrite <- IH by lia. f_equal.
      apply list_fmap_ext. intros i k Hk. apply lookup_seq in Hk as [-> Hk]. unfold compose, row_part. cbn.
      rewrite <- app_assoc. rewrite drop_app_ge by (rewrite Hlen; done). by rewrite Hlen, Nat.sub_diag.
Qed.

Lemma gather_row_whole sz n widths w (r : bytes) :
  (0 < n)%nat -> divisible n widths -> length r = (w * sz)%nat -> sum_list widths = w ->
  gather_row sz n widths ((fun k => row_part sz (even_segments n k 0 widths) r) <$> seq 0 n) = r.
Proof.
  intros Hn Hd Hr Hw. rewrite (list_fmap_ext _ (fun k => row_part sz (even_segments n k 0 widths) r ++ [])).
  2: { intros. by rewrite app_nil_r. }
  rewrite (gather_row_parts sz n widths 0 w) by (done || lia). rewrite Hw. unfold slice. cbn [Nat.mul].
  rewrite drop_0. apply take_ge. lia.
Qed.

(** Row [i] of all parts when each rank maps every row. *)
Lemma rows_fmap {X Y} (f : nat -> list X -> list Y) n i (src : list (list X)) : (i < length src)%nat ->
  (fun p => nth i p []) <$> ((fun k => f k <$> src) <$> seq 0 n) = (fun k => f k (nth i src [])) <$> seq 0 n.
Proof.
  intros Hi. rewrite <- list_fmap_compose. apply list_fmap_ext. intros j k _. unfold compose.
  destruct (lookup_lt_is_Some_2 src i Hi) as [r Hr]. rewrite (nth_lookup_Some _ _ _ _ Hr).
  apply nth_lookup_Some. by rewrite list_lookup_fmap, Hr.
Qed.
Lemma gather_rows {X} (f : nat -> list X -> list X) (g : list (list X) -> list X) n (src : list (list X)) :
  (0 < n)%nat -> (forall r : list X, r ∈ src -> g ((fun k => f k r) <$> seq 0 n) = r) ->
  (fun i => g ((fun p => nth i p []) <$> ((fun k => f k <$> src) <$> seq 0 n))) <$>
    seq 0 (length (hd [] ((fun k => f k <$> src) <$> seq 0 n))) = src.
Proof.
  intros Hn Hg. destruct n as [|n]; [lia|].
  replace (length (hd _ _)) with (length src) by (rewrite <- cons_seq; cbn [fmap list_fmap hd]; by rewrite length_fmap).
  trans ((fun i => id (nth i src [])) <$> seq 0 (length src)).
  - apply list_fmap_ext. intros i j Hi. apply lookup_seq in Hi as [-> Hj]. rewrite Nat.add_0_l, rows_fmap by done.
    apply Hg. destruct (lookup_lt_is_Some_2 src i Hj) as [r Hr]. rewrite (nth_lookup_Some _ _ _ _ Hr).
    by eapply list_elem_of_lookup_2.
  - rewrite map_nth_seq. apply list_fmap_id.
Qed.

Lemma row_part_whole sz off widths r :
  row_part sz (whole_segments off widths) r = slice (off * sz) (sum_list widths * sz) r.
Proof.
  revert off. induction widths as [|g widths IH]; intros off; [unfold slice; by rewrite take_0|].
  change (sum_list (g :: widths)) with (g + sum_list widths)%nat. rewrite Nat.mul_add_distr_r, <- slice_join.
  unfold row_part in *. cbn. rewrite IH. do 2 f_equal. lia.
Qed.

Lemma gather_parts mode m sz h w groups n (src : list bytes) :
  (0 < n)%nat -> (m = false -> h = 1%nat) -> rows_of (w * sz) src -> length src = h ->
  splittable mode m h w groups n = true ->
  gather mode m sz w groups n ((fun k => rank_part mode m sz h w groups n k src) <$> seq 0 n) = src.
Proof.
  intros Hn Hm Hsrc Hl Hs.
  assert (Hrow : forall r, r ∈ src -> length r = (w * sz)%nat) by (intros r Hr; exact (proj1 (Forall_forall _ _) Hsrc r Hr)).
  assert (Hcols : match mode with VSPLIT | QKVSPLIT | KVSPLIT | GROUP_VSPLIT => True | _ => False end ->
    (fun i => gather_row sz n (column_groups mode w groups) ((fun p => nth i p []) <$>
       ((fun k => row_part sz (even_segments n k 0 (column_groups mode w groups)) <$> src) <$> seq 0 n))) <$>
    seq 0 (length (hd [] ((fun k => row_part sz (even_segments n k 0 (column_groups mode w groups)) <$> src) <$> seq 0 n))) = src).
  { intros Hmode. destruct (column_groups_ok mode m h w groups n Hmode Hs) as [Hd Hsum].
    apply gather_rows; [done|]. intros r Hr. apply (gather_row_whole sz n _ w); try done. by apply Hrow. }
  destruct mode; try done; try (by apply Hcols).
  - destruct n; [lia|done].
  - unfold gather, rank_part. destruct m; [|destruct n; [lia|done]]. subst h. unfold splittable in Hs.
    apply bool_decide_eq_true in Hs as [q Hq]. rewrite Hq, Nat.div_mul by lia. apply slices_concat. lia.
  - unfold splittable in Hs. apply bool_decide_eq_true in Hs as (Hlg & [q Hq] & Hsum). unfold gather, rank_part.
    destruct groups as [|g0 gs]; [done|]. cbn [hd tl] in *. subst g0. rewrite Nat.div_mul by lia.
    change (sum_list ((q * n)%nat :: gs)) with (q * n + sum_list gs)%nat in Hsum.
    apply (gather_rows _ (fun l => gather_row sz n [(q * n)%nat] l ++ drop (q * sz) (hd [] l))); [done|].
    intros r Hr. specialize (Hrow r Hr).
    assert (Hf : (fun k => row_part sz ((k * q, q)%nat :: whole_segments (q * n) gs) r) <$> seq 0 n =
      (fun k => row_part sz (even_segments n k 0 [(q * n)%nat]) r ++ row_part sz (whole_segments (q * n) gs) r) <$> seq 0 n).
    { apply list_fmap_ext. intros i k _. rewrite <- row_part_app. cbn [even_segments app]. by rewrite Nat.div_mul by lia. }
    assert (Hd1 : divisible n [(q * n)%nat]) by (repeat constructor; by exists q).
    rewrite Hf, (gather_row_parts sz n [(q * n)%nat] 0 w) by (done || (cbn; lia)).
    destruct n as [|n']; [lia|]. rewrite <- cons_seq. cbn [fmap list_fmap hd]. rewrite row_part_whole.
    assert (Hlen : length (row_part sz (even_segments (S n') 0 0 [(q * S n')%nat]) r) = (q * sz)%nat).
    { cbn [even_segments]. rewrite Nat.div_mul by lia. unfold row_part. cbn [fmap list_fmap concat Nat.mul Nat.add]. rewrite app_nil_r.
      apply length_slice. nia. }
    rewrite drop_app_ge, Hlen, Nat.sub_diag, drop_0 by lia.
    change (sum_list [(q * S n')%nat]) with (q * S n' + 0)%nat. rewrite Nat.add_0_r.
    rewrite (slice_join 0 (q * S n' * sz)). unfold slice. rewrite drop_0. apply take_ge. nia.
Qed.
End gather.

(** * Theorems *)
Section theorems.
Context `{UN : Uninit}.

Lemma load_refused info r ptr x : IsSplittable info r = Ok false ->
  LoadFromMemory info r ptr x = (Err (AsException ALLSPARK_RUNTIME_ERROR), x).
Proof.
  intros Hs. unfold LoadFromMemory, mbind, M_bind. rewrite Hs. by destruct (split_mode info).
Qed.

(** C18. Loading cuts a weight as its split mode says.  For every mode of
    matrices and biases (all but [BATCH_KVSPLIT]) and whatever the tensor held
    before, [LoadFromMemory] either finds that the columns or rows divide evenly
    between the ranks and leaves in the tensor of rank [k] exactly the rows and
    columns that belong to it, in order, with their shape; or it throws and
    leaves the tensor untouched.  All index arithmetic stays in range. *)
Theorem LoadFromMemory_correct m t sz h w n k mode groups (rows : list bytes) md nnz0 x :
  weight_ok m t h w -> SizeofType t = Z.of_nat sz -> (k < n)%nat -> small n -> small (sum_list groups) ->
  mode <> BATCH_KVSPLIT -> rows_of (w * sz) rows -> length rows = h -> dtype_ x = t ->
  LoadFromMemory (mkTensorInfo (tshape m h w) (Some t) md mode nnz0 (Z.of_nat <$> groups))
    (mkRank (Z.of_nat k) (Z.of_nat n)) (concat rows) x =
  if splittable mode m h w groups n
  then (Ok tt, mkT t (let '(h', w') := part_dims mode m h w groups n in tshape m h' w')
                 (concat (rank_part mode m sz h w groups n k rows)))
  else (Err (AsException ALLSPARK_RUNTIME_ERROR), x).
Proof.
  intros Hok Hsz Hk Hn Hg Hmode Hr Hl Hx. destruct (splittable mode m h w groups n) eqn:Hs.
  - by apply load_part.
  - apply load_refused. rewrite splittable_correct by (done || lia). by rewrite Hs.
Qed.

(** C19. The ranks together hold the weight.  When a weight is splittable every
    rank loads its part, and gathering the columns (or rows) of the parts of all
    ranks group by group gives back the weight: no element is lost and none is
    out of place. *)
Theorem ranks_rebuild_weight m t sz h w n mode groups (rows : list bytes) md nnz0 x :
  weight_ok m t h w -> SizeofType t = Z.of_nat sz -> (0 < n)%nat -> small n -> small (sum_list groups) ->
  rows_of (w * sz) rows -> length rows = h -> dtype_ x = t -> splittable mode m h w groups n = true ->
  let load k := LoadFromMemory (mkTensorInfo (tshape m h w) (Some t) md mode nnz0 (Z.of_nat <$> groups))
    (mkRank (Z.of_nat k) (Z.of_nat n)) (concat rows) x in
  (forall k, (k < n)%nat -> fst (load k) = Ok tt) /\
  gather mode m sz w groups n ((fun k => rows_in (snd (load k))) <$> seq 0 n) = rows.
Proof.
  intros Hok Hsz Hn0 Hn Hg Hr Hl Hx Hs load.
  assert (Hload : forall k, (k < n)%nat -> load k = (Ok tt, mkT t (let '(h', w') := part_dims mode m h w groups n in tshape m h' w')
    (concat (rank_part mode m sz h w groups n k rows)))) by (intros k Hk; by apply load_part).
  split; [intros k Hk; by rewrite Hload|].
  trans (gather mode m sz w groups n ((fun k => rank_part mode m sz h w groups n k rows) <$> seq 0 n)).
  - f_equal. apply list_fmap_ext. intros i k Hk. apply lookup_seq in Hk as [-> Hk]. rewrite Nat.add_0_l, Hload by done. cbn [snd].
    destruct (rank_part_rows mode m sz h w groups n i rows) as [Hpos Hrows]; [done|apply (wo_cols _ _ _ _ Hok)|done..|].
    pose proof (sz_bounds m t sz h w Hok Hsz) as Hszb. destruct (part_dims mode m h w groups n) as [h' w'] eqn:Hdims. cbn [snd] in *.
    apply (rows_in_concat t sz); [done|nia|done].
  - apply gather_parts; try done. apply (wo_bias _ _ _ _ Hok).
Qed.

(** C34. Loading cuts each matrix of a batch.  [BATCH_VSPLIT] gives rank [k] the
    columns of every row of every matrix that belong to it and [BATCH_HSPLIT] its
    rows of every matrix, when the dimension divides evenly; otherwise it throws
    and leaves the tensor untouched.  The batch must have fewer than 2{^31}
    elements. *)
Theorem LoadFromMemory_batch_correct t sz b h w n k mode groups (rows : list bytes) md nnz0 x :
  SizeofType t = Z.of_nat sz -> (0 < sz)%nat -> (0 < b)%nat /\ (0 < h)%nat /\ (0 < w)%nat -> small (b * h * w) ->
  (k < n)%nat -> small n -> mode = BATCH_VSPLIT \/ mode = BATCH_HSPLIT ->
  rows_of (w * sz) rows -> length rows = (b * h)%nat -> dtype_ x = t ->
  LoadFromMemory (mkTensorInfo (shape3 b h w) (Some t) md mode nnz0 groups)
    (mkRank (Z.of_nat k) (Z.of_nat n)) (concat rows) x =
  if batch_splittable h w n mode
  then (Ok tt, mkT t (fst (batch_part sz b h w n k rows mode)) (concat (snd (batch_part sz b h w n k rows mode))))
  else (Err (AsException ALLSPARK_RUNTIME_ERROR), x).
Proof.
  intros Hsz Hpos Hd Hsm Hk Hn Hm Hr Hl Hx. destruct (batch_splittable h w n mode) eqn:Hs.
  - by apply load_batch.
  - apply load_refused. erewrite batch_splittable_correct by done. by rewrite Hs.
Qed.
End theorems.

(** * On concrete weights *)
Module WeightDemo.
#[local] Instance demo_uninit : Uninit := { uninit n := List.repeat 170 n; uninit_length n := List.repeat_length 170 n }.

(** Two rows of twelve 16-bit columns, and a fresh tensor. *)
Definition bytes_from (a n : nat) : bytes := Z.of_nat <$> seq a n.
Definition rows : list bytes := [bytes_from 0 24; bytes_from 24 24].
Definition fresh (t : DataType) : Tensor := mkT t [0] [].
Definition qkv : TensorInfo := mkTensorInfo [2; 12] (Some INT16) DENSE QKVSPLIT 0 [].
Lemma qkv_ok : weight_ok true INT16 2 12.
Proof. constructor; [lia|lia|split; reflexivity|done|split; reflexivity]. Defined.

(** Rank 1 of 2 gets the upper half of each of the three matrices. *)
Lemma LoadFromMemory_correct_witness :
  LoadFromMemory qkv (mkRank 1 2) (concat rows) (fresh INT16) =
  (Ok tt, mkT INT16 [2; 6] [4; 5; 6; 7; 12; 13; 14; 15; 20; 21; 22; 23; 28; 29; 30; 31; 36; 37; 38; 39; 44; 45; 46; 47]).
Proof.
  refine (LoadFromMemory_correct true INT16 2 2 12 2 1 QKVSPLIT [] rows DENSE 0 (fresh INT16) qkv_ok _ _ _ _ _ _ _ _).
  all: try reflexivity; try lia; try discriminate. repeat constructor.
Defined.
Lemma ranks_rebuild_weight_witness :
  gather MQA_VSPLIT true 2 12 [8; 2; 2]%nat 4
    ((fun k => rows_in (snd (LoadFromMemory (mkTensorInfo [2; 12] (Some INT16) DENSE MQA_VSPLIT 0 [8; 2; 2])
       (mkRank (Z.of_nat k) 4) (concat rows) (fresh INT16)))) <$> seq 0 4) = rows.
Proof.
  refine (proj2 (ranks_rebuild_weight true INT16 2 2 12 4 MQA_VSPLIT [8; 2; 2]%nat rows DENSE 0 (fresh INT16) qkv_ok _ _ _ _ _ _ _ _)).
  all: try reflexivity; try lia. repeat constructor.
Defined.
(** Two matrices of two rows and four columns of bytes. *)
Definition batch : list bytes := [[0; 1; 2; 3]; [4; 5; 6; 7]; [8; 9; 10; 11]; [12; 13; 14; 15]].
Lemma LoadFromMemory_batch_correct_witness :
  LoadFromMemory (mkTensorInfo [2; 2; 4] (Some INT8) DENSE BATCH_VSPLIT 0 []) (mkRank 1 2) (concat batch) (fresh INT8) =
  (Ok tt, mkT INT8 [2; 2; 2] [2; 3; 6; 7; 10; 11; 14; 15]).
Proof.
  refine (LoadFromMemory_batch_correct INT8 1 2 2 4 2 1 BATCH_VSPLIT [] batch DENSE 0 (fresh INT8) _ _ _ _ _ _ _ _ _ _).
  all: try reflexivity; try lia; try (by left). repeat constructor.
Defined.

(** On host memory [CopyMatrix2D] copies whole rows of the destination whatever
    width it is given, so the two interleaved copies of [BATCH_KVSPLIT] run past
    the end of the buffer, even for one rank. *)
Lemma batch_kvsplit_overruns :
  fst (LoadFromMemory (mkTensorInfo [1; 2; 4] (Some INT8) DENSE BATCH_KVSPLIT 0 []) (mkRank 0 1) (concat (take 2 batch))
    (fresh INT8)) = Err UB.
Proof. reflexivity. Qed.
(** The first dimension's products are computed in [int]. *)
Lemma batch_index_overflows x : copy_batch_vsplit_index 128 4096 4096 x = (Err UB, x).
Proof. reflexivity. Qed.
(** The two-dimensional case of [BATCH_VSPLIT] is refused whatever its sizes. *)
Lemma batch_scale_refused b w n t : IsSplittable (mkTensorInfo [b; w] t DENSE BATCH_VSPLIT 0 []) (mkRank 0 n) = Ok false.
Proof. reflexivity. Qed.
(** A width that divides between the ranks but not between keys and values and
    ranks: the last key and value are left out without an error. *)
Lemma batch_kv_odd_width_accepted :
  IsSplittable (mkTensorInfo [1; 1; 6] (Some INT8) DENSE BATCH_KVSPLIT 0 []) (mkRank 0 2) = Ok true /\
  IsSplittable (mkTensorInfo [1; 6] (Some INT8) DENSE KVSPLIT 0 []) (mkRank 0 2) = Ok false.
Proof. split; reflexivity. Qed.
(** The bias of a row-split weight stays whole, yet its width must divide. *)
Lemma hsplit_bias_refused :
  IsSplittable (mkTensorInfo [8; 3] (Some INT8) DENSE HSPLIT 0 []) (mkRank 0 2) = Ok true /\
  IsSplittable (mkTensorInfo [3] (Some INT8) DENSE HSPLIT 0 []) (mkRank 0 2) = Ok false.
Proof. split; reflexivity. Qed.
End WeightDemo.
