(* ===== verification/Sparse.v ===== *)
(** Sparse weights (src/csrc/utility/sparse_util.cpp): the conversion of a dense
    matrix, stored by rows, to the columns of its entries that are not near zero.
    CSC has the offsets of the columns, each padded to a multiple of the width of
    a vector load; ELL pads all columns to the same number of entries and
    interleaves them by vectors.

    The arrays have the sizes that their callers give them; an access outside is
    [Err UB]. *)
From Stdlib Require Import ZArith ZifyBool Lia SpecFloat.
From stdpp Require Import base list strings.
From S2P Require Import Prelude StringUtil WeightSplit.

(** * Entries

    A [float] or [half] is its bits.  [mw] and [ew] are the widths of mantissa
    and exponent. *)
Definition of_bits (mw ew b : Z) : spec_float :=
  let m := Z.land b (2 ^ mw - 1) in
  let e := Z.land (Z.shiftr b mw) (2 ^ ew - 1) in
  let s := Z.testbit b (mw + ew) in
  if e =? 2 ^ ew - 1 then (if m =? 0 then S754_infinity s else S754_nan)
  else
    let '(m, e) := if e =? 0 then (m, 1) else (m + 2 ^ mw, e) in
    match m with
    | Zpos p => S754_finite s p (e + 1 - 2 ^ (ew - 1) - mw)
    | _ => S754_zero s
    end.
Definition to_float (f : spec_float) : spec_float :=
  match f with
  | S754_finite s m e => binary_normalize 24 128 (if s then Zneg m else Zpos m) e s
  | _ => f
  end.
(** [float threshold = 1e-9]. *)
Definition threshold : spec_float := of_bits 23 8 0x3089705F.
Lemma threshold_literal :
  threshold = to_float (SFdiv 53 1024 (binary_normalize 53 1024 1 0 false) (binary_normalize 53 1024 1000000000 0 false)).
Proof. by vm_compute. Qed.
Definition above_threshold (f : spec_float) : bool := SFltb threshold (SFabs f).
Definition large_float (b : Z) : bool := above_threshold (of_bits 23 8 b).
Definition large_half (b : Z) : bool := above_threshold (to_float (of_bits 10 5 b)).

(** * Arrays and counters *)
Definition u16 (z : Z) : Z := z mod 2 ^ 16.
(** [nnz] or [pos0], the next place to fill; ELL has no offsets. *)
Record Arrays := mkArrays { values : list Z; row_idx : list Z; col_offset : list Z; used : Z }.

Section steps.
Context {S : Type}.
Definition as_int (z : Z) : M S Z := if (INT32_MIN <=? z) && (z <=? INT32_MAX) then mret z else throw UB.
Definition remainder (a b : Z) : M S Z := if b =? 0 then throw UB else mret (Z.rem a b).
Definition quotient (a b : Z) : M S Z := if b =? 0 then throw UB else mret (Z.quot a b).
Definition read (l : list Z) (i : Z) : M S Z :=
  if (0 <=? i) && (i <? Z.of_nat (length l)) then mret (nth (Z.to_nat i) l 0) else throw UB.
Definition write (l : list Z) (i v : Z) : M S (list Z) :=
  if (0 <=? i) && (i <? Z.of_nat (length l)) then mret (<[Z.to_nat i := v]> l) else throw UB.
(** [denseMatrix[i * n + j]] *)
Definition element (a : list Z) (n i j : Z) : M S Z := k ← as_int (i * n); k ← as_int (k + j); read a k.
(** A loop over a counter of its own. *)
Definition counter (m : M Z unit) : M S Z := fun s =>
  match m 0 with (Ok _, z) => (Ok z, s) | (Err e, _) => (Err e, s) end.
End steps.
Definition bump : M Z unit := z ← gets id; z ← as_int (z + 1); modify (fun _ => z).
Definition push (i v : Z) : M Arrays unit :=
  x ← gets id;
  rows ← write (row_idx x) (used x) i;
  vals ← write (values x) (used x) v;
  modify (fun _ => mkArrays vals rows (col_offset x) (used x + 1)).

Section convert.
Context (large : Z -> bool) `{UN : Uninit}.

(** * Sizes *)
Definition count_column (a : list Z) (m n j : Z) : M Z unit :=
  for_each (seqZ 0 m) (fun i => v ← element a n i j; when (large v) bump).
Definition get_nnz {S} (a : list Z) (m n VECT : Z) : M S Z :=
  counter (for_each (seqZ 0 n) (fun j =>
    last_nnz ← gets id;
    count_column a m n j;;
    nnz ← gets id;
    r ← remainder (nnz - last_nnz) VECT;
    when (negb (r =? 0)) (for_each (seqZ 0 (VECT - r)) (fun _ => bump)))).
Definition get_nnz_ell {S} (a : list Z) (m n VECT : Z) : M S Z :=
  max_c ← counter (for_each (seqZ 0 n) (fun j =>
    sum ← counter (count_column a m n j);
    modify (fun max_c => if max_c <? sum then sum else max_c)));
  r ← remainder max_c VECT;
  max_c ← (if r =? 0 then mret max_c else as_int (max_c + (VECT - r)));
  as_int (max_c * n).

(** * Conversions *)
Definition gather (cast : Z -> Z) (a : list Z) (m n j : Z) : M Arrays unit :=
  for_each (seqZ 0 m) (fun i => v ← element a n i j; when (large v) (push (cast i) v)).
Definition csc_column (a : list Z) (m n VECT j : Z) : M Arrays unit :=
  last_nnz ← gets used;
  gather id a m n j;;
  nnz ← gets used;
  r ← remainder (nnz - last_nnz) VECT;
  when (negb (r =? 0))
    (rows ← gets row_idx;
     last_idx ← read rows (nnz - 1);
     for_each (seqZ 0 (VECT - r)) (fun _ => push last_idx 0));;
  x ← gets id;
  offsets ← write (col_offset x) (j + 1) (used x);
  modify (fun x => mkArrays (values x) (row_idx x) offsets (used x)).
Definition dense_to_csc_padding (a : list Z) (m n VECT : Z) : M Arrays unit :=
  x ← gets id;
  offsets ← write (col_offset x) 0 0;
  modify (fun x => mkArrays (values x) (row_idx x) offsets 0);;
  for_each (seqZ 0 n) (csc_column a m n VECT).

(** The padding reads the last index from [rowIdx], which is not filled yet. *)
Definition ell_column (a : list Z) (m n max_c : Z) (rowIdx : list Z) (j : Z) : M Arrays unit :=
  last_nnz ← gets used;
  gather u16 a m n j;;
  nnz ← gets used;
  last_idx ← read rowIdx (nnz - 1);
  for_each (seqZ 0 (max_c - (nnz - last_nnz))) (fun _ => push last_idx 0).
(** [pos1] is [i * VECT] plus [max_c] for each column before. *)
Definition ell_block (csc : Arrays) (n max_c VECT i : Z) : M Arrays unit :=
  for_each (seqZ 0 n) (fun j =>
    let pos1 := i * VECT + j * max_c in
    for_each (seqZ 0 VECT) (fun k =>
      r ← read (row_idx csc) (pos1 + k); v ← read (values csc) (pos1 + k); push r v);;
    _ ← as_int (pos1 + max_c); mret tt).
Definition dense_to_ell_padding (a : list Z) (m n nnz_ VECT : Z) : M Arrays unit :=
  max_c ← quotient nnz_ n;
  rowIdx ← gets row_idx;
  let tmp := uninit (Z.to_nat nnz_) in
  match for_each (seqZ 0 n) (ell_column a m n max_c rowIdx) (mkArrays tmp tmp [] 0) with
  | (Err e, _) => throw e
  | (Ok _, csc) =>
      blocks ← quotient max_c VECT;
      modify (fun x => mkArrays (values x) (row_idx x) (col_offset x) 0);;
      for_each (seqZ 0 blocks) (ell_block csc n max_c VECT)
  end.
End convert.
