(* ===== verification/SparseProofs.v ===== *)
(** The conversions of sparse weights as functions on lists of entries: what the
    loops of [Sparse] leave in the arrays. *)
From Stdlib Require Import ZArith ZifyBool Lia.
From stdpp Require Import base list strings.
From S2P Require Import Prelude StringUtil WeightSplit Sparse.

(** * Entries of a matrix *)
Definition at_ (a : list Z) (n i j : Z) : Z := nth (Z.to_nat (i * n + j)) a 0.
Definition kept (large : Z -> bool) (v : Z) : Z := if large v then v else 0.
Definition size {A} (l : list A) : Z := Z.of_nat (length l).
Lemma size_app {A} (l k : list A) : size (l ++ k) = size l + size k.
Proof. unfold size. rewrite length_app. lia. Qed.
(** The first value of a row in a list of rows and values. *)
Fixpoint find_row (i : Z) (l : list (Z * Z)) : Z :=
  match l with [] => 0 | (r, v) :: l' => if r =? i then v else find_row i l' end.
Lemma find_row_app i l k : find_row i (l ++ k) = if bool_decide (i ∈ l.*1) then find_row i l else find_row i k.
Proof.
  induction l as [|[r v] l IH]; [done|]. rewrite fmap_cons. cbn [app find_row fst]. destruct (r =? i) eqn:E.
  - destruct (bool_decide_reflect (i ∈ r :: l.*1)) as [|H]; [reflexivity|]. destruct H. assert (r = i) as -> by lia. apply list_elem_of_here.
  - rewrite IH. assert (Hne : i <> r) by lia. rewrite (bool_decide_ext (i ∈ r :: l.*1) (i ∈ l.*1)); [done|]. rewrite elem_of_cons. intuition congruence.
Qed.
Lemma find_row_zeros i r k : find_row i (List.repeat (r, 0) k) = 0.
Proof. induction k as [|k IH]; [done|]. cbn. by destruct (r =? i). Qed.

Section entries.
Context (large : Z -> bool) (a : list Z) (m n : Z).
Definition entries (rows : list Z) (j : Z) : list (Z * Z) :=
  filter (fun p => large p.2 = true) ((fun i => (i, at_ a n i j)) <$> rows).
Definition column (j : Z) : list (Z * Z) := entries (seqZ 0 m) j.

Lemma entries_cons i rows j :
  entries (i :: rows) j = (if large (at_ a n i j) then [(i, at_ a n i j)] else []) ++ entries rows j.
Proof.
  unfold entries. rewrite fmap_cons, filter_cons. cbn [snd]. by destruct (large (at_ a n i j)).
Qed.
Lemma find_entries i rows j : NoDup rows ->
  find_row i (entries rows j) = if bool_decide (i ∈ rows) then kept large (at_ a n i j) else 0.
Proof.
  induction 1 as [|r rows Hr Hrows IH]; [done|]. rewrite entries_cons. unfold kept in *. destruct (decide (r = i)) as [->|Hne].
  - rewrite bool_decide_true by apply list_elem_of_here. destruct (large (at_ a n i j)); cbn [app find_row].
    + by rewrite Z.eqb_refl.
    + rewrite IH. by rewrite bool_decide_false.
  - rewrite (bool_decide_ext (i ∈ r :: rows) (i ∈ rows)) by (rewrite elem_of_cons; intuition congruence).
    destruct (large (at_ a n r j)); cbn [app find_row]; [|done]. by replace (r =? i) with false by lia.
Qed.
Lemma column_nonempty i j : 0 <= i < m -> large (at_ a n i j) = true -> column j <> [].
Proof.
  intros Hi Hl Hnil. assert (Hin : (i, at_ a n i j) ∈ column j); [|rewrite Hnil in Hin; by apply not_elem_of_nil in Hin].
  apply list_elem_of_filter. split; [done|]. apply (list_elem_of_fmap_2 (fun i => (i, at_ a n i j))). apply elem_of_seqZ. lia.
Qed.
Lemma column_elem j p : p ∈ column j -> 0 <= p.1 < m /\ p.2 = at_ a n p.1 j.
Proof.
  intros Hp. apply list_elem_of_filter in Hp as [_ Hp]. apply list_elem_of_fmap in Hp as (i & -> & Hi). apply elem_of_seqZ in Hi. cbn. split; [lia|done].
Qed.
Lemma entries_fewer rows j : (length (entries rows j) <= length rows)%nat.
Proof. unfold entries. rewrite length_filter. by rewrite length_fmap. Qed.
Lemma find_column i j : 0 <= i < m -> find_row i (column j) = kept large (at_ a n i j).
Proof. intros Hi. unfold column. rewrite find_entries by apply NoDup_seqZ. rewrite bool_decide_true; [done|]. apply elem_of_seqZ. lia. Qed.
End entries.

(** * Padding *)
Definition padding (VECT c : Z) : Z := if c mod VECT =? 0 then 0 else VECT - c mod VECT.
Lemma padding_divides VECT c : 0 < VECT -> (c + padding VECT c) mod VECT = 0.
Proof.
  intros HV. unfold padding. destruct (c mod VECT =? 0) eqn:E; [rewrite Z.add_0_r; lia|].
  replace (c + (VECT - c mod VECT)) with ((c / VECT + 1) * VECT) by (rewrite (Z.div_mod c VECT) at 2 by lia; lia). apply Z.mod_mul. lia.
Qed.
Lemma padding_bound VECT c : 0 < VECT -> 0 <= padding VECT c < VECT.
Proof. intros HV. unfold padding. pose proof (Z.mod_pos_bound c VECT HV). destruct (c mod VECT =? 0) eqn:E; lia. Qed.
Lemma rem_padding VECT c : 0 < VECT -> 0 <= c ->
  (if negb (Z.rem c VECT =? 0) then VECT - Z.rem c VECT else 0) = padding VECT c.
Proof. intros HV Hc. rewrite Z.rem_mod_nonneg by lia. unfold padding. by destruct (c mod VECT =? 0). Qed.

Definition pad (i k : Z) (l : list (Z * Z)) : list (Z * Z) := l ++ List.repeat (i, 0) (Z.to_nat k).
Lemma size_pad i k l : 0 <= k -> size (pad i k l) = size l + k.
Proof. intros Hk. unfold pad. rewrite size_app. unfold size. rewrite List.repeat_length. lia. Qed.
Lemma find_pad i r k l : find_row i (pad r k l) = find_row i l.
Proof.
  unfold pad. rewrite find_row_app. destruct (bool_decide _) eqn:E; [done|]. rewrite find_row_zeros.
  apply bool_decide_eq_false in E. induction l as [|[r' v] l IH]; [done|]. cbn in E |- *.
  rewrite elem_of_cons in E. destruct (r' =? i) eqn:E'; [exfalso; apply E; left; lia|]. apply IH. intuition.
Qed.

(** * Runs of the loops *)
Section runs.
Context (large : Z -> bool).

(** The arrays [V] and [R] filled with the entries [vs]. *)
Definition filled (V R O : list Z) (vs : list (Z * Z)) : Arrays :=
  mkArrays (vs.*2 ++ drop (length vs) V) (vs.*1 ++ drop (length vs) R) O (size vs).
Lemma write_next {S} (done_ rest : list Z) k v (s : S) : length done_ = k -> (k < length rest)%nat ->
  write (done_ ++ drop k rest) (Z.of_nat k) v s = (Ok ((done_ ++ [v]) ++ drop (Datatypes.S k) rest), s).
Proof.
  intros Hd Hk. unfold write. rewrite length_app, length_drop. replace (_ && _) with true by lia. rewrite Nat2Z.id.
  destruct (lookup_lt_is_Some_2 rest k Hk) as [r Hr]. rewrite (drop_S rest r k Hr), <- Hd, insert_app_r_alt, Nat.sub_diag by lia.
  cbn. by rewrite <- app_assoc.
Qed.
Lemma push_run V R O vs i v : (length vs < length V)%nat -> (length vs < length R)%nat ->
  push i v (filled V R O vs) = (Ok tt, filled V R O (vs ++ [(i, v)])).
Proof.
  intros HV HR. unfold push, mbind, M_bind, gets. cbn [id]. unfold filled at 1 2 3 4. cbn [row_idx used values].
  unfold size. rewrite write_next by (done || by rewrite length_fmap). rewrite write_next by (done || by rewrite length_fmap).
  unfold modify, filled, size. cbn [col_offset]. rewrite !fmap_app, length_app, Nat.add_comm. cbn. do 2 f_equal. lia.
Qed.
Lemma push_repeat V R O i (l : list Z) vs : (length vs + length l <= length V)%nat -> (length vs + length l <= length R)%nat ->
  for_each l (fun _ => push i 0) (filled V R O vs) = (Ok tt, filled V R O (pad i (size l) vs)).
Proof.
  revert vs. induction l as [|x l IH]; intros vs HV HR; [unfold pad; cbn; by rewrite app_nil_r|]. cbn [length] in *. cbn [for_each].
  rewrite (bind_ok _ _ _ _ _ (push_run V R O vs i 0 ltac:(lia) ltac:(lia))). rewrite IH by (rewrite length_app; cbn; lia).
  do 2 f_equal. unfold pad, size. rewrite !Nat2Z.id, <- app_assoc. done.
Qed.

Context (a : list Z) (m n : Z).
Hypotheses (Hm : 0 <= m) (Hn : 0 <= n) (Ha : m * n <= size a) (Hmn : m * n <= INT32_MAX).

Lemma element_run {S} i j (s : S) : 0 <= i < m -> 0 <= j < n -> element a n i j s = (Ok (at_ a n i j), s).
Proof.
  intros Hi Hj. unfold size in Ha. assert (Hb : 0 <= i * n /\ i * n + j < m * n) by nia. unfold element, as_int, mbind, M_bind.
  unfold INT32_MIN, INT32_MAX in *. replace (_ && _) with true by lia. cbn. replace (_ && _) with true by lia. cbn.
  unfold read. replace (_ && _) with true by lia. done.
Qed.

Lemma gather_entries V R O cast j l vs : 0 <= j < n -> (forall i, i ∈ l -> 0 <= i < m) ->
  let new := prod_map cast id <$> entries large a n l j in
  (length vs + length new <= length V)%nat -> (length vs + length new <= length R)%nat ->
  for_each l (fun i => v ← element a n i j; when (large v) (push (cast i) v)) (filled V R O vs) = (Ok tt, filled V R O (vs ++ new)).
Proof using Hm Hn Ha Hmn.
  intros Hj. revert vs. induction l as [|i l IH]; intros vs Hl new HV HR; [cbn; by rewrite app_nil_r|]. subst new. cbn [for_each].
  rewrite entries_cons, fmap_app, length_app in *. assert (Hi : 0 <= i < m) by (apply Hl, list_elem_of_here).
  assert (Hl' : forall x, x ∈ l -> 0 <= x < m) by (intros x Hx; apply Hl; by apply list_elem_of_further).
  assert (Hstep : (v ← element a n i j; when (large v) (push (cast i) v)) (filled V R O vs) =
    (Ok tt, filled V R O (vs ++ (prod_map cast id <$> (if large (at_ a n i j) then [(i, at_ a n i j)] else []))))).
  { rewrite (bind_ok _ _ _ _ _ (element_run i j (filled V R O vs) Hi Hj)). unfold when.
    destruct (large (at_ a n i j)); [|cbn; by rewrite app_nil_r]. apply push_run; cbn in *; lia. }
  rewrite (bind_ok _ _ _ _ _ Hstep), IH, <- app_assoc; [done|done| |]; rewrite length_app; lia.
Qed.
Lemma gather_run V R O cast j vs : 0 <= j < n ->
  let new := prod_map cast id <$> column large a m n j in
  (length vs + length new <= length V)%nat -> (length vs + length new <= length R)%nat ->
  gather large cast a m n j (filled V R O vs) = (Ok tt, filled V R O (vs ++ new)).
Proof using Hm Hn Ha Hmn. intros Hj new HV HR. apply gather_entries; try done. intros i. rewrite elem_of_seqZ. lia. Qed.

Lemma push_entries {A} V R O (l : list A) (body : A -> M Arrays unit) (e : A -> Z * Z) vs :
  (forall x s, x ∈ l -> body x s = push (e x).1 (e x).2 s) ->
  (length vs + length l <= length V)%nat -> (length vs + length l <= length R)%nat ->
  for_each l body (filled V R O vs) = (Ok tt, filled V R O (vs ++ (e <$> l))).
Proof.
  revert vs. induction l as [|x l IH]; intros vs Hb HV HR; [cbn; by rewrite app_nil_r|]. cbn [length] in *. cbn [for_each].
  rewrite (bind_ok _ _ (filled V R O vs) (filled V R O (vs ++ [e x])) tt).
  - rewrite IH by (rewrite ?length_app; cbn; try lia; intros; apply Hb; by apply list_elem_of_further). by rewrite <- app_assoc.
  - rewrite Hb by apply list_elem_of_here. destruct (e x). apply push_run; lia.
Qed.

(** ** Counting *)
Lemma bump_run z : 0 <= z < INT32_MAX -> bump z = (Ok tt, z + 1).
Proof. intros Hz. unfold bump, as_int, mbind, M_bind, gets, INT32_MIN. cbn [id]. by replace (_ && _) with true by lia. Qed.
Lemma bump_repeat (l : list Z) z : 0 <= z -> z + size l <= INT32_MAX -> for_each l (fun _ => bump) z = (Ok tt, z + size l).
Proof.
  unfold size. revert z. induction l as [|x l IH]; intros z Hz Hl; cbn [for_each length] in *; [by rewrite Z.add_0_r|].
  rewrite (bind_ok _ _ _ _ _ (bump_run z ltac:(lia))), IH by lia. f_equal. lia.
Qed.
Lemma count_entries j l z : 0 <= j < n -> (forall i, i ∈ l -> 0 <= i < m) -> 0 <= z -> z + size (entries large a n l j) <= INT32_MAX ->
  for_each l (fun i => v ← element a n i j; when (large v) bump) z = (Ok tt, z + size (entries large a n l j)).
Proof using Hm Hn Ha Hmn.
  intros Hj. revert z. induction l as [|i l IH]; intros z Hl Hz Hle; [cbn; by rewrite Z.add_0_r|]. cbn [for_each].
  rewrite entries_cons, size_app in *. assert (Hi : 0 <= i < m) by (apply Hl, list_elem_of_here).
  assert (Hl' : forall x, x ∈ l -> 0 <= x < m) by (intros x Hx; apply Hl; by apply list_elem_of_further).
  set (k := if large (at_ a n i j) then [(i, at_ a n i j)] else []) in *.
  assert (Hpos : 0 <= size (entries large a n l j)) by (unfold size; lia). assert (Hk : 0 <= size k) by (unfold size; lia).
  assert (Hstep : (v ← element a n i j; when (large v) bump) z = (Ok tt, z + size k)).
  { rewrite (bind_ok _ _ _ _ _ (element_run i j z Hi Hj)). unfold when, k in *.
    destruct (large (at_ a n i j)); [apply bump_run; unfold size in *; cbn [length] in *; lia|cbn; by rewrite Z.add_0_r]. }
  rewrite (bind_ok _ _ _ _ _ Hstep), IH by (done || lia). f_equal. lia.
Qed.
Lemma count_run j z : 0 <= j < n -> 0 <= z -> z + size (column large a m n j) <= INT32_MAX ->
  count_column large a m n j z = (Ok tt, z + size (column large a m n j)).
Proof using Hm Hn Ha Hmn. intros. apply count_entries; try done. intros i. rewrite elem_of_seqZ. lia. Qed.
Lemma column_size j : 0 <= j < n -> size (column large a m n j) <= m.
Proof using Hm. intros Hj. unfold size, column. pose proof (entries_fewer large a n (seqZ 0 m) j). rewrite length_seqZ in *. lia. Qed.
End runs.

(** * Access to entries *)
Definition get_ (l : list (Z * Z)) (p : Z) : Z * Z := nth (Z.to_nat p) l (0, 0).
Lemma get_fst l p : nth (Z.to_nat p) l.*1 0 = (get_ l p).1.
Proof. unfold get_. by rewrite <- (List.map_nth fst). Qed.
Lemma get_snd l p : nth (Z.to_nat p) l.*2 0 = (get_ l p).2.
Proof. unfold get_. by rewrite <- (List.map_nth snd). Qed.
Lemma get_app_r l k p : 0 <= p -> get_ (l ++ k) (size l + p) = get_ k p.
Proof. intros Hp. unfold get_, size. rewrite app_nth2 by lia. f_equal. lia. Qed.
Lemma get_app_l l k p : 0 <= p < size l -> get_ (l ++ k) p = get_ l p.
Proof. intros Hp. unfold get_, size in *. rewrite app_nth1 by lia. done. Qed.
Lemma get_all l k : get_ (l ++ k) <$> seqZ 0 (size l) = l.
Proof.
  revert k. induction l as [|x l IH] using rev_ind; intros k; [done|]. rewrite size_app. change (size [x]) with 1.
  rewrite seqZ_app by (unfold size; lia). rewrite fmap_app, <- app_assoc, IH. f_equal.
  rewrite Z.add_0_l, seqZ_cons by lia. cbn. rewrite <- (Z.add_0_r (size l)) at 1. by rewrite get_app_r.
Qed.
Lemma get_slice b l k : get_ (b ++ l ++ k) <$> seqZ (size b) (size l) = l.
Proof.
  rewrite <- (Z.add_0_r (size b)) at 1. rewrite <- fmap_add_seqZ, <- list_fmap_compose. etransitivity; [|apply (get_all l k)].
  apply list_fmap_ext. intros i p Hp. apply lookup_seqZ in Hp as [-> Hp]. cbn. apply get_app_r. lia.
Qed.

Lemma seqZ_one c : seqZ c 1 = [c].
Proof. by rewrite seqZ_cons by lia. Qed.

(** Lists of equal length in a row. *)
Section uniform.
Context (f : Z -> list (Z * Z)) (L : Z).
Definition joined (c : Z) : list (Z * Z) := concat (f <$> seqZ 0 c).
Lemma joined_succ c : 0 <= c -> joined (c + 1) = joined c ++ f c.
Proof. intros Hc. unfold joined. rewrite seqZ_app, fmap_app, concat_app, seqZ_one by lia. cbn. by rewrite app_nil_r. Qed.
Lemma joined_split c q : 0 <= q < c -> exists rest, joined c = joined q ++ f q ++ rest.
Proof.
  intros Hq. exists (concat (f <$> seqZ (q + 1) (c - q - 1))). unfold joined.
  replace c with (q + (1 + (c - q - 1))) at 1 by lia. rewrite seqZ_app by lia. rewrite (seqZ_app (0 + q)) by lia.
  rewrite !fmap_app, !concat_app, seqZ_one. cbn. by rewrite app_nil_r.
Qed.
Lemma size_joined c : 0 <= c -> (forall i, 0 <= i < c -> size (f i) = L) -> size (joined c) = c * L.
Proof.
  intros Hc. pattern c. apply natlike_ind; [done| |done]. intros x Hx IH HL. unfold Z.succ in *.
  rewrite joined_succ, size_app, IH, HL by (lia || (intros; apply HL; lia)). lia.
Qed.
Lemma get_joined c q k : (forall i, 0 <= i < c -> size (f i) = L) -> 0 <= q < c -> 0 <= k < L ->
  get_ (joined c) (q * L + k) = get_ (f q) k.
Proof.
  intros HL Hq Hk. destruct (joined_split c q Hq) as (rest & ->). rewrite <- (size_joined q) by (lia || (intros; apply HL; lia)).
  rewrite get_app_r, get_app_l by (rewrite ?HL; lia). done.
Qed.
End uniform.

(** Vectors of [V] entries one after the other. *)
Lemma vectors_joined {A} (g : Z -> A) (V B : Z) : 0 <= V -> 0 <= B ->
  concat ((fun b => (fun k => g (b * V + k)) <$> seqZ 0 V) <$> seqZ 0 B) = g <$> seqZ 0 (B * V).
Proof.
  intros HV HB. pattern B. apply natlike_ind; [done| |done]. intros x Hx IH. unfold Z.succ.
  rewrite seqZ_app, fmap_app, concat_app, IH, seqZ_one by lia. cbn. rewrite app_nil_r.
  replace ((x + 1) * V) with (x * V + V) by lia. rewrite seqZ_app, fmap_app by lia. f_equal. rewrite !Z.add_0_l.
  replace (seqZ (x * V) V) with (Z.add (x * V) <$> seqZ 0 V) by (rewrite fmap_add_seqZ; f_equal; lia). by rewrite <- list_fmap_compose.
Qed.
