(* ===== verification/SparseRuns.v ===== *)
(** What the two conversions of sparse weights leave in their arrays, and the
    sizes computed for them. *)
From Stdlib Require Import ZArith ZifyBool Lia.
From stdpp Require Import base list strings.
From S2P Require Import Prelude StringUtil WeightSplit Sparse SparseProofs.

Section convert.
Context (large : Z -> bool) (a : list Z) (m n VECT : Z).
Hypotheses (Hm : 0 <= m) (Hn : 0 <= n) (HV : 0 < VECT) (Ha : m * n <= size a) (Hmn : m * n <= INT32_MAX).
Abbreviation col := (column large a m n).

(** * CSC *)
Definition last_row (l : list (Z * Z)) : Z := match last l with Some p => p.1 | None => 0 end.
Definition csc_part (j : Z) : list (Z * Z) := pad (last_row (col j)) (padding VECT (size (col j))) (col j).
Definition csc_entries (c : Z) : list (Z * Z) := joined csc_part c.
Definition offset (c : Z) : Z := size (csc_entries c).

Lemma size_pos {A} (l : list A) : 0 <= size l.
Proof. unfold size. lia. Qed.
Lemma size_seqZ c : 0 <= c -> size (seqZ 0 c) = c.
Proof. intros Hc. unfold size. rewrite length_seqZ. lia. Qed.
Lemma offset_succ j : 0 <= j -> offset (j + 1) = offset j + size (csc_part j).
Proof. intros Hj. unfold offset, csc_entries. by rewrite joined_succ, size_app. Qed.
Lemma offset_le j c : 0 <= j < c -> offset j + size (csc_part j) <= offset c.
Proof.
  intros Hj. unfold offset, csc_entries. destruct (joined_split csc_part c j Hj) as (rest & ->). rewrite !size_app.
  pose proof (size_pos rest). lia.
Qed.
Lemma csc_part_size j : size (csc_part j) = size (col j) + padding VECT (size (col j)).
Proof. apply size_pad. apply padding_bound, HV. Qed.
Lemma csc_part_divides j : size (csc_part j) mod VECT = 0.
Proof. rewrite csc_part_size. by apply padding_divides. Qed.
Lemma find_csc_part i j : 0 <= i < m -> find_row i (csc_part j) = kept large (at_ a n i j).
Proof. intros Hi. unfold csc_part. rewrite find_pad. by apply find_column. Qed.

Lemma get_nnz_run {S} (s : S) : offset n <= INT32_MAX -> get_nnz large a m n VECT s = (Ok (offset n), s).
Proof using Hm Hn HV Ha Hmn.
  intros Hle. unfold get_nnz, counter.
  rewrite (for_each_run (seqZ 0 n) _ (fun k => offset (Z.of_nat k))); [by rewrite length_seqZ, Z2Nat.id|].
  intros k j Hk. apply lookup_seqZ in Hk as [-> Hj]. rewrite Z.add_0_l. set (j := Z.of_nat k) in *.
  assert (Hb := offset_le j n ltac:(lia)). rewrite csc_part_size in Hb. pose proof (padding_bound VECT (size (col j)) HV) as Hp.
  assert (H0 := size_pos (csc_entries j)). fold (offset j) in H0. assert (Hc := size_pos (col j)).
  rewrite (bind_ok (gets id) _ (offset j) (offset j) (offset j) eq_refl).
  rewrite (bind_ok _ _ _ _ _ (count_run large a m n Hm Hn Ha Hmn j (offset j) ltac:(lia) H0 ltac:(lia))).
  rewrite (bind_ok (gets id) _ _ _ _ eq_refl). cbn [id]. rewrite Z.add_simpl_l.
  unfold remainder, mbind, M_bind. replace (VECT =? 0) with false by lia. cbn [mret M_ret]. unfold when.
  assert (Hpad := rem_padding VECT (size (col j)) HV Hc). replace (Z.of_nat (Datatypes.S k)) with (j + 1) by lia.
  rewrite offset_succ, csc_part_size by lia. destruct (negb _).
  - rewrite Hpad. rewrite bump_repeat; rewrite ?size_seqZ by lia; [f_equal; lia|lia..].
  - unfold mret, M_ret. f_equal. lia.
Qed.

Section arrays.
Context (V R O : list Z).
Hypotheses (HVl : size V = offset n) (HRl : size R = offset n) (HOl : size O = n + 1).
(** The offsets after [k] columns. *)
Definition offsets (k : nat) : list Z := (offset <$> seqZ 0 (Z.of_nat k + 1)) ++ drop (k + 1) O.
Lemma write_offset {S} k (s : S) : Z.of_nat k < n -> write (offsets k) (Z.of_nat k + 1) (offset (Z.of_nat k + 1)) s = (Ok (offsets (Datatypes.S k)), s).
Proof using HOl.
  intros Hk. unfold offsets. replace (Z.of_nat k + 1) with (Z.of_nat (k + 1)) at 2 by lia.
  rewrite write_next; [|rewrite length_fmap, length_seqZ; lia|unfold size in HOl; lia].
  replace (Z.of_nat (Datatypes.S k) + 1) with (Z.of_nat k + 1 + 1) by lia. rewrite (seqZ_app 0 (Z.of_nat k + 1) 1), fmap_app, seqZ_one by lia.
  rewrite Z.add_0_l. cbn. by replace (k + 1)%nat with (Datatypes.S k) by lia.
Qed.
Lemma read_last O' vs (s : Arrays) : vs <> [] -> (length vs <= length R)%nat ->
  read (row_idx (filled V R O' vs)) (size vs - 1) s = (Ok (last_row vs), s).
Proof using Type.
  intros Hne Hl. unfold read, filled, last_row, size. cbn [row_idx]. rewrite length_app, length_fmap, length_drop.
  destruct vs as [|x vs _] using rev_ind; [done|]. rewrite length_app in *. cbn [length] in *. replace (_ && _) with true by lia.
  replace (Z.to_nat _) with (length vs + 0)%nat by lia. rewrite fmap_app, <- app_assoc. cbn [fmap list_fmap].
  rewrite app_nth2_alt || rewrite app_nth2 by (rewrite length_fmap; lia). rewrite length_fmap. replace (length vs + 0 - length vs)%nat with 0%nat by lia.
  by rewrite last_snoc.
Qed.
Lemma last_row_app vs l : l <> [] -> last_row (vs ++ l) = last_row l.
Proof. intros Hl. unfold last_row. rewrite last_app. destruct l as [|x l _] using rev_ind; [done|]. by rewrite last_snoc. Qed.

Lemma csc_column_run k : Z.of_nat k < n ->
  csc_column large a m n VECT (Z.of_nat k) (filled V R (offsets k) (csc_entries (Z.of_nat k))) =
  (Ok tt, filled V R (offsets (Datatypes.S k)) (csc_entries (Z.of_nat (Datatypes.S k)))).
Proof using Hm Hn HV Ha Hmn HVl HRl HOl.
  intros Hk. set (j := Z.of_nat k). replace (Z.of_nat (Datatypes.S k)) with (j + 1) by lia.
  assert (Hb := offset_le j n ltac:(lia)). rewrite csc_part_size in Hb. pose proof (padding_bound VECT (size (col j)) HV) as Hp.
  assert (Hc := size_pos (col j)). set (vs := csc_entries j) in *. assert (Hvs : size vs = offset j) by done.
  unfold csc_column. rewrite (bind_ok (gets used) _ _ _ _ eq_refl).
  assert (Hg := gather_run large a m n Hm Hn Ha Hmn V R (offsets k) id j vs ltac:(lia)).
  assert (Hid : prod_map id id <$> col j = col j) by (rewrite <- (list_fmap_id (col j)) at 2; apply list_fmap_ext; by intros ? []).
  cbn zeta in Hg. rewrite Hid in Hg.
  assert (Hcap : (length vs + length (col j) <= length V)%nat /\ (length vs + length (col j) <= length R)%nat) by (unfold size in *; lia).
  rewrite (bind_ok _ _ _ _ _ (Hg (proj1 Hcap) (proj2 Hcap))).
  rewrite (bind_ok (gets used) _ _ _ _ eq_refl).
  change (used (filled V R (offsets k) vs)) with (size vs). change (used (filled V R (offsets k) (vs ++ col j))) with (size (vs ++ col j)).
  rewrite size_app, Z.add_simpl_l. rewrite (bind_ok _ _ _ (filled V R (offsets k) (vs ++ col j)) (Z.rem (size (col j)) VECT))
    by (unfold remainder; by replace (VECT =? 0) with false by lia).
  assert (Hpad := rem_padding VECT (size (col j)) HV Hc).
  assert (Hend : csc_entries (j + 1) = vs ++ csc_part j) by (unfold vs, csc_entries; by rewrite joined_succ by lia).
  set (x1 := filled V R (offsets k) (csc_entries (j + 1))).
  assert (Hpush : when (negb (Z.rem (size (col j)) VECT =? 0))
    (rows ← gets row_idx; last_idx ← read rows (size vs + size (col j) - 1);
     for_each (seqZ 0 (VECT - Z.rem (size (col j)) VECT)) (fun _ => push last_idx 0)) (filled V R (offsets k) (vs ++ col j)) = (Ok tt, x1)).
  { unfold when, x1. rewrite Hend. unfold csc_part. destruct (negb _) eqn:E.
    - assert (Hne : col j <> []) by (intros Hnil; rewrite Hnil, Z.rem_0_l in E by lia; done).
      rewrite (bind_ok (gets row_idx) _ _ _ _ eq_refl). rewrite <- size_app.
      assert (Hr := read_last (offsets k) (vs ++ col j) (filled V R (offsets k) (vs ++ col j)) ltac:(by intros [_ ?]%app_nil)).
      rewrite (bind_ok _ _ _ _ _ (Hr ltac:(rewrite length_app; unfold size in *; lia))), last_row_app by done.
      rewrite Hpad, push_repeat; [|rewrite length_app, length_seqZ; unfold size in *; lia..]. rewrite size_seqZ by lia. unfold pad.
      by rewrite <- app_assoc.
    - rewrite <- Hpad. unfold pad. cbn. by rewrite app_nil_r. }
  rewrite (bind_ok _ _ _ _ _ Hpush). rewrite (bind_ok (gets id) _ _ _ _ eq_refl). unfold x1. cbn [id filled col_offset used].
  fold (offset (j + 1)). rewrite (bind_ok _ _ _ _ _ (write_offset k _ Hk)). done.
Qed.
Lemma dense_to_csc_padding_run u :
  dense_to_csc_padding large a m n VECT (mkArrays V R O u) =
  (Ok tt, mkArrays (csc_entries n).*2 (csc_entries n).*1 (offset <$> seqZ 0 (n + 1)) (offset n)).
Proof using Hm Hn HV Ha Hmn HVl HRl HOl.
  unfold dense_to_csc_padding. rewrite (bind_ok (gets id) _ _ _ _ eq_refl). cbn [id col_offset].
  assert (Hw : write O 0 0 (mkArrays V R O u) = (Ok (offsets 0), mkArrays V R O u)).
  { apply (write_next [] O 0 0); [done|unfold size in HOl; lia]. }
  rewrite (bind_ok _ _ _ _ _ Hw). rewrite (bind_ok _ _ _ (filled V R (offsets 0) (csc_entries 0)) tt) by (by unfold filled; cbn; rewrite !drop_0).
  rewrite (for_each_run (seqZ 0 n) _ (fun k => filled V R (offsets k) (csc_entries (Z.of_nat k)))).
  - rewrite length_seqZ, Z2Nat.id by done. f_equal. unfold filled, offsets. fold (offset n). unfold offset, size in HVl, HRl, HOl.
    rewrite !drop_ge, !app_nil_r by lia. by rewrite Z2Nat.id.
  - intros k j Hk. apply lookup_seqZ in Hk as [-> Hj]. rewrite Z.add_0_l. apply csc_column_run. lia.
Qed.
End arrays.

(** * ELL *)
Section ell.
Context `{UN : Uninit}.
(** The number of entries of a column, the longest column rounded up. *)
Fixpoint longest (js : list Z) (acc : Z) : Z :=
  match js with [] => acc | j :: js' => longest js' (if acc <? size (col j) then size (col j) else acc) end.
Definition ell_width : Z := let c := longest (seqZ 0 n) 0 in c + padding VECT c.
Lemma longest_ge js acc : acc <= longest js acc /\ forall j, j ∈ js -> size (col j) <= longest js acc.
Proof.
  revert acc. induction js as [|j js IH]; intros acc; cbn [longest]; [split; [lia|by intros ? ?%not_elem_of_nil]|].
  destruct (IH (if acc <? size (col j) then size (col j) else acc)) as [H1 H2]. split; [destruct (acc <? _) eqn:E; lia|].
  intros j' [->|Hj]%elem_of_cons; [destruct (acc <? _) eqn:E; lia|by apply H2].
Qed.
Lemma longest_le js acc : acc <= m -> (forall j, j ∈ js -> 0 <= j < n) -> longest js acc <= m.
Proof using Hm.
  revert acc. induction js as [|j js IH]; intros acc Hacc Hjs; cbn [longest]; [done|]. apply IH; [|intros j' Hj'; apply Hjs; by apply list_elem_of_further].
  assert (size (col j) <= m) by (apply (column_size large a m n Hm); apply Hjs, list_elem_of_here). destruct (acc <? _); lia.
Qed.
Lemma ell_width_ge j : 0 <= j < n -> size (col j) <= ell_width.
Proof.
  intros Hj. unfold ell_width. destruct (longest_ge (seqZ 0 n) 0) as [_ Hl]. specialize (Hl j ltac:(apply elem_of_seqZ; lia)).
  pose proof (padding_bound VECT (longest (seqZ 0 n) 0) HV). lia.
Qed.
Lemma ell_width_divides : ell_width mod VECT = 0.
Proof. apply padding_divides, HV. Qed.

Lemma get_nnz_ell_run {S} (s : S) : m <= INT32_MAX -> ell_width <= INT32_MAX -> ell_width * n <= INT32_MAX ->
  get_nnz_ell large a m n VECT s = (Ok (ell_width * n), s).
Proof using Hm Hn HV Ha Hmn.
  intros HmI Hw Hwn. unfold get_nnz_ell. set (body := fun j : Z => _ : M Z unit).
  assert (Hcount : forall js acc, (forall j, j ∈ js -> 0 <= j < n) -> for_each js body acc = (Ok tt, longest js acc)).
  { induction js as [|j js IH]; intros acc Hjs; [done|]. cbn [for_each longest].
    assert (Hj : 0 <= j < n) by (apply Hjs, list_elem_of_here).
    rewrite (bind_ok _ _ _ (if acc <? size (col j) then size (col j) else acc) tt).
    - apply IH. intros j' Hj'. apply Hjs. by apply list_elem_of_further.
    - unfold body, counter, mbind, M_bind. rewrite (count_run large a m n Hm Hn Ha Hmn) by (pose proof (column_size large a m n Hm j Hj); lia).
      by rewrite Z.add_0_l. }
  rewrite (bind_ok _ _ s s (longest (seqZ 0 n) 0)).
  2:{ unfold counter. rewrite Hcount; [done|]. intros j. rewrite elem_of_seqZ. lia. }
  set (c := longest (seqZ 0 n) 0) in *. assert (Hc : 0 <= c) by apply longest_ge.
  rewrite (bind_ok _ _ s s (Z.rem c VECT)) by (unfold remainder; by replace (VECT =? 0) with false by lia).
  assert (Hpad := rem_padding VECT c HV Hc). pose proof (padding_bound VECT c HV). unfold ell_width in *. fold c in Hw, Hwn |- *.
  assert (Hint : forall z (s : S), 0 <= z <= INT32_MAX -> as_int z s = (Ok z, s)).
  { intros z s' Hz. unfold as_int, INT32_MIN. by replace (_ && _) with true by lia. }
  rewrite (bind_ok _ _ s s (c + padding VECT c)).
  - apply Hint. nia.
  - rewrite <- Hpad. destruct (Z.rem c VECT =? 0); cbn [negb] in *; [by rewrite Z.add_0_r|]. apply Hint. lia.
Qed.

Context (V R O : list Z).
(** The rows of the padding come from the array that is not filled yet. *)
Definition ell_part (j : Z) : list (Z * Z) :=
  pad (nth (Z.to_nat (j * ell_width + size (col j) - 1)) R 0) (ell_width - size (col j)) (prod_map u16 id <$> col j).
Definition ell_columns (c : Z) : list (Z * Z) := joined ell_part c.
(** The vectors that a column has in the result. *)
Definition ell_vector (i j : Z) : list (Z * Z) := (fun k => get_ (ell_part j) (i * VECT + k)) <$> seqZ 0 VECT.
Definition ell_row (i : Z) : list (Z * Z) := joined (ell_vector i) n.
Definition ell_entries (c : Z) : list (Z * Z) := joined ell_row c.
Definition part_size (j : Z) : Prop := 0 <= j < n -> size (ell_part j) = ell_width.
Lemma ell_part_size j : part_size j.
Proof using HV.
  intros Hj. unfold ell_part. pose proof (ell_width_ge j Hj). rewrite size_pad by lia. unfold size at 1. rewrite length_fmap. fold (size (col j)). lia.
Qed.
Lemma ell_columns_size c : 0 <= c <= n -> size (ell_columns c) = c * ell_width.
Proof using HV. intros Hc. apply size_joined; [lia|]. intros j Hj. apply ell_part_size. lia. Qed.
Lemma ell_vector_size i j : size (ell_vector i j) = VECT.
Proof using HV. unfold ell_vector, size. rewrite length_fmap, length_seqZ. lia. Qed.
Lemma ell_row_size i : size (ell_row i) = n * VECT.
Proof using HV Hn. unfold ell_row. by rewrite (size_joined _ VECT) by (done || intros; apply ell_vector_size). Qed.
Lemma ell_entries_size c : 0 <= c -> size (ell_entries c) = c * (n * VECT).
Proof using HV Hn. intros Hc. unfold ell_entries. by rewrite (size_joined _ (n * VECT)) by (done || intros; apply ell_row_size). Qed.

(** ** The run *)
Hypotheses (H0 : 0 < n) (Hfirst : col 0 <> []) (HmI : m <= INT32_MAX) (Hw : (n + 1) * ell_width <= INT32_MAX).
Hypotheses (HVl : size V = n * ell_width) (HRl : size R = n * ell_width).
Lemma ell_width_pos : 0 < ell_width.
Proof using HV H0 Hfirst. pose proof (ell_width_ge 0 (conj (Z.le_refl 0) H0)) as Hge. revert Hge. unfold size. destruct (col 0); [done|]. cbn [length]. clear. lia. Qed.
Abbreviation tmp := (uninit (Z.to_nat (ell_width * n))).
Lemma tmp_size : size tmp = n * ell_width.
Proof using HV H0 Hfirst. pose proof ell_width_pos. unfold size. rewrite uninit_length. lia. Qed.

Lemma ell_column_run k : Z.of_nat k < n ->
  ell_column large a m n ell_width R (Z.of_nat k) (filled tmp tmp [] (ell_columns (Z.of_nat k))) =
  (Ok tt, filled tmp tmp [] (ell_columns (Z.of_nat (Datatypes.S k)))).
Proof using All.
  intros Hk. set (j := Z.of_nat k). replace (Z.of_nat (Datatypes.S k)) with (j + 1) by lia.
  assert (Hj : 0 <= j < n) by lia. assert (Hc := ell_width_ge j Hj). set (vs := ell_columns j). pose proof ell_width_pos as Hwp.
  assert (Hvs : size vs = j * ell_width) by (apply ell_columns_size; lia). pose proof tmp_size as HT.
  set (new := prod_map u16 id <$> col j). assert (Hnew : size new = size (col j)) by (unfold new, size; by rewrite length_fmap).
  assert (Hfit : size vs + ell_width <= n * ell_width) by nia. pose proof (size_pos new) as Hpos.
  assert (Hcap : (length vs + length new <= length tmp)%nat) by (unfold size in *; lia).
  unfold ell_column. rewrite (bind_ok (gets used) _ _ _ _ eq_refl).
  rewrite (bind_ok _ _ _ _ _ (gather_run large a m n Hm Hn Ha Hmn tmp tmp [] u16 j vs Hj Hcap Hcap)). fold new.
  rewrite (bind_ok (gets used) _ _ _ _ eq_refl).
  change (used (filled tmp tmp [] vs)) with (size vs). change (used (filled tmp tmp [] (vs ++ new))) with (size (vs ++ new)).
  rewrite size_app, Z.add_simpl_l. rewrite (bind_ok _ _ _ (filled tmp tmp [] (vs ++ new)) (nth (Z.to_nat (j * ell_width + size (col j) - 1)) R 0)).
  - rewrite push_repeat, size_seqZ by (rewrite ?length_app, ?length_seqZ; unfold size in *; lia). unfold ell_columns.
    rewrite joined_succ by lia. unfold pad. rewrite Hnew, <- app_assoc. done.
  - unfold read. assert (0 < j * ell_width + size (col j)).
    { destruct (decide (j = 0)) as [->|]; [|pose proof (size_pos (col j)); nia]. unfold size. destruct (col 0); [done|]. cbn [length]. lia. }
    rewrite Hvs, Hnew in *. unfold size in HRl. replace (_ && _) with true by lia. done.
Qed.

Abbreviation csc := (filled tmp tmp [] (ell_columns n)).
Lemma read_csc {S} p (s : S) : 0 <= p < n * ell_width ->
  read (row_idx csc) p s = (Ok (get_ (ell_columns n) p).1, s) /\ read (values csc) p s = (Ok (get_ (ell_columns n) p).2, s).
Proof using All.
  intros Hp. assert (Hl := ell_columns_size n ltac:(lia)). pose proof tmp_size as HT. unfold filled, size in *. cbn [row_idx values].
  rewrite !drop_ge, !app_nil_r by lia. unfold read. rewrite !length_fmap. replace (_ && _) with true by lia. by rewrite get_fst, get_snd.
Qed.
Lemma ell_block_run i : 0 <= i -> (i + 1) * VECT <= ell_width ->
  ell_block csc n ell_width VECT i (filled V R O (ell_entries i)) = (Ok tt, filled V R O (ell_entries (i + 1))).
Proof using All.
  intros Hi HiV. pose proof ell_width_pos as Hwp. assert (He := ell_entries_size i Hi).
  assert (Hstep : forall k j, seqZ 0 n !! k = Some j -> (let pos1 := i * VECT + j * ell_width in
    for_each (seqZ 0 VECT) (fun k => r ← read (row_idx csc) (pos1 + k); v ← read (values csc) (pos1 + k); push r v);;
    _ ← as_int (pos1 + ell_width); mret tt) (filled V R O (ell_entries i ++ joined (ell_vector i) (Z.of_nat k))) =
    (Ok tt, filled V R O (ell_entries i ++ joined (ell_vector i) (Z.of_nat (Datatypes.S k))))).
  { intros k j Hk. apply lookup_seqZ in Hk as [-> Hj]. rewrite Z.add_0_l. set (j := Z.of_nat k) in *.
    assert (Hv : size (joined (ell_vector i) j) = j * VECT) by (apply size_joined; [lia|intros; apply ell_vector_size]).
    assert (Hfit : size (ell_entries i) + j * VECT + VECT <= n * ell_width) by nia.
    rewrite (bind_ok _ _ _ (filled V R O ((ell_entries i ++ joined (ell_vector i) j) ++ ell_vector i j)) tt).
    - unfold as_int, INT32_MIN, mbind, M_bind. replace (_ && _) with true by nia. replace (Z.of_nat (Datatypes.S k)) with (j + 1) by lia.
      by rewrite joined_succ, app_assoc by lia.
    - apply push_entries; [|rewrite length_app, length_seqZ; unfold size in *; lia..]. intros q s Hq. apply elem_of_seqZ in Hq.
      replace (i * VECT + j * ell_width + q) with (j * ell_width + (i * VECT + q)) by lia.
      destruct (read_csc (j * ell_width + (i * VECT + q)) s) as [Hr1 Hr2]; [nia|].
      rewrite (bind_ok _ _ _ _ _ Hr1), (bind_ok _ _ _ _ _ Hr2). unfold ell_columns.
      rewrite (get_joined _ ell_width); [done|intros; by apply ell_part_size|lia|lia]. }
  unfold ell_block. set (body := fun j : Z => _ : M Arrays unit).
  assert (Hrun := for_each_run (seqZ 0 n) body (fun k => filled V R O (ell_entries i ++ joined (ell_vector i) (Z.of_nat k))) Hstep). cbv beta in Hrun.
  change (joined (ell_vector i) (Z.of_nat 0)) with ([] : list (Z * Z)) in Hrun. rewrite app_nil_r in Hrun. rewrite Hrun.
  rewrite length_seqZ, Z2Nat.id by lia. unfold ell_entries. by rewrite joined_succ by lia.
Qed.
Lemma dense_to_ell_padding_run u :
  dense_to_ell_padding large a m n (ell_width * n) VECT (mkArrays V R O u) =
  let l := ell_entries (ell_width / VECT) in (Ok tt, mkArrays l.*2 l.*1 O (ell_width * n)).
Proof using All.
  pose proof ell_width_pos as Hwp. assert (Hdiv := Z.div_mod ell_width VECT ltac:(lia)). rewrite ell_width_divides in Hdiv.
  unfold dense_to_ell_padding. rewrite (bind_ok _ _ _ (mkArrays V R O u) ell_width).
  2:{ unfold quotient. replace (n =? 0) with false by lia. by rewrite Z.quot_mul by lia. }
  rewrite (bind_ok (gets row_idx) _ _ _ _ eq_refl). cbn [row_idx].
  assert (Hcols := for_each_run (seqZ 0 n) (ell_column large a m n ell_width R) (fun k => filled tmp tmp [] (ell_columns (Z.of_nat k)))).
  rewrite length_seqZ, Z2Nat.id in Hcols by lia. replace (filled tmp tmp [] (ell_columns (Z.of_nat 0))) with (mkArrays tmp tmp [] 0) in Hcols
    by (unfold filled; cbn; by rewrite drop_0).
  rewrite Hcols. 2:{ intros k j Hk. apply lookup_seqZ in Hk as [-> Hj]. rewrite Z.add_0_l. apply ell_column_run. lia. }
  set (B := ell_width / VECT) in *. assert (HB : 0 <= B) by (apply Z.div_pos; lia).
  rewrite (bind_ok _ _ _ (mkArrays V R O u) B).
  2:{ unfold quotient. replace (VECT =? 0) with false by lia. by rewrite Z.quot_div_nonneg by lia. }
  rewrite (bind_ok _ _ _ (filled V R O (ell_entries 0)) tt) by (unfold filled; cbn; by rewrite !drop_0).
  rewrite (for_each_run (seqZ 0 B) _ (fun k => filled V R O (ell_entries (Z.of_nat k)))).
  - rewrite length_seqZ, Z2Nat.id by done. assert (Hl := ell_entries_size B HB). cbn zeta. f_equal. unfold filled.
    replace (size (ell_entries B)) with (ell_width * n) by nia. unfold size in *. rewrite !drop_ge, !app_nil_r by nia. done.
  - intros k i Hk. apply lookup_seqZ in Hk as [-> Hi]. rewrite Z.add_0_l, ell_block_run by nia. do 4 f_equal. lia.
Qed.
End ell.
End convert.
