(* ===== verification/SparseTheorems.v ===== *)
(** What makes the conversions of sparse weights correct: the sizes computed are
    those used, nothing is written outside the arrays, and the result stands for
    the matrix without the entries near zero.  Concrete matrices at the end. *)
From Stdlib Require Import ZArith ZifyBool Lia.
From stdpp Require Import base list strings.
From S2P Require Import Prelude StringUtil WeightSplit Sparse SparseProofs SparseRuns.

(** * Reading a sparse matrix *)
Definition entry (rows vals : list Z) (p : Z) : Z * Z := (nth (Z.to_nat p) rows 0, nth (Z.to_nat p) vals 0).
Definition nth_ (l : list Z) (i : Z) : Z := nth (Z.to_nat i) l 0.
(** The entries of column [j], between two offsets. *)
Definition csc_column_of (vals rows offs : list Z) (j : Z) : list (Z * Z) :=
  entry rows vals <$> seqZ (nth_ offs j) (nth_ offs (j + 1) - nth_ offs j).
Definition csc_get (vals rows offs : list Z) (i j : Z) : Z := find_row i (csc_column_of vals rows offs j).
(** The vectors of column [j], one in each block. *)
Definition ell_column_of (vals rows : list Z) (n VECT width j : Z) : list (Z * Z) :=
  concat ((fun b => (fun k => entry rows vals (b * (n * VECT) + (j * VECT + k))) <$> seqZ 0 VECT) <$> seqZ 0 (width / VECT)).
Definition ell_get (vals rows : list Z) (n VECT width i j : Z) : Z := find_row i (ell_column_of vals rows n VECT width j).

Lemma entry_get l p : entry l.*1 l.*2 p = get_ l p.
Proof. unfold entry. rewrite get_fst, get_snd. by destruct (get_ l p). Qed.
Lemma nth_offsets f c j : 0 <= j < c -> nth_ (f <$> seqZ 0 c) j = f j.
Proof.
  intros Hj. unfold nth_. assert (Hl : (f <$> seqZ 0 c) !! Z.to_nat j = Some (f j)).
  { rewrite list_lookup_fmap, lookup_seqZ_lt by lia. cbn. by rewrite Z2Nat.id by lia. }
  by rewrite nth_lookup, Hl.
Qed.

Section convert.
Context (large : Z -> bool) (a : list Z) (m n VECT : Z).
Hypotheses (Hm : 0 <= m) (Hn : 0 <= n) (HV : 0 < VECT) (Ha : m * n <= size a) (Hmn : m * n <= INT32_MAX).
Abbreviation offset := (offset large a m n VECT).
Abbreviation csc_entries := (csc_entries large a m n VECT).
Lemma csc_part_le j : 0 <= j < n -> size (csc_part large a m n VECT j) <= m + VECT.
Proof using Hm HV.
  intros Hj. rewrite csc_part_size by done. pose proof (column_size large a m n Hm j Hj).
  pose proof (padding_bound VECT (size (column large a m n j)) HV). lia.
Qed.
Lemma offset_bound c : 0 <= c <= n -> offset c <= c * (m + VECT).
Proof using Hm HV.
  intros [H0 Hle]. revert Hle. pattern c. apply natlike_ind; [intros _; change (offset 0) with 0; lia| |done]. intros x Hx IH Hle. unfold Z.succ in *.
  rewrite offset_succ by done. assert (Hs := csc_part_le x ltac:(lia)). specialize (IH ltac:(lia)).
  rewrite Z.mul_add_distr_r. lia.
Qed.
Lemma csc_column_entries j : 0 <= j < n ->
  csc_column_of (csc_entries n).*2 (csc_entries n).*1 (offset <$> seqZ 0 (n + 1)) j = csc_part large a m n VECT j.
Proof using HV.
  intros Hj. unfold csc_column_of. rewrite !nth_offsets, offset_succ, Z.add_simpl_l by lia.
  destruct (joined_split (csc_part large a m n VECT) n j Hj) as (rest & Hrest). unfold SparseRuns.csc_entries. rewrite Hrest.
  etransitivity; [|apply (get_slice (joined (csc_part large a m n VECT) j) (csc_part large a m n VECT j) rest)].
  apply list_fmap_ext. intros i p _. apply entry_get.
Qed.

Context `{UN : Uninit}.
Abbreviation width := (ell_width large a m n VECT).
Lemma width_le : width <= m + VECT.
Proof using Hm HV.
  unfold ell_width. assert (Hl := longest_le large a m n Hm (seqZ 0 n) 0 Hm). cbv zeta.
  assert (longest large a m n (seqZ 0 n) 0 <= m) by (apply Hl; intros j; rewrite elem_of_seqZ; lia).
  pose proof (padding_bound VECT (longest large a m n (seqZ 0 n) 0) HV). lia.
Qed.
Lemma find_part R i j : m <= 2 ^ 16 -> 0 <= i < m -> 0 <= j < n ->
  find_row i (ell_part large a m n VECT R j) = kept large (at_ a n i j).
Proof using Type.
  intros H16 Hi Hj. unfold ell_part. rewrite find_pad. rewrite <- (find_column large a m n i j Hi). f_equal.
  rewrite <- (list_fmap_id (column large a m n j)) at 2. apply list_fmap_ext. intros q [r v] Hq. cbn. f_equal.
  apply list_elem_of_lookup_2, column_elem in Hq as [Hq _]. cbn in Hq. unfold u16. rewrite Z.mod_small; lia.
Qed.
Lemma ell_column_entries R j : 0 <= j < n -> let l := ell_entries large a m n VECT R (width / VECT) in
  ell_column_of l.*2 l.*1 n VECT width j = ell_part large a m n VECT R j.
Proof using Hn HV.
  intros Hj l. pose proof (size_pos (ell_part large a m n VECT R j)) as Hpos. assert (Hs := ell_part_size large a m n VECT HV R j Hj).
  assert (Hdiv := Z.div_mod width VECT ltac:(lia)). rewrite ell_width_divides in Hdiv by done.
  unfold ell_column_of. etransitivity; [|apply (get_all (ell_part large a m n VECT R j) [])]. rewrite app_nil_r, Hs.
  replace width with (width / VECT * VECT) at 2 by lia. rewrite <- vectors_joined by (try apply Z.div_pos; lia). f_equal.
  apply list_fmap_ext. intros ? b Hb. apply lookup_seqZ in Hb as [-> Hb]. apply list_fmap_ext. intros ? k Hk. apply lookup_seqZ in Hk as [-> Hk].
  rewrite entry_get. unfold l, ell_entries. rewrite (get_joined _ (n * VECT)); [|intros; by apply ell_row_size|lia|nia].
  unfold ell_row. rewrite (get_joined _ VECT); [|intros; by apply ell_vector_size|lia|lia].
  unfold ell_vector. unfold get_ at 1. rewrite nth_lookup, list_lookup_fmap, lookup_seqZ_lt by lia. cbn. f_equal. lia.
Qed.
End convert.

(** C36. The conversion to columns is correct.  For a matrix of [m] rows and [n]
    columns in memory whose size and padding fit [int], the size computed first is
    the one the conversion needs: with arrays of that size it fills them without a
    step outside.  Each column takes a multiple of [VECT] places, and the entry of
    every row and column found in the result is the entry of the matrix when it is
    above the threshold, and zero otherwise. *)
Theorem csc_correct large a m n VECT :
  0 <= m -> 0 <= n -> 0 < VECT -> m * n <= size a -> m * n <= INT32_MAX -> n * (m + VECT) <= INT32_MAX ->
  exists vals rows offs,
    get_nnz large a m n VECT tt = (Ok (size vals), tt) /\
    (forall V R O u, size V = size vals -> size R = size vals -> size O = n + 1 ->
       dense_to_csc_padding large a m n VECT (mkArrays V R O u) = (Ok tt, mkArrays vals rows offs (size vals))) /\
    (forall j, 0 <= j < n -> nth_ offs j <= nth_ offs (j + 1) /\ (nth_ offs (j + 1) - nth_ offs j) mod VECT = 0) /\
    (forall i j, 0 <= i < m -> 0 <= j < n -> csc_get vals rows offs i j = kept large (at_ a n i j)).
Proof.
  intros Hm Hn HV Ha Hmn Hle. assert (Hb := offset_bound large a m n VECT Hm HV n ltac:(lia)).
  set (l := csc_entries large a m n VECT n). exists l.*2, l.*1, (offset large a m n VECT <$> seqZ 0 (n + 1)).
  assert (Hl : size l.*2 = offset large a m n VECT n) by (unfold size; by rewrite length_fmap). split_and!.
  - rewrite get_nnz_run by (done || lia). by rewrite Hl.
  - intros V R O u HVl HRl HOl. rewrite dense_to_csc_padding_run by (done || lia). by rewrite Hl.
  - intros j Hj. rewrite !nth_offsets, offset_succ, Z.add_simpl_l by lia. split; [|by apply csc_part_divides].
    pose proof (size_pos (csc_part large a m n VECT j)). lia.
  - intros i j Hi Hj. unfold csc_get, l. rewrite csc_column_entries by done. by apply find_csc_part.
Qed.

(** The conversion to vectors is correct where the first column has an entry.
    For a matrix of up to 2{^16} rows whose first column has an entry above the
    threshold, the size computed is [n] columns of one width, a multiple of
    [VECT]; the conversion fills arrays of that size without a step outside, and
    the entries found in the result are those of the matrix above the threshold. *)
Theorem ell_correct `{UN : Uninit} large a m n VECT i0 :
  0 <= i0 < m -> 0 < n -> large (at_ a n i0 0) = true -> m <= 2 ^ 16 -> 0 < VECT ->
  m * n <= size a -> m * n <= INT32_MAX -> (n + 1) * (m + VECT) <= INT32_MAX ->
  exists width, 0 < width /\ width mod VECT = 0 /\
    get_nnz_ell large a m n VECT tt = (Ok (width * n), tt) /\
    (forall V R O u, size V = n * width -> size R = n * width ->
       exists vals rows,
         dense_to_ell_padding large a m n (width * n) VECT (mkArrays V R O u) = (Ok tt, mkArrays vals rows O (width * n)) /\
         forall i j, 0 <= i < m -> 0 <= j < n -> ell_get vals rows n VECT width i j = kept large (at_ a n i j)).
Proof.
  intros Hi0 Hn Hlarge H16 HV Ha Hmn Hle. assert (Hm : 0 <= m) by lia. assert (Hn0 : 0 <= n) by lia.
  assert (Hfirst := column_nonempty large a m n i0 0 Hi0 Hlarge).
  set (w := ell_width large a m n VECT). assert (Hw : w <= m + VECT) by (by apply width_le).
  assert (Hpos : 0 < w) by (by apply ell_width_pos).
  assert (Hbound : w <= INT32_MAX /\ w * n <= INT32_MAX /\ (n + 1) * w <= INT32_MAX) by nia. destruct Hbound as (Hw1 & Hw2 & Hw3).
  exists w. split_and!; [done|by apply ell_width_divides|apply get_nnz_ell_run; try done; unfold INT32_MAX in *; lia|].
  intros V R O u HVl HRl. set (l := ell_entries large a m n VECT R (w / VECT)). exists l.*2, l.*1. split.
  - apply dense_to_ell_padding_run; try done. unfold INT32_MAX in *. lia.
  - intros i j Hi Hj. unfold ell_get. pose proof (ell_column_entries large a m n VECT Hn0 HV R j Hj) as Hc. cbv zeta in Hc.
    unfold l, w. rewrite Hc. by apply find_part.
Qed.

(** * On concrete matrices *)
Module SparseDemo.
#[local] Instance demo_uninit : Uninit := { uninit n := List.repeat 170 n; uninit_length n := List.repeat_length 170 n }.
(** 1.5 and -2.0 in the first column, 1e-10 near zero, 3.0 in the third. *)
Definition small_matrix : list Z := [0x3FC00000; 0; 0; 0; 0x2EDBE6FF; 0; 0xC0000000; 0; 0x40400000].
Lemma csc_correct_witness : exists vals rows offs,
  get_nnz large_float small_matrix 3 3 4 tt = (Ok (size vals), tt) /\
  dense_to_csc_padding large_float small_matrix 3 3 4 (mkArrays (List.repeat 9 8) (List.repeat 9 8) (List.repeat 9 4) 0) =
    (Ok tt, mkArrays vals rows offs 8) /\
  csc_get vals rows offs 2 2 = 0x40400000 /\ csc_get vals rows offs 1 1 = 0.
Proof.
  destruct (csc_correct large_float small_matrix 3 3 4 ltac:(lia) ltac:(lia) ltac:(lia) ltac:(done) ltac:(done) ltac:(done))
    as (vals & rows & offs & Hs & Hr & _ & Hg).
  assert (H8 : size vals = 8) by (assert (Hv : (Ok (size vals), tt) = (Ok 8, tt)) by (rewrite <- Hs; reflexivity); by injection Hv).
  exists vals, rows, offs. split_and!; [exact Hs| |exact (Hg 2 2 ltac:(lia) ltac:(lia))|exact (Hg 1 1 ltac:(lia) ltac:(lia))].
  rewrite H8 in Hr. apply (Hr (List.repeat 9 8) (List.repeat 9 8) (List.repeat 9 4) 0 eq_refl eq_refl eq_refl).
Defined.
Lemma ell_correct_witness : exists vals rows,
  get_nnz_ell large_float small_matrix 3 3 4 tt = (Ok 12, tt) /\
  dense_to_ell_padding large_float small_matrix 3 3 12 4 (mkArrays (List.repeat 9 12) (List.repeat 9 12) [] 0) =
    (Ok tt, mkArrays vals rows [] 12) /\
  ell_get vals rows 3 4 4 0 0 = 0x3FC00000 /\ ell_get vals rows 3 4 4 1 1 = 0.
Proof.
  destruct (ell_correct large_float small_matrix 3 3 4 2 ltac:(lia) ltac:(lia) eq_refl ltac:(lia) ltac:(lia) ltac:(done) ltac:(done) ltac:(done))
    as (w & _ & _ & Hs & Hr).
  assert (H4 : w = 4) by (assert (Hv : (Ok (w * 3), tt) = (Ok 12, tt)) by (rewrite <- Hs; reflexivity); injection Hv; lia). subst w.
  destruct (Hr (List.repeat 9 12%nat) (List.repeat 9 12%nat) [] 0 eq_refl eq_refl) as (vals & rows & Hrun & Hg).
  exists vals, rows. split_and!; [exact Hs|exact Hrun|exact (Hg 0 0 ltac:(lia) ltac:(lia))|exact (Hg 1 1 ltac:(lia) ltac:(lia))].
Defined.

(** A first column without an entry: the padding reads before the array. *)
Lemma ell_empty_first_column :
  get_nnz_ell large_float [0; 0x3FC00000] 1 2 4 tt = (Ok 8, tt) /\
  fst (dense_to_ell_padding large_float [0; 0x3FC00000] 1 2 8 4 (mkArrays (List.repeat 0 8) (List.repeat 0 8) [] 0)) = Err UB.
Proof. by vm_compute. Qed.
(** The rows of the padding are whatever the array held, not the last row. *)
Lemma ell_padding_row :
  dense_to_ell_padding large_float [0; 0x3FC00000] 2 1 4 4 (mkArrays (List.repeat 0 4) [7; 8; 9; 10] [] 0) =
  (Ok tt, mkArrays [0x3FC00000; 0; 0; 0] [1; 7; 7; 7] [] 4).
Proof. by vm_compute. Qed.
(** A value that is no number counts as near zero. *)
Lemma nan_dropped : large_float 0x7FC00000 = false /\ large_half 0x7E00 = false.
Proof. by vm_compute. Qed.
End SparseDemo.
