(* ===== verification/WeightFile.v ===== *)
(** Files of weights (src/csrc/utility/allsparkz_util.cpp,
    src/csrc/runtime/weight/weight_saver.cpp, weight_loader.cpp,
    weight_manager.cpp): the two writers of the format, the parser of the header
    of a weight and the loop that reads a file for one rank.

    The writer converts weights that are declared sparse ([Sparse]).  A file is a
    sequence of weights, each a local header ("AS", 1, the length of the name), the
    name, one line of text that describes the weight, and its
    data; a local header with 0 ends it.  The reader is the one for streams
    ([AS_WEIGHT_LOAD_FROM_MMAP] off). *)
From Stdlib Require Import ZArith ZifyBool Lia.
From stdpp Require Import base list gmap strings.
From S2P Require Import Prelude StringUtil MemoryReuse WeightSplit Sparse.

(** * Text of numbers *)
Fixpoint decimal (fuel : nat) (v : Z) : bytes :=
  match fuel with
  | O => []
  | S k => (if v <? 10 then [] else decimal k (v / 10)) ++ [48 + v mod 10]
  end.
(** [std::to_string] of an integer of up to 64 bits. *)
Definition to_string (z : Z) : bytes := if z <? 0 then 45 :: decimal 20 (- z) else decimal 20 z.
(** [atoi] of glibc: [strtol], narrowed. *)
Definition atoi (s : bytes) : Z := i32 (fst (fst (strtol 10 s))).
(** The bytes of a [uint16_t], least significant first. *)
Definition le16 (z : Z) : bytes := [u16 z mod 256; u16 z / 256].

(** * Writing *)
Record TensorAttribute := mkAttr {
  a_sparse_type : Z;
  a_split_mode : Z;
  a_shape : list Z;
  a_group_list : list Z;
  a_dtype : Z;
  a_word_size : Z;
  a_nnz : Z;
}.
(** ", d" for each of the rest of a list. *)
Definition rest_of_list (l : list Z) : bytes := concat ((fun d => lit ", " ++ to_string d) <$> l).
Definition create_allsparky_header (a : TensorAttribute) : res bytes :=
  match a_shape a with
  | [] => Err UB
  | d :: ds =>
      Ok (lit "{'descr': '" ++ lit "<" ++ [a_dtype a] ++ to_string (a_word_size a)
          ++ lit "', 'fortran_order': False, " ++ lit "'shape': (" ++ to_string d ++ rest_of_list ds
          ++ (if (length (a_shape a) =? 1)%nat then lit "," else []) ++ lit "),"
          ++ lit "'group_list': ("
          ++ match a_group_list a with
             | [] => []
             | g :: gs => to_string g ++ rest_of_list gs ++ (if (length (a_group_list a) =? 1)%nat then lit "," else [])
             end
          ++ lit "),"
          ++ lit "'sparse_type': " ++ to_string (a_sparse_type a) ++ lit ","
          ++ lit "'nnz': " ++ to_string (a_nnz a) ++ lit ","
          ++ lit "'split_type': " ++ to_string (a_split_mode a) ++ lit ","
          ++ lit "}" ++ [10])
  end.
Definition local_header (name : bytes) : bytes := lit "AS" ++ le16 1 ++ le16 (Z.of_nat (length name)) ++ name.
(** ** Weights that are converted when they are written

    [reinterpret_cast] to numbers of [w] bytes, least significant first, and back. *)
Fixpoint le_bytes (w : nat) (z : Z) : bytes := match w with O => [] | S k => z mod 256 :: le_bytes k (z / 256) end.
Fixpoint le_value (b : bytes) : Z := match b with [] => 0 | c :: b' => c + 256 * le_value b' end.
Definition words (w : nat) (b : bytes) : list Z := (fun k => le_value (take w (drop (k * w) b))) <$> seq 0 (length b / w).
Definition to_bytes (w : nat) (l : list Z) : bytes := concat (le_bytes w <$> l).
Definition zeros (n : Z) : list Z := List.repeat 0 (Z.to_nat n).
Definition with_nnz (a : TensorAttribute) (nnz : Z) : TensorAttribute :=
  mkAttr (a_sparse_type a) (a_split_mode a) (a_shape a) (a_group_list a) (a_dtype a) (a_word_size a) nnz.

Section convert.
Context `{UN : Uninit} (large : Z -> bool) (w : nat).
Abbreviation R := (M unit).
(** A conversion into vectors of its own. *)
Definition into (x : Arrays) (m : M Arrays unit) : R Arrays := fun s =>
  match m x with (Ok _, y) => (Ok y, s) | (Err e, _) => (Err e, s) end.
Definition header_with (a : TensorAttribute) (nnz : Z) : R bytes := fun s => (create_allsparky_header (with_nnz a nnz), s).
Definition save_csc (bin_data : bytes) (row col VECT : Z) (a : TensorAttribute) : R bytes :=
  let dense := words w bin_data in
  nnz ← get_nnz large dense row col VECT;
  cols ← as_int (col + 1);
  if cols <? 0 then throw LengthError
  else
    x ← into (mkArrays (zeros nnz) (zeros nnz) (zeros cols) 0) (dense_to_csc_padding large dense row col VECT);
    header ← header_with a nnz;
    mret (header ++ to_bytes 4 (col_offset x) ++ to_bytes 4 (row_idx x) ++ to_bytes w (values x)).
Definition save_ell (bin_data : bytes) (row col VECT : Z) (a : TensorAttribute) : R bytes :=
  let dense := words w bin_data in
  nnz ← get_nnz_ell large dense row col VECT;
  if nnz <? 0 then throw LengthError
  else
    x ← into (mkArrays (zeros nnz) (zeros nnz) [] 0) (dense_to_ell_padding large dense row col nnz VECT);
    header ← header_with a nnz;
    mret (header ++ to_bytes 2 (row_idx x) ++ to_bytes w (values x)).
End convert.
(** With [ENABLE_FP16]; other sizes write nothing. *)
Definition save_allsparky `{UN : Uninit} (bin_data : bytes) (a : TensorAttribute) : res bytes :=
  let sparse (save : (Z -> bool) -> nat -> bytes -> Z -> Z -> Z -> TensorAttribute -> M unit bytes) :=
    match a_shape a with
    | row :: col :: _ =>
        if a_word_size a =? 0 then Err UB
        else
          let VECT := Z.quot 16 (a_word_size a) in
          if a_word_size a =? 4 then fst (save large_float 4%nat bin_data row col VECT a tt)
          else if a_word_size a =? 2 then fst (save large_half 2%nat bin_data row col VECT a tt)
          else Ok []
    | _ => Err UB
    end in
  if a_sparse_type a =? 0 then
    match create_allsparky_header a with Ok header => Ok (header ++ bin_data) | Err e => Err e end
  else if a_sparse_type a =? 1 then sparse save_csc
  else if a_sparse_type a =? 2 then sparse save_ell
  else Err RuntimeError.
(** What a weight appends to the file. *)
Definition save_allsparky_tofile `{UN : Uninit} (name data : bytes) (a : TensorAttribute) : res bytes :=
  if a_sparse_type a =? 0 then
    match create_allsparky_header a with
    | Ok header => Ok (local_header name ++ header ++ data)
    | Err e => Err e
    end
  else
    match save_allsparky data a with
    | Ok w => Ok (local_header name ++ w)
    | Err e => Err e
    end.
Definition set_global_header : bytes := lit "AS" ++ le16 0 ++ le16 0.

(** ** Saving the weights of a rank ([WeightSerialization]) *)
Definition mode_number (m : DataMode) : Z := match m with DENSE => 0 | CSC => 1 | ELL => 2 | MODE_OTHER z => z end.
Definition saved_type (t : DataType) : bytes :=
  match t with
  | FLOAT32 => lit "f4" | FLOAT16 => lit "f2" | INT64 => lit "i8" | INT32 => lit "i4"
  | INT16 => lit "i2" | INT8 => lit "i1" | UINT8 => lit "u1" | BOOL => lit "b"
  | _ => []
  end.
(** Pads to a multiple of 32 bytes; the last character becomes the end of line. *)
Definition align (b : bytes) : bytes :=
  let rem := (length b mod 32)%nat in
  let b := if (rem =? 0)%nat then b else b ++ List.repeat 32 (32 - rem) in
  take (length b - 1) b ++ [10].
(** A dense tensor. *)
Definition SerializeSingleTensor (x : Tensor) : bytes :=
  align (lit "{'descr': '" ++ lit "<" ++ saved_type (dtype_ x)
    ++ lit "', 'fortran_order': False, 'shape': ("
    ++ match shape_ x with [] => [] | d :: ds => to_string d ++ rest_of_list ds end
    ++ (if (length (shape_ x) =? 1)%nat then lit "," else [])
    ++ lit "),'sparse_type': " ++ to_string (mode_number DENSE) ++ lit ",'nnz': " ++ lit "0" ++ lit ",}")
  ++ data_ x.
Definition SerializeMultipleTensor (tensors : list (bytes * Tensor)) : bytes :=
  concat ((fun '(name, x) => local_header name ++ SerializeSingleTensor x) <$> tensors) ++ set_global_header.

(** * Reading a header *)
Section parse.
Context {S : Type}.
Abbreviation P := (M S).
(** [s[i]]: the terminating NUL at the end. *)
Definition char_at (s : bytes) (i : nat) : P Z :=
  if (i <? length s)%nat then mret (nth i s 0) else if (i =? length s)%nat then mret 0 else throw UB.
Definition substr (s : bytes) (pos : nat) (n : option nat) : P bytes :=
  if (length s <? pos)%nat then throw OutOfRange
  else mret (match n with None => drop pos s | Some n => take n (drop pos s) end).
(** [substr(loc1 + skip, loc2 - loc1 - skip)], where the length is a [size_t]. *)
Definition between (s : bytes) (loc1 skip : nat) (loc2 : option nat) : P bytes :=
  substr s (loc1 + skip)
    (match loc2 with Some l => if (loc1 + skip <=? l)%nat then Some (l - loc1 - skip)%nat else None | None => None end).
Definition int_list (s : bytes) : P (list Z) :=
  match split s (lit ", ") with Some l => mret (atoi <$> l) | None => throw Hang end.

Definition parse_dtype (type word_size : Z) : P (option DataType) :=
  if type =? 102 then
    mret (if word_size =? 4 then Some FLOAT32 else if word_size =? 2 then Some FLOAT16
          else if word_size =? 1 then Some FLOAT8E4M3 else None)
  else if type =? 105 then
    mret (if word_size =? 8 then Some INT64 else if word_size =? 4 then Some INT32
          else if word_size =? 2 then Some INT16 else if word_size =? 1 then Some INT8 else None)
  else if type =? 117 then mret (if word_size =? 1 then Some UINT8 else None)
  else if type =? 98 then mret (if word_size =? 2 then Some BFLOAT16 else if word_size =? 1 then Some BOOL else None)
  else AS_THROW ALLSPARK_RUNTIME_ERROR.
(** The casts to [DataMode] and [SplitMode]. *)
Definition to_mode (z : Z) : DataMode := if z =? 0 then DENSE else if z =? 1 then CSC else if z =? 2 then ELL else MODE_OTHER z.
Definition to_split (z : Z) : SplitMode :=
  nth (Z.to_nat z) (if z <? 0 then [] else [NOSPLIT; VSPLIT; HSPLIT; QKVSPLIT; KVSPLIT; HSPLIT_QUANTIZE; GROUP_VSPLIT;
    MQA_VSPLIT; BATCH_VSPLIT; BATCH_HSPLIT; BATCH_KVSPLIT]) (SPLIT_OTHER z).
Definition bad_header {A} : P A := AS_THROW ALLSPARK_RUNTIME_ERROR.

(** The characters before a NUL. *)
Fixpoint c_str (s : bytes) : bytes := match s with [] => [] | c :: s' => if c =? 0 then [] else c :: c_str s' end.
Definition ParseTensorInfo (ptr : bytes) (len : nat) : P TensorInfo :=
  let header := take (len - 1) (c_str ptr) in
  match find header (lit "descr") 0 with
  | None => bad_header
  | Some loc =>
      let loc1 := (loc + 9)%nat in
      c ← char_at header loc1;
      if negb (c =? 60) then bad_header
      else
        type ← char_at header (loc1 + 1);
        str_ws ← substr header (loc1 + 2) None;
        ws ← substr str_ws 0 (find str_ws (lit "'") 0);
        dtype ← parse_dtype type (atoi ws);
        match find header (lit "'shape': (") 0 with
        | None => bad_header
        | Some loc1 =>
            match find header (lit ")") loc1 with
            | None => bad_header
            | Some loc2 =>
                str_shape ← between header loc1 10 (Some loc2);
                shape ← int_list str_shape;
                match find header (lit "'sparse_type': ") 0 with
                | None => bad_header
                | Some loc1 =>
                    str_sparse_type ← between header loc1 15 (find header (lit ",") loc1);
                    let mode := to_mode (atoi str_sparse_type) in
                    nnz ← (if bool_decide (mode = DENSE) then mret 0
                      else match find header (lit "'nnz': ") 0 with
                      | None => bad_header
                      | Some loc1 => str_nnz ← between header loc1 7 (find header (lit ",") loc1); mret (atoi str_nnz)
                      end);
                    split_mode ← (match find header (lit "'split_type': ") 0 with
                      | None => mret NOSPLIT
                      | Some loc1 => str ← between header loc1 14 (find header (lit ",") loc1); mret (to_split (atoi str))
                      end);
                    group_list ← (if negb (bool_decide (split_mode = GROUP_VSPLIT \/ split_mode = MQA_VSPLIT)) then mret []
                      else match find header (lit "'group_list': (") 0 with
                      | None => bad_header
                      | Some loc1 =>
                          match find header (lit ")") loc1 with
                          | None => bad_header
                          | Some loc2 => str ← between header loc1 15 (Some loc2); int_list str
                          end
                      end);
                    mret (mkTensorInfo shape dtype mode split_mode nnz group_list)
                end
            end
        end
  end.
End parse.

(** * Loading a file *)
(** The tensors of a rank: dense ones, or the sparse data the code gives them. *)
Inductive Weight :=
  | WDense (x : Tensor)
  | WCsc (t : DataType) (sh : Shape) (nnz : Z) (col_offsets row_indices values : bytes)
  | WEll (t : DataType) (sh : Shape) (nnz : Z) (row_indices values : bytes).
Record Loading := mkLoading { content : bytes; ftell : nat; tensors : gmap bytes Weight }.

(** One line of at most [n] characters, its end included. *)
Fixpoint line (n : nat) (s : bytes) : bytes :=
  match n, s with
  | S k, c :: s' => c :: (if c =? 10 then [] else line k s')
  | _, _ => []
  end.

(** [WeightManager::ValidateWeight]; adapters have a check of their own. *)
Definition accept_all (_ : bytes) (_ : TensorInfo) : res AsStatus := Ok ALLSPARK_SUCCESS.

Section load.
Context `{UN : Uninit} (ValidateWeight : bytes -> TensorInfo -> res AsStatus).
Abbreviation L := (M Loading).
Definition advance (n : nat) : L unit := modify (fun x => mkLoading (content x) (ftell x + n) (tensors x)).
(** Reads up to [n] bytes; the caller compares what it got. *)
Definition fread (n : nat) : L bytes :=
  rest ← gets (fun x => drop (ftell x) (content x));
  advance (length (take n rest));; mret (take n rest).
(** [fread] into a vector of [n] zeros. *)
Definition fread_vector (n : Z) : L bytes :=
  if n <? 0 then throw LengthError
  else b ← fread (Z.to_nat n); mret (b ++ List.repeat 0 (Z.to_nat n - length b)).
Definition AS_HEADER_BYTES : nat := 256.
(** [fgets] gives NULL at the end of the file. *)
Definition ParseTensorInfo_fp : L TensorInfo :=
  rest ← gets (fun x => drop (ftell x) (content x));
  let buffer := line (AS_HEADER_BYTES - 1) rest in
  if bool_decide (buffer = []) then throw UB
  else advance (length buffer);; ParseTensorInfo buffer AS_HEADER_BYTES.

Definition DenseLoadFromFileStream (info : TensorInfo) (t : DataType) (r : RankInfo) (x : Tensor) : L Tensor :=
  let size := Z.to_nat (nbytes t (shape info)) in
  whole ← fread size;
  if negb (length whole =? size)%nat then AS_THROW ALLSPARK_RUNTIME_ERROR
  else match LoadFromMemory info r whole x with
  | (Ok _, y) => mret y
  | (Err e, _) => throw e
  end.
(** The arrays of an empty sparse weight are null. *)
Definition SparseLoadFromFileStream (info : TensorInfo) (t : DataType) : L Weight :=
  let n := nnz info in
  match mode info with
  | CSC =>
      match shape info with
      | _ :: w :: _ =>
          let cols := i32 w in
          if cols =? INT32_MAX then throw UB
          else
            col_offsets ← fread_vector ((cols + 1) * 4);
            row_indices ← fread_vector (n * 4);
            val ← fread_vector (n * SizeofType t);
            if (n =? 0) && negb (bool_decide (col_offsets = [])) then throw UB
            else mret (WCsc t (shape info) n col_offsets row_indices val)
      | _ => throw UB
      end
  | ELL =>
      match shape info with
      | _ :: _ :: _ =>
          if (n <? 0) then throw LengthError
          else
            row_indices ← fread_vector (n * 2);
            val ← fread_vector (n * SizeofType t);
            mret (WEll t (shape info) n row_indices val)
      | _ => throw UB
      end
  | _ => AS_THROW ALLSPARK_RUNTIME_ERROR
  end.

Definition u16_at (b : bytes) (i : nat) : Z := nth i b 0 + 256 * nth (i + 1) b 0.
(** The data of a weight.  The bytes that a rank has loaded are counted for the
    log by a division by the number of ranks. *)
Definition load_data (r : RankInfo) (varname : bytes) (info : TensorInfo) : L (option AsStatus) :=
  match dtype info with
  | None => throw UB
  | Some t =>
      let size_bytes := u64 (SizeofType t * Count (shape info)) in
      weight_offset ← gets ftell;
      ret ← (fun x => (ValidateWeight varname info, x));
      if negb (bool_decide (ret = ALLSPARK_SUCCESS)) then mret (Some ret)
      else
        st_size ← gets (fun x => length (content x));
        let tensor := snd (SetShape (shape info) (mkT t [] [])) in
        if negb (bool_decide (mode info = DENSE)) then
          w ← SparseLoadFromFileStream info t;
          modify (fun x => mkLoading (content x) (ftell x) (<[varname := w]> (tensors x)));; mret None
        else if rank_size r =? 0 then throw UB
        else if Z.of_nat st_size <=? u64 (Z.of_nat weight_offset + size_bytes) then mret (Some ALLSPARK_RUNTIME_ERROR)
        else
          y ← DenseLoadFromFileStream info t r tensor;
          modify (fun x => mkLoading (content x) (ftell x) (<[varname := WDense y]> (tensors x)));; mret None
  end.
(** One round of the loop; a status leaves it. *)
Definition load_weight (r : RankInfo) : L (option AsStatus) :=
  local_header ← fread 6;
  if negb (length local_header =? 6)%nat then AS_THROW ALLSPARK_RUNTIME_ERROR
  else if negb (u16_at local_header 2 =? 1) then mret (Some ALLSPARK_SUCCESS)
  else
    let name_len := Z.to_nat (u16_at local_header 4) in
    varname ← fread name_len;
    if negb (length varname =? name_len)%nat then AS_THROW ALLSPARK_RUNTIME_ERROR
    else
      info ← ParseTensorInfo_fp;
      load_data r varname info.
(** Every round reads at least six bytes. *)
Definition LoadWeightForModel (r : RankInfo) (file : bytes) : res (AsStatus * gmap bytes Weight) :=
  match loop (Z.of_nat (length file) + 1) (load_weight r) (mkLoading file 0 ∅) with
  | (Ok (Some st), x) => Ok (st, tensors x)
  | (Ok None, _) => Err Hang
  | (Err e, _) => Err e
  end.
End load.
