(* ===== verification/FileProofs.v ===== *)
(** Reading back what was written: numbers, the fields of a header, the records
    of a file. *)
From Stdlib Require Import ZArith ZifyBool Lia.
From stdpp Require Import base list gmap strings.
From S2P Require Import Prelude StringUtil MemoryReuse WeightSplit WeightProofs WeightLoad Sparse WeightFile.

(** * Numbers *)
Definition is_dec (c : Z) : Prop := 48 <= c <= 57.
Lemma digit_value_dec d : 0 <= d < 10 -> digit_value (48 + d) = Some d.
Proof. intros Hd. unfold digit_value. replace (_ && _) with true by lia. f_equal. lia. Qed.
Lemma decimal_S k v : decimal (S k) v = (if v <? 10 then [] else decimal k (v / 10)) ++ [48 + v mod 10].
Proof. done. Qed.
Lemma decimal_spec fuel v : 0 <= v < 10 ^ Z.of_nat (S fuel) ->
  Forall is_dec (decimal (S fuel) v) /\ digits_value 10 0 (decimal (S fuel) v) = v /\ decimal (S fuel) v <> [].
Proof.
  revert v. induction fuel as [|fuel IH]; intros v Hv; rewrite Nat2Z.inj_succ, Z.pow_succ_r in Hv by lia;
    rewrite decimal_S; assert (Hm := Z.mod_pos_bound v 10 ltac:(lia)).
  - change (10 ^ Z.of_nat 0) with 1 in Hv. replace (v <? 10) with true by lia. rewrite app_nil_l.
    split_and!; [repeat constructor; unfold is_dec; lia| |done]. unfold digits_value. cbn [foldl].
    rewrite digit_value_dec by lia. cbn [default]. unfold id. rewrite Z.mod_small; lia.
  - destruct (Z.ltb_spec v 10) as [Hlt|Hge].
    + split_and!; [repeat constructor; unfold is_dec; lia| |done]. unfold digits_value. cbn [foldl app].
      rewrite digit_value_dec by lia. cbn. unfold id. rewrite Z.mod_small; lia.
    + destruct (IH (v / 10)) as (H1 & H2 & H3).
      { split; [apply Z.div_pos; lia|]. apply Z.div_lt_upper_bound; lia. }
      split_and!.
      * apply Forall_app. split; [exact H1|]. repeat constructor; unfold is_dec; lia.
      * unfold digits_value in *. rewrite foldl_app, H2. cbn [foldl]. rewrite digit_value_dec by lia.
        cbn. unfold id. assert (Hd := Z.div_mod v 10 ltac:(lia)). lia.
      * intros [_ ?]%app_nil. done.
Qed.

(** Digits are read up to the first other character. *)
Definition stops (tail : bytes) : Prop := match tail with [] => True | c :: _ => is_digit 10 c = false end.
Lemma read_digits_stop l tail acc n : Forall is_dec l -> stops tail ->
  read_digits 10 (l ++ tail) acc n = (digits_value 10 acc l, (n + length l)%nat, tail).
Proof.
  intros Hl Ht. revert acc n. induction Hl as [|c l Hc Hl IH]; intros acc n; cbn [app read_digits].
  - destruct tail as [|c tail]; cbn [read_digits length]; [by rewrite Nat.add_0_r|]. unfold stops, is_digit in Ht.
    rewrite Nat.add_0_r. destruct (digit_value c); [by rewrite Ht|done].
  - unfold is_dec in Hc. assert (Hd := digit_value_dec (c - 48) ltac:(lia)). replace (48 + (c - 48)) with c in Hd by lia.
    rewrite Hd. replace (c - 48 <? 10) with true by lia. rewrite IH. unfold digits_value. cbn [foldl]. rewrite Hd.
    cbn [length]. do 2 f_equal. lia.
Qed.
Lemma strto_dec (neg : bool) l tail : Forall is_dec l -> l <> [] -> stops tail ->
  strto 10 ((if neg then [45] else []) ++ l ++ tail) = (neg, digits_value 10 0 l, tail).
Proof.
  intros Hl Hne Ht. unfold strto. destruct l as [|c l]; [done|]. assert (Hc := Hl). apply Forall_cons in Hc as [Hc _].
  unfold is_dec in Hc. assert (Hsp : isspace c = false) by (unfold isspace; lia).
  assert (Hr : read_sign (drop_space ((if neg then [45] else []) ++ (c :: l) ++ tail)) = (neg, (c :: l) ++ tail)).
  { destruct neg; [done|]. cbn [app drop_space]. rewrite Hsp. cbn [read_sign].
    destruct (c =? 45) eqn:E1; [lia|]. by destruct (c =? 43) eqn:E2; [lia|]. }
  rewrite Hr. assert (Hskip : forall s, skip_0x 10 s = s) by (intros [|? [|? [|]]]; reflexivity).
  rewrite Hskip, read_digits_stop by done. done.
Qed.

Definition fits_int (z : Z) : Prop := INT32_MIN <= z <= INT32_MAX.
Lemma to_string_shape z : fits_int z -> exists l, to_string z = (if z <? 0 then [45] else []) ++ l /\
  Forall is_dec l /\ l <> [] /\ digits_value 10 0 l = Z.abs z.
Proof.
  intros Hz. unfold fits_int, INT32_MIN, INT32_MAX in Hz. unfold to_string.
  assert (Hp : 2 ^ 31 < 10 ^ Z.of_nat 20) by reflexivity.
  destruct (Z.ltb_spec z 0).
  - destruct (decimal_spec 19 (- z)) as (H1 & H2 & H3); [lia|]. exists (decimal 20 (- z)). split_and!; [done..|lia].
  - destruct (decimal_spec 19 z) as (H1 & H2 & H3); [lia|]. exists (decimal 20 z). split_and!; [done..|lia].
Qed.
Lemma atoi_to_string z tail : fits_int z -> stops tail -> atoi (to_string z ++ tail) = z.
Proof.
  intros Hz Ht. destruct (to_string_shape z Hz) as (l & -> & Hl & Hne & Hv). unfold fits_int, INT32_MIN, INT32_MAX in Hz.
  unfold atoi, strtol. rewrite <- app_assoc, strto_dec, Hv by done.
  assert (Hs : (if z <? 0 then - Z.abs z else Z.abs z) = z) by (destruct (Z.ltb_spec z 0); lia). rewrite Hs.
  assert (H63 : 2 ^ 31 < 2 ^ 63) by reflexivity.
  replace (z <? - 2 ^ 63) with false by lia. unfold INT64_MAX. replace (2 ^ 63 - 1 <? z) with false by lia.
  cbn [fst]. apply i32_small. lia.
Qed.

(** Characters of a number, or of a list of numbers. *)
Definition num_char (c : Z) : Prop := c = 45 \/ is_dec c.
Definition list_char (c : Z) : Prop := c = 44 \/ c = 32 \/ num_char c.
Lemma to_string_chars z : fits_int z -> Forall num_char (to_string z) /\ to_string z <> [].
Proof.
  intros Hz. destruct (to_string_shape z Hz) as (l & -> & Hl & Hne & _). split.
  - apply Forall_app. split; [case_match; repeat constructor|]. eapply Forall_impl; [exact Hl|]. intros c Hc. by right.
  - intros [_ ?]%app_nil. done.
Qed.

(** * Searching

    [clear a pat]: no occurrence of [pat] starts within [a], whatever follows. *)
Fixpoint mismatch (pat s : bytes) : bool :=
  match pat, s with p :: pat', c :: s' => negb (p =? c) || mismatch pat' s' | _, _ => false end.
Fixpoint clear (a pat : bytes) : bool :=
  match a with [] => true | _ :: a' => mismatch pat a && clear a' pat end.

Lemma mismatch_app pat s t : mismatch pat s = true -> mismatch pat (s ++ t) = true.
Proof.
  revert s. induction pat as [|p pat IH]; intros [|c s]; try done. cbn. rewrite !orb_true_iff. intros [?|?]; [by left|right; by apply IH].
Qed.
Lemma mismatch_starts pat s : mismatch pat s = true -> starts_with pat s = false.
Proof.
  revert s. induction pat as [|p pat IH]; intros [|c s]; try done. cbn. rewrite orb_true_iff, andb_false_iff.
  intros [H|H]; [left; by apply negb_true_iff|right; by apply IH].
Qed.
Lemma clear_app a b pat : clear a pat = true -> clear b pat = true -> clear (a ++ b) pat = true.
Proof.
  intros Ha Hb. induction a as [|c a IH]; [done|]. cbn [clear] in Ha. apply andb_true_iff in Ha as [H1 H2].
  change ((c :: a) ++ b) with (c :: (a ++ b)). cbn [clear]. rewrite IH by done.
  change (c :: a ++ b) with ((c :: a) ++ b). by rewrite mismatch_app.
Qed.
(** A text without the first character of the pattern. *)
Lemma clear_chars (P : Z -> Prop) a p pat : Forall P a -> ~ P p -> clear a (p :: pat) = true.
Proof.
  intros Ha Hp. induction Ha as [|c a Hc Ha IH]; [done|]. cbn [clear mismatch]. rewrite IH.
  destruct (Z.eqb_spec p c); [by subst|done].
Qed.
Lemma find_at_clear a s pat : clear a pat = true -> find_at (a ++ s) pat = (fun n => length a + n)%nat <$> find_at s pat.
Proof.
  induction a as [|c a IH]; intros Ha.
  - cbn. by destruct (find_at s pat).
  - cbn [clear] in Ha. apply andb_true_iff in Ha as [H1 H2]. cbn [app find_at].
    rewrite (mismatch_starts pat (c :: a ++ s)) by (by apply (mismatch_app pat (c :: a))).
    rewrite IH by done. destruct (find_at s pat); done.
Qed.
Lemma starts_with_app pat s : starts_with pat (pat ++ s) = true.
Proof. apply starts_with_spec. by exists s. Qed.
Lemma find_key pre key post : clear pre key = true -> find (pre ++ key ++ post) key 0 = Some (length pre).
Proof.
  intros Hc. rewrite find_0, find_at_clear by done.
  assert (Hk : find_at (key ++ post) key = Some 0%nat).
  { assert (Hs := starts_with_app key post). destruct (key ++ post); cbn [find_at]; by rewrite Hs. }
  rewrite Hk. cbn. by rewrite Nat.add_0_r.
Qed.
(** The closing character of a field. *)
Lemma find_close pre mid c post : clear mid [c] = true ->
  find (pre ++ mid ++ c :: post) [c] (length pre) = Some (length pre + length mid)%nat.
Proof.
  intros Hc. unfold find. rewrite length_app. replace (_ <=? _)%nat with true by lia. rewrite drop_app_length.
  rewrite find_at_clear by done. cbn [find_at starts_with]. rewrite Z.eqb_refl. cbn. by rewrite Nat.add_0_r.
Qed.

(** ** Lists of numbers *)
Lemma rest_of_list_cons z l : rest_of_list (z :: l) = lit ", " ++ to_string z ++ rest_of_list l.
Proof. unfold rest_of_list. cbn. by rewrite <- ?app_assoc. Qed.
Lemma rest_of_list_chars l : Forall fits_int l -> Forall list_char (rest_of_list l).
Proof.
  induction 1 as [|z l Hz _ IH]; [constructor|]. rewrite rest_of_list_cons.
  apply Forall_app. split; [|apply Forall_app; split; [|exact IH]].
  - apply Forall_cons. split; [by left|]. apply Forall_cons. split; [by right; left|constructor].
  - eapply Forall_impl; [apply (to_string_chars z Hz)|]. intros c Hc. by right; right.
Qed.
Lemma num_not_comma c : num_char c -> c <> 44.
Proof. unfold num_char, is_dec. lia. Qed.
Lemma split_rest fuel out (p : bytes) l : Forall num_char p -> Forall fits_int l ->
  (length (p ++ rest_of_list l) <= fuel)%nat ->
  split_loop fuel out (p ++ rest_of_list l) (lit ", ") = Some (out ++ p :: (to_string <$> l)).
Proof.
  intros Hp Hl. revert fuel out p Hp. induction Hl as [|z l Hz Hl IH]; intros fuel out p Hp Hf.
  - unfold rest_of_list. cbn [fmap list_fmap concat]. rewrite app_nil_r.
    assert (Hn : find p (lit ", ") 0 = None).
    { rewrite find_0, <- (app_nil_r p). rewrite find_at_clear; [done|]. apply (clear_chars num_char); [done|]. by intros ?%num_not_comma. }
    destruct fuel; cbn [split_loop]; by rewrite Hn.
  - rewrite rest_of_list_cons in *.
    assert (Hn : find (p ++ lit ", " ++ to_string z ++ rest_of_list l) (lit ", ") 0 = Some (length p)).
    { apply find_key. apply (clear_chars num_char); [done|]. by intros ?%num_not_comma. }
    rewrite !length_app in Hf. cbn [lit length] in Hf. destruct fuel as [|fuel]; [lia|]. cbn [split_loop]. rewrite Hn.
    rewrite take_app_length, <- drop_drop, drop_app_length. change (drop (length (lit ", ")) (lit ", " ++ ?s)) with s.
    rewrite IH; [by rewrite <- app_assoc|apply (to_string_chars z Hz)|]. rewrite !length_app. lia.
Qed.

(** The text of a list, with the comma after a single number. *)
Definition int_text (l : list Z) : bytes :=
  match l with
  | [] => []
  | d :: ds => to_string d ++ rest_of_list ds ++ (if (length l =? 1)%nat then lit "," else [])
  end.
Lemma num_list_chars (l : bytes) : Forall num_char l -> Forall list_char l.
Proof. intros H. eapply Forall_impl; [exact H|]. intros c Hc. by right; right. Qed.
Lemma int_text_chars l : Forall fits_int l -> Forall list_char (int_text l).
Proof.
  intros Hl. destruct l as [|d ds]; [constructor|]. apply Forall_cons in Hl as [Hd Hds]. cbn [int_text].
  apply Forall_app. split; [by apply num_list_chars, to_string_chars|]. apply Forall_app. split; [by apply rest_of_list_chars|].
  case_match; [|constructor]. apply Forall_cons. split; [by left|constructor].
Qed.
Lemma atoi_to_string_nil z : fits_int z -> atoi (to_string z) = z.
Proof. intros Hz. rewrite <- (app_nil_r (to_string z)). by apply atoi_to_string. Qed.
Lemma int_list_text {S} (l : list Z) (x : S) : Forall fits_int l -> l <> [] -> int_list (int_text l) x = (Ok l, x).
Proof.
  intros Hl Hne. destruct l as [|d ds]; [done|]. apply Forall_cons in Hl as [Hd Hds]. unfold int_list.
  destruct (to_string_chars d Hd) as [Hc _]. destruct ds as [|e ds].
  - cbn [int_text length Nat.eqb rest_of_list fmap list_fmap concat app]. unfold split.
    assert (Hn : find (to_string d ++ lit ",") (lit ", ") 0 = None).
    { rewrite find_0, find_at_clear; [done|]. apply (clear_chars num_char); [done|]. by intros ?%num_not_comma. }
    assert (Hs : split_loop (length (to_string d ++ lit ",")) [] (to_string d ++ lit ",") (lit ", ") = Some [to_string d ++ lit ","]).
    { destruct (length (to_string d ++ lit ",")); cbn [split_loop]; by rewrite Hn. }
    rewrite Hs. cbn [fmap list_fmap]. rewrite atoi_to_string by done. done.
  - cbn [int_text length Nat.eqb]. rewrite app_nil_r. unfold split. rewrite split_rest by done. rewrite app_nil_l.
    cbn [mret M_ret]. unfold mret, M_ret. do 2 f_equal.
    assert (He : forall z, fits_int z -> atoi (to_string z) = z) by apply atoi_to_string_nil.
    clear -Hd Hds He. rewrite fmap_cons, He by done. f_equal.
    induction Hds as [|z l Hz Hl IH]; [done|]. rewrite !fmap_cons, He by done. by f_equal.
Qed.

(** * The fields of a header *)
Definition field (s key val : bytes) (close : Z) : Prop :=
  exists a b, s = a ++ key ++ val ++ close :: b /\ clear a key = true /\ clear (key ++ val) [close] = true.
Lemma field_read {S} s key val close (x : S) : field s key val close ->
  exists l, find s key 0 = Some l /\ exists l2, find s [close] l = Some l2 /\
    between s l (length key) (Some l2) x = (Ok val, x).
Proof.
  intros (a & b & -> & Ha & Hc). exists (length a). split; [by apply find_key|].
  exists (length a + length (key ++ val))%nat. split.
  - rewrite (app_assoc key). by apply find_close.
  - unfold between. rewrite length_app. replace (_ <=? _)%nat with true by lia. unfold substr.
    rewrite !length_app. replace (_ <? _)%nat with false by lia.
    rewrite <- drop_drop, !drop_app_length. unfold mret, M_ret. do 2 f_equal.
    replace (_ - _ - _)%nat with (length val) by lia. apply take_app_length.
Qed.

(** Printed text has no NUL and no end of line. *)
Definition printed (s : bytes) : Prop := Forall (fun c => 32 <= c) s.
Lemma c_str_printed s : printed s -> c_str (s ++ [10]) = s ++ [10].
Proof.
  induction 1 as [|c s Hc _ IH]; [done|]. cbn [c_str app]. destruct (Z.eqb_spec c 0); [lia|]. by rewrite IH.
Qed.
Lemma line_printed n s rest : printed s -> (length s < n)%nat -> line n (s ++ 10 :: rest) = s ++ [10].
Proof.
  intros Hs. revert n. induction Hs as [|c s Hc _ IH]; intros n Hn; (destruct n as [|n]; [cbn in Hn; lia|]); cbn [line app]; [done|].
  destruct (Z.eqb_spec c 10); [lia|]. rewrite IH; [done|]. cbn in Hn. lia.
Qed.
Lemma find_clear s p pat : clear s (p :: pat) = true -> find s (p :: pat) 0 = None.
Proof. intros Hs. rewrite find_0, <- (app_nil_r s). by rewrite find_at_clear. Qed.

(** The type of a weight: its letter and its size. *)
Definition type_code (t : DataType) : option (Z * Z) :=
  match t with
  | FLOAT32 => Some (102, 4) | FLOAT16 => Some (102, 2) | FLOAT8E4M3 => Some (102, 1)
  | INT64 => Some (105, 8) | INT32 => Some (105, 4) | INT16 => Some (105, 2) | INT8 => Some (105, 1)
  | UINT8 => Some (117, 1) | BFLOAT16 => Some (98, 2) | BOOL => Some (98, 1)
  | _ => None
  end.
Lemma parse_dtype_code {S} t c w (x : S) : type_code t = Some (c, w) -> parse_dtype c w x = (Ok (Some t), x).
Proof. destruct t; intros [= <- <-]; reflexivity. Qed.

Lemma substr_all {S} s a b (x : S) : s = a ++ b -> substr s (length a) None x = (Ok b, x).
Proof. intros ->. unfold substr. rewrite length_app. replace (_ <? _)%nat with false by lia. by rewrite drop_app_length. Qed.
Lemma char_at_app {S} s a c b (x : S) : s = a ++ c :: b -> char_at s (length a) x = (Ok c, x).
Proof.
  intros ->. unfold char_at. rewrite length_app. cbn [length]. replace (_ <? _)%nat with true by lia.
  rewrite app_nth2, Nat.sub_diag by lia. done.
Qed.

(** What the parser needs to find. *)
Record describes (s : bytes) (info : TensorInfo) : Prop := mkDescribes {
  de_printed : exists h, s = h ++ [10] /\ printed h;
  de_type : exists t c w b, dtype info = Some t /\ type_code t = Some (c, w) /\
    s = lit "{'" ++ lit "descr" ++ lit "': '" ++ 60 :: c :: to_string w ++ 39 :: b;
  de_shape : exists v, field s (lit "'shape': (") v 41 /\ forall S (x : S), int_list v x = (Ok (shape info), x);
  de_mode : exists v, field s (lit "'sparse_type': ") v 44 /\ to_mode (atoi v) = mode info;
  de_nnz : if bool_decide (mode info = DENSE) then nnz info = 0
    else exists v, field s (lit "'nnz': ") v 44 /\ atoi v = nnz info;
  de_split : clear s (lit "'split_type': ") = true /\ split_mode info = NOSPLIT \/
    exists v, field s (lit "'split_type': ") v 44 /\ to_split (atoi v) = split_mode info;
  de_groups : if bool_decide (split_mode info = GROUP_VSPLIT \/ split_mode info = MQA_VSPLIT)
    then exists v, field s (lit "'group_list': (") v 41 /\ forall S (x : S), int_list v x = (Ok (group_list info), x)
    else group_list info = [];
}.

Lemma type_code_size t c w : type_code t = Some (c, w) -> fits_int w.
Proof. destruct t; intros [= <- <-]; split; discriminate. Qed.

Lemma parse_described {S} s info len (x : S) : describes s info -> (length s < len)%nat ->
  ParseTensorInfo s len x = (Ok info, x).
Proof.
  intros [(h & Hh & Hp) (t & c & w & b & Ht & Hc & Hs) (vs & Hfs & Hvs) (vm & Hfm & Hvm) Hnnz Hsplit Hgroups] Hlen.
  assert (Hcs : c_str s = s) by (rewrite Hh; by apply c_str_printed).
  unfold ParseTensorInfo. rewrite Hcs, take_ge by lia.
  assert (Hd : find s (lit "descr") 0 = Some 2%nat) by (rewrite Hs; by apply (find_key (lit "{'"))).
  rewrite Hd. cbv zeta.
  rewrite (bind_ok _ _ x x 60) by (apply (char_at_app s (lit "{'" ++ lit "descr" ++ lit "': '") 60 (c :: to_string w ++ 39 :: b)); exact Hs).
  change (negb (60 =? 60)) with false. cbv iota.
  rewrite (bind_ok _ _ x x c) by (apply (char_at_app s (lit "{'descr': '<") c (to_string w ++ 39 :: b)); exact Hs).
  rewrite (bind_ok _ _ x x (to_string w ++ 39 :: b)) by (apply (substr_all s (lit "{'descr': '<" ++ [c])); exact Hs).
  assert (Hw := type_code_size t c w Hc).
  assert (Hq : find (to_string w ++ 39 :: b) (lit "'") 0 = Some (length (to_string w))).
  { apply (find_key _ (lit "'")). apply (clear_chars num_char); [by apply to_string_chars|]. change (~ num_char 39); unfold num_char, is_dec; lia. }
  rewrite Hq, (bind_ok _ _ x x (to_string w)).
  2: { unfold substr. cbn [Nat.ltb]. by rewrite drop_0, take_app_length. }
  rewrite atoi_to_string_nil by done. rewrite (bind_ok _ _ x x (Some t)) by (by apply parse_dtype_code).
  destruct (field_read s _ _ _ x Hfs) as (l & Hl & l2 & Hl2 & Hb). change (lit ")") with [41]. rewrite Hl, Hl2.
  rewrite (bind_ok _ _ x x vs) by exact Hb. rewrite (bind_ok _ _ x x (shape info)) by apply Hvs.
  clear l Hl l2 Hl2 Hb. destruct (field_read s _ _ _ x Hfm) as (l & Hl & l2 & Hl2 & Hb). rewrite Hl. change (lit ",") with [44]. rewrite Hl2.
  rewrite (bind_ok _ _ x x vm) by exact Hb. rewrite Hvm.
  rewrite (bind_ok _ _ x x (nnz info)).
  2: { destruct (bool_decide (mode info = DENSE)); [by rewrite Hnnz|]. destruct Hnnz as (vn & Hfn & <-).
       destruct (field_read s _ _ _ x Hfn) as (k & Hk & k2 & Hk2 & Hkb). rewrite Hk, Hk2. by rewrite (bind_ok _ _ x x vn) by exact Hkb. }
  rewrite (bind_ok _ _ x x (split_mode info)).
  2: { destruct Hsplit as [[Hcl ->] | (vt & Hft & <-)]; [assert (Hn : find s (lit "'split_type': ") 0 = None) by exact (find_clear s 39 _ Hcl); by rewrite Hn|].
       destruct (field_read s _ _ _ x Hft) as (k & Hk & k2 & Hk2 & Hkb). rewrite Hk, Hk2. by rewrite (bind_ok _ _ x x vt) by exact Hkb. }
  rewrite (bind_ok _ _ x x (group_list info)); [by destruct info; cbn in *; subst|].
  destruct (bool_decide (split_mode info = GROUP_VSPLIT \/ split_mode info = MQA_VSPLIT)); cbn [negb]; [|by rewrite Hgroups].
  destruct Hgroups as (vg & Hfg & Hvg). destruct (field_read s _ _ _ x Hfg) as (k & Hk & k2 & Hk2 & Hkb). rewrite Hk, Hk2.
  rewrite (bind_ok _ _ x x vg) by exact Hkb. apply Hvg.
Qed.

(** ** The headers that are written *)
Lemma to_string_clear z p pat : fits_int z -> ~ num_char p -> clear (to_string z) (p :: pat) = true.
Proof. intros Hz Hp. apply (clear_chars num_char); [by apply to_string_chars|done]. Qed.
Lemma int_text_clear l p pat : Forall fits_int l -> ~ list_char p -> clear (int_text l) (p :: pat) = true.
Proof. intros Hl Hp. apply (clear_chars list_char); [by apply int_text_chars|done]. Qed.
Lemma type_code_clear t c w p pat : type_code t = Some (c, w) -> p < 98 -> clear [c] (p :: pat) = true.
Proof.
  intros Hc Hp. cbn [clear mismatch]. assert (Hcp : p <> c) by (destruct t; inversion Hc; subst; lia).
  by destruct (Z.eqb_spec p c).
Qed.
Ltac char_side := first [by unfold num_char, list_char, is_dec; lia | by intros [?|[?|[?|[? ?]]]]].
Ltac clear_pieces :=
  repeat apply clear_app;
  first [ reflexivity
        | apply (to_string_clear _ 39); [done|char_side] | apply (to_string_clear _ 41); [done|char_side]
        | apply (to_string_clear _ 44); [done|char_side]
        | apply (int_text_clear _ 39); [done|char_side] | apply (int_text_clear _ 41); [done|char_side]
        | eapply (type_code_clear _ _ _ 39); [eassumption|lia] ].
Ltac field_after pre :=
  exists pre; eexists; split_and!; [rewrite <- !app_assoc; reflexivity|clear_pieces|clear_pieces].

Record attr_ok (a : TensorAttribute) (t : DataType) : Prop := mkAttrOk {
  ao_shape : a_shape a <> [] /\ Forall fits_int (a_shape a);
  ao_groups : Forall fits_int (a_group_list a);
  ao_mode : fits_int (a_sparse_type a);
  ao_split : fits_int (a_split_mode a);
  ao_nnz : fits_int (a_nnz a);
  ao_type : type_code t = Some (a_dtype a, a_word_size a);
}.
(** What is read back. *)
Definition info_of (a : TensorAttribute) (t : DataType) : TensorInfo :=
  let md := to_mode (a_sparse_type a) in
  let sm := to_split (a_split_mode a) in
  mkTensorInfo (a_shape a) (Some t) md sm (if bool_decide (md = DENSE) then 0 else a_nnz a)
    (if bool_decide (sm = GROUP_VSPLIT \/ sm = MQA_VSPLIT) then match a_group_list a with [] => [0] | l => l end else []).
Definition header_text (a : TensorAttribute) : bytes :=
  lit "{'descr': '<" ++ [a_dtype a] ++ to_string (a_word_size a) ++ lit "', 'fortran_order': False, 'shape': ("
  ++ int_text (a_shape a) ++ lit "),'group_list': (" ++ int_text (a_group_list a) ++ lit "),'sparse_type': "
  ++ to_string (a_sparse_type a) ++ lit ",'nnz': " ++ to_string (a_nnz a) ++ lit ",'split_type': "
  ++ to_string (a_split_mode a) ++ lit ",}".

Lemma create_text a : a_shape a <> [] -> create_allsparky_header a = Ok (header_text a ++ [10]).
Proof.
  intros Hne. unfold create_allsparky_header, header_text. destruct (a_shape a) as [|d ds]; [done|].
  destruct (a_group_list a) as [|g gs]; cbn [int_text]; rewrite <- !app_assoc; reflexivity.
Qed.

Lemma printed_app a b : printed a -> printed b -> printed (a ++ b).
Proof. intros. by apply Forall_app. Qed.
Lemma list_char_printed (s : bytes) : Forall list_char s -> printed s.
Proof. intros Hs. eapply Forall_impl; [exact Hs|]. intros c. unfold list_char, num_char, is_dec. lia. Qed.
Lemma to_string_printed z : fits_int z -> printed (to_string z).
Proof. intros Hz. by apply list_char_printed, num_list_chars, to_string_chars. Qed.
Lemma int_text_printed l : Forall fits_int l -> printed (int_text l).
Proof. intros Hl. by apply list_char_printed, int_text_chars. Qed.
Lemma type_code_letter t c w : type_code t = Some (c, w) -> 98 <= c <= 117.
Proof. destruct t; intros [= <- <-]; lia. Qed.
Create HintDb printed.
#[local] Hint Resolve printed_app to_string_printed int_text_printed : printed.

Lemma lit_printed s : forallb (fun c => 32 <=? c) (lit s) = true -> printed (lit s).
Proof.
  intros Hf. apply Forall_forall. intros c Hc. apply list_elem_of_In in Hc. rewrite List.forallb_forall in Hf. specialize (Hf c Hc). lia.
Qed.
Lemma header_printed a t : attr_ok a t -> printed (header_text a).
Proof.
  intros [[Hne Hsh] Hg Hm Hs Hz Ht]. assert (Hl := type_code_letter _ _ _ Ht). assert (Hw := type_code_size _ _ _ Ht).
  unfold header_text. repeat apply printed_app; auto with printed; try (by apply lit_printed). repeat constructor. lia.
Qed.

Lemma header_described a t : attr_ok a t -> describes (header_text a ++ [10]) (info_of a t).
Proof.
  intros Ha. assert (Hp := header_printed a t Ha). destruct Ha as [[Hne Hsh] Hg Hm Hs Hz Ht].
  assert (Hw := type_code_size _ _ _ Ht). unfold header_text in *. constructor.
  - eexists. split; [done|]. exact Hp.
  - exists t, (a_dtype a), (a_word_size a). eexists. split_and!; [done..|]. rewrite <- !app_assoc. reflexivity.
  - exists (int_text (a_shape a)). split; [|intros; by apply int_list_text].
    field_after (lit "{'descr': '<" ++ [a_dtype a] ++ to_string (a_word_size a) ++ lit "', 'fortran_order': False, ").
  - exists (to_string (a_sparse_type a)). split; [|by rewrite atoi_to_string_nil].
    field_after (lit "{'descr': '<" ++ [a_dtype a] ++ to_string (a_word_size a) ++ lit "', 'fortran_order': False, 'shape': ("
      ++ int_text (a_shape a) ++ lit "),'group_list': (" ++ int_text (a_group_list a) ++ lit "),").
  - cbn [nnz mode info_of]. case_bool_decide; [done|]. exists (to_string (a_nnz a)). split; [|by rewrite atoi_to_string_nil].
    field_after (lit "{'descr': '<" ++ [a_dtype a] ++ to_string (a_word_size a) ++ lit "', 'fortran_order': False, 'shape': ("
      ++ int_text (a_shape a) ++ lit "),'group_list': (" ++ int_text (a_group_list a) ++ lit "),'sparse_type': "
      ++ to_string (a_sparse_type a) ++ lit ",").
  - right. exists (to_string (a_split_mode a)). split; [|by rewrite atoi_to_string_nil].
    field_after (lit "{'descr': '<" ++ [a_dtype a] ++ to_string (a_word_size a) ++ lit "', 'fortran_order': False, 'shape': ("
      ++ int_text (a_shape a) ++ lit "),'group_list': (" ++ int_text (a_group_list a) ++ lit "),'sparse_type': "
      ++ to_string (a_sparse_type a) ++ lit ",'nnz': " ++ to_string (a_nnz a) ++ lit ",").
  - cbn [split_mode group_list info_of]. case_bool_decide; [|done]. exists (int_text (a_group_list a)). split.
    + field_after (lit "{'descr': '<" ++ [a_dtype a] ++ to_string (a_word_size a) ++ lit "', 'fortran_order': False, 'shape': ("
        ++ int_text (a_shape a) ++ lit "),").
    + intros S x. destruct (a_group_list a) as [|g gs]; [reflexivity|]. by apply int_list_text.
Qed.

(** ** The headers of saved tensors *)
Definition saved_code (t : DataType) : option (Z * Z) :=
  if bool_decide (t = BOOL \/ t = BFLOAT16 \/ t = FLOAT8E4M3) then None else type_code t.
Lemma saved_type_code t c w : saved_code t = Some (c, w) -> saved_type t = c :: to_string w /\ type_code t = Some (c, w).
Proof. destruct t; try done; intros [= <- <-]; done. Qed.
Lemma align_text a : exists tail, align (a ++ [125]) = a ++ tail ++ [10] /\ Forall (fun c => c = 125 \/ c = 32) tail /\ (length tail <= 31)%nat.
Proof.
  unfold align. destruct (Nat.eqb_spec (length (a ++ [125]) mod 32) 0) as [Hr|Hr].
  - exists []. rewrite length_app, take_app_le by (cbn; lia). rewrite take_ge by (cbn; lia). split_and!; [done|constructor|cbn; lia].
  - set (k := (32 - length (a ++ [125%Z]) mod 32)%nat). assert (Hk : (0 < k <= 31)%nat).
    { unfold k. assert (H := Nat.mod_upper_bound (length (a ++ [125%Z])) 32). lia. }
    exists (125 :: List.repeat 32 (k - 1)). split_and!; [| |cbn [length]; rewrite List.repeat_length; lia].
    + destruct k as [|k]; [lia|]. replace (S k - 1)%nat with k by lia.
      replace (List.repeat 32 (S k)) with (List.repeat 32 k ++ [32]) by (by rewrite <- List.repeat_cons).
      rewrite !app_assoc. rewrite length_app, Nat.add_sub. rewrite take_app_le, take_ge by lia. by rewrite <- !app_assoc.
    + constructor; [by left|]. apply Forall_forall. intros c Hc. apply list_elem_of_In, List.repeat_spec in Hc. by right.
Qed.
Definition tensor_text (x : Tensor) : bytes :=
  lit "{'descr': '<" ++ saved_type (dtype_ x) ++ lit "', 'fortran_order': False, 'shape': (" ++ int_text (shape_ x)
  ++ lit "),'sparse_type': 0,'nnz': 0,".
Record tensor_ok (x : Tensor) : Prop := mkTensorOk {
  to_code : exists c w, saved_code (dtype_ x) = Some (c, w);
  to_shape : shape_ x <> [] /\ Forall fits_int (shape_ x);
}.
Definition info_of_tensor (x : Tensor) : TensorInfo := mkTensorInfo (shape_ x) (Some (dtype_ x)) DENSE NOSPLIT 0 [].

Lemma serialize_text x : shape_ x <> [] -> exists tail, SerializeSingleTensor x = (tensor_text x ++ tail ++ [10]) ++ data_ x /\
  Forall (fun c => c = 125 \/ c = 32) tail /\ (length tail <= 31)%nat.
Proof.
  intros Hne. unfold SerializeSingleTensor. destruct (align_text (tensor_text x)) as (tail & Ht & Hc). exists tail.
  split; [|done]. rewrite <- Ht. f_equal. f_equal. unfold tensor_text. destruct (shape_ x) as [|d ds]; [done|].
  cbn [int_text]. rewrite <- !app_assoc. reflexivity.
Qed.

Lemma tensor_described x tail : tensor_ok x -> Forall (fun c => c = 125 \/ c = 32) tail ->
  describes (tensor_text x ++ tail ++ [10]) (info_of_tensor x).
Proof.
  intros [(c & w & Hc) [Hne Hsh]] Ht. apply saved_type_code in Hc as [Hst Hc].
  assert (Hl := type_code_letter _ _ _ Hc). assert (Hw := type_code_size _ _ _ Hc).
  assert (Htc : forall p pat, p <> 125 -> p <> 32 -> clear tail (p :: pat) = true).
  { intros p pat H1 H2. apply (clear_chars (fun c => c = 125 \/ c = 32)); [done|]. intros [?|?]; done. }
  unfold tensor_text. rewrite Hst. constructor.
  - eexists. split; [rewrite app_assoc; reflexivity|]. repeat apply printed_app; auto with printed; try (by apply lit_printed).
    + change (c :: to_string w) with ([c] ++ to_string w). apply printed_app; [repeat constructor; lia|auto with printed].
    + eapply Forall_impl; [exact Ht|]. intros d [-> | ->]; lia.
  - exists (dtype_ x), c, w. eexists. split_and!; [done..|]. rewrite <- !app_assoc. reflexivity.
  - exists (int_text (shape_ x)). split; [|intros; by apply int_list_text].
    change (c :: to_string w) with ([c] ++ to_string w).
    field_after (lit "{'descr': '<" ++ [c] ++ to_string w ++ lit "', 'fortran_order': False, ").
  - exists (lit "0"). split; [|reflexivity]. change (c :: to_string w) with ([c] ++ to_string w).
    field_after (lit "{'descr': '<" ++ [c] ++ to_string w ++ lit "', 'fortran_order': False, 'shape': ("
      ++ int_text (shape_ x) ++ lit "),").
  - done.
  - left. split; [|done]. change (c :: to_string w) with ([c] ++ to_string w). repeat apply clear_app; try (by apply Htc); clear_pieces.
  - done.
Qed.

(** * Reading a file *)
Section reading.
Context `{UN : Uninit}.
Implicit Types pre post : bytes.

Lemma fread_run pre a post m n : length a = n ->
  fread n (mkLoading (pre ++ a ++ post) (length pre) m) = (Ok a, mkLoading (pre ++ a ++ post) (length (pre ++ a)) m).
Proof.
  intros <-. unfold fread, advance, mbind, M_bind, gets, modify, mret, M_ret. cbn [content ftell tensors].
  rewrite drop_app_length, take_app_length, length_app. done.
Qed.
Lemma fread_vector_run pre a post m n : 0 <= n -> length a = Z.to_nat n ->
  fread_vector n (mkLoading (pre ++ a ++ post) (length pre) m) = (Ok a, mkLoading (pre ++ a ++ post) (length (pre ++ a)) m).
Proof.
  intros Hn Ha. unfold fread_vector. replace (n <? 0) with false by lia. rewrite (bind_ok _ _ _ _ _ (fread_run pre a post m _ Ha)).
  rewrite Ha, Nat.sub_diag. cbn. by rewrite app_nil_r.
Qed.
Lemma parse_run pre s post m info : describes s info -> (length s <= 255)%nat ->
  ParseTensorInfo_fp (mkLoading (pre ++ s ++ post) (length pre) m) = (Ok info, mkLoading (pre ++ s ++ post) (length (pre ++ s)) m).
Proof.
  intros Hd Hl. unfold ParseTensorInfo_fp. set (x := mkLoading _ _ m). rewrite (bind_ok (gets _) _ x x (s ++ post)).
  2: { unfold gets, x. cbn. by rewrite drop_app_length. }
  assert (Hline : line (AS_HEADER_BYTES - 1) (s ++ post) = s).
  { destruct (de_printed _ _ Hd) as (h & -> & Hp). rewrite <- app_assoc. cbn [app]. apply line_printed; [done|].
    rewrite length_app in Hl. cbn in Hl |- *. lia. }
  rewrite Hline. rewrite bool_decide_false.
  2: { destruct (de_printed _ _ Hd) as (h & -> & _). by destruct h. }
  rewrite (bind_ok _ _ x (mkLoading (pre ++ s ++ post) (length (pre ++ s)) m) tt) by (unfold advance, modify, x; cbn; by rewrite length_app).
  apply parse_described; [done|unfold AS_HEADER_BYTES; lia].
Qed.

(** One weight of a file. *)
Record Entry := mkEntry { e_name : bytes; e_text : bytes; e_info : TensorInfo; e_type : DataType; e_data : bytes }.
Definition entry_bytes (e : Entry) : bytes := local_header (e_name e) ++ e_text e ++ e_data e.
(** The sizes of the arrays of a CSC weight, in bytes. *)
Definition csc_sizes (info : TensorInfo) (t : DataType) (cols : Z) : nat * nat * nat :=
  (Z.to_nat ((cols + 1) * 4), Z.to_nat (nnz info * 4), Z.to_nat (nnz info * SizeofType t)).
Definition csc_entry_ok (e : Entry) : Prop :=
  mode (e_info e) = CSC /\ 0 < nnz (e_info e) /\
  exists h w, shape (e_info e) = [h; w] /\ 0 <= w < INT32_MAX /\
    let '(o, r, v) := csc_sizes (e_info e) (e_type e) w in length (e_data e) = (o + r + v)%nat.
Definition dense_entry_ok (e : Entry) : Prop :=
  mode (e_info e) = DENSE /\
  SizeofType (e_type e) * Count (shape (e_info e)) = Z.of_nat (length (e_data e)) /\ Z.of_nat (length (e_data e)) < 2 ^ 63.
Record entry_ok (e : Entry) : Prop := mkEntryOk {
  en_name : Z.of_nat (length (e_name e)) < 2 ^ 16;
  en_text : describes (e_text e) (e_info e) /\ (length (e_text e) <= 255)%nat;
  en_type : dtype (e_info e) = Some (e_type e);
  en_data : dense_entry_ok e \/ csc_entry_ok e;
}.
Definition fresh_tensor (info : TensorInfo) (t : DataType) : Tensor := snd (SetShape (shape info) (mkT t [] [])).
Definition load_entry (r : RankInfo) (e : Entry) : res Tensor :=
  match LoadFromMemory (e_info e) r (e_data e) (fresh_tensor (e_info e) (e_type e)) with
  | (Ok _, y) => Ok y
  | (Err ex, _) => Err ex
  end.

Definition csc_weight (e : Entry) : Weight :=
  let info := e_info e in
  let '(o, r, v) := csc_sizes info (e_type e) (nth 1 (shape info) 0) in
  WCsc (e_type e) (shape info) (nnz info) (take o (e_data e)) (take r (drop o (e_data e))) (drop (o + r) (e_data e)).
Definition read_entry (r : RankInfo) (e : Entry) : res Weight :=
  if bool_decide (mode (e_info e) = DENSE)
  then match load_entry r e with Ok y => Ok (WDense y) | Err ex => Err ex end
  else Ok (csc_weight e).

Lemma header_run r pre e post m : entry_ok e ->
  load_weight accept_all r (mkLoading (pre ++ entry_bytes e ++ post) (length pre) m) =
  load_data accept_all r (e_name e) (e_info e)
    (mkLoading ((pre ++ local_header (e_name e) ++ e_text e) ++ e_data e ++ post) (length (pre ++ local_header (e_name e) ++ e_text e)) m).
Proof.
  intros [Hn [Hd Hl] _ _]. destruct e as [name s info t data]. cbn [e_name e_text e_info e_type e_data] in *.
  set (H6 := lit "AS" ++ le16 1 ++ le16 (Z.of_nat (length name))).
  assert (Hbytes : pre ++ entry_bytes (mkEntry name s info t data) ++ post = pre ++ H6 ++ name ++ s ++ data ++ post).
  { unfold entry_bytes, local_header, H6. cbn [e_name e_text e_data]. by rewrite <- !app_assoc. }
  assert (Hend : pre ++ local_header name ++ s = ((pre ++ H6) ++ name) ++ s) by (unfold local_header, H6; by rewrite <- !app_assoc).
  rewrite Hbytes, Hend. set (file := pre ++ H6 ++ name ++ s ++ data ++ post).
  assert (Hf2 : file = (pre ++ H6) ++ name ++ (s ++ data ++ post)) by (unfold file; by rewrite <- !app_assoc).
  assert (Hf3 : file = ((pre ++ H6) ++ name) ++ s ++ (data ++ post)) by (unfold file; by rewrite <- !app_assoc).
  assert (Hf4 : file = (((pre ++ H6) ++ name) ++ s) ++ data ++ post) by (unfold file; by rewrite <- !app_assoc).
  rewrite <- Hf4. assert (H6len : length H6 = 6%nat) by done. assert (Hflag : u16_at H6 2 = 1) by done.
  assert (Hname : u16_at H6 4 = Z.of_nat (length name)).
  { unfold u16_at, H6, le16, u16. cbn [nth Nat.add app lit]. rewrite (Z.mod_small _ (2 ^ 16)) by lia.
    assert (Hdm := Z.div_mod (Z.of_nat (length name)) 256 ltac:(lia)). lia. }
  unfold load_weight.
  rewrite (bind_ok _ _ (mkLoading file (length pre) m) (mkLoading file (length (pre ++ H6)) m) H6) by (by apply fread_run).
  rewrite H6len. cbn [Nat.eqb negb]. rewrite Hflag. change (negb (1 =? 1)) with false. cbv iota zeta. rewrite Hname, Nat2Z.id.
  rewrite (bind_ok _ _ _ (mkLoading file (length ((pre ++ H6) ++ name)) m) name) by (rewrite Hf2; by apply fread_run).
  rewrite Nat.eqb_refl. cbn [negb].
  by rewrite (bind_ok _ _ _ (mkLoading file (length (((pre ++ H6) ++ name) ++ s)) m) info) by (rewrite Hf3; by apply parse_run).
Qed.

(** From a file read up to the data of an entry. *)
Section data.
Context (r : RankInfo) (pre post : bytes) (e : Entry) (m : gmap bytes Weight).
Hypothesis Htype : dtype (e_info e) = Some (e_type e).
Abbreviation file := (pre ++ e_data e ++ post).
Abbreviation before := (mkLoading file (length pre) m).
Lemma dense_run : rank_size r <> 0 -> dense_entry_ok e -> post <> [] -> Z.of_nat (length file) < 2 ^ 63 ->
  exists st, load_data accept_all r (e_name e) (e_info e) before =
    match load_entry r e with
    | Ok y => (Ok None, mkLoading file (length (pre ++ e_data e)) (<[e_name e := WDense y]> m))
    | Err ex => (Err ex, st)
    end.
Proof using Htype.
  intros Hr (Hm & Hsz & Hlt) Hpost Htot. destruct e as [name s info t data]. cbn [e_name e_text e_info e_type e_data] in *.
  eexists. unfold load_data. rewrite Htype. set (x3 := mkLoading _ _ m).
  rewrite (bind_ok (gets ftell) _ x3 x3 (length pre) eq_refl), (bind_ok _ _ x3 x3 ALLSPARK_SUCCESS eq_refl).
  rewrite bool_decide_true by done. cbn [negb]. rewrite (bind_ok (gets _) _ x3 x3 (length (pre ++ data ++ post)) eq_refl).
  rewrite Hm, bool_decide_true by done. cbn [negb]. replace (rank_size r =? 0) with false by lia.
  assert (Hsize : nbytes t (shape info) = Z.of_nat (length data)).
  { unfold nbytes. rewrite Z.mul_comm, Hsz. apply i64_small. lia. }
  assert (Hroom : (length pre + length data < length (pre ++ data ++ post))%nat).
  { rewrite !length_app. destruct post; [done|cbn; lia]. }
  rewrite Hsz, (u64_small (Z.of_nat (length data))), u64_small by lia. replace (_ <=? _) with false by lia.
  unfold DenseLoadFromFileStream. rewrite Hsize, Nat2Z.id. set (x4 := mkLoading (pre ++ data ++ post) (length (pre ++ data)) m).
  assert (Hread : fread (length data) x3 = (Ok data, x4)) by (by apply fread_run).
  unfold load_entry. cbn [e_info e_type e_data e_name]. set (load := LoadFromMemory info r data (fresh_tensor info t)).
  unfold mbind, M_bind. rewrite Hread, Nat.eqb_refl. cbn [negb].
  change (LoadFromMemory info r data (snd (SetShape (shape info) (mkT t [] [])))) with load.
  destruct load as [[[]|ex] y]; [|reflexivity]. unfold mret, M_ret, modify, x4. reflexivity.
Qed.
Lemma csc_run : csc_entry_ok e -> load_data accept_all r (e_name e) (e_info e) before =
  (Ok None, mkLoading file (length (pre ++ e_data e)) (<[e_name e := csc_weight e]> m)).
Proof using Htype.
  intros (Hm & Hn & h & w & Hsh & Hw & Hl). destruct e as [name s info t data]. cbn [e_name e_text e_info e_type e_data csc_sizes] in *.
  set (o := Z.to_nat ((w + 1) * 4)) in *. set (k := Z.to_nat (nnz info * 4)) in *. set (v := Z.to_nat (nnz info * SizeofType t)) in *.
  set (A := take o data). set (B := take k (drop o data)). set (C := drop (o + k) data).
  assert (Hdata : data = A ++ B ++ C) by (unfold A, B, C; by rewrite <- drop_drop, !take_drop).
  assert (HA : length A = o) by (unfold A; rewrite length_take; lia).
  assert (HB : length B = k) by (unfold B; rewrite length_take, length_drop; lia).
  assert (HC : length C = v) by (unfold C; rewrite length_drop; lia).
  assert (Hwt : csc_weight (mkEntry name s info t data) = WCsc t (shape info) (nnz info) A B C).
  { unfold csc_weight, csc_sizes. cbn [e_name e_text e_info e_type e_data]. by rewrite Hsh. }
  rewrite Hwt. assert (Hf1 : pre ++ data ++ post = pre ++ A ++ (B ++ C ++ post)) by (rewrite Hdata; by rewrite <- !app_assoc).
  assert (Hf2 : pre ++ data ++ post = (pre ++ A) ++ B ++ (C ++ post)) by (rewrite Hf1; by rewrite <- !app_assoc).
  assert (Hf3 : pre ++ data ++ post = ((pre ++ A) ++ B) ++ C ++ post) by (rewrite Hf2; by rewrite <- !app_assoc).
  assert (Hend : pre ++ data = ((pre ++ A) ++ B) ++ C) by (rewrite Hdata; by rewrite <- !app_assoc).
  clearbody A B C. rewrite Hend. set (f := pre ++ data ++ post) in *.
  unfold load_data. rewrite Htype. set (x := mkLoading f (length pre) m).
  rewrite (bind_ok (gets ftell) _ x x (length pre) eq_refl), (bind_ok _ _ x x ALLSPARK_SUCCESS eq_refl).
  rewrite bool_decide_true by done. cbn [negb]. rewrite (bind_ok (gets _) _ x x (length f) eq_refl). unfold x.
  rewrite Hm, bool_decide_false by done. cbn [negb].
  assert (Hload : SparseLoadFromFileStream info t (mkLoading f (length pre) m) =
    (Ok (WCsc t (shape info) (nnz info) A B C), mkLoading f (length (((pre ++ A) ++ B) ++ C)) m)); [|by rewrite (bind_ok _ _ _ _ _ Hload)].
  unfold SparseLoadFromFileStream. rewrite Hm, Hsh. rewrite i32_small by (unfold INT32_MAX in Hw; lia). replace (w =? INT32_MAX) with false by lia.
  rewrite (bind_ok _ _ _ (mkLoading f (length (pre ++ A)) m) A) by (rewrite Hf1; apply fread_vector_run; lia).
  rewrite (bind_ok _ _ _ (mkLoading f (length ((pre ++ A) ++ B)) m) B) by (rewrite Hf2; apply fread_vector_run; lia).
  assert (Hv : 0 <= nnz info * SizeofType t) by (apply Z.mul_nonneg_nonneg; [lia|by destruct t]).
  rewrite (bind_ok _ _ _ (mkLoading f (length (((pre ++ A) ++ B) ++ C)) m) C) by (rewrite Hf3; apply fread_vector_run; lia).
  by replace (nnz info =? 0) with false by lia.
Qed.
End data.

Lemma load_weight_run r pre e post m : rank_size r <> 0 -> entry_ok e -> post <> [] -> Z.of_nat (length (pre ++ entry_bytes e ++ post)) < 2 ^ 63 ->
  exists st, load_weight accept_all r (mkLoading (pre ++ entry_bytes e ++ post) (length pre) m) =
    match read_entry r e with
    | Ok y => (Ok None, mkLoading (pre ++ entry_bytes e ++ post) (length (pre ++ entry_bytes e)) (<[e_name e := y]> m))
    | Err ex => (Err ex, st)
    end.
Proof.
  intros Hr He Hpost Htot. rewrite header_run by done. destruct He as [_ _ Ht He].
  assert (H1 : pre ++ entry_bytes e = (pre ++ local_header (e_name e) ++ e_text e) ++ e_data e) by (unfold entry_bytes; by rewrite <- !app_assoc).
  assert (H2 : pre ++ entry_bytes e ++ post = (pre ++ local_header (e_name e) ++ e_text e) ++ e_data e ++ post) by (by rewrite app_assoc, H1, <- !app_assoc).
  rewrite H1, H2 in *. unfold read_entry. destruct He as [He|He].
  - destruct (dense_run r (pre ++ local_header (e_name e) ++ e_text e) post e m Ht Hr He Hpost Htot) as (st & Hst). exists st. rewrite Hst.
    destruct He as [Hd _]. rewrite bool_decide_true by done. by destruct (load_entry r e).
  - eexists. rewrite (csc_run r _ post e m Ht He). destruct He as [Hd _]. by rewrite bool_decide_false by (rewrite Hd; done).
  Unshelve. exact (mkLoading [] 0 ∅).
Qed.

(** ** All weights of a file *)
Fixpoint load_entries (r : RankInfo) (es : list Entry) (m : gmap bytes Weight) : res (gmap bytes Weight) :=
  match es with
  | [] => Ok m
  | e :: es' =>
      match read_entry r e with
      | Ok y => load_entries r es' (<[e_name e := y]> m)
      | Err ex => Err ex
      end
  end.
Definition file_bytes (es : list Entry) : bytes := concat (entry_bytes <$> es) ++ set_global_header.

Lemma load_loop r es pre m fuel :
  rank_size r <> 0 -> Forall entry_ok es -> (length es < fuel)%nat -> Z.of_nat (length (pre ++ file_bytes es)) < 2 ^ 63 ->
  let step s := match load_weight accept_all r s with
    | (Ok None, s') => inl s' | (Ok (Some a), s') => inr (Ok (Some a), s') | (Err e, s') => inr (Err e, s') end in
  exists st, iter_nat fuel step (mkLoading (pre ++ file_bytes es) (length pre) m) =
    inr match load_entries r es m with
        | Ok m' => (Ok (Some ALLSPARK_SUCCESS), mkLoading (pre ++ file_bytes es) (length (pre ++ file_bytes es)) m')
        | Err ex => (Err ex, st)
        end.
Proof.
  intros Hr Hes Hfuel Hlen step. revert pre m fuel Hfuel Hlen. induction Hes as [|e es He Hes IH]; intros pre m fuel Hfuel Hlen;
    (destruct fuel as [|fuel]; [cbn in Hfuel; lia|]); cbn [iter_nat].
  - exists (mkLoading [] 0 m). unfold step. assert (Hend : load_weight accept_all r (mkLoading (pre ++ file_bytes []) (length pre) m) =
      (Ok (Some ALLSPARK_SUCCESS), mkLoading (pre ++ file_bytes []) (length (pre ++ file_bytes [])) m)).
    { unfold load_weight. change (file_bytes []) with (set_global_header ++ []).
      rewrite (bind_ok _ _ _ (mkLoading (pre ++ set_global_header ++ []) (length (pre ++ set_global_header)) m) set_global_header)
        by (by apply fread_run). by rewrite app_nil_r. }
    by rewrite Hend.
  - assert (Hf : file_bytes (e :: es) = entry_bytes e ++ file_bytes es) by (unfold file_bytes; by rewrite fmap_cons; cbn [concat]; rewrite app_assoc).
    rewrite Hf in *. assert (Hpost : file_bytes es <> []) by (unfold file_bytes; by intros [_ ?]%app_nil).
    destruct (load_weight_run r pre e (file_bytes es) m Hr He Hpost Hlen) as (st & Hst). unfold step at 1. rewrite Hst.
    cbn [load_entries]. destruct (read_entry r e) as [y|ex]; [|by exists st].
    rewrite !(app_assoc pre) in *. apply IH; [cbn in Hfuel; lia|done].
Qed.

Lemma load_file r es : rank_size r <> 0 -> Forall entry_ok es -> Z.of_nat (length (file_bytes es)) < 2 ^ 63 ->
  LoadWeightForModel accept_all r (file_bytes es) =
  match load_entries r es ∅ with Ok m => Ok (ALLSPARK_SUCCESS, m) | Err ex => Err ex end.
Proof.
  intros Hr Hes Hlen. unfold LoadWeightForModel, loop. rewrite iter_Z_nat.
  assert (Hfuel : (length es < Z.to_nat (Z.of_nat (length (file_bytes es)) + 1))%nat).
  { assert (Hle : (length es <= length (concat (entry_bytes <$> es)))%nat).
    { clear. induction es as [|e es IH]; [done|]. rewrite fmap_cons. cbn [concat length]. rewrite length_app.
      assert (6 <= length (entry_bytes e))%nat; [|lia]. unfold entry_bytes, local_header. rewrite !length_app. cbn. lia. }
    unfold file_bytes. rewrite length_app. lia. }
  destruct (load_loop r es [] ∅ _ Hr Hes Hfuel Hlen) as (st & Hst). cbn [app length] in Hst. rewrite Hst.
  by destruct (load_entries r es ∅).
Qed.
End reading.
