(* ===== verification/FileEnds.v ===== *)
(** Loading a file of weights ends, whatever the file holds, and every weight it
    leaves has passed the check of weights. *)
From Stdlib Require Import ZArith ZifyBool Lia.
From stdpp Require Import base list gmap strings.
From S2P Require Import Prelude StringUtil MemoryReuse WeightSplit WeightProofs WeightLoad WeightFile.

(** * Code that ends

    [stops R m]: [m] returns in a state related to the one it started from, or
    throws, but never hangs. *)
Section stops.
Context {S : Type} (R : S -> S -> Prop) `{!Reflexive R, !Transitive R}.
Definition stops {A} (m : M S A) : Prop := forall s, wp m (fun _ s' => R s s') (fun e _ => e <> Hang) s.

Lemma stops_ret {A} (a : A) : stops (mret a).
Proof. intros s. by apply wp_ret. Qed.
Lemma stops_throw {A} e : e <> Hang -> stops (throw (A := A) e).
Proof. intros He s. by apply wp_throw. Qed.
Lemma stops_gets {A} (f : S -> A) : stops (gets f).
Proof. intros s. by apply wp_gets. Qed.
Lemma stops_modify f : (forall s, R s (f s)) -> stops (modify f).
Proof. intros Hf s. by apply wp_modify. Qed.
Lemma stops_bind {A B} (m : M S A) (f : A -> M S B) : stops m -> (forall a, stops (f a)) -> stops (m ≫= f).
Proof.
  intros Hm Hf s. apply wp_bind. eapply wp_mono; [apply Hm| |done]. intros a s1 H1. cbv beta in H1.
  eapply wp_mono; [apply Hf| |done]. intros b s2 H2. cbv beta in H2. by transitivity s1.
Qed.
Lemma stops_for_each {A} (l : list A) (body : A -> M S unit) : (forall a, stops (body a)) -> stops (for_each l body).
Proof. intros H. induction l as [|a l IH]; cbn [for_each]; [apply stops_ret|]. apply stops_bind; [apply H|done]. Qed.
End stops.

Create HintDb stops.
#[export] Hint Resolve stops_ret stops_gets : stops.
(** Walks through a body; calls are hints. *)
Ltac stops_step :=
  first
    [ done
    | progress (eauto with stops nocore)
    | apply stops_ret; exact _
    | apply stops_gets; exact _
    | apply stops_bind; [exact _| |intros]
    | apply stops_throw; discriminate
    | apply stops_for_each; [exact _|exact _|intros]
    | match goal with |- stops _ (match ?x with _ => _ end) => destruct x end
    | match goal with |- stops _ (let x := _ in _) => cbv zeta end ].
Ltac stops_steps := repeat stops_step.

(** ** Splitting, which keeps the type of the tensor *)
Section split.
Context `{UN : Uninit}.
Definition same_type (x y : Tensor) : Prop := dtype_ y = dtype_ x.
#[local] Instance same_type_refl : Reflexive same_type. Proof. done. Qed.
#[local] Instance same_type_trans : Transitive same_type. Proof. intros x y z Hxy Hyz. unfold same_type in *. congruence. Qed.
Abbreviation ok m := (stops same_type m).

Lemma stops_any_modify f : (forall x, dtype_ (f x) = dtype_ x) -> ok (modify f).
Proof. intros Hf. by apply stops_modify. Qed.
Lemma stops_int z : ok (int_ z).
Proof. unfold int_. stops_steps. Qed.
Lemma stops_memcpy d src s n : ok (memcpy d src s n).
Proof. intros x. unfold wp, memcpy. destruct (_ && _); [done|discriminate]. Qed.
Hint Resolve stops_any_modify stops_int stops_memcpy : stops.
Lemma stops_dim sh i : ok (dim sh i).
Proof. unfold dim. stops_steps. Qed.
Hint Resolve stops_dim : stops.
Lemma stops_stride x : ok (GetStrideInByte x).
Proof. unfold GetStrideInByte. stops_steps. Qed.
Hint Resolve stops_stride : stops.
Lemma stops_VectorPart d src s n : ok (DeepCopyVectorPart d src s n).
Proof. unfold DeepCopyVectorPart, AS_THROW. stops_steps. Qed.
Lemma stops_Matrix2DPart a b src c d e f : ok (DeepCopyMatrix2DPart a b src c d e f).
Proof. unfold DeepCopyMatrix2DPart, AS_THROW. stops_steps. Qed.
Hint Resolve stops_VectorPart stops_Matrix2DPart : stops.
Lemma stops_CopyMatrix2D a src b c d e f : ok (CopyMatrix2D a src b c d e f).
Proof. unfold CopyMatrix2D. stops_steps. Qed.
Hint Resolve stops_CopyMatrix2D : stops.
Lemma stops_DeepCopy src a b : ok (DeepCopyMatrix2D src a b) /\ ok (DeepCopyVector src a).
Proof. unfold DeepCopyMatrix2D, DeepCopyVector, AS_THROW. split; stops_steps. Qed.
Lemma stops_DeepCopyMatrix2D src a b : ok (DeepCopyMatrix2D src a b).
Proof. apply stops_DeepCopy. Qed.
Lemma stops_DeepCopyVector src a : ok (DeepCopyVector src a).
Proof. by apply (stops_DeepCopy src a 0). Qed.
Lemma stops_index g h w : ok (copy_batch_vsplit_index g h w).
Proof. unfold copy_batch_vsplit_index. stops_steps. Qed.
Lemma stops_Memset v : ok (Memset v).
Proof. by apply stops_any_modify. Qed.
Lemma stops_ShareData x : ok (ShareData x).
Proof. unfold ShareData. stops_steps. Qed.
Lemma stops_SetShape sh : ok (SetShape sh).
Proof. by apply stops_any_modify. Qed.
Lemma stops_reshape sh : ok (reshape sh).
Proof. unfold reshape, Free. apply stops_bind; [exact _|by apply stops_any_modify|intros; apply stops_SetShape]. Qed.
Hint Resolve stops_DeepCopyMatrix2D stops_DeepCopyVector stops_index stops_Memset stops_ShareData stops_SetShape stops_reshape : stops.

Lemma stops_groups m h groups p r whole : ok (copy_groups m h groups p r whole).
Proof. revert p. induction groups as [|g groups IH]; intros p; cbn [copy_groups]; stops_steps. Qed.
Lemma stops_mqa m h first groups p d r whole : ok (copy_mqa m h first groups p d r whole).
Proof. revert first p d. induction groups as [|g groups IH]; intros first p d; cbn [copy_mqa]; stops_steps. Qed.
Hint Resolve stops_groups stops_mqa : stops.
Lemma stops_set_part_shape info r : ok (set_part_shape info r).
Proof.
  unfold set_part_shape, VSplit_SetShape, HSplit_SetShape, Gemm_SetShape, Group_SetShape, MQA_SetShape, BatchVSplit_SetShape,
    BatchHSplit_SetShape, BatchKVSplit_SetShape. stops_steps.
Qed.
Lemma stops_CopyWeight info r whole : ok (CopyWeight info r whole).
Proof.
  unfold CopyWeight, copy_vsplit, copy_hsplit, copy_gemm, copy_batch_vsplit, copy_batch_hsplit, copy_batch_kvsplit. stops_steps.
Qed.
Hint Resolve stops_set_part_shape stops_CopyWeight : stops.

Lemma splittable_ends info r e : IsSplittable info r = Err e -> e <> Hang.
Proof.
  assert (Hg : forall n l acc, group_total n l acc = Err e -> e <> Hang).
  { intros n l. induction l as [|g l IH]; intros acc; cbn; [done|]. repeat case_match; try done; [apply IH|by intros [= <-]]. }
  assert (Hi : forall l acc, int_sum l acc = Err e -> e <> Hang).
  { intros l. induction l as [|g l IH]; intros acc; cbn; [done|]. case_match; [apply IH|by intros [= <-]]. }
  unfold IsSplittable, Group_IsSplittable, MQA_IsSplittable. intros H. repeat case_match; try done; simplify_eq; by eauto.
Qed.
Lemma stops_LoadFromMemory info r ptr : ok (LoadFromMemory info r ptr).
Proof.
  unfold LoadFromMemory, GetSplitterByMode, AS_THROW. apply stops_bind; [exact _|stops_steps|intros _].
  destruct (IsSplittable info r) as [[]|e] eqn:Hs; [stops_steps..|]. apply stops_throw. by eapply splittable_ends.
Qed.
End split.

(** ** Parsing *)
Section parse.
Context {S : Type}.
Definition same (s s' : S) : Prop := s' = s.
#[local] Instance same_refl : Reflexive same. Proof. done. Qed.
#[local] Instance same_trans : Transitive same. Proof. intros a b c -> ->. done. Qed.

Lemma stops_between s a n b : stops same (between s a n b).
Proof. unfold between, substr. stops_steps. Qed.
Lemma stops_substr s a n : stops same (substr s a n).
Proof. unfold substr. stops_steps. Qed.
Lemma stops_char_at s i : stops same (char_at s i).
Proof. unfold char_at. stops_steps. Qed.
Lemma stops_int_list s : stops same (int_list s).
Proof.
  unfold int_list. destruct (split_loop_spec (length s) [] s (lit ", ")) as (parts & Hp & _); [done|lia|].
  unfold split. rewrite Hp. stops_steps.
Qed.
Lemma stops_parse_dtype a b : stops same (parse_dtype a b).
Proof. unfold parse_dtype, AS_THROW. stops_steps. Qed.
Lemma stops_bad_header {A} : stops same (bad_header (A := A)).
Proof. by apply stops_throw. Qed.
Hint Resolve stops_between stops_substr stops_char_at stops_int_list stops_parse_dtype stops_bad_header : stops.
Lemma stops_ParseTensorInfo ptr len : stops same (ParseTensorInfo ptr len).
Proof. unfold ParseTensorInfo. stops_steps. Qed.
End parse.

(** ** Reading *)
Definition weight_type (w : Weight) : DataType := match w with WDense x => dtype_ x | WCsc t _ _ _ _ _ | WEll t _ _ _ _ => t end.
Section reading.
Context `{UN : Uninit} (check : bytes -> TensorInfo -> res AsStatus).
(** A weight that the check has let pass. *)
Definition passed (name : bytes) (w : Weight) : Prop :=
  exists info, check name info = Ok ALLSPARK_SUCCESS /\ dtype info = Some (weight_type w).
(** The position moves forward within the file, and weights pass the check. *)
Definition moves (s s' : Loading) : Prop :=
  content s' = content s /\ (ftell s <= ftell s')%nat /\
  (ftell s <= length (content s) -> ftell s' <= length (content s))%nat /\
  (forall name w, tensors s' !! name = Some w -> tensors s !! name = Some w \/ passed name w).
#[local] Instance moves_refl : Reflexive moves. Proof. intros s. split_and!; [done|lia|lia|by left]. Qed.
#[local] Instance moves_trans : Transitive moves.
Proof.
  intros a b c (H1 & H2 & H3 & H4) (H5 & H6 & H7 & H8). split_and!; [congruence|lia|rewrite H1 in H7; lia|].
  intros name w Hw. destruct (H8 name w Hw) as [Hb|]; [|by right]. by apply H4.
Qed.
Abbreviation ok m := (stops moves m).

Lemma fread_moves n s : wp (fread n)
  (fun b s' => moves s s' /\ ftell s' = (ftell s + length b)%nat) (fun e _ => e <> Hang) s.
Proof.
  unfold fread, advance. wp_steps. rewrite length_take, length_drop. split; [|done].
  split_and!; cbn [content ftell tensors]; [done|lia|lia|by left].
Qed.
Lemma stops_fread n : ok (fread n).
Proof. intros s. eapply wp_mono; [apply fread_moves| |done]. by intros b s' [? _]. Qed.
Hint Resolve stops_fread : stops.
Lemma stops_fread_vector n : ok (fread_vector n).
Proof. unfold fread_vector. stops_steps. Qed.
Hint Resolve stops_fread_vector : stops.
Lemma stops_parse s len : ok (ParseTensorInfo s len).
Proof. intros x. eapply wp_mono; [apply stops_ParseTensorInfo| |done]. intros i s' ->. reflexivity. Qed.
Lemma length_line n s : (length (line n s) <= length s)%nat.
Proof. revert s. induction n as [|n IH]; intros [|c s]; cbn; [lia..|]. case_match; cbn; [lia|]. specialize (IH s). lia. Qed.
Lemma stops_ParseTensorInfo_fp : ok ParseTensorInfo_fp.
Proof.
  intros s. unfold ParseTensorInfo_fp, advance. apply wp_bind, wp_gets. case_bool_decide; [by apply wp_throw|].
  apply wp_bind, wp_modify. eapply wp_mono; [apply stops_parse| |done]. intros i s' Hs'. etransitivity; [|exact Hs'].
  assert (Hl := length_line (AS_HEADER_BYTES - 1) (drop (ftell s) (content s))). rewrite length_drop in Hl.
  split_and!; cbn [content ftell tensors]; [done|lia|lia|by left].
Qed.
Hint Resolve stops_ParseTensorInfo_fp : stops.
(** What a loader gives has the type it was asked for. *)
Definition gives (t : DataType) (m : M Loading Weight) : Prop :=
  forall s, wp m (fun w s' => moves s s' /\ weight_type w = t) (fun e _ => e <> Hang) s.
Lemma dense_gives info t r x : gives (dtype_ x) (y ← DenseLoadFromFileStream info t r x; mret (WDense y)).
Proof.
  intros s. unfold DenseLoadFromFileStream, AS_THROW. apply wp_bind, wp_bind. eapply wp_mono; [apply stops_fread| |done].
  intros whole s1 H1. cbv beta zeta in *. destruct (negb _); [by apply wp_throw|]. assert (H := stops_LoadFromMemory info r whole x). unfold wp in H.
  destruct (LoadFromMemory info r whole x) as [[?|e] y]; [|by apply wp_throw]. apply wp_ret, wp_ret. by split.
Qed.
Lemma sparse_gives info t : gives t (SparseLoadFromFileStream info t).
Proof.
  assert (Hread : forall n (k : bytes -> M Loading Weight), (forall b, gives t (k b)) -> gives t (b ← fread_vector n; k b)).
  { intros n k Hk s. apply wp_bind. eapply wp_mono; [apply stops_fread_vector| |done]. intros b s1 H1. cbv beta in H1.
    eapply wp_mono; [apply Hk| |done]. intros w s2 [H2 Hw]. split; [by transitivity s1|done]. }
  assert (Hthrow : forall e, e <> Hang -> gives t (throw e)) by (intros e He s; by apply wp_throw).
  assert (Hret : forall w, weight_type w = t -> gives t (mret w)) by (intros w Hw s; by apply wp_ret).
  unfold SparseLoadFromFileStream, AS_THROW. repeat first [apply Hread; intros | by apply Hthrow | by apply Hret | case_match].
Qed.
Lemma stops_insert name w : passed name w -> ok (modify (fun x => mkLoading (content x) (ftell x) (<[name := w]> (tensors x)))).
Proof.
  intros Hw. apply stops_modify. intros s. split_and!; cbn; [done|lia|lia|]. intros name' w'.
  rewrite lookup_insert_Some. intros [[<- <-]|[_ H]]; [by right|by left].
Qed.
Lemma stops_given name info t m : check name info = Ok ALLSPARK_SUCCESS -> dtype info = Some t -> gives t m ->
  ok (w ← m; modify (fun x => mkLoading (content x) (ftell x) (<[name := w]> (tensors x)));; mret (None (A := AsStatus))).
Proof.
  intros Hc Ht Hm s. apply wp_bind. eapply wp_mono; [apply Hm| |done]. intros w s1 [H1 Hw]. cbv beta in *.
  assert (Hpass : passed name w) by (exists info; by rewrite Hw).
  eapply wp_mono; [exact (stops_bind moves _ _ (stops_insert name w Hpass) (fun _ => stops_ret moves _) s1)| |done].
  intros o s2 H2. cbv beta in H2. by transitivity s1.
Qed.
Hypothesis Hcheck : forall name info, check name info <> Err Hang.
Lemma stops_load_data r name info : ok (load_data check r name info).
Proof using Hcheck.
  unfold load_data. destruct (dtype info) as [t|] eqn:Ht; [|by apply stops_throw]. cbv zeta. apply stops_bind; [exact _|apply stops_gets; exact _|intros offset].
  specialize (Hcheck name info). destruct (check name info) as [ret|e] eqn:Hc; [|apply stops_throw; congruence].
  intros s. apply wp_bind. unfold wp at 1. revert s. case_bool_decide as Hret; cbn [negb]; [subst ret|exact (stops_ret moves _)].
  refine (stops_bind moves _ _ (stops_gets moves _) _). intros size. destruct (negb _); [by apply (stops_given name info t); [..|apply sparse_gives]|].
  destruct (rank_size r =? 0); [by apply stops_throw|]. destruct (_ <=? _); [exact (stops_ret moves _)|].
  assert (Hd := dense_gives info t r (SetShape (shape info) (mkT t [] [])).2).
  assert (Hok := stops_given name info t _ Hc Ht Hd). intros s. specialize (Hok s). revert Hok.
  apply wp_same_run. unfold mbind, M_bind. by destruct (DenseLoadFromFileStream _ _ _ _ s) as [[y|e] s1].
Qed.
Hint Resolve stops_load_data : stops.

(** A round that goes on has read a local header. *)
Lemma load_weight_moves r s : wp (load_weight check r)
  (fun o s' => moves s s' /\ (o = None -> ftell s + 6 <= ftell s')%nat) (fun e _ => e <> Hang) s.
Proof using Hcheck.
  unfold load_weight. apply wp_bind. eapply wp_mono; [apply fread_moves| |done]. intros b s1 [H1 Hb].
  destruct (Nat.eqb_spec (length b) 6) as [Hl|]; cbn [negb]; [|by apply wp_throw]. rewrite Hl in Hb.
  destruct (negb _); [apply wp_ret; by split|]. cbv zeta.
  assert (Hrest : forall m : M Loading (option AsStatus), ok m ->
    wp m (fun o s' => moves s s' /\ (o = None -> ftell s + 6 <= ftell s')%nat) (fun e _ => e <> Hang) s1).
  { intros m Hm. eapply wp_mono; [apply Hm| |done]. intros o s2 H2. cbv beta in H2. split; [by transitivity s1|].
    intros _. destruct H2 as (_ & H2 & _). lia. }
  apply Hrest. unfold AS_THROW. stops_steps.
Qed.
Lemma loaded_passed r file : match LoadWeightForModel check r file with
  | Ok (_, m) => map_Forall passed m
  | Err e => e <> Hang
  end.
Proof using Hcheck.
  assert (Hwp : wp (loop (Z.of_nat (length file) + 1) (load_weight check r))
    (fun o x => o <> None /\ map_Forall passed (tensors x)) (fun e _ => e <> Hang) (mkLoading file 0 ∅)).
  { apply (wp_loop (fun k s => content s = file /\ 6 * k <= Z.of_nat (ftell s) /\ (ftell s <= length file)%nat /\ map_Forall passed (tensors s))).
    - cbn. split_and!; [done|lia|lia|apply map_Forall_empty].
    - intros k s Hk (Hc & Hge & Hle & Hp). eapply wp_mono; [apply load_weight_moves| |done].
      intros o s' [(H1 & H2 & H3 & H5) H4]. assert (Hp' : map_Forall passed (tensors s')).
      { intros name w Hw. destruct (H5 name w Hw) as [Hold|]; [by apply Hp|done]. }
      destruct o as [a|]; [by split|]. specialize (H4 eq_refl). rewrite Hc in *. split_and!; [done|lia|lia|done].
    - intros s (_ & Hge & Hle & _). lia. }
  unfold wp in Hwp. unfold LoadWeightForModel. destruct (loop _ _ _) as [[[st|]|e] x]; [apply Hwp|by destruct Hwp|done].
Qed.

(** C35. Loading a file ends.  Whatever bytes a file holds and for whatever rank,
    [LoadWeightForModel] returns a status or throws, when the check of weights
    does: the loop over the weights and the searches in their descriptions end. *)
Theorem load_ends r file : LoadWeightForModel check r file <> Err Hang.
Proof using Hcheck. intros H. pose proof (loaded_passed r file) as Hrun. by rewrite H in Hrun. Qed.
End reading.

Module EndsDemo.
#[local] Instance demo_uninit : Uninit := { uninit n := List.repeat 170 n; uninit_length n := List.repeat_length 170 n }.
Lemma load_ends_witness : LoadWeightForModel accept_all (mkRank 0 1) (lit "AS" ++ [1; 0; 1; 0] ++ lit "w{'descr': '<f4'") <> Err Hang.
Proof. refine (load_ends accept_all _ (mkRank 0 1) _). intros name info. discriminate. Defined.
End EndsDemo.
