(* ===== verification/FileTheorems.v ===== *)
(** The theorems about files of weights. *)
From Stdlib Require Import ZArith ZifyBool Lia.
From stdpp Require Import base list gmap strings.
From S2P Require Import Prelude StringUtil MemoryReuse WeightSplit WeightProofs WeightLoad WeightFile FileProofs.

(** * Files that are written weight by weight *)
Record Saved := mkSaved { s_name : bytes; s_attr : TensorAttribute; s_type : DataType; s_data : bytes }.
Record saved_ok (w : Saved) : Prop := mkSavedOk {
  so_name : Z.of_nat (length (s_name w)) < 2 ^ 16;
  so_attr : attr_ok (s_attr w) (s_type w);
  so_dense : a_sparse_type (s_attr w) = 0;
  so_line : (length (header_text (s_attr w)) < 255)%nat;
  so_data : SizeofType (s_type w) * Count (a_shape (s_attr w)) = Z.of_nat (length (s_data w)) /\ Z.of_nat (length (s_data w)) < 2 ^ 63;
}.
(** A file starts empty, is appended to and gets the last header. *)
Fixpoint write_file `{UN : Uninit} (ws : list Saved) (file : bytes) : res bytes :=
  match ws with
  | [] => Ok (file ++ set_global_header)
  | w :: ws' =>
      match save_allsparky_tofile (s_name w) (s_data w) (s_attr w) with
      | Ok b => write_file ws' (file ++ b)
      | Err e => Err e
      end
  end.
(** What a rank gets from one weight, without any file. *)
Definition load_saved `{UN : Uninit} (r : RankInfo) (w : Saved) : res Tensor :=
  let info := info_of (s_attr w) (s_type w) in
  match LoadFromMemory info r (s_data w) (fresh_tensor info (s_type w)) with
  | (Ok _, y) => Ok y
  | (Err e, _) => Err e
  end.
Fixpoint load_all `{UN : Uninit} (r : RankInfo) (ws : list Saved) (m : gmap bytes Weight) : res (AsStatus * gmap bytes Weight) :=
  match ws with
  | [] => Ok (ALLSPARK_SUCCESS, m)
  | w :: ws' =>
      match load_saved r w with
      | Ok y => load_all r ws' (<[s_name w := WDense y]> m)
      | Err e => Err e
      end
  end.

Definition entry_of (w : Saved) : Entry :=
  mkEntry (s_name w) (header_text (s_attr w) ++ [10]) (info_of (s_attr w) (s_type w)) (s_type w) (s_data w).

Lemma entry_of_ok w : saved_ok w -> entry_ok (entry_of w).
Proof.
  intros [Hn Ha Hm Hl Hd]. constructor; cbn [entry_of e_name e_text e_info e_type e_data].
  - done.
  - split; [by apply header_described|]. rewrite length_app. change (length [10]) with 1%nat. lia.
  - done.
  - left. split; [|exact Hd]. cbn. by rewrite Hm.
Qed.
Lemma write_file_bytes `{UN : Uninit} ws file : Forall saved_ok ws -> write_file ws file = Ok (file ++ file_bytes (entry_of <$> ws)).
Proof.
  intros Hws. revert file. induction Hws as [|w ws Hw Hws IH]; intros file; [done|]. cbn [write_file].
  unfold save_allsparky_tofile. rewrite (so_dense _ Hw). cbn [Z.eqb]. destruct (so_attr _ Hw) as [[Hne _] _ _ _ _ _].
  rewrite create_text, IH by done.
  f_equal. rewrite <- app_assoc. f_equal. unfold file_bytes. rewrite !fmap_cons. cbn [concat]. unfold entry_bytes at 2.
  cbn [entry_of e_name e_text e_data]. by rewrite <- !app_assoc.
Qed.

Section theorems.
Context `{UN : Uninit}.

Lemma read_saved r w : saved_ok w -> read_entry r (entry_of w) = match load_saved r w with Ok y => Ok (WDense y) | Err e => Err e end.
Proof. intros Hw. unfold read_entry. rewrite bool_decide_true; [done|]. cbn. by rewrite (so_dense _ Hw). Qed.
Lemma load_all_entries r ws m : Forall saved_ok ws -> load_all r ws m =
  match load_entries r (entry_of <$> ws) m with Ok m' => Ok (ALLSPARK_SUCCESS, m') | Err e => Err e end.
Proof.
  intros Hws. revert m. induction Hws as [|w ws Hw Hws IH]; intros m; [done|]. rewrite fmap_cons. cbn [load_all load_entries].
  rewrite read_saved by done. destruct (load_saved r w); [apply IH|done].
Qed.
Lemma written_file_loads r ws : rank_size r <> 0 -> Forall saved_ok ws -> Z.of_nat (length (file_bytes (entry_of <$> ws))) < 2 ^ 63 ->
  LoadWeightForModel accept_all r (file_bytes (entry_of <$> ws)) = load_all r ws ∅.
Proof.
  intros Hr Hws Hlen. rewrite load_file, load_all_entries; [done|done|done| |done]. apply Forall_fmap. eapply Forall_impl; [exact Hws|]. apply entry_of_ok.
Qed.

(** A file of weights is read back.  Whatever dense weights are appended to
    a file, with names shorter than 2{^16} bytes and a description that fits a
    line of 255, the loader of any rank finds all of them, with the shape, type,
    split mode and groups that were saved and exactly their data: it does what
    loading the weights in turn from memory does, errors included, and ends at
    the last header. *)
Theorem saved_file_loads r ws file : rank_size r <> 0 ->
  Forall saved_ok ws -> write_file ws [] = Ok file -> Z.of_nat (length file) < 2 ^ 63 ->
  LoadWeightForModel accept_all r file = load_all r ws ∅.
Proof.
  intros Hr Hws Hf Hlen. rewrite write_file_bytes in Hf by done. injection Hf as <-. by apply written_file_loads.
Qed.

(** ** From the file to the parts of a rank *)
Definition split_number (m : SplitMode) : Z :=
  match m with
  | NOSPLIT => 0 | VSPLIT => 1 | HSPLIT => 2 | QKVSPLIT => 3 | KVSPLIT => 4 | HSPLIT_QUANTIZE => 5 | GROUP_VSPLIT => 6
  | MQA_VSPLIT => 7 | BATCH_VSPLIT => 8 | BATCH_HSPLIT => 9 | BATCH_KVSPLIT => 10 | SPLIT_OTHER z => z
  end.
(** A matrix or a bias of [mw_h] rows. *)
Record Matrix := mkMatrix {
  mw_name : bytes; mw_m : bool; mw_h : nat; mw_w : nat; mw_mode : SplitMode; mw_groups : list nat;
  mw_type : DataType; mw_rows : list bytes;
}.
Definition grouped (m : SplitMode) : bool := match m with GROUP_VSPLIT | MQA_VSPLIT => true | _ => false end.
Definition saved_of (x : Matrix) : Saved :=
  let '(c, w) := default (0, 0) (type_code (mw_type x)) in
  mkSaved (mw_name x)
    (mkAttr 0 (split_number (mw_mode x)) (tshape (mw_m x) (mw_h x) (mw_w x)) (Z.of_nat <$> mw_groups x) c w 0)
    (mw_type x) (concat (mw_rows x)).
Record matrix_ok (n : nat) (x : Matrix) : Prop := mkMatrixOk {
  mo_name : Z.of_nat (length (mw_name x)) < 2 ^ 16;
  mo_type : exists c w, type_code (mw_type x) = Some (c, w) /\ SizeofType (mw_type x) = w;
  mo_weight : weight_ok (mw_m x) (mw_type x) (mw_h x) (mw_w x);
  mo_groups : Forall small (mw_groups x);
  mo_rows : rows_of (mw_w x * Z.to_nat (SizeofType (mw_type x))) (mw_rows x) /\ length (mw_rows x) = mw_h x;
  mo_line : (length (header_text (s_attr (saved_of x))) < 255)%nat;
  mo_split : splittable (mw_mode x) (mw_m x) (mw_h x) (mw_w x) (mw_groups x) n = true;
}.
Definition part_of (n k : nat) (x : Matrix) : Tensor :=
  let sz := Z.to_nat (SizeofType (mw_type x)) in
  mkT (mw_type x)
    (let '(h', w') := part_dims (mw_mode x) (mw_m x) (mw_h x) (mw_w x) (mw_groups x) n in tshape (mw_m x) h' w')
    (concat (rank_part (mw_mode x) (mw_m x) sz (mw_h x) (mw_w x) (mw_groups x) n k (mw_rows x))).
Fixpoint parts_of (n k : nat) (xs : list Matrix) (m : gmap bytes Weight) : gmap bytes Weight :=
  match xs with [] => m | x :: xs' => parts_of n k xs' (<[mw_name x := WDense (part_of n k x)]> m) end.

Lemma splittable_known mode m h w groups n : splittable mode m h w groups n = true ->
  to_split (split_number mode) = mode /\ fits_int (split_number mode).
Proof. destruct mode; try done; intros _; (split; [done|split; discriminate]). Qed.
Lemma matrix_saved_ok n x : matrix_ok n x -> saved_ok (saved_of x).
Proof.
  intros [Hn (c & w & Hc & Hw) Hok Hg [Hr Hl] Hline Hs]. destruct (splittable_known _ _ _ _ _ _ Hs) as [_ Hsn].
  unfold saved_of in *. rewrite Hc in *. cbn [default from_option id] in *. destruct (wo_small _ _ _ _ Hok) as [Hsh Hsw]. unfold small in *.
  assert (Hfit : forall a, Z.of_nat a < 2 ^ 31 -> fits_int (Z.of_nat a)) by (intros a Ha; unfold fits_int, INT32_MIN, INT32_MAX; lia).
  constructor; cbn [s_name s_attr s_type s_data]; try done.
  - constructor; cbn; try done; try (split; discriminate).
    + split; [by destruct (mw_m x)|]. unfold tshape. destruct (mw_m x); repeat constructor; apply Hfit; done.
    + apply Forall_fmap. eapply Forall_impl; [exact Hg|]. exact Hfit.
  - cbn [a_shape]. destruct (wo_bytes _ _ _ _ Hok) as [Hpos Hb]. rewrite (length_rows _ _ Hr), Hl.
    assert (Hm := wo_bias _ _ _ _ Hok). unfold tshape. destruct (mw_m x); cbn [Count foldl]; [|rewrite Hm in * by done]; split; nia.
Qed.
Lemma matrix_load n k x : (k < n)%nat -> small n -> matrix_ok n x ->
  load_saved (mkRank (Z.of_nat k) (Z.of_nat n)) (saved_of x) = Ok (part_of n k x).
Proof.
  intros Hk Hn Hx. assert (Hsv := matrix_saved_ok n x Hx). destruct Hx as [Hnm (c & w & Hc & Hw) Hok Hg [Hr Hl] Hline Hs].
  destruct (splittable_known _ _ _ _ _ _ Hs) as [Hsn _].
  set (gs := if grouped (mw_mode x) then mw_groups x else []).
  assert (Hinfo : info_of (s_attr (saved_of x)) (s_type (saved_of x)) =
    mkTensorInfo (tshape (mw_m x) (mw_h x) (mw_w x)) (Some (mw_type x)) DENSE (mw_mode x) 0 (Z.of_nat <$> gs)).
  { unfold saved_of, info_of, gs. rewrite Hc. cbn [default from_option id s_attr s_type a_shape a_split_mode a_sparse_type a_group_list a_nnz].
    rewrite Hsn. change (to_mode 0) with DENSE. rewrite bool_decide_true by done. f_equal.
    destruct (mw_mode x); try done; cbn [grouped]; rewrite bool_decide_true by (by auto).
    - unfold splittable in Hs. apply bool_decide_eq_true in Hs as [_ Hs]. destruct (mw_groups x); [|done]. pose proof (wo_cols _ _ _ _ Hok). cbn in Hs. lia.
    - unfold splittable in Hs. apply bool_decide_eq_true in Hs as [Hs _]. by destruct (mw_groups x). }
  assert (Hst : s_type (saved_of x) = mw_type x /\ s_data (saved_of x) = concat (mw_rows x)) by (unfold saved_of; by rewrite Hc).
  destruct Hst as [Hst Hsd]. unfold load_saved. rewrite Hinfo, Hst, Hsd. set (y := fresh_tensor _ _).
  set (sz := Z.to_nat (SizeofType (mw_type x))) in *. pose proof (wo_bytes _ _ _ _ Hok) as Hb.
  assert (Hsplit : splittable (mw_mode x) (mw_m x) (mw_h x) (mw_w x) gs n = true) by (unfold gs; by destruct (mw_mode x)).
  assert (Hsum : small (sum_list gs)).
  { destruct (wo_small _ _ _ _ Hok) as [_ Hsw]. unfold gs in *. destruct (mw_mode x); try done; cbn [grouped] in *; unfold splittable in Hs.
    - apply bool_decide_eq_true in Hs as [_ ->]. done.
    - apply bool_decide_eq_true in Hs as (_ & _ & ->). done. }
  assert (Hload := load_part (mw_m x) (mw_type x) sz (mw_h x) (mw_w x) n k (mw_mode x) gs (mw_rows x) DENSE 0 y Hok).
  unfold loads in Hload. rewrite Hload; try done; [|lia]. f_equal. unfold part_of. fold sz. f_equal.
  - unfold gs. by destruct (mw_mode x).
  - f_equal. unfold gs. by destruct (mw_mode x).
Qed.
Lemma saved_name x : s_name (saved_of x) = mw_name x.
Proof. unfold saved_of. by destruct (type_code (mw_type x)) as [[c w]|]. Qed.
Lemma matrices_load n k xs m : (k < n)%nat -> small n -> Forall (matrix_ok n) xs ->
  load_all (mkRank (Z.of_nat k) (Z.of_nat n)) (saved_of <$> xs) m = Ok (ALLSPARK_SUCCESS, parts_of n k xs m).
Proof.
  intros Hk Hn Hxs. revert m. induction Hxs as [|x xs Hx Hxs IH]; intros m; [done|]. rewrite fmap_cons. cbn [load_all parts_of].
  rewrite matrix_load, IH by done. by rewrite saved_name.
Qed.

(** C20. Every rank gets its parts from the file.  When matrices and biases that
    are splittable between [n] ranks are written to a file, the loader of rank
    [k] succeeds and leaves under the name of each exactly the rows and columns
    that its split mode gives to [k]; the last weight of a name wins. *)
Theorem file_loads_parts n k xs file :
  (k < n)%nat -> small n -> Forall (matrix_ok n) xs -> write_file (saved_of <$> xs) [] = Ok file -> Z.of_nat (length file) < 2 ^ 63 ->
  LoadWeightForModel accept_all (mkRank (Z.of_nat k) (Z.of_nat n)) file = Ok (ALLSPARK_SUCCESS, parts_of n k xs ∅).
Proof.
  intros Hk Hn Hxs Hf Hlen. assert (Hsv : Forall saved_ok (saved_of <$> xs)).
  { apply Forall_fmap. eapply Forall_impl; [exact Hxs|]. intros x Hx. by apply (matrix_saved_ok n). }
  rewrite write_file_bytes in Hf by done. injection Hf as <-. rewrite written_file_loads by (done || cbn; lia). by apply matrices_load.
Qed.

(** ** Tensors that are saved *)
Definition unsplit (x : Tensor) : Prop :=
  tensor_ok x /\ (length (tensor_text x) <= 223)%nat /\
  SizeofType (dtype_ x) * Count (shape_ x) = Z.of_nat (length (data_ x)) /\ Z.of_nat (length (data_ x)) < 2 ^ 63.

Lemma load_whole info r t data x : split_mode info = NOSPLIT -> dtype info = Some t -> dtype_ x = t ->
  length data = Z.to_nat (nbytes t (shape info)) -> LoadFromMemory info r data x = (Ok tt, mkT t (shape info) data).
Proof.
  intros Hs Ht Hx Hl. rewrite (load_run info r t); [|by rewrite Hs|unfold IsSplittable; by rewrite Hs|done|done].
  unfold set_part_shape, CopyWeight. rewrite Hs. unfold ShareData, SetShape, mbind, M_bind, modify, gets. cbn.
  by rewrite Hx, !bool_decide_true.
Qed.
Lemma tensor_entry name x : Z.of_nat (length name) < 2 ^ 16 -> unsplit x ->
  exists e, entry_ok e /\ e_name e = name /\ entry_bytes e = local_header name ++ SerializeSingleTensor x /\
    forall r, read_entry r e = Ok (WDense x).
Proof.
  intros Hn (Hok & Hl & Hd & Hlt). destruct (serialize_text x) as (tail & Hs & Ht & Htl); [apply Hok|].
  exists (mkEntry name (tensor_text x ++ tail ++ [10]) (info_of_tensor x) (dtype_ x) (data_ x)). split_and!; [|done| |].
  - constructor; cbn [e_name e_text e_info e_type e_data]; try done; [split; [by apply tensor_described|]|left; done].
    rewrite !length_app. change (length [10]) with 1%nat. lia.
  - unfold entry_bytes. cbn [e_name e_text e_data]. by rewrite Hs.
  - intros r. unfold read_entry. rewrite bool_decide_true by done. unfold load_entry. cbn [e_info e_type e_data]. rewrite (load_whole _ _ (dtype_ x)); try done.
    + by destruct x.
    + cbn [shape info_of_tensor]. unfold nbytes. rewrite Z.mul_comm, Hd, i64_small by lia. by rewrite Nat2Z.id.
Qed.
Lemma tensor_entries ts : Forall (fun '(name, x) => Z.of_nat (length name) < 2 ^ 16 /\ unsplit x) ts ->
  exists es, Forall entry_ok es /\ SerializeMultipleTensor ts = file_bytes es /\
    forall r m, NoDup ts.*1 -> load_entries r es m = Ok (list_to_map (prod_map id WDense <$> ts) ∪ m).
Proof.
  induction 1 as [|[name x] ts [Hn Hx] Hts (es & Hes & Hb & Hl)].
  - exists []. split_and!; [constructor|done|]. intros r m _. cbn. by rewrite (left_id_L ∅ (∪)).
  - destruct (tensor_entry name x Hn Hx) as (e & He & Hen & Heb & Hel). exists (e :: es). split_and!; [by constructor| |].
    + unfold SerializeMultipleTensor, file_bytes in *. rewrite !fmap_cons. cbn [concat]. by rewrite Heb, <- !app_assoc, Hb.
    + intros r m Hnd. rewrite fmap_cons in Hnd. cbn [fst] in Hnd. apply NoDup_cons in Hnd as [Hnot Hnd]. cbn [load_entries]. rewrite Hel, Hl by done. f_equal.
      rewrite fmap_cons. cbn [prod_map id]. rewrite Hen. cbn. rewrite <- insert_union_l, insert_union_r; [done|].
      apply not_elem_of_list_to_map_1. rewrite <- list_fmap_compose. intros Hin. apply Hnot.
      apply list_elem_of_fmap in Hin as ([n' x'] & -> & Hin). by apply (list_elem_of_fmap_2 fst) in Hin.
Qed.

(** C21. Saving and loading are inverse on what the format can hold.  Dense tensors
    are loaded by every rank exactly as they were saved when their names are
    different and shorter than 2^16, their types have a letter and a size in the
    format (FLOAT32, FLOAT16, INT64, INT32, INT16, INT8 or UINT8), their shapes have
    a dimension, dimensions that are ints and a description of at most 223
    characters, and their buffers hold exactly what their shapes say; the file has
    less than 2^63 bytes.  [FileDemo.bool_saved_unreadable],
    [FileDemo.bfloat16_saved_unreadable] and [FileDemo.shrunk_tensor_ends_file] show
    what happens otherwise. *)
Theorem saved_tensors_load r ts :
  rank_size r <> 0 -> Forall (fun '(name, x) => Z.of_nat (length name) < 2 ^ 16 /\ unsplit x) ts -> NoDup ts.*1 ->
  Z.of_nat (length (SerializeMultipleTensor ts)) < 2 ^ 63 ->
  LoadWeightForModel accept_all r (SerializeMultipleTensor ts) = Ok (ALLSPARK_SUCCESS, list_to_map (prod_map id WDense <$> ts)).
Proof.
  intros Hr Hts Hnd Hlen. destruct (tensor_entries ts Hts) as (es & Hes & Hb & Hl). rewrite Hb in *.
  rewrite load_file, Hl by done. by rewrite (right_id_L ∅ (∪)).
Qed.
End theorems.

(** * On concrete files *)
Module FileDemo.
#[local] Instance demo_uninit : Uninit := { uninit n := List.repeat 170 n; uninit_length n := List.repeat_length 170 n }.
Definition bytes_from (a n : nat) : bytes := Z.of_nat <$> seq a n.
Definition written (ws : list Saved) : bytes := match write_file ws [] with Ok f => f | Err _ => [] end.

(** A matrix of two rows split into groups of columns, and a bias. *)
Definition qkv : Matrix :=
  mkMatrix (lit "layer.0.qkv") true 2 8 GROUP_VSPLIT [4; 2; 2]%nat INT16 [bytes_from 0 16; bytes_from 16 16].
Definition bias : Matrix := mkMatrix (lit "layer.0.bias") false 1 4 VSPLIT [] FLOAT32 [bytes_from 32 16].
Lemma grouped_ok : matrix_ok 2 qkv.
Proof.
  constructor; cbn; try done; try lia.
  - by exists 105, 2.
  - constructor; [lia|lia|split; reflexivity|done|split; reflexivity].
  - repeat constructor.
  - split; [repeat constructor|done].
  - vm_compute. lia.
Qed.
Lemma bias_ok : matrix_ok 2 bias.
Proof.
  constructor; cbn; try done; try lia.
  - by exists 102, 4.
  - constructor; [lia|lia|split; reflexivity|done|split; reflexivity].
  - split; [repeat constructor|done].
  - vm_compute. lia.
Qed.
Definition model_file : bytes := Eval vm_compute in written [saved_of qkv; saved_of bias].

Lemma saved_file_loads_witness : LoadWeightForModel accept_all (mkRank 0 2) model_file = load_all (mkRank 0 2) [saved_of qkv; saved_of bias] ∅.
Proof.
  refine (saved_file_loads (mkRank 0 2) [saved_of qkv; saved_of bias] model_file _ _ _ _).
  - discriminate.
  - constructor; [exact (matrix_saved_ok 2 qkv grouped_ok)|]. constructor; [exact (matrix_saved_ok 2 bias bias_ok)|constructor].
  - vm_compute. reflexivity.
  - vm_compute. reflexivity.
Defined.
(** Rank 1 of 2 gets the upper half of each group and of the bias. *)
Lemma file_loads_parts_witness : LoadWeightForModel accept_all (mkRank 1 2) model_file =
  Ok (ALLSPARK_SUCCESS,
    <[lit "layer.0.bias" := WDense (mkT FLOAT32 [2] [40; 41; 42; 43; 44; 45; 46; 47])]>
    {[lit "layer.0.qkv" := WDense (mkT INT16 [2; 4] [4; 5; 6; 7; 10; 11; 14; 15; 20; 21; 22; 23; 26; 27; 30; 31])]}).
Proof.
  refine (file_loads_parts 2 1 [qkv; bias] model_file _ _ _ _ _).
  - lia.
  - reflexivity.
  - constructor; [exact grouped_ok|]. constructor; [exact bias_ok|constructor].
  - vm_compute. reflexivity.
  - vm_compute. reflexivity.
Defined.
Definition two_tensors : list (bytes * Tensor) :=
  [(lit "a", mkT FLOAT16 [2; 1] [1; 2; 3; 4]); (lit "b", mkT INT8 [3] [7; 8; 9])].
Lemma saved_tensors_load_witness : LoadWeightForModel accept_all (mkRank 3 4) (SerializeMultipleTensor two_tensors) =
  Ok (ALLSPARK_SUCCESS, list_to_map (prod_map id WDense <$> two_tensors)).
Proof.
  refine (saved_tensors_load (mkRank 3 4) two_tensors _ _ _ _).
  - discriminate.
  - constructor; [|constructor; [|constructor]].
    + split; [reflexivity|]. split; [constructor; [by exists 102, 2|split; [done|repeat constructor; discriminate]]|].
      split; [vm_compute; lia|split; reflexivity].
    + split; [reflexivity|]. split; [constructor; [by exists 105, 1|split; [done|repeat constructor; discriminate]]|].
      split; [vm_compute; lia|split; reflexivity].
  - apply (bool_decide_unpack _). reflexivity.
  - vm_compute. reflexivity.
Defined.
Definition outcome (r : res (AsStatus * gmap bytes Weight)) : res (AsStatus * list (bytes * Weight)) :=
  match r with Ok (st, m) => Ok (st, map_to_list m) | Err e => Err e end.

(** A truth value is saved as "b" without its size, which no case of the parser
    takes: the type stays uninitialised. *)
Lemma bool_saved_unreadable : LoadWeightForModel accept_all (mkRank 0 1) (SerializeMultipleTensor [(lit "m", mkT BOOL [1] [1])]) = Err UB.
Proof. vm_compute. reflexivity. Qed.
(** A bfloat16 tensor is saved without a type. *)
Lemma bfloat16_saved_unreadable :
  LoadWeightForModel accept_all (mkRank 0 1) (SerializeMultipleTensor [(lit "m", mkT BFLOAT16 [1] [1; 2])]) =
  Err (AsException ALLSPARK_RUNTIME_ERROR).
Proof. vm_compute. reflexivity. Qed.
(** The saver writes the whole buffer, the loader reads what the shape says: after
    a tensor whose shape has shrunk the rest of the file is lost, with success. *)
Lemma shrunk_tensor_ends_file :
  outcome (LoadWeightForModel accept_all (mkRank 0 1) (SerializeMultipleTensor [(lit "a", mkT INT8 [1] [7; 8; 9]); (lit "b", mkT INT8 [1] [5])])) =
  Ok (ALLSPARK_SUCCESS, [(lit "a", WDense (mkT INT8 [1] [7]))]).
Proof. vm_compute. reflexivity. Qed.
(** A description of more than 255 characters is cut: here, of 48 groups of two
    columns, before the split mode, so that a weight whose groups are to be split
    is kept whole, and the rest of the line is read as its first bytes. *)
Definition wide : Saved :=
  mkSaved (lit "w") (mkAttr 0 6 [1; 96] (List.repeat 2 48) 105 1 0) INT8 (bytes_from 0 96).
Lemma long_header_misread :
  outcome (LoadWeightForModel accept_all (mkRank 0 2) (written [wide])) =
  Ok (ALLSPARK_SUCCESS, [(lit "w", WDense (mkT INT8 [1; 96] (lit ": 6,}" ++ [10] ++ bytes_from 0 90)))]).
Proof. vm_compute. reflexivity. Qed.
End FileDemo.
