(* ===== verification/SparseFile.v ===== *)
(** Sparse weights in files: a matrix that is converted when it is written is
    read back as a sparse weight that stands for it. *)
From Stdlib Require Import ZArith ZifyBool Lia.
From stdpp Require Import base list gmap strings.
From S2P Require Import Prelude StringUtil MemoryReuse WeightSplit WeightProofs WeightLoad Sparse SparseProofs SparseRuns SparseTheorems WeightFile FileProofs.

(** * Numbers in memory *)
Definition fits_word (w : nat) (v : Z) : Prop := 0 <= v < 256 ^ Z.of_nat w.
Lemma le_bytes_length w v : length (le_bytes w v) = w.
Proof. revert v. induction w as [|w IH]; intros v; [done|]. cbn. by rewrite IH. Qed.
Lemma le_round w v : fits_word w v -> le_value (le_bytes w v) = v.
Proof.
  unfold fits_word. revert v. induction w as [|w IH]; intros v Hv; [cbn in *; lia|]. rewrite Nat2Z.inj_succ, Z.pow_succ_r in Hv by lia.
  cbn [le_bytes le_value]. rewrite IH; [pose proof (Z.div_mod v 256); lia|]. split; [apply Z.div_pos; lia|apply Z.div_lt_upper_bound; lia].
Qed.
Lemma le_value_fits b : byte_list b -> fits_word (length b) (le_value b).
Proof.
  unfold fits_word. induction 1 as [|c b Hc Hb IH]; [done|]. cbn [le_value length]. rewrite Nat2Z.inj_succ, Z.pow_succ_r by lia. lia.
Qed.
Lemma to_bytes_length w l : length (to_bytes w l) = (length l * w)%nat.
Proof. unfold to_bytes. induction l as [|v l IH]; [done|]. rewrite fmap_cons. cbn [concat length]. rewrite length_app, IH, le_bytes_length. lia. Qed.
Lemma words_round w l : (0 < w)%nat -> Forall (fits_word w) l -> words w (to_bytes w l) = l.
Proof.
  intros Hw Hl. unfold words. rewrite to_bytes_length, Nat.div_mul by lia. induction Hl as [|v l Hv Hl IH]; [done|].
  cbn [length seq fmap list_fmap]. unfold to_bytes in *. rewrite fmap_cons. cbn [concat]. rewrite Nat.mul_0_l, drop_0.
  rewrite take_app_le, take_ge by (rewrite le_bytes_length; lia). rewrite le_round by done. f_equal.
  rewrite <- fmap_S_seq, <- list_fmap_compose. rewrite <- IH at 2. apply list_fmap_ext. intros _ k _. cbn. f_equal.
  rewrite drop_app_ge by (rewrite le_bytes_length; lia). rewrite le_bytes_length. by replace (w + k * w - w)%nat with (k * w)%nat by lia.
Qed.
Lemma words_fit w b : (0 < w)%nat -> byte_list b -> Forall (fits_word w) (words w b).
Proof.
  intros Hw Hb. unfold words. apply Forall_fmap, Forall_forall. intros k Hk. apply elem_of_seq in Hk. cbn.
  assert (Hlen : length (take w (drop (k * w) b)) = w).
  { rewrite length_take, length_drop. pose proof (Nat.Div0.mul_div_le (length b) w). nia. }
  rewrite <- Hlen at 1. apply le_value_fits. by apply Forall_take, Forall_drop.
Qed.
Lemma words_size w b : size (words w b) = Z.of_nat (length b / w).
Proof. unfold size, words. by rewrite length_fmap, length_seq. Qed.

Lemma decimal_length fuel v k : 0 <= v < 10 ^ Z.of_nat k -> (length (decimal fuel v) <= Nat.max 1 k)%nat.
Proof.
  revert v k. induction fuel as [|fuel IH]; intros v k Hv; [cbn; lia|]. rewrite decimal_S, length_app. cbn [length].
  destruct (Z.ltb_spec v 10); [cbn; lia|]. destruct k as [|[|k]]; [cbn in Hv; lia|cbn in Hv; lia|].
  rewrite Nat2Z.inj_succ, Z.pow_succ_r in Hv by lia. assert (Hd := IH (v / 10) (S k)). rewrite <- (Nat.add_1_r (S k)) in *.
  assert (0 <= v / 10 < 10 ^ Z.of_nat (S k)); [|lia]. split; [apply Z.div_pos; lia|apply Z.div_lt_upper_bound; lia].
Qed.
Lemma header_length a nnz : 0 <= nnz <= INT32_MAX -> (length (header_text (with_nnz a nnz)) <= length (header_text (with_nnz a 0)) + 9)%nat.
Proof.
  intros Hn. assert (Hd : (length (to_string nnz) <= 10)%nat).
  { unfold to_string. replace (nnz <? 0) with false by lia. apply (decimal_length _ _ 10). unfold INT32_MAX in Hn. cbn. lia. }
  unfold header_text. rewrite !length_app. cbn [with_nnz a_dtype a_word_size a_shape a_group_list a_sparse_type a_nnz a_split_mode].
  change (length (to_string 0)) with 1%nat. lia.
Qed.

(** * The file of a matrix *)
Section file.
Context (large : Z -> bool) (a : list Z) (m n VECT : Z).
Hypotheses (Hm : 0 <= m) (Hn : 0 <= n) (HV : 0 < VECT) (Ha : m * n <= size a) (Hmn : m * n <= INT32_MAX).
Hypothesis Hle : n * (m + VECT) <= INT32_MAX.
Abbreviation offset := (offset large a m n VECT).
Abbreviation part := (csc_part large a m n VECT).
Abbreviation csc_entries := (csc_entries large a m n VECT n).
Lemma part_bounded w : Forall (fits_word w) a -> forall j, Forall (fun p => 0 <= p.1 <= m /\ fits_word w p.2) (part j).
Proof using Hm.
  intros Hfit j. assert (H0 : fits_word w 0) by (unfold fits_word; lia).
  assert (Hc : forall p, p ∈ column large a m n j -> 0 <= p.1 <= m /\ fits_word w p.2).
  { intros p Hp. apply column_elem in Hp as [Hp ->]. split; [lia|]. unfold at_. rewrite nth_lookup.
    destruct (a !! _) eqn:E; [|done]. rewrite Forall_forall in Hfit. by eapply Hfit, list_elem_of_lookup_2. }
  unfold csc_part, pad. apply Forall_app. split; [by apply Forall_forall|]. apply Forall_forall. intros p Hp.
  apply list_elem_of_In, List.repeat_spec in Hp as ->. split; [|done]. cbn. unfold last_row. destruct (last _) as [p|] eqn:E; [|lia].
  apply last_Some_elem_of in E. by destruct (Hc p E).
Qed.
Lemma entries_bounded w : Forall (fits_word w) a -> Forall (fun p => 0 <= p.1 <= m /\ fits_word w p.2) csc_entries.
Proof using Hm.
  intros Hfit. apply Forall_concat, Forall_fmap, Forall_forall. intros j _. by apply part_bounded.
Qed.
Lemma offsets_bounded : Forall (fun o => 0 <= o <= INT32_MAX) (offset <$> seqZ 0 (n + 1)).
Proof using Hm Hn HV Hle.
  apply Forall_fmap, Forall_forall. intros j Hj. apply elem_of_seqZ in Hj. cbn. split; [apply size_pos|].
  pose proof (offset_bound large a m n VECT Hm HV j ltac:(lia)). nia.
Qed.
Lemma size_zeros k : 0 <= k -> size (zeros k) = k.
Proof. intros Hk. unfold size, zeros. rewrite List.repeat_length. lia. Qed.

Definition csc_data (w : nat) : bytes :=
  to_bytes 4 (offset <$> seqZ 0 (n + 1)) ++ to_bytes 4 csc_entries.*1 ++ to_bytes w csc_entries.*2.
End file.

Section theorems.
Context `{UN : Uninit}.
Lemma save_csc_run large w bin m n VECT at' : let a := words w bin in
  0 <= m -> 0 <= n < INT32_MAX -> 0 < VECT -> m * n <= size a -> m * n <= INT32_MAX -> n * (m + VECT) <= INT32_MAX -> a_shape at' <> [] ->
  let nnz := SparseRuns.offset large a m n VECT n in
  fst (save_csc large w bin m n VECT at' tt) = Ok (header_text (with_nnz at' nnz) ++ [10] ++ csc_data large a m n VECT w).
Proof.
  intros a Hm Hn HV Ha Hmn Hle Hsh nnz. assert (Hb := offset_bound large a m n VECT Hm HV n ltac:(lia)). fold nnz in Hb.
  assert (Hpos : 0 <= nnz) by apply size_pos. unfold save_csc. fold a.
  rewrite (bind_ok _ _ tt tt nnz) by (apply get_nnz_run; lia).
  rewrite (bind_ok _ _ tt tt (n + 1)) by (unfold as_int, INT32_MIN, INT32_MAX in *; by replace (_ && _) with true by lia).
  replace (n + 1 <? 0) with false by lia.
  assert (Hinto : into (mkArrays (zeros nnz) (zeros nnz) (zeros (n + 1)) 0) (dense_to_csc_padding large a m n VECT) tt =
    (Ok (mkArrays (csc_entries large a m n VECT n).*2 (csc_entries large a m n VECT n).*1
      (SparseRuns.offset large a m n VECT <$> seqZ 0 (n + 1)) nnz), tt)).
  { unfold into. rewrite dense_to_csc_padding_run; [done|lia|lia|done|done|done|by apply size_zeros|by apply size_zeros|apply size_zeros; lia]. }
  rewrite (bind_ok _ _ _ _ _ Hinto). rewrite (bind_ok _ _ tt tt (header_text (with_nnz at' nnz) ++ [10])) by (unfold header_with; by rewrite create_text).
  cbn [mret M_ret fst col_offset row_idx values]. unfold csc_data. by rewrite <- app_assoc.
Qed.

(** The types that are converted. *)
Definition sparse_type (t : DataType) : option (Z -> bool) :=
  match t with FLOAT32 => Some large_float | FLOAT16 => Some large_half | _ => None end.
Definition vector_width (t : DataType) : Z := Z.quot 16 (SizeofType t).

Lemma save_csc_bytes t large name bin m n at' : sparse_type t = Some large -> a_word_size at' = SizeofType t ->
  a_sparse_type at' = 1 -> a_shape at' = [m; n] ->
  let w := Z.to_nat (SizeofType t) in
  save_allsparky_tofile name bin at' =
  match fst (save_csc large w bin m n (vector_width t) at' tt) with Ok b => Ok (local_header name ++ b) | Err e => Err e end.
Proof.
  intros Hst Hws H1 Hsh w. unfold save_allsparky_tofile, save_allsparky, vector_width. rewrite H1, Hsh, Hws. cbn [Z.eqb].
  destruct t; try done; injection Hst as <-; reflexivity.
Qed.

(** A matrix of [m] rows and [n] columns in memory, to be written as CSC. *)
Record csc_ok (t : DataType) (large : Z -> bool) (name bin : bytes) (m n : Z) (at' : TensorAttribute) : Prop := mkCscOk {
  co_type : sparse_type t = Some large;
  co_attr : attr_ok at' t /\ a_sparse_type at' = 1 /\ a_shape at' = [m; n];
  co_text : Z.of_nat (length name) < 2 ^ 16 /\ (length (header_text (with_nnz at' 0)) < 246)%nat;
  co_size : 0 < m /\ 0 < n /\ n * (m + vector_width t) <= INT32_MAX;
  co_data : byte_list bin /\ Z.of_nat (length bin) = m * n * SizeofType t;
  co_entry : exists i j, 0 <= i < m /\ 0 <= j < n /\ large (at_ (words (Z.to_nat (SizeofType t)) bin) n i j) = true;
}.
Lemma sparse_type_size t large : sparse_type t = Some large ->
  0 < vector_width t <= 8 /\ 0 < SizeofType t <= 4 /\ type_code t = Some (102, SizeofType t).
Proof. by destruct t. Qed.

Section one.
Context (t : DataType) (large : Z -> bool) (name bin : bytes) (m n : Z) (at' : TensorAttribute).
Hypothesis Hok : csc_ok t large name bin m n at'.
Abbreviation w := (Z.to_nat (SizeofType t)).
Abbreviation a := (words w bin).
Abbreviation VECT := (vector_width t).
Abbreviation nnz := (SparseRuns.offset large a m n VECT n).
Lemma csc_bounds : 0 < m /\ 0 < n < INT32_MAX /\ 0 < VECT <= 8 /\ m * n <= size a /\ m * n <= INT32_MAX /\
  n * (m + VECT) <= INT32_MAX /\ 0 < nnz <= INT32_MAX /\ m <= INT32_MAX /\ (0 < w <= 4)%nat /\ Z.of_nat w = SizeofType t.
Proof using Hok.
  destruct (sparse_type_size t large (co_type _ _ _ _ _ _ _ Hok)) as (HV & Hs & _).
  destruct (co_size _ _ _ _ _ _ _ Hok) as (Hm & Hn & Hle). destruct (co_data _ _ _ _ _ _ _ Hok) as [_ Hl].
  assert (Hsz : size a = m * n).
  { rewrite words_size. rewrite Nat2Z.inj_div, Hl, Z2Nat.id by lia. apply Z.div_mul. lia. }
  destruct (co_entry _ _ _ _ _ _ _ Hok) as (i & j & Hi & Hj & Hlarge).
  assert (Hb := offset_bound large a m n VECT ltac:(lia) ltac:(lia) n ltac:(lia)).
  assert (Hle' := offset_le large a m n VECT j n ltac:(lia)). rewrite csc_part_size in Hle' by lia.
  pose proof (padding_bound VECT (size (column large a m n j)) ltac:(lia)). pose proof (size_pos (SparseRuns.csc_entries large a m n VECT j)).
  assert (0 < size (column large a m n j)).
  { pose proof (column_nonempty large a m n i j Hi Hlarge). unfold size. destruct (column large a m n j); [done|cbn; lia]. }
  unfold SparseRuns.offset at 1 in Hle'. unfold INT32_MAX in *. split_and!; try lia; try nia.
Qed.
Definition csc_entry : Entry :=
  mkEntry name (header_text (with_nnz at' nnz) ++ [10]) (info_of (with_nnz at' nnz) t) t (csc_data large a m n VECT w).
Lemma csc_data_length : length (csc_data large a m n VECT w) = (Z.to_nat ((n + 1) * 4) + Z.to_nat (nnz * 4) + Z.to_nat (nnz * SizeofType t))%nat.
Proof using Hok.
  destruct csc_bounds as (Hm & Hn & HV & _ & _ & _ & Hnnz & _ & Hw & Hwt). unfold csc_data. rewrite !length_app, !to_bytes_length, !length_fmap, length_seqZ.
  set (l := length (SparseRuns.csc_entries large a m n VECT n)). assert (Hl : nnz = Z.of_nat l) by done.
  replace (Z.to_nat (nnz * SizeofType t)) with (l * w)%nat by (rewrite Z2Nat.inj_mul, Hl, Nat2Z.id by lia; done).
  rewrite Hl. lia.
Qed.
Lemma csc_entry_is_ok : entry_ok csc_entry.
Proof using Hok.
  destruct csc_bounds as (Hm & Hn & HV & _ & _ & _ & Hnnz & _ & Hw & Hwt). destruct (co_text _ _ _ _ _ _ _ Hok) as [Hname Hline].
  destruct (co_attr _ _ _ _ _ _ _ Hok) as ([Hsh Hg Hmd Hsp Hz Ht] & H1 & Hshape).
  assert (Ha : attr_ok (with_nnz at' nnz) t) by (constructor; try done; cbn; unfold fits_int, INT32_MIN; lia).
  constructor; cbn [csc_entry e_name e_text e_info e_type e_data]; [done| |done|].
  - split; [by apply header_described|]. rewrite length_app. change (length [10]) with 1%nat. pose proof (header_length at' nnz ltac:(lia)). lia.
  - right. unfold csc_entry_ok, csc_sizes. cbn [csc_entry e_name e_text e_info e_type e_data info_of with_nnz mode WeightSplit.nnz shape a_sparse_type a_shape a_nnz].
    rewrite H1. cbn [to_mode Z.eqb]. rewrite bool_decide_false by done. split_and!; [done|lia|]. exists m, n. split_and!; [done|lia|lia|].
    apply csc_data_length.
Qed.
Lemma csc_written : save_allsparky_tofile name bin at' = Ok (entry_bytes csc_entry).
Proof using Hok.
  destruct csc_bounds as (Hm & Hn & HV & Hsz & Hmn & Hle & Hnnz & _ & Hw & Hwt). destruct (sparse_type_size t large (co_type _ _ _ _ _ _ _ Hok)) as (_ & _ & Hc).
  destruct (co_attr _ _ _ _ _ _ _ Hok) as ([Hsh _ _ _ _ Ht] & H1 & Hshape). rewrite Hc in Ht. injection Ht as _ Hws.
  rewrite (save_csc_bytes t large _ _ m n) by (done || apply (co_type _ _ _ _ _ _ _ Hok)).
  rewrite save_csc_run by (done || lia || apply Hsh). unfold entry_bytes, csc_entry. cbn [e_name e_text e_data]. by rewrite <- !app_assoc.
Qed.
Lemma csc_read_back : exists offs rows vals, csc_weight csc_entry = WCsc t [m; n] nnz offs rows vals /\
  forall i j, 0 <= i < m -> 0 <= j < n -> csc_get (words w vals) (words 4 rows) (words 4 offs) i j = kept large (at_ a n i j).
Proof using Hok.
  destruct csc_bounds as (Hm & Hn & HV & Hsz & Hmn & Hle & Hnnz & HmI & Hw & Hwt). destruct (co_attr _ _ _ _ _ _ _ Hok) as (_ & H1 & Hshape).
  destruct (co_data _ _ _ _ _ _ _ Hok) as [Hbytes _]. set (l := SparseRuns.csc_entries large a m n VECT n).
  set (os := SparseRuns.offset large a m n VECT <$> seqZ 0 (n + 1)). exists (to_bytes 4 os), (to_bytes 4 l.*1), (to_bytes w l.*2). split.
  - unfold csc_weight, csc_sizes. cbn [csc_entry e_name e_text e_info e_type e_data info_of with_nnz mode WeightSplit.nnz shape a_sparse_type a_shape a_nnz].
    rewrite H1, Hshape. cbn [to_mode Z.eqb nth]. rewrite bool_decide_false by done. unfold csc_data. fold l os.
    assert (Hlo : length (to_bytes 4 os) = Z.to_nat ((n + 1) * 4)) by (unfold os; rewrite to_bytes_length, length_fmap, length_seqZ; lia).
    assert (Hlr : length (to_bytes 4 l.*1) = Z.to_nat (nnz * 4)) by (rewrite to_bytes_length, length_fmap; unfold SparseRuns.offset, size; fold l; lia).
    rewrite <- Hlo, <- Hlr, take_app_length, drop_app_length, take_app_length, <- drop_drop, !drop_app_length. done.
  - intros i j Hi Hj. assert (Hbd := entries_bounded large a m n VECT ltac:(lia) w (words_fit w bin ltac:(lia) Hbytes)). fold l in Hbd.
    assert (Hob := offsets_bounded large a m n VECT ltac:(lia) ltac:(lia) ltac:(lia) Hle). fold os in Hob.
    rewrite (words_round w), (words_round 4 l.*1), (words_round 4 os); [|lia| |lia| |lia|].
    + unfold csc_get, l, os. rewrite csc_column_entries by lia. apply find_csc_part; lia.
    + eapply Forall_impl; [exact Hob|]. intros o Ho. unfold fits_word, INT32_MAX in *. change (256 ^ Z.of_nat 4) with (2 ^ 32). lia.
    + apply Forall_fmap. eapply Forall_impl; [exact Hbd|]. intros p [Hp _]. unfold fits_word, INT32_MAX in *. change (256 ^ Z.of_nat 4) with (2 ^ 32). cbn. lia.
    + apply Forall_fmap. eapply Forall_impl; [exact Hbd|]. by intros p [_ Hp].
Qed.
End one.

(** C22. A sparse weight survives the file.  A matrix of floats or halves with an
    entry above the threshold that is written as CSC is loaded by every rank as a
    CSC weight of its shape, whose entries, found in the loaded arrays, are those
    of the matrix above the threshold, and zero elsewhere. *)
Theorem csc_file_loads r t large name bin m n at' :
  rank_size r <> 0 -> csc_ok t large name bin m n at' ->
  let w := Z.to_nat (SizeofType t) in
  exists file nnz offs rows vals,
    save_allsparky_tofile name bin at' = Ok file /\
    LoadWeightForModel accept_all r (file ++ set_global_header) = Ok (ALLSPARK_SUCCESS, {[name := WCsc t [m; n] nnz offs rows vals]}) /\
    forall i j, 0 <= i < m -> 0 <= j < n ->
      csc_get (words w vals) (words 4 rows) (words 4 offs) i j = kept large (at_ (words w bin) n i j).
Proof.
  intros Hr Hok w. destruct (csc_read_back t large name bin m n at' Hok) as (offs & rows & vals & Hw & Hg).
  set (e := csc_entry t large name bin m n at') in *. exists (entry_bytes e), (SparseRuns.offset large (words w bin) m n (vector_width t) n), offs, rows, vals.
  split_and!; [by apply csc_written| |exact Hg]. assert (He : entry_ok e) by (by apply csc_entry_is_ok).
  assert (Hfile : entry_bytes e ++ set_global_header = file_bytes [e]) by (unfold file_bytes; cbn; by rewrite app_nil_r).
  rewrite Hfile, load_file; [|done|by apply Forall_singleton|].
  - cbn [load_entries]. unfold read_entry. rewrite bool_decide_false.
    + rewrite Hw. done.
    + destruct (co_attr _ _ _ _ _ _ _ Hok) as (_ & H1 & _). cbn. by rewrite H1.
  - destruct (csc_bounds t large name bin m n at' Hok) as (Hm & Hn & HV & _ & _ & _ & Hnnz & _ & Hwp & Hwt).
    destruct (co_text _ _ _ _ _ _ _ Hok) as [Hname _]. destruct He as [_ [_ Hline] _ _].
    rewrite <- Hfile, length_app. unfold entry_bytes, local_header. rewrite !length_app.
    assert (Hd : length (e_data e) = _) by exact (csc_data_length t large name bin m n at' Hok). rewrite Hd. change (e_name e) with name.
    change (length (le16 1)) with 2%nat. change (length (le16 (Z.of_nat (length name)))) with 2%nat. change (length (lit "AS")) with 2%nat.
    change (length set_global_header) with 6%nat. unfold INT32_MAX in *. assert (SizeofType t <= 4) by lia. nia.
Qed.
End theorems.

(** * On concrete files *)
Module SparseFileDemo.
#[local] Instance demo_uninit : Uninit := { uninit n := List.repeat 170 n; uninit_length n := List.repeat_length 170 n }.
(** 1.5 and -2.0 in the first column, 3.0 in the third. *)
Definition matrix : bytes := to_bytes 4 [0x3FC00000; 0; 0; 0; 0; 0; 0xC0000000; 0; 0x40400000].
Definition csc_attr : TensorAttribute := mkAttr 1 0 [3; 3] [] 102 4 0.
Lemma matrix_csc_ok : csc_ok FLOAT32 large_float (lit "w") matrix 3 3 csc_attr.
Proof.
  constructor.
  - done.
  - split; [|done]. constructor; try done; cbn; try (unfold fits_int, INT32_MIN, INT32_MAX; lia).
    + split; [done|]. repeat constructor; unfold INT32_MIN, INT32_MAX; lia.
  - split; [reflexivity|vm_compute; lia].
  - split_and!; [lia|lia|vm_compute; discriminate].
  - split; [|reflexivity]. apply (bool_decide_unpack _). vm_compute. reflexivity.
  - exists 2, 0. split_and!; [lia|lia|lia|lia|reflexivity].
Qed.
Lemma csc_file_loads_witness : exists file nnz offs rows vals,
  save_allsparky_tofile (lit "w") matrix csc_attr = Ok file /\
  LoadWeightForModel accept_all (mkRank 1 2) (file ++ set_global_header) =
    Ok (ALLSPARK_SUCCESS, {[lit "w" := WCsc FLOAT32 [3; 3] nnz offs rows vals]}) /\
  csc_get (words 4 vals) (words 4 rows) (words 4 offs) 2 0 = 0xC0000000.
Proof.
  destruct (csc_file_loads (mkRank 1 2) FLOAT32 large_float (lit "w") matrix 3 3 csc_attr ltac:(discriminate) matrix_csc_ok)
    as (file & nnz & offs & rows & vals & Hs & Hl & Hg).
  exists file, nnz, offs, rows, vals. split_and!; [exact Hs|exact Hl|]. exact (Hg 2 0 ltac:(lia) ltac:(lia)).
Defined.
Definition saved (data : bytes) (a : TensorAttribute) : bytes :=
  match save_allsparky_tofile (lit "w") data a with Ok b => b ++ set_global_header | Err _ => [] end.

(** A weight without entries is written, and its offsets are then copied into an
    array that is not there. *)
Lemma empty_csc_unreadable :
  save_allsparky_tofile (lit "w") (List.repeat 0 8) (mkAttr 1 0 [1; 2] [] 102 4 0) <> Err UB /\
  LoadWeightForModel accept_all (mkRank 0 1) (saved (List.repeat 0 8) (mkAttr 1 0 [1; 2] [] 102 4 0)) = Err UB.
Proof. by vm_compute. Qed.
(** Sizes other than those of floats and halves write a name and nothing else. *)
Lemma other_sizes_not_written :
  save_allsparky_tofile (lit "w") [1; 2] (mkAttr 1 0 [1; 2] [] 105 1 0) = Ok (local_header (lit "w")) /\
  LoadWeightForModel accept_all (mkRank 0 1) (saved [1; 2] (mkAttr 1 0 [1; 2] [] 105 1 0)) = Err (AsException ALLSPARK_RUNTIME_ERROR).
Proof. by vm_compute. Qed.
(** An ELL weight whose first column has no entry. *)
Lemma empty_column_ell_fails :
  save_allsparky_tofile (lit "w") (to_bytes 4 [0; 0x3FC00000]) (mkAttr 2 0 [1; 2] [] 102 4 0) = Err UB.
Proof. by vm_compute. Qed.
End SparseFileDemo.
