(* ===== verification/WeightManager.v ===== *)
(** The weights of models in use (src/csrc/runtime/weight/weight_manager.h,
    weight_manager.cpp): which weights each rank of each model has on its device,
    and their copies in host memory from which a model that was swapped out comes
    back.

    A handler and a map of weights are objects named by numbers; a null
    [shared_ptr] is [None].  Every method is the sequence of its critical sections,
    each a definition, so that [manager_step] can interleave them.  [std::map]
    compares ranks by [rank_order], which tells ranks of a size apart. *)
From Stdlib Require Import ZArith ZifyBool Lia.
From stdpp Require Import base list gmap strings.
From S2P Require Import Prelude StringUtil MemoryReuse WeightSplit WeightFile.

#[export] Instance RankInfo_eq_dec : EqDecision RankInfo.
Proof. solve_decision. Defined.
#[export] Instance RankInfo_countable : Countable RankInfo.
Proof. refine (inj_countable' (fun r => (rank_id r, rank_size r)) (fun p => mkRank p.1 p.2) _). by intros []. Defined.
Definition rank_order (r : RankInfo) : Z := rank_size r * rank_size r + rank_id r.

Inductive SwapStatus := SwapInit | SwapOut | SwapIn.
#[export] Instance SwapStatus_eq_dec : EqDecision SwapStatus.
Proof. solve_decision. Defined.
Inductive WeightEvent := WeightOnLoad | WeightOnSwapOut | WeightOnSwapIn | WeightOnFree.
Inductive Device := CPU | CUDA.

(** [ModelWeightHandler], with the part of its configuration that is used. *)
Record Handler := mkHandler {
  h_id : Z;
  model_name : bytes;
  weights_path : bytes;
  is_lora_cfg : bool;
  lora_max_rank : Z;
}.
(** A [TensorMap], whose tensors are on one device. *)
Record WeightMap := mkWeightMap { on : Device; weights : gmap bytes Weight }.
Abbreviation RankMap := (gmap RankInfo (option Z)).
Abbreviation Heap := (gmap Z WeightMap).
Record Manager := mkManager {
  handlers : gmap Z Handler;
  maps : Heap;
  weight_handler_store_ : list (option Z);
  proto_store_ : gmap Z Z;
  weight_storage_ : gmap Z RankMap;
  swap_weight_storage_ : gmap Z RankMap;
  swap_status_ : gmap Z (gmap RankInfo SwapStatus);
  swap_config_ : gmap Z bool;
  events : list (Z * WeightEvent);
}.
Definition empty_manager : Manager := mkManager ∅ ∅ [] ∅ ∅ ∅ ∅ ∅ [].
(** A number that no object has. *)
Definition next {A} (m : gmap Z A) : Z := 1 + map_fold (fun k _ a => Z.max k a) 0 m.
(** The map that a rank has; no rank has none and a null pointer is none. *)
Definition shared (x : RankMap) (r : RankInfo) : option Z := match x !! r with Some (Some p) => Some p | _ => None end.
Definition object (heap : Heap) (p : option Z) : option WeightMap := match p with Some p => heap !! p | None => None end.
(** [std::map::operator[]] *)
Definition slot {K A} `{Countable K} `{Empty A} (m : gmap K A) (k : K) : A := default ∅ (m !! k).

Definition set_handlers (f : gmap Z Handler -> gmap Z Handler) (s : Manager) : Manager :=
  mkManager (f (handlers s)) (maps s) (weight_handler_store_ s) (proto_store_ s) (weight_storage_ s) (swap_weight_storage_ s) (swap_status_ s) (swap_config_ s) (events s).
Definition set_maps (f : Heap -> Heap) (s : Manager) : Manager :=
  mkManager (handlers s) (f (maps s)) (weight_handler_store_ s) (proto_store_ s) (weight_storage_ s) (swap_weight_storage_ s) (swap_status_ s) (swap_config_ s) (events s).
Definition set_store (f : list (option Z) -> list (option Z)) (s : Manager) : Manager :=
  mkManager (handlers s) (maps s) (f (weight_handler_store_ s)) (proto_store_ s) (weight_storage_ s) (swap_weight_storage_ s) (swap_status_ s) (swap_config_ s) (events s).
Definition set_protos (f : gmap Z Z -> gmap Z Z) (s : Manager) : Manager :=
  mkManager (handlers s) (maps s) (weight_handler_store_ s) (f (proto_store_ s)) (weight_storage_ s) (swap_weight_storage_ s) (swap_status_ s) (swap_config_ s) (events s).
Definition set_storage (f : gmap Z RankMap -> gmap Z RankMap) (s : Manager) : Manager :=
  mkManager (handlers s) (maps s) (weight_handler_store_ s) (proto_store_ s) (f (weight_storage_ s)) (swap_weight_storage_ s) (swap_status_ s) (swap_config_ s) (events s).
Definition set_swap (f : gmap Z RankMap -> gmap Z RankMap) (s : Manager) : Manager :=
  mkManager (handlers s) (maps s) (weight_handler_store_ s) (proto_store_ s) (weight_storage_ s) (f (swap_weight_storage_ s)) (swap_status_ s) (swap_config_ s) (events s).
Definition set_status (h : Z) (r : RankInfo) (st : SwapStatus) (s : Manager) : Manager :=
  mkManager (handlers s) (maps s) (weight_handler_store_ s) (proto_store_ s) (weight_storage_ s) (swap_weight_storage_ s)
    (<[h := <[r := st]> (slot (swap_status_ s) h)]> (swap_status_ s)) (swap_config_ s) (events s).
Definition set_config (h : Z) (b : bool) (s : Manager) : Manager :=
  mkManager (handlers s) (maps s) (weight_handler_store_ s) (proto_store_ s) (weight_storage_ s) (swap_weight_storage_ s) (swap_status_ s)
    (<[h := b]> (swap_config_ s)) (events s).
(** The listeners are called. *)
Definition notify (h : Z) (e : WeightEvent) : M Manager unit :=
  modify (fun s => mkManager (handlers s) (maps s) (weight_handler_store_ s) (proto_store_ s) (weight_storage_ s) (swap_weight_storage_ s)
    (swap_status_ s) (swap_config_ s) (events s ++ [(h, e)])).

(** * Copies of weights *)
Section copy.
Context `{UN : Uninit}.
(** [TensorUtils::DeepCopyWhole] into a tensor of the same type and shape. *)
Definition DeepCopyWhole (src : Tensor) : res Tensor :=
  let dst := Tensor_new (dtype_ src) (shape_ src) in
  let nbytes := length (data_ src) in
  if (nbytes =? 0)%nat then Ok dst
  else if (length (data_ dst) <? nbytes)%nat then Err UB
  else Ok (mkT (dtype_ src) (shape_ src) (data_ src ++ drop nbytes (data_ dst))).
(** A new sparse tensor has no data to copy into. *)
Definition copy_weight (w : Weight) : res Weight :=
  match w with
  | WDense x => match DeepCopyWhole x with Ok y => Ok (WDense y) | Err e => Err e end
  | _ => Err InvalidArgument
  end.
Abbreviation D := (M (RankMap * Heap)).
Definition duplicate_map (target : Device) (r : RankInfo) (tensor_map : option Z) : D unit :=
  heap ← gets snd;
  match object heap tensor_map with
  | None => throw UB
  | Some src =>
      let q := next heap in
      modify (fun '(x, heap) => (<[r := Some q]> x, <[q := mkWeightMap target ∅]> heap));;
      for_each (map_to_list (weights src)) (fun '(name, w) =>
        match copy_weight w with
        | Ok w' => modify (fun '(x, heap) => (x, <[q := mkWeightMap target (<[name := w']> (default ∅ (weights <$> (heap !! q))))]> heap))
        | Err e => throw e
        end)
  end.
(** Replaces the maps of all ranks or of one; the order of the ranks and names
    shows only when a copy throws. *)
Definition DuplicateTensorsToDeviceType (target : Device) (only : option RankInfo) : D unit :=
  ranks ← gets fst;
  for_each (map_to_list ranks) (fun '(r, p) =>
    if bool_decide (default r only = r) then duplicate_map target r p else mret tt).
End copy.

(** * Methods *)
Section manager.
(** Whether the build has CUDA; the content of files, of those that can be opened;
    the check of weights. *)
Context `{UN : Uninit} (cuda : bool) (files : bytes -> option bytes) (ValidateWeight : Handler -> bytes -> TensorInfo -> res AsStatus).
Abbreviation W := (M Manager).

Definition RegisterModel (name path : bytes) (model_ir : Z) : W Z :=
  s ← gets id;
  let new_id := Z.of_nat (length (weight_handler_store_ s)) in
  let p := next (handlers s) in
  modify (set_handlers <[p := mkHandler new_id name path false 0]>);;
  modify (set_store (fun l => l ++ [Some p]));;
  modify (set_protos <[new_id := model_ir]>);;
  mret p.
Definition GetNumModels : W Z := gets (fun s => Z.of_nat (length (weight_handler_store_ s))).
Definition SetSwapConfig (h : Z) (enable : bool) : W unit := modify (set_config h enable).
Definition IsSwapEnable (h : Z) : W bool := gets (fun s => cuda && default false (swap_config_ s !! h)).

(** The status of the first rank. *)
Definition first_status (m : gmap RankInfo SwapStatus) : option SwapStatus :=
  snd <$> foldr (fun '(r, st) acc =>
    match acc with Some (r', st') => Some (if rank_order r <? rank_order r' then (r, st) else (r', st')) | None => Some (r, st) end)
    None (map_to_list m).
Definition GetSwapStatus (h : Z) : W SwapStatus :=
  s ← gets id;
  match swap_status_ s !! h with
  | None => mret SwapInit
  | Some m => match first_status m with Some st => mret st | None => throw UB end
  end.

(** ** Loading *)
Definition handler_of (h : Z) : W Handler :=
  s ← gets id; match handlers s !! h with Some hd => mret hd | None => throw UB end.
Definition load_check (h : Z) : W bool := st ← GetSwapStatus h; mret (negb (bool_decide (st = SwapIn))).
(** [fread] from the null pointer of a file that cannot be opened. *)
Definition read_file (hd : Handler) (r : RankInfo) : res (AsStatus * gmap bytes Weight) :=
  match files (weights_path hd) with
  | Some file => WeightFile.LoadWeightForModel (ValidateWeight hd) r file
  | None => Err UB
  end.
(** [DuplicateTensorsToDeviceType] on the maps of a handler. *)
Definition duplicate_storage (h : Z) (target : Device) (only : option RankInfo) : W unit :=
  zoom (fun s => (slot (weight_storage_ s) h, maps s)) (fun x s => set_storage <[h := x.1]> (set_maps (fun _ => x.2) s))
    (DuplicateTensorsToDeviceType target only).
Definition duplicate_swap (h : Z) (target : Device) (only : option RankInfo) : W unit :=
  zoom (fun s => (slot (swap_weight_storage_ s) h, maps s)) (fun x s => set_swap <[h := x.1]> (set_maps (fun _ => x.2) s))
    (DuplicateTensorsToDeviceType target only).
Definition store_weights (device : Device) (h : Z) (r : RankInfo) (m : gmap bytes Weight) : W unit :=
  s ← gets id;
  let p := next (maps s) in
  modify (set_maps <[p := mkWeightMap device m]>);;
  modify (set_storage (fun x => <[h := <[r := Some p]> (slot x h)]> x));;
  hd ← handler_of h;
  if is_lora_cfg hd then modify (set_status h r SwapInit)
  else
    swap ← IsSwapEnable h;
    when swap (
      s ← gets id;
      when (negb (bool_decide (is_Some (swap_weight_storage_ s !! h))) && (Z.of_nat (size (slot (weight_storage_ s) h)) =? rank_size r)) (
        modify (set_swap <[h := slot (weight_storage_ s) h]>);;
        duplicate_swap h CPU None);;
      modify (set_status h r SwapInit)).
Definition load_file (device : Device) (h : Z) (r : RankInfo) : W AsStatus :=
  hd ← handler_of h;
  match read_file hd r with
  | Err e => throw e
  | Ok (status, m) =>
      if negb (bool_decide (status = ALLSPARK_SUCCESS)) then mret status
      else store_weights device h r m;; notify h WeightOnLoad;; mret ALLSPARK_SUCCESS
  end.
Definition LoadWeightForModel (device : Device) (h : Z) (r : RankInfo) : W AsStatus :=
  go ← load_check h;
  if negb go then mret ALLSPARK_SUCCESS else load_file device h r.

(** ** Access *)
Definition status_of (s : Manager) (h : Z) (r : RankInfo) : option SwapStatus :=
  match swap_status_ s !! h with Some m => m !! r | None => None end.
Definition handler_is_avalibile (s : Manager) (h : Z) : bool := bool_decide (is_Some (weight_storage_ s !! h)).
Definition handler_is_swapout (s : Manager) (h : Z) (r : RankInfo) : bool :=
  bool_decide (status_of s h r = Some SwapOut).
Definition weight_on_rank_is_avalibile (s : Manager) (h : Z) (r : RankInfo) : bool := bool_decide (is_Some (slot (weight_storage_ s) h !! r)).
Definition no_weight {A} : W A := AS_THROW ALLSPARK_RUNTIME_ERROR.
Definition get_weight_on_rank (h : Z) (r : RankInfo) : W WeightMap :=
  s ← gets id;
  match object (maps s) (shared (slot (weight_storage_ s) h) r) with Some m => mret m | None => throw UB end.
Definition GetWeightTensor (h : Z) (r : RankInfo) (name : bytes) : W Weight :=
  s ← gets id;
  if negb (handler_is_avalibile s h) || negb (weight_on_rank_is_avalibile s h r) then no_weight
  else if handler_is_swapout s h r then no_weight
  else
    m ← get_weight_on_rank h r;
    match weights m !! name with None => no_weight | Some w => mret w end.
(** The weights that [SaveWeights] serializes: those of the first rank. *)
Definition first_rank (x : RankMap) : option RankInfo :=
  foldr (fun r acc => match acc with Some r' => Some (if rank_order r <? rank_order r' then r else r') | None => Some r end)
    None (map_to_list x).*1.
Definition SaveWeights (h : Z) : W WeightMap :=
  s ← gets id;
  if negb (handler_is_avalibile s h) then no_weight
  else match first_rank (slot (weight_storage_ s) h) with Some r => get_weight_on_rank h r | None => throw UB end.

(** ** Swapping *)
Definition swap_out_check (h : Z) (r : RankInfo) : W bool :=
  swap ← IsSwapEnable h;
  if negb swap then no_weight
  else
    s ← gets id;
    match status_of s h r with
    | None => mret false
    | Some SwapOut => mret false
    | Some _ => if negb (handler_is_avalibile s h) then no_weight else mret true
    end.
Definition swap_out_commit (h : Z) (r : RankInfo) : W unit :=
  modify (set_storage (fun x => <[h := delete r (slot x h)]> x));;
  modify (set_status h r SwapOut).
Definition SwapOutWeight (h : Z) (r : RankInfo) : W unit :=
  go ← swap_out_check h r;
  when go (swap_out_commit h r;; notify h WeightOnSwapOut).
Definition swap_in_check (h : Z) (r : RankInfo) : W bool :=
  swap ← IsSwapEnable h;
  if negb swap then no_weight
  else
    s ← gets id;
    match status_of s h r with
    | None => mret false
    | Some SwapIn => mret false
    | Some _ => if bool_decide (is_Some (swap_weight_storage_ s !! h)) then mret true else no_weight
    end.
Definition swap_in_commit (h : Z) (r : RankInfo) : W unit :=
  s ← gets id;
  let p := shared (slot (swap_weight_storage_ s) h) r in
  modify (set_swap (fun x => <[h := <[r := p]> (slot x h)]> x));;
  modify (set_storage (fun x => <[h := <[r := p]> (slot x h)]> x));;
  duplicate_storage h CUDA (Some r);;
  modify (set_status h r SwapIn).
Definition SwapInWeight (h : Z) (r : RankInfo) : W unit :=
  go ← swap_in_check h r;
  when go (swap_in_commit h r;; notify h WeightOnSwapIn).
Definition FreeSwapResource (h : Z) : W unit := modify (set_swap (delete h)).
Definition free_weight (h : Z) (s : Manager) : Manager :=
  if handler_is_avalibile s h
  then set_store (filter (fun x => x <> Some h)) (set_storage (delete h) s)
  else s.
Definition FreeWeight (h : Z) : W unit := modify (free_weight h);; notify h WeightOnFree.

(** * Interleaved calls

    The workers of the ranks call the manager at the same time.  A call of three
    of its methods has two critical sections, with the reading of the file in
    between for a load; a call that is between them is in [calls]. *)
Inductive Call := LoadCall (device : Device) (h : Z) (r : RankInfo) | OutCall (h : Z) (r : RankInfo) | InCall (h : Z) (r : RankInfo).
Definition call_handler (c : Call) : Z := match c with LoadCall _ h _ | OutCall h _ | InCall h _ => h end.
Definition call_rank (c : Call) : RankInfo := match c with LoadCall _ _ r | OutCall _ r | InCall _ r => r end.
Definition begin_call (c : Call) : W bool :=
  match c with LoadCall _ h _ => load_check h | OutCall h r => swap_out_check h r | InCall h r => swap_in_check h r end.
(** What the file of a model holds for a rank, where it can be loaded. *)
Definition contents (hd : Handler) (r : RankInfo) : option (gmap bytes Weight) :=
  match read_file hd r with Ok (ALLSPARK_SUCCESS, m) => Some m | _ => None end.
Definition finish_call (c : Call) : W unit :=
  match c with
  | LoadCall device h r => _ ← load_file device h r; mret tt
  | OutCall h r => swap_out_commit h r;; notify h WeightOnSwapOut
  | InCall h r => swap_in_commit h r;; notify h WeightOnSwapIn
  end.
(** Methods of one section. *)
Inductive Op := OpRegister (name path : bytes) (model_ir : Z) | OpConfig (h : Z) (enable : bool) | OpFree (h : Z) | OpFreeSwap (h : Z).
Definition run_op (o : Op) : W unit :=
  match o with
  | OpRegister name path ir => _ ← RegisterModel name path ir; mret tt
  | OpConfig h b => SetSwapConfig h b
  | OpFree h => FreeWeight h
  | OpFreeSwap h => FreeSwapResource h
  end.
Record System := mkSystem { mgr : Manager; calls : gmap Z Call }.
(** [nranks] workers; nothing in the repository calls [FreeSwapResource], so
    [free_swap] says whether it is called. *)
Context (nranks : Z) (free_swap : bool).
Definition valid_rank (r : RankInfo) : Prop := rank_size r = nranks /\ 0 <= rank_id r < nranks.
Definition allowed (o : Op) : bool := match o with OpFreeSwap _ => free_swap | _ => true end.
Inductive manager_step : System -> System -> Prop :=
  | step_op x o r s : allowed o = true -> run_op o (mgr x) = (r, s) -> manager_step x (mkSystem s (calls x))
  | step_begin x t c s : calls x !! t = None -> valid_rank (call_rank c) -> is_Some (handlers (mgr x) !! call_handler c) ->
      begin_call c (mgr x) = (Ok true, s) -> manager_step x (mkSystem s (<[t := c]> (calls x)))
  | step_finish x t c r s : calls x !! t = Some c -> finish_call c (mgr x) = (r, s) -> r <> Err UB ->
      manager_step x (mkSystem s (delete t (calls x))).
Definition start : System := mkSystem empty_manager ∅.
End manager.
