(* ===== verification/WeightManagerProofs.v ===== *)
(** The weight manager keeps weights: copies between devices, and the invariant
    of its tables under every interleaving of calls. *)
From Stdlib Require Import ZArith ZifyBool Lia.
From stdpp Require Import base list gmap strings.
From S2P Require Import Prelude StringUtil MemoryReuse WeightSplit WeightFile WeightManager.

(** * Maps *)
Lemma next_above {A} (m : gmap Z A) k : is_Some (m !! k) -> k < next m.
Proof.
  unfold next. intros Hk. enough (k <= map_fold (fun k _ a => Z.max k a) 0 m) by lia. revert k Hk.
  apply (map_fold_weak_ind (fun b m => forall k, is_Some (m !! k) -> k <= b)).
  - intros k [? Hk]. by rewrite lookup_empty in Hk.
  - intros i x m' b Hi IH k Hk. destruct (decide (k = i)) as [->|Hne]; [lia|]. rewrite lookup_insert_ne in Hk by done. specialize (IH k Hk). lia.
Qed.
Lemma next_fresh {A} (m : gmap Z A) : m !! next m = None.
Proof. destruct (m !! next m) eqn:E; [|done]. pose proof (next_above m (next m) (ex_intro _ _ E)). lia. Qed.
Lemma insert_all {K A} `{Countable K} (l : list (K * A)) (acc : gmap K A) : NoDup l.*1 ->
  foldl (fun m p => <[p.1 := p.2]> m) acc l = list_to_map l ∪ acc.
Proof.
  revert acc. induction l as [|[k v] l IH]; intros acc Hnd; [cbn; by rewrite (left_id_L ∅ (∪))|].
  rewrite fmap_cons in Hnd. apply NoDup_cons in Hnd as [Hk Hnd]. cbn [foldl list_to_map foldr]. rewrite IH by done. cbn.
  rewrite <- insert_union_l, insert_union_r; [done|]. by apply not_elem_of_list_to_map_1.
Qed.

(** * Copies *)
Section copy.
Context `{UN : Uninit}.
(** Dense with a buffer of the size of its shape. *)
Definition copyable (w : Weight) : Prop :=
  match w with WDense x => nbytes (dtype_ x) (shape_ x) = Z.of_nat (length (data_ x)) | _ => False end.
Lemma copy_weight_run w : copyable w -> copy_weight w = Ok w.
Proof.
  destruct w as [x| |]; try done. intros Hx. cbn in *. unfold DeepCopyWhole.
  assert (Hl : length (data_ (Tensor_new (dtype_ x) (shape_ x))) = length (data_ x)) by (cbn; rewrite uninit_length; lia).
  destruct (Nat.eqb_spec (length (data_ x)) 0) as [H0|H0].
  - f_equal. destruct x as [t sh d]. cbn in *. destruct d; [|done]. unfold Tensor_new. do 2 f_equal. by apply length_zero_iff_nil.
  - rewrite Hl, Nat.ltb_irrefl, drop_ge, app_nil_r by lia. by destruct x.
Qed.

Lemma duplicate_map_run target r p src (x : RankMap) (heap : Heap) :
  heap !! p = Some src -> map_Forall (fun _ w => copyable w) (weights src) ->
  duplicate_map target r (Some p) (x, heap) =
  (Ok tt, (<[r := Some (next heap)]> x, <[next heap := mkWeightMap target (weights src)]> heap)).
Proof.
  intros Hp Hc. unfold duplicate_map. rewrite (bind_ok (gets snd) _ (x, heap) (x, heap) heap eq_refl). cbn [object]. rewrite Hp. set (q := next heap).
  rewrite (bind_ok (modify _) _ (x, heap) (<[r := Some q]> x, <[q := mkWeightMap target ∅]> heap) tt eq_refl).
  set (body := fun y : bytes * Weight => _ : M (RankMap * Heap) unit). set (x' := <[r := Some q]> x).
  assert (Hrun : forall l acc, Forall (fun y => copyable y.2) l -> for_each l body (x', <[q := mkWeightMap target acc]> heap) =
    (Ok tt, (x', <[q := mkWeightMap target (foldl (fun m y => <[y.1 := y.2]> m) acc l)]> heap))).
  { intros l acc Hl. revert acc. induction Hl as [|[name w] l Hw Hl IH]; intros acc; [done|]. cbn [for_each foldl fst snd].
    rewrite (bind_ok _ _ _ (x', <[q := mkWeightMap target (<[name := w]> acc)]> heap) tt); [apply IH|].
    unfold body. rewrite copy_weight_run by done. unfold modify. cbv beta iota zeta. rewrite lookup_insert_eq, insert_insert_eq. done. }
  rewrite Hrun. 2:{ apply Forall_forall. intros [name w] Hin. apply elem_of_map_to_list in Hin. by apply (Hc name w). }
  rewrite insert_all, (right_id_L ∅ (∪)), list_to_map_to_list by apply NoDup_fst_map_to_list. done.
Qed.

(** The maps of ranks stand for the content of their files. *)
Definition stands (heap : Heap) (c : RankInfo -> option (gmap bytes Weight)) (r : RankInfo) (p : option Z) : Prop :=
  exists o, object heap p = Some o /\ c r = Some (weights o).
Definition rep (heap : Heap) (c : RankInfo -> option (gmap bytes Weight)) (x : RankMap) : Prop :=
  map_Forall (stands heap c) x.
Lemma stands_mono heap heap' c r p : heap ⊆ heap' -> stands heap c r p -> stands heap' c r p.
Proof. intros Hsub (o & Ho & Hc). exists o. split; [|done]. destruct p; [|done]. cbn in *. by eapply lookup_weaken. Qed.
Lemma rep_mono heap heap' c x : heap ⊆ heap' -> rep heap c x -> rep heap' c x.
Proof. intros Hsub Hx r p Hr. eapply stands_mono; [done|]. by apply Hx. Qed.

Context (c : RankInfo -> option (gmap bytes Weight)).
Hypothesis Hcopy : forall r m, c r = Some m -> map_Forall (fun _ w => copyable w) m.
Lemma duplicate_list target only (l : list (RankInfo * option Z)) (x : RankMap) (heap : Heap) :
  NoDup l.*1 -> (forall r p, (r, p) ∈ l -> stands heap c r p) ->
  exists x' heap', for_each l (fun '(r, p) => if bool_decide (default r only = r) then duplicate_map target r p else mret tt) (x, heap) = (Ok tt, (x', heap')) /\
    heap ⊆ heap' /\ (forall r, r ∉ l.*1 -> x' !! r = x !! r) /\
    (forall r, r ∈ l.*1 -> if bool_decide (default r only = r)
      then exists q o, x' !! r = Some (Some q) /\ heap' !! q = Some o /\ on o = target /\ c r = Some (weights o)
      else x' !! r = x !! r).
Proof.
  revert x heap. induction l as [|[r p] l IH]; intros x heap Hnd Hst.
  { exists x, heap. split_and!; [done|done|done|]. intros r Hr. by apply not_elem_of_nil in Hr. }
  rewrite fmap_cons in *. apply NoDup_cons in Hnd as [Hr Hnd]. cbn [fst] in *.
  assert (Hstep : exists x1 heap1, (if bool_decide (default r only = r) then duplicate_map target r p else mret tt) (x, heap) = (Ok tt, (x1, heap1)) /\
    heap ⊆ heap1 /\ (forall r', r' <> r -> x1 !! r' = x !! r') /\
    (if bool_decide (default r only = r) then exists q o, x1 !! r = Some (Some q) /\ heap1 !! q = Some o /\ on o = target /\ c r = Some (weights o)
     else x1 !! r = x !! r)).
  { destruct (bool_decide (default r only = r)) eqn:E; [|by exists x, heap]. destruct (Hst r p (list_elem_of_here _ _)) as (o & Ho & Hc).
    destruct p as [p|]; [|done]. cbn in Ho. rewrite (duplicate_map_run target r p o) by (done || by apply (Hcopy r)). eexists _, _. split; [done|]. split_and!.
    - apply insert_subseteq, next_fresh.
    - intros r' Hne. by rewrite lookup_insert_ne.
    - exists (next heap), (mkWeightMap target (weights o)). by rewrite !lookup_insert_eq. }
  destruct Hstep as (x1 & heap1 & Hrun & Hsub & Hother & Hr1).
  destruct (IH x1 heap1 Hnd) as (x' & heap' & Hrun' & Hsub' & Hother' & Hin').
  { intros r' p' Hin. eapply stands_mono; [exact Hsub|]. apply Hst. by apply list_elem_of_further. }
  exists x', heap'. split_and!.
  - cbn [for_each]. by rewrite (bind_ok _ _ _ _ _ Hrun).
  - by transitivity heap1.
  - intros r' Hne. apply not_elem_of_cons in Hne as [H1 H2]. by rewrite Hother', Hother.
  - intros r' [->|Hin]%elem_of_cons.
    + rewrite Hother' by done. destruct (bool_decide _); [|done]. destruct Hr1 as (q & o & H1 & H2 & H3). exists q, o. split_and!; [done| |apply H3..].
      by eapply lookup_weaken.
    + specialize (Hin' r' Hin). destruct (bool_decide (default r' only = r')); [exact Hin'|]. rewrite Hin'. apply Hother. intros ->. by apply Hr.
Qed.
Lemma duplicate_run target only (x : RankMap) (heap : Heap) : rep heap c x ->
  exists x' heap', DuplicateTensorsToDeviceType target only (x, heap) = (Ok tt, (x', heap')) /\
    heap ⊆ heap' /\ dom x' = dom x /\ rep heap' c x' /\
    (forall r, only <> None -> only <> Some r -> x' !! r = x !! r) /\
    (forall r, only = None \/ only = Some r -> is_Some (x !! r) -> exists q o, x' !! r = Some (Some q) /\ heap' !! q = Some o /\ on o = target).
Proof using Hcopy.
  intros Hx. unfold DuplicateTensorsToDeviceType. rewrite (bind_ok (gets fst) _ (x, heap) (x, heap) x eq_refl).
  destruct (duplicate_list target only (map_to_list x) x heap) as (x' & heap' & Hrun & Hsub & Hout & Hin).
  { apply NoDup_fst_map_to_list. }
  { intros r p Hr. apply elem_of_map_to_list in Hr. by apply Hx. }
  assert (Hkey : forall r, r ∈ (map_to_list x).*1 <-> is_Some (x !! r)).
  { intros r. rewrite list_elem_of_fmap. split.
    - intros ([r' p] & -> & Hr). apply elem_of_map_to_list in Hr. by exists p.
    - intros [p Hp]. exists (r, p). split; [done|]. by apply elem_of_map_to_list. }
  exists x', heap'. split; [exact Hrun|].
  assert (Hcase : forall r, is_Some (x !! r) -> x' !! r = x !! r \/ exists q o, x' !! r = Some (Some q) /\ heap' !! q = Some o /\ on o = target /\ c r = Some (weights o)).
  { intros r Hr. specialize (Hin r (proj2 (Hkey r) Hr)). destruct (bool_decide _); [by right|by left]. }
  assert (Hnone : forall r, x !! r = None -> x' !! r = None).
  { intros r Hr. rewrite Hout; [done|]. rewrite Hkey, Hr. apply is_Some_None. }
  split_and!; [done| | | |].
  - apply set_eq. intros r. rewrite !elem_of_dom. destruct (x !! r) as [p|] eqn:E.
    + destruct (Hcase r (ex_intro _ _ E)) as [->|(q & o & -> & _)]; [rewrite E; reflexivity|]. split; by eexists.
    + rewrite (Hnone r E). reflexivity.
  - intros r p Hr. destruct (x !! r) as [p'|] eqn:E; [|by rewrite (Hnone r E) in Hr]. destruct (Hcase r (ex_intro _ _ E)) as [Heq|(q & o & Hq & Ho & _ & Hc)].
    + rewrite Heq in Hr. eapply stands_mono; [done|]. apply Hx. congruence.
    + rewrite Hq in Hr. injection Hr as <-. exists o. by split.
  - intros r Hn Hne. destruct (x !! r) as [p|] eqn:E; [|by apply Hnone]. specialize (Hin r (proj2 (Hkey r) ltac:(by eexists))).
    rewrite bool_decide_false in Hin; [congruence|]. destruct only as [r'|]; [|done]. cbn. intros ->. done.
  - intros r Hr Hs. specialize (Hin r (proj2 (Hkey r) Hs)). rewrite bool_decide_true in Hin by (by destruct Hr as [-> | ->]).
    destruct Hin as (q & o & H1 & H2 & H3 & _). by exists q, o.
Qed.
End copy.

(** * The invariant *)
Section invariant.
Context `{UN : Uninit} (cuda : bool) (files : bytes -> option bytes) (check : Handler -> bytes -> TensorInfo -> res AsStatus) (nranks : Z).
Abbreviation contents := (contents files check).
Hypothesis Hcopy : forall hd r m, valid_rank nranks r -> contents hd r = Some m -> map_Forall (fun _ w => copyable w) m.
#[local] Instance valid_rank_dec r : Decision (valid_rank nranks r).
Proof. unfold valid_rank. apply _. Defined.
(** What the file of a handler holds for a worker. *)
Definition content_of (s : Manager) (h : Z) (r : RankInfo) : option (gmap bytes Weight) :=
  match handlers s !! h with Some hd => if decide (valid_rank nranks r) then contents hd r else None | None => None end.
Definition ranks_ok (x : RankMap) : Prop := forall r, is_Some (x !! r) -> valid_rank nranks r.
Definition complete (x : RankMap) : Prop := forall r, valid_rank nranks r -> is_Some (x !! r).
Record minv (s : Manager) : Prop := mkMinv {
  mi_store : forall h, rep (maps s) (content_of s h) (slot (weight_storage_ s) h) /\ ranks_ok (slot (weight_storage_ s) h);
  mi_swap : forall h x, swap_weight_storage_ s !! h = Some x -> rep (maps s) (content_of s h) x /\ complete x;
  mi_status : forall h m, swap_status_ s !! h = Some m -> m <> ∅;
  mi_ranks : forall h r st, status_of s h r = Some st -> valid_rank nranks r;
}.
(** Handlers stay, copies in host memory too. *)
Record grows (s s' : Manager) : Prop := mkGrows {
  gr_handlers : handlers s ⊆ handlers s';
  gr_swap : forall h, is_Some (swap_weight_storage_ s !! h) -> is_Some (swap_weight_storage_ s' !! h);
}.
Lemma slot_insert {A} `{Empty A} (m : gmap Z A) h h' v : slot (<[h := v]> m) h' = if decide (h = h') then v else slot m h'.
Proof. unfold slot. destruct (decide (h = h')) as [->|Hne]; [by rewrite lookup_insert_eq|by rewrite lookup_insert_ne]. Qed.
Lemma status_set h r st s h' r' : status_of (set_status h r st s) h' r' = if decide ((h', r') = (h, r)) then Some st else status_of s h' r'.
Proof.
  unfold status_of, set_status. cbn. case_decide as E; [injection E as -> ->; by rewrite !lookup_insert_eq|].
  destruct (decide (h = h')) as [<-|Hn]; [|by rewrite lookup_insert_ne].
  rewrite lookup_insert_eq, lookup_insert_ne by congruence. unfold slot. by destruct (swap_status_ s !! h).
Qed.
Lemma content_grows s s' h r m : handlers s ⊆ handlers s' -> content_of s h r = Some m -> content_of s' h r = Some m.
Proof.
  intros Hsub. unfold content_of. destruct (handlers s !! h) as [hd|] eqn:E; [|done]. by rewrite (lookup_weaken _ _ _ _ E Hsub).
Qed.
Lemma rep_weaken (heap : Heap) (c c' : RankInfo -> option (gmap bytes Weight)) (x : RankMap) : (forall r m, c r = Some m -> c' r = Some m) -> rep heap c x -> rep heap c' x.
Proof. intros Hc Hx r p Hr. destruct (Hx r p Hr) as (o & Ho & Hco). exists o. split; [done|by apply Hc]. Qed.
Lemma rep_insert (heap : Heap) (c : RankInfo -> option (gmap bytes Weight)) (x : RankMap) r p : rep heap c x -> stands heap c r p -> rep heap c (<[r := p]> x).
Proof. intros Hx Hp. by apply map_Forall_insert_2. Qed.
Lemma ranks_insert (x : RankMap) r p : ranks_ok x -> valid_rank nranks r -> ranks_ok (<[r := p]> x).
Proof. intros Hx Hr r'. destruct (decide (r = r')) as [<-|Hne]; [done|]. rewrite lookup_insert_ne by done. apply Hx. Qed.
Lemma all_ranks (x : RankMap) : ranks_ok x -> Z.of_nat (size x) = nranks -> complete x.
Proof.
  intros Hx Hs r Hr. destruct (x !! r) eqn:E; [by eexists|]. exfalso.
  set (all := (fun i => mkRank i nranks) <$> seqZ 0 nranks). assert (Hall : forall r', valid_rank nranks r' -> r' ∈ all).
  { intros [i n] [Hn Hi]. cbn in *. subst n. apply (list_elem_of_fmap_2 (fun i => mkRank i nranks)). apply elem_of_seqZ. lia. }
  assert (Hsub : list_to_set (r :: elements (dom x)) ⊆ (list_to_set all : gset RankInfo)).
  { intros r'. rewrite !elem_of_list_to_set, elem_of_cons, elem_of_elements, elem_of_dom. intros [->|Hd]; [by apply Hall|]. by apply Hall, Hx. }
  apply subseteq_size in Hsub. cbn [list_to_set] in Hsub. rewrite list_to_set_elements_L, size_union in Hsub.
  2: { intros r'. rewrite elem_of_singleton, elem_of_dom. intros ->. rewrite E. apply is_Some_None. }
  rewrite size_singleton, size_dom in Hsub. assert (Hle : forall l : list RankInfo, (size (list_to_set l : gset RankInfo) <= length l)%nat).
  { induction l as [|y l IH]; [done|]. cbn [list_to_set length]. rewrite size_union_alt, size_singleton.
    assert (size (list_to_set l ∖ {[y]} : gset RankInfo) <= size (list_to_set l : gset RankInfo))%nat by (apply subseteq_size; set_solver). lia. }
  specialize (Hle all). unfold all in Hle at 2. rewrite length_fmap, length_seqZ in Hle. lia.
Qed.

(** ** Changes of the tables *)
Lemma minv_mono s s' : minv s -> handlers s ⊆ handlers s' -> maps s ⊆ maps s' -> weight_storage_ s' = weight_storage_ s ->
  swap_weight_storage_ s' = swap_weight_storage_ s -> swap_status_ s' = swap_status_ s -> minv s'.
Proof.
  intros [Hst Hsw Hn Hr] Hh Hm Ew Es Et.
  assert (Hrep : forall h x, rep (maps s) (content_of s h) x -> rep (maps s') (content_of s' h) x).
  { intros h x Hx. eapply rep_weaken; [|by eapply rep_mono]. intros r m. by apply content_grows. }
  constructor; [rewrite Ew|rewrite Es|rewrite Et; done|unfold status_of; rewrite Et; exact Hr].
  - intros h. destruct (Hst h) as [H1 H2]. split; [by apply Hrep|done].
  - intros h x Hx. destruct (Hsw h x Hx) as [H1 H2]. split; [by apply Hrep|done].
Qed.
Lemma minv_heap s heap : minv s -> maps s ⊆ heap -> minv (set_maps (fun _ => heap) s).
Proof. intros Hs Hsub. by apply (minv_mono s). Qed.
Lemma minv_storage s h x : minv s -> rep (maps s) (content_of s h) x -> ranks_ok x -> minv (set_storage <[h := x]> s).
Proof.
  intros [Hst Hsw Hn Hr] H1 H2. constructor; cbn; [|done|done|done]. intros h'. rewrite slot_insert.
  destruct (decide (h = h')) as [<-|]; [split; [exact H1|exact H2]|exact (Hst h')].
Qed.
Lemma minv_free s h : minv s -> minv (set_storage (delete h) s).
Proof.
  intros [Hst Hsw Hn Hr]. constructor; cbn; [|done|done|done]. intros h'. destruct (decide (h = h')) as [<-|Hne].
  - replace (slot (delete h (weight_storage_ s)) h) with (∅ : RankMap) by (unfold slot; by rewrite lookup_delete_eq).
    split; [done|]. intros r [? Hr']. by rewrite lookup_empty in Hr'.
  - unfold slot. rewrite lookup_delete_ne by done. apply Hst.
Qed.
Lemma minv_swap s h x : minv s -> rep (maps s) (content_of s h) x -> complete x -> minv (set_swap <[h := x]> s).
Proof.
  intros [Hst Hsw Hn Hr] H1 H2. constructor; cbn; [done| |done|done]. intros h' x'. destruct (decide (h = h')) as [<-|Hne].
  - rewrite lookup_insert_eq. intros [= <-]. split; [exact H1|exact H2].
  - rewrite lookup_insert_ne by done. apply Hsw.
Qed.
Lemma minv_set_status s h r st : minv s -> valid_rank nranks r -> minv (set_status h r st s).
Proof.
  intros [Hst Hsw Hn Hr] Hv. constructor; cbn; [done|done| |].
  - intros h' m. destruct (decide (h = h')) as [<-|Hne]; [rewrite lookup_insert_eq; intros [= <-]; apply insert_non_empty|].
    rewrite lookup_insert_ne by done. apply Hn.
  - intros h' r' st'. unfold status_of. cbn. destruct (decide (h = h')) as [<-|Hne].
    + rewrite lookup_insert_eq. destruct (decide (r = r')) as [<-|Hne']; [done|]. rewrite lookup_insert_ne by done. intros Hl.
      apply (Hr h r' st'). unfold status_of, slot in *. destruct (swap_status_ s !! h); [done|]. cbn in Hl. by rewrite lookup_empty in Hl.
    + rewrite lookup_insert_ne by done. apply Hr.
Qed.
Lemma grows_refl s s' : handlers s = handlers s' -> swap_weight_storage_ s = swap_weight_storage_ s' -> grows s s'.
Proof. intros H1 H2. constructor; [by rewrite H1|by rewrite H2]. Qed.
Lemma grows_trans s1 s2 s3 : grows s1 s2 -> grows s2 s3 -> grows s1 s3.
Proof. intros [H1 H2] [H3 H4]. constructor; [by transitivity (handlers s2)|]. intros h Hh. by apply H4, H2. Qed.
Lemma grows_swap s h x : grows s (set_swap <[h := x]> s).
Proof.
  constructor; [done|]. intros h' Hh. cbn. destruct (decide (h = h')) as [<-|Hne]; [rewrite lookup_insert_eq; by eexists|by rewrite lookup_insert_ne].
Qed.

(** ** The sections of the methods *)
Lemma notify_minv h e s : minv s -> minv (snd (notify h e s)) /\ fst (notify h e s) = Ok tt /\ grows s (snd (notify h e s)).
Proof. intros Hs. split; [by apply (minv_mono s)|]. split; [done|]. by apply grows_refl. Qed.
Lemma content_copyable s h r m : content_of s h r = Some m -> map_Forall (fun _ w => copyable w) m.
Proof using Hcopy. unfold content_of. destruct (handlers s !! h) as [hd|]; [|done]. case_decide; [by apply Hcopy|done]. Qed.
Lemma duplicate_swap_run h target only s x : minv s -> swap_weight_storage_ s !! h = Some x ->
  exists s', duplicate_swap h target only s = (Ok tt, s') /\ minv s' /\ grows s s' /\
    weight_storage_ s' = weight_storage_ s /\ swap_status_ s' = swap_status_ s /\ swap_config_ s' = swap_config_ s.
Proof using Hcopy.
  intros Hs Hx. assert (Hrep := mi_swap s Hs h x Hx). destruct Hrep as [Hrep Hcomp].
  destruct (duplicate_run (content_of s h) (content_copyable s h) target only x (maps s) Hrep) as (x' & heap' & Hrun & Hsub & Hdom & Hrep' & _).
  exists (set_swap <[h := x']> (set_maps (fun _ => heap') s)). split_and!; try done.
  - unfold duplicate_swap, zoom. unfold slot at 1. rewrite Hx. cbn [default from_option id]. by rewrite Hrun.
  - apply minv_swap; [by apply minv_heap|done|]. intros r Hr. apply elem_of_dom. rewrite Hdom. apply elem_of_dom, Hcomp, Hr.
  - eapply grows_trans; [|apply grows_swap]. by apply grows_refl.
Qed.
Lemma minv_stored device h r m hd s : minv s -> handlers s !! h = Some hd -> contents hd r = Some m -> valid_rank nranks r ->
  minv (set_storage (fun x => <[h := <[r := Some (next (maps s))]> (slot x h)]> x) (set_maps <[next (maps s) := mkWeightMap device m]> s)).
Proof.
  intros Hs Hh Hm Hr. set (p := next (maps s)).
  change (set_storage _ _) with (set_storage <[h := <[r := Some p]> (slot (weight_storage_ s) h)]> (set_maps <[p := mkWeightMap device m]> s)).
  apply minv_storage.
  - apply (minv_heap s (<[p := mkWeightMap device m]> (maps s))); [done|]. apply insert_subseteq, next_fresh.
  - apply rep_insert.
    + apply (rep_mono (maps s)); [apply insert_subseteq, next_fresh|]. apply (mi_store s Hs h).
    + exists (mkWeightMap device m). cbn. rewrite lookup_insert_eq. split; [done|]. unfold content_of. cbn. by rewrite Hh, decide_True.
  - apply ranks_insert; [apply (mi_store s Hs h)|done].
Qed.
Lemma store_weights_run device h r m hd s : minv s -> handlers s !! h = Some hd -> contents hd r = Some m -> valid_rank nranks r ->
  exists s', store_weights cuda device h r m s = (Ok tt, s') /\ minv s' /\ grows s s' /\
    (exists p, weight_storage_ s' = <[h := <[r := Some p]> (slot (weight_storage_ s) h)]> (weight_storage_ s)) /\
    (forall h' r', (h', r') <> (h, r) -> status_of s' h' r' = status_of s h' r').
Proof using Hcopy.
  intros Hs Hh Hm Hr. set (p := next (maps s)). set (x1 := <[r := Some p]> (slot (weight_storage_ s) h)).
  set (s1 := set_storage <[h := x1]> (set_maps <[p := mkWeightMap device m]> s)).
  assert (Hs1 : minv s1) by (by apply (minv_stored device h r m hd s)).
  assert (Hstatus : forall s2 : Manager, swap_status_ s2 = swap_status_ s -> forall h' r', (h', r') <> (h, r) ->
    status_of (set_status h r SwapInit s2) h' r' = status_of s h' r').
  { intros s2 Hs2 h' r' Hne. rewrite status_set, decide_False by congruence. unfold status_of. by rewrite Hs2. }
  unfold store_weights. rewrite (bind_ok (gets id) _ s s s eq_refl). cbv beta zeta. fold p.
  rewrite (bind_ok (modify _) _ s (set_maps <[p := mkWeightMap device m]> s) tt eq_refl).
  erewrite (bind_ok (modify (set_storage _))); [|reflexivity].
  rewrite (bind_ok (handler_of h) _ s1 s1 hd) by (unfold handler_of, mbind, M_bind, gets; cbn; by rewrite Hh).
  destruct (is_lora_cfg hd).
  { exists (set_status h r SwapInit s1). split_and!; [done|by apply minv_set_status|by apply grows_refl|by exists p|by apply Hstatus]. }
  rewrite (bind_ok (IsSwapEnable cuda h) _ s1 s1 _ eq_refl). unfold when at 1. destruct (cuda && _).
  2: { exists s1. split_and!; [done|done|by apply grows_refl|by exists p|done]. }
  rewrite (bind_ok (gets id) _ s1 s1 s1 eq_refl). cbn [id].
  assert (Hcap : exists s2, when (negb (bool_decide (is_Some (swap_weight_storage_ s1 !! h))) && (Z.of_nat (size (slot (weight_storage_ s1) h)) =? rank_size r))
    (modify (set_swap <[h := slot (weight_storage_ s1) h]>);; duplicate_swap h CPU None) s1 = (Ok tt, s2) /\ minv s2 /\ grows s1 s2 /\
    weight_storage_ s2 = weight_storage_ s1 /\ swap_status_ s2 = swap_status_ s1 /\ swap_config_ s2 = swap_config_ s1).
  { unfold when. destruct (_ && _) eqn:E; [|exists s1; split_and!; try done; by apply grows_refl]. apply andb_true_iff in E as [_ E].
    set (x := slot (weight_storage_ s1) h) in *. destruct (mi_store s1 Hs1 h) as [Hrep Hok]. fold x in Hrep, Hok.
    rewrite (bind_ok (modify _) _ s1 (set_swap <[h := x]> s1) tt eq_refl).
    destruct (duplicate_swap_run h CPU None (set_swap <[h := x]> s1) x) as (s2 & H1 & H2 & H3 & H4).
    - apply minv_swap; [done|done|]. apply all_ranks; [done|]. destruct Hr as [Hr _]. lia.
    - cbn. by rewrite lookup_insert_eq.
    - exists s2. split_and!; [done|done| |apply H4..]. eapply grows_trans; [apply grows_swap|done]. }
  destruct Hcap as (s2 & H1 & H2 & H3 & H4 & H5 & H6). rewrite (bind_ok _ _ _ _ _ H1). exists (set_status h r SwapInit s2).
  split_and!; [done|by apply minv_set_status| |exists p; exact H4|by apply Hstatus; rewrite H5].
  eapply grows_trans; [|eapply grows_trans; [exact H3|]]; by apply grows_refl.
Qed.

Lemma shared_stands heap c x r p : rep heap c x -> x !! r = Some p -> p = shared x r /\ stands heap c r (shared x r).
Proof.
  intros Hx Hr. assert (Hst := Hx r p Hr). unfold shared. rewrite Hr. destruct p; [by split|]. by destruct Hst as (o & Ho & _).
Qed.
(** Swapping in a rank that has a copy in host memory. *)
Lemma swap_in_commit_run h r s x : minv s -> valid_rank nranks r -> swap_weight_storage_ s !! h = Some x ->
  exists s', swap_in_commit h r s = (Ok tt, s') /\ minv s' /\ grows s s' /\ handlers s' = handlers s /\ maps s ⊆ maps s' /\
    (exists q o, shared (slot (weight_storage_ s') h) r = Some q /\ maps s' !! q = Some o /\ on o = CUDA) /\
    (forall h' r', (h', r') <> (h, r) -> slot (weight_storage_ s') h' !! r' = slot (weight_storage_ s) h' !! r') /\
    (forall h' r', status_of s' h' r' = if decide ((h', r') = (h, r)) then Some SwapIn else status_of s h' r').
Proof using Hcopy.
  intros Hs Hr Hx. destruct (mi_swap s Hs h x Hx) as [Hrep Hcomp]. destruct (Hcomp r Hr) as [p0 Hp0].
  destruct (shared_stands (maps s) (content_of s h) x r p0 Hrep Hp0) as [_ Hst]. unfold swap_in_commit.
  rewrite (bind_ok (gets id) _ s s s eq_refl). cbv beta zeta.
  assert (Hslot : slot (swap_weight_storage_ s) h = x) by (unfold slot; by rewrite Hx). rewrite Hslot. set (p := shared x r) in *.
  set (x1 := <[r := p]> x). set (s1 := set_swap <[h := x1]> s). set (y1 := <[r := p]> (slot (weight_storage_ s) h)). set (s2 := set_storage <[h := y1]> s1).
  assert (Hs1 : minv s1).
  { apply minv_swap; [done|by apply rep_insert|]. intros r' Hr'. unfold x1. destruct (decide (r = r')) as [<-|Hne].
    - rewrite lookup_insert_eq. by eexists.
    - rewrite lookup_insert_ne by done. by apply Hcomp. }
  assert (Hy1 : rep (maps s) (content_of s h) y1 /\ ranks_ok y1).
  { split; [apply rep_insert; [apply (mi_store s Hs h)|done]|]. apply ranks_insert; [apply (mi_store s Hs h)|done]. }
  assert (Hs2 : minv s2) by (apply minv_storage; [done|apply Hy1|apply Hy1]).
  erewrite (bind_ok (modify (set_swap _))); [|reflexivity]. erewrite (bind_ok (modify (set_storage _))); [|reflexivity].
  assert (Hstate : set_storage (fun x => <[h := <[r := p]> (slot x h)]> x) (set_swap (fun x0 => <[h := <[r := p]> (slot x0 h)]> x0) s) = s2).
  { unfold s2, s1, x1, y1, set_storage, set_swap. cbn. by rewrite Hslot. }
  rewrite Hstate. destruct (duplicate_run (content_of s h) (content_copyable s h) CUDA (Some r) y1 (maps s) (proj1 Hy1))
    as (y & heap & Hrun & Hsub & Hdom & Hrepy & Hothers & Hnew).
  set (s3 := set_storage <[h := y]> (set_maps (fun _ => heap) s2)).
  assert (Hdup : duplicate_storage h CUDA (Some r) s2 = (Ok tt, s3)).
  { unfold duplicate_storage, zoom. cbn [weight_storage_ set_storage s2]. unfold slot at 1. rewrite lookup_insert_eq. cbn [default from_option id].
    change (maps s2) with (maps s). by rewrite Hrun. }
  rewrite (bind_ok _ _ _ _ _ Hdup). assert (Hs3 : minv s3).
  { apply minv_storage; [by apply minv_heap|done|]. intros r' Hr'. apply (proj2 Hy1). apply elem_of_dom. rewrite <- Hdom. by apply elem_of_dom. }
  exists (set_status h r SwapIn s3). split_and!; [done|by apply minv_set_status| |done|done| | |].
  - eapply grows_trans; [apply (grows_swap s h x1)|]. by apply grows_refl.
  - destruct (Hnew r) as (q & o & Hq & Ho & Hon); [by right|unfold y1; rewrite lookup_insert_eq; by eexists|]. exists q, o. cbn.
    unfold slot. rewrite lookup_insert_eq. cbn. unfold shared. by rewrite Hq.
  - intros h' r' Hne. cbn. rewrite insert_insert_eq, slot_insert. destruct (decide (h = h')) as [<-|]; [|done].
    rewrite Hothers by congruence. unfold y1. by rewrite lookup_insert_ne by congruence.
  - intros h' r'. rewrite status_set. done.
Qed.

(** Without a copy the null map is dereferenced. *)
Lemma duplicate_null target r (l : list (RankInfo * option Z)) x : (r, None) ∈ l -> (forall p, (r, p) ∈ l -> p = None) ->
  fst (for_each l (fun '(r', p) => if bool_decide (default r' (Some r) = r') then duplicate_map target r' p else mret tt) x) = Err UB.
Proof.
  revert x. induction l as [|[r' p] l IH]; intros x Hin Hall; [by apply not_elem_of_nil in Hin|]. cbn [for_each default from_option id].
  destruct (decide (r = r')) as [<-|Hne].
  - rewrite bool_decide_true by done. rewrite (Hall p (list_elem_of_here _ _)). destruct x as [x heap]. done.
  - rewrite bool_decide_false by done. rewrite (bind_ok _ _ x x tt eq_refl). apply IH.
    + apply elem_of_cons in Hin as [[= ? ?]|Hin]; [congruence|done].
    + intros p' Hp'. apply Hall. by apply list_elem_of_further.
Qed.
Lemma swap_in_commit_null h r s : swap_weight_storage_ s !! h = None -> fst (swap_in_commit h r s) = Err UB.
Proof.
  intros Hx. unfold swap_in_commit. rewrite (bind_ok (gets id) _ s s s eq_refl). cbv beta zeta.
  assert (Hslot : slot (swap_weight_storage_ s) h = ∅) by (unfold slot; by rewrite Hx). rewrite Hslot. unfold shared. rewrite lookup_empty.
  erewrite (bind_ok (modify (set_swap _))); [|reflexivity]. erewrite (bind_ok (modify (set_storage _))); [|reflexivity].
  set (s1 := set_storage _ _). assert (Hnone : slot (weight_storage_ s1) h !! r = Some None).
  { unfold s1. cbn. rewrite slot_insert, decide_True by done. by rewrite lookup_insert_eq. }
  assert (Hub : fst (duplicate_storage h CUDA (Some r) s1) = Err UB).
  { unfold duplicate_storage, zoom, DuplicateTensorsToDeviceType. set (x := slot (weight_storage_ s1) h) in *.
    rewrite (bind_ok (gets fst) _ (x, maps s1) (x, maps s1) x eq_refl).
    assert (Hd := duplicate_null CUDA r (map_to_list x) (x, maps s1)). destruct (for_each _ _ _) as [o t]. apply Hd.
    - by apply elem_of_map_to_list.
    - intros p Hp. apply elem_of_map_to_list in Hp. congruence. }
  unfold mbind, M_bind. destruct (duplicate_storage h CUDA (Some r) s1) as [[[]|e] s2]; cbn in Hub; [done|]. by injection Hub as ->.
Qed.

(** ** Whole calls *)
Lemma begin_same c s o s' : begin_call cuda c s = (o, s') -> s' = s.
Proof.
  destruct c as [d h r|h r|h r]; cbn; unfold load_check, GetSwapStatus, swap_out_check, swap_in_check, IsSwapEnable, no_weight, AS_THROW, mbind, M_bind, gets, throw, mret, M_ret; cbn.
  - destruct (swap_status_ s !! h) as [m|]; cbn; [destruct (first_status m); cbn|]; by intros [= <- <-].
  - destruct (cuda && _); cbn; [|by intros [= <- <-]]. destruct (status_of s h r) as [[]|]; try (by intros [= <- <-]);
      destruct (handler_is_avalibile s h); by intros [= <- <-].
  - destruct (cuda && _); cbn; [|by intros [= <- <-]]. destruct (status_of s h r) as [[]|]; try (by intros [= <- <-]);
      destruct (bool_decide _); by intros [= <- <-].
Qed.
Lemma begin_in_copy h r s s' : swap_in_check cuda h r s = (Ok true, s') -> is_Some (swap_weight_storage_ s !! h).
Proof.
  unfold swap_in_check, IsSwapEnable, no_weight, AS_THROW, mbind, M_bind, gets, throw, mret, M_ret; cbn.
  destruct (cuda && _); cbn; [|done]. destruct (status_of s h r) as [[]|]; try done; case_bool_decide; done.
Qed.
Lemma swap_out_commit_run h r s : minv s -> valid_rank nranks r ->
  exists s', swap_out_commit h r s = (Ok tt, s') /\ minv s' /\ grows s s' /\ maps s' = maps s /\
    slot (weight_storage_ s') h !! r = None /\
    (forall h' r', (h', r') <> (h, r) -> slot (weight_storage_ s') h' !! r' = slot (weight_storage_ s) h' !! r') /\
    (forall h' r', status_of s' h' r' = if decide ((h', r') = (h, r)) then Some SwapOut else status_of s h' r') /\ handlers s' = handlers s /\ swap_weight_storage_ s' = swap_weight_storage_ s.
Proof.
  intros Hs Hr. set (x := delete r (slot (weight_storage_ s) h)). set (s1 := set_storage <[h := x]> s).
  assert (Hs1 : minv s1).
  { destruct (mi_store s Hs h) as [Hrep Hok]. apply minv_storage; [done| |].
    - intros r' p Hp. apply lookup_delete_Some in Hp as [_ Hp]. by apply Hrep.
    - intros r' [p Hp]. apply lookup_delete_Some in Hp as [_ Hp]. apply Hok. by eexists. }
  exists (set_status h r SwapOut s1). split_and!; [done|by apply minv_set_status|by apply grows_refl|done| | | |done|done].
  - cbn. rewrite slot_insert, decide_True by done. unfold x. by rewrite lookup_delete_eq.
  - intros h' r' Hne. cbn. rewrite slot_insert. destruct (decide (h = h')) as [<-|]; [|done]. unfold x. by rewrite lookup_delete_ne by congruence.
  - intros h' r'. rewrite status_set. done.
Qed.
(** The file decides whether a load fails. *)
Definition file_error (s : Manager) (c : Call) (e : exn) : Prop :=
  match c with
  | LoadCall _ h r => exists hd, handlers s !! h = Some hd /\ read_file files check hd r = Err e
  | _ => False
  end.
Lemma load_file_run d h r hd s : minv s -> handlers s !! h = Some hd -> valid_rank nranks r ->
  exists s', load_file cuda files check d h r s = (match read_file files check hd r with Ok (st, _) => Ok st | Err e => Err e end, s') /\ minv s' /\ grows s s'.
Proof using Hcopy.
  intros Hs Hh Hr. unfold load_file. rewrite (bind_ok (handler_of h) _ s s hd) by (unfold handler_of, mbind, M_bind, gets; cbn; by rewrite Hh).
  destruct (read_file files check hd r) as [[st m]|e] eqn:E; [|exists s; split_and!; [done|done|by apply grows_refl]].
  case_bool_decide as Hst; [subst st|exists s; split_and!; [done|done|by apply grows_refl]].
  assert (Hm : contents hd r = Some m) by (unfold WeightManager.contents; by rewrite E).
  destruct (store_weights_run d h r m hd s Hs Hh Hm Hr) as (s1 & Hrun & H1 & H2 & _). cbn [negb]. rewrite (bind_ok _ _ _ _ _ Hrun).
  destruct (notify_minv h WeightOnLoad s1 H1) as (H3 & H4 & H5). eexists. split_and!; [reflexivity|exact H3|by eapply grows_trans].
Qed.
Lemma finish_run c s : minv s -> valid_rank nranks (call_rank c) -> is_Some (handlers s !! call_handler c) ->
  (match c with InCall h _ => is_Some (swap_weight_storage_ s !! h) | _ => True end) ->
  exists o s', finish_call cuda files check c s = (o, s') /\ minv s' /\ grows s s' /\
    match o with Ok _ => True | Err e => file_error s c e end.
Proof using Hcopy.
  intros Hs Hr [hd Hh] Hc. destruct c as [d h r|h r|h r]; cbn [call_rank call_handler finish_call] in *.
  - destruct (load_file_run d h r hd s Hs Hh Hr) as (s1 & Hrun & H1 & H2). unfold mbind, M_bind. rewrite Hrun.
    destruct (read_file files check hd r) as [[st m]|e] eqn:E; eexists _, s1; (split_and!; [reflexivity|done|done|]); [done|]. by exists hd.
  - destruct (swap_out_commit_run h r s Hs Hr) as (s1 & Hrun & H1 & H2 & _). rewrite (bind_ok _ _ _ _ _ Hrun).
    destruct (notify_minv h WeightOnSwapOut s1 H1) as (H3 & H4 & H5). eexists _, _. split_and!; [reflexivity|exact H3|by eapply grows_trans|done].
  - destruct Hc as [x Hx]. destruct (swap_in_commit_run h r s x Hs Hr Hx) as (s1 & Hrun & H1 & H2 & _). rewrite (bind_ok _ _ _ _ _ Hrun).
    destruct (notify_minv h WeightOnSwapIn s1 H1) as (H3 & H4 & H5). eexists _, _. split_and!; [reflexivity|exact H3|by eapply grows_trans|done].
Qed.
Lemma op_run o s r s' : minv s -> run_op o s = (r, s') ->
  r = Ok tt /\ minv s' /\ handlers s ⊆ handlers s' /\ (match o with OpFreeSwap _ => True | _ => grows s s' end).
Proof.
  intros Hs. destruct o as [name path ir|h b|h|h]; cbn [run_op].
  - unfold RegisterModel, mbind, M_bind, gets, modify, mret, M_ret. cbn. intros [= <- <-].
    assert (Hsub : handlers s ⊆ <[next (handlers s) := mkHandler (Z.of_nat (length (weight_handler_store_ s))) name path false 0]> (handlers s))
      by apply insert_subseteq, next_fresh.
    split; [done|]. split; [by apply (minv_mono s)|]. split; [done|by constructor].
  - intros [= <- <-]. split; [done|]. split; [by apply (minv_mono s)|]. split; [done|by apply grows_refl].
  - unfold FreeWeight, notify, mbind, M_bind, modify, free_weight. cbn. intros [= <- <-]. split; [done|].
    destruct (handler_is_avalibile s h); (split; [|split; [done|by apply grows_refl]]); [|by apply (minv_mono s)].
    by apply (minv_mono (set_storage (delete h) s)); [apply minv_free|..].
  - intros [= <- <-]. destruct Hs as [Hst Hsw Hn Hr]. split; [done|]. split; [|done]. constructor; cbn; [done| |done|done].
    intros h' x Hx. apply lookup_delete_Some in Hx as [_ Hx]. by apply Hsw.
Qed.

(** ** The interleaved system *)
Record sinv (free_swap : bool) (x : System) : Prop := mkSinv {
  si_mgr : minv (mgr x);
  si_calls : forall t c, calls x !! t = Some c -> valid_rank nranks (call_rank c) /\ is_Some (handlers (mgr x) !! call_handler c) /\
    match c with InCall h _ => free_swap = false -> is_Some (swap_weight_storage_ (mgr x) !! h) | _ => True end;
}.
Lemma start_sinv free_swap : sinv free_swap start.
Proof.
  constructor; [|intros t c Hc; cbn in Hc; by rewrite lookup_empty in Hc]. constructor.
  - intros h. replace (slot (weight_storage_ (mgr start)) h) with (∅ : RankMap) by done. split; [done|].
    intros r [? Hr]. by rewrite lookup_empty in Hr.
  - intros h x Hx. change ((∅ : gmap Z RankMap) !! h = Some x) in Hx. by rewrite lookup_empty in Hx.
  - intros h m Hm. change ((∅ : gmap Z (gmap RankInfo SwapStatus)) !! h = Some m) in Hm. by rewrite lookup_empty in Hm.
  - intros h r st Hst. unfold status_of in Hst. change (swap_status_ (mgr start)) with (∅ : gmap Z (gmap RankInfo SwapStatus)) in Hst.
    by rewrite lookup_empty in Hst.
Qed.
Lemma calls_grow free_swap s s' c : handlers s ⊆ handlers s' -> (free_swap = false -> grows s s') ->
  (valid_rank nranks (call_rank c) /\ is_Some (handlers s !! call_handler c) /\
    match c with InCall h _ => free_swap = false -> is_Some (swap_weight_storage_ s !! h) | _ => True end) ->
  (valid_rank nranks (call_rank c) /\ is_Some (handlers s' !! call_handler c) /\
    match c with InCall h _ => free_swap = false -> is_Some (swap_weight_storage_ s' !! h) | _ => True end).
Proof.
  intros Hh Hg (H1 & [hd H2] & H3). split; [done|]. split; [exists hd; by eapply lookup_weaken|]. destruct c; try done. intros Hf.
  by apply (Hg Hf), H3.
Qed.
Lemma step_sinv free_swap x y : sinv free_swap x -> manager_step cuda files check nranks free_swap x y -> sinv free_swap y.
Proof using Hcopy.
  intros [Hs Hc] Hstep. destruct Hstep as [x o r s Ha Hrun|x t c s Ht Hr Hh Hrun|x t c r s Ht Hrun Hub].
  - destruct (op_run o (mgr x) r s Hs Hrun) as (_ & H1 & H2 & H3). constructor; [done|]. cbn. intros t c Ht.
    apply (calls_grow free_swap (mgr x)); [done| |by eapply Hc]. intros ->. by destruct o.
  - assert (Hsame := begin_same _ _ _ _ Hrun). subst s. constructor; [done|]. cbn. intros t' c' Ht'.
    apply lookup_insert_Some in Ht' as [[<- <-]|[_ Ht']]; [|by eapply Hc]. split; [done|]. split; [done|].
    destruct c; try done. intros _. by eapply begin_in_copy.
  - destruct (Hc t c Ht) as (H1 & H2 & H3).
    assert (Hcopy' : match c with InCall h _ => is_Some (swap_weight_storage_ (mgr x) !! h) | _ => True end).
    { destruct c as [| |h r']; try done. destruct (swap_weight_storage_ (mgr x) !! h) eqn:E; [by eexists|]. exfalso. apply Hub.
      assert (Hn := swap_in_commit_null h r' (mgr x) E). cbn [finish_call] in Hrun. unfold mbind, M_bind in Hrun.
      destruct (swap_in_commit h r' (mgr x)) as [[?|e] ?]; cbn in Hn; [done|]. injection Hn as ->. by injection Hrun as <- _. }
    destruct (finish_run c (mgr x) Hs H1 H2 Hcopy') as (o & s1 & Hrun1 & H4 & H5 & _). rewrite Hrun1 in Hrun. injection Hrun as <- <-.
    constructor; [done|]. cbn. intros t' c' Ht'. apply lookup_delete_Some in Ht' as [_ Ht'].
    apply (calls_grow free_swap (mgr x)); [apply H5|done|by eapply Hc].
Qed.
Lemma reachable_sinv free_swap x : rtc (manager_step cuda files check nranks free_swap) start x -> sinv free_swap x.
Proof using Hcopy.
  intros Hr. assert (Hinv : forall y, rtc (manager_step cuda files check nranks free_swap) y x -> sinv free_swap y -> sinv free_swap x).
  { clear Hr. intros y Hy. induction Hy as [|y z w Hyz _ IH]; [done|]. intros Hi. apply IH. by eapply step_sinv. }
  apply (Hinv start Hr), start_sinv.
Qed.
(** What [GetWeightTensor] finds. *)
Definition weight_of (s : Manager) (h : Z) (r : RankInfo) (name : bytes) : option Weight :=
  match slot (weight_storage_ s) h !! r with
  | Some _ => if handler_is_swapout s h r then None else m ← content_of s h r; m !! name
  | None => None
  end.
Lemma get_weight_eq h r name s : minv s ->
  GetWeightTensor h r name s = (match weight_of s h r name with Some w => Ok w | None => Err (AsException ALLSPARK_RUNTIME_ERROR) end, s).
Proof.
  intros Hs. unfold GetWeightTensor, weight_of. rewrite (bind_ok (gets id) _ s s s eq_refl). unfold weight_on_rank_is_avalibile. cbn [id].
  destruct (slot (weight_storage_ s) h !! r) as [p|] eqn:Hp.
  2: { rewrite bool_decide_false by apply is_Some_None. by rewrite orb_true_r. }
  rewrite bool_decide_true by by eexists. assert (Hav : handler_is_avalibile s h = true).
  { apply bool_decide_true. unfold slot in Hp. destruct (weight_storage_ s !! h) eqn:E; [by eexists|]. cbn in Hp. by rewrite lookup_empty in Hp. }
  rewrite Hav. cbn [negb orb]. destruct (handler_is_swapout s h r); [done|].
  destruct (mi_store s Hs h) as [Hrep _]. destruct (shared_stands (maps s) (content_of s h) _ r p Hrep Hp) as [_ (o & Ho & Hco)].
  rewrite (bind_ok _ _ s s o) by (unfold get_weight_on_rank, mbind, M_bind, gets; cbn; by rewrite Ho).
  rewrite Hco. cbn. by destruct (weights o !! name).
Qed.
Lemma weight_of_mono s s' h r name : slot (weight_storage_ s') h !! r = slot (weight_storage_ s) h !! r ->
  status_of s' h r = status_of s h r -> is_Some (handlers s !! h) -> handlers s ⊆ handlers s' -> weight_of s' h r name = weight_of s h r name.
Proof.
  intros H1 H2 [hd Hh] H3. unfold weight_of, handler_is_swapout, content_of. rewrite H1, H2, Hh. by rewrite (lookup_weaken _ _ _ _ Hh H3).
Qed.
Lemma weight_of_same s s' h r name : slot (weight_storage_ s') h !! r = slot (weight_storage_ s) h !! r ->
  status_of s' h r = status_of s h r -> handlers s' = handlers s -> weight_of s' h r name = weight_of s h r name.
Proof. intros H1 H2 H3. unfold weight_of, handler_is_swapout, content_of. by rewrite H1, H2, H3. Qed.
End invariant.
