(* ===== verification/WeightManagerTheorems.v ===== *)
(** The properties of the weight manager, and concrete runs of it. *)
From Stdlib Require Import ZArith ZifyBool Lia.
From stdpp Require Import base list gmap strings relations.
From S2P Require Import Prelude StringUtil MemoryReuse WeightSplit WeightFile FileTheorems WeightManager WeightManagerProofs.

Section theorems.
Context `{UN : Uninit} (cuda : bool) (files : bytes -> option bytes) (check : Handler -> bytes -> TensorInfo -> res AsStatus) (nranks : Z).
Abbreviation contents := (contents files check).
Hypothesis Hcopy : forall hd r m, valid_rank nranks r -> contents hd r = Some m -> map_Forall (fun _ w => copyable w) m.
Abbreviation step := (manager_step cuda files check nranks).

Lemma first_status_some m : m <> ∅ -> is_Some (first_status m).
Proof.
  intros Hm. unfold first_status. destruct (map_to_list m) as [|[r st] l] eqn:E.
  - by apply map_to_list_empty_iff in E.
  - cbn. by destruct (foldr _ None l) as [[r' st']|]; [destruct (_ <? _)|]; eexists.
Qed.
Lemma begin_defined c s : minv files check nranks s -> fst (begin_call cuda c s) <> Err UB.
Proof.
  intros Hs. destruct c as [d h r|h r|h r]; cbn; unfold load_check, GetSwapStatus, swap_out_check, swap_in_check, IsSwapEnable, no_weight, AS_THROW, mbind, M_bind, gets, throw, mret, M_ret; cbn.
  - destruct (swap_status_ s !! h) as [m|] eqn:E; cbn; [|done].
    destruct (first_status_some m (mi_status _ _ _ s Hs h m E)) as [st ->]. done.
  - destruct (cuda && _); cbn; [|done]. by destruct (status_of s h r) as [[]|]; try done; destruct (handler_is_avalibile s h).
  - destruct (cuda && _); cbn; [|done]. by destruct (status_of s h r) as [[]|]; try done; case_bool_decide.
Qed.

(** C23. Whatever the workers of the ranks load, swap out, swap in and free, and
    however the critical sections of their calls are interleaved, a weight that
    the manager gives to a worker has the value the file of the model holds for
    that worker; when it gives none it throws.  It never follows a pointer that is
    null, even when the copies in host memory are freed in between. *)
Theorem swap_keeps_weights free_swap x h r name :
  rtc (step free_swap) start x ->
  exists o, GetWeightTensor h r name (mgr x) = (o, mgr x) /\
    match o with
    | Ok w => exists hd m, handlers (mgr x) !! h = Some hd /\ valid_rank nranks r /\ contents hd r = Some m /\ m !! name = Some w
    | Err e => e = AsException ALLSPARK_RUNTIME_ERROR
    end.
Proof using Hcopy.
  intros Hx. destruct (reachable_sinv cuda files check nranks Hcopy free_swap x Hx) as [Hs _].
  eexists. split; [by apply (get_weight_eq files check nranks)|]. unfold weight_of, content_of.
  destruct (slot _ _ !! r); [|done]. destruct (handler_is_swapout _ h r); [done|].
  destruct (handlers (mgr x) !! h) as [hd|]; [|done]. case_decide; [|done].
  destruct (contents hd r) as [m|] eqn:Hm; [|done]. cbn. destruct (m !! name) as [w|] eqn:Hw; [|done]. by exists hd, m.
Qed.

(** While nobody frees the copies in host memory, every call that has passed
    its check succeeds, whatever the other workers did since, and no check reads
    what is not there. *)
Theorem calls_complete x :
  rtc (step false) start x ->
  (forall t c, calls x !! t = Some c -> exists o s, finish_call cuda files check c (mgr x) = (o, s) /\
    match o with Ok _ => True | Err e => file_error files check (mgr x) c e end /\
    (o <> Err UB -> step false x (mkSystem s (delete t (calls x))))) /\
  (forall c, fst (begin_call cuda c (mgr x)) <> Err UB).
Proof using Hcopy.
  intros Hx. destruct (reachable_sinv cuda files check nranks Hcopy false x Hx) as [Hs Hc]. split; [|intros c; by apply begin_defined].
  intros t c Ht. destruct (Hc t c Ht) as (H1 & H2 & H3).
  destruct (finish_run cuda files check nranks Hcopy c (mgr x) Hs H1 H2) as (o & s & Hrun & _ & _ & Ho); [destruct c; auto|].
  exists o, s. split_and!; [done|done|]. intros Hub. by eapply step_finish.
Qed.

Lemma notify_run h e s : notify h e s = (Ok tt, snd (notify h e s)).
Proof. done. Qed.
Lemma swap_enabled h s : cuda = true -> swap_config_ s !! h = Some true -> IsSwapEnable cuda h s = (Ok true, s).
Proof. intros -> H. unfold IsSwapEnable, gets. by rewrite H. Qed.
Lemma swap_out_run h r st s : minv files check nranks s -> cuda = true -> swap_config_ s !! h = Some true ->
  status_of s h r = Some st -> st <> SwapOut -> is_Some (weight_storage_ s !! h) ->
  exists s', SwapOutWeight cuda h r s = (Ok tt, s') /\ minv files check nranks s' /\ handlers s' = handlers s /\
    swap_config_ s' = swap_config_ s /\ swap_weight_storage_ s' = swap_weight_storage_ s /\
    slot (weight_storage_ s') h !! r = None /\
    (forall h' r', (h', r') <> (h, r) -> slot (weight_storage_ s') h' !! r' = slot (weight_storage_ s) h' !! r') /\
    (forall h' r', status_of s' h' r' = if decide ((h', r') = (h, r)) then Some SwapOut else status_of s h' r').
Proof.
  intros Hs Hcuda Hcfg Hst Hne Hav. assert (Hcheck : swap_out_check cuda h r s = (Ok true, s)).
  { unfold swap_out_check. rewrite (bind_ok _ _ _ _ _ (swap_enabled h s Hcuda Hcfg)). cbn [negb].
    rewrite (bind_ok (gets id) _ s s s eq_refl). cbn [id]. rewrite Hst. unfold handler_is_avalibile. rewrite bool_decide_true by done. by destruct st. }
  destruct (swap_out_commit_run files check nranks h r s Hs (mi_ranks _ _ _ s Hs h r st Hst)) as (s1 & Hrun & H1 & _ & _ & H2 & H3 & H4 & H5 & H6).
  unfold SwapOutWeight. rewrite (bind_ok _ _ _ _ _ Hcheck). unfold when. rewrite (bind_ok _ _ _ _ _ Hrun). rewrite notify_run.
  destruct (notify_minv files check nranks h WeightOnSwapOut s1 H1) as (H7 & _). eexists. split; [done|].
  assert (Hcfg' : swap_config_ s1 = swap_config_ s) by (unfold swap_out_commit in Hrun; by injection Hrun as <-).
  split_and!; done.
Qed.
Lemma swap_in_run h r st s x : minv files check nranks s -> cuda = true -> swap_config_ s !! h = Some true ->
  status_of s h r = Some st -> st <> SwapIn -> swap_weight_storage_ s !! h = Some x ->
  exists s', SwapInWeight cuda h r s = (Ok tt, s') /\ minv files check nranks s' /\ handlers s' = handlers s /\
    (exists q o, shared (slot (weight_storage_ s') h) r = Some q /\ maps s' !! q = Some o /\ on o = CUDA) /\
    (forall h' r', (h', r') <> (h, r) -> slot (weight_storage_ s') h' !! r' = slot (weight_storage_ s) h' !! r') /\
    (forall h' r', status_of s' h' r' = if decide ((h', r') = (h, r)) then Some SwapIn else status_of s h' r').
Proof using Hcopy.
  intros Hs Hcuda Hcfg Hst Hne Hx. assert (Hcheck : swap_in_check cuda h r s = (Ok true, s)).
  { unfold swap_in_check. rewrite (bind_ok _ _ _ _ _ (swap_enabled h s Hcuda Hcfg)). cbn [negb].
    rewrite (bind_ok (gets id) _ s s s eq_refl). cbn [id]. rewrite Hst, Hx, bool_decide_true by by eexists. by destruct st. }
  destruct (swap_in_commit_run files check nranks Hcopy h r s x Hs (mi_ranks _ _ _ s Hs h r st Hst) Hx)
    as (s1 & Hrun & H1 & _ & H2 & _ & H3 & H4 & H5).
  unfold SwapInWeight. rewrite (bind_ok _ _ _ _ _ Hcheck). unfold when. rewrite (bind_ok _ _ _ _ _ Hrun). rewrite notify_run.
  destruct (notify_minv files check nranks h WeightOnSwapIn s1 H1) as (H6 & _). eexists. split; [done|]. split_and!; done.
Qed.

(** C24. A rank whose model has its copy in host memory can be swapped out and in
    again: while it is out every access to its weights throws, afterwards it has
    on its device exactly the weights of its file, and no other rank or model
    notices. *)
Theorem swap_out_in_restores free_swap x h hd r st :
  rtc (step free_swap) start x -> cuda = true -> swap_config_ (mgr x) !! h = Some true -> handlers (mgr x) !! h = Some hd ->
  status_of (mgr x) h r = Some st -> st <> SwapOut ->
  is_Some (weight_storage_ (mgr x) !! h) -> is_Some (swap_weight_storage_ (mgr x) !! h) ->
  exists s1 s2 m, SwapOutWeight cuda h r (mgr x) = (Ok tt, s1) /\ SwapInWeight cuda h r s1 = (Ok tt, s2) /\ contents hd r = Some m /\
    (forall name, fst (GetWeightTensor h r name s1) = Err (AsException ALLSPARK_RUNTIME_ERROR)) /\
    (forall name, fst (GetWeightTensor h r name s2) = match m !! name with Some w => Ok w | None => Err (AsException ALLSPARK_RUNTIME_ERROR) end) /\
    (exists q, shared (slot (weight_storage_ s2) h) r = Some q /\ maps s2 !! q = Some (mkWeightMap CUDA m)) /\
    (forall h' r' name, (h', r') <> (h, r) ->
       fst (GetWeightTensor h' r' name s1) = fst (GetWeightTensor h' r' name (mgr x)) /\
       fst (GetWeightTensor h' r' name s2) = fst (GetWeightTensor h' r' name (mgr x))).
Proof using Hcopy.
  intros Hx Hcuda Hcfg Hh Hst Hne Hav [y Hy]. destruct (reachable_sinv cuda files check nranks Hcopy free_swap x Hx) as [Hs _].
  destruct (swap_out_run h r st (mgr x) Hs Hcuda Hcfg Hst Hne Hav) as (s1 & Hout & Hs1 & Hh1 & Hc1 & Hw1 & Hnone & Ho1 & Hst1).
  assert (Hst1r := Hst1 h r). rewrite decide_True in Hst1r by done.
  destruct (swap_in_run h r SwapOut s1 y Hs1 Hcuda) as (s2 & Hin & Hs2 & Hh2 & (q & o & Hq & Ho & Hon) & Ho2 & Hst2);
    [by rewrite Hc1|done|done|by rewrite Hw1|].
  assert (Hslot : slot (weight_storage_ s2) h !! r = Some (Some q)).
  { revert Hq. unfold shared. destruct (slot (weight_storage_ s2) h !! r) as [[?|]|]; intros [= ->]; done. }
  destruct (mi_store _ _ _ s2 Hs2 h) as [Hrep _]. destruct (Hrep r (Some q) Hslot) as (o' & Ho' & Hcont).
  cbn in Ho'. rewrite Ho in Ho'. injection Ho' as <-.
  exists s1, s2, (weights o). assert (Hcon : contents hd r = Some (weights o)).
  { unfold content_of in Hcont. rewrite Hh2, Hh1, Hh in Hcont. by case_decide. }
  split_and!; [done|done|done| | | |].
  - intros name. rewrite (get_weight_eq files check nranks) by done. unfold weight_of. by rewrite Hnone.
  - intros name. rewrite (get_weight_eq files check nranks) by done. unfold weight_of, handler_is_swapout. rewrite Hslot, Hst2, decide_True by done.
    rewrite bool_decide_false, Hcont by done. done.
  - exists q. split; [done|]. rewrite Ho, <- Hon. by destruct o.
  - intros h' r' name Hd. rewrite !(get_weight_eq files check nranks) by done. cbn [fst].
    rewrite (weight_of_same files check nranks s1 s2 h' r' name) by (by rewrite ?Hst2, ?decide_False; auto).
    by rewrite (weight_of_same files check nranks (mgr x) s1 h' r' name) by (by rewrite ?Hst1, ?decide_False; auto).
Qed.
End theorems.

(** * Concrete runs *)
(** A schedule of steps, executed. *)
Section schedule.
Context `{UN : Uninit} (cuda : bool) (files : bytes -> option bytes) (check : Handler -> bytes -> TensorInfo -> res AsStatus) (nranks : Z) (free_swap : bool).
Inductive Action := Does (o : Op) | Begins (t : Z) (c : Call) | Finishes (t : Z).
Definition act (a : Action) (x : System) : option System :=
  match a with
  | Does o => if allowed free_swap o then Some (mkSystem (snd (run_op o (mgr x))) (calls x)) else None
  | Begins t c =>
      if bool_decide (calls x !! t = None) && bool_decide (valid_rank nranks (call_rank c)) && bool_decide (is_Some (handlers (mgr x) !! call_handler c)) then
        match begin_call cuda c (mgr x) with (Ok true, s) => Some (mkSystem s (<[t := c]> (calls x))) | _ => None end
      else None
  | Finishes t =>
      match calls x !! t with
      | Some c => match finish_call cuda files check c (mgr x) with (Err UB, _) => None | (_, s) => Some (mkSystem s (delete t (calls x))) end
      | None => None
      end
  end.
Fixpoint acts (l : list Action) (x : System) : option System :=
  match l with [] => Some x | a :: l => match act a x with Some y => acts l y | None => None end end.
Lemma acts_reachable l x y : acts l x = Some y -> rtc (manager_step cuda files check nranks free_swap) x y.
Proof.
  revert x. induction l as [|a l IH]; intros x; cbn; [intros [= ->]; constructor|]. destruct (act a x) as [z|] eqn:E; [|done].
  intros Hl. eapply rtc_l; [|by apply IH]. destruct a as [o|t c|t]; cbn in E.
  - destruct (allowed free_swap o) eqn:Ha; [|done]. injection E as <-. eapply step_op; [exact Ha|]. apply surjective_pairing.
  - destruct (_ && _) eqn:Hb; [|done]. rewrite !andb_true_iff, !bool_decide_eq_true in Hb. destruct Hb as [[H1 H2] H3].
    destruct (begin_call cuda c (mgr x)) as [[[]|e] s] eqn:Hc; [|done..]. injection E as <-. by eapply step_begin.
  - destruct (calls x !! t) as [c|] eqn:Ht; [|done].
    destruct (finish_call cuda files check c (mgr x)) as [[[]|e] s] eqn:Hc; [|destruct e]; injection E as <- || done; by eapply step_finish.
Qed.
End schedule.

Module ManagerDemo.
#[local] Existing Instance FileDemo.demo_uninit.
Definition files (path : bytes) : option bytes := Some FileDemo.model_file.
Definition check (hd : Handler) : bytes -> TensorInfo -> res AsStatus := accept_all.
Definition r0 : RankInfo := mkRank 0 2.
Definition r1 : RankInfo := mkRank 1 2.
Definition copyableb (w : Weight) : bool :=
  match w with WDense x => nbytes (dtype_ x) (shape_ x) =? Z.of_nat (length (data_ x)) | _ => false end.
Definition all_copyable (o : option (gmap bytes Weight)) : bool :=
  match o with Some m => forallb (fun p => copyableb p.2) (map_to_list m) | None => true end.
Lemma all_copyable_spec o m : all_copyable o = true -> o = Some m -> map_Forall (fun _ w => copyable w) m.
Proof.
  intros Ho ->. cbn in Ho. rewrite forallb_forall in Ho. intros k w Hk. apply elem_of_map_to_list, list_elem_of_In in Hk.
  specialize (Ho _ Hk). destruct w as [x| |]; [|discriminate Ho..]. by apply Z.eqb_eq in Ho.
Qed.
Lemma copyable0 hd : all_copyable (contents files check hd r0) = true.
Proof. vm_compute. reflexivity. Qed.
Lemma copyable1 hd : all_copyable (contents files check hd r1) = true.
Proof. vm_compute. reflexivity. Qed.
Lemma files_copyable hd r m : valid_rank 2 r -> contents files check hd r = Some m -> map_Forall (fun _ w => copyable w) m.
Proof.
  intros Hr. apply all_copyable_spec. destruct r as [i n], Hr as [Hn Hi]. cbn in Hn, Hi. subst n.
  assert (Hcase : i = 0 \/ i = 1) by lia. destruct Hcase as [-> | ->]; [exact (copyable0 hd)|exact (copyable1 hd)].
Qed.
(** A model is registered with swapping enabled and loaded by both workers; then
    worker 0 is between the check and the change of a swap out. *)
Definition load_both : list Action :=
  [Does (OpRegister (lit "m") (lit "m.asparam") 7); Does (OpConfig 1 true); Begins 0 (LoadCall CUDA 1 r0); Begins 1 (LoadCall CUDA 1 r1); Finishes 1; Finishes 0].
Definition run_of (free_swap : bool) (l : list Action) : System := default start (acts true files check 2 free_swap l start).
Lemma run_of_reachable free_swap l : is_Some (acts true files check 2 free_swap l start) ->
  rtc (manager_step true files check 2 free_swap) start (run_of free_swap l).
Proof. intros [x Hx]. unfold run_of. rewrite Hx. by eapply acts_reachable. Qed.
Definition loaded : System := run_of false load_both.
Definition leaving : System := run_of false (load_both ++ [Begins 0 (OutCall 1 r0)]).
Definition bias_of (r : RankInfo) : list Z := match r with mkRank 0 _ => FileDemo.bytes_from 32 8 | _ => FileDemo.bytes_from 40 8 end.
Lemma ran l : match acts true files check 2 false l start with Some _ => true | None => false end = true -> is_Some (acts true files check 2 false l start).
Proof. by destruct (acts _ _ _ _ _ _ _). Qed.

Lemma swap_keeps_weights_witness :
  exists o, GetWeightTensor 1 r1 (lit "layer.0.bias") (mgr leaving) = (o, mgr leaving) /\
    match o with
    | Ok w => exists hd m, handlers (mgr leaving) !! 1 = Some hd /\ valid_rank 2 r1 /\ contents files check hd r1 = Some m /\ m !! lit "layer.0.bias" = Some w
    | Err e => e = AsException ALLSPARK_RUNTIME_ERROR
    end.
Proof.
  refine (swap_keeps_weights true files check 2 files_copyable false leaving 1 r1 (lit "layer.0.bias") _).
  apply run_of_reachable, ran. vm_compute. reflexivity.
Defined.
Lemma calls_complete_witness :
  (forall t c, calls leaving !! t = Some c -> exists o s, finish_call true files check c (mgr leaving) = (o, s) /\
     match o with Ok _ => True | Err e => file_error files check (mgr leaving) c e end /\
     (o <> Err UB -> manager_step true files check 2 false leaving (mkSystem s (delete t (calls leaving))))) /\
  (forall c, fst (begin_call true c (mgr leaving)) <> Err UB).
Proof. refine (calls_complete true files check 2 files_copyable leaving _). apply run_of_reachable, ran. vm_compute. reflexivity. Defined.
Definition model : Handler := mkHandler 0 (lit "m") (lit "m.asparam") false 0.
Lemma swap_out_in_restores_witness :
  exists s1 s2 m, SwapOutWeight true 1 r0 (mgr loaded) = (Ok tt, s1) /\ SwapInWeight true 1 r0 s1 = (Ok tt, s2) /\ contents files check model r0 = Some m /\
    (forall name, fst (GetWeightTensor 1 r0 name s1) = Err (AsException ALLSPARK_RUNTIME_ERROR)) /\
    (forall name, fst (GetWeightTensor 1 r0 name s2) = match m !! name with Some w => Ok w | None => Err (AsException ALLSPARK_RUNTIME_ERROR) end) /\
    (exists q, shared (slot (weight_storage_ s2) 1) r0 = Some q /\ maps s2 !! q = Some (mkWeightMap CUDA m)) /\
    (forall h' r' name, (h', r') <> (1, r0) ->
       fst (GetWeightTensor h' r' name s1) = fst (GetWeightTensor h' r' name (mgr loaded)) /\
       fst (GetWeightTensor h' r' name s2) = fst (GetWeightTensor h' r' name (mgr loaded))).
Proof.
  refine (swap_out_in_restores true files check 2 files_copyable false loaded 1 model r0 SwapInit _ eq_refl _ _ _ _ _ _).
  - apply run_of_reachable, ran. vm_compute. reflexivity.
  - vm_compute. reflexivity.
  - vm_compute. reflexivity.
  - vm_compute. reflexivity.
  - discriminate.
  - eexists. vm_compute. reflexivity.
  - eexists. vm_compute. reflexivity.
Defined.

(** ** What the manager gets wrong *)
Definition swap_cycle (t : Z) (r : RankInfo) : list Action := [Begins t (OutCall 1 r); Finishes t; Begins t (InCall 1 r); Finishes t].
(** The status of the first rank decides for all: after it came back, a load for
    the other one, which is swapped out, succeeds and loads nothing. *)
Lemma load_of_other_rank_ignored :
  let s := mgr (run_of false (load_both ++ swap_cycle 0 r0 ++ [Begins 1 (OutCall 1 r1); Finishes 1])) in
  LoadWeightForModel true files check CUDA 1 r1 s = (Ok ALLSPARK_SUCCESS, s) /\
  fst (GetWeightTensor 1 r1 (lit "layer.0.bias") s) = Err (AsException ALLSPARK_RUNTIME_ERROR).
Proof. split; vm_compute; reflexivity. Qed.
(** The status outlives the weights: a model that was swapped in once and freed
    cannot be loaded again. *)
Lemma reload_ignored :
  let s := mgr (run_of false (load_both ++ swap_cycle 0 r0 ++ swap_cycle 1 r1 ++ [Does (OpFree 1)])) in
  LoadWeightForModel true files check CUDA 1 r0 s = (Ok ALLSPARK_SUCCESS, s) /\
  fst (GetWeightTensor 1 r0 (lit "layer.0.bias") s) = Err (AsException ALLSPARK_RUNTIME_ERROR).
Proof. split; vm_compute; reflexivity. Qed.
(** Swapping out saves nothing: a rank that leaves before the last one is loaded
    has lost its weights. *)
Lemma early_swap_out_loses :
  let s := mgr (run_of false (take 3 load_both ++ [Finishes 0; Begins 0 (OutCall 1 r0); Finishes 0; Begins 1 (LoadCall CUDA 1 r1); Finishes 1])) in
  weight_of files check 2 s 1 r1 (lit "layer.0.bias") <> None /\
  SwapInWeight true 1 r0 s = (Err (AsException ALLSPARK_RUNTIME_ERROR), s).
Proof. split; [vm_compute; discriminate|vm_compute; reflexivity]. Qed.
(** The number of models is the next identity, and it shrinks. *)
Lemma ids_collide :
  let register n := Does (OpRegister (lit n) (lit "m.asparam") (Z.of_nat (String.length n))) in
  let s := mgr (run_of false [register "m"; register "nn"; Begins 0 (LoadCall CUDA 1 r0); Finishes 0; Does (OpFree 1); register "ppp"]) in
  (h_id <$> handlers s !! 2) = Some 1 /\ (h_id <$> handlers s !! 3) = Some 1 /\ proto_store_ s !! 1 = Some 3.
Proof. vm_compute. split_and!; reflexivity. Qed.
(** With every rank swapped out there is no first rank. *)
Lemma save_swapped_out_undefined :
  fst (SaveWeights 1 (mgr (run_of false (load_both ++ [Begins 0 (OutCall 1 r0); Finishes 0; Begins 1 (OutCall 1 r1); Finishes 1])))) = Err UB.
Proof. vm_compute. reflexivity. Qed.
(** The copies in host memory are freed between the check and the change of a
    swap in: the null map that the rank has then is followed. *)
Lemma freed_copy_undefined :
  let x := run_of true (load_both ++ [Begins 0 (OutCall 1 r0); Finishes 0; Begins 0 (InCall 1 r0); Does (OpFreeSwap 1)]) in
  calls x !! 0 = Some (InCall 1 r0) /\ fst (finish_call true files check (InCall 1 r0) (mgr x)) = Err UB.
Proof. split; vm_compute; reflexivity. Qed.
End ManagerDemo.
