(* ===== verification/Lora.v ===== *)
(** Adapters (runtime/weight/weight_manager_lora.h, weight_manager_lora.cpp,
    core/model/model_lora.cpp, utility/file_util.h): the adapters that a rank of a
    model has loaded, in a fixed number of slots of a weight manager of their own,
    and the names of their weights.

    Assertions are compiled out of a release build and have no definition here. *)
From Stdlib Require Import ZArith ZifyBool Lia.
From stdpp Require Import base list gmap strings.
From S2P Require Import Prelude StringUtil MemoryReuse WeightSplit WeightFile WeightManager.

(** * Strings *)
(** [std::string::rfind]; [None] is npos. *)
Fixpoint rfind (s pat : bytes) : option nat :=
  match s with
  | [] => if starts_with pat [] then Some 0%nat else None
  | _ :: s' => match rfind s' pat with Some n => Some (S n) | None => if starts_with pat s then Some 0%nat else None end
  end.
(** [std::string::replace] and [substr] from a position that [rfind] found. *)
Definition replace_at (s : bytes) (pos : option nat) (n : nat) (by' : bytes) : res bytes :=
  match pos with Some p => Ok (take p s ++ by' ++ drop (p + n) s) | None => Err OutOfRange end.
Definition suffix_at (s : bytes) (pos : option nat) : res bytes :=
  match pos with Some p => Ok (drop p s) | None => Err OutOfRange end.
Definition slash : bytes := lit "/".
Definition filename (m_path : bytes) : bytes :=
  match rfind m_path slash with Some pos => drop (pos + 1) m_path | None => m_path end.
Definition parent_path (m_path : bytes) : bytes :=
  match rfind m_path slash with Some pos => take pos m_path | None => [] end.

(** ** Names of weights *)
Definition MakeLoraTensorName (op_name base_weight_name : bytes) (is_bias : bool) : res bytes :=
  match suffix_at op_name (rfind op_name (lit ".lora_")) with
  | Err e => Err e
  | Ok lora_suffix =>
      match replace_at base_weight_name (rfind base_weight_name (lit ".weight")) 0 lora_suffix with
      | Err e => Err e
      | Ok ret => if is_bias then replace_at ret (rfind ret (lit ".weight")) 7 (lit ".bias") else Ok ret
      end
  end.
Definition GetBiasName (lora_weight_name : bytes) : bytes :=
  match replace_at lora_weight_name (rfind lora_weight_name (lit ".weight")) 7 (lit ".bias") with
  | Ok s => s
  | Err _ => lora_weight_name ++ lit ".bias"
  end.

(** * The manager of adapters *)
Record LoraManager := mkLora {
  base : Manager;
  lora_name_idx_map_ : gmap bytes nat;
  rank_info_ : RankInfo;
  lora_max_num_ : Z;
}.
Definition set_base (b : Manager) (s : LoraManager) : LoraManager := mkLora b (lora_name_idx_map_ s) (rank_info_ s) (lora_max_num_ s).
Definition set_idx_map (f : gmap bytes nat -> gmap bytes nat) (s : LoraManager) : LoraManager :=
  mkLora (base s) (f (lora_name_idx_map_ s)) (rank_info_ s) (lora_max_num_ s).
(** A negative size is a huge one. *)
Definition Create (lora_max_num : Z) (rank_info : RankInfo) : res LoraManager :=
  if lora_max_num <? 0 then Err LengthError
  else Ok (mkLora (set_store (fun _ => List.repeat None (Z.to_nat lora_max_num)) empty_manager) ∅ rank_info lora_max_num).

(** The first of [n] slots that is free, [n] if none is; a slot that is not in
    the vector is undefined. *)
Fixpoint free_slot (n : nat) (l : list (option Z)) : option nat :=
  match n with
  | O => Some 0%nat
  | S n => match l with [] => None | None :: _ => Some 0%nat | Some _ :: l => S <$> free_slot n l end
  end.
Record LoraConfig := mkLoraConfig { cfg_weights_path : bytes; cfg_lora_max_num : Z; cfg_lora_max_rank : Z }.

Section lora.
(** The files; the type of inference; the configuration of the model. *)
Context `{UN : Uninit} (cuda : bool) (files : bytes -> option bytes) (inference_dtype : DataType) (cfg : LoraConfig).
Abbreviation L := (M LoraManager).
Definition on_base {A} (m : M Manager A) : L A := zoom base set_base m.

Definition ValidateWeight (hd : Handler) (name : bytes) (info : TensorInfo) : res AsStatus :=
  if negb (bool_decide (dtype info = Some inference_dtype)) then Ok ALLSPARK_PARAM_ERROR
  else
    match find name (lit ".lora_B") 0 with
    | None => Ok ALLSPARK_SUCCESS
    | Some _ =>
        match shape info with
        | [] => Err UB
        | d :: _ => Ok (if lora_max_rank hd <? d then ALLSPARK_LORA_RANK_EXCEED_LIMIT_ERROR else ALLSPARK_SUCCESS)
        end
    end.

Definition RegisterLora (name path : bytes) (max_rank : Z) : L Z :=
  s ← gets id;
  match free_slot (Z.to_nat (lora_max_num_ s)) (weight_handler_store_ (base s)) with
  | None => throw UB
  | Some new_id =>
      if negb (Z.of_nat new_id <? lora_max_num_ s) then throw CheckFailed
      else
        let p := next (handlers (base s)) in
        on_base (modify (set_handlers <[p := mkHandler (Z.of_nat new_id) name path true max_rank]>));;
        on_base (modify (set_store <[new_id := Some p]>));;
        modify (set_idx_map <[name := new_id]>);;
        mret p
  end.
(** [weight_handler_store_.at(lora_name_idx_map_.at(lora_name))] *)
Definition handle_at (lora_name : bytes) : L (nat * option Z) :=
  s ← gets id;
  match lora_name_idx_map_ s !! lora_name with
  | None => throw OutOfRange
  | Some idx => match weight_handler_store_ (base s) !! idx with Some h => mret (idx, h) | None => throw OutOfRange end
  end.
(** A null handle is no key of the tables. *)
Definition enforce_avalibile (h : option Z) : L Z :=
  s ← gets id;
  match h with
  | Some p => if handler_is_avalibile (base s) p then mret p else throw CheckFailed
  | None => throw CheckFailed
  end.
Definition UnRegisterLora (lora_name : bytes) : L unit :=
  '(idx, h) ← handle_at lora_name;
  p ← enforce_avalibile h;
  r ← gets rank_info_;
  on_base (modify (set_storage (fun x => <[p := delete r (slot x p)]> x)));;
  on_base (modify (set_storage (delete p)));;
  on_base (modify (set_store <[idx := None]>));;
  modify (set_idx_map (delete lora_name)).
Definition IsLoraExists (s : LoraManager) (lora_name : bytes) : bool := bool_decide (is_Some (lora_name_idx_map_ s !! lora_name)).
Definition GetNumLoras (s : LoraManager) : Z := Z.of_nat (size (lora_name_idx_map_ s)).
Definition enforce_exists (lora_name : bytes) : L unit :=
  s ← gets id; if IsLoraExists s lora_name then mret tt else throw CheckFailed.
Definition GetHandleByName (lora_name : bytes) : L (option Z) :=
  enforce_exists lora_name;; '(_, h) ← handle_at lora_name; mret h.
Definition GetLoraTensorByName (lora_name tensor_name : bytes) : L Weight :=
  h ← GetHandleByName lora_name;
  r ← gets rank_info_;
  match h with Some p => on_base (GetWeightTensor p r tensor_name) | None => on_base no_weight end.
Definition HasLoraBias (lora_name lora_weight_name : bytes) : L bool :=
  h ← GetHandleByName lora_name;
  match replace_at lora_weight_name (rfind lora_weight_name (lit ".weight")) 7 (lit ".bias") with
  | Err e => throw e
  | Ok lora_bias_name =>
      s ← gets id;
      match h with
      | None => on_base no_weight
      | Some p =>
          if negb (handler_is_avalibile (base s) p) || negb (weight_on_rank_is_avalibile (base s) p (rank_info_ s)) then on_base no_weight
          else if handler_is_swapout (base s) p (rank_info_ s) then on_base no_weight
          else m ← on_base (get_weight_on_rank p (rank_info_ s)); mret (bool_decide (is_Some (weights m !! lora_bias_name)))
      end
  end.

(** * Loading and unloading by name *)
(** The name and the file of an adapter; the engine refuses an empty name. *)
Definition lora_target (lora_name_or_path : bytes) : res (bytes * bytes) :=
  match lora_name_or_path with
  | [] => Err UB
  | c :: _ =>
      if c =? 47 then
        let file := filename lora_name_or_path in
        Ok (match find file (lit ".aslora") 0 with Some n => take n file | None => file end, lora_name_or_path)
      else Ok (lora_name_or_path, parent_path (cfg_weights_path cfg) ++ slash ++ lora_name_or_path ++ lit ".aslora")
  end.
Definition LoadLoraByName (device : Device) (lora_name_or_path : bytes) : L AsStatus :=
  s ← gets id;
  if cfg_lora_max_num cfg <=? GetNumLoras s then mret ALLSPARK_LORA_NUM_EXCEED_LIMIT_ERROR
  else
    match lora_target lora_name_or_path with
    | Err e => throw e
    | Ok (lora_name, lora_path) =>
        if IsLoraExists s lora_name then mret ALLSPARK_SUCCESS
        else
          p ← RegisterLora lora_name lora_path (cfg_lora_max_rank cfg);
          on_base (SetSwapConfig p false);;
          status ← on_base (LoadWeightForModel cuda files ValidateWeight device p (rank_info_ s));
          (if negb (bool_decide (status = ALLSPARK_SUCCESS)) then UnRegisterLora lora_name else mret tt);;
          mret status
    end.
(** The adapters of a model and, for each operator in [topo_ops_], the names it has
    to reload.  [topo_ops_] holds the operators of the decoder and of the generation
    graph; those of the other graphs are not in the list and are told nothing. *)
Record Loras := mkLoras { lora_manager_ : LoraManager; tainted_lora_names_ : list (gset bytes) }.
Definition AddTaintedStatus (lora_name : bytes) (x : gset bytes) : gset bytes := {[lora_name]} ∪ x.
Definition UnloadLoraByName (lora_name : bytes) : M Loras AsStatus :=
  s ← gets id;
  if negb (IsLoraExists (lora_manager_ s) lora_name) then mret ALLSPARK_SUCCESS
  else
    zoom lora_manager_ (fun m x => mkLoras m (tainted_lora_names_ x)) (UnRegisterLora lora_name);;
    modify (fun x => mkLoras (lora_manager_ x) (AddTaintedStatus lora_name <$> tainted_lora_names_ x));;
    mret ALLSPARK_SUCCESS.

(** Calls of a rank in any order.  A failed check ends the process. *)
Definition survives {A} (o : res A) : bool := match o with Err CheckFailed | Err UB | Err Hang => false | _ => true end.
Inductive lora_step (device : Device) : Loras -> Loras -> Prop :=
  | step_load name s o m : LoadLoraByName device name (lora_manager_ s) = (o, m) -> survives o = true ->
      lora_step device s (mkLoras m (tainted_lora_names_ s))
  | step_unload name s o s' : UnloadLoraByName name s = (o, s') -> survives o = true -> lora_step device s s'.
End lora.
