(* ===== verification/LoraProofs.v ===== *)
(** The slots and names of adapters stay consistent, and what registering,
    loading and unloading do to them. *)
From Stdlib Require Import ZArith ZifyBool Lia.
From stdpp Require Import base list gmap strings relations.
From S2P Require Import Prelude StringUtil MemoryReuse WeightSplit WeightFile WeightManager WeightManagerProofs Lora.

(** * Strings *)
Lemma rfind_app s t pat n : rfind t pat = Some n -> rfind (s ++ t) pat = Some (length s + n)%nat.
Proof. intros Ht. induction s as [|c s IH]; [done|]. cbn. by rewrite IH. Qed.

(** * Slots *)
Lemma free_slot_spec n l : length l = n ->
  (exists i, free_slot n l = Some i /\ l !! i = Some None) \/
  (free_slot n l = Some n /\ forall i, (i < n)%nat -> exists p, l !! i = Some (Some p)).
Proof.
  intros <-. induction l as [|[p|] l IH]; cbn.
  - right. split; [done|]. lia.
  - destruct IH as [(i & -> & Hi)|[-> Hall]]; [left; by exists (S i)|]. right. split; [done|]. intros [|i] Hi; [by exists p|]. apply Hall. lia.
  - left. by exists 0%nat.
Qed.
Lemma map_values_bound (m : gmap bytes nat) n :
  (forall k i, m !! k = Some i -> (i < n)%nat) -> (forall k k' i, m !! k = Some i -> m !! k' = Some i -> k = k') -> (size m <= n)%nat.
Proof.
  intros Hlt Hinj. rewrite <- (length_seq n 0). rewrite <- length_map_to_list, <- (length_fmap snd (map_to_list m)). apply submseteq_length.
  apply NoDup_submseteq.
  - apply NoDup_fmap_2_strong; [|apply NoDup_map_to_list]. intros [k i] [k' j] Hk Hk' [= Hij]. cbn in Hij. subst j.
    apply elem_of_map_to_list in Hk, Hk'. by rewrite (Hinj k k' i).
  - intros i Hi. apply list_elem_of_fmap in Hi as ([k j] & -> & Hk). apply elem_of_map_to_list in Hk. apply elem_of_seq. specialize (Hlt k j Hk). cbn. lia.
Qed.
Lemma map_values_all (m : gmap bytes nat) n : (forall i, (i < n)%nat -> exists k, m !! k = Some i) -> (n <= size m)%nat.
Proof.
  intros Hall. rewrite <- (length_seq n 0) at 1. rewrite <- length_map_to_list, <- (length_fmap snd (map_to_list m)). apply submseteq_length.
  apply NoDup_submseteq; [apply NoDup_seq|]. intros i Hi. apply elem_of_seq in Hi. destruct (Hall i) as [k Hk]; [lia|].
  apply list_elem_of_fmap. exists (k, i). split; [done|]. by apply elem_of_map_to_list.
Qed.

Section invariant.
Context `{UN : Uninit} (cuda : bool) (files : bytes -> option bytes) (inference_dtype : DataType) (cfg : LoraConfig) (r : RankInfo).
Abbreviation check := (ValidateWeight inference_dtype).
Abbreviation n := (rank_size r).
Hypothesis Hr : valid_rank n r.
Abbreviation max := (cfg_lora_max_num cfg).
Abbreviation Weights := (gmap bytes Weight).

Record linv (s : LoraManager) : Prop := mkLinv {
  li_base : minv files check n (base s);
  li_rank : rank_info_ s = r;
  li_max : lora_max_num_ s = max;
  li_len : Z.of_nat (length (weight_handler_store_ (base s))) = max;
  li_slot : forall i p, weight_handler_store_ (base s) !! i = Some (Some p) -> exists hd,
    handlers (base s) !! p = Some hd /\ is_lora_cfg hd = true /\ lora_max_rank hd = cfg_lora_max_rank cfg /\ lora_name_idx_map_ s !! model_name hd = Some i;
  li_name : forall name i, lora_name_idx_map_ s !! name = Some i -> exists p hd,
    weight_handler_store_ (base s) !! i = Some (Some p) /\ handlers (base s) !! p = Some hd /\ model_name hd = name;
  li_used : forall p x, weight_storage_ (base s) !! p = Some x -> is_Some (x !! r) /\ exists i, weight_handler_store_ (base s) !! i = Some (Some p);
  li_status : forall p, is_Some (swap_status_ (base s) !! p) -> is_Some (handlers (base s) !! p);
  li_init : forall p r' st, status_of (base s) p r' = Some st -> st = SwapInit;
}.
(** Names that are equal or share a slot. *)
Lemma slots_injective s name name' i : linv s -> lora_name_idx_map_ s !! name = Some i -> lora_name_idx_map_ s !! name' = Some i -> name = name'.
Proof.
  intros Hs H1 H2. destruct (li_name s Hs _ _ H1) as (p & hd & Hp & Hh & <-). destruct (li_name s Hs _ _ H2) as (p' & hd' & Hp' & Hh' & <-).
  congruence.
Qed.
Lemma slot_lt s name i : linv s -> lora_name_idx_map_ s !! name = Some i -> (i < Z.to_nat max)%nat.
Proof.
  intros Hs H1. destruct (li_name s Hs _ _ H1) as (p & hd & Hp & _). apply lookup_lt_Some in Hp. pose proof (li_len s Hs). lia.
Qed.
Lemma num_loras s : linv s -> GetNumLoras s <= max.
Proof.
  intros Hs. unfold GetNumLoras. pose proof (li_len s Hs).
  enough (size (lora_name_idx_map_ s) <= Z.to_nat max)%nat by lia. apply map_values_bound; [intros k i; by apply slot_lt|intros k k' i; by apply slots_injective].
Qed.
Lemma free_when_room s : linv s -> GetNumLoras s < max ->
  exists i, free_slot (Z.to_nat (lora_max_num_ s)) (weight_handler_store_ (base s)) = Some i /\ weight_handler_store_ (base s) !! i = Some None.
Proof.
  intros Hs Hroom. pose proof (li_len s Hs) as Hlen. rewrite (li_max s Hs).
  destruct (free_slot_spec (Z.to_nat max) (weight_handler_store_ (base s))) as [Hfree|[_ Hall]]; [lia|done|]. exfalso.
  unfold GetNumLoras in Hroom. enough (Z.to_nat max <= size (lora_name_idx_map_ s))%nat by lia. apply map_values_all.
  intros i Hi. destruct (Hall i Hi) as [p Hp]. destruct (li_slot s Hs i p Hp) as (hd & _ & _ & _ & Hn). by eexists.
Qed.

(** The weights a name stands for. *)
Definition handle_of (s : LoraManager) (name : bytes) : option Z :=
  i ← lora_name_idx_map_ s !! name; mjoin (weight_handler_store_ (base s) !! i).
Definition lora_weight (s : LoraManager) (name tensor : bytes) : option Weight :=
  p ← handle_of s name; weight_of files check n (base s) p r tensor.
Lemma handle_of_spec s name : linv s -> match handle_of s name with
  | Some p => exists i hd, lora_name_idx_map_ s !! name = Some i /\ weight_handler_store_ (base s) !! i = Some (Some p) /\
      handlers (base s) !! p = Some hd /\ model_name hd = name
  | None => lora_name_idx_map_ s !! name = None end.
Proof.
  intros Hs. unfold handle_of. destruct (lora_name_idx_map_ s !! name) as [i|] eqn:E; [|done]. cbn.
  destruct (li_name s Hs _ _ E) as (p & hd & Hp & Hh & Hn). rewrite Hp. cbn. by exists i, hd.
Qed.
Lemma get_handle_run s name : linv s ->
  GetHandleByName name s = (match handle_of s name with Some p => Ok (Some p) | None => Err CheckFailed end, s).
Proof.
  intros Hs. pose proof (handle_of_spec s name Hs) as Hspec. unfold GetHandleByName, enforce_exists, handle_at, IsLoraExists, mbind, M_bind, gets. cbn.
  destruct (handle_of s name) as [p|].
  - destruct Hspec as (i & hd & Hi & Hp & _). rewrite Hi, bool_decide_true by by eexists. cbn. by rewrite Hi, Hp.
  - rewrite Hspec, bool_decide_false by apply is_Some_None. done.
Qed.
Lemma get_lora_run s name tensor : linv s -> GetLoraTensorByName name tensor s =
  (match handle_of s name with
   | Some _ => match lora_weight s name tensor with Some w => Ok w | None => Err (AsException ALLSPARK_RUNTIME_ERROR) end
   | None => Err CheckFailed end, s).
Proof.
  intros Hs. unfold GetLoraTensorByName, lora_weight, mbind at 1, M_bind. rewrite get_handle_run by done.
  destruct (handle_of s name) as [p|]; [|done]. rewrite (bind_ok (gets rank_info_) _ s s _ eq_refl). unfold on_base, zoom.
  rewrite (get_weight_eq files check n) by apply Hs. rewrite (li_rank s Hs). cbn. by destruct s.
Qed.

(** ** What an operation leaves to the other adapters *)
Definition others_kept (name : bytes) (s s' : LoraManager) : Prop :=
  forall name', name' <> name -> handle_of s' name' = handle_of s name' /\ forall tensor, lora_weight s' name' tensor = lora_weight s name' tensor.
Lemma others_kept_intro name p s s' : linv s -> handlers (base s) ⊆ handlers (base s') ->
  (forall p', p' <> p -> weight_storage_ (base s') !! p' = weight_storage_ (base s) !! p' /\ swap_status_ (base s') !! p' = swap_status_ (base s) !! p') ->
  (forall name', name' <> name -> handle_of s' name' = handle_of s name' /\ handle_of s name' <> Some p) -> others_kept name s s'.
Proof.
  intros Hs Hh Hp Hn name' Hne. destruct (Hn name' Hne) as [H1 H2]. split; [done|]. intros tensor. unfold lora_weight. rewrite H1.
  pose proof (handle_of_spec s name' Hs) as Hspec. destruct (handle_of s name') as [p'|]; [|done]. cbn.
  destruct Hspec as (i & hd & _ & _ & Hhd & _). assert (Hne' : p' <> p) by congruence. destruct (Hp p' Hne') as [H3 H4].
  apply weight_of_mono; [unfold slot; by rewrite H3|unfold status_of; by rewrite H4|by eexists|done].
Qed.
Lemma others_kept_trans name s1 s2 s3 : others_kept name s1 s2 -> others_kept name s2 s3 -> others_kept name s1 s3.
Proof.
  intros H1 H2 name' Hne. destruct (H1 name' Hne) as [H3 H4], (H2 name' Hne) as [H5 H6]. split; [by rewrite H5|]. intros t. by rewrite H6.
Qed.
Lemma fresh_handle s name : linv s -> handle_of s name <> Some (next (handlers (base s))).
Proof.
  intros Hs Heq. pose proof (handle_of_spec s name Hs) as Hspec. rewrite Heq in Hspec. destruct Hspec as (i & hd & _ & _ & Hh & _).
  by rewrite next_fresh in Hh.
Qed.
Lemma used_handler s p : linv s -> is_Some (weight_storage_ (base s) !! p) -> is_Some (handlers (base s) !! p).
Proof. intros Hs [x Hx]. destruct (li_used s Hs p x Hx) as [_ [i Hi]]. destruct (li_slot s Hs i p Hi) as (hd & Hh & _). by eexists. Qed.

(** ** Registering *)
Definition registered (i : nat) (name path : bytes) (s : LoraManager) : LoraManager :=
  let p := next (handlers (base s)) in
  set_idx_map <[name := i]> (set_base (set_store <[i := Some p]>
    (set_handlers <[p := mkHandler (Z.of_nat i) name path true (cfg_lora_max_rank cfg)]> (base s))) s).
Lemma registered_linv i name path s : linv s -> lora_name_idx_map_ s !! name = None -> weight_handler_store_ (base s) !! i = Some None ->
  linv (registered i name path s).
Proof.
  intros Hs Hname Hi. set (p := next (handlers (base s))). set (hd := mkHandler (Z.of_nat i) name path true (cfg_lora_max_rank cfg)).
  assert (Hsub : handlers (base s) ⊆ <[p := hd]> (handlers (base s))) by apply insert_subseteq, next_fresh.
  assert (Hilt := lookup_lt_Some _ _ _ Hi). constructor; cbn.
  - by apply (minv_mono files check n (base s)); [apply Hs|..].
  - apply Hs.
  - apply Hs.
  - rewrite length_insert. apply Hs.
  - intros j q Hq. destruct (decide (i = j)) as [<-|Hne].
    + rewrite list_lookup_insert_eq in Hq by done. injection Hq as <-. exists hd. by rewrite !lookup_insert_eq.
    + rewrite list_lookup_insert_ne in Hq by done. destruct (li_slot s Hs j q Hq) as (hd' & H1 & H2 & H3 & H4). exists hd'.
      split; [by eapply lookup_weaken|]. split_and!; [done|done|]. rewrite lookup_insert_ne; [done|]. intros Heq. rewrite <- Heq, Hname in H4. done.
  - intros name' j. rewrite lookup_insert_Some. intros [[<- <-]|[Hne Hj]].
    + exists p, hd. rewrite list_lookup_insert_eq by done. by rewrite lookup_insert_eq.
    + destruct (li_name s Hs name' j Hj) as (q & hd' & H1 & H2 & H3). exists q, hd'.
      rewrite list_lookup_insert_ne by congruence. split_and!; [done|by eapply lookup_weaken|done].
  - intros q x Hx. destruct (li_used s Hs q x Hx) as [H1 [j Hj]]. split; [done|]. exists j. rewrite list_lookup_insert_ne; [done|congruence].
  - intros q Hq. destruct (li_status s Hs q Hq) as [hd' Hh]. exists hd'. by eapply lookup_weaken.
  - apply Hs.
Qed.
Lemma register_run name path s : linv s -> lora_name_idx_map_ s !! name = None -> GetNumLoras s < max ->
  exists i, RegisterLora name path (cfg_lora_max_rank cfg) s = (Ok (next (handlers (base s))), registered i name path s) /\
    weight_handler_store_ (base s) !! i = Some None /\ linv (registered i name path s) /\
    handle_of (registered i name path s) name = Some (next (handlers (base s))) /\ others_kept name s (registered i name path s) /\
    GetNumLoras (registered i name path s) = GetNumLoras s + 1.
Proof.
  intros Hs Hname Hroom. destruct (free_when_room s Hs Hroom) as (i & Hfree & Hi). exists i. assert (Hilt := lookup_lt_Some _ _ _ Hi).
  assert (Hinv := registered_linv i name path s Hs Hname Hi). split_and!; [|done|done| | |].
  - unfold RegisterLora. rewrite (bind_ok (gets id) _ s s s eq_refl). cbn [id]. rewrite Hfree.
    replace (Z.of_nat i <? lora_max_num_ s) with true by (rewrite (li_max s Hs); pose proof (li_len s Hs); lia). done.
  - unfold handle_of. cbn. rewrite lookup_insert_eq. cbn. by rewrite list_lookup_insert_eq.
  - apply (others_kept_intro name (next (handlers (base s)))); [done|apply insert_subseteq, next_fresh|done|].
    intros name' Hne. split; [|by apply fresh_handle]. unfold handle_of. cbn. rewrite lookup_insert_ne by done.
    destruct (lora_name_idx_map_ s !! name') as [j|] eqn:E; [|done]. cbn. rewrite list_lookup_insert_ne; [done|].
    intros <-. destruct (li_name s Hs _ _ E) as (q & hd & Hq & _). congruence.
  - unfold GetNumLoras. cbn. rewrite map_size_insert_None by done. lia.
Qed.

(** ** Loading the weights of a registered adapter *)
Definition stored (d : Device) (p : Z) (m : Weights) (b : Manager) : Manager :=
  snd (notify p WeightOnLoad (set_status p r SwapInit (set_storage (fun x => <[p := <[r := Some (next (maps b))]> (slot x p)]> x)
    (set_maps <[next (maps b) := mkWeightMap d m]> b)))).
Lemma load_lora_run d p hd b : handlers b !! p = Some hd -> is_lora_cfg hd = true -> swap_status_ b !! p = None ->
  LoadWeightForModel cuda files check d p r b =
  (match read_file files check hd r with
   | Ok (st, _) => Ok st
   | Err e => Err e
   end, match contents files check hd r with Some m => stored d p m b | None => b end).
Proof.
  intros Hh Hl Hst. unfold LoadWeightForModel. assert (Hcheck : load_check p b = (Ok true, b)).
  { unfold load_check. rewrite (bind_ok (GetSwapStatus p) _ b b SwapInit); [done|].
    unfold GetSwapStatus. rewrite (bind_ok (gets id) _ b b b eq_refl). cbn [id]. by rewrite Hst. }
  rewrite (bind_ok _ _ _ _ _ Hcheck). cbn [negb]. unfold load_file. rewrite (bind_ok (handler_of p) _ b b hd) by (unfold handler_of, mbind, M_bind, gets; cbn; by rewrite Hh).
  unfold contents. destruct (read_file files check hd r) as [[st m]|e]; [|done]. destruct (bool_decide_reflect (st = ALLSPARK_SUCCESS)) as [->|Hne].
  - cbn [negb]. assert (Hs : store_weights cuda d p r m b = (Ok tt, set_status p r SwapInit (set_storage (fun x => <[p := <[r := Some (next (maps b))]> (slot x p)]> x)
      (set_maps <[next (maps b) := mkWeightMap d m]> b)))).
    { unfold store_weights. rewrite (bind_ok (gets id) _ b b b eq_refl). cbv beta zeta.
      erewrite (bind_ok (modify (set_maps _))); [|reflexivity]. erewrite (bind_ok (modify (set_storage _))); [|reflexivity].
      erewrite (bind_ok (handler_of p)); [|unfold handler_of, mbind, M_bind, gets; cbn; rewrite Hh; reflexivity]. rewrite Hl. done. }
    rewrite (bind_ok _ _ _ _ _ Hs). done.
  - cbn [negb]. by destruct st.
Qed.
Lemma stored_linv d name p hd m s : linv s -> handle_of s name = Some p -> handlers (base s) !! p = Some hd -> contents files check hd r = Some m ->
  linv (set_base (stored d p m (base s)) s).
Proof using Hr.
  intros Hs Hp Hh Hm. pose proof (handle_of_spec s name Hs) as Hspec. rewrite Hp in Hspec. destruct Hspec as (i & _ & _ & Hi & _).
  assert (Hminv : minv files check n (stored d p m (base s))).
  { apply (proj1 (notify_minv files check n p WeightOnLoad _ (minv_set_status files check n _ p r SwapInit
      (minv_stored files check n d p r m hd (base s) (li_base s Hs) Hh Hm Hr) Hr))). }
  constructor; [exact Hminv|cbn; try apply Hs..].
  - intros q x Hx. destruct (decide (p = q)) as [<-|Hne].
    + rewrite lookup_insert_eq in Hx. injection Hx as <-. rewrite lookup_insert_eq. split; [by eexists|by exists i].
    + rewrite lookup_insert_ne in Hx by done. by apply (li_used s Hs q).
  - intros q. destruct (decide (p = q)) as [<-|Hne]; [intros _; by eexists|]. rewrite lookup_insert_ne by done. apply (li_status s Hs).
  - intros q r' st. change (status_of _ q r') with (status_of (set_status p r SwapInit (base s)) q r'). rewrite status_set.
    case_decide; [by intros [= <-]|]. apply (li_init s Hs).
Qed.
Lemma stored_weights d name p hd m s tensor : linv s -> handle_of s name = Some p -> handlers (base s) !! p = Some hd -> contents files check hd r = Some m ->
  lora_weight (set_base (stored d p m (base s)) s) name tensor = m !! tensor.
Proof using Hr.
  intros Hs Hp Hh Hm. unfold lora_weight. change (handle_of (set_base (stored d p m (base s)) s) name) with (handle_of s name). rewrite Hp. cbn.
  unfold weight_of. cbn. rewrite slot_insert, decide_True, lookup_insert_eq by done.
  unfold handler_is_swapout. change (status_of _ p r) with (status_of (set_status p r SwapInit (base s)) p r). rewrite status_set, decide_True by done.
  rewrite bool_decide_false by done. unfold content_of. cbn. rewrite Hh, decide_True by done. by rewrite Hm.
Qed.
Lemma stored_others d name p m s : linv s -> handle_of s name = Some p -> others_kept name s (set_base (stored d p m (base s)) s).
Proof.
  intros Hs Hp. apply (others_kept_intro name p); [done|done| |].
  - intros p' Hne. cbn. by rewrite !lookup_insert_ne.
  - intros name' Hne. split; [done|]. intros Hp'. apply Hne. pose proof (handle_of_spec s name Hs) as H1. pose proof (handle_of_spec s name' Hs) as H2.
    rewrite Hp in H1. rewrite Hp' in H2. destruct H1 as (? & ? & _ & _ & ? & <-), H2 as (? & ? & _ & _ & ? & <-). congruence.
Qed.

(** ** Unregistering *)
Definition unregistered (i : nat) (name : bytes) (p : Z) (s : LoraManager) : LoraManager :=
  set_idx_map (delete name) (set_base (set_store <[i := None]> (set_storage (delete p) (base s))) s).
Lemma unregister_run name p s : linv s -> handle_of s name = Some p ->
  exists i, lora_name_idx_map_ s !! name = Some i /\ UnRegisterLora name s = (if handler_is_avalibile (base s) p then (Ok tt, unregistered i name p s) else (Err CheckFailed, s)) /\
    linv (unregistered i name p s) /\ others_kept name s (unregistered i name p s) /\ GetNumLoras (unregistered i name p s) = GetNumLoras s - 1.
Proof.
  intros Hs Hp. pose proof (handle_of_spec s name Hs) as Hspec. rewrite Hp in Hspec. destruct Hspec as (i & hd & Hname & Hi & Hh & Hn).
  assert (Hilt := lookup_lt_Some _ _ _ Hi).
  assert (Hother : forall j q, i <> j -> weight_handler_store_ (base s) !! j = Some (Some q) -> q <> p).
  { intros j q Hne Hj ->. destruct (li_slot s Hs j p Hj) as (hd' & H1 & _ & _ & H2). rewrite Hh in H1. injection H1 as <-. rewrite Hn in H2. congruence. }
  exists i. split_and!; [done|..].
  - unfold UnRegisterLora. rewrite (bind_ok (handle_at name) _ s s (i, Some p)).
    2: { unfold handle_at. rewrite (bind_ok (gets id) _ s s s eq_refl). cbn [id]. by rewrite Hname, Hi. }
    unfold enforce_avalibile. destruct (handler_is_avalibile (base s) p) eqn:Hav.
    + erewrite (bind_ok (gets id ≫= _)); [|rewrite (bind_ok (gets id) _ s s s eq_refl); cbn [id]; rewrite Hav; reflexivity].
      unfold mbind, M_bind, gets, on_base, zoom, modify. cbn. do 2 f_equal. unfold unregistered, set_idx_map, set_base. cbn.
      unfold set_storage. cbn. by rewrite delete_insert_eq.
    + unfold mbind, M_bind, gets. cbn. by rewrite Hav.
  - constructor; cbn; try apply Hs.
    + apply (minv_mono files check n (set_storage (delete p) (base s))); [apply minv_free, Hs|done..].
    + rewrite length_insert. apply Hs.
    + intros j q Hq. assert (Hne : i <> j) by (intros <-; by rewrite list_lookup_insert_eq in Hq).
      rewrite list_lookup_insert_ne in Hq by done. destruct (li_slot s Hs j q Hq) as (hd' & H1 & H2 & H3 & H4). exists hd'. split_and!; [done|done|done|].
      rewrite lookup_delete_ne; [done|]. intros Heq. rewrite <- Heq, Hname in H4. congruence.
    + intros name' j. rewrite lookup_delete_Some. intros [Hne Hj]. destruct (li_name s Hs name' j Hj) as (q & hd' & H1 & H2 & H3).
      exists q, hd'. rewrite list_lookup_insert_ne; [done|]. intros <-. apply Hne. by apply (slots_injective s name name' i).
    + intros q x. rewrite lookup_delete_Some. intros [Hne Hx]. destruct (li_used s Hs q x Hx) as [H1 [j Hj]]. split; [done|]. exists j.
      rewrite list_lookup_insert_ne; [done|]. intros <-. congruence.
  - apply (others_kept_intro name p); [done|done| |].
    + intros p' Hne. cbn. by rewrite lookup_delete_ne.
    + intros name' Hne. unfold handle_of. cbn. rewrite lookup_delete_ne by done.
      destruct (lora_name_idx_map_ s !! name') as [j|] eqn:E; [|done]. cbn.
      assert (Hij : i <> j) by (intros <-; apply Hne; symmetry; by apply (slots_injective s name name' i)).
      rewrite list_lookup_insert_ne by done. split; [done|]. destruct (weight_handler_store_ (base s) !! j) as [[q|]|] eqn:Ej; cbn; [|done..].
      intros [= ->]. by apply (Hother j p).
  - unfold GetNumLoras. cbn. rewrite map_size_delete, Hname. cbn. destruct (size (lora_name_idx_map_ s)) eqn:E; [|lia].
    apply map_size_empty_inv in E. rewrite E in Hname. by rewrite lookup_empty in Hname.
Qed.
End invariant.
