(* ===== verification/LoraTheorems.v ===== *)
(** The properties of adapters, and concrete runs. *)
From Stdlib Require Import ZArith ZifyBool Lia.
From stdpp Require Import base list gmap strings relations.
From S2P Require Import Prelude StringUtil MemoryReuse WeightSplit WeightFile FileEnds FileTheorems WeightManager WeightManagerProofs Lora LoraProofs.

Section theorems.
Context `{UN : Uninit} (cuda : bool) (files : bytes -> option bytes) (inference_dtype : DataType) (cfg : LoraConfig) (r : RankInfo).
Abbreviation check := (ValidateWeight inference_dtype).
Abbreviation n := (rank_size r).
Hypothesis Hr : valid_rank n r.
Abbreviation max := (cfg_lora_max_num cfg).
Abbreviation linv := (linv files inference_dtype cfg r).
Abbreviation lora_weight := (lora_weight files inference_dtype r).
Abbreviation others_kept := (others_kept files inference_dtype r).
Abbreviation step := (lora_step cuda files inference_dtype cfg).
(** A model whose operators have nothing to reload. *)
Definition initial (m : LoraManager) (ops : nat) : Loras := mkLoras m (List.repeat ∅ ops).

Lemma create_linv m : Create max r = Ok m -> linv m.
Proof.
  unfold Create. destruct (Z.ltb_spec max 0) as [|Hmax]; [done|]. intros [= <-].
  assert (Hslot : forall i p, List.repeat (None (A := Z)) (Z.to_nat max) !! i <> Some (Some p)).
  { intros i p Hi. apply list_elem_of_lookup_2, list_elem_of_In, repeat_spec in Hi. done. }
  constructor.
  - apply (minv_mono files check n empty_manager); [|done..]. apply (start_sinv files check n false).
  - done.
  - done.
  - cbn. rewrite repeat_length. lia.
  - intros i p Hi. by apply Hslot in Hi.
  - intros name i. cbn. by rewrite lookup_empty.
  - intros p x. cbn. by rewrite lookup_empty.
  - intros p [x Hx]. cbn in Hx. by rewrite lookup_empty in Hx.
  - intros p r' st. change (status_of _ p r') with (status_of empty_manager p r'). unfold status_of.
    change (swap_status_ empty_manager) with (∅ : gmap Z (gmap RankInfo SwapStatus)). by rewrite lookup_empty.
Qed.

(** ** Loading by name *)
(** What the file of an adapter gives the rank. *)
Definition adapter_file (path : bytes) : res (AsStatus * gmap bytes Weight) :=
  read_file files check (mkHandler 0 [] path true (cfg_lora_max_rank cfg)) r.
Definition configured (i : nat) (name path : bytes) (s : LoraManager) : LoraManager :=
  set_base (set_config (next (handlers (base s))) false (base (registered cfg i name path s))) (registered cfg i name path s).
Lemma configured_linv p b s : linv s -> linv (set_base (set_config p b (base s)) s).
Proof. intros Hs. constructor; cbn; try apply Hs. apply (minv_mono files check n (base s)); [apply Hs|done..]. Qed.
Lemma new_adapter d target name path s : linv s -> lora_target cfg target = Ok (name, path) ->
  lora_name_idx_map_ s !! name = None -> GetNumLoras s < max ->
  exists i, weight_handler_store_ (base s) !! i = Some None /\ let s1 := configured i name path s in let p := next (handlers (base s)) in
    linv s1 /\ others_kept name s s1 /\ GetNumLoras s1 = GetNumLoras s + 1 /\
    exists hd, handle_of s1 name = Some p /\ handlers (base s1) !! p = Some hd /\ weight_storage_ (base s1) !! p = None /\
    adapter_file path = read_file files check hd r /\
    LoadLoraByName cuda files inference_dtype cfg d target s =
      match adapter_file path with
      | Ok (ALLSPARK_SUCCESS, m) => (Ok ALLSPARK_SUCCESS, set_base (stored r d p m (base s1)) s1)
      | Ok _ => (Err CheckFailed, s1)
      | Err e => (Err e, s1)
      end.
Proof.
  intros Hs Ht Hname Hroom. destruct (register_run files inference_dtype cfg r name path s Hs Hname Hroom) as (i & Hreg & Hi & H1 & H2 & H3 & H4).
  set (p := next (handlers (base s))) in *. set (s0 := registered cfg i name path s) in *. set (s1 := configured i name path s).
  assert (Hs1 : linv s1) by (by apply configured_linv). set (hd := mkHandler (Z.of_nat i) name path true (cfg_lora_max_rank cfg)).
  assert (Hhd : handlers (base s1) !! p = Some hd) by (cbn; by rewrite lookup_insert_eq).
  assert (Hfresh : weight_storage_ (base s1) !! p = None).
  { change (weight_storage_ (base s) !! p = None). destruct (weight_storage_ (base s) !! p) eqn:E; [|done].
    destruct (used_handler files inference_dtype cfg r s p Hs) as [? Hh]; [by eexists|]. unfold p in Hh. by rewrite next_fresh in Hh. }
  exists i. split; [done|]. split; [done|]. split; [exact H3|]. split; [exact H4|]. exists hd. split; [exact H2|]. split; [done|]. split; [done|]. split; [done|].
  unfold LoadLoraByName. rewrite (bind_ok (gets id) _ s s s eq_refl). cbn [id]. replace (max <=? GetNumLoras s) with false by lia.
  rewrite Ht. unfold IsLoraExists. rewrite Hname, bool_decide_false by apply is_Some_None. rewrite (bind_ok _ _ _ _ _ Hreg).
  rewrite (bind_ok (on_base (SetSwapConfig p false)) _ s0 s1 tt eq_refl).
  assert (Hload := load_lora_run cuda files inference_dtype r d p hd (base s1) Hhd eq_refl).
  assert (Hst : swap_status_ (base s1) !! p = None).
  { change (swap_status_ (base s) !! p = None). destruct (swap_status_ (base s) !! p) eqn:E; [|done].
    destruct (li_status _ _ _ _ s Hs p) as [? Hh]; [by eexists|]. unfold p in Hh. by rewrite next_fresh in Hh. }
  specialize (Hload Hst). rewrite (li_rank _ _ _ _ s Hs).
  change (adapter_file path) with (read_file files check hd r) in *. unfold contents in Hload.
  assert (Hob : on_base (LoadWeightForModel cuda files check d p r) s1 =
    let '(o, b) := LoadWeightForModel cuda files check d p r (base s1) in (o, set_base b s1)) by done. rewrite Hload in Hob.
  assert (Hsame : set_base (base s1) s1 = s1) by done.
  destruct (read_file files check hd r) as [[st m]|e]; [|rewrite Hsame in Hob; unfold mbind, M_bind; by rewrite Hob].
  destruct (bool_decide_reflect (st = ALLSPARK_SUCCESS)) as [->|Hne].
  - rewrite (bind_ok _ _ _ _ _ Hob). done.
  - assert (Hst1 : match st with ALLSPARK_SUCCESS => Some m | _ => None end = None) by (by destruct st).
    rewrite Hst1, Hsame in Hob. rewrite (bind_ok _ _ _ _ _ Hob), bool_decide_false by done. cbn [negb].
    destruct (unregister_run files inference_dtype cfg r name p s1 Hs1 H2) as (j & _ & Hun & _).
    assert (Hav : handler_is_avalibile (base s1) p = false).
    { unfold handler_is_avalibile. rewrite Hfresh. apply bool_decide_false, is_Some_None. }
    rewrite Hav in Hun. unfold mbind, M_bind. rewrite Hun. by destruct st.
Qed.
Lemma adapter_refused d target s :
  (max <= GetNumLoras s -> LoadLoraByName cuda files inference_dtype cfg d target s = (Ok ALLSPARK_LORA_NUM_EXCEED_LIMIT_ERROR, s)) /\
  (GetNumLoras s < max -> match lora_target cfg target with
    | Err e => LoadLoraByName cuda files inference_dtype cfg d target s = (Err e, s)
    | Ok (name, _) => is_Some (lora_name_idx_map_ s !! name) -> LoadLoraByName cuda files inference_dtype cfg d target s = (Ok ALLSPARK_SUCCESS, s)
    end).
Proof.
  unfold LoadLoraByName. rewrite (bind_ok (gets id) _ s s s eq_refl). cbn [id]. split; intros Hnum; destruct (Z.leb_spec max (GetNumLoras s)); [done|lia|lia|].
  destruct (lora_target cfg target) as [[name path]|e]; [|done]. intros Hname. unfold IsLoraExists. by rewrite bool_decide_true.
Qed.
Lemma load_lora_linv d target s o s' : linv s -> LoadLoraByName cuda files inference_dtype cfg d target s = (o, s') -> linv s'.
Proof using Hr.
  intros Hs Hrun. destruct (adapter_refused d target s) as [Hfull Hroom]. destruct (Z.le_gt_cases max (GetNumLoras s)) as [H|H].
  { rewrite (Hfull H) in Hrun. by injection Hrun as _ <-. }
  specialize (Hroom H). destruct (lora_target cfg target) as [[name path]|e] eqn:Ht; [|rewrite Hroom in Hrun; by injection Hrun as _ <-].
  destruct (lora_name_idx_map_ s !! name) as [i|] eqn:Hname; [rewrite Hroom in Hrun by (by eexists); by injection Hrun as _ <-|].
  destruct (new_adapter d target name path s Hs Ht Hname H) as (i & _ & Hs1 & _ & _ & hd & Hp & Hh & _ & Hfile & Hrun').
  rewrite Hrun' in Hrun. destruct (adapter_file path) as [[st m]|e]; [|by injection Hrun as _ <-].
  assert (Hcont : st = ALLSPARK_SUCCESS -> contents files check hd r = Some m) by (intros ->; unfold contents; by rewrite <- Hfile).
  destruct st; injection Hrun as _ <-; try exact Hs1. apply (stored_linv files inference_dtype cfg r Hr d name _ hd m (configured i name path s) Hs1 Hp Hh (Hcont eq_refl)).
Qed.

(** ** Unloading by name *)
Lemma unload_run name x : linv (lora_manager_ x) ->
  match handle_of (lora_manager_ x) name with
  | None => UnloadLoraByName name x = (Ok ALLSPARK_SUCCESS, x)
  | Some p => exists i, linv (unregistered i name p (lora_manager_ x)) /\ others_kept name (lora_manager_ x) (unregistered i name p (lora_manager_ x)) /\
      lora_name_idx_map_ (lora_manager_ x) !! name = Some i /\
      UnloadLoraByName name x =
        if handler_is_avalibile (base (lora_manager_ x)) p
        then (Ok ALLSPARK_SUCCESS, mkLoras (unregistered i name p (lora_manager_ x)) (AddTaintedStatus name <$> tainted_lora_names_ x))
        else (Err CheckFailed, x)
  end.
Proof.
  intros Hs. pose proof (handle_of_spec files inference_dtype cfg r _ name Hs) as Hspec. unfold UnloadLoraByName. rewrite (bind_ok (gets id) _ x x x eq_refl). cbn [id].
  unfold IsLoraExists. destruct (handle_of (lora_manager_ x) name) as [p|] eqn:Hp.
  - destruct (unregister_run files inference_dtype cfg r name p _ Hs Hp) as (i & Hi & Hrun & H1 & H2 & _).
    exists i. split; [done|]. split; [done|].
    split; [done|]. rewrite bool_decide_true by by eexists. cbn [negb]. unfold mbind, M_bind, zoom. rewrite Hrun.
    by destruct (handler_is_avalibile _ p), x.
  - by rewrite Hspec, bool_decide_false by apply is_Some_None.
Qed.
Lemma unload_lora_linv name x o x' : linv (lora_manager_ x) -> UnloadLoraByName name x = (o, x') -> linv (lora_manager_ x').
Proof.
  intros Hs Hrun. pose proof (unload_run name x Hs) as Hspec. destruct (handle_of (lora_manager_ x) name) as [p|].
  - destruct Hspec as (i & H1 & _ & _ & H2). rewrite H2 in Hrun. by destruct (handler_is_avalibile _ p); injection Hrun as _ <-.
  - rewrite Hspec in Hrun. by injection Hrun as _ <-.
Qed.
Lemma reachable_linv d m ops x : Create max r = Ok m -> rtc (step d) (initial m ops) x -> linv (lora_manager_ x).
Proof using Hr.
  intros Hm. assert (Hinv : forall y z, rtc (step d) y z -> linv (lora_manager_ y) -> linv (lora_manager_ z)).
  { intros y z Hyz. induction Hyz as [|y y' z Hstep _ IH]; [done|]. intros Hy. apply IH. destruct Hstep as [name s o m' Hrun _|name s o s' Hrun _].
    - by eapply load_lora_linv.
    - by eapply unload_lora_linv. }
  intros Hx. apply (Hinv _ _ Hx). by apply create_linv.
Qed.
Lemma get_lora_others name s s' name' tensor : linv s -> linv s' -> others_kept name s s' -> name' <> name ->
  fst (GetLoraTensorByName name' tensor s') = fst (GetLoraTensorByName name' tensor s).
Proof.
  intros Hs Hs' Hk Hne. rewrite !(get_lora_run files inference_dtype cfg r) by done. destruct (Hk name' Hne) as [H1 H2]. cbn. by rewrite H1, H2.
Qed.
Lemma get_lora_empty name p tensor s : linv s -> handle_of s name = Some p -> weight_storage_ (base s) !! p = None ->
  fst (GetLoraTensorByName name tensor s) = Err (AsException ALLSPARK_RUNTIME_ERROR).
Proof.
  intros Hs Hp Hw. rewrite (get_lora_run files inference_dtype cfg r) by done. cbn. unfold LoraProofs.lora_weight. rewrite Hp. cbn.
  unfold weight_of, slot. rewrite Hw. cbn. by rewrite lookup_empty.
Qed.

Lemma cycle_fields i name path d w s :
  let s1 := configured i name path s in let p := next (handlers (base s)) in let s2 := set_base (stored r d p w (base s1)) s1 in
  handle_of s2 name = handle_of s1 name /\ lora_name_idx_map_ s2 = <[name := i]> (lora_name_idx_map_ s) /\
  weight_storage_ (base s2) = <[p := <[r := Some (next (maps (base s1)))]> (slot (weight_storage_ (base s1)) p)]> (weight_storage_ (base s)) /\
  lora_name_idx_map_ (unregistered i name p s2) = delete name (<[name := i]> (lora_name_idx_map_ s)) /\
  weight_handler_store_ (base (unregistered i name p s2)) = <[i := None]> (<[i := Some p]> (weight_handler_store_ (base s))) /\
  weight_storage_ (base (unregistered i name p s2)) =
    delete p (<[p := <[r := Some (next (maps (base s1)))]> (slot (weight_storage_ (base s1)) p)]> (weight_storage_ (base s))).
Proof. split_and!; reflexivity. Qed.

(** * Theorems *)
(** C25. Loading an adapter by name.  A full table refuses it and a loaded name is
    kept; otherwise the adapter gets a slot of its own, every other adapter keeps
    its weights, and where the file can be read and each weight passes the check
    the rank has exactly the weights of the file.  Where the file is refused the
    process ends, where reading throws the exception leaves the name in its slot,
    without weights. *)
Theorem load_lora_correct d m ops x target o s' :
  Create max r = Ok m -> rtc (step d) (initial m ops) x -> let s := lora_manager_ x in
  LoadLoraByName cuda files inference_dtype cfg d target s = (o, s') ->
  if max <=? GetNumLoras s then o = Ok ALLSPARK_LORA_NUM_EXCEED_LIMIT_ERROR /\ s' = s
  else match lora_target cfg target with
  | Err e => o = Err e /\ s' = s
  | Ok (name, path) =>
      if IsLoraExists s name then o = Ok ALLSPARK_SUCCESS /\ s' = s
      else IsLoraExists s' name = true /\ GetNumLoras s' = GetNumLoras s + 1 /\
        (forall name' tensor, name' <> name -> fst (GetLoraTensorByName name' tensor s') = fst (GetLoraTensorByName name' tensor s)) /\
        let missing := Err (AsException ALLSPARK_RUNTIME_ERROR) in
        match adapter_file path with
        | Ok (ALLSPARK_SUCCESS, w) => o = Ok ALLSPARK_SUCCESS /\
            forall tensor, fst (GetLoraTensorByName name tensor s') = match w !! tensor with Some y => Ok y | None => missing end
        | Ok _ => o = Err CheckFailed /\ forall tensor, fst (GetLoraTensorByName name tensor s') = missing
        | Err e => o = Err e /\ forall tensor, fst (GetLoraTensorByName name tensor s') = missing
        end
  end.
Proof using Hr.
  intros Hm Hx s Hrun. assert (Hs := reachable_linv d m ops x Hm Hx). fold s in Hs. destruct (adapter_refused d target s) as [Hfull Hroom].
  destruct (Z.leb_spec max (GetNumLoras s)) as [H|H]; [rewrite (Hfull H) in Hrun; by injection Hrun as <- <-|]. specialize (Hroom H).
  destruct (lora_target cfg target) as [[name path]|e] eqn:Ht; [|rewrite Hroom in Hrun; by injection Hrun as <- <-].
  unfold IsLoraExists at 1. case_bool_decide as Hex; [rewrite (Hroom Hex) in Hrun; by injection Hrun as <- <-|].
  assert (Hname : lora_name_idx_map_ s !! name = None) by (by apply eq_None_not_Some).
  destruct (new_adapter d target name path s Hs Ht Hname H) as (i & _ & Hs1 & Hk & Hn & hd & Hp & Hh & Hw & Hfile & Hrun').
  rewrite Hrun' in Hrun. set (s1 := configured i name path s) in *. set (p := next (handlers (base s))) in *.
  assert (Hin : IsLoraExists s1 name = true) by (unfold IsLoraExists; cbn; rewrite lookup_insert_eq; by apply bool_decide_true).
  assert (Hothers : forall name' tensor, name' <> name -> fst (GetLoraTensorByName name' tensor s1) = fst (GetLoraTensorByName name' tensor s))
    by (intros name' tensor Hne; by apply (get_lora_others name)).
  assert (Hmiss : forall tensor, fst (GetLoraTensorByName name tensor s1) = Err (AsException ALLSPARK_RUNTIME_ERROR))
    by (intros tensor; by apply (get_lora_empty name p)).
  destruct (adapter_file path) as [[st w]|e]; [|injection Hrun as <- <-; by split_and!].
  destruct (decide (st = ALLSPARK_SUCCESS)) as [->|Hne]; [|destruct st; try done; injection Hrun as <- <-; by split_and!].
  assert (Hcont : contents files check hd r = Some w) by (unfold contents; by rewrite <- Hfile).
  assert (Hs2 := stored_linv files inference_dtype cfg r Hr d name p hd w s1 Hs1 Hp Hh Hcont).
  set (s2 := set_base (stored r d p w (base s1)) s1) in *. assert (Hrun2 : (Ok ALLSPARK_SUCCESS, s2) = (o, s')) by exact Hrun.
  injection Hrun2 as <- <-. clear Hrun. clearbody s1. assert (Hp2 : handle_of s2 name = Some p) by exact Hp.
  split_and!; [done|done| |done|].
  - intros name' tensor Hne. rewrite <- Hothers by done. apply (get_lora_others name); [done|done| |done]. by apply (stored_others files inference_dtype cfg r).
  - intros tensor. rewrite (get_lora_run files inference_dtype cfg r) by done. cbn [fst].
    rewrite Hp2. unfold s2. by rewrite (stored_weights files inference_dtype cfg r Hr d name p hd w s1).
Qed.

(** C26. Unloading undoes loading.  After an adapter was loaded, unloading it gives
    back its name, its slot and the memory of its weights, and every operator of
    [topo_ops_], those of the decoder and of the generation graph, is told to reload
    what comes back under that name. *)
Theorem load_unload_restores d m ops x target name path w :
  Create max r = Ok m -> rtc (step d) (initial m ops) x -> let s := lora_manager_ x in
  GetNumLoras s < max -> lora_target cfg target = Ok (name, path) -> IsLoraExists s name = false ->
  adapter_file path = Ok (ALLSPARK_SUCCESS, w) ->
  exists s1 x2, LoadLoraByName cuda files inference_dtype cfg d target s = (Ok ALLSPARK_SUCCESS, s1) /\
    UnloadLoraByName name (mkLoras s1 (tainted_lora_names_ x)) = (Ok ALLSPARK_SUCCESS, x2) /\
    lora_name_idx_map_ (lora_manager_ x2) = lora_name_idx_map_ s /\
    weight_handler_store_ (base (lora_manager_ x2)) = weight_handler_store_ (base s) /\
    weight_storage_ (base (lora_manager_ x2)) = weight_storage_ (base s) /\
    Forall (fun names => name ∈ names) (tainted_lora_names_ x2).
Proof using Hr.
  intros Hm Hx s Hnum Ht Hex Hfile0. assert (Hs := reachable_linv d m ops x Hm Hx). fold s in Hs.
  assert (Hname : lora_name_idx_map_ s !! name = None) by (apply bool_decide_eq_false in Hex; by apply eq_None_not_Some).
  destruct (new_adapter d target name path s Hs Ht Hname Hnum) as (i & Hi & Hs1 & Hk & Hn & hd & Hp & Hh & Hw & Hfile & Hrun).
  rewrite Hfile0 in Hrun. set (s1 := configured i name path s) in *. set (p := next (handlers (base s))) in *.
  assert (Hcont : contents files check hd r = Some w) by (unfold contents; by rewrite <- Hfile, Hfile0).
  set (s2 := set_base (stored r d p w (base s1)) s1) in *. assert (Hs2 : linv s2) by (by apply (stored_linv files inference_dtype cfg r Hr d name p hd w s1)).
  pose proof (unload_run name (mkLoras s2 (tainted_lora_names_ x)) Hs2) as Hun. cbn [lora_manager_ tainted_lora_names_] in Hun.
  destruct (cycle_fields i name path d w s) as (E1 & E2 & E3 & E4 & E5 & E6). fold s1 p s2 in E1, E2, E3, E4, E5, E6.
  rewrite E1, Hp in Hun. destruct Hun as (j & _ & _ & Hj & Hun). rewrite E2, lookup_insert_eq in Hj. injection Hj as <-.
  assert (Hav : handler_is_avalibile (base s2) p = true) by (unfold handler_is_avalibile; rewrite E3, lookup_insert_eq; by apply bool_decide_true).
  rewrite Hav in Hun. eexists s2, _. split; [exact Hrun|]. split; [exact Hun|]. cbn [lora_manager_ tainted_lora_names_]. split_and!.
  - rewrite E4. by apply delete_insert_id.
  - rewrite E5, list_insert_insert_eq. by apply list_insert_id.
  - rewrite E6. by apply delete_insert_id.
  - apply Forall_fmap, Forall_true. intros names. unfold compose, AddTaintedStatus. set_solver.
Qed.

Lemma check_ends hd name info : check hd name info <> Err Hang.
Proof. unfold ValidateWeight. repeat case_match; done. Qed.
(** C27. In every reachable state the weights an operator gets by the name of an
    adapter are those of the adapter's file for this rank, and they have the type
    of inference; a name that is not loaded fails the check. *)
Theorem adapter_weights d m ops x name tensor :
  Create max r = Ok m -> rtc (step d) (initial m ops) x -> let s := lora_manager_ x in
  exists o, GetLoraTensorByName name tensor s = (o, s) /\
  match o with
  | Ok y => weight_type y = inference_dtype /\ exists p hd w, handle_of s name = Some p /\ handlers (base s) !! p = Some hd /\
      model_name hd = name /\ contents files check hd r = Some w /\ w !! tensor = Some y
  | Err e => e = if IsLoraExists s name then AsException ALLSPARK_RUNTIME_ERROR else CheckFailed
  end.
Proof using Hr.
  intros Hm Hx s. assert (Hs := reachable_linv d m ops x Hm Hx). fold s in Hs. eexists. split; [by apply (get_lora_run files inference_dtype cfg r)|].
  pose proof (handle_of_spec files inference_dtype cfg r s name Hs) as Hspec. unfold LoraProofs.lora_weight, IsLoraExists.
  destruct (handle_of s name) as [p|] eqn:Hp.
  2: { by rewrite Hspec, bool_decide_false by apply is_Some_None. }
  destruct Hspec as (i & hd & Hi & Hsl & Hh & Hn). rewrite Hi, bool_decide_true by by eexists. cbn.
  destruct (weight_of _ _ _ _ p r tensor) as [y|] eqn:Hy; [|done]. unfold weight_of, content_of in Hy.
  destruct (slot _ _ !! r); [|done]. destruct (handler_is_swapout _ p r); [done|]. rewrite Hh in Hy. case_decide; [|done].
  destruct (contents files check hd r) as [w|] eqn:Hc; [|done]. cbn in Hy. split; [|by exists p, hd, w].
  unfold contents, read_file in Hc. destruct (files (weights_path hd)) as [f|]; [|done].
  pose proof (loaded_passed (check hd) (check_ends hd) r f) as Hrun. destruct (WeightFile.LoadWeightForModel _ r f) as [[st w']|e]; [|done].
  assert (w' = w) as -> by (destruct st; congruence). destruct (Hrun tensor y Hy) as (info & Hok & Hty). unfold ValidateWeight in Hok.
  case_bool_decide as Hd; [|done]. congruence.
Qed.

(** The slots are accounted for: never more adapters than configured, a slot
    is taken exactly by the adapter whose name leads to it, no two names share
    one, and every weight that is held belongs to a name that can unload it. *)
Theorem loras_accounted d m ops x :
  Create max r = Ok m -> rtc (step d) (initial m ops) x -> let s := lora_manager_ x in
  GetNumLoras s <= max /\
  (forall i, (exists p, weight_handler_store_ (base s) !! i = Some (Some p)) <-> exists name, lora_name_idx_map_ s !! name = Some i) /\
  (forall name name' i, lora_name_idx_map_ s !! name = Some i -> lora_name_idx_map_ s !! name' = Some i -> name = name') /\
  (forall p y, weight_storage_ (base s) !! p = Some y -> exists name, handle_of s name = Some p).
Proof using Hr.
  intros Hm Hx s. assert (Hs := reachable_linv d m ops x Hm Hx). fold s in Hs. split_and!.
  - by apply (num_loras files inference_dtype cfg r).
  - intros i. split; [intros [p Hp]; destruct (li_slot _ _ _ _ s Hs i p Hp) as (hd & _ & _ & _ & H); by eexists|].
    intros [name Hn]. destruct (li_name _ _ _ _ s Hs name i Hn) as (p & hd & Hp & _). by exists p.
  - intros name name' i. by apply (slots_injective files inference_dtype cfg r).
  - intros p y Hy. destruct (li_used _ _ _ _ s Hs p y Hy) as [_ [i Hi]]. destruct (li_slot _ _ _ _ s Hs i p Hi) as (hd & _ & _ & _ & Hn).
    exists (model_name hd). unfold handle_of. rewrite Hn. cbn. by rewrite Hi.
Qed.

(** An operator asks [HasLoraBias] before it takes the bias of an adapter under
    the name of [GetBiasName]: where the question is answered, the answer is yes
    exactly when the bias can be had. *)
Theorem has_bias_correct d m ops x name weight o s' :
  Create max r = Ok m -> rtc (step d) (initial m ops) x -> let s := lora_manager_ x in
  HasLoraBias name weight s = (o, s') -> s' = s /\
  match o with
  | Ok b => b = true <-> exists y, fst (GetLoraTensorByName name (GetBiasName weight) s) = Ok y
  | Err e => e = OutOfRange \/ e = if IsLoraExists s name then AsException ALLSPARK_RUNTIME_ERROR else CheckFailed
  end.
Proof using Hr.
  intros Hm Hx s. assert (Hs := reachable_linv d m ops x Hm Hx). fold s in Hs. unfold HasLoraBias, mbind at 1, M_bind.
  rewrite (get_handle_run files inference_dtype cfg r) by done. rewrite (get_lora_run files inference_dtype cfg r) by done. cbn [fst].
  pose proof (handle_of_spec files inference_dtype cfg r s name Hs) as Hspec. unfold LoraProofs.lora_weight, IsLoraExists.
  destruct (handle_of s name) as [p|] eqn:Hp.
  2: { intros [= <- <-]. split; [done|]. right. by rewrite Hspec, bool_decide_false by apply is_Some_None. }
  destruct Hspec as (i & hd & Hi & Hsl & Hh & Hn). rewrite Hi, (bool_decide_true (is_Some (Some i))) by by eexists. unfold GetBiasName.
  destruct (replace_at weight _ 7 _) as [bias|e] eqn:Hb.
  2: { intros [= <- <-]. split; [done|]. left. unfold replace_at in Hb. destruct (rfind weight _); [done|by injection Hb as <-]. }
  rewrite (bind_ok (gets id) _ s s s eq_refl). cbn [id]. rewrite (li_rank _ _ _ _ s Hs).
  assert (Hno : forall A, on_base (no_weight (A := A)) s = (Err (AsException ALLSPARK_RUNTIME_ERROR), s)) by (intros A; by destruct s).
  destruct (_ || _) eqn:Hav; [rewrite Hno; intros [= <- <-]; split; [done|by right]|].
  destruct (handler_is_swapout _ p r) eqn:Hout; [rewrite Hno; intros [= <- <-]; split; [done|by right]|].
  apply orb_false_iff in Hav as [_ Hav]. apply negb_false_iff, bool_decide_eq_true in Hav as [q Hq].
  destruct (mi_store _ _ _ _ (li_base _ _ _ _ s Hs) p) as [Hrep _].
  destruct (shared_stands (maps (base s)) _ _ r q Hrep Hq) as [_ (y & Hy & Hc)].
  assert (Hget : on_base (get_weight_on_rank p r) s = (Ok y, s)).
  { unfold on_base, zoom, get_weight_on_rank. rewrite (bind_ok (gets id) _ (base s) (base s) _ eq_refl). cbn [id]. rewrite Hy. by destruct s. }
  rewrite (bind_ok _ _ _ _ _ Hget). intros [= <- <-]. split; [done|]. cbn [mbind option_bind]. unfold weight_of. rewrite Hq, Hout, Hc. cbn [mbind option_bind].
  rewrite bool_decide_eq_true. destruct (weights y !! bias) as [z|]; (split; [intros [? H]|intros [? H]]); try done. by exists z.
Qed.
End theorems.

(** The names of the weights of an adapter, and of their biases. *)
Lemma lora_weight_names o c b :
  let name := b ++ lit ".lora_" ++ [c] ++ lit ".weight" in
  MakeLoraTensorName (o ++ lit ".lora_" ++ [c]) (b ++ lit ".weight") false = Ok name /\
  MakeLoraTensorName (o ++ lit ".lora_" ++ [c]) (b ++ lit ".weight") true = Ok (GetBiasName name) /\
  GetBiasName name = b ++ lit ".lora_" ++ [c] ++ lit ".bias".
Proof.
  assert (Hop : rfind (o ++ lit ".lora_" ++ [c]) (lit ".lora_") = Some (length o)).
  { rewrite (rfind_app o _ _ 0); [by rewrite Nat.add_0_r|]. cbn. by rewrite !andb_false_r. }
  assert (Hw : forall p, rfind (p ++ lit ".weight") (lit ".weight") = Some (length p)) by (intros p; rewrite (rfind_app p _ _ 0); [by rewrite Nat.add_0_r|done]).
  assert (Hr : forall p s by', replace_at (p ++ lit ".weight" ++ s) (Some (length p)) 7 by' = Ok (p ++ by' ++ s)).
  { intros p s by'. unfold replace_at. by rewrite take_app_length, drop_app_add. }
  assert (Hname : forall p, GetBiasName (p ++ lit ".weight") = p ++ lit ".bias").
  { intros p. unfold GetBiasName. rewrite Hw. specialize (Hr p [] (lit ".bias")). rewrite app_nil_r in Hr. by rewrite Hr, app_nil_r. }
  assert (Hnm : b ++ lit ".lora_" ++ [c] ++ lit ".weight" = (b ++ lit ".lora_" ++ [c]) ++ lit ".weight") by (by rewrite <- !app_assoc).
  assert (Hmk : replace_at (b ++ lit ".weight") (rfind (b ++ lit ".weight") (lit ".weight")) 0 (drop (length o) (o ++ lit ".lora_" ++ [c])) =
    Ok ((b ++ lit ".lora_" ++ [c]) ++ lit ".weight")).
  { rewrite Hw, drop_app_length. unfold replace_at. rewrite Nat.add_0_r, take_app_length, drop_app_length. by rewrite <- !app_assoc. }
  cbv zeta. rewrite Hnm. unfold MakeLoraTensorName. rewrite Hop. cbn [suffix_at]. rewrite Hmk. split; [done|]. rewrite Hname.
  split; [|by rewrite <- !app_assoc]. rewrite Hw. specialize (Hr (b ++ lit ".lora_" ++ [c]) [] (lit ".bias")). rewrite app_nil_r in Hr.
  by rewrite Hr, app_nil_r.
Qed.

(** * Concrete runs *)
Module LoraDemo.
#[local] Existing Instance FileDemo.demo_uninit.
Definition file_of (ts : list (bytes * Tensor)) : bytes := SerializeMultipleTensor ts.
Definition adapter : list (bytes * Tensor) :=
  [(lit "q.lora_A.weight", mkT FLOAT16 [2; 1] [1; 2; 3; 4]); (lit "q.lora_B.weight", mkT FLOAT16 [1; 2] [5; 6; 7; 8]); (lit "q.lora_B.bias", mkT FLOAT16 [2] [1; 1; 1; 1])].
(** An adapter, one of another type, one whose file is cut, and none else. *)
Definition files (path : bytes) : option bytes :=
  if bool_decide (path = lit "/models/poet.aslora") then Some (file_of adapter)
  else if bool_decide (path = lit "/models/wide.aslora") then Some (file_of [(lit "q.lora_A.weight", mkT FLOAT32 [1] [1; 2; 3; 4])])
  else if bool_decide (path = lit "/models/cut.aslora") then Some (take 40 (file_of adapter))
  else None.
Definition cfg : LoraConfig := mkLoraConfig (lit "/models/base.asparam") 2 64.
Definition r0 : RankInfo := mkRank 0 1.
Definition empty : LoraManager := mkLora (set_store (fun _ => [None; None]) empty_manager) ∅ r0 2.
Definition load (name : string) : M LoraManager AsStatus := LoadLoraByName false files FLOAT16 cfg CPU (lit name).
Definition after (l : list string) (s : Loras) : Loras :=
  foldl (fun s name => mkLoras (snd (load name (lora_manager_ s))) (tainted_lora_names_ s)) s l.
Definition start : Loras := initial empty 3.
Lemma after_reachable l s : forallb (fun k => survives (fst (load (nth k l EmptyString) (lora_manager_ (after (take k l) s))))) (seq 0 (length l)) = true ->
  rtc (lora_step false files FLOAT16 cfg CPU) s (after l s).
Proof.
  induction l as [|name l IH] using rev_ind; [constructor|]. rewrite length_app, seq_app, forallb_app, andb_true_iff. intros [H1 H2].
  unfold after. rewrite foldl_app. cbn [foldl]. fold (after l s). eapply rtc_r.
  - apply IH. rewrite forallb_forall in H1 |- *. intros k Hk. assert (Hlt := Hk). apply in_seq in Hlt. specialize (H1 k Hk).
    by rewrite app_nth1, take_app_le in H1 by lia.
  - cbn in H2. rewrite andb_true_r, app_nth2, Nat.sub_diag, take_app_length in H2 by lia. cbn [nth] in H2.
    eapply (step_load _ _ _ _ _ (lit name)); [apply surjective_pairing|exact H2].
Qed.
Lemma rank_valid : valid_rank 1 r0.
Proof. split; [done|cbn; lia]. Qed.
Definition one : Loras := after ["poet"] start.
Lemma one_reachable : rtc (lora_step false files FLOAT16 cfg CPU) start one.
Proof. apply after_reachable. vm_compute. reflexivity. Qed.
Definition loaded_map : gmap bytes Weight := match adapter_file files FLOAT16 cfg r0 (lit "/models/poet.aslora") with Ok (_, w) => w | Err _ => ∅ end.
Definition name_of : bytes := lit "poet".
Definition bias_name : bytes := lit "q.lora_B.bias".

Lemma load_lora_correct_witness :
  let s := lora_manager_ start in let s' := lora_manager_ one in
  if cfg_lora_max_num cfg <=? GetNumLoras s then Ok ALLSPARK_SUCCESS = Ok ALLSPARK_LORA_NUM_EXCEED_LIMIT_ERROR /\ s' = s
  else match lora_target cfg name_of with
  | Err e => Ok ALLSPARK_SUCCESS = Err e /\ s' = s
  | Ok (name, path) =>
      if IsLoraExists s name then Ok ALLSPARK_SUCCESS = Ok ALLSPARK_SUCCESS /\ s' = s
      else IsLoraExists s' name = true /\ GetNumLoras s' = GetNumLoras s + 1 /\
        (forall name' tensor, name' <> name -> fst (GetLoraTensorByName name' tensor s') = fst (GetLoraTensorByName name' tensor s)) /\
        let missing := Err (AsException ALLSPARK_RUNTIME_ERROR) in
        match adapter_file files FLOAT16 cfg r0 path with
        | Ok (ALLSPARK_SUCCESS, w) => Ok ALLSPARK_SUCCESS = Ok ALLSPARK_SUCCESS /\
            forall tensor, fst (GetLoraTensorByName name tensor s') = match w !! tensor with Some y => Ok y | None => missing end
        | Ok _ => Ok ALLSPARK_SUCCESS = Err CheckFailed /\ forall tensor, fst (GetLoraTensorByName name tensor s') = missing
        | Err e => Ok ALLSPARK_SUCCESS = Err e /\ forall tensor, fst (GetLoraTensorByName name tensor s') = missing
        end
  end.
Proof.
  assert (Hrun : LoadLoraByName false files FLOAT16 cfg CPU name_of (lora_manager_ start) = (Ok ALLSPARK_SUCCESS, lora_manager_ one)).
  { transitivity (fst (load "poet" (lora_manager_ start)), snd (load "poet" (lora_manager_ start))); [apply surjective_pairing|]. f_equal. }
  exact (load_lora_correct false files FLOAT16 cfg r0 rank_valid CPU empty 3 start name_of (Ok ALLSPARK_SUCCESS) (lora_manager_ one) eq_refl (rtc_refl _ _) Hrun).
Defined.
Lemma load_unload_restores_witness :
  let s := lora_manager_ start in
  exists s1 x2, LoadLoraByName false files FLOAT16 cfg CPU name_of s = (Ok ALLSPARK_SUCCESS, s1) /\
    UnloadLoraByName name_of (mkLoras s1 (tainted_lora_names_ start)) = (Ok ALLSPARK_SUCCESS, x2) /\
    lora_name_idx_map_ (lora_manager_ x2) = lora_name_idx_map_ s /\
    weight_handler_store_ (base (lora_manager_ x2)) = weight_handler_store_ (base s) /\
    weight_storage_ (base (lora_manager_ x2)) = weight_storage_ (base s) /\
    Forall (fun names => name_of ∈ names) (tainted_lora_names_ x2).
Proof.
  refine (load_unload_restores false files FLOAT16 cfg r0 rank_valid CPU empty 3 start name_of name_of (lit "/models/poet.aslora") loaded_map eq_refl _ _ _ _ _).
  - constructor.
  - vm_compute. reflexivity.
  - vm_compute. reflexivity.
  - vm_compute. reflexivity.
  - vm_compute. reflexivity.
Defined.
Lemma adapter_weights_witness :
  let s := lora_manager_ one in
  exists o, GetLoraTensorByName name_of bias_name s = (o, s) /\
  match o with
  | Ok y => weight_type y = FLOAT16 /\ exists p hd w, handle_of s name_of = Some p /\ handlers (base s) !! p = Some hd /\
      model_name hd = name_of /\ contents files (ValidateWeight FLOAT16) hd r0 = Some w /\ w !! bias_name = Some y
  | Err e => e = if IsLoraExists s name_of then AsException ALLSPARK_RUNTIME_ERROR else CheckFailed
  end.
Proof. exact (adapter_weights false files FLOAT16 cfg r0 rank_valid CPU empty 3 one name_of bias_name eq_refl one_reachable). Defined.
Lemma loras_accounted_witness :
  let s := lora_manager_ one in
  GetNumLoras s <= cfg_lora_max_num cfg /\
  (forall i, (exists p, weight_handler_store_ (base s) !! i = Some (Some p)) <-> exists name, lora_name_idx_map_ s !! name = Some i) /\
  (forall name name' i, lora_name_idx_map_ s !! name = Some i -> lora_name_idx_map_ s !! name' = Some i -> name = name') /\
  (forall p y, weight_storage_ (base s) !! p = Some y -> exists name, handle_of s name = Some p).
Proof. exact (loras_accounted false files FLOAT16 cfg r0 rank_valid CPU empty 3 one eq_refl one_reachable). Defined.
Lemma has_bias_correct_witness :
  let s := lora_manager_ one in
  s = s /\ (true = true <-> exists y, fst (GetLoraTensorByName name_of (GetBiasName (lit "q.lora_B.weight")) s) = Ok y).
Proof.
  refine (has_bias_correct false files FLOAT16 cfg r0 rank_valid CPU empty 3 one name_of (lit "q.lora_B.weight") (Ok true) (lora_manager_ one) eq_refl one_reachable _).
  vm_compute. reflexivity.
Defined.

(** ** What goes wrong *)
Definition outcome_of (name : string) (s : Loras) : res AsStatus := fst (load name (lora_manager_ s)).
(** A name without a file. *)
Lemma missing_adapter_undefined : outcome_of "nobody" start = Err UB.
Proof. vm_compute. reflexivity. Qed.
(** An adapter of another type than that of inference, which the check refuses. *)
Lemma refused_adapter_ends_process : outcome_of "wide" start = Err CheckFailed.
Proof. vm_compute. reflexivity. Qed.
(** A file that ends too early: the load throws and leaves the name.  The next load
    of the name succeeds without loading, a request that uses it gets nothing, and
    the name cannot be unloaded. *)
Lemma broken_adapter_stays :
  outcome_of "cut" start = Err (AsException ALLSPARK_RUNTIME_ERROR) /\ outcome_of "cut" (after ["cut"] start) = Ok ALLSPARK_SUCCESS /\
  fst (GetLoraTensorByName (lit "cut") bias_name (lora_manager_ (after ["cut"; "cut"] start))) = Err (AsException ALLSPARK_RUNTIME_ERROR) /\
  fst (UnloadLoraByName (lit "cut") (after ["cut"] start)) = Err CheckFailed.
Proof. vm_compute. split_and!; reflexivity. Qed.
End LoraDemo.
